(* ===== verification/_CoqProject ===== *)
-Q . S2P
Prelude.v
Layout.v
State.v
Mlfq.v
Sched.v
Scheduler.v
Accounting.v
Cstring.v
Spinlock.v
Kalloc.v
Vm.v
VmFacts.v
Uvm.v
UvmAlloc.v
UvmFree.v
VmDemo.v
Pipe.v
Block.v
Bio.v
Log.v
LogCommit.v
LogTx.v
Virtio.v
VirtioDisk.v
Fs.v
Dinode.v
Uart.v
Printf.v
Console.v
File.v
Proc.v
ForkSpec.v
WaitSpec.v
Exec.v
Syscall.v
Sysfile.v
Sysproc.v
Trap.v
Main.v
Typed.v
TypedCore.v
TypedVm.v
TypedLog.v
TypedFs.v
TypedDev.v
TypedProc.v
TypedSys.v
TypedDisk.v
Kernel.v
FsBits.v
FsMap.v
FsContent.v
FsFile.v
FsWrite.v
FsRead.v
FsDir.v
FsPath.v
FsTrunc.v
Mkfs.v
MkfsImage.v
MkfsBuild.v
MkfsMain.v
User.v
Ulib.v
Uprintf.v
Grep.v
Uprogs.v
Uproc.v
Umalloc.v
UmallocInv.v
Grind.v
UtMem.v
UtFile.v
UtProc.v
Sh.v
ShParse.v
ShLine.v
Riscv.v
Trampoline.v
Boot.v
