(* ===== verification/Prelude.v ===== *)
(** * A verification development for hexv6

    hexv6 is xv6 for RISC-V with four scheduling policies (round robin, first come
    first served, priority based and multi-level feedback queues) and the system
    calls [strace], [set_priority] and [waitx].  This library models the kernel, the
    user programs and [mkfs] as Rocq functions and proves what their parts promise to
    each other and to users.

    ** The program and its model

    The kernel's global variables are one record, [State.kstate].  A routine of C is
    a function of the same name in the monad [K A := kstate -> outcome kstate A] of
    this file; an outcome is a result, a [panic], undefined behaviour ([UB]), the end
    of the fuel of a loop, or [Switch s k]: the process gave up the CPU in state [s],
    and [k s'] is what it does when it gets it back in state [s'], whatever other
    processes did in between.  Integers are [Z] with the C type's wrap-around written
    out; kernel memory that holds page tables, pages, pipes and trapframes is a map
    from addresses to bytes; tables of structures are lists.

    - [Prelude]: machine integers, bytes, the monad, tactics.  [Layout]: the
      constants and macros of the headers.  [State]: the structures, the global
      variables, spinlocks as the list of locks this CPU holds.
    - [Mlfq], [Sched], [Scheduler], [Accounting]: the queues, [sleep], [wakeup],
      [kill], sleep locks, the scheduler under each policy, the clock
      ([kernel/proc.c], [kernel/sleeplock.c], part of [kernel/trap.c]).
    - [Spinlock]: [kernel/spinlock.c] on any number of CPUs, as a step relation.
    - [Cstring]: [kernel/string.c].  [Kalloc]: [kernel/kalloc.c].
    - [Vm] (code), [VmFacts], [Uvm], [UvmAlloc], [UvmFree], [VmDemo]: [kernel/vm.c].
    - [Pipe]: [kernel/pipe.c].
    - [Block], [Bio], [Log], [LogCommit], [LogTx]: [kernel/bio.c] and
      [kernel/log.c], with crashes.
    - [Virtio] (code), [VirtioDisk]: [kernel/virtio_disk.c].
    - [Fs], [Uart], [Printf], [Console], [File], [Proc], [Exec], [Syscall],
      [Sysfile], [Sysproc], [Trap]: the code of the other files of [kernel/].
    - [Dinode], [FsBits], [FsMap], [FsContent], [FsFile], [FsWrite], [FsRead],
      [FsDir], [FsPath], [FsTrunc]: what [kernel/fs.c] does to the files on the disk,
      from inodes and the bitmap over the blocks of a file and its bytes to directories,
      paths and truncation.
    - [ForkSpec], [WaitSpec]: what [fork] and [wait] of [kernel/proc.c] do to processes and
      their memory.
    - [Main]: [kernel/main.c] with the initialisers of the devices, and [user/initcode.S].
    - [Riscv]: a hart with its registers, traps, address translation and the instructions
      that the assembly uses, and the accessors of [kernel/riscv.h].  [Trampoline]:
      [kernel/trampoline.S], [kernel/swtch.S] and [kernelvec] as lists of instructions.
      [Boot]: [kernel/entry.S], [kernel/start.c] and [timervec].
    - [Typed] and the [Typed...] files, [Kernel]: a program logic for the whole
      kernel, and what it shows of the system calls.

    [mkfs/mkfs.c] is [Mkfs], in the same monad over the state of that program; the
    host's files and their reads are the parameter [Mkfs.Host].  [MkfsImage],
    [MkfsBuild] and [MkfsMain] relate the image to the kernel's view of a disk.

    A user program is a tree of system calls, [User.prog], that goes on with what the
    kernel answers; the kernel is a parameter, and [User.Stdio] is what programs rely on
    about reading and writing a stream.

    - [User]: programs and their runs.  [Ulib], [Uprintf]: [user/ulib.c] and
      [user/printf.c].
    - [Umalloc] (code), [UmallocInv]: [user/umalloc.c] on the memory of the process.
    - [Sh] (code), [ShParse], [ShLine]: [user/sh.c].  [Grep]: [user/grep.c].
    - [Uprogs]: [cat], [echo], [wc], [kill], [ln], [mkdir], [rm] and [ls].  [Uproc]:
      [init], [strace], [setpriority], [time], [zombie], [forktest], [stressfs] and
      [schedulertest].
    - [Grind]: [user/grind.c].  [UtMem], [UtFile], [UtProc]: [user/usertests.c], the tests
      about memory, about files, and about processes with the program's [main].

    Components meet at interfaces.  The cache is verified against [Bio.Disk] and its
    contract [DiskOk], which [VirtioDisk] discharges for the driver with its device
    and its interrupt; the system calls against [TypedLog.DiskTyped], which
    [TypedDisk] discharges; all code against [State.acquire] and [State.release],
    which [Spinlock.spinlock_implements] relates to [kernel/spinlock.c].

    ** What the theorems show

    - Of every system call, from any well-typed state and under any interference at
      its switches ([Kernel]): tables keep their sizes and indices stay in range, and
      no undefined behaviour happens but the kinds [Typed.may_ub] lists; spinlocks are
      taken and dropped in pairs, and only the process's own is held at a switch;
      every stretch of code between two switches ends.
    - Of the disk stack: a request to the driver is a synchronous transfer; the cache
      refines a map from block numbers to contents with reference counts; [begin_op],
      [log_write] and [end_op] keep the log's invariant; whatever part of the writes
      of a commit or of a recovery reaches the disk, the next boot finds all of the
      transaction or none of it.
    - Of memory: the page allocator never hands out a page in use; [mappages],
      [copyout], [copyinstr], [uvmalloc], [uvmcopy] and [uvmfree] do what they say to
      the address space a user sees, and account for every page, failures included;
      [memmove] copies overlapping regions; the child of [fork] has the memory, the
      registers, the files and the directory of its parent, and 0 as the result; [wait]
      delivers the status of a child and frees exactly the child's pages.
    - Of locks and scheduling: mutual exclusion in every interleaving; no lost wakeup;
      sleep locks exclude; each policy dispatches the process it should; the queues
      refine lists, until they overflow; the clock's accounts add up.
    - Of the hart: a trap from user mode and the return to it keep the process's
      registers, and [usertrapret] prepares what the next trap needs; [swtch] resumes a
      context as it was; an interrupt in the kernel and a timer interrupt are invisible to
      the code that they interrupt; [start] leaves a hart as [main] expects it.
    - Of pipes: a bounded queue of bytes in both directions.
    - Of files: inside a transaction, [writei] puts the data into the bytes of the file
      and changes no other file, and the number of blocks it logs is bounded; [readi]
      returns the bytes; an inode has one entry in the table; a directory is a finite
      map that [dirlookup] looks names up in and [dirlink] extends; [namei] follows a path
      through these maps; [itrunc] returns every block of a file to the bitmap, and no
      other.
    - Of [mkfs]: its image is a file system, as those theorems understand it, with the
      files that it was given.
    - Of user programs: the matcher of [grep] decides the language of its pattern, and
      [grep] prints the lines that match; the shell accepts the lines of its grammar and
      builds their commands; [malloc] never hands out memory that is in use, and [free]
      keeps its list in order; [cat], [wc] and [printf] write what they should; the random
      numbers of [grind] are those of the minimal standard generator; [usertests] reports
      success only when every test ended with status 0 and no page was lost.
    - Of booting: [uartinit] sets the line to 38400 baud and eight bits, and the array
      [initcode] of [kernel/proc.c] is the assembly of [user/initcode.S].

    Some theorems state what the code does where that is not what it should: a byte
    lost by [piperead], a transaction limit that [begin_op] does not keep to, a
    process queued twice, a tie broken against the documentation, a root directory
    longer than its blocks, a line that stops [grep], a request that [malloc] answers
    with too little.

    ** Fuel and bounds

    Recursion that is not structural takes fuel.  Loops over data have a bound that is
    enough: the number of entries of a table, the number of pages or directory
    entries that a size allows; running out of it is an outcome of its own, so that a
    theorem that gives a result shows that it does not happen, and
    [Kernel.syscall_terminates] shows it for the system calls.  Loops that sleep run as
    often as the process is woken; their bound is the field [fuel] of [State.Build],
    the number of switches that a run is followed for.  [Build] also has the
    scheduling policy and the addresses that the linker chooses.  The loops of user
    programs that read to the end of a stream, and those of [init] and the shell that
    end when the system does, or of the tests that go on until they are killed, take
    their fuel as an argument; theorems say how much is
    enough.  The parser's fuel is a function of the length of the line.

    ** What is not modelled

    In the kernel's monad [swtch] is the outcome [Switch]; its instructions are modelled by
    themselves, on a hart whose page-table walk is the parameter [Riscv.MMU] and without a
    translation cache.  The locks that [initlock] initialises are free in the state at boot.
    Interrupts are taken where the model says so ([Trap]
    and [VirtioDisk]), not between any two instructions; spinlocks turn them off on
    the CPU that holds one.  Memory is sequentially consistent.  The disk device, the
    UART and the contents of uninitialised variables are parameters or fields of the
    state.  [ramdisk.c] is not linked, and refers to fields that [struct buf] does not have.

    A user program runs by itself: what other processes do between its calls is in the
    kernel's answers.  The busy loop of [schedulertest] is left out; a child of
    [usertests] that loops without a call is a program that does not finish.  [usys.pl]
    generates the stubs that make the calls. *)

From stdpp Require Import gmap strings list fin_maps numbers.

#[global] Open Scope Z_scope.

(** ** Machine integers

    A C integer is a [Z]; an operation that can leave its type's range is
    wrapped explicitly.  [char] is unsigned on RISC-V. *)

Definition u8 (x : Z) : Z := x mod 2 ^ 8.
Definition u16 (x : Z) : Z := x mod 2 ^ 16.
Definition u32 (x : Z) : Z := x mod 2 ^ 32.
Definition u64 (x : Z) : Z := x mod 2 ^ 64.
Definition s16 (x : Z) : Z := (x + 2 ^ 15) mod 2 ^ 16 - 2 ^ 15.
Definition s32 (x : Z) : Z := (x + 2 ^ 31) mod 2 ^ 32 - 2 ^ 31.

Ltac unfold_words := unfold u8, u16, u32, u64, s16, s32 in *.

(** [word] closes linear goals about wrapped integers. *)
Ltac word := unfold_words; Z.div_mod_to_equations; lia.

Lemma u8_small x : 0 <= x < 256 -> u8 x = x.
Proof. intros. apply Z.mod_small. lia. Qed.
Lemma u32_small x : 0 <= x < 2 ^ 32 -> u32 x = x.
Proof. intros. apply Z.mod_small. lia. Qed.
Lemma u64_small x : 0 <= x < 2 ^ 64 -> u64 x = x.
Proof. intros. apply Z.mod_small. lia. Qed.
Lemma s32_small x : - 2 ^ 31 <= x < 2 ^ 31 -> s32 x = x.
Proof. intros. unfold s32. rewrite Z.mod_small; lia. Qed.

Lemma u8_range x : 0 <= u8 x < 256.
Proof. apply (Z.mod_pos_bound x (2 ^ 8)). lia. Qed.
Lemma u32_range x : 0 <= u32 x < 2 ^ 32.
Proof. apply Z.mod_pos_bound. lia. Qed.
Lemma u64_range x : 0 <= u64 x < 2 ^ 64.
Proof. apply Z.mod_pos_bound. lia. Qed.
Lemma s32_range x : - 2 ^ 31 <= s32 x < 2 ^ 31.
Proof. unfold s32. pose proof (Z.mod_pos_bound (x + 2 ^ 31) (2 ^ 32)). lia. Qed.

(** ** Little-endian encodings *)

Fixpoint le_bytes (n : nat) (v : Z) : list Z :=
  match n with
  | O => []
  | S n => v mod 256 :: le_bytes n (v / 256)
  end.

Fixpoint le_val (l : list Z) : Z :=
  match l with
  | [] => 0
  | b :: l => b + 256 * le_val l
  end.

Lemma length_le_bytes n v : length (le_bytes n v) = n.
Proof. revert v. induction n; intros; simpl; auto. Qed.

Lemma le_bytes_range n v : Forall (fun b => 0 <= b < 256) (le_bytes n v).
Proof.
  revert v. induction n; intros; simpl; constructor; auto.
  apply Z.mod_pos_bound. lia.
Qed.

Lemma le_val_bytes n v : le_val (le_bytes n v) = v mod 256 ^ Z.of_nat n.
Proof.
  revert v. induction n as [|n IH]; intros v; cbn [le_bytes le_val].
  - rewrite Z.mod_1_r. done.
  - rewrite IH. rewrite Nat2Z.inj_succ, Z.pow_succ_r by lia.
    rewrite Z.rem_mul_r by lia. done.
Qed.

Lemma le_val_range l :
  Forall (fun b => 0 <= b < 256) l -> 0 <= le_val l < 256 ^ Z.of_nat (length l).
Proof.
  induction 1 as [|b l Hb _ IH]; [done|].
  cbn [le_val length]. rewrite Nat2Z.inj_succ, Z.pow_succ_r by lia. lia.
Qed.

Lemma le_bytes_val l :
  Forall (fun b => 0 <= b < 256) l -> le_bytes (length l) (le_val l) = l.
Proof.
  induction 1 as [|b l Hb _ IH]; [done|].
  cbn [le_val length le_bytes]. f_equal.
  - rewrite Z.mul_comm, Z.mod_add by lia. by apply Z.mod_small.
  - rewrite Z.mul_comm, Z.div_add by lia. rewrite Z.div_small by lia. done.
Qed.

(** ** Byte-addressed memory

    Physical memory is a finite map from addresses to bytes.  A load reduces
    what it finds to eight bits, so every load is in range by construction. *)

Definition ldb (m : gmap Z Z) (a : Z) : Z := u8 (default 0 (m !! a)).
Definition stb (m : gmap Z Z) (a v : Z) : gmap Z Z := <[a := u8 v]> m.

Fixpoint ldl (m : gmap Z Z) (a : Z) (n : nat) : list Z :=
  match n with
  | O => []
  | S n => ldb m a :: ldl m (a + 1) n
  end.

Fixpoint stl (m : gmap Z Z) (a : Z) (l : list Z) : gmap Z Z :=
  match l with
  | [] => m
  | b :: l => stl (stb m a b) (a + 1) l
  end.

Definition ld32 (m : gmap Z Z) (a : Z) : Z := le_val (ldl m a 4).
Definition st32 (m : gmap Z Z) (a v : Z) : gmap Z Z := stl m a (le_bytes 4 v).
Definition ld64 (m : gmap Z Z) (a : Z) : Z := le_val (ldl m a 8).
Definition st64 (m : gmap Z Z) (a v : Z) : gmap Z Z := stl m a (le_bytes 8 v).

Lemma ldb_range m a : 0 <= ldb m a < 256.
Proof. apply u8_range. Qed.

Lemma ldb_stb m a v x : ldb (stb m a v) x = if decide (x = a) then u8 v else ldb m x.
Proof.
  unfold ldb, stb. rewrite lookup_insert. repeat case_decide; subst; try done.
  simpl. unfold u8. by rewrite Z.mod_mod.
Qed.

Lemma length_ldl m a n : length (ldl m a n) = n.
Proof. revert a. induction n; intros; simpl; auto. Qed.

Lemma ldl_range m a n : Forall (fun b => 0 <= b < 256) (ldl m a n).
Proof. revert a. induction n; intros; simpl; constructor; auto using ldb_range. Qed.

Lemma lookup_ldl m a n i : (i < n)%nat -> ldl m a n !! i = Some (ldb m (a + Z.of_nat i)).
Proof.
  revert a i. induction n as [|n IH]; intros a i Hi; [lia|].
  destruct i as [|i]; simpl; [by rewrite Z.add_0_r|].
  rewrite IH by lia. do 2 f_equal. lia.
Qed.

Lemma ldl_ext m m' a n :
  (forall x, a <= x < a + Z.of_nat n -> ldb m' x = ldb m x) -> ldl m' a n = ldl m a n.
Proof.
  revert a. induction n as [|n IH]; intros a H; simpl; [done|].
  f_equal; [apply H; lia|]. apply IH. intros. apply H. lia.
Qed.

Lemma ldl_app m a n k : ldl m a (n + k) = ldl m a n ++ ldl m (a + Z.of_nat n) k.
Proof.
  revert a. induction n as [|n IH]; intros a; simpl; [by rewrite Z.add_0_r|].
  rewrite IH. do 3 f_equal. lia.
Qed.

Lemma ldb_stl_out m a l x :
  ~ (a <= x < a + Z.of_nat (length l)) -> ldb (stl m a l) x = ldb m x.
Proof.
  revert m a. induction l as [|b l IH]; intros m a H; simpl in *; [done|].
  rewrite IH by lia. rewrite ldb_stb. case_decide; [lia|done].
Qed.

Lemma ldb_stl_in m a l i :
  (i < length l)%nat -> Some (ldb (stl m a l) (a + Z.of_nat i)) = u8 <$> l !! i.
Proof.
  revert m a i. induction l as [|b l IH]; intros m a i H; simpl in *; [lia|].
  destruct i as [|i]; simpl.
  - rewrite ldb_stl_out by lia. rewrite ldb_stb. rewrite decide_True by lia. done.
  - rewrite <- (IH (stb m a b) (a + 1) i) by lia. do 2 f_equal. lia.
Qed.

Lemma ldl_stl_same m a l :
  Forall (fun b => 0 <= b < 256) l -> ldl (stl m a l) a (length l) = l.
Proof.
  intros Hl. apply list_eq_same_length with (n := length l); [done|apply length_ldl|].
  intros i x y Hi H1 H2. rewrite lookup_ldl in H1 by done.
  rewrite ldb_stl_in, H2 in H1 by done. simpl in H1.
  rewrite Forall_lookup in Hl. specialize (Hl _ _ H2). simpl in Hl.
  rewrite u8_small in H1 by done. congruence.
Qed.

Lemma ldl_stl_disj m a l x n :
  x + Z.of_nat n <= a \/ a + Z.of_nat (length l) <= x ->
  ldl (stl m a l) x n = ldl m x n.
Proof. intros. apply ldl_ext. intros. apply ldb_stl_out. lia. Qed.

Lemma ld64_range m a : 0 <= ld64 m a < 2 ^ 64.
Proof.
  pose proof (le_val_range _ (ldl_range m a 8)) as H.
  rewrite length_ldl in H. exact H.
Qed.

Lemma ld32_range m a : 0 <= ld32 m a < 2 ^ 32.
Proof.
  pose proof (le_val_range _ (ldl_range m a 4)) as H.
  rewrite length_ldl in H. exact H.
Qed.

Lemma ld64_st64_eq m a v : ld64 (st64 m a v) a = u64 v.
Proof.
  unfold ld64, st64. rewrite <- (length_le_bytes 8 v) at 2.
  rewrite ldl_stl_same by apply le_bytes_range. by rewrite le_val_bytes.
Qed.

Lemma ld64_st64_ne m a v x : x + 8 <= a \/ a + 8 <= x -> ld64 (st64 m a v) x = ld64 m x.
Proof.
  intros. unfold ld64, st64. rewrite ldl_stl_disj; [done|]. rewrite length_le_bytes. lia.
Qed.

Lemma ldb_st64_ne m a v x : x < a \/ a + 8 <= x -> ldb (st64 m a v) x = ldb m x.
Proof. intros. apply ldb_stl_out. rewrite length_le_bytes. lia. Qed.

(** A store keeps two memories that agree on a byte in agreement. *)
Lemma ldb_stl_cong m m' a l x :
  ldb m x = ldb m' x -> ldb (stl m a l) x = ldb (stl m' a l) x.
Proof.
  revert m m' a. induction l as [|b l IH]; intros m m' a E; simpl; [done|].
  apply IH. rewrite !ldb_stb. by case_decide.
Qed.

Lemma ldb_st64_cong m m' a v x :
  ldb m x = ldb m' x -> ldb (st64 m a v) x = ldb (st64 m' a v) x.
Proof. apply ldb_stl_cong. Qed.

Lemma ld32_st32_eq m a v : ld32 (st32 m a v) a = u32 v.
Proof.
  unfold ld32, st32. rewrite <- (length_le_bytes 4 v) at 2.
  rewrite ldl_stl_same by apply le_bytes_range. by rewrite le_val_bytes.
Qed.

Lemma ld32_st32_ne m a v x : x + 4 <= a \/ a + 4 <= x -> ld32 (st32 m a v) x = ld32 m x.
Proof.
  intros. unfold ld32, st32. rewrite ldl_stl_disj; [done|]. rewrite length_le_bytes. lia.
Qed.

Lemma ldb_st32_ne m a v x : x < a \/ a + 4 <= x -> ldb (st32 m a v) x = ldb m x.
Proof. intros. apply ldb_stl_out. rewrite length_le_bytes. lia. Qed.

Lemma ld32_st64_ne m a v x : x + 4 <= a \/ a + 8 <= x -> ld32 (st64 m a v) x = ld32 m x.
Proof. intros. unfold ld32, st64. rewrite ldl_stl_disj; [done|]. rewrite length_le_bytes. lia. Qed.

Lemma ld64_st32_ne m a v x : x + 8 <= a \/ a + 4 <= x -> ld64 (st32 m a v) x = ld64 m x.
Proof. intros. unfold ld64, st32. rewrite ldl_stl_disj; [done|]. rewrite length_le_bytes. lia. Qed.

Lemma ld64_ext m m' a :
  (forall x, a <= x < a + 8 -> ldb m' x = ldb m x) -> ld64 m' a = ld64 m a.
Proof. intros. unfold ld64. f_equal. apply ldl_ext. auto. Qed.

Lemma ld64_cong m m' a b :
  (forall k, (k < 8)%nat -> ldb m' (b + Z.of_nat k) = ldb m (a + Z.of_nat k)) -> ld64 m' b = ld64 m a.
Proof.
  intros Hk. unfold ld64. f_equal. apply list_eq_same_length with (n := 8%nat); [by rewrite length_ldl..|].
  intros i x y Hi H1 H2. rewrite lookup_ldl in H1, H2 by done. rewrite Hk in H1 by done. congruence.
Qed.

Lemma ld32_ext m m' a :
  (forall x, a <= x < a + 4 -> ldb m' x = ldb m x) -> ld32 m' a = ld32 m a.
Proof. intros. unfold ld32. f_equal. apply ldl_ext. auto. Qed.

(** ** Lists *)

Lemma imap_same {A} (f : nat -> A -> A) (l : list A) :
  (forall i x, l !! i = Some x -> f i x = x) -> imap f l = l.
Proof.
  intros H. apply list_eq. intros i. rewrite list_lookup_imap.
  destruct (l !! i) eqn:E; simpl; [|done]. f_equal. eauto.
Qed.

(** ** Kernel code as a state monad

    A kernel routine maps a state to an outcome.
    - [Ok a s]: it returned [a] and left the state [s];
    - [Panic msg]: it called [panic(msg)];
    - [UB what]: it dereferenced a null or dangling pointer or indexed an array
      out of bounds, where the C code has undefined behaviour;
    - [NoFuel]: the bound given to an unbounded loop ran out;
    - [Switch s k]: it gave up the CPU through [swtch] in state [s]; [k] is the
      rest of the routine, run in the state the scheduler resumes it in. *)

Inductive outcome (St A : Type) : Type :=
| Ok (a : A) (s : St)
| Panic (msg : string)
| UB (what : string)
| NoFuel
| Switch (s : St) (k : St -> outcome St A).
Arguments Ok {St A} a s.
Arguments Panic {St A} msg.
Arguments UB {St A} what.
Arguments NoFuel {St A}.
Arguments Switch {St A} s k.

Definition M (St A : Type) : Type := St -> outcome St A.

Definition ret {St A} (a : A) : M St A := fun s => Ok a s.

Fixpoint obind {St A B} (o : outcome St A) (f : A -> M St B) : outcome St B :=
  match o with
  | Ok a s => f a s
  | Panic msg => Panic msg
  | UB w => UB w
  | NoFuel => NoFuel
  | Switch s k => Switch s (fun s' => obind (k s') f)
  end.

Definition bind {St A B} (m : M St A) (f : A -> M St B) : M St B :=
  fun s => obind (m s) f.

Definition gets {St A} (f : St -> A) : M St A := fun s => Ok (f s) s.
Definition modify {St} (f : St -> St) : M St unit := fun s => Ok tt (f s).
Definition panic {St A} (msg : string) : M St A := fun _ => Panic msg.
Definition ub {St A} (what : string) : M St A := fun _ => UB what.
Definition no_fuel {St A} : M St A := fun _ => NoFuel.
Definition when {St} (b : bool) (m : M St unit) : M St unit := if b then m else ret tt.

(** Dereference a pointer that may be null. *)
Definition deref {St A} (what : string) (o : option A) : M St A :=
  match o with Some a => ret a | None => ub what end.

Fixpoint for_each {St A} (l : list A) (f : A -> M St unit) : M St unit :=
  match l with
  | [] => ret tt
  | a :: l => bind (f a) (fun _ => for_each l f)
  end.

Declare Scope kernel_scope.
Delimit Scope kernel_scope with K.
Notation "'let!' x := m 'in' k" := (bind m (fun x => k))
  (at level 10, x pattern, m at level 100, k at level 200) : kernel_scope.
Notation "m ;; k" := (bind m (fun _ => k))
  (at level 100, k at level 200, right associativity) : kernel_scope.
#[global] Open Scope kernel_scope.

Lemma bind_ok {St A B} (m : M St A) (f : A -> M St B) s a s' :
  m s = Ok a s' -> bind m f s = f a s'.
Proof. unfold bind. by intros ->. Qed.

Lemma bind_Ok_inv {St A B} (m : M St A) (f : A -> M St B) s b s'' :
  bind m f s = Ok b s'' -> exists a s', m s = Ok a s' /\ f a s' = Ok b s''.
Proof. unfold bind. destruct (m s) eqn:E; simpl; try done. eauto. Qed.

Lemma bind_assoc_ok {St A B C} (m : M St A) (f : A -> M St B) (g : B -> M St C) s a s' :
  m s = Ok a s' -> bind (bind m f) g s = bind (f a) g s'.
Proof. unfold bind. by intros ->. Qed.

Lemma for_each_app {St A} (l1 l2 : list A) (f : A -> M St unit) s s' :
  for_each l1 f s = Ok tt s' -> for_each (l1 ++ l2) f s = for_each l2 f s'.
Proof.
  revert s. induction l1 as [|a l1 IH]; intros s; simpl.
  - intros H. by inversion H.
  - intros H. apply bind_Ok_inv in H as ([] & s1 & H1 & H2).
    rewrite (bind_ok _ _ _ _ _ H1). auto.
Qed.

(** A loop whose body always succeeds and preserves [I] succeeds. *)
Lemma for_each_inv {St A} (I : list A -> St -> Prop) (l : list A) (f : A -> M St unit) :
  forall done s,
  I done s ->
  (forall pre a post s, l = pre ++ a :: post -> I (done ++ pre) s ->
     exists s', f a s = Ok tt s' /\ I (done ++ pre ++ [a]) s') ->
  exists s', for_each l f s = Ok tt s' /\ I (done ++ l) s'.
Proof.
  induction l as [|a l IH]; intros done s HI Hstep; simpl.
  - rewrite app_nil_r. eauto.
  - destruct (Hstep [] a l s eq_refl) as (s1 & H1 & HI1); [by rewrite app_nil_r|].
    rewrite (bind_ok _ _ _ _ _ H1). simpl in HI1.
    destruct (IH (done ++ [a]) s1 HI1) as (s2 & H2 & HI2).
    + intros pre b post s' -> HI'.
      destruct (Hstep (a :: pre) b post s' eq_refl) as (s3 & H3 & HI3).
      * by rewrite <- app_assoc in HI'.
      * exists s3. split; [done|]. by rewrite <- app_assoc.
    + exists s2. split; [done|]. by rewrite <- app_assoc in HI2.
Qed.

Create HintDb kernel discriminated.

(** [minv H] splits a successful run of a sequence into its steps. *)
Ltac minv H :=
  lazymatch type of H with
  | bind _ _ _ = Ok _ _ =>
      let a := fresh "r" in let s := fresh "s" in let H1 := fresh "Hr" in
      apply bind_Ok_inv in H; destruct H as (a & s & H1 & H)
  | ret _ _ = Ok _ _ => unfold ret in H; simplify_eq
  | gets _ _ = Ok _ _ => unfold gets in H; simplify_eq
  | modify _ _ = Ok _ _ => unfold modify in H; simplify_eq
  end.

(** [mstep H] runs the first step of the goal's sequence with the equation [H]. *)
Ltac mstep H := rewrite (bind_ok _ _ _ _ _ H).

(** ** Record update

    [rset eta proj v r] is the record [r] with field [proj] set to [v], where
    [eta] rebuilds the record from its projections. *)
Ltac rset eta proj v r :=
  let e := eval cbv beta delta [eta] in (eta r) in
  lazymatch e with
  | context C [proj r] => let t := context C [v] in exact t
  end.

(** Words in memory are read and written as a unit. *)
#[global] Opaque ld32 st32 ld64 st64.
