(* ===== verification/Layout.v ===== *)
(** * Constants and address arithmetic

    The compile-time constants of [kernel/param.h], [kernel/memlayout.h],
    [kernel/riscv.h], [kernel/fs.h], [kernel/stat.h] and [kernel/fcntl.h], the
    address and page-table-entry macros of [kernel/riscv.h], and the lemmas on
    them that the memory components share.  Constants are abbreviations, so
    that [lia] sees their values; macros are definitions. *)

From stdpp Require Import list numbers.
From Stdlib Require Import Zbitwise.
From S2P Require Import Prelude.

(** kernel/param.h *)
Abbreviation NPROC := 64.
Abbreviation NCPU := 8.
Abbreviation NOFILE := 16.
Abbreviation NFILE := 100.
Abbreviation NINODE := 50.
Abbreviation NDEV := 10.
Abbreviation ROOTDEV := 1.
Abbreviation MAXARG := 32.
Abbreviation MAXOPBLOCKS := 10.
Abbreviation LOGSIZE := 30.
Abbreviation NBUF := 30.
Abbreviation FSSIZE := 1000.
Abbreviation MAXPATH := 128.

(** kernel/riscv.h, kernel/memlayout.h *)
Abbreviation PGSIZE := 4096.
Abbreviation PGSHIFT := 12.
Abbreviation PXMASK := 511.
Abbreviation PTE_V := 1.
Abbreviation PTE_R := 2.
Abbreviation PTE_W := 4.
Abbreviation PTE_X := 8.
Abbreviation PTE_U := 16.
Abbreviation UART0 := 0x10000000.
Abbreviation VIRTIO0 := 0x10001000.
Abbreviation CLINT := 0x2000000.
Abbreviation PLIC := 0x0c000000.
Abbreviation KERNBASE := 0x80000000.
Abbreviation PHYSTOP := 0x88000000.
Abbreviation MAXVA := 0x4000000000.
Abbreviation TRAMPOLINE := 0x3ffffff000.
Abbreviation TRAPFRAME := 0x3fffffe000.

(** kernel/fs.h, kernel/stat.h, kernel/fcntl.h *)
Abbreviation ROOTINO := 1.
Abbreviation BSIZE := 1024.
Abbreviation FSMAGIC := 0x10203040.
Abbreviation NDIRECT := 12.
Abbreviation NINDIRECT := 256.
Abbreviation MAXFILE := 268.
Abbreviation IPB := 16.
Abbreviation BPB := 8192.
Abbreviation DIRSIZ := 14.
Abbreviation T_DIR := 1.
Abbreviation T_FILE := 2.
Abbreviation T_DEVICE := 3.
Abbreviation O_RDONLY := 0x000.
Abbreviation O_WRONLY := 0x001.
Abbreviation O_RDWR := 0x002.
Abbreviation O_CREATE := 0x200.
Abbreviation O_TRUNC := 0x400.

(** kernel/riscv.h: [PGROUNDUP(sz)], [PGROUNDDOWN(a)] on [uint64] operands. *)
Definition PGROUNDUP (sz : Z) : Z := Z.land (u64 (sz + PGSIZE - 1)) (Z.lnot (PGSIZE - 1)).
Definition PGROUNDDOWN (a : Z) : Z := Z.land a (Z.lnot (PGSIZE - 1)).

(** kernel/riscv.h: page-table entries. *)
Definition PA2PTE (pa : Z) : Z := u64 (Z.shiftl (Z.shiftr pa 12) 10).
Definition PTE2PA (pte : Z) : Z := u64 (Z.shiftl (Z.shiftr pte 10) 12).
Definition PTE_FLAGS (pte : Z) : Z := Z.land pte 0x3FF.
Definition PXSHIFT (level : Z) : Z := PGSHIFT + 9 * level.
Definition PX (level va : Z) : Z := Z.land (Z.shiftr va (PXSHIFT level)) PXMASK.

(** kernel/memlayout.h: [KSTACK(p)]. *)
Definition KSTACK (p : Z) : Z := TRAMPOLINE - (p + 1) * 2 * PGSIZE.

(** kernel/riscv.h: [MAKE_SATP(pagetable)]. *)
Definition MAKE_SATP (pagetable : Z) : Z := Z.lor (Z.shiftl 8 60) (Z.shiftr pagetable 12).

(** ** Rounding *)

Lemma PGROUNDDOWN_spec a : PGROUNDDOWN a = PGSIZE * (a / PGSIZE).
Proof.
  unfold PGROUNDDOWN. rewrite <- Z.ldiff_land.
  change (PGSIZE - 1) with (Z.ones 12). rewrite Z.ldiff_ones_r by lia.
  rewrite Z.shiftl_mul_pow2, Z.shiftr_div_pow2 by lia.
  change (2 ^ 12) with PGSIZE. lia.
Qed.

Lemma PGROUNDUP_spec sz :
  0 <= sz <= 2 ^ 64 - PGSIZE -> PGROUNDUP sz = PGSIZE * ((sz + PGSIZE - 1) / PGSIZE).
Proof.
  intros. unfold PGROUNDUP. rewrite u64_small by lia.
  change (Z.land ?x (Z.lnot (PGSIZE - 1))) with (PGROUNDDOWN x).
  apply PGROUNDDOWN_spec.
Qed.

Lemma PGROUNDDOWN_aligned a : a mod PGSIZE = 0 -> PGROUNDDOWN a = a.
Proof. rewrite PGROUNDDOWN_spec. intros. Z.div_mod_to_equations. lia. Qed.

Lemma PGROUNDUP_aligned a : 0 <= a <= 2 ^ 64 - PGSIZE -> a mod PGSIZE = 0 -> PGROUNDUP a = a.
Proof. intros. rewrite PGROUNDUP_spec by lia. Z.div_mod_to_equations. lia. Qed.

(** ** Page-table indices *)

Lemma land_511 x : Z.land x 511 = x mod 512.
Proof. change 511 with (Z.ones 9). rewrite Z.land_ones by lia. done. Qed.

Lemma PX_spec level va : 0 <= level -> PX level va = va / 2 ^ (12 + 9 * level) mod 512.
Proof.
  intros. unfold PX, PXSHIFT. rewrite land_511, Z.shiftr_div_pow2 by lia. done.
Qed.

Lemma PX_range level va : 0 <= PX level va < 512.
Proof. unfold PX. rewrite land_511. apply Z.mod_pos_bound. lia. Qed.

Lemma PX_top va : 0 <= va < MAXVA -> PX 2 va < 256.
Proof.
  intros. rewrite PX_spec by lia. change (2 ^ (12 + 9 * 2)) with (2 ^ 30).
  Z.div_mod_to_equations. lia.
Qed.

(** The three indices of an address below [MAXVA] determine its page. *)
Lemma PX_page va :
  0 <= va < MAXVA -> va / PGSIZE = PX 2 va * 2 ^ 18 + PX 1 va * 2 ^ 9 + PX 0 va.
Proof.
  intros. rewrite !PX_spec by lia.
  change (2 ^ (12 + 9 * 2)) with (PGSIZE * 2 ^ 18).
  change (2 ^ (12 + 9 * 1)) with (PGSIZE * 2 ^ 9).
  change (2 ^ (12 + 9 * 0)) with PGSIZE.
  rewrite <- !Z.div_div by lia.
  Z.div_mod_to_equations. lia.
Qed.

(** ** Page-table entries *)

Lemma PA2PTE_spec pa :
  0 <= pa < 2 ^ 64 -> PA2PTE pa = 2 ^ 10 * (pa / PGSIZE).
Proof.
  intros. unfold PA2PTE. rewrite Z.shiftl_mul_pow2, Z.shiftr_div_pow2 by lia.
  change (2 ^ 12) with PGSIZE. rewrite u64_small; Z.div_mod_to_equations; lia.
Qed.

Lemma land_low hi lo n : 0 <= n -> 0 <= lo < 2 ^ n -> Z.land (2 ^ n * hi) lo = 0.
Proof.
  intros Hn Hlo. rewrite Z.mul_comm, <- Z.shiftl_mul_pow2 by lia.
  rewrite <- (Z.mod_small lo (2 ^ n)) by done. rewrite <- Z.land_ones by done.
  apply Z.bits_inj'. intros i Hi. rewrite !Z.land_spec, Z.bits_0.
  destruct (Z.ltb_spec i n).
  - by rewrite Z.shiftl_spec_low by lia.
  - rewrite Z.ones_spec_high by lia. by rewrite !andb_false_r.
Qed.

Lemma lor_low hi lo n : 0 <= n -> 0 <= lo < 2 ^ n -> Z.lor (2 ^ n * hi) lo = 2 ^ n * hi + lo.
Proof.
  intros. rewrite <- Z.add_lor_land. rewrite land_low by done. lia.
Qed.

(** The entry [PA2PTE(pa) | flags] keeps the page and the flags apart. *)
Lemma pte_split pa flags :
  0 <= pa < 2 ^ 56 -> 0 <= flags < 1024 ->
  Z.lor (PA2PTE pa) flags = 2 ^ 10 * (pa / PGSIZE) + flags.
Proof. intros. rewrite PA2PTE_spec by lia. apply lor_low; lia. Qed.

Lemma PTE2PA_PA2PTE pa flags :
  0 <= pa < 2 ^ 56 -> pa mod PGSIZE = 0 -> 0 <= flags < 1024 ->
  PTE2PA (Z.lor (PA2PTE pa) flags) = pa.
Proof.
  intros. rewrite pte_split by lia. unfold PTE2PA.
  rewrite Z.shiftl_mul_pow2, Z.shiftr_div_pow2 by lia.
  rewrite u64_small; Z.div_mod_to_equations; lia.
Qed.

Lemma PTE_FLAGS_spec pte : PTE_FLAGS pte = pte mod 1024.
Proof. unfold PTE_FLAGS. change 0x3FF with (Z.ones 10). by rewrite Z.land_ones by lia. Qed.

Lemma PTE_FLAGS_PA2PTE pa flags :
  0 <= pa < 2 ^ 56 -> 0 <= flags < 1024 -> PTE_FLAGS (Z.lor (PA2PTE pa) flags) = flags.
Proof.
  intros. rewrite PTE_FLAGS_spec, pte_split by lia. Z.div_mod_to_equations. lia.
Qed.

(** A flag test of an entry reads the flags only. *)
Lemma pte_flag_test pa flags f :
  0 <= pa < 2 ^ 56 -> 0 <= flags < 1024 -> 0 <= f < 1024 ->
  Z.land (Z.lor (PA2PTE pa) flags) f = Z.land flags f.
Proof.
  intros. assert (Hf : f = Z.land f 0x3FF).
  { change 0x3FF with (Z.ones 10). rewrite Z.land_ones by lia. by rewrite Z.mod_small by lia. }
  rewrite Hf at 1. rewrite Z.land_comm, <- Z.land_assoc, (Z.land_comm 0x3FF).
  fold (PTE_FLAGS (Z.lor (PA2PTE pa) flags)). rewrite PTE_FLAGS_PA2PTE by lia.
  apply Z.land_comm.
Qed.

Lemma pte_range pa flags :
  0 <= pa < 2 ^ 56 -> 0 <= flags < 1024 -> 0 <= Z.lor (PA2PTE pa) flags < 2 ^ 64.
Proof. intros. rewrite pte_split by lia. Z.div_mod_to_equations. lia. Qed.

Lemma PTE2PA_aligned pte : PTE2PA pte mod PGSIZE = 0.
Proof.
  unfold PTE2PA, u64. rewrite Z.shiftl_mul_pow2 by lia.
  rewrite <- Znumtheory.Zmod_div_mod by (try lia; by exists (2 ^ 52)).
  by rewrite Z.mod_mul by lia.
Qed.

Lemma flags_lor a b : 0 <= a < 1024 -> 0 <= b < 1024 -> 0 <= Z.lor a b < 1024.
Proof.
  intros Ha Hb. assert (E : Z.lor a b = Z.lor a b mod 2 ^ 10).
  { rewrite <- Z.land_ones by lia. rewrite Z.land_lor_distr_l.
    rewrite !Z.land_ones by lia. by rewrite !Z.mod_small by lia. }
  rewrite E. apply (Z.mod_pos_bound _ (2 ^ 10)). lia.
Qed.
