(* ===== verification/State.v ===== *)
(** * The kernel's data

    The structures and global variables of the kernel as one record of state,
    [kstate], with a setter per field, and the primitives every component uses:
    spinlocks as the list of locks this CPU holds, the current process, and
    access to the process table.

    Correspondence with the sources:
    - statically allocated arrays ([proc], [ftable.file], [itable.inode],
      [bcache.buf], [queues]) are lists; a pointer into one is an index, and a
      null pointer is [None];
    - pages handed out by [kalloc] (page tables, trapframes, pipes, user memory)
      live in the byte memory [mem] and are addressed by physical address;
    - a wait channel is the address passed to [sleep]; distinct addresses are
      distinct constructors of [chan].

    One CPU is modelled: a routine runs without interference from one [swtch]
    to the next.  [Spinlock.v] models [kernel/spinlock.c] itself, with several
    CPUs, and relates it to the list of held locks used here. *)

From stdpp Require Import gmap strings list fin_maps.
From S2P Require Import Prelude Layout.

(** The scheduling policy is selected when the kernel is compiled
    ([-D $(SCHEDULER)] in the Makefile), and the linker fixes the addresses of
    [end], [etext], [trampoline] and the entry points whose address is taken.
    [fuel] bounds how often a routine waiting in a [while] loop around [sleep]
    goes back to sleep; the theorems hold for every bound. *)
Inductive policy : Type := DEFAULT | FCFS | PBS | MLFQ.

Class Build : Type := {
  SCHEDULER : policy;
  sym_end : Z;
  sym_etext : Z;
  sym_trampoline : Z;
  sym_forkret : Z;
  fuel : nat
}.

#[global] Instance policy_eq_dec : EqDecision policy.
Proof. solve_decision. Defined.

(** kernel/proc.h: [enum procstate]. *)
Inductive procstate : Type := UNUSED | USED | SLEEPING | RUNNABLE | RUNNING | ZOMBIE.

#[global] Instance procstate_eq_dec : EqDecision procstate.
Proof. solve_decision. Defined.

(** Addresses used as wait channels. *)
Inductive chan : Type :=
| ChProc (i : nat)      (** [p], in [wait] *)
| ChTicks               (** [&ticks] *)
| ChLog                 (** [&log] *)
| ChConsR               (** [&cons.r] *)
| ChUartR               (** [&uart_tx_r] *)
| ChPipeR (pi : Z)      (** [&pi->nread] *)
| ChPipeW (pi : Z)      (** [&pi->nwrite] *)
| ChSlBuf (i : nat)     (** [&b->lock] *)
| ChSlInode (i : nat)   (** [&ip->lock] *)
| ChBuf (i : nat)       (** [b], in [virtio_disk_rw] *)
| ChDiskFree.           (** [&disk.free[0]] *)

#[global] Instance chan_eq_dec : EqDecision chan.
Proof. solve_decision. Defined.

(** Spinlocks. *)
Inductive lock : Type :=
| LkPid | LkWait | LkTicks | LkKmem | LkBcache | LkItable | LkFtable | LkLog
| LkCons | LkUart | LkPr | LkVdisk
| LkProc (i : nat)
| LkPipe (pi : Z)
| LkSlBuf (i : nat)     (** [b->lock.lk] *)
| LkSlInode (i : nat).  (** [ip->lock.lk] *)

#[global] Instance lock_eq_dec : EqDecision lock.
Proof. solve_decision. Defined.

(** kernel/sleeplock.h: the state of a sleep lock; its inner spinlock is named
    by [LkSlBuf] or [LkSlInode]. *)

Record sleeplock : Type := MkSleeplock {
  sl_locked : bool;
  sl_pid : Z  (** process holding the lock *)
}.

Definition sleeplock_eta (r : sleeplock) : sleeplock :=
  MkSleeplock (sl_locked r) (sl_pid r).

Definition set_sl_locked (v : bool) (r : sleeplock) : sleeplock := ltac:(rset sleeplock_eta sl_locked v r).
Definition set_sl_pid (v : Z) (r : sleeplock) : sleeplock := ltac:(rset sleeplock_eta sl_pid v r).

(** kernel/proc.h: [struct context]; [ctx_s] holds [s0]..[s11]. *)
Record context : Type := MkContext {
  ctx_ra : Z;
  ctx_sp : Z;
  ctx_s : list Z
}.

Definition context_eta (r : context) : context :=
  MkContext (ctx_ra r) (ctx_sp r) (ctx_s r).

Definition set_ctx_ra (v : Z) (r : context) : context := ltac:(rset context_eta ctx_ra v r).
Definition set_ctx_sp (v : Z) (r : context) : context := ltac:(rset context_eta ctx_sp v r).
Definition set_ctx_s (v : list Z) (r : context) : context := ltac:(rset context_eta ctx_s v r).

(** kernel/proc.h: [struct proc]; its spinlock is [LkProc i]. *)
Record proc : Type := MkProc {
  p_state : procstate;
  p_chan : option chan;  (** if not [None], sleeping on chan *)
  p_killed : bool;
  p_xstate : Z;  (** exit status for the parent *)
  p_pid : Z;
  p_parent : option nat;
  p_kstack : Z;
  p_sz : Z;  (** size of process memory *)
  p_pagetable : Z;
  p_trapframe : Z;
  p_context : context;
  p_ofile : list (option nat);  (** open files *)
  p_cwd : option nat;
  p_name : list Z;
  p_mask : Z;  (** traced system calls *)
  p_atime : Z;
  p_ctime : Z;
  p_stime : Z;
  p_rtime : Z;
  p_rtime_whole : Z;
  p_rtime_every : Z;
  p_wtime : Z;
  p_wtime_whole : Z;
  p_wtime_every : Z;
  p_etime : Z;
  p_spriority : Z;
  p_priority : Z;
  p_niceness : Z;
  p_nrun : Z;
  p_nrun_whole : Z;
  p_curr_q : Z;
  p_q_val : list Z
}.

Definition proc_eta (r : proc) : proc :=
  MkProc (p_state r) (p_chan r) (p_killed r) (p_xstate r) (p_pid r) (p_parent r) (p_kstack r)
    (p_sz r) (p_pagetable r) (p_trapframe r) (p_context r) (p_ofile r) (p_cwd r)
    (p_name r) (p_mask r) (p_atime r) (p_ctime r) (p_stime r) (p_rtime r)
    (p_rtime_whole r) (p_rtime_every r) (p_wtime r) (p_wtime_whole r) (p_wtime_every r)
    (p_etime r) (p_spriority r) (p_priority r) (p_niceness r) (p_nrun r)
    (p_nrun_whole r) (p_curr_q r) (p_q_val r).

Definition set_p_state (v : procstate) (r : proc) : proc := ltac:(rset proc_eta p_state v r).
Definition set_p_chan (v : option chan) (r : proc) : proc := ltac:(rset proc_eta p_chan v r).
Definition set_p_killed (v : bool) (r : proc) : proc := ltac:(rset proc_eta p_killed v r).
Definition set_p_xstate (v : Z) (r : proc) : proc := ltac:(rset proc_eta p_xstate v r).
Definition set_p_pid (v : Z) (r : proc) : proc := ltac:(rset proc_eta p_pid v r).
Definition set_p_parent (v : option nat) (r : proc) : proc := ltac:(rset proc_eta p_parent v r).
Definition set_p_kstack (v : Z) (r : proc) : proc := ltac:(rset proc_eta p_kstack v r).
Definition set_p_sz (v : Z) (r : proc) : proc := ltac:(rset proc_eta p_sz v r).
Definition set_p_pagetable (v : Z) (r : proc) : proc := ltac:(rset proc_eta p_pagetable v r).
Definition set_p_trapframe (v : Z) (r : proc) : proc := ltac:(rset proc_eta p_trapframe v r).
Definition set_p_context (v : context) (r : proc) : proc := ltac:(rset proc_eta p_context v r).
Definition set_p_ofile (v : list (option nat)) (r : proc) : proc := ltac:(rset proc_eta p_ofile v r).
Definition set_p_cwd (v : option nat) (r : proc) : proc := ltac:(rset proc_eta p_cwd v r).
Definition set_p_name (v : list Z) (r : proc) : proc := ltac:(rset proc_eta p_name v r).
Definition set_p_mask (v : Z) (r : proc) : proc := ltac:(rset proc_eta p_mask v r).
Definition set_p_atime (v : Z) (r : proc) : proc := ltac:(rset proc_eta p_atime v r).
Definition set_p_ctime (v : Z) (r : proc) : proc := ltac:(rset proc_eta p_ctime v r).
Definition set_p_stime (v : Z) (r : proc) : proc := ltac:(rset proc_eta p_stime v r).
Definition set_p_rtime (v : Z) (r : proc) : proc := ltac:(rset proc_eta p_rtime v r).
Definition set_p_rtime_whole (v : Z) (r : proc) : proc := ltac:(rset proc_eta p_rtime_whole v r).
Definition set_p_rtime_every (v : Z) (r : proc) : proc := ltac:(rset proc_eta p_rtime_every v r).
Definition set_p_wtime (v : Z) (r : proc) : proc := ltac:(rset proc_eta p_wtime v r).
Definition set_p_wtime_whole (v : Z) (r : proc) : proc := ltac:(rset proc_eta p_wtime_whole v r).
Definition set_p_wtime_every (v : Z) (r : proc) : proc := ltac:(rset proc_eta p_wtime_every v r).
Definition set_p_etime (v : Z) (r : proc) : proc := ltac:(rset proc_eta p_etime v r).
Definition set_p_spriority (v : Z) (r : proc) : proc := ltac:(rset proc_eta p_spriority v r).
Definition set_p_priority (v : Z) (r : proc) : proc := ltac:(rset proc_eta p_priority v r).
Definition set_p_niceness (v : Z) (r : proc) : proc := ltac:(rset proc_eta p_niceness v r).
Definition set_p_nrun (v : Z) (r : proc) : proc := ltac:(rset proc_eta p_nrun v r).
Definition set_p_nrun_whole (v : Z) (r : proc) : proc := ltac:(rset proc_eta p_nrun_whole v r).
Definition set_p_curr_q (v : Z) (r : proc) : proc := ltac:(rset proc_eta p_curr_q v r).
Definition set_p_q_val (v : list Z) (r : proc) : proc := ltac:(rset proc_eta p_q_val v r).

(** kernel/file.h: [struct file]. *)
Inductive fdtype : Type := FD_NONE | FD_PIPE | FD_INODE | FD_DEVICE.

#[global] Instance fdtype_eq_dec : EqDecision fdtype.
Proof. solve_decision. Defined.

Record file : Type := MkFile {
  f_type : fdtype;
  f_ref : Z;
  f_readable : Z;
  f_writable : Z;
  f_pipe : Z;
  f_ip : option nat;
  f_off : Z;
  f_major : Z
}.

Definition file_eta (r : file) : file :=
  MkFile (f_type r) (f_ref r) (f_readable r) (f_writable r) (f_pipe r) (f_ip r) (f_off r)
    (f_major r).

Definition set_f_type (v : fdtype) (r : file) : file := ltac:(rset file_eta f_type v r).
Definition set_f_ref (v : Z) (r : file) : file := ltac:(rset file_eta f_ref v r).
Definition set_f_readable (v : Z) (r : file) : file := ltac:(rset file_eta f_readable v r).
Definition set_f_writable (v : Z) (r : file) : file := ltac:(rset file_eta f_writable v r).
Definition set_f_pipe (v : Z) (r : file) : file := ltac:(rset file_eta f_pipe v r).
Definition set_f_ip (v : option nat) (r : file) : file := ltac:(rset file_eta f_ip v r).
Definition set_f_off (v : Z) (r : file) : file := ltac:(rset file_eta f_off v r).
Definition set_f_major (v : Z) (r : file) : file := ltac:(rset file_eta f_major v r).

(** kernel/file.h: [struct inode]. *)
Record inode : Type := MkInode {
  i_dev : Z;
  i_inum : Z;
  i_ref : Z;
  i_lock : sleeplock;
  i_valid : bool;
  i_type : Z;
  i_major : Z;
  i_minor : Z;
  i_nlink : Z;
  i_size : Z;
  i_addrs : list Z
}.

Definition inode_eta (r : inode) : inode :=
  MkInode (i_dev r) (i_inum r) (i_ref r) (i_lock r) (i_valid r) (i_type r) (i_major r)
    (i_minor r) (i_nlink r) (i_size r) (i_addrs r).

Definition set_i_dev (v : Z) (r : inode) : inode := ltac:(rset inode_eta i_dev v r).
Definition set_i_inum (v : Z) (r : inode) : inode := ltac:(rset inode_eta i_inum v r).
Definition set_i_ref (v : Z) (r : inode) : inode := ltac:(rset inode_eta i_ref v r).
Definition set_i_lock (v : sleeplock) (r : inode) : inode := ltac:(rset inode_eta i_lock v r).
Definition set_i_valid (v : bool) (r : inode) : inode := ltac:(rset inode_eta i_valid v r).
Definition set_i_type (v : Z) (r : inode) : inode := ltac:(rset inode_eta i_type v r).
Definition set_i_major (v : Z) (r : inode) : inode := ltac:(rset inode_eta i_major v r).
Definition set_i_minor (v : Z) (r : inode) : inode := ltac:(rset inode_eta i_minor v r).
Definition set_i_nlink (v : Z) (r : inode) : inode := ltac:(rset inode_eta i_nlink v r).
Definition set_i_size (v : Z) (r : inode) : inode := ltac:(rset inode_eta i_size v r).
Definition set_i_addrs (v : list Z) (r : inode) : inode := ltac:(rset inode_eta i_addrs v r).

(** kernel/buf.h: [struct buf]; [b_prev] and [b_next] are indices, [NBUF] standing
    for [&bcache.head]. *)
Record buf : Type := MkBuf {
  b_valid : bool;
  b_disk : bool;
  b_dev : Z;
  b_blockno : Z;
  b_lock : sleeplock;
  b_refcnt : Z;
  b_prev : nat;
  b_next : nat;
  b_data : list Z
}.

Definition buf_eta (r : buf) : buf :=
  MkBuf (b_valid r) (b_disk r) (b_dev r) (b_blockno r) (b_lock r) (b_refcnt r) (b_prev r)
    (b_next r) (b_data r).

Definition set_b_valid (v : bool) (r : buf) : buf := ltac:(rset buf_eta b_valid v r).
Definition set_b_disk (v : bool) (r : buf) : buf := ltac:(rset buf_eta b_disk v r).
Definition set_b_dev (v : Z) (r : buf) : buf := ltac:(rset buf_eta b_dev v r).
Definition set_b_blockno (v : Z) (r : buf) : buf := ltac:(rset buf_eta b_blockno v r).
Definition set_b_lock (v : sleeplock) (r : buf) : buf := ltac:(rset buf_eta b_lock v r).
Definition set_b_refcnt (v : Z) (r : buf) : buf := ltac:(rset buf_eta b_refcnt v r).
Definition set_b_prev (v : nat) (r : buf) : buf := ltac:(rset buf_eta b_prev v r).
Definition set_b_next (v : nat) (r : buf) : buf := ltac:(rset buf_eta b_next v r).
Definition set_b_data (v : list Z) (r : buf) : buf := ltac:(rset buf_eta b_data v r).

(** kernel/fs.h: [struct superblock]. *)
Record superblock : Type := MkSuperblock {
  sb_magic : Z;
  sb_size : Z;
  sb_nblocks : Z;
  sb_ninodes : Z;
  sb_nlog : Z;
  sb_logstart : Z;
  sb_inodestart : Z;
  sb_bmapstart : Z
}.

Definition superblock_eta (r : superblock) : superblock :=
  MkSuperblock (sb_magic r) (sb_size r) (sb_nblocks r) (sb_ninodes r) (sb_nlog r) (sb_logstart r)
    (sb_inodestart r) (sb_bmapstart r).

Definition set_sb_magic (v : Z) (r : superblock) : superblock := ltac:(rset superblock_eta sb_magic v r).
Definition set_sb_size (v : Z) (r : superblock) : superblock := ltac:(rset superblock_eta sb_size v r).
Definition set_sb_nblocks (v : Z) (r : superblock) : superblock := ltac:(rset superblock_eta sb_nblocks v r).
Definition set_sb_ninodes (v : Z) (r : superblock) : superblock := ltac:(rset superblock_eta sb_ninodes v r).
Definition set_sb_nlog (v : Z) (r : superblock) : superblock := ltac:(rset superblock_eta sb_nlog v r).
Definition set_sb_logstart (v : Z) (r : superblock) : superblock := ltac:(rset superblock_eta sb_logstart v r).
Definition set_sb_inodestart (v : Z) (r : superblock) : superblock := ltac:(rset superblock_eta sb_inodestart v r).
Definition set_sb_bmapstart (v : Z) (r : superblock) : superblock := ltac:(rset superblock_eta sb_bmapstart v r).

(** kernel/log.c: [struct log], with the fields of [struct logheader] inlined. *)
Record klog : Type := MkLog {
  log_start : Z;
  log_size : Z;
  log_outstanding : Z;
  log_committing : bool;
  log_dev : Z;
  lh_n : Z;
  lh_block : list Z
}.

Definition klog_eta (r : klog) : klog :=
  MkLog (log_start r) (log_size r) (log_outstanding r) (log_committing r) (log_dev r)
    (lh_n r) (lh_block r).

Definition set_log_start (v : Z) (r : klog) : klog := ltac:(rset klog_eta log_start v r).
Definition set_log_size (v : Z) (r : klog) : klog := ltac:(rset klog_eta log_size v r).
Definition set_log_outstanding (v : Z) (r : klog) : klog := ltac:(rset klog_eta log_outstanding v r).
Definition set_log_committing (v : bool) (r : klog) : klog := ltac:(rset klog_eta log_committing v r).
Definition set_log_dev (v : Z) (r : klog) : klog := ltac:(rset klog_eta log_dev v r).
Definition set_lh_n (v : Z) (r : klog) : klog := ltac:(rset klog_eta lh_n v r).
Definition set_lh_block (v : list Z) (r : klog) : klog := ltac:(rset klog_eta lh_block v r).

(** kernel/console.c: [cons]. *)
Record console : Type := MkCons {
  cons_buf : list Z;
  cons_r : Z;
  cons_w : Z;
  cons_e : Z
}.

Definition console_eta (r : console) : console :=
  MkCons (cons_buf r) (cons_r r) (cons_w r) (cons_e r).

Definition set_cons_buf (v : list Z) (r : console) : console := ltac:(rset console_eta cons_buf v r).
Definition set_cons_r (v : Z) (r : console) : console := ltac:(rset console_eta cons_r v r).
Definition set_cons_w (v : Z) (r : console) : console := ltac:(rset console_eta cons_w v r).
Definition set_cons_e (v : Z) (r : console) : console := ltac:(rset console_eta cons_e v r).

(** kernel/uart.c: the transmit ring, and the device as the driver sees it. *)
Record uart : Type := MkUart {
  uart_tx_buf : list Z;
  uart_tx_w : Z;
  uart_tx_r : Z;
  uart_out : list Z;  (** bytes written to [THR] *)
  uart_in : list Z;  (** bytes waiting to be read from [RHR] *)
  uart_lsr : list bool  (** what the next reads of [LSR_TX_IDLE] will give; then set *)
}.

Definition uart_eta (r : uart) : uart :=
  MkUart (uart_tx_buf r) (uart_tx_w r) (uart_tx_r r) (uart_out r) (uart_in r) (uart_lsr r).

Definition set_uart_tx_buf (v : list Z) (r : uart) : uart := ltac:(rset uart_eta uart_tx_buf v r).
Definition set_uart_tx_w (v : Z) (r : uart) : uart := ltac:(rset uart_eta uart_tx_w v r).
Definition set_uart_tx_r (v : Z) (r : uart) : uart := ltac:(rset uart_eta uart_tx_r v r).
Definition set_uart_out (v : list Z) (r : uart) : uart := ltac:(rset uart_eta uart_out v r).
Definition set_uart_in (v : list Z) (r : uart) : uart := ltac:(rset uart_eta uart_in v r).
Definition set_uart_lsr (v : list bool) (r : uart) : uart := ltac:(rset uart_eta uart_lsr v r).

(** kernel/virtio.h, kernel/virtio_disk.c: [struct disk].  A descriptor's [addr]
    is the object it points at. *)
Inductive dma : Type :=
| DmaNull
| DmaOp (i : nat)       (** [&disk.ops[i]] *)
| DmaData (b : nat)     (** [b->data] *)
| DmaStatus (i : nat).  (** [&disk.info[i].status] *)

Record vdesc : Type := MkDesc {
  d_addr : dma;
  d_len : Z;
  d_flags : Z;
  d_next : Z
}.

Record vreq : Type := MkReq {
  op_type : Z;
  op_reserved : Z;
  op_sector : Z
}.

Record virtio : Type := MkVirtio {
  vd_desc : list vdesc;
  vd_avail_idx : Z;
  vd_avail : list Z;  (** [avail->ring] *)
  vd_used_dev : Z;  (** [used->idx] *)
  vd_used : list Z;  (** the [id]s of [used->ring] *)
  vd_free : list bool;
  vd_used_idx : Z;
  vd_info_b : list (option nat);
  vd_info_status : list Z;
  vd_ops : list vreq
}.

Definition virtio_eta (r : virtio) : virtio :=
  MkVirtio (vd_desc r) (vd_avail_idx r) (vd_avail r) (vd_used_dev r) (vd_used r) (vd_free r)
    (vd_used_idx r) (vd_info_b r) (vd_info_status r) (vd_ops r).

Definition set_vd_desc (v : list vdesc) (r : virtio) : virtio := ltac:(rset virtio_eta vd_desc v r).
Definition set_vd_avail_idx (v : Z) (r : virtio) : virtio := ltac:(rset virtio_eta vd_avail_idx v r).
Definition set_vd_avail (v : list Z) (r : virtio) : virtio := ltac:(rset virtio_eta vd_avail v r).
Definition set_vd_used_dev (v : Z) (r : virtio) : virtio := ltac:(rset virtio_eta vd_used_dev v r).
Definition set_vd_used (v : list Z) (r : virtio) : virtio := ltac:(rset virtio_eta vd_used v r).
Definition set_vd_free (v : list bool) (r : virtio) : virtio := ltac:(rset virtio_eta vd_free v r).
Definition set_vd_used_idx (v : Z) (r : virtio) : virtio := ltac:(rset virtio_eta vd_used_idx v r).
Definition set_vd_info_b (v : list (option nat)) (r : virtio) : virtio := ltac:(rset virtio_eta vd_info_b v r).
Definition set_vd_info_status (v : list Z) (r : virtio) : virtio := ltac:(rset virtio_eta vd_info_status v r).
Definition set_vd_ops (v : list vreq) (r : virtio) : virtio := ltac:(rset virtio_eta vd_ops v r).

(** ** The kernel's state *)
Record kstate : Type := MkState {
  held : list lock;  (** spinlocks this CPU holds, latest first *)
  cur : option nat;  (** [mycpu()->proc] *)
  mem : gmap Z Z;  (** physical memory *)
  freelist : Z;  (** [kmem.freelist] *)
  kernel_pagetable : Z;
  procs : list proc;
  initproc : option nat;
  nextpid : Z;
  queues : list (list (option nat));  (** MLFQ queues *)
  q_index : list Z;
  ticks : Z;
  ftable : list file;
  itable : list inode;
  bcache : list buf;
  disk : gmap Z (list Z);
  sb : superblock;
  klogst : klog;
  cons : console;
  uartst : uart;
  vdisk : virtio;
  disk_writes : list (Z * list Z)  (** blocks written to the disk, latest first *)
}.

Definition kstate_eta (r : kstate) : kstate :=
  MkState (held r) (cur r) (mem r) (freelist r) (kernel_pagetable r) (procs r) (initproc r)
    (nextpid r) (queues r) (q_index r) (ticks r) (ftable r) (itable r) (bcache r)
    (disk r) (sb r) (klogst r) (cons r) (uartst r) (vdisk r) (disk_writes r).

Definition set_held (v : list lock) (r : kstate) : kstate := ltac:(rset kstate_eta held v r).
Definition set_cur (v : option nat) (r : kstate) : kstate := ltac:(rset kstate_eta cur v r).
Definition set_mem (v : gmap Z Z) (r : kstate) : kstate := ltac:(rset kstate_eta mem v r).
Definition set_freelist (v : Z) (r : kstate) : kstate := ltac:(rset kstate_eta freelist v r).
Definition set_kernel_pagetable (v : Z) (r : kstate) : kstate := ltac:(rset kstate_eta kernel_pagetable v r).
Definition set_procs (v : list proc) (r : kstate) : kstate := ltac:(rset kstate_eta procs v r).
Definition set_initproc (v : option nat) (r : kstate) : kstate := ltac:(rset kstate_eta initproc v r).
Definition set_nextpid (v : Z) (r : kstate) : kstate := ltac:(rset kstate_eta nextpid v r).
Definition set_queues (v : list (list (option nat))) (r : kstate) : kstate := ltac:(rset kstate_eta queues v r).
Definition set_q_index (v : list Z) (r : kstate) : kstate := ltac:(rset kstate_eta q_index v r).
Definition set_ticks (v : Z) (r : kstate) : kstate := ltac:(rset kstate_eta ticks v r).
Definition set_ftable (v : list file) (r : kstate) : kstate := ltac:(rset kstate_eta ftable v r).
Definition set_itable (v : list inode) (r : kstate) : kstate := ltac:(rset kstate_eta itable v r).
Definition set_bcache (v : list buf) (r : kstate) : kstate := ltac:(rset kstate_eta bcache v r).
Definition set_disk (v : gmap Z (list Z)) (r : kstate) : kstate := ltac:(rset kstate_eta disk v r).
Definition set_sb (v : superblock) (r : kstate) : kstate := ltac:(rset kstate_eta sb v r).
Definition set_klogst (v : klog) (r : kstate) : kstate := ltac:(rset kstate_eta klogst v r).
Definition set_cons (v : console) (r : kstate) : kstate := ltac:(rset kstate_eta cons v r).
Definition set_uartst (v : uart) (r : kstate) : kstate := ltac:(rset kstate_eta uartst v r).
Definition set_vdisk (v : virtio) (r : kstate) : kstate := ltac:(rset kstate_eta vdisk v r).
Definition set_disk_writes (v : list (Z * list Z)) (r : kstate) : kstate := ltac:(rset kstate_eta disk_writes v r).

Abbreviation K A := (M kstate A).

(** ** Spinlocks, as seen by the code that uses them

    kernel/spinlock.c: [acquire] panics when this CPU already holds the lock,
    [release] when it does not. *)

Definition holding (lk : lock) (s : kstate) : bool := bool_decide (lk ∈ held s).

Definition acquire (lk : lock) : K unit := fun s =>
  if holding lk s then Panic "acquire" else Ok tt (set_held (lk :: held s) s).

Definition release (lk : lock) : K unit := fun s =>
  if holding lk s then Ok tt (set_held (filter (.≠ lk) (held s)) s) else Panic "release".

(** ** Processes *)

(** kernel/proc.c: [myproc()]. *)
Definition myproc : K (option nat) := gets cur.

(** [myproc()] where the caller dereferences the result. *)
Definition curproc : K nat :=
  let! o := myproc in deref "myproc" o.

Definition pget (i : nat) : K proc := fun s =>
  match procs s !! i with Some p => Ok p s | None => UB "proc" end.

Definition pupd (i : nat) (f : proc -> proc) : K unit := fun s =>
  match procs s !! i with
  | Some p => Ok tt (set_procs (<[i := f p]> (procs s)) s)
  | None => UB "proc"
  end.

Definition zero_context : context := MkContext 0 0 (replicate 12 0).

(** A zero-initialised [struct proc]. *)
Definition zero_proc : proc :=
  MkProc UNUSED None false 0 0 None 0 0 0 0 zero_context (replicate 16 None) None
    (replicate 16 0) 0 0 0 0 0 0 0 0 0 0 0 0 0 0 0 0 0 (replicate 5 0).

Definition zero_file : file := MkFile FD_NONE 0 0 0 0 None 0 0.
Definition zero_sleeplock : sleeplock := MkSleeplock false 0.
Definition zero_inode : inode :=
  MkInode 0 0 0 zero_sleeplock false 0 0 0 0 0 (replicate 13 0).
Definition zero_buf : buf :=
  MkBuf false false 0 0 zero_sleeplock 0 0 0 (replicate 1024 0).

Definition zero_vdisk : virtio :=
  MkVirtio (replicate 8 (MkDesc DmaNull 0 0 0)) 0 (replicate 8 0) 0 (replicate 8 0)
    (replicate 8 false) 0 (replicate 8 None) (replicate 8 0) (replicate 8 (MkReq 0 0 0)).

(** kernel/proc.c: the initial values of the global variables; [q_index] starts
    at [(uint64)-1]. *)
Definition boot_state : kstate :=
  MkState [] None ∅ 0 0 (replicate 64 zero_proc) None 1
    (replicate 5 (replicate 64 None)) (replicate 5 (u64 (-1))) 0
    (replicate 100 zero_file) (replicate 50 zero_inode) (replicate 31 zero_buf) ∅
    (MkSuperblock 0 0 0 0 0 0 0 0) (MkLog 0 0 0 false 0 0 (replicate 30 0))
    (MkCons (replicate 128 0) 0 0 0) (MkUart (replicate 32 0) 0 0 [] [] []) zero_vdisk [].

(** ** Lemmas on the primitives *)

(** [kcbv] evaluates chains of updates and projections of a state, inside out.
    [state_eq s] proves that two such chains over [s] are the same state. *)
Ltac kcbv := cbv beta iota delta [
    held cur mem freelist kernel_pagetable procs initproc nextpid queues q_index
    ticks ftable itable bcache disk sb klogst cons uartst vdisk disk_writes set_held set_cur set_mem
    set_freelist set_kernel_pagetable set_procs set_initproc set_nextpid set_queues
    set_q_index set_ticks set_ftable set_itable set_bcache set_disk set_sb
    set_klogst set_cons set_uartst set_vdisk set_disk_writes].
Ltac state_eq s := destruct s; kcbv; reflexivity.

Lemma acquire_ok lk s : lk ∉ held s -> acquire lk s = Ok tt (set_held (lk :: held s) s).
Proof. intros. unfold acquire, holding. by rewrite bool_decide_false by done. Qed.

Lemma release_ok lk s h :
  held s = lk :: h -> lk ∉ h -> release lk s = Ok tt (set_held h s).
Proof.
  intros Hh Hn. unfold release, holding. rewrite Hh.
  rewrite bool_decide_true by (apply list_elem_of_here).
  do 2 f_equal. rewrite filter_cons_False by auto.
  clear Hh. induction h as [|x h IH]; [done|].
  rewrite filter_cons_True by set_solver. f_equal. apply IH. set_solver.
Qed.

Lemma set_held_held s : set_held (held s) s = s.
Proof. by destruct s. Qed.

Lemma set_mem_mem s : set_mem (mem s) s = s.
Proof. by destruct s. Qed.

Lemma pget_ok i p s : procs s !! i = Some p -> pget i s = Ok p s.
Proof. unfold pget. by intros ->. Qed.

Lemma pupd_ok i f p s :
  procs s !! i = Some p -> pupd i f s = Ok tt (set_procs (<[i := f p]> (procs s)) s).
Proof. unfold pupd. by intros ->. Qed.

(** Code that rewrites one process: [upd_at i m p q] says that [m] turns entry
    [i] from [p] into [q] and does nothing else. *)
Definition upd_at (i : nat) (m : K unit) (p q : proc) : Prop :=
  forall s, procs s !! i = Some p -> m s = Ok tt (set_procs (<[i := q]> (procs s)) s).

Lemma upd_at_ret i p : upd_at i (ret tt) p p.
Proof. intros s H. unfold ret. rewrite list_insert_id by done. by destruct s. Qed.

Lemma upd_at_pupd i f p : upd_at i (pupd i f) p (f p).
Proof. intros s H. by apply pupd_ok. Qed.

Lemma upd_at_get i k p q : upd_at i (k p) p q -> upd_at i (let! x := pget i in k x) p q.
Proof. intros Hk s H. mstep (pget_ok _ _ _ H). by apply Hk. Qed.

Lemma upd_at_seq i m n p q r :
  upd_at i m p q -> upd_at i n q r -> upd_at i (m ;; n) p r.
Proof.
  intros Hm Hn s H. mstep (Hm s H).
  rewrite Hn by (simpl; apply list_lookup_insert_eq; by eapply lookup_lt_Some).
  simpl. rewrite list_insert_insert_eq. by destruct s.
Qed.

Lemma upd_at_when i (b : bool) m p q r :
  (if b then r = q else r = p) -> upd_at i m p q -> upd_at i (when b m) p r.
Proof. intros Hr Hm. destruct b; subst; [done|apply upd_at_ret]. Qed.

Lemma upd_at_locked i m p q s :
  upd_at i m p q -> LkProc i ∉ held s -> procs s !! i = Some p ->
  (acquire (LkProc i) ;; m ;; release (LkProc i)) s =
    Ok tt (set_procs (<[i := q]> (procs s)) s).
Proof.
  intros Hm Hn H. mstep (acquire_ok _ _ Hn). mstep (Hm (set_held (LkProc i :: held s) s) H).
  rewrite (release_ok _ _ (held s)) by done. by destruct s.
Qed.

#[export] Hint Resolve upd_at_ret upd_at_pupd upd_at_get upd_at_seq : kernel.

(** ** A concrete build and table, for evaluating the definitions *)

Definition demo_build (pol : policy) : Build :=
  {| SCHEDULER := pol; sym_end := 0x80022000; sym_etext := 0x80008000;
     sym_trampoline := 0x80007000; sym_forkret := 0x80001a00; fuel := 10 |}.

(** A process with the given id, state, creation time, priority and run count. *)
Definition demo_proc (pid : Z) (st : procstate) (ctime prio nrun : Z) : proc :=
  set_p_nrun nrun (set_p_priority prio (set_p_ctime ctime (set_p_state st (set_p_pid pid zero_proc)))).

(** Process 5 in slot 3 and process 9 in slot 4, both runnable and of the same
    priority; process 9 is older and has run more often.  Process 7 in slot 5
    sleeps on [&ticks]. *)
Definition demo_table : list proc :=
  <[5%nat := set_p_chan (Some ChTicks) (demo_proc 7 SLEEPING 3 60 0)]>
    (<[4%nat := demo_proc 9 RUNNABLE 2 60 3]>
      (<[3%nat := demo_proc 5 RUNNABLE 6 60 1]> (replicate 64 zero_proc))).

Definition demo_state : kstate := set_procs demo_table boot_state.
