(* ===== verification/Mlfq.v ===== *)
(** * The multi-level feedback queues

    [init_queues], [push] and [pop] of [kernel/proc.c], on the arrays
    [queues[5][NPROC]] and [q_index[5]] of the source.  [q_index[q]] is the
    [uint64] index of the last entry of queue [q], [(uint64)-1] when the queue
    is empty.  The abstract specification is a list of process-table indices
    per queue: [push] appends to one, [pop] deletes from one. *)

From stdpp Require Import gmap strings list fin_maps.
From S2P Require Import Prelude Layout State.

Definition NQUEUE : nat := 5.

(** [queues[q][i]]: undefined behaviour outside of the arrays. *)
Definition queue_get (q : nat) (i : Z) : K (option nat) := fun s =>
  match queues s !! q with
  | Some row =>
      if (0 <=? i) && (i <? NPROC) then
        match row !! Z.to_nat i with Some x => Ok x s | None => UB "queues" end
      else UB "queues"
  | None => UB "queues"
  end.

(** [queues[q][i] = x]. *)
Definition queue_set (q : nat) (i : Z) (x : option nat) : K unit := fun s =>
  match queues s !! q with
  | Some row =>
      if (0 <=? i) && (i <? NPROC) then
        Ok tt (set_queues (<[q := <[Z.to_nat i := x]> row]> (queues s)) s)
      else UB "queues"
  | None => UB "queues"
  end.

Definition qindex_get (q : nat) : K Z := fun s =>
  match q_index s !! q with Some x => Ok x s | None => UB "q_index" end.

Definition qindex_set (q : nat) (v : Z) : K unit := fun s =>
  match q_index s !! q with
  | Some _ => Ok tt (set_q_index (<[q := v]> (q_index s)) s)
  | None => UB "q_index"
  end.

(** The clamping of the queue number at the head of [push] and [pop]. *)
Definition clamp_q (q : Z) : nat :=
  let q := if q <? 0 then 0 else q in
  let q := if 4 <? q then 4 else q in
  Z.to_nat q.

Definition init_queues : K unit :=
  for_each (seq 0 NQUEUE) (fun i =>
    for_each (seq 0 (Z.to_nat NPROC)) (fun j => queue_set i (Z.of_nat j) None)).

Definition push (p : nat) (q : Z) : K unit :=
  let q := clamp_q q in
  let! x := qindex_get q in
  qindex_set q (u64 (x + 1)) ;;
  queue_set q (u64 (x + 1)) (Some p) ;;
  pupd p (fun pr => set_p_atime 0 (set_p_wtime 0 (set_p_rtime 0
                     (set_p_curr_q (Z.of_nat q) pr)))).

(** [for(int i = 0; i<q_index[q]+1; i++) if(p->pid == queues[q][i]->pid) temp = i;]
    The bound is recomputed in [uint64], so it is 0 for an empty queue.  Index
    [NPROC] is already outside of the array, so [NPROC + 1] rounds are enough. *)
Fixpoint pop_find (fuel : nat) (pid : Z) (q : nat) (i temp : Z) : K Z :=
  match fuel with
  | O => no_fuel
  | S fuel =>
      let! x := qindex_get q in
      if i <? u64 (x + 1) then
        let! e := queue_get q i in
        let! j := deref "queues[q][i]" e in
        let! pr := pget j in
        pop_find fuel pid q (i + 1) (if pid =? p_pid pr then i else temp)
      else ret temp
  end.

(** [for(int i = temp; i<q_index[q]; i++) queues[q][i] = queues[q][i+1];] *)
Fixpoint pop_shift (fuel : nat) (q : nat) (i : Z) : K unit :=
  match fuel with
  | O => no_fuel
  | S fuel =>
      let! x := qindex_get q in
      if i <? x then
        let! e := queue_get q (i + 1) in
        queue_set q i e ;;
        pop_shift fuel q (i + 1)
      else ret tt
  end.

Definition pop (p : nat) : K unit :=
  let! pr := pget p in
  let q := clamp_q (p_curr_q pr) in
  let! temp := pop_find 65 (p_pid pr) q 0 (-1) in
  if temp =? -1 then ret tt
  else
    pop_shift 65 q temp ;;
    let! x := qindex_get q in
    queue_set q x None ;;
    qindex_set q (u64 (x - 1)).

(** ** Abstract queues *)

(** Queue [q]'s row and index hold the list [l] of process-table indices. *)
Definition repr_row (row : list (option nat)) (x : Z) (l : list nat) : Prop :=
  (length l <= 64)%nat /\
  row = (Some <$> l) ++ replicate (64 - length l) None /\
  x = u64 (Z.of_nat (length l) - 1).

Definition repr (s : kstate) (qs : list (list nat)) : Prop :=
  length (queues s) = NQUEUE /\ length (q_index s) = NQUEUE /\ length qs = NQUEUE /\
  forall q l, qs !! q = Some l ->
    exists row x, queues s !! q = Some row /\ q_index s !! q = Some x /\ repr_row row x l.

(** [pid_of ps j pid]: table entry [j] has process id [pid]. *)
Definition pid_of (ps : list proc) (j : nat) : option Z := p_pid <$> ps !! j.

(** The position [pop] deletes: the last entry with the same process id. *)
Fixpoint find_last (ps : list proc) (pid : Z) (l : list nat) (i temp : Z) : Z :=
  match l with
  | [] => temp
  | j :: l =>
      find_last ps pid l (i + 1)
        (if bool_decide (pid_of ps j = Some pid) then i else temp)
  end.

Definition spec_push (p : nat) (q : nat) (qs : list (list nat)) : list (list nat) :=
  alter (fun l => l ++ [p]) q qs.

Definition spec_pop (ps : list proc) (pid : Z) (q : nat) (qs : list (list nat)) : list (list nat) :=
  alter (fun l =>
           let t := find_last ps pid l 0 (-1) in
           if t =? -1 then l else delete (Z.to_nat t) l) q qs.

(** Every queue entry is a slot of the process table. *)
Definition entries_ok (ps : list proc) (l : list nat) : Prop :=
  Forall (fun j => (j < length ps)%nat) l.

Lemma clamp_q_lt q : (clamp_q q < NQUEUE)%nat.
Proof. unfold clamp_q, NQUEUE. repeat case_match; lia. Qed.

Lemma clamp_q_id q : (q < NQUEUE)%nat -> clamp_q (Z.of_nat q) = q.
Proof. unfold clamp_q, NQUEUE. intros. repeat case_match; lia. Qed.

Lemma repr_lookup s qs q :
  repr s qs -> (q < NQUEUE)%nat ->
  exists l row x, qs !! q = Some l /\ queues s !! q = Some row /\
    q_index s !! q = Some x /\ repr_row row x l.
Proof.
  intros (_ & _ & Hl & H) Hq.
  destruct (lookup_lt_is_Some_2 qs q) as [l El]; [lia|].
  destruct (H q l El) as (row & x & ? & ? & ?). eauto 8.
Qed.

(** Changing one queue of the arrays changes that queue only. *)
Lemma repr_update s s' qs q row x l :
  repr s qs -> (q < NQUEUE)%nat ->
  queues s' = <[q := row]> (queues s) -> q_index s' = <[q := x]> (q_index s) ->
  repr_row row x l -> repr s' (<[q := l]> qs).
Proof.
  intros (H1 & H2 & H3 & H) Hq Eq Ex Hrow.
  unfold repr. rewrite Eq, Ex, !length_insert. split_and!; auto.
  intros q' l' Hl'. destruct (decide (q' = q)) as [->|Hne].
  - rewrite list_lookup_insert_eq in Hl' by lia. simplify_eq.
    exists row, x. rewrite !list_lookup_insert_eq by lia. auto.
  - rewrite list_lookup_insert_ne in Hl' by done.
    rewrite !list_lookup_insert_ne by done. auto.
Qed.

Lemma alter_insert_list {A} (f : A -> A) (l : list A) i x :
  l !! i = Some x -> alter f i l = <[i := f x]> l.
Proof.
  revert i. induction l as [|y l IH]; intros [|i] H; simplify_eq/=; [done|].
  change (y :: alter f i l = y :: <[i := f x]> l). by rewrite IH.
Qed.

Lemma repr_row_len row x l : repr_row row x l -> length row = 64%nat.
Proof.
  intros (? & -> & _). rewrite length_app, length_fmap, length_replicate. lia.
Qed.

Lemma repr_row_lookup row x l i :
  repr_row row x l -> (i < length l)%nat -> exists j, l !! i = Some j /\ row !! i = Some (Some j).
Proof.
  intros (_ & -> & _) Hi. destruct (lookup_lt_is_Some_2 l i Hi) as [j Hj].
  exists j. split; [done|]. rewrite lookup_app_l by (by rewrite length_fmap).
  by rewrite list_lookup_fmap, Hj.
Qed.

Lemma repr_row_bound row x l : repr_row row x l -> u64 (x + 1) = Z.of_nat (length l).
Proof.
  intros (Hl & _ & ->). unfold u64.
  rewrite Zplus_mod_idemp_l. rewrite Z.mod_small; lia.
Qed.

(** ** The loops of [pop] *)

Lemma qindex_get_ok q x s : q_index s !! q = Some x -> qindex_get q s = Ok x s.
Proof. unfold qindex_get. by intros ->. Qed.

Lemma qindex_set_ok q x v s :
  q_index s !! q = Some x -> qindex_set q v s = Ok tt (set_q_index (<[q := v]> (q_index s)) s).
Proof. unfold qindex_set. by intros ->. Qed.

Lemma queue_get_ok q row i e s :
  queues s !! q = Some row -> (i < 64)%nat -> row !! i = Some e ->
  queue_get q (Z.of_nat i) s = Ok e s.
Proof.
  intros H Hi He. unfold queue_get. rewrite H, Nat2Z.id, He.
  destruct (Z.leb_spec 0 (Z.of_nat i)), (Z.ltb_spec (Z.of_nat i) 64); try lia. done.
Qed.

Lemma queue_set_ok q row i e s :
  queues s !! q = Some row -> (i < 64)%nat ->
  queue_set q (Z.of_nat i) e s = Ok tt (set_queues (<[q := <[i := e]> row]> (queues s)) s).
Proof.
  intros H Hi. unfold queue_set. rewrite H, Nat2Z.id.
  destruct (Z.leb_spec 0 (Z.of_nat i)), (Z.ltb_spec (Z.of_nat i) 64); try lia. done.
Qed.

Lemma pop_find_ok s q row x l pid :
  queues s !! q = Some row -> q_index s !! q = Some x -> repr_row row x l ->
  entries_ok (procs s) l ->
  forall fuel i temp, (i <= length l)%nat -> (length l - i < fuel)%nat ->
  pop_find fuel pid q (Z.of_nat i) temp s =
    Ok (find_last (procs s) pid (drop i l) (Z.of_nat i) temp) s.
Proof.
  intros Hrow Hx Hr Hent. induction fuel as [|fuel IH]; intros i temp Hi Hf; [lia|].
  cbn [pop_find]. mstep (qindex_get_ok _ _ _ Hx). rewrite (repr_row_bound _ _ _ Hr).
  destruct (Z.ltb_spec (Z.of_nat i) (Z.of_nat (length l))) as [Hlt|Hge].
  - destruct (repr_row_lookup _ _ _ i Hr) as (j & Hj & Hrj); [lia|].
    assert (Hi64 : (i < 64)%nat) by (destruct Hr; lia).
    mstep (queue_get_ok _ _ _ _ _ Hrow Hi64 Hrj).
    unfold bind at 1. cbn [deref obind ret].
    destruct (lookup_lt_is_Some_2 (procs s) j) as [pr Hpr].
    { unfold entries_ok in Hent. rewrite Forall_lookup in Hent. eauto. }
    mstep (pget_ok _ _ _ Hpr).
    rewrite (drop_S _ _ _ Hj). cbn [find_last].
    replace (Z.of_nat i + 1) with (Z.of_nat (S i)) by lia.
    rewrite IH by lia. do 2 f_equal.
    unfold pid_of. rewrite Hpr. simpl.
    destruct (Z.eqb_spec pid (p_pid pr)); [rewrite bool_decide_true by congruence|
      rewrite bool_decide_false by congruence]; done.
  - rewrite drop_ge by lia. done.
Qed.

(** The shift loop moves the entries after [i] down by one. *)
Lemma pop_shift_ok q x n s row :
  queues s !! q = Some row -> q_index s !! q = Some x -> length row = 64%nat ->
  x = Z.of_nat n -> (n < 64)%nat ->
  forall fuel i, (i <= n)%nat -> (n - i < fuel)%nat ->
  exists row', pop_shift fuel q (Z.of_nat i) s = Ok tt (set_queues (<[q := row']> (queues s)) s) /\
    length row' = 64%nat /\
    forall j, row' !! j = if decide (i <= j < n)%nat then row !! S j else row !! j.
Proof.
  intros Hrow Hx Hlen -> Hn fuel. revert s row Hrow Hx Hlen.
  induction fuel as [|fuel IH]; intros s row Hrow Hx Hlen i Hi Hf; [lia|].
  cbn [pop_shift]. mstep (qindex_get_ok _ _ _ Hx).
  destruct (Z.ltb_spec (Z.of_nat i) (Z.of_nat n)).
  - destruct (lookup_lt_is_Some_2 row (S i)) as [e He]; [lia|].
    replace (Z.of_nat i + 1) with (Z.of_nat (S i)) by lia.
    mstep (queue_get_ok _ _ (S i) e s Hrow ltac:(lia) He).
    mstep (queue_set_ok _ _ i e s Hrow ltac:(lia)).
    assert (Hq : (q < length (queues s))%nat) by (by eapply lookup_lt_Some).
    destruct (IH (set_queues (<[q:=<[i:=e]> row]> (queues s)) s) (<[i:=e]> row))
      with (i := S i) as (row' & Hrun & Hl' & Hrow'); simpl; auto; try lia.
    + by rewrite list_lookup_insert_eq by done.
    + by rewrite length_insert.
    + exists row'. rewrite Hrun. simpl. rewrite list_insert_insert_eq. split_and!; [done|done|].
      intros j. rewrite Hrow'.
      destruct (decide (j = i)) as [->|Hne].
      * rewrite decide_False, decide_True by lia. rewrite list_lookup_insert_eq by lia. congruence.
      * destruct (decide (i <= j < n)%nat), (decide (S i <= j < n)%nat); try lia;
          by rewrite list_lookup_insert_ne by lia.
  - exists row. rewrite list_insert_id by done. split_and!; [by destruct s|done|].
    intros j. by rewrite decide_False by lia.
Qed.

Lemma find_last_range ps pid l i temp :
  -1 <= temp < i -> 0 <= i ->
  find_last ps pid l i temp = temp \/
  i <= find_last ps pid l i temp < i + Z.of_nat (length l).
Proof.
  revert i temp. induction l as [|j l IH]; intros i temp Ht Hi; cbn [find_last length]; [auto|].
  case_bool_decide.
  - destruct (IH (i + 1) i) as [-> | ?]; lia.
  - destruct (IH (i + 1) temp) as [-> | ?]; lia.
Qed.

Lemma repr_row_delete row row' n l t :
  repr_row row (Z.of_nat n) l -> length l = S n -> (t <= n)%nat ->
  length row' = 64%nat ->
  (forall j, row' !! j = if decide (t <= j < n)%nat then row !! S j else row !! j) ->
  repr_row (<[n := None]> row') (u64 (Z.of_nat n - 1)) (delete t l).
Proof.
  intros Hr Hl Ht Hlen' Hrow'. pose proof (repr_row_len _ _ _ Hr) as Hlen.
  destruct Hr as (Hle & Erow & _).
  assert (Hdel : length (delete t l) = n) by (rewrite length_delete; [lia|]; apply lookup_lt_is_Some; lia).
  split_and!; [lia| |by rewrite Hdel].
  apply list_eq_same_length with (n := 64%nat).
  - rewrite length_app, length_fmap, length_replicate, Hdel. lia.
  - by rewrite length_insert.
  - intros j a b Hj Ha Hb. rewrite Hdel in Hb.
    destruct (decide (j = n)) as [->|Hne].
    + rewrite list_lookup_insert_eq in Ha by lia.
      rewrite lookup_app_r in Hb by (rewrite length_fmap; lia).
      apply lookup_replicate in Hb as [-> _]. congruence.
    + rewrite list_lookup_insert_ne, Hrow' in Ha by done.
      assert (Hrow_l : forall k, (k < S n)%nat -> row !! k = Some <$> l !! k).
      { intros k Hk. rewrite Erow, lookup_app_l by (rewrite length_fmap; lia).
        by rewrite list_lookup_fmap. }
      destruct (decide (j < n)%nat).
      * rewrite lookup_app_l, list_lookup_fmap in Hb by (rewrite length_fmap; lia).
        destruct (decide (t <= j < n)%nat).
        -- rewrite list_lookup_delete_ge in Hb by lia. rewrite Hrow_l in Ha by lia. congruence.
        -- rewrite list_lookup_delete_lt in Hb by lia. rewrite Hrow_l in Ha by lia. congruence.
      * rewrite decide_False in Ha by lia.
        rewrite lookup_app_r in Hb by (rewrite length_fmap; lia).
        apply lookup_replicate in Hb as [-> _].
        rewrite Erow, lookup_app_r in Ha by (rewrite length_fmap; lia).
        apply lookup_replicate in Ha as [-> _]. done.
Qed.

(** ** Refinement *)

(** What [push] does to the pushed process. *)
Definition pushed (q : nat) (pr : proc) : proc :=
  set_p_atime 0 (set_p_wtime 0 (set_p_rtime 0 (set_p_curr_q (Z.of_nat q) pr))).

Lemma repr_row_snoc row x l p :
  repr_row row x l -> (length l < 64)%nat ->
  repr_row (<[length l := Some p]> row) (u64 (x + 1)) (l ++ [p]).
Proof.
  intros Hr Hl. pose proof (repr_row_bound _ _ _ Hr) as Hx.
  destruct Hr as (_ & -> & _). unfold repr_row. rewrite Hx, length_app. simpl.
  split_and!; [lia| |rewrite u64_small; lia].
  rewrite insert_app_r_alt by (rewrite length_fmap; lia).
  rewrite length_fmap, Nat.sub_diag.
  destruct (64 - length l)%nat as [|k] eqn:E; [lia|]. simpl.
  rewrite fmap_app. simpl. rewrite <- app_assoc. simpl.
  replace (64 - (length l + 1))%nat with k by lia. done.
Qed.

Lemma push_step s qs p pr q (l : list nat) :
  repr s qs -> procs s !! p = Some pr -> qs !! clamp_q q = Some l ->
  exists row x, queues s !! clamp_q q = Some row /\ repr_row row x l /\
    push p q s =
      (queue_set (clamp_q q) (Z.of_nat (length l)) (Some p) ;;
       pupd p (pushed (clamp_q q)))
        (set_q_index (<[clamp_q q := Z.of_nat (length l)]> (q_index s)) s).
Proof.
  intros Hrep Hp Hq. pose proof (clamp_q_lt q) as Hlt.
  destruct (repr_lookup _ _ _ Hrep Hlt) as (l' & row & x & Hl' & Hrow & Hx & Hr).
  simplify_eq. exists row, x. split_and!; [done|done|].
  pose proof (repr_row_bound _ _ _ Hr) as Hb.
  unfold push. cbv zeta. mstep (qindex_get_ok _ _ _ Hx).
  mstep (qindex_set_ok _ _ (u64 (x + 1)) _ Hx). by rewrite Hb.
Qed.

Lemma push_run s qs p pr q (l : list nat) :
  repr s qs -> procs s !! p = Some pr -> qs !! clamp_q q = Some l -> (length l < 64)%nat ->
  exists qq qi, push p q s =
      Ok tt (set_procs (<[p := pushed (clamp_q q) pr]> (procs s))
              (set_queues qq (set_q_index qi s))) /\
    repr (set_queues qq (set_q_index qi s)) (spec_push p (clamp_q q) qs).
Proof.
  intros Hrep Hp Hq Hl.
  destruct (push_step s qs p pr q l Hrep Hp Hq) as (row & x & Hrow & Hr & ->).
  set (s1 := set_q_index _ s).
  mstep (queue_set_ok _ _ (length l) (Some p) s1 Hrow Hl).
  rewrite (pupd_ok p _ pr) by done.
  eexists _, _. split; [reflexivity|].
  unfold spec_push. rewrite (alter_insert_list _ _ _ _ Hq).
  eapply repr_update; [done|apply clamp_q_lt|reflexivity|reflexivity|].
  pose proof (repr_row_bound _ _ _ Hr) as Hb. rewrite <- Hb. by apply repr_row_snoc.
Qed.

(** C37: [push] implements appending to an abstract queue: on a queue of fewer
    than [NPROC] entries it returns, the arrays then hold queue number
    [clamp_q q] with [p] appended and the other queues unchanged, and the only
    other effect is that [p]'s [curr_q], [rtime], [wtime] and [atime] are set;
    on a queue of [NPROC] entries it writes outside of its row of the array. *)
Theorem push_refines s qs p pr q (l : list nat) :
  repr s qs -> procs s !! p = Some pr -> qs !! clamp_q q = Some l ->
  ((length l < 64)%nat ->
     exists qq qi, push p q s =
         Ok tt (set_procs (<[p := pushed (clamp_q q) pr]> (procs s))
                 (set_queues qq (set_q_index qi s))) /\
       repr (set_queues qq (set_q_index qi s)) (spec_push p (clamp_q q) qs)) /\
  (length l = 64%nat -> push p q s = UB "queues").
Proof.
  intros Hrep Hp Hq. split; [by eapply push_run|]. intros Hl.
  destruct (push_step s qs p pr q l Hrep Hp Hq) as (row & x & Hrow & Hr & ->).
  rewrite Hl. unfold bind, queue_set. simpl. by rewrite Hrow.
Qed.

(** [pop] implements deletion from an abstract queue: it removes, from the
    queue the process's [curr_q] names, the last entry with the process's id,
    closing the gap, and changes nothing when there is none; it never touches
    the process table. *)
Theorem pop_refines s qs p pr :
  repr s qs -> procs s !! p = Some pr -> Forall (entries_ok (procs s)) qs ->
  exists qq qi, pop p s = Ok tt (set_queues qq (set_q_index qi s)) /\
    repr (set_queues qq (set_q_index qi s))
      (spec_pop (procs s) (p_pid pr) (clamp_q (p_curr_q pr)) qs).
Proof.
  intros Hrep Hp Hent. set (q := clamp_q (p_curr_q pr)).
  pose proof (clamp_q_lt (p_curr_q pr)) as Hlt. fold q in Hlt.
  destruct (repr_lookup _ _ _ Hrep Hlt) as (l & row & x & Hl & Hrow & Hx & Hr).
  assert (He : entries_ok (procs s) l) by (rewrite Forall_lookup in Hent; eauto).
  assert (Hlen : (length l <= 64)%nat) by (by destruct Hr).
  unfold pop. mstep (pget_ok _ _ _ Hp). cbv zeta. fold q.
  mstep (pop_find_ok _ _ _ _ _ (p_pid pr) Hrow Hx Hr He 65 0 (-1) ltac:(lia) ltac:(lia)).
  change (Z.of_nat 0) with 0. rewrite drop_0.
  unfold spec_pop. rewrite (alter_insert_list _ _ _ _ Hl). cbv zeta.
  destruct (find_last_range (procs s) (p_pid pr) l 0 (-1)) as [Ht|Ht]; try lia.
  - rewrite Ht, Z.eqb_refl. exists (queues s), (q_index s). split; [by destruct s|].
    rewrite list_insert_id by done. by destruct s.
  - set (t := find_last _ _ _ _ _) in *. destruct (Z.eqb_spec t (-1)) as [|_]; [lia|].
    destruct l as [|j0 l0] eqn:El; [simpl in Ht; lia|]. rewrite <- El in *.
    assert (Hn : length l = S (length l0)) by (by rewrite El).
    set (n := length l0) in *.
    assert (Hxn : x = Z.of_nat n).
    { destruct Hr as (_ & _ & ->). rewrite Hn. rewrite u64_small; lia. }
    pose proof (repr_row_len _ _ _ Hr) as Hrl.
    replace t with (Z.of_nat (Z.to_nat t)) by lia.
    destruct (pop_shift_ok q x n s row Hrow Hx Hrl Hxn ltac:(lia) 65 (Z.to_nat t) ltac:(lia) ltac:(lia))
      as (row' & Hsh & Hl' & Hrow').
    mstep Hsh. set (s1 := set_queues _ s).
    mstep (qindex_get_ok q x s1 Hx). rewrite Hxn.
    assert (Hrow1 : queues s1 !! q = Some row').
    { simpl. apply list_lookup_insert_eq. by eapply lookup_lt_Some. }
    mstep (queue_set_ok _ _ n None s1 Hrow1 ltac:(lia)).
    rewrite (qindex_set_ok q x) by done.
    eexists _, _. split; [reflexivity|]. simpl. rewrite list_insert_insert_eq.
    eapply repr_update; [done|done|reflexivity|reflexivity|].
    rewrite Nat2Z.id. rewrite Hxn in Hr. by eapply repr_row_delete; try lia; eauto.
Qed.

(** [solve_repr] proves [repr] for concrete arrays. *)
Ltac solve_repr :=
  split_and!; [reflexivity..|];
  let q := fresh "q" in let l := fresh "l" in let H := fresh "H" in
  intros q l H;
  do 5 (destruct q as [|q];
    [injection H as <-; eexists _, _; split_and!; [reflexivity|reflexivity|];
     split_and!; [simpl; lia|reflexivity|reflexivity]|]);
  discriminate H.

Lemma repr_boot : repr boot_state (replicate 5 []).
Proof. solve_repr. Qed.

(** Two processes in the table, process 5 in slot 3 and process 9 in slot 4, and
    a queue array holding both of them in queue 1. *)
Definition demo_procs : list proc :=
  <[4%nat := set_p_curr_q 1 (set_p_pid 9 zero_proc)]>
    (<[3%nat := set_p_curr_q 1 (set_p_pid 5 zero_proc)]> (replicate 64 zero_proc)).

Definition demo_queues : kstate :=
  set_procs demo_procs
   (set_q_index (<[1%nat := 1]> (replicate 5 (u64 (-1))))
     (set_queues (<[1%nat := Some 3%nat :: Some 4%nat :: replicate 62 None]>
                    (replicate 5 (replicate 64 None))) boot_state)).

Example pop_demo :
  exists qq qi, pop 3 demo_queues = Ok tt (set_queues qq (set_q_index qi demo_queues)) /\
    repr (set_queues qq (set_q_index qi demo_queues)) [[]; [4%nat]; []; []; []].
Proof.
  apply (pop_refines demo_queues [[]; [3%nat; 4%nat]; []; []; []] 3
           (set_p_curr_q 1 (set_p_pid 5 zero_proc))).
  - solve_repr.
  - reflexivity.
  - repeat constructor; simpl; lia.
Qed.

Lemma push_refines_witness :
  exists qq qi, push 3 0 boot_state =
      Ok tt (set_procs (<[3%nat := pushed 0 zero_proc]> (procs boot_state))
              (set_queues qq (set_q_index qi boot_state))) /\
    repr (set_queues qq (set_q_index qi boot_state)) [[3%nat]; []; []; []; []].
Proof.
  apply (push_refines boot_state (replicate 5 []) 3 zero_proc 0 []);
    [apply repr_boot|reflexivity|reflexivity|simpl; lia].
Defined.
