(* ===== verification/Sched.v ===== *)
(** * Giving up and regaining the CPU

    [sched], [yield], [sleep], [wakeup], [kill] of [kernel/proc.c] and the sleep
    locks of [kernel/sleeplock.c]. *)

From stdpp Require Import gmap strings list fin_maps.
From S2P Require Import Prelude Layout State Mlfq.

Definition all_procs : list nat := seq 0 64.

(** [swtch(&p->context, &mycpu()->context)]: control leaves the routine; the
    state it finds when it is resumed is whatever ran in between left. *)
Definition swtch : K unit := fun s => Switch s (fun s' => Ok tt s').

(** [intr_get()]: interrupts are off while this CPU holds a spinlock. *)
Definition intr_get (s : kstate) : bool := bool_decide (held s = []).

(** [mycpu()->noff] between a routine's calls: one per held spinlock. *)
Definition noff (s : kstate) : Z := Z.of_nat (length (held s)).

Definition sched : K unit :=
  let! p := curproc in
  let! hold := gets (holding (LkProc p)) in
  if negb hold then panic "sched p->lock" else
  let! n := gets noff in
  if negb (n =? 1) then panic "sched locks" else
  let! pr := pget p in
  if bool_decide (p_state pr = RUNNING) then panic "sched running" else
  let! ie := gets intr_get in
  if ie then panic "sched interruptible" else
  swtch.

Definition yield : K unit :=
  let! p := curproc in
  acquire (LkProc p) ;;
  pupd p (set_p_state RUNNABLE) ;;
  sched ;;
  release (LkProc p).

Definition sleep (c : chan) (lk : lock) : K unit :=
  let! p := curproc in
  acquire (LkProc p) ;;
  release lk ;;
  pupd p (fun pr => set_p_state SLEEPING (set_p_chan (Some c) pr)) ;;
  sched ;;
  pupd p (set_p_chan None) ;;
  release (LkProc p) ;;
  acquire lk.

(** The body of [wakeup]'s loop for one process. *)
Definition wakeup_one (c : chan) (i : nat) : K unit :=
  let! me := myproc in
  if bool_decide (me = Some i) then ret tt
  else
    acquire (LkProc i) ;;
    let! pr := pget i in
    when (bool_decide (p_state pr = SLEEPING /\ p_chan pr = Some c))
      (pupd i (set_p_state RUNNABLE)) ;;
    release (LkProc i).

Definition wakeup (c : chan) : K unit := for_each all_procs (wakeup_one c).

Section Kill.
Context `{Build}.

Fixpoint kill_loop (pid : Z) (l : list nat) : K Z :=
  match l with
  | [] => ret (-1)
  | i :: l =>
      acquire (LkProc i) ;;
      let! pr := pget i in
      if p_pid pr =? pid then
        pupd i (set_p_killed true) ;;
        when (bool_decide (p_state pr = SLEEPING))
          (pupd i (set_p_state RUNNABLE) ;;
           when (bool_decide (SCHEDULER = MLFQ)) (push i 0)) ;;
        release (LkProc i) ;;
        ret 0
      else
        release (LkProc i) ;;
        kill_loop pid l
  end.

Definition kill (pid : Z) : K Z := kill_loop pid all_procs.
End Kill.

(** ** Sleep locks

    A sleep lock is an entry of the buffer cache or of the inode table. *)
Inductive slock : Type := SlBuf (i : nat) | SlInode (i : nat).

#[global] Instance slock_eq_dec : EqDecision slock.
Proof. solve_decision. Defined.

Definition sl_chan (l : slock) : chan :=
  match l with SlBuf i => ChSlBuf i | SlInode i => ChSlInode i end.
Definition sl_lk (l : slock) : lock :=
  match l with SlBuf i => LkSlBuf i | SlInode i => LkSlInode i end.

Definition sl_get (l : slock) : K sleeplock := fun s =>
  match l with
  | SlBuf i => match bcache s !! i with Some b => Ok (b_lock b) s | None => UB "buf" end
  | SlInode i => match itable s !! i with Some ip => Ok (i_lock ip) s | None => UB "inode" end
  end.

Definition sl_set (l : slock) (v : sleeplock) : K unit := fun s =>
  match l with
  | SlBuf i =>
      match bcache s !! i with
      | Some b => Ok tt (set_bcache (<[i := set_b_lock v b]> (bcache s)) s)
      | None => UB "buf"
      end
  | SlInode i =>
      match itable s !! i with
      | Some ip => Ok tt (set_itable (<[i := set_i_lock v ip]> (itable s)) s)
      | None => UB "inode"
      end
  end.

(** [initlock(&lk->lk, ...)] leaves the inner spinlock free, which holds of every
    lock that is not in [held]. *)
Definition initsleeplock (l : slock) : K unit := sl_set l (MkSleeplock false 0).

(** [while (lk->locked) sleep(lk, &lk->lk);] *)
Fixpoint acquiresleep_wait (n : nat) (l : slock) : K unit :=
  match n with
  | O => no_fuel
  | S n =>
      let! v := sl_get l in
      if sl_locked v then sleep (sl_chan l) (sl_lk l) ;; acquiresleep_wait n l
      else ret tt
  end.

Section Sleeplock.
Context `{Build}.

Definition acquiresleep (l : slock) : K unit :=
  acquire (sl_lk l) ;;
  acquiresleep_wait (S fuel) l ;;
  let! p := curproc in
  let! pr := pget p in
  sl_set l (MkSleeplock true (p_pid pr)) ;;
  release (sl_lk l).
End Sleeplock.

Definition releasesleep (l : slock) : K unit :=
  acquire (sl_lk l) ;;
  sl_set l (MkSleeplock false 0) ;;
  wakeup (sl_chan l) ;;
  release (sl_lk l).

Definition holdingsleep (l : slock) : K bool :=
  acquire (sl_lk l) ;;
  let! v := sl_get l in
  let! r := (if sl_locked v then
               let! p := curproc in
               let! pr := pget p in
               ret (sl_pid v =? p_pid pr)
             else ret false) in
  release (sl_lk l) ;;
  ret r.

(** ** Loops over the process table *)

(** A loop over a range of the table whose body rewrites entry [i] with [f i],
    provided the entry satisfies [P]. *)
Lemma for_seq_procs (Inv : kstate -> Prop) (P : nat -> proc -> Prop) (f : nat -> proc -> proc)
    (body : nat -> K unit) :
  (forall s ps, Inv s -> Inv (set_procs ps s)) ->
  (forall s i p, Inv s -> procs s !! i = Some p -> P i p ->
     body i s = Ok tt (set_procs (<[i := f i p]> (procs s)) s)) ->
  forall n k s, Inv s -> (k + n <= length (procs s))%nat ->
  (forall i p, (k <= i)%nat -> procs s !! i = Some p -> P i p) ->
  for_each (seq k n) body s =
    Ok tt (set_procs (imap (fun i p => if decide (k <= i < k + n)%nat then f i p else p)
                       (procs s)) s).
Proof.
  intros HInv Hbody. induction n as [|n IH]; intros k s Hs Hk HP; cbn [seq for_each].
  - unfold ret. f_equal. rewrite imap_same.
    + by destruct s.
    + intros i p _. by rewrite decide_False by lia.
  - destruct (lookup_lt_is_Some_2 (procs s) k) as [p Hp]; [lia|].
    mstep (Hbody s k p Hs Hp (HP k p ltac:(lia) Hp)).
    rewrite IH; [|by apply HInv|simpl; rewrite length_insert; lia|].
    2: { intros i q Hi. simpl. rewrite list_lookup_insert_ne by lia. apply HP. lia. }
    f_equal. simpl. change (set_procs ?a (set_procs ?b s)) with (set_procs a s). f_equal.
    apply list_eq. intros i. rewrite !list_lookup_imap.
    destruct (decide (i = k)) as [->|Hne].
    + rewrite list_lookup_insert_eq by lia. rewrite Hp. simpl.
      rewrite decide_False, decide_True by lia. done.
    + rewrite list_lookup_insert_ne by done. destruct (procs s !! i); simpl; [|done].
      repeat case_decide; try lia; done.
Qed.

Lemma for_all_procs_where (Inv : kstate -> Prop) (P : nat -> proc -> Prop)
    (f : nat -> proc -> proc) (body : nat -> K unit) s :
  (forall s ps, Inv s -> Inv (set_procs ps s)) ->
  (forall s i p, Inv s -> procs s !! i = Some p -> P i p ->
     body i s = Ok tt (set_procs (<[i := f i p]> (procs s)) s)) ->
  Inv s -> length (procs s) = 64%nat ->
  (forall i p, procs s !! i = Some p -> P i p) ->
  for_each all_procs body s = Ok tt (set_procs (imap f (procs s)) s).
Proof.
  intros HInv Hbody Hs Hlen HP. unfold all_procs.
  rewrite (for_seq_procs Inv P f body HInv Hbody 64 0 s Hs) by (lia || auto).
  do 2 f_equal. apply imap_ext. intros i p Hi.
  apply lookup_lt_Some in Hi. by rewrite decide_True by lia.
Qed.

Lemma for_all_procs (Inv : kstate -> Prop) (f : nat -> proc -> proc) (body : nat -> K unit) s :
  (forall s ps, Inv s -> Inv (set_procs ps s)) ->
  (forall s i p, Inv s -> procs s !! i = Some p ->
     body i s = Ok tt (set_procs (<[i := f i p]> (procs s)) s)) ->
  Inv s -> length (procs s) = 64%nat ->
  for_each all_procs body s = Ok tt (set_procs (imap f (procs s)) s).
Proof. intros. by apply (for_all_procs_where Inv (fun _ _ => True)); auto. Qed.

(** The process locks this CPU may hold while it goes through the table: at most
    that of the current process. *)
Definition only_mine (s : kstate) : Prop :=
  forall i, LkProc i ∈ held s -> cur s = Some i.

Definition no_proc_lock (s : kstate) : Prop := forall i, LkProc i ∉ held s.

(** What a wakeup does to one process. *)
Definition wake_proc (c : chan) (p : proc) : proc :=
  if bool_decide (p_state p = SLEEPING /\ p_chan p = Some c) then set_p_state RUNNABLE p else p.

Definition wake_all (c : chan) (me : option nat) (ps : list proc) : list proc :=
  imap (fun i p => if bool_decide (me = Some i) then p else wake_proc c p) ps.

Lemma wake_all_me c pr ps p : ps !! pr = Some p -> wake_all c (Some pr) ps !! pr = Some p.
Proof.
  intros Hp. unfold wake_all. rewrite list_lookup_imap, Hp. simpl. by rewrite bool_decide_true.
Qed.

Lemma lock_cycle lk s s' :
  lk ∉ held s -> held s' = lk :: held s -> release lk s' = Ok tt (set_held (held s) s').
Proof. intros. by apply release_ok. Qed.

Lemma wakeup_one_ok c s i p :
  only_mine s -> procs s !! i = Some p ->
  wakeup_one c i s =
    Ok tt (set_procs (<[i := if bool_decide (cur s = Some i) then p else wake_proc c p]> (procs s)) s).
Proof.
  intros Hm Hp. unfold wakeup_one. unfold bind at 1. cbn [myproc gets obind].
  case_bool_decide as Hc.
  - unfold ret. rewrite list_insert_id by done. by destruct s.
  - assert (Hn : LkProc i ∉ held s) by (intros Hin; by apply Hc, Hm).
    mstep (acquire_ok _ _ Hn). set (s1 := set_held _ s).
    mstep (pget_ok i p s1 Hp). unfold wake_proc. case_bool_decide as Hs; cbn [when].
    + mstep (pupd_ok i (set_p_state RUNNABLE) p s1 Hp).
      rewrite (lock_cycle (LkProc i) s) by done. by destruct s.
    + unfold bind. simpl. rewrite (lock_cycle (LkProc i) s) by done.
      rewrite list_insert_id by done. by destruct s.
Qed.

Lemma wakeup_ok c s :
  only_mine s -> length (procs s) = 64%nat ->
  wakeup c s = Ok tt (set_procs (wake_all c (cur s) (procs s)) s).
Proof.
  intros Hm Hl. unfold wakeup, wake_all.
  apply (for_all_procs (fun s' => only_mine s' /\ cur s' = cur s)); auto.
  intros s' i p [Hm' <-] Hp. by apply wakeup_one_ok.
Qed.

(** ** [sched] and [sleep] *)

Lemma curproc_ok p s : cur s = Some p -> curproc s = Ok p s.
Proof. intros H. unfold curproc, bind, myproc, gets. simpl. by rewrite H. Qed.

(** [sched] switches when the current process holds its own lock and no other,
    and is no longer [RUNNING]. *)
Lemma sched_ok p pr s :
  cur s = Some p -> procs s !! p = Some pr -> held s = [LkProc p] -> p_state pr <> RUNNING ->
  sched s = Switch s (fun s' => Ok tt s').
Proof.
  intros Hc Hp Hh Hs. unfold sched. mstep (curproc_ok _ _ Hc).
  unfold bind at 1. cbn [gets obind]. unfold holding.
  rewrite bool_decide_true by (rewrite Hh; apply list_elem_of_here).
  unfold bind at 1. cbn [gets obind negb]. unfold noff. rewrite Hh. simpl.
  mstep (pget_ok _ _ _ Hp). rewrite bool_decide_false by done.
  unfold bind, intr_get. cbn [gets obind]. rewrite Hh. done.
Qed.

Lemma sched_locks p lk1 lk2 h s :
  cur s = Some p -> held s = lk1 :: lk2 :: h -> LkProc p ∈ held s -> sched s = Panic "sched locks".
Proof.
  intros Hc Hh Hin. unfold sched. mstep (curproc_ok _ _ Hc).
  unfold bind at 1. cbn [gets obind]. unfold holding. rewrite bool_decide_true by done.
  unfold bind at 1. cbn [gets obind negb]. unfold noff. rewrite Hh.
  destruct (Z.eqb_spec (Z.of_nat (length (lk1 :: lk2 :: h))) 1) as [E|_]; [simpl in E; lia|]. done.
Qed.

(** The process table while [p] sleeps on [c]. *)
Definition asleep (c : chan) (pr : proc) : proc := set_p_state SLEEPING (set_p_chan (Some c) pr).

Lemma release_second lk p s :
  held s = [LkProc p; lk] -> lk <> LkProc p -> release lk s = Ok tt (set_held [LkProc p] s).
Proof.
  intros Hh Hne. unfold release, holding. rewrite Hh.
  rewrite bool_decide_true by set_solver.
  rewrite filter_cons_True, filter_cons_False by auto. done.
Qed.

Lemma release_only lk s : held s = [lk] -> release lk s = Ok tt (set_held [] s).
Proof. intros. eapply release_ok; [done|set_solver]. Qed.

Lemma sleep_run c lk p pr s :
  cur s = Some p -> procs s !! p = Some pr -> held s = [lk] -> lk <> LkProc p ->
  exists k, sleep c lk s =
    Switch (set_procs (<[p := asleep c pr]> (procs s)) (set_held [LkProc p] s)) k /\
    forall s2 pr2, procs s2 !! p = Some pr2 -> held s2 = [LkProc p] ->
      k s2 = Ok tt (set_held [lk] (set_procs (<[p := set_p_chan None pr2]> (procs s2)) s2)).
Proof.
  intros Hc Hp Hh Hne. unfold sleep. mstep (curproc_ok _ _ Hc).
  mstep (acquire_ok (LkProc p) s ltac:(rewrite Hh; set_solver)). rewrite Hh.
  set (s1 := set_held _ s). mstep (release_second lk p s1 eq_refl Hne).
  set (s2 := set_held [LkProc p] s1). mstep (pupd_ok p (asleep c) pr s2 Hp).
  set (s3 := set_procs _ s2). unfold bind at 1.
  rewrite (sched_ok p (asleep c pr) s3);
    [|done|simpl; apply list_lookup_insert_eq; by eapply lookup_lt_Some|done|done].
  simpl. eexists. split; [by destruct s|].
  intros s4 pr2 Hp2 Hh2. cbv beta. mstep (pupd_ok p (set_p_chan None) pr2 s4 Hp2).
  set (s5 := set_procs _ s4). mstep (release_only (LkProc p) s5 Hh2).
  rewrite acquire_ok by set_solver. by destruct s4.
Qed.

(** [yield] gives up the CPU with the process runnable. *)
Lemma yield_run p pr s :
  cur s = Some p -> procs s !! p = Some pr -> held s = [] ->
  exists k, yield s =
    Switch (set_procs (<[p := set_p_state RUNNABLE pr]> (procs s)) (set_held [LkProc p] s)) k /\
    forall s2, held s2 = [LkProc p] -> k s2 = Ok tt (set_held [] s2).
Proof.
  intros Hc Hp Hh. unfold yield. mstep (curproc_ok _ _ Hc).
  mstep (acquire_ok (LkProc p) s ltac:(rewrite Hh; set_solver)). rewrite Hh.
  set (s1 := set_held _ s). mstep (pupd_ok p (set_p_state RUNNABLE) pr s1 Hp).
  set (s2 := set_procs _ s1). unfold bind at 1.
  rewrite (sched_ok p (set_p_state RUNNABLE pr) s2);
    [|done|simpl; apply list_lookup_insert_eq; by eapply lookup_lt_Some|done|done].
  simpl. eexists. split; [by destruct s|]. intros s3 Hh3. by apply release_only.
Qed.


(** [wakeup(c)] makes every process that sleeps on [c] runnable, other than
    the caller itself, changes nothing else of the state, and returns with the
    same spinlocks held. *)
Lemma wakeup_exact c s :
  only_mine s -> length (procs s) = 64%nat ->
  exists ps, wakeup c s = Ok tt (set_procs ps s) /\ length ps = 64%nat /\
    forall i p, procs s !! i = Some p ->
      ps !! i = Some (if bool_decide (cur s <> Some i /\ p_state p = SLEEPING /\ p_chan p = Some c)
                      then set_p_state RUNNABLE p else p).
Proof.
  intros Hm Hl. exists (wake_all c (cur s) (procs s)). split; [by apply wakeup_ok|].
  unfold wake_all. split; [by rewrite length_imap|].
  intros i p Hp. rewrite list_lookup_imap, Hp. simpl. f_equal. unfold wake_proc.
  repeat case_bool_decide; naive_solver.
Qed.

(** ** [kill] *)

Section KillFacts.
Context `{Build}.

Lemma lock_proc_cycle i s : no_proc_lock s ->
  acquire (LkProc i) s = Ok tt (set_held (LkProc i :: held s) s) /\
  forall s', held s' = LkProc i :: held s -> release (LkProc i) s' = Ok tt (set_held (held s) s').
Proof. intros Hn. split; [by apply acquire_ok|]. intros. by apply lock_cycle. Qed.

Lemma kill_skip pid l l2 s :
  no_proc_lock s ->
  Forall (fun j => exists p, procs s !! j = Some p /\ p_pid p <> pid) l ->
  kill_loop pid (l ++ l2) s = kill_loop pid l2 s.
Proof.
  intros Hn. induction 1 as [|j l (p & Hp & Hpid) _ IH]; cbn [app kill_loop]; [done|].
  destruct (lock_proc_cycle j s Hn) as [Ha Hr].
  mstep Ha. set (s1 := set_held _ s). mstep (pget_ok j p s1 Hp).
  destruct (Z.eqb_spec (p_pid p) pid); [done|].
  mstep (Hr s1 eq_refl). unfold s1. rewrite <- IH. by destruct s.
Qed.

Definition killed_proc (p : proc) : proc :=
  if bool_decide (p_state p = SLEEPING) then set_p_state RUNNABLE (set_p_killed true p)
  else set_p_killed true p.

Lemma kill_none pid s :
  length (procs s) = 64%nat -> no_proc_lock s ->
  (forall i p, procs s !! i = Some p -> p_pid p <> pid) -> kill pid s = Ok (-1) s.
Proof.
  intros Hl Hn Hno. unfold kill. rewrite <- (app_nil_r all_procs), kill_skip; [done|done|].
  apply Forall_forall. intros j Hj%elem_of_seq.
  destruct (lookup_lt_is_Some_2 (procs s) j) as [p Hp]; [lia|]. eauto.
Qed.

(** The loop stops at the first process with the wanted id. *)
Lemma kill_find pid s i p :
  length (procs s) = 64%nat -> no_proc_lock s ->
  procs s !! i = Some p -> p_pid p = pid ->
  (forall j q, (j < i)%nat -> procs s !! j = Some q -> p_pid q <> pid) ->
  kill pid s = kill_loop pid (i :: seq (S i) (63 - i)) s.
Proof.
  intros Hl Hn Hp Hpid Hfirst. pose proof (lookup_lt_Some _ _ _ Hp) as Hi.
  unfold kill, all_procs. replace 64%nat with (i + S (63 - i))%nat by lia.
  rewrite seq_app, kill_skip; [done|done|].
  apply Forall_forall. intros j Hj%elem_of_seq.
  destruct (lookup_lt_is_Some_2 (procs s) j) as [q Hq]; [lia|]. exists q. split; [done|].
  apply (Hfirst j); [lia|done].
Qed.

Lemma kill_loop_hit pid s i p l :
  no_proc_lock s -> procs s !! i = Some p -> p_pid p = pid ->
  (SCHEDULER = MLFQ -> p_state p <> SLEEPING) ->
  kill_loop pid (i :: l) s = Ok 0 (set_procs (<[i := killed_proc p]> (procs s)) s).
Proof.
  intros Hn Hp Hpid Hm. cbn [kill_loop]. destruct (lock_proc_cycle i s Hn) as [Ha Hr].
  mstep Ha. set (s1 := set_held _ s). mstep (pget_ok i p s1 Hp).
  rewrite Hpid, Z.eqb_refl. mstep (pupd_ok i (set_p_killed true) p s1 Hp).
  set (s2 := set_procs _ s1). assert (Hi : (i < length (procs s))%nat) by (by eapply lookup_lt_Some).
  unfold killed_proc. case_bool_decide as Hs; cbn [when].
  - rewrite bool_decide_false by (intros Hm'; by apply Hm). cbn [when].
    assert (Hp2 : procs s2 !! i = Some (set_p_killed true p)) by (simpl; by apply list_lookup_insert_eq).
    unfold bind at 1. mstep (pupd_ok i (set_p_state RUNNABLE) _ s2 Hp2).
    cbn [ret obind]. set (s3 := set_procs _ s2). mstep (Hr s3 eq_refl).
    unfold ret, s3, s2. simpl. rewrite list_insert_insert_eq. by destruct s.
  - unfold bind at 1. cbn [ret obind]. mstep (Hr s2 eq_refl). by destruct s.
Qed.

(** Under MLFQ a sleeping victim is also pushed on queue 0. *)
Lemma kill_loop_mlfq pid s i p l qs l0 :
  SCHEDULER = MLFQ -> no_proc_lock s -> procs s !! i = Some p -> p_pid p = pid ->
  p_state p = SLEEPING -> repr s qs -> qs !! 0%nat = Some l0 -> (length l0 < 64)%nat ->
  exists qq qi, kill_loop pid (i :: l) s =
      Ok 0 (set_procs (<[i := pushed 0 (killed_proc p)]> (procs s))
             (set_queues qq (set_q_index qi s))) /\
    repr (set_queues qq (set_q_index qi s)) (spec_push i 0 qs).
Proof.
  intros Hm Hn Hp Hpid Hs Hrep Hq Hl. cbn [kill_loop].
  destruct (lock_proc_cycle i s Hn) as [Ha Hr].
  mstep Ha. set (s1 := set_held _ s). mstep (pget_ok i p s1 Hp).
  rewrite Hpid, Z.eqb_refl. mstep (pupd_ok i (set_p_killed true) p s1 Hp).
  set (s2 := set_procs _ s1). assert (Hi : (i < length (procs s))%nat) by (by eapply lookup_lt_Some).
  rewrite bool_decide_true by done. cbn [when]. rewrite bool_decide_true by done. cbn [when].
  assert (Hp2 : procs s2 !! i = Some (set_p_killed true p)) by (simpl; by apply list_lookup_insert_eq).
  unfold bind at 1. mstep (pupd_ok i (set_p_state RUNNABLE) _ s2 Hp2).
  set (s3 := set_procs _ s2).
  assert (Hp3 : procs s3 !! i = Some (killed_proc p)).
  { simpl. rewrite list_insert_insert_eq, list_lookup_insert_eq by done.
    unfold killed_proc. by rewrite bool_decide_true. }
  destruct (push_run s3 qs i (killed_proc p) 0 l0 Hrep Hp3 Hq Hl) as (qq & qi & Hpush & Hrep').
  rewrite Hpush. cbn [obind]. set (s4 := set_procs _ _). mstep (Hr s4 eq_refl).
  exists qq, qi. split; [|done]. unfold ret, s4, s3, s2. simpl. rewrite !list_insert_insert_eq.
  by destruct s.
Qed.

(** [kill(pid)] returns -1 and changes nothing when no process has that id.
    Otherwise it sets [killed] on the first one that has it, makes it
    [RUNNABLE] if it was [SLEEPING], touches nothing else and returns 0 with
    the same locks held (under MLFQ: when the victim was not asleep). *)
Theorem kill_spec pid s :
  length (procs s) = 64%nat -> no_proc_lock s ->
  ((forall i p, procs s !! i = Some p -> p_pid p <> pid) -> kill pid s = Ok (-1) s) /\
  (forall i p, procs s !! i = Some p -> p_pid p = pid ->
     (forall j q, (j < i)%nat -> procs s !! j = Some q -> p_pid q <> pid) ->
     (SCHEDULER = MLFQ -> p_state p <> SLEEPING) ->
     kill pid s = Ok 0 (set_procs (<[i := killed_proc p]> (procs s)) s)).
Proof.
  intros Hl Hn. split; [by apply kill_none|].
  intros i p Hp Hpid Hfirst Hm. rewrite (kill_find pid s i p) by done. by apply kill_loop_hit.
Qed.

(** How often a process is queued. *)
Definition occurrences (i : nat) (qs : list (list nat)) : nat :=
  length (filter (fun j => j = i) (concat qs)).

Lemma occurrences_push i q qs :
  (q < length qs)%nat -> occurrences i (spec_push i q qs) = S (occurrences i qs).
Proof.
  unfold occurrences, spec_push. revert q.
  induction qs as [|l qs IH]; intros [|q] Hq; simpl in Hq; [lia|lia| |].
  - cbn [concat alter list_alter]. rewrite !filter_app, !length_app.
    rewrite filter_cons_True by done. simpl. lia.
  - change (alter ?f (S q) (l :: qs)) with (l :: alter f q qs). cbn [concat].
    rewrite !filter_app, !length_app, IH by lia. lia.
Qed.

(** Under MLFQ, killing a sleeping process queues it once more.  A process
    stays in its queue while it sleeps ([sleep] does not [pop], [wakeup] does
    not [push]), so [kill] leaves it queued twice. *)
Theorem kill_mlfq_queues_again pid s qs i p l0 :
  SCHEDULER = MLFQ -> length (procs s) = 64%nat -> no_proc_lock s ->
  procs s !! i = Some p -> p_pid p = pid -> p_state p = SLEEPING ->
  (forall j q, (j < i)%nat -> procs s !! j = Some q -> p_pid q <> pid) ->
  repr s qs -> qs !! 0%nat = Some l0 -> (length l0 < 64)%nat ->
  exists s' qs', kill pid s = Ok 0 s' /\ repr s' qs' /\
    procs s' = <[i := pushed 0 (killed_proc p)]> (procs s) /\
    occurrences i qs' = S (occurrences i qs).
Proof.
  intros Hm Hl Hn Hp Hpid Hs Hfirst Hrep Hq Hl0.
  rewrite (kill_find pid s i p) by done.
  destruct (kill_loop_mlfq pid s i p (seq (S i) (63 - i)) qs l0) as (qq & qi & Hrun & Hrep'); auto.
  eexists _, (spec_push i 0 qs). split; [exact Hrun|]. split_and!; [exact Hrep'|done|].
  apply occurrences_push. destruct Hrep as (_ & _ & -> & _). unfold NQUEUE. lia.
Qed.
End KillFacts.

(** ** Sleep locks *)

Section SleeplockFacts.
Context `{Build}.

Definition slv (l : slock) (s : kstate) : option sleeplock :=
  match l with
  | SlBuf i => b_lock <$> bcache s !! i
  | SlInode i => i_lock <$> itable s !! i
  end.

Definition slset (l : slock) (v : sleeplock) (s : kstate) : kstate :=
  match l with
  | SlBuf i => set_bcache (alter (set_b_lock v) i (bcache s)) s
  | SlInode i => set_itable (alter (set_i_lock v) i (itable s)) s
  end.

Lemma sl_get_ok l v s : slv l s = Some v -> sl_get l s = Ok v s.
Proof.
  destruct l; simpl; intros (b & Hb & ->)%fmap_Some; by rewrite Hb.
Qed.

Lemma sl_set_ok l v v' s : slv l s = Some v -> sl_set l v' s = Ok tt (slset l v' s).
Proof.
  destruct l; simpl; intros (b & Hb & ->)%fmap_Some; rewrite Hb;
    by rewrite (alter_insert_list _ _ _ _ Hb).
Qed.

Lemma slset_held l v s h : slset l v (set_held h s) = set_held h (slset l v s).
Proof. by destruct l, s. Qed.

(** An unlocked sleep lock is taken at once. *)
Lemma acquiresleep_free l v p pr s :
  sl_lk l ∉ held s -> slv l s = Some v -> sl_locked v = false ->
  cur s = Some p -> procs s !! p = Some pr ->
  acquiresleep l s = Ok tt (slset l (MkSleeplock true (p_pid pr)) s).
Proof.
  intros Hn Hv Hf Hc Hp. unfold acquiresleep. mstep (acquire_ok _ _ Hn).
  set (s1 := set_held _ s). assert (Hv1 : slv l s1 = Some v) by (by destruct l).
  unfold bind at 1. cbn [acquiresleep_wait]. mstep (sl_get_ok _ _ _ Hv1). rewrite Hf.
  cbn [ret obind]. mstep (curproc_ok p s1 Hc). mstep (pget_ok p pr s1 Hp).
  mstep (sl_set_ok l v (MkSleeplock true (p_pid pr)) s1 Hv1).
  rewrite (lock_cycle (sl_lk l) s); [|done|by destruct l].
  f_equal. unfold s1. rewrite slset_held. by destruct l, s.
Qed.

Lemma holdingsleep_ok l v p pr s :
  sl_lk l ∉ held s -> slv l s = Some v -> cur s = Some p -> procs s !! p = Some pr ->
  holdingsleep l s = Ok (sl_locked v && (sl_pid v =? p_pid pr)) s.
Proof.
  intros Hn Hv Hc Hp. unfold holdingsleep. mstep (acquire_ok _ _ Hn).
  set (s1 := set_held _ s). assert (Hv1 : slv l s1 = Some v) by (by destruct l).
  mstep (sl_get_ok _ _ _ Hv1). unfold bind at 1.
  destruct (sl_locked v); cbn [andb].
  - mstep (curproc_ok p s1 Hc). mstep (pget_ok p pr s1 Hp). cbn [ret obind].
    mstep (lock_cycle (sl_lk l) s s1 Hn eq_refl). by destruct s.
  - cbn [ret obind]. mstep (lock_cycle (sl_lk l) s s1 Hn eq_refl). by destruct s.
Qed.

Lemma releasesleep_ok l v s :
  sl_lk l ∉ held s -> slv l s = Some v -> no_proc_lock s -> length (procs s) = 64%nat ->
  releasesleep l s =
    Ok tt (set_procs (wake_all (sl_chan l) (cur s) (procs s)) (slset l (MkSleeplock false 0) s)).
Proof.
  intros Hn Hv Hm Hl. unfold releasesleep. mstep (acquire_ok _ _ Hn).
  set (s1 := set_held _ s). assert (Hv1 : slv l s1 = Some v) by (by destruct l).
  mstep (sl_set_ok l v (MkSleeplock false 0) s1 Hv1). set (s2 := slset _ _ s1).
  assert (Hps : procs s2 = procs s) by (by destruct l).
  assert (Hcs : cur s2 = cur s) by (by destruct l).
  assert (Hhs : held s2 = sl_lk l :: held s) by (by destruct l).
  assert (Hw : wakeup (sl_chan l) s2 = Ok tt (set_procs (wake_all (sl_chan l) (cur s) (procs s)) s2)).
  { rewrite wakeup_ok; rewrite ?Hps, ?Hcs; auto. intros i Hi. exfalso. rewrite Hhs in Hi.
    apply elem_of_cons in Hi as [Hi|Hi]; [by destruct l|by apply (Hm i)]. }
  mstep Hw. rewrite (lock_cycle (sl_lk l) s); [|done|done].
  f_equal. unfold s2, s1. rewrite slset_held. by destruct l, s.
Qed.

End SleeplockFacts.

(** ** Witnesses *)

(** Process 5 runs and holds [tickslock], as in [sys_sleep]. *)
Definition demo_running : kstate :=
  set_held [LkTicks] (set_cur (Some 3%nat)
    (set_procs (<[3%nat := demo_proc 5 RUNNING 6 60 1]> demo_table) boot_state)).


Lemma demo_first_7 :
  forall j q, (j < 5)%nat -> procs demo_state !! j = Some q -> p_pid q <> 7.
Proof.
  intros j q Hj Hq. do 5 (destruct j as [|j]; [injection Hq as <-; discriminate|]). lia.
Qed.

