(* ===== verification/Scheduler.v ===== *)
(** * The scheduler and its four policies

    [scheduler()] of [kernel/proc.c]: one turn of its [for(;;)] loop under each
    of the policies the kernel can be compiled with, and the loop itself. *)

From stdpp Require Import gmap strings list fin_maps.
From S2P Require Import Prelude Layout State Mlfq Sched.

Definition AGE_LIMIT : Z := 30.

(** [acquire(&p->lock); if(p->state == RUNNABLE){ ...; c->proc = p; swtch(...);
    c->proc = 0; } release(&p->lock);] where [book] is the policy's bookkeeping. *)
Definition run_proc (i : nat) (book : K unit) : K unit :=
  acquire (LkProc i) ;;
  let! pr := pget i in
  when (bool_decide (p_state pr = RUNNABLE))
    (book ;;
     modify (set_cur (Some i)) ;;
     swtch ;;
     modify (set_cur None)) ;;
  release (LkProc i).

(** ** Round robin *)

Definition upd_default (p : proc) : proc :=
  set_p_nrun_whole (s32 (p_nrun_whole p + 1)) (set_p_state RUNNING p).

Definition round_default : K unit := for_each all_procs (fun i => run_proc i (pupd i upd_default)).

(** ** First come, first served and priority based

    [better t p] is the test under which the candidate [temp = t] is replaced by [p]. *)

Definition fcfs_better (t p : proc) : bool := p_ctime p <? p_ctime t.

Definition pbs_better (t p : proc) : bool :=
  (p_priority p <? p_priority t)
  || ((p_priority t =? p_priority p) && (p_nrun p <? p_nrun t))
  || ((p_priority t =? p_priority p) && (p_ctime p <? p_ctime t)).

(** [temp == 0 || <test>]. *)
Definition replaces (better : proc -> proc -> bool) (temp : option nat) (p : proc) : K bool :=
  match temp with
  | None => ret true
  | Some t => let! tp := pget t in ret (better tp p)
  end.

Fixpoint scan (better : proc -> proc -> bool) (l : list nat) (temp : option nat) : K (option nat) :=
  match l with
  | [] => ret temp
  | i :: l =>
      acquire (LkProc i) ;;
      let! pr := pget i in
      let! temp' :=
        (if bool_decide (p_state pr = RUNNABLE) then
           let! b := replaces better temp pr in
           ret (if b then Some i else temp)
         else ret temp) in
      release (LkProc i) ;;
      scan better l temp'
  end.

Definition round_fcfs : K unit :=
  let! temp := scan fcfs_better all_procs None in
  match temp with
  | None => ret tt
  | Some i => run_proc i (pupd i upd_default)
  end.

Definition upd_pbs (p : proc) : proc :=
  set_p_nrun_whole (s32 (p_nrun_whole p + 1)) (set_p_nrun (s32 (p_nrun p + 1))
    (set_p_niceness 5 (set_p_rtime 0 (set_p_stime 0 (set_p_state RUNNING p))))).

Definition round_pbs : K unit :=
  let! temp := scan pbs_better all_procs None in
  match temp with
  | None => ret tt
  | Some i => run_proc i (pupd i upd_pbs)
  end.

(** ** Multi-level feedback queues *)

(** [queues[i][j]], dereferenced. *)
Definition queue_entry (q : nat) (j : Z) : K (nat * proc) :=
  let! e := queue_get q j in
  let! p := deref "queues[i][j]" e in
  let! pr := pget p in
  ret (p, pr).

(** The aging loop of one queue; index [NPROC] is outside of the array, so
    [NPROC + 1] turns are enough. *)
Fixpoint age_queue (n : nat) (q : nat) (j : Z) : K unit :=
  match n with
  | O => no_fuel
  | S n =>
      let! x := qindex_get q in
      if j <? u64 (x + 1) then
        let! (p, pr) := queue_entry q j in
        when (AGE_LIMIT <? p_atime pr) (pop p ;; push p (Z.of_nat q - 1)) ;;
        age_queue n q (j + 1)
      else ret tt
  end.

(** The first runnable entry of queue [q] from position [j] on. *)
Fixpoint pick_queue (n : nat) (q : nat) (j : Z) : K (option nat) :=
  match n with
  | O => no_fuel
  | S n =>
      let! x := qindex_get q in
      if j <? u64 (x + 1) then
        let! (p, pr) := queue_entry q j in
        if bool_decide (p_state pr = RUNNABLE) then ret (Some p)
        else pick_queue n q (j + 1)
      else ret None
  end.

Fixpoint pick_queues (qs : list nat) : K (option nat) :=
  match qs with
  | [] => ret None
  | q :: qs =>
      let! p := pick_queue 65 q 0 in
      match p with
      | Some i => ret (Some i)
      | None => pick_queues qs
      end
  end.

Definition upd_mlfq (p : proc) : proc :=
  set_p_atime 0 (set_p_nrun_whole (s32 (p_nrun_whole p + 1))
    (set_p_nrun (s32 (p_nrun p + 1)) (set_p_wtime 0 (set_p_rtime 0
      (set_p_state RUNNING p))))).

(** [p->q_val[p->curr_q]++]. *)
Definition upd_q_val (p : proc) : proc :=
  set_p_q_val (alter (fun x => s32 (x + 1)) (Z.to_nat (p_curr_q p)) (p_q_val p)) p.

Definition book_mlfq (i : nat) : K unit :=
  pupd i upd_mlfq ;;
  let! pr := pget i in
  if (0 <=? p_curr_q pr) && (p_curr_q pr <? 5) then pupd i upd_q_val else ub "q_val".

Definition round_mlfq : K unit :=
  for_each (seq 0 NQUEUE) (fun q => age_queue 65 q 0) ;;
  let! p := pick_queues (seq 0 NQUEUE) in
  match p with
  | None => ret tt
  | Some i => run_proc i (book_mlfq i)
  end.

Section Scheduler.
Context `{Build}.

Definition scheduler_round : K unit :=
  match SCHEDULER with
  | DEFAULT => round_default
  | FCFS => round_fcfs
  | PBS => round_pbs
  | MLFQ => round_mlfq
  end.

Fixpoint scheduler_loop (rounds : nat) : K unit :=
  match rounds with
  | O => no_fuel
  | S rounds => scheduler_round ;; scheduler_loop rounds
  end.

(** [scheduler()] never returns: [rounds] bounds the turns of its loop. *)
Definition scheduler (rounds : nat) : K unit :=
  modify (set_cur None) ;; scheduler_loop rounds.
End Scheduler.

(** ** Running one process *)

Definition runnable (ps : list proc) (i : nat) : Prop :=
  exists p, ps !! i = Some p /\ p_state p = RUNNABLE.

#[global] Instance runnable_dec ps i : Decision (runnable ps i).
Proof.
  destruct (ps !! i) as [p|] eqn:E.
  - destruct (decide (p_state p = RUNNABLE)) as [Hr|Hr].
    + left. exists p. auto.
    + right. intros (q & Hq & Hs). congruence.
  - right. intros (q & Hq & _). congruence.
Defined.

Lemma run_proc_skip i p book s :
  LkProc i ∉ held s -> procs s !! i = Some p -> p_state p <> RUNNABLE ->
  run_proc i book s = Ok tt s.
Proof.
  intros Hn Hp Hs. unfold run_proc. mstep (acquire_ok _ _ Hn). set (s1 := set_held _ s).
  mstep (pget_ok i p s1 Hp). rewrite bool_decide_false by done. cbn [when].
  unfold bind. cbn [ret obind]. rewrite (lock_cycle (LkProc i) s) by done. by destruct s.
Qed.

Lemma run_proc_switch i p book s s2 :
  held s = [] -> procs s !! i = Some p -> p_state p = RUNNABLE ->
  book (set_held [LkProc i] s) = Ok tt s2 ->
  exists k, run_proc i book s = Switch (set_cur (Some i) s2) k /\
    forall s3, held s3 = [LkProc i] -> k s3 = Ok tt (set_held [] (set_cur None s3)).
Proof.
  intros Hh Hp Hs Hb. unfold run_proc. mstep (acquire_ok (LkProc i) s ltac:(rewrite Hh; set_solver)).
  rewrite Hh. set (s1 := set_held _ s). mstep (pget_ok i p s1 Hp).
  rewrite bool_decide_true by done. cbn [when].
  unfold bind at 1. unfold bind at 1. fold s1 in Hb. rewrite Hb. cbn [obind].
  unfold bind, modify. simpl. eexists. split; [done|].
  intros s3 Hs3. simpl. rewrite (release_only (LkProc i)) by done. done.
Qed.

(** ** The scanning loop *)

Definition replaces_spec (better : proc -> proc -> bool) (ps : list proc)
    (temp : option nat) (p : proc) : bool :=
  match temp with
  | None => true
  | Some t => match ps !! t with Some tp => better tp p | None => false end
  end.

Fixpoint scan_spec (better : proc -> proc -> bool) (ps : list proc) (l : list nat)
    (temp : option nat) : option nat :=
  match l with
  | [] => temp
  | i :: l =>
      scan_spec better ps l
        (match ps !! i with
         | Some p => if bool_decide (p_state p = RUNNABLE) && replaces_spec better ps temp p
                     then Some i else temp
         | None => temp
         end)
  end.

Lemma scan_ok better s l : no_proc_lock s ->
  forall temp, Forall (fun i => (i < length (procs s))%nat) l ->
  (forall t, temp = Some t -> (t < length (procs s))%nat) ->
  scan better l temp s = Ok (scan_spec better (procs s) l temp) s.
Proof.
  intros Hn. induction l as [|i l IH]; intros temp Hl Ht; cbn [scan scan_spec]; [done|].
  inversion_clear Hl as [|? ? Hi Hl']. destruct (lookup_lt_is_Some_2 _ _ Hi) as [p Hp].
  mstep (acquire_ok _ _ (Hn i)). set (s1 := set_held _ s). mstep (pget_ok i p s1 Hp). rewrite Hp.
  set (temp' := if bool_decide (p_state p = RUNNABLE) && replaces_spec better (procs s) temp p
                then Some i else temp).
  assert (Ht' : (if bool_decide (p_state p = RUNNABLE)
                 then (let! b := replaces better temp p in ret (if b then Some i else temp))
                 else ret temp) s1 = Ok temp' s1).
  { unfold temp'. case_bool_decide; cbn [andb]; [|done].
    destruct temp as [t|]; cbn [replaces replaces_spec]; [|done].
    destruct (lookup_lt_is_Some_2 _ _ (Ht t eq_refl)) as [tp Htp]. rewrite Htp.
    unfold bind at 1. mstep (pget_ok t tp s1 Htp). done. }
  mstep Ht'. mstep (lock_cycle (LkProc i) s s1 (Hn i) eq_refl).
  unfold s1. replace (set_held (held s) _) with s by (by destruct s).
  apply IH; [done|]. unfold temp'. intros t Heq.
  destruct (bool_decide _ && _); [by simplify_eq|auto].
Qed.

(** An invariant carried through the scan of [seq k n]. *)
Lemma scan_spec_inv better ps (I : nat -> option nat -> Prop) n :
  forall k temp, I k temp ->
  (forall i t p, ps !! i = Some p -> I i t ->
     I (S i) (if bool_decide (p_state p = RUNNABLE) && replaces_spec better ps t p
              then Some i else t)) ->
  (forall i t, ps !! i = None -> I i t -> I (S i) t) ->
  I (k + n)%nat (scan_spec better ps (seq k n) temp).
Proof.
  induction n as [|n IH]; intros k temp HI Hs Hnone; cbn [seq scan_spec].
  - by rewrite Nat.add_0_r.
  - rewrite Nat.add_succ_r, <- Nat.add_succ_l. apply IH; auto.
    destruct (ps !! k) eqn:E; auto.
Qed.

(** The candidate is a runnable process no scanned runnable process beats in the
    sense of [le]; [None] while no runnable process has been seen. *)
Definition scanned (le : nat -> proc -> nat -> proc -> Prop) (ps : list proc)
    (k : nat) (temp : option nat) : Prop :=
  match temp with
  | None => forall j, (j < k)%nat -> ~ runnable ps j
  | Some t => (t < k)%nat /\ exists tp, ps !! t = Some tp /\ p_state tp = RUNNABLE /\
      forall j q, (j < k)%nat -> ps !! j = Some q -> p_state q = RUNNABLE -> le t tp j q
  end.

Lemma scan_scanned better le ps :
  (forall t tp i p, (t < i)%nat -> better tp p = false -> le t tp i p) ->
  (forall t tp i p, (t < i)%nat -> better tp p = true ->
     le i p t tp /\ forall j q, (j < i)%nat -> le t tp j q -> le i p j q) ->
  (forall i p, le i p i p) ->
  scanned le ps (length ps) (scan_spec better ps (seq 0 (length ps)) None).
Proof.
  intros Hlater Hbetter Hrefl.
  apply (scan_spec_inv better ps (scanned le ps) (length ps) 0).
  - intros j Hj. lia.
  - intros i t p Hp HI. case_bool_decide as Hs; cbn [andb].
    + destruct t as [t|]; cbn [replaces_spec].
      * destruct HI as (Hti & tp & Htp & Htr & Hmin). rewrite Htp.
        destruct (better tp p) eqn:Eb.
        -- split; [lia|]. exists p. split_and!; [done|done|]. intros j q Hj Hq Hr.
           destruct (decide (j = i)) as [->|Hne]; [simplify_eq; auto|].
           apply (Hbetter t tp i p Hti Eb); [lia|]. apply Hmin; [lia|done|done].
        -- split; [lia|]. exists tp. split_and!; [done|done|]. intros j q Hj Hq Hr.
           destruct (decide (j = i)) as [->|Hne]; [simplify_eq; by apply Hlater|].
           apply Hmin; [lia|done|done].
      * split; [lia|]. exists p. split_and!; [done|done|]. intros j q Hj Hq Hr.
        destruct (decide (j = i)) as [->|Hne]; [simplify_eq; auto|].
        exfalso. apply (HI j); [lia|]. exists q. auto.
    + destruct t as [t|].
      * destruct HI as (Hti & tp & Htp & Htr & Hmin). split; [lia|]. exists tp.
        split_and!; [done|done|]. intros j q Hj Hq Hr.
        destruct (decide (j = i)) as [->|Hne]; [congruence|]. apply Hmin; [lia|done|done].
      * intros j Hj (q & Hq & Hr). destruct (decide (j = i)) as [->|Hne]; [congruence|].
        apply (HI j); [lia|]. exists q. auto.
  - intros i t Hi. destruct t as [t|]; simpl.
    + intros (Hti & tp & Htp & Htr & Hmin). split; [lia|]. exists tp. split_and!; [done|done|].
      intros j q Hj Hq Hr. apply Hmin; [|done|done].
      destruct (decide (j = i)) as [->|]; [congruence|lia].
    + intros HI j Hj (q & Hq & Hr). destruct (decide (j = i)) as [->|Hne]; [congruence|].
      apply (HI j); [lia|]. exists q. auto.
Qed.

Lemma scanned_none le ps :
  scanned le ps (length ps) None -> forall i, ~ runnable ps i.
Proof. intros Hsc i Hr. apply (Hsc i); [|done]. destruct Hr as (p & Hp & _). by eapply lookup_lt_Some. Qed.

(** ** First come, first served *)

Lemma scan_all better s :
  held s = [] -> length (procs s) = 64%nat ->
  scan better all_procs None s =
    Ok (scan_spec better (procs s) (seq 0 (length (procs s))) None) s.
Proof.
  intros Hh Hl. rewrite Hl. apply scan_ok; [intros i; rewrite Hh; set_solver| |done].
  apply Forall_forall. intros i Hi%elem_of_seq. lia.
Qed.

(** The state in which the scheduler switches to process [i]. *)
Definition dispatched (i : nat) (p : proc) (s : kstate) : kstate :=
  set_cur (Some i) (set_procs (<[i := p]> (procs s)) (set_held [LkProc i] s)).

Lemma run_chosen i p upd s :
  held s = [] -> procs s !! i = Some p -> p_state p = RUNNABLE ->
  exists k, run_proc i (pupd i upd) s = Switch (dispatched i (upd p) s) k /\
    forall s3, held s3 = [LkProc i] -> k s3 = Ok tt (set_held [] (set_cur None s3)).
Proof.
  intros Hh Hp Hr. eapply run_proc_switch; eauto. by rewrite (pupd_ok i upd p).
Qed.

(** Under FCFS the scheduler switches to the runnable process with the
    earliest creation time, the lowest table slot among equals, with its lock
    held and [c->proc] set, and does nothing when no process is runnable. *)
Theorem fcfs_earliest s :
  held s = [] -> length (procs s) = 64%nat ->
  ((forall i, ~ runnable (procs s) i) -> round_fcfs s = Ok tt s) /\
  (forall j, runnable (procs s) j ->
     exists i p k, procs s !! i = Some p /\ p_state p = RUNNABLE /\
       round_fcfs s = Switch (dispatched i (upd_default p) s) k /\
       forall j q, procs s !! j = Some q -> p_state q = RUNNABLE ->
         p_ctime p < p_ctime q \/ (p_ctime p = p_ctime q /\ (i <= j)%nat)).
Proof.
  intros Hh Hl. unfold round_fcfs. pose proof (scan_all fcfs_better s Hh Hl) as Hscan.
  assert (Hsc : scanned
      (fun t tp j q => p_ctime tp < p_ctime q \/ (p_ctime tp = p_ctime q /\ (t <= j)%nat))
      (procs s) (length (procs s))
      (scan_spec fcfs_better (procs s) (seq 0 (length (procs s))) None)).
  { apply scan_scanned; unfold fcfs_better.
    - intros. lia.
    - intros t tp i p Hti Hb. split; [lia|]. intros. lia.
    - intros. lia. }
  destruct (scan_spec _ _ _ _) as [i|]; unfold bind; rewrite Hscan; cbn [obind].
  - destruct Hsc as (Hi & p & Hp & Hr & Hmin).
    split; [intros Hno; destruct (Hno i); by exists p|]. intros _ _.
    destruct (run_chosen i p upd_default s Hh Hp Hr) as (k & Hrun & _).
    exists i, p, k. split_and!; auto. intros j q Hj. apply Hmin; [|done]. by eapply lookup_lt_Some.
  - pose proof (scanned_none _ _ Hsc) as Hno.
    split; [done|]. intros j Hj. by destruct (Hno j).
Qed.

(** ** Priority based *)

Lemma pbs_choice s :
  held s = [] -> length (procs s) = 64%nat ->
  ((forall i, ~ runnable (procs s) i) /\ round_pbs s = Ok tt s) \/
  exists i p k, procs s !! i = Some p /\ p_state p = RUNNABLE /\
    round_pbs s = Switch (dispatched i (upd_pbs p) s) k /\
    forall j q, procs s !! j = Some q -> p_state q = RUNNABLE ->
      p_priority p <= p_priority q /\ ((i < j)%nat -> pbs_better p q = false).
Proof.
  intros Hh Hl. unfold round_pbs. pose proof (scan_all pbs_better s Hh Hl) as Hscan.
  assert (Hsc : scanned
      (fun t tp j q => p_priority tp <= p_priority q /\ ((t < j)%nat -> pbs_better tp q = false))
      (procs s) (length (procs s))
      (scan_spec pbs_better (procs s) (seq 0 (length (procs s))) None)).
  { apply scan_scanned; unfold pbs_better.
    - intros. split; lia.
    - intros t tp i p Hti Hb. split_and!; [lia|lia|].
      intros j q Hj [Hle _]. split; [lia|]. intros; lia.
    - intros i p. split; [lia|]. intros; lia. }
  destruct (scan_spec _ _ _ _) as [i|]; unfold bind; rewrite Hscan; cbn [obind]; [right|left].
  - destruct Hsc as (Hi & p & Hp & Hr & Hmin).
    destruct (run_chosen i p upd_pbs s Hh Hp Hr) as (k & Hrun & _).
    exists i, p, k. split_and!; auto. intros j q Hj. apply Hmin; [|done]. by eapply lookup_lt_Some.
  - split; [by eapply scanned_none|done].
Qed.

(** Under PBS the scheduler switches to a runnable process of the smallest
    [priority] value, one that no process in a later slot would replace, with
    [stime], [rtime] reset, [niceness] 5 and [nrun], [nrun_whole] counted up;
    it does nothing when no process is runnable. *)
Theorem pbs_highest_priority s :
  held s = [] -> length (procs s) = 64%nat ->
  ((forall i, ~ runnable (procs s) i) -> round_pbs s = Ok tt s) /\
  (forall j, runnable (procs s) j ->
     exists i p k, procs s !! i = Some p /\ p_state p = RUNNABLE /\
       round_pbs s = Switch (dispatched i (upd_pbs p) s) k /\
       forall j q, procs s !! j = Some q -> p_state q = RUNNABLE ->
         p_priority p <= p_priority q /\ ((i < j)%nat -> pbs_better p q = false)).
Proof.
  intros Hh Hl. destruct (pbs_choice s Hh Hl) as [[Hno Hrun]|(i & p & k & Hp & Hr & Hrun & Hmin)].
  - split; [done|]. intros j Hj. by destruct (Hno j).
  - split; [intros Hno; destruct (Hno i); by exists p|]. intros _ _. exists i, p, k. auto.
Qed.

(** The tie-break of PBS is not the documented one.  Of two runnable
    processes of equal priority the one in the later slot is scheduled when it
    was created earlier, even though it has been scheduled more often. *)
Theorem pbs_tie_ignores_nrun s i j p q :
  held s = [] -> length (procs s) = 64%nat -> (i < j)%nat ->
  procs s !! i = Some p -> p_state p = RUNNABLE ->
  procs s !! j = Some q -> p_state q = RUNNABLE ->
  (forall k, runnable (procs s) k -> k = i \/ k = j) ->
  p_priority p = p_priority q -> p_nrun p < p_nrun q -> p_ctime q < p_ctime p ->
  exists k, round_pbs s = Switch (dispatched j (upd_pbs q) s) k.
Proof.
  intros Hh Hl Hij Hp Hpr Hq Hqr Honly Hprio Hnrun Hct.
  destruct (pbs_choice s Hh Hl) as [[Hno _]|(c & cp & k & Hc & Hcr & Hrun & Hmin)].
  - destruct (Hno i). by exists p.
  - destruct (Honly c) as [->| ->]; [by exists cp| |simplify_eq; eauto].
    simplify_eq. destruct (Hmin j q Hq Hqr) as [_ Hb]. specialize (Hb Hij).
    unfold pbs_better in Hb. lia.
Qed.

(** ** Round robin *)

Definition rr_body (i : nat) : K unit := run_proc i (pupd i upd_default).

(** The processes dispatched when [env] is what runs between the scheduler's
    [swtch] to a process and the switch back. *)
Fixpoint dispatches (env : kstate -> kstate) (n : nat) (o : outcome kstate unit) : list (option nat) :=
  match n, o with
  | S n, Switch s k => cur s :: dispatches env n (k (env s))
  | _, _ => []
  end.

(** Processes give the CPU back holding the lock they were given, and leave every
    other runnable process runnable. *)
Record fair_env (env : kstate -> kstate) : Prop := {
  env_held : forall s, held (env s) = held s;
  env_len : forall s, length (procs (env s)) = length (procs s);
  env_keeps : forall s i, cur s <> Some i -> runnable (procs s) i -> runnable (procs (env s)) i
}.

Lemma rr_dispatches env i : fair_env env ->
  forall n k s, held s = [] -> (k + n <= length (procs s))%nat -> (k <= i < k + n)%nat ->
  runnable (procs s) i ->
  forall m, (n <= m)%nat -> Some i ∈ dispatches env m (for_each (seq k n) rr_body s).
Proof.
  intros [Henvh Henvl Henvr]. induction n as [|n IH]; intros k s Hh Hkn Hi Hr m Hm; [lia|].
  cbn [seq for_each]. destruct m as [|m]; [lia|].
  destruct (lookup_lt_is_Some_2 (procs s) k) as [p Hp]; [lia|].
  destruct (decide (p_state p = RUNNABLE)) as [Hpr|Hpr].
  - destruct (run_chosen k p upd_default s Hh Hp Hpr) as (kk & Hrun & Hkk).
    unfold bind, rr_body at 1. rewrite Hrun. cbn [obind dispatches].
    destruct (decide (i = k)) as [->|Hne]; [apply list_elem_of_here|]. apply list_elem_of_further.
    set (s1 := dispatched k (upd_default p) s).
    rewrite Hkk by (rewrite Henvh; done). cbn [obind].
    apply IH; [done|simpl; rewrite Henvl; simpl; rewrite length_insert; lia|lia| |lia].
    simpl. apply Henvr; [simpl; congruence|]. destruct Hr as (q & Hq & Hqr).
    exists q. simpl. rewrite list_lookup_insert_ne by done. auto.
  - mstep (run_proc_skip k p (pupd k upd_default) s ltac:(rewrite Hh; set_solver) Hp Hpr).
    apply IH; [done|lia| |done|lia].
    destruct (decide (i = k)) as [->|]; [|lia]. destruct Hr as (q & Hq & Hqr). congruence.
Qed.

(** C39: round robin is fair: every process that is runnable at the start of a pass
    over the table is dispatched in that pass, whatever the processes
    dispatched before it do, as long as they leave it runnable. *)
Theorem rr_fair env s i :
  fair_env env -> held s = [] -> length (procs s) = 64%nat -> runnable (procs s) i ->
  Some i ∈ dispatches env 64 (round_default s).
Proof.
  intros Henv Hh Hl Hr. assert (Hi : (i < 64)%nat).
  { destruct Hr as (p & Hp & _). apply lookup_lt_Some in Hp. lia. }
  apply rr_dispatches; auto; lia.
Qed.

(** ** Multi-level feedback queues *)

(** The first runnable process of a queue. *)
Definition first_runnable (ps : list proc) (l : list nat) : option nat :=
  head (filter (runnable ps) l).

Lemma queue_entry_ok s q row x l j e :
  queues s !! q = Some row -> repr_row row x l -> entries_ok (procs s) l -> l !! j = Some e ->
  exists pr, procs s !! e = Some pr /\ queue_entry q (Z.of_nat j) s = Ok (e, pr) s.
Proof.
  intros Hrow Hr Hent He. pose proof (lookup_lt_Some _ _ _ He) as Hj.
  destruct (repr_row_lookup _ _ _ j Hr Hj) as (e' & He' & Hre). simplify_eq.
  assert (Hj64 : (j < 64)%nat) by (destruct Hr; lia).
  unfold entries_ok in Hent. rewrite Forall_lookup in Hent.
  destruct (lookup_lt_is_Some_2 (procs s) e) as [pr Hpr]; [eauto|].
  exists pr. split; [done|]. unfold queue_entry.
  mstep (queue_get_ok _ _ j _ s Hrow Hj64 Hre). unfold bind at 1. cbn [deref ret obind].
  by mstep (pget_ok e pr s Hpr).
Qed.

Lemma pick_queue_ok s q row x l :
  queues s !! q = Some row -> q_index s !! q = Some x -> repr_row row x l ->
  entries_ok (procs s) l ->
  forall n j, (j <= length l)%nat -> (length l - j < n)%nat ->
  pick_queue n q (Z.of_nat j) s = Ok (first_runnable (procs s) (drop j l)) s.
Proof.
  intros Hrow Hx Hr Hent. induction n as [|n IH]; intros j Hj Hn; [lia|].
  cbn [pick_queue]. mstep (qindex_get_ok _ _ _ Hx). rewrite (repr_row_bound _ _ _ Hr).
  destruct (Z.ltb_spec (Z.of_nat j) (Z.of_nat (length l))).
  - destruct (lookup_lt_is_Some_2 l j) as [e He]; [lia|].
    destruct (queue_entry_ok s q row x l j e) as (pr & Hpr & Hqe); auto.
    mstep Hqe. rewrite (drop_S _ _ _ He). unfold first_runnable.
    case_bool_decide as Hst.
    + rewrite filter_cons_True by (exists pr; auto). done.
    + rewrite filter_cons_False by (intros (pr' & ? & ?); congruence).
      replace (Z.of_nat j + 1) with (Z.of_nat (S j)) by lia. apply IH; lia.
  - rewrite drop_ge by lia. done.
Qed.

Lemma head_app {A} (l1 l2 : list A) :
  head (l1 ++ l2) = match head l1 with Some x => Some x | None => head l2 end.
Proof. by destruct l1. Qed.

Lemma pick_queues_ok s qs :
  repr s qs -> Forall (entries_ok (procs s)) qs ->
  forall n k, (k + n = NQUEUE)%nat ->
  pick_queues (seq k n) s = Ok (first_runnable (procs s) (concat (drop k qs))) s.
Proof.
  intros Hrep Hent. induction n as [|n IH]; intros k Hk; cbn [seq pick_queues].
  - rewrite drop_ge; [done|]. destruct Hrep as (_ & _ & -> & _). lia.
  - destruct (repr_lookup s qs k Hrep) as (l & row & x & Hl & Hrow & Hx & Hr); [lia|].
    rewrite Forall_lookup in Hent. pose proof (Hent k l Hl) as Hel.
    assert (Hlen : (length l <= 64)%nat) by (by destruct Hr).
    pose proof (pick_queue_ok s k row x l Hrow Hx Hr Hel 65 0 ltac:(lia) ltac:(lia)) as Hpq.
    rewrite drop_0 in Hpq. mstep Hpq. rewrite (drop_S _ _ _ Hl). cbn [concat].
    unfold first_runnable. rewrite filter_app, head_app.
    destruct (head (filter _ l)); [done|]. apply IH. lia.
Qed.

(** No entry of the queues is older than the limit. *)
Definition none_aged (ps : list proc) (qs : list (list nat)) : Prop :=
  forall l e pr, l ∈ qs -> e ∈ l -> ps !! e = Some pr -> p_atime pr <= AGE_LIMIT.

Lemma age_queue_ok s q row x l :
  queues s !! q = Some row -> q_index s !! q = Some x -> repr_row row x l ->
  entries_ok (procs s) l ->
  (forall e pr, e ∈ l -> procs s !! e = Some pr -> p_atime pr <= AGE_LIMIT) ->
  forall n j, (j <= length l)%nat -> (length l - j < n)%nat ->
  age_queue n q (Z.of_nat j) s = Ok tt s.
Proof.
  intros Hrow Hx Hr Hent Hage. induction n as [|n IH]; intros j Hj Hn; [lia|].
  cbn [age_queue]. mstep (qindex_get_ok _ _ _ Hx). rewrite (repr_row_bound _ _ _ Hr).
  destruct (Z.ltb_spec (Z.of_nat j) (Z.of_nat (length l))); [|done].
  destruct (lookup_lt_is_Some_2 l j) as [e He]; [lia|].
  destruct (queue_entry_ok s q row x l j e) as (pr & Hpr & Hqe); auto. mstep Hqe.
  specialize (Hage e pr ltac:(eapply list_elem_of_lookup; eauto) Hpr).
  destruct (Z.ltb_spec AGE_LIMIT (p_atime pr)); [lia|]. cbn [when]. unfold bind. cbn [ret obind].
  replace (Z.of_nat j + 1) with (Z.of_nat (S j)) by lia. apply IH; lia.
Qed.

Lemma age_queues_ok s qs :
  repr s qs -> Forall (entries_ok (procs s)) qs -> none_aged (procs s) qs ->
  forall n k, (k + n = NQUEUE)%nat ->
  for_each (seq k n) (fun q => age_queue 65 q 0) s = Ok tt s.
Proof.
  intros Hrep Hent Hage. induction n as [|n IH]; intros k Hk; cbn [seq for_each]; [done|].
  destruct (repr_lookup s qs k Hrep) as (l & row & x & Hl & Hrow & Hx & Hr); [lia|].
  rewrite Forall_lookup in Hent. pose proof (Hent k l Hl) as Hel.
  assert (Hlen : (length l <= 64)%nat) by (by destruct Hr).
  pose proof (age_queue_ok s k row x l Hrow Hx Hr Hel) as Hq.
  mstep (Hq ltac:(intros e pr He Hpr; apply (Hage l e); [by eapply list_elem_of_lookup; eauto|done|done])
           65%nat 0%nat ltac:(lia) ltac:(lia)).
  apply IH. lia.
Qed.

(** C38: under MLFQ, while no queued process has waited longer than the age limit,
    the scheduler switches to the first runnable process of the lowest-numbered
    queue that has one, counting the run in [q_val[curr_q]], and does nothing
    when no queued process is runnable. *)
Theorem mlfq_lowest_queue_first s qs :
  held s = [] -> repr s qs -> Forall (entries_ok (procs s)) qs -> none_aged (procs s) qs ->
  Forall (fun p => 0 <= p_curr_q p < 5) (procs s) ->
  match first_runnable (procs s) (concat qs) with
  | None => round_mlfq s = Ok tt s
  | Some i => exists p k, procs s !! i = Some p /\
      round_mlfq s = Switch (dispatched i (upd_q_val (upd_mlfq p)) s) k
  end.
Proof.
  intros Hh Hrep Hent Hage Hcq. unfold round_mlfq.
  mstep (age_queues_ok s qs Hrep Hent Hage NQUEUE 0 ltac:(lia)).
  pose proof (pick_queues_ok s qs Hrep Hent NQUEUE 0 ltac:(lia)) as Hpick.
  rewrite drop_0 in Hpick. mstep Hpick.
  destruct (first_runnable _ _) as [i|] eqn:E; [|done].
  assert (Hr : runnable (procs s) i).
  { unfold first_runnable in E. apply head_Some_elem_of in E.
    by apply list_elem_of_filter in E as [? _]. }
  destruct Hr as (p & Hp & Hst). exists p.
  assert (Hb : book_mlfq i (set_held [LkProc i] s) =
     Ok tt (set_procs (<[i := upd_q_val (upd_mlfq p)]> (procs s)) (set_held [LkProc i] s))).
  { unfold book_mlfq. mstep (pupd_ok i upd_mlfq p (set_held [LkProc i] s) Hp).
    set (s1 := set_procs _ _). assert (Hi : (i < length (procs s))%nat) by (by eapply lookup_lt_Some).
    assert (Hp1 : procs s1 !! i = Some (upd_mlfq p)) by (simpl; by apply list_lookup_insert_eq).
    mstep (pget_ok i _ s1 Hp1). rewrite Forall_lookup in Hcq. pose proof (Hcq i p Hp) as Hc.
    change (p_curr_q (upd_mlfq p)) with (p_curr_q p).
    destruct (Z.leb_spec 0 (p_curr_q p)), (Z.ltb_spec (p_curr_q p) 5); try lia. cbn [andb].
    rewrite (pupd_ok i upd_q_val _ s1 Hp1). f_equal. unfold s1. simpl.
    rewrite list_insert_insert_eq. by destruct s. }
  destruct (run_proc_switch i p (book_mlfq i) s _ Hh Hp Hst Hb) as (k & Hrun & _).
  exists k. split; [done|]. rewrite Hrun. done.
Qed.

(** ** Witnesses *)

Lemma demo_runnable_only k : runnable (procs demo_state) k -> k = 3%nat \/ k = 4%nat.
Proof.
  intros (p & Hp & Hr). pose proof (lookup_lt_Some _ _ _ Hp) as Hk.
  destruct (decide (k = 3%nat)) as [|H3]; [by left|].
  destruct (decide (k = 4%nat)) as [|H4]; [by right|].
  destruct (decide (k = 5%nat)) as [->|H5]; [injection Hp as <-; discriminate Hr|].
  simpl in Hp. unfold demo_table in Hp. rewrite !list_lookup_insert_ne in Hp by congruence.
  apply lookup_replicate in Hp as [-> _]. discriminate Hr.
Qed.

Lemma rr_fair_witness :
  Some 4%nat ∈ dispatches (fun s => s) 64 (round_default demo_state).
Proof.
  apply (rr_fair (fun s => s) demo_state 4);
    [split; auto|reflexivity|reflexivity|eexists; split; reflexivity].
Defined.

Lemma demo_table_fields i x :
  demo_table !! i = Some x -> p_atime x = 0 /\ p_curr_q x = 0.
Proof.
  intros Hx. do 6 (destruct i as [|i]; [by injection Hx as <-|]).
  unfold demo_table in Hx. rewrite !list_lookup_insert_ne in Hx by lia.
  by apply lookup_replicate in Hx as [-> _].
Qed.

(** The demo table with slots 4 and 3 queued in queues 1 and 2. *)
Definition demo_mlfq : kstate :=
  set_q_index (<[1%nat := 0]> (<[2%nat := 0]> (replicate 5 (u64 (-1)))))
    (set_queues (<[1%nat := Some 4%nat :: replicate 63 None]>
                  (<[2%nat := Some 3%nat :: replicate 63 None]>
                    (replicate 5 (replicate 64 None)))) demo_state).

Lemma mlfq_lowest_queue_first_witness :
  exists p k, round_mlfq demo_mlfq = Switch (dispatched 4 (upd_q_val (upd_mlfq p)) demo_mlfq) k.
Proof.
  pose proof (mlfq_lowest_queue_first demo_mlfq [[]; [4%nat]; [3%nat]; []; []]) as H.
  destruct H as (p & k & _ & Hrun).
  - reflexivity.
  - solve_repr.
  - repeat constructor; simpl; lia.
  - intros l e pr _ _ Hpr. destruct (demo_table_fields e pr Hpr) as [-> _]. unfold AGE_LIMIT. lia.
  - apply Forall_lookup. intros i x Hx. destruct (demo_table_fields i x Hx). lia.
  - exists p, k. exact Hrun.
Defined.
