(* ===== verification/Accounting.v ===== *)
(** * Time accounting and dynamic priorities

    [update_vals] and [priority_updater] of [kernel/proc.c] and [clockintr] of
    [kernel/trap.c]: the per-tick bookkeeping that the policies of
    [Scheduler.v] decide by. *)

From stdpp Require Import gmap strings list fin_maps.
From S2P Require Import Prelude Layout State Mlfq Sched.

(** ** The code *)

(** [p->niceness = (p->stime*10)/(p->stime+p->rtime)]: unsigned 64-bit
    arithmetic, converted to [int]. *)
Definition niceness_of (pr : proc) : option Z :=
  let d := u64 (p_stime pr + p_rtime pr) in
  if d =? 0 then None else Some (s32 (u64 (p_stime pr * 10) / d)).

Definition upd_running (p : proc) : proc :=
  set_p_rtime_whole (u64 (p_rtime_whole p + 1))
    (set_p_rtime_every (u64 (p_rtime_every p + 1)) (set_p_rtime (u64 (p_rtime p + 1)) p)).

Definition upd_waiting (p : proc) : proc :=
  set_p_wtime_whole (u64 (p_wtime_whole p + 1))
    (set_p_wtime_every (u64 (p_wtime_every p + 1)) (set_p_wtime (u64 (p_wtime p + 1)) p)).

(** The loop body of [update_vals] between [acquire] and [release]. *)
Definition update_vals_body (i : nat) : K unit :=
  (let! pr := pget i in
   when (bool_decide (p_state pr = SLEEPING))
     (pupd i (fun p => set_p_stime (u64 (p_stime p + 1)) p))) ;;
  (let! pr := pget i in
   if bool_decide (p_state pr = RUNNING) then pupd i upd_running else pupd i upd_waiting) ;;
  (let! pr := pget i in
   if negb (p_rtime pr =? 0) || negb (p_stime pr =? 0) then
     let! n := deref "division by zero" (niceness_of pr) in
     pupd i (set_p_niceness n)
   else ret tt) ;;
  pupd i (fun p => set_p_priority (s32 (s32 (p_spriority p - p_niceness p) + 5)) p) ;;
  (let! pr := pget i in
   if p_priority pr <? 0 then pupd i (set_p_priority 0)
   else when (100 <? p_priority pr) (pupd i (set_p_priority 100))).

Definition update_vals : K unit :=
  for_each all_procs (fun i =>
    acquire (LkProc i) ;; update_vals_body i ;; release (LkProc i)).

Definition clockintr : K unit :=
  acquire LkTicks ;;
  modify (fun s => set_ticks (u32 (ticks s + 1)) s) ;;
  update_vals ;;
  wakeup ChTicks ;;
  release LkTicks.

(** The table scan of [priority_updater]; [temp] is the local of that name. *)
Fixpoint priority_loop (new_priority pid : Z) (l : list nat) (temp : Z) : K Z :=
  match l with
  | [] => ret temp
  | i :: l =>
      acquire (LkProc i) ;;
      let! pr := pget i in
      let! temp' :=
        (if p_pid pr =? pid then
           pupd i (fun p => set_p_niceness 5 (set_p_spriority new_priority p)) ;;
           ret (p_spriority pr)
         else ret temp) in
      release (LkProc i) ;;
      priority_loop new_priority pid l temp'
  end.

Definition priority_updater (new_priority pid : Z) : K Z :=
  let! temp := priority_loop new_priority pid all_procs (-1) in
  when (negb (temp =? -1) && (new_priority <? temp)) yield ;;
  ret (u64 temp).

(** ** One tick of the clock for one process *)

Definition tick_times (p : proc) : proc :=
  let p := if bool_decide (p_state p = SLEEPING) then set_p_stime (u64 (p_stime p + 1)) p else p in
  if bool_decide (p_state p = RUNNING) then upd_running p else upd_waiting p.

Definition tick_niceness (p : proc) : Z :=
  if negb (p_rtime p =? 0) || negb (p_stime p =? 0) then default 0 (niceness_of p)
  else p_niceness p.

Definition clamp_priority (x : Z) : Z := if x <? 0 then 0 else if 100 <? x then 100 else x.

Definition account (p : proc) : proc :=
  let p := tick_times p in
  let p := set_p_niceness (tick_niceness p) p in
  set_p_priority (clamp_priority (s32 (s32 (p_spriority p - p_niceness p) + 5))) p.

(** The division is defined. *)
Definition sane_times (p : proc) : Prop :=
  0 <= p_stime p < 2 ^ 60 /\ 0 <= p_rtime p < 2 ^ 60.

Lemma tick_times_sane p :
  sane_times p ->
  0 <= p_stime (tick_times p) < 2 ^ 60 + 1 /\ 0 <= p_rtime (tick_times p) < 2 ^ 60 + 1.
Proof.
  unfold sane_times, tick_times. intros [? ?].
  repeat case_bool_decide; simpl; unfold u64; rewrite ?Z.mod_small; lia.
Qed.

Lemma niceness_range p :
  0 <= p_stime p < 2 ^ 60 + 1 -> 0 <= p_rtime p < 2 ^ 60 + 1 ->
  negb (p_rtime p =? 0) || negb (p_stime p =? 0) = true ->
  exists n, niceness_of p = Some n /\ 0 <= n <= 10.
Proof.
  intros H1 H2 H3. unfold niceness_of, u64. rewrite !(Z.mod_small _ (2 ^ 64)) by lia.
  destruct (Z.eqb_spec (p_stime p + p_rtime p) 0); [lia|]. eexists. split; [done|].
  assert (0 <= p_stime p * 10 / (p_stime p + p_rtime p) <= 10).
  { split; [apply Z.div_pos; lia|]. apply Z.div_le_upper_bound; nia. }
  rewrite s32_small; lia.
Qed.

Lemma tick_niceness_range p :
  sane_times p -> 0 <= p_niceness p <= 10 -> 0 <= tick_niceness (tick_times p) <= 10.
Proof.
  intros Hp Hn. destruct (tick_times_sane p Hp) as [H1 H2]. unfold tick_niceness.
  destruct (negb _ || negb _) eqn:E.
  - destruct (niceness_range _ H1 H2 E) as (n & -> & Hr). done.
  - unfold tick_times. by repeat case_bool_decide.
Qed.

Lemma clamp_priority_range x : 0 <= clamp_priority x <= 100.
Proof. unfold clamp_priority. destruct (Z.ltb_spec x 0), (Z.ltb_spec 100 x); lia. Qed.

Lemma update_vals_body_ok i p : sane_times p -> upd_at i (update_vals_body i) p (account p).
Proof.
  intros Hp. destruct (tick_times_sane p Hp) as [H1 H2]. unfold update_vals_body.
  set (p1 := if bool_decide (p_state p = SLEEPING) then set_p_stime (u64 (p_stime p + 1)) p else p).
  assert (E : tick_times p = if bool_decide (p_state p1 = RUNNING) then upd_running p1 else upd_waiting p1) by done.
  eapply upd_at_seq with p1.
  { apply upd_at_get. eapply upd_at_when; [|apply upd_at_pupd]. unfold p1. by destruct (bool_decide _). }
  eapply upd_at_seq with (tick_times p).
  { apply upd_at_get. rewrite E. destruct (bool_decide (p_state p1 = RUNNING)); apply upd_at_pupd. }
  eapply upd_at_seq with (set_p_niceness (tick_niceness (tick_times p)) (tick_times p)).
  { apply upd_at_get. unfold tick_niceness. destruct (negb _ || negb _) eqn:E3.
    - destruct (niceness_range _ H1 H2 E3) as (n & -> & _). intros s Hs.
      unfold bind, deref, ret. simpl. by apply pupd_ok.
    - replace (set_p_niceness _ _) with (tick_times p) by (by destruct (tick_times p)).
      apply upd_at_ret. }
  eapply upd_at_seq; [apply upd_at_pupd|]. apply upd_at_get.
  unfold account, clamp_priority. generalize (tick_times p). intros q. cbn zeta.
  set (r := set_p_niceness _ q). set (x := s32 _). change (p_priority _) with x.
  destruct (x <? 0); [exact (upd_at_pupd i (set_p_priority 0) (set_p_priority x r))|].
  eapply upd_at_when; [|apply upd_at_pupd]. by destruct (100 <? x).
Qed.

Lemma update_vals_ok s :
  no_proc_lock s -> length (procs s) = 64%nat -> Forall sane_times (procs s) ->
  update_vals s = Ok tt (set_procs (account <$> procs s) s).
Proof.
  intros Hn Hl Hs. unfold update_vals. rewrite <- imap_const.
  apply (for_all_procs_where no_proc_lock (fun _ => sane_times)); auto.
  - intros s' i p Hn' Hp Hsane. apply upd_at_locked with p; [by apply update_vals_body_ok|apply Hn'|done].
  - intros i p Hp. rewrite Forall_lookup in Hs. eauto.
Qed.

Lemma clockintr_ok s :
  held s = [] -> length (procs s) = 64%nat -> Forall sane_times (procs s) ->
  clockintr s =
    Ok tt (set_ticks (u32 (ticks s + 1))
             (set_procs (wake_all ChTicks (cur s) (account <$> procs s)) s)).
Proof.
  intros Hh Hl Hs. unfold clockintr. mstep (acquire_ok LkTicks s ltac:(rewrite Hh; set_solver)).
  rewrite Hh. unfold bind at 1. cbn [modify obind].
  set (s1 := set_ticks _ _). assert (Hn : no_proc_lock s1) by (intros i; simpl; set_solver).
  mstep (update_vals_ok s1 Hn Hl Hs). set (s2 := set_procs _ s1).
  mstep (wakeup_ok ChTicks s2 ltac:(intros i Hi; by apply Hn in Hi) ltac:(by simpl; rewrite length_fmap)).
  rewrite (release_only LkTicks) by done. simpl. rewrite <- Hh. by destruct s.
Qed.

(** Wakeups leave the counters alone. *)
Lemma wake_proc_times c p :
  (p_ctime (wake_proc c p), p_rtime_whole (wake_proc c p), p_wtime_whole (wake_proc c p),
   p_priority (wake_proc c p), p_niceness (wake_proc c p), p_atime (wake_proc c p),
   p_spriority (wake_proc c p)) =
  (p_ctime p, p_rtime_whole p, p_wtime_whole p, p_priority p, p_niceness p, p_atime p,
   p_spriority p).
Proof. unfold wake_proc. by case_bool_decide. Qed.

Lemma account_whole p :
  (p_rtime_whole (account p), p_wtime_whole (account p)) =
  if bool_decide (p_state p = RUNNING) then (u64 (p_rtime_whole p + 1), p_wtime_whole p)
  else (p_rtime_whole p, u64 (p_wtime_whole p + 1)).
Proof. destruct p as [st]. by destruct st. Qed.

(** A process's life so far is the time it ran plus the time it did not. *)
Definition accounted (now : Z) (p : proc) : Prop :=
  0 <= p_ctime p /\ 0 <= p_rtime_whole p /\ 0 <= p_wtime_whole p /\
  p_ctime p + p_rtime_whole p + p_wtime_whole p = now.

Definition account_wake (me : option nat) (i : nat) (p : proc) : proc :=
  if bool_decide (me = Some i) then account p else wake_proc ChTicks (account p).

Lemma clockintr_lookup s i p :
  held s = [] -> length (procs s) = 64%nat -> Forall sane_times (procs s) ->
  procs s !! i = Some p ->
  exists s', clockintr s = Ok tt s' /\ ticks s' = u32 (ticks s + 1) /\ held s' = [] /\
    procs s' !! i = Some (account_wake (cur s) i p).
Proof.
  intros Hh Hl Hs Hp. rewrite (clockintr_ok s Hh Hl Hs). eexists. split; [done|].
  split_and!; [done|done|]. simpl. unfold wake_all.
  rewrite list_lookup_imap, list_lookup_fmap, Hp. done.
Qed.

(** C40: every clock tick leaves each process with a dynamic priority in
    [0 .. 100] that is its static priority less its niceness plus 5, clamped,
    and with a niceness in [0 .. 10]; it never touches the static priority. *)
Theorem clock_priority_bounds s i p :
  held s = [] -> length (procs s) = 64%nat -> Forall sane_times (procs s) ->
  procs s !! i = Some p -> 0 <= p_niceness p <= 10 ->
  exists s' p', clockintr s = Ok tt s' /\ procs s' !! i = Some p' /\
    0 <= p_priority p' <= 100 /\ 0 <= p_niceness p' <= 10 /\
    p_spriority p' = p_spriority p /\
    (- 2 ^ 30 <= p_spriority p < 2 ^ 30 ->
     p_priority p' = Z.max 0 (Z.min 100 (p_spriority p - p_niceness p' + 5))).
Proof.
  intros Hh Hl Hs Hp Hn.
  destruct (clockintr_lookup s i p Hh Hl Hs Hp) as (s' & Hr & _ & _ & Hp').
  exists s', (account_wake (cur s) i p). split; [done|]. split; [done|].
  assert (Hsane : sane_times p) by (rewrite Forall_lookup in Hs; eauto).
  pose proof (tick_niceness_range p Hsane Hn) as Hnice.
  assert (Hsp : p_spriority (tick_times p) = p_spriority p) by (destruct p as [st]; by destruct st).
  assert (E : p_priority (account_wake (cur s) i p) = p_priority (account p) /\
              p_niceness (account_wake (cur s) i p) = p_niceness (account p) /\
              p_spriority (account_wake (cur s) i p) = p_spriority (account p)).
  { pose proof (wake_proc_times ChTicks (account p)). unfold account_wake.
    case_bool_decide; split_and!; congruence. }
  destruct E as (-> & -> & ->). unfold account. simpl. rewrite Hsp.
  split_and!; try apply clamp_priority_range; try lia; try done.
  intros Hb. rewrite (s32_small (_ - _)), s32_small by lia.
  unfold clamp_priority. destruct (Z.ltb_spec (p_spriority p - tick_niceness (tick_times p) + 5) 0),
    (Z.ltb_spec 100 (p_spriority p - tick_niceness (tick_times p) + 5)); lia.
Qed.

(** The clock keeps every process's life accounted for: if the time since a
    process was created is the time it ran plus the time it did not, that still
    holds after a tick, and the tick went to exactly one of the two. *)
Theorem clock_accounts s i p :
  held s = [] -> length (procs s) = 64%nat -> Forall sane_times (procs s) ->
  procs s !! i = Some p -> accounted (ticks s) p -> ticks s + 1 < 2 ^ 32 ->
  exists s' p', clockintr s = Ok tt s' /\ procs s' !! i = Some p' /\ accounted (ticks s') p' /\
    p_rtime_whole p' = p_rtime_whole p + (if bool_decide (p_state p = RUNNING) then 1 else 0) /\
    p_wtime_whole p' = p_wtime_whole p + (if bool_decide (p_state p = RUNNING) then 0 else 1).
Proof.
  intros Hh Hl Hs Hp (H1 & H2 & H3 & H4) Ht.
  destruct (clockintr_lookup s i p Hh Hl Hs Hp) as (s' & Hr & Htick & _ & Hp').
  exists s', (account_wake (cur s) i p). split; [done|]. split; [done|].
  assert (Hc : p_ctime (account p) = p_ctime p) by (destruct p as [st]; by destruct st).
  assert (E : (p_ctime (account_wake (cur s) i p) = p_ctime p) /\
    (p_rtime_whole (account_wake (cur s) i p), p_wtime_whole (account_wake (cur s) i p)) =
    (p_rtime_whole (account p), p_wtime_whole (account p))).
  { pose proof (wake_proc_times ChTicks (account p)). unfold account_wake.
    case_bool_decide; split; congruence. }
  rewrite account_whole in E. destruct E as [Ec E]. unfold accounted. rewrite Ec, Htick.
  rewrite !u64_small, u32_small in * by lia.
  case_bool_decide; injection E as -> ->; split_and!; lia.
Qed.

(** ** [priority_updater] *)

Definition renice (new : Z) (p : proc) : proc := set_p_niceness 5 (set_p_spriority new p).

Lemma priority_loop_skip new pid l l2 temp s :
  no_proc_lock s ->
  Forall (fun j => exists p, procs s !! j = Some p /\ p_pid p <> pid) l ->
  priority_loop new pid (l ++ l2) temp s = priority_loop new pid l2 temp s.
Proof.
  intros Hn. induction 1 as [|j l (p & Hp & Hpid) _ IH]; cbn [app priority_loop]; [done|].
  destruct (lock_proc_cycle j s Hn) as [Ha Hr].
  mstep Ha. set (s1 := set_held _ s). mstep (pget_ok j p s1 Hp).
  destruct (Z.eqb_spec (p_pid p) pid); [done|]. unfold bind at 1. cbn [ret obind].
  mstep (Hr s1 eq_refl). unfold s1. rewrite <- IH. by destruct s.
Qed.

Lemma priority_loop_hit new pid l temp s i p :
  no_proc_lock s -> procs s !! i = Some p -> p_pid p = pid ->
  priority_loop new pid (i :: l) temp s =
    priority_loop new pid l (p_spriority p) (set_procs (<[i := renice new p]> (procs s)) s).
Proof.
  intros Hn Hp Hpid. cbn [priority_loop]. destruct (lock_proc_cycle i s Hn) as [Ha Hr].
  mstep Ha. set (s1 := set_held _ s). mstep (pget_ok i p s1 Hp).
  rewrite Hpid, Z.eqb_refl. rewrite (bind_assoc_ok _ _ _ _ _ _ (pupd_ok i (renice new) p s1 Hp)).
  unfold bind at 1. cbn [ret obind]. set (s2 := set_procs _ s1). mstep (Hr s2 eq_refl). by destruct s.
Qed.

Lemma priority_loop_one new pid s i p :
  length (procs s) = 64%nat -> no_proc_lock s -> procs s !! i = Some p -> p_pid p = pid ->
  (forall j q, j <> i -> procs s !! j = Some q -> p_pid q <> pid) ->
  priority_loop new pid all_procs (-1) s =
    Ok (p_spriority p) (set_procs (<[i := renice new p]> (procs s)) s).
Proof.
  intros Hl Hn Hp Hpid Hone. pose proof (lookup_lt_Some _ _ _ Hp) as Hi.
  unfold all_procs. replace 64%nat with (i + S (63 - i))%nat by lia.
  rewrite seq_app, priority_loop_skip; [|done|].
  - rewrite Nat.add_0_l. cbn [seq]. rewrite (priority_loop_hit _ _ _ _ _ _ p) by done.
    rewrite <- (app_nil_r (seq _ _)), priority_loop_skip; [done|done|].
    apply Forall_forall. intros j Hj%elem_of_seq. simpl.
    rewrite list_lookup_insert_ne by lia.
    destruct (lookup_lt_is_Some_2 (procs s) j) as [q Hq]; [lia|]. exists q. split; [done|].
    apply (Hone j); [lia|done].
  - apply Forall_forall. intros j Hj%elem_of_seq.
    destruct (lookup_lt_is_Some_2 (procs s) j) as [q Hq]; [lia|]. exists q. split; [done|].
    apply (Hone j); [lia|done].
Qed.

Lemma priority_loop_none new pid s :
  length (procs s) = 64%nat -> no_proc_lock s ->
  (forall j q, procs s !! j = Some q -> p_pid q <> pid) ->
  priority_loop new pid all_procs (-1) s = Ok (-1) s.
Proof.
  intros Hl Hn Hno. rewrite <- (app_nil_r all_procs), priority_loop_skip; [done|done|].
  apply Forall_forall. intros j Hj%elem_of_seq.
  destruct (lookup_lt_is_Some_2 (procs s) j) as [q Hq]; [lia|]. eauto.
Qed.

(** [priority_updater(new, pid)] sets the static priority and resets the
    niceness of the one process with that id and returns its old static
    priority; it gives up the CPU first, with the caller still runnable, exactly
    when the old value is larger (a raise in priority) and is not the value -1
    that stands for "no such process".  With no such process it changes
    nothing and returns -1. *)
Theorem priority_updater_spec new pid s me :
  length (procs s) = 64%nat -> held s = [] -> cur s = Some me -> is_Some (procs s !! me) ->
  ((forall j q, procs s !! j = Some q -> p_pid q <> pid) ->
     priority_updater new pid s = Ok (u64 (-1)) s) /\
  (forall i p, procs s !! i = Some p -> p_pid p = pid ->
     (forall j q, j <> i -> procs s !! j = Some q -> p_pid q <> pid) ->
     let ps := <[i := renice new p]> (procs s) in
     if decide (p_spriority p <> -1 /\ new < p_spriority p)
     then exists s1 k mp, priority_updater new pid s = Switch s1 k /\
            ps !! me = Some mp /\
            procs s1 = <[me := set_p_state RUNNABLE mp]> ps /\ held s1 = [LkProc me] /\
            forall s2, held s2 = [LkProc me] -> k s2 = Ok (u64 (p_spriority p)) (set_held [] s2)
     else priority_updater new pid s = Ok (u64 (p_spriority p)) (set_procs ps s)).
Proof.
  intros Hl Hh Hc [mp Hme].
  assert (Hn : no_proc_lock s) by (intros j; rewrite Hh; set_solver). split.
  - intros Hno. unfold priority_updater. mstep (priority_loop_none new pid s Hl Hn Hno). done.
  - intros i p Hp Hpid Hone ps. unfold priority_updater.
    mstep (priority_loop_one new pid s i p Hl Hn Hp Hpid Hone). fold ps.
    case_decide as Hd.
    + destruct (Z.eqb_spec (p_spriority p) (-1)), (Z.ltb_spec new (p_spriority p)); try lia.
      cbn [negb andb when].
      assert (exists mp', ps !! me = Some mp') as [mp' Hmp'].
      { apply lookup_lt_is_Some. unfold ps. rewrite length_insert. by eapply lookup_lt_Some. }
      destruct (yield_run me mp' (set_procs ps s) Hc Hmp' Hh) as (k & Hy & Hk).
      unfold bind. rewrite Hy. simpl. eexists _, _, mp'. split_and!; [done|done|done|done|].
      intros s2 Hs2. cbv beta. by rewrite (Hk s2 Hs2).
    + destruct (Z.eqb_spec (p_spriority p) (-1)), (Z.ltb_spec new (p_spriority p)); try lia; done.
Qed.

(** ** Witnesses *)

(** The table of [State.demo_state] with process 5 in slot 3 running, and alive
    since the clock stood at 6 (of now 100). *)
Definition demo_clock : kstate :=
  set_ticks 100 (set_cur (Some 3%nat) (set_procs
    (<[3%nat := set_p_state RUNNING (set_p_rtime_whole 30 (set_p_wtime_whole 64
        (set_p_spriority 60 (demo_proc 5 RUNNING 6 60 1))))]> (procs demo_state)) demo_state)).

Lemma demo_clock_sane : Forall sane_times (procs demo_clock).
Proof.
  apply Forall_forall. intros p Hp. unfold sane_times.
  assert (E : Forall (fun p => (p_stime p, p_rtime p) = (0, 0)) (procs demo_clock))
    by (repeat constructor).
  rewrite Forall_forall in E. specialize (E p Hp). simplify_eq. lia.
Qed.

Lemma clock_priority_bounds_witness :
  exists s' p', clockintr demo_clock = Ok tt s' /\ procs s' !! 3%nat = Some p' /\
    0 <= p_priority p' <= 100.
Proof.
  destruct (clock_priority_bounds demo_clock 3 _ eq_refl eq_refl demo_clock_sane eq_refl
              ltac:(split; vm_compute; discriminate)) as (s' & p' & H1 & H2 & H3 & _).
  exists s', p'. exact (conj H1 (conj H2 H3)).
Defined.

