(* ===== verification/Cstring.v ===== *)
(** * Memory and string routines

    [kernel/string.c].  [memset] and [memmove] work on the byte memory, where
    source and destination may overlap.  The string routines work on the
    arrays the kernel calls them with (names, paths, directory entries), as
    lists of characters; they return [None] when the C code would read or write
    past the end of an array. *)

From stdpp Require Import gmap strings list fin_maps.
From S2P Require Import Prelude Layout.

(** ** Memory *)

(** [for(i = 0; i < n; i++) cdst[i] = c;] *)
Fixpoint memset_loop (m : gmap Z Z) (dst c : Z) (n : nat) : gmap Z Z :=
  match n with
  | O => m
  | S n => memset_loop (stb m dst c) (dst + 1) c n
  end.

Definition memset (m : gmap Z Z) (dst c n : Z) : gmap Z Z := memset_loop m dst c (Z.to_nat n).

(** [while(n-- > 0) *d++ = *s++;] *)
Fixpoint move_up (m : gmap Z Z) (d s : Z) (n : nat) : gmap Z Z :=
  match n with
  | O => m
  | S n => move_up (stb m d (ldb m s)) (d + 1) (s + 1) n
  end.

(** [while(n-- > 0) *--d = *--s;] *)
Fixpoint move_down (m : gmap Z Z) (d s : Z) (n : nat) : gmap Z Z :=
  match n with
  | O => m
  | S n => move_down (stb m (d - 1) (ldb m (s - 1))) (d - 1) (s - 1) n
  end.

Definition memmove (m : gmap Z Z) (dst src n : Z) : gmap Z Z :=
  if n =? 0 then m
  else if (src <? dst) && (dst <? src + n)
  then move_down m (dst + n) (src + n) (Z.to_nat n)
  else move_up m dst src (Z.to_nat n).

Definition memcpy (m : gmap Z Z) (dst src n : Z) : gmap Z Z := memmove m dst src n.

(** ** Strings *)

Fixpoint memcmp (s1 s2 : list Z) (n : nat) {struct n} : option Z :=
  match n with
  | O => Some 0
  | S n =>
      match s1, s2 with
      | a :: s1, b :: s2 => if a =? b then memcmp s1 s2 n else Some (a - b)
      | _, _ => None
      end
  end.

Fixpoint strncmp (p q : list Z) (n : nat) {struct n} : option Z :=
  match n with
  | O => Some 0
  | S n =>
      match p, q with
      | a :: p, b :: q =>
          if negb (a =? 0) && (a =? b) then strncmp p q n else Some (a - b)
      | _, _ => None
      end
  end.

(** [while(n-- > 0) *s++ = 0;] *)
Fixpoint zero_fill (s : list Z) (n : nat) {struct n} : option (list Z) :=
  match n with
  | O => Some s
  | S n => match s with
           | _ :: s => cons 0 <$> zero_fill s n
           | [] => None
           end
  end.

Fixpoint strncpy (s t : list Z) (n : nat) {struct n} : option (list Z) :=
  match n with
  | O => Some s
  | S n =>
      match s, t with
      | _ :: s, c :: t =>
          if c =? 0 then cons 0 <$> zero_fill s n else cons c <$> strncpy s t n
      | _, _ => None
      end
  end.

(** [while(--n > 0 && ( *s++ = *t++ ) != 0); *s = 0;] where [n] characters may
    still be copied. *)
Fixpoint safestrcpy_loop (s t : list Z) (n : nat) {struct n} : option (list Z) :=
  match n with
  | O => zero_fill s 1
  | S n =>
      match s, t with
      | _ :: s, c :: t =>
          if c =? 0 then cons 0 <$> zero_fill s 1 else cons c <$> safestrcpy_loop s t n
      | _, _ => None
      end
  end.

Definition safestrcpy (s t : list Z) (n : Z) : option (list Z) :=
  if n <=? 0 then Some s else safestrcpy_loop s t (Z.to_nat (n - 1)).

Fixpoint strlen (s : list Z) : option Z :=
  match s with
  | [] => None
  | c :: s => if c =? 0 then Some 0 else Z.add 1 <$> strlen s
  end.

(** ** Memory: what the loops do *)

Lemma ldb_memset_loop m dst c n x :
  ldb (memset_loop m dst c n) x =
    if decide (dst <= x < dst + Z.of_nat n) then u8 c else ldb m x.
Proof.
  revert m dst. induction n as [|n IH]; intros m dst; cbn [memset_loop].
  - by rewrite decide_False by lia.
  - rewrite IH, ldb_stb. repeat case_decide; lia || done.
Qed.

Lemma ldb_memset m dst c n x :
  ldb (memset m dst c n) x = if decide (dst <= x < dst + n) then u8 c else ldb m x.
Proof.
  unfold memset. rewrite ldb_memset_loop. repeat case_decide; lia || done.
Qed.

Lemma ldb_move_up m d s n x :
  ~ (s < d < s + Z.of_nat n) ->
  ldb (move_up m d s n) x =
    if decide (d <= x < d + Z.of_nat n) then ldb m (s + (x - d)) else ldb m x.
Proof.
  revert m d s. induction n as [|n IH]; intros m d s H; cbn [move_up].
  - by rewrite decide_False by lia.
  - rewrite IH by lia. rewrite !ldb_stb.
    repeat case_decide; subst; try lia; try done.
    + f_equal. lia.
    + rewrite u8_small by apply ldb_range. f_equal. lia.
Qed.

Lemma ldb_move_down m d s n x :
  ~ (d < s < d + Z.of_nat n) ->
  ldb (move_down m d s n) x =
    if decide (d - Z.of_nat n <= x < d) then ldb m (s + (x - d)) else ldb m x.
Proof.
  revert m d s. induction n as [|n IH]; intros m d s H; cbn [move_down].
  - by rewrite decide_False by lia.
  - rewrite IH by lia. rewrite !ldb_stb.
    repeat case_decide; subst; try lia; try done.
    + f_equal. lia.
    + rewrite u8_small by apply ldb_range. f_equal. lia.
Qed.

Lemma ldb_memmove m dst src n x :
  0 <= n ->
  ldb (memmove m dst src n) x =
    if decide (dst <= x < dst + n) then ldb m (src + (x - dst)) else ldb m x.
Proof.
  intros Hn0. unfold memmove. destruct (Z.eqb_spec n 0) as [->|Hn].
  - by rewrite decide_False by lia.
  - destruct (Z.ltb_spec src dst), (Z.ltb_spec dst (src + n)); cbn [andb];
      first [rewrite ldb_move_down by lia | rewrite ldb_move_up by lia];
      repeat case_decide; try lia; f_equal; lia.
Qed.

(** [memmove(dst, src, n)] copies as if through a temporary buffer, however
    the two regions overlap: the destination ends up with the bytes the source
    held before, and no byte outside of the destination changes. *)
Theorem memmove_copies m dst src (n : nat) :
  ldl (memmove m dst src (Z.of_nat n)) dst n = ldl m src n /\
  (forall x, ~ (dst <= x < dst + Z.of_nat n) ->
     ldb (memmove m dst src (Z.of_nat n)) x = ldb m x).
Proof.
  split.
  - apply list_eq_same_length with n; [by rewrite length_ldl..|].
    intros i x y Hi H1 H2. rewrite lookup_ldl in H1, H2 by done.
    rewrite ldb_memmove, decide_True in H1 by lia.
    replace (src + (dst + Z.of_nat i - dst)) with (src + Z.of_nat i) in H1 by lia. congruence.
  - intros x Hx. by rewrite ldb_memmove, decide_False by lia.
Qed.

(** ** Strings: what they compute *)

(** The characters before the terminator. *)
Fixpoint cstr (s : list Z) : list Z :=
  match s with
  | [] => []
  | c :: s => if c =? 0 then [] else c :: cstr s
  end.

(** The array holds a terminated string. *)
Definition terminated (s : list Z) : Prop := 0 ∈ s.

Lemma cstr_split s : terminated s -> exists r, s = cstr s ++ 0 :: r.
Proof.
  induction s as [|c s IH]; intros H; [by apply elem_of_nil in H|]. simpl.
  destruct (Z.eqb_spec c 0) as [->|Hc]; [by exists s|].
  destruct IH as [r Hr]; [by apply elem_of_cons in H as [?|?]|].
  exists r. simpl. by f_equal.
Qed.

Lemma cstr_nonzero s : 0 ∉ cstr s.
Proof.
  induction s as [|c s IH]; simpl; [set_solver|].
  destruct (Z.eqb_spec c 0); set_solver.
Qed.

Lemma cstr_app_zero l r : 0 ∉ l -> cstr (l ++ 0 :: r) = l.
Proof.
  induction l as [|c l IH]; intros H; [done|]. simpl.
  destruct (Z.eqb_spec c 0); [set_solver|]. f_equal. apply IH. set_solver.
Qed.

Lemma cstr_all l : 0 ∉ l -> cstr l = l.
Proof.
  induction l as [|c l IH]; intros H; [done|]. simpl.
  destruct (Z.eqb_spec c 0); [set_solver|]. f_equal. apply IH. set_solver.
Qed.

Lemma strlen_cstr s : terminated s -> strlen s = Some (Z.of_nat (length (cstr s))).
Proof.
  induction s as [|c s IH]; intros H; [by apply elem_of_nil in H|]. simpl.
  destruct (Z.eqb_spec c 0); [done|].
  rewrite IH by (apply elem_of_cons in H as [?|?]; done). simpl. f_equal. lia.
Qed.

Lemma length_cstr s : (length (cstr s) <= length s)%nat.
Proof. induction s as [|c s IH]; simpl; [lia|]. destruct (c =? 0); simpl; lia. Qed.

(** Two names compare equal when they agree up to the terminator or the limit. *)
Lemma strncmp_spec p q n :
  (n <= length p)%nat -> (n <= length q)%nat ->
  exists r, strncmp p q n = Some r /\ (r = 0 <-> cstr (take n p) = cstr (take n q)).
Proof.
  revert p q. induction n as [|n IH]; intros p q Hp Hq; cbn [strncmp].
  - exists 0. split; [done|]. by split.
  - destruct p as [|a p], q as [|b q]; simpl in Hp, Hq; try lia. cbn [take cstr].
    destruct (Z.eqb_spec a 0) as [->|Ha]; cbn [negb andb].
    + exists (0 - b). split; [done|]. destruct (Z.eqb_spec b 0); split; intros; try done; lia.
    + destruct (Z.eqb_spec a b) as [->|Hab].
      * destruct (Z.eqb_spec b 0); [done|].
        destruct (IH p q) as (r & Hr & Hiff); [lia..|]. exists r. split; [done|].
        rewrite Hiff. split; [by intros ->|congruence].
      * exists (a - b). split; [done|]. destruct (Z.eqb_spec b 0); split; intros; try done; try lia.
        simplify_eq.
Qed.

Lemma zero_fill_spec s n :
  (n <= length s)%nat -> zero_fill s n = Some (replicate n 0 ++ drop n s).
Proof.
  revert s. induction n as [|n IH]; intros s H; [done|]. cbn [zero_fill].
  destruct s as [|c s]; simpl in H; [lia|]. by rewrite IH by lia.
Qed.

(** [strncpy] stores the source string padded with zeros to [n] characters. *)
Lemma strncpy_spec s t n :
  (n <= length s)%nat -> (terminated t \/ (n <= length t)%nat) ->
  strncpy s t n =
    Some (take n (cstr t) ++ replicate (n - length (cstr t)) 0 ++ drop n s).
Proof.
  revert s t. induction n as [|n IH]; intros s t Hs Ht; cbn [strncpy]; [done|].
  destruct s as [|x s]; simpl in Hs; [lia|]. destruct t as [|c t].
  { destruct Ht as [Ht|Ht]; [by apply elem_of_nil in Ht|simpl in Ht; lia]. }
  cbn [cstr]. destruct (Z.eqb_spec c 0) as [->|Hc].
  - rewrite zero_fill_spec by lia. done.
  - rewrite IH; [done|lia|]. destruct Ht as [Ht|Ht]; [left|right; simpl in Ht; lia].
    by apply elem_of_cons in Ht as [?|?].
Qed.

(** What [safestrcpy] leaves in the destination. *)
Lemma safestrcpy_loop_spec s t n :
  (n < length s)%nat -> terminated t ->
  exists r, safestrcpy_loop s t n = Some (take n (cstr t) ++ 0 :: r) /\
    length (take n (cstr t) ++ 0 :: r) = length s.
Proof.
  revert s t. induction n as [|n IH]; intros s t Hs Ht; cbn [safestrcpy_loop].
  - rewrite zero_fill_spec by lia. exists (drop 1 s). split; [done|]. simpl. rewrite length_drop. lia.
  - destruct s as [|x s]; simpl in Hs; [lia|].
    destruct t as [|c t]; [by apply elem_of_nil in Ht|]. cbn [cstr].
    destruct (Z.eqb_spec c 0) as [->|Hc].
    + rewrite zero_fill_spec by lia. exists (0 :: drop 1 s). split; [done|].
      simpl. rewrite length_drop. lia.
    + destruct (IH s t) as (r & Hr & Hlen); [lia|by apply elem_of_cons in Ht as [?|?]|].
      rewrite Hr. exists r. split; [done|]. simpl in *. lia.
Qed.

(** [safestrcpy(s, t, n)] with a positive [n] that fits the destination
    stores the first [n - 1] characters of the string [t] and always a
    terminator after them, without writing past the array. *)
Lemma safestrcpy_terminates s t n :
  0 < n <= Z.of_nat (length s) -> terminated t ->
  exists s', safestrcpy s t n = Some s' /\ length s' = length s /\ terminated s' /\
    cstr s' = take (Z.to_nat (n - 1)) (cstr t).
Proof.
  intros Hn Ht. unfold safestrcpy. destruct (Z.leb_spec n 0); [lia|].
  destruct (safestrcpy_loop_spec s t (Z.to_nat (n - 1))) as (r & -> & Hlen); [lia|done|].
  eexists. split; [done|]. split; [done|]. split; [unfold terminated; set_solver|].
  apply cstr_app_zero. intros Hin. apply (cstr_nonzero t).
  rewrite <- (take_drop (Z.to_nat (n - 1)) (cstr t)). apply elem_of_app. by left.
Qed.

