(* ===== verification/Spinlock.v ===== *)
(** * Spinlocks

    [kernel/spinlock.c] on any number of CPUs.  [acquire] and [release] are cut
    into the atomic sections that other CPUs can run between: the test-and-set
    on [lk->locked], the write of [lk->cpu], and so on.  The step relation
    interleaves them; its invariant gives mutual exclusion and the nesting of
    [push_off]/[pop_off].  The last theorem discharges the view the rest of the
    development takes, [State.acquire] and [State.release] on a list of held
    locks. *)

From stdpp Require Import gmap strings list functions.
From S2P Require Import Prelude Layout State Sched.

(** kernel/spinlock.h: [struct spinlock], without its name. *)
Record spin : Type := MkSpin { sp_locked : bool; sp_cpu : option nat }.

(** kernel/proc.h: the fields of [struct cpu] used here, and the hart's
    [sstatus.SIE] bit. *)
Record cpu : Type := MkCpu { c_noff : Z; c_intena : bool; c_sie : bool }.

Record machine : Type := MkMachine { locks : lock -> spin; cpus : nat -> cpu }.

Definition set_lock (lk : lock) (v : spin) (m : machine) : machine :=
  MkMachine (<[lk := v]> (locks m)) (cpus m).
Definition set_cpu (i : nat) (c : cpu) (m : machine) : machine :=
  MkMachine (locks m) (<[i := c]> (cpus m)).

(** ** The code, run by CPU [i] *)

Definition intr_off (c : cpu) : cpu := MkCpu (c_noff c) (c_intena c) false.
Definition intr_on (c : cpu) : cpu := MkCpu (c_noff c) (c_intena c) true.

Definition initlock (lk : lock) : M machine unit := modify (set_lock lk (MkSpin false None)).

Definition holding_cpu (i : nat) (lk : lock) (m : machine) : bool :=
  sp_locked (locks m lk) && bool_decide (sp_cpu (locks m lk) = Some i).

Definition push_off (i : nat) : M machine unit :=
  let! old := gets (fun m => c_sie (cpus m i)) in
  modify (fun m => set_cpu i (intr_off (cpus m i)) m) ;;
  let! c := gets (fun m => cpus m i) in
  modify (fun m =>
    set_cpu i (MkCpu (s32 (c_noff c + 1)) (if c_noff c =? 0 then old else c_intena c) (c_sie c)) m).

Definition pop_off (i : nat) : M machine unit :=
  let! c := gets (fun m => cpus m i) in
  if c_sie c then panic "pop_off - interruptible" else
  if c_noff c <? 1 then panic "pop_off" else
  let c' := MkCpu (c_noff c - 1) (c_intena c) (c_sie c) in
  modify (set_cpu i (if (c_noff c' =? 0) && c_intena c' then intr_on c' else c')).

(** [acquire] up to the spin loop. *)
Definition acquire_enter (i : nat) (lk : lock) : M machine unit :=
  push_off i ;;
  let! h := gets (holding_cpu i lk) in
  if h then panic "acquire" else ret tt.

(** [__sync_lock_test_and_set(&lk->locked, 1)]. *)
Definition test_and_set (lk : lock) : M machine bool :=
  let! l := gets (fun m => locks m lk) in
  modify (set_lock lk (MkSpin true (sp_cpu l))) ;;
  ret (sp_locked l).

Fixpoint acquire_spin (n : nat) (lk : lock) : M machine unit :=
  match n with
  | O => no_fuel
  | S n => let! old := test_and_set lk in if old then acquire_spin n lk else ret tt
  end.

(** [lk->cpu = mycpu()]. *)
Definition acquire_exit (i : nat) (lk : lock) : M machine unit :=
  modify (fun m => set_lock lk (MkSpin (sp_locked (locks m lk)) (Some i)) m).

(** [acquire], spinning at most [n] times. *)
Definition acquire_cpu (n i : nat) (lk : lock) : M machine unit :=
  acquire_enter i lk ;; acquire_spin n lk ;; acquire_exit i lk.

(** [release] up to the fence. *)
Definition release_enter (i : nat) (lk : lock) : M machine unit :=
  let! h := gets (holding_cpu i lk) in
  if negb h then panic "release" else
  modify (fun m => set_lock lk (MkSpin (sp_locked (locks m lk)) None) m).

(** [__sync_lock_release(&lk->locked); pop_off();] *)
Definition release_exit (i : nat) (lk : lock) : M machine unit :=
  modify (fun m => set_lock lk (MkSpin false (sp_cpu (locks m lk))) m) ;;
  pop_off i.

Definition release_cpu (i : nat) (lk : lock) : M machine unit :=
  release_enter i lk ;; release_exit i lk.

(** ** Interleavings *)

(** Where a CPU is: in other code, spinning in [acquire], between the successful
    test-and-set and the write of [lk->cpu], or between the two writes of
    [release]. *)
Inductive pc : Type := Outside | Spinning (lk : lock) | Entered (lk : lock) | Leaving (lk : lock).

(** [own i] are the locks whose [locked] word CPU [i] was the last to set. *)
Record config : Type := MkConfig { mach : machine; pcs : nat -> pc; own : nat -> list lock }.

Inductive step (i : nat) : config -> config -> Prop :=
| step_enter m p o lk m' :
    p i = Outside -> acquire_enter i lk m = Ok tt m' ->
    step i (MkConfig m p o) (MkConfig m' (<[i := Spinning lk]> p) o)
| step_spin m p o lk m' :
    p i = Spinning lk -> test_and_set lk m = Ok true m' ->
    step i (MkConfig m p o) (MkConfig m' p o)
| step_got m p o lk m' :
    p i = Spinning lk -> test_and_set lk m = Ok false m' ->
    step i (MkConfig m p o) (MkConfig m' (<[i := Entered lk]> p) (<[i := lk :: o i]> o))
| step_exit m p o lk m' :
    p i = Entered lk -> acquire_exit i lk m = Ok tt m' ->
    step i (MkConfig m p o) (MkConfig m' (<[i := Outside]> p) o)
| step_leave m p o lk m' :
    p i = Outside -> release_enter i lk m = Ok tt m' ->
    step i (MkConfig m p o) (MkConfig m' (<[i := Leaving lk]> p) o)
| step_left m p o lk m' :
    p i = Leaving lk -> release_exit i lk m = Ok tt m' ->
    step i (MkConfig m p o)
      (MkConfig m' (<[i := Outside]> p) (<[i := filter (.≠ lk) (o i)]> o))
| step_intr m p o b :
    (** the CPU turns interrupts on or off while it has none disabled *)
    p i = Outside -> c_noff (cpus m i) = 0 ->
    step i (MkConfig m p o)
      (MkConfig (set_cpu i (MkCpu 0 (c_intena (cpus m i)) b) m) p o).

Definition initial (c : config) : Prop :=
  (forall lk, locks (mach c) lk = MkSpin false None) /\
  (forall i, c_noff (cpus (mach c) i) = 0 /\ pcs c i = Outside /\ own c i = []).

(** The nesting of locks is far below the width of [noff]. *)
Definition nesting_ok (c : config) : Prop := forall i, Z.of_nat (length (own c i)) < 2 ^ 30.

Inductive reachable : config -> Prop :=
| reach_init c : initial c -> reachable c
| reach_step i c c' : reachable c -> nesting_ok c -> step i c c' -> reachable c'.

(** ** The invariant *)

Record inv (c : config) : Prop := MkInv {
  inv_locked : forall i lk, lk ∈ own c i -> sp_locked (locks (mach c) lk) = true;
  inv_owner : forall lk, sp_locked (locks (mach c) lk) = true -> exists i, lk ∈ own c i;
  inv_unique : forall i j lk, lk ∈ own c i -> lk ∈ own c j -> i = j;
  inv_nodup : forall i, NoDup (own c i);
  inv_cpu : forall i lk, sp_cpu (locks (mach c) lk) = Some i <->
    lk ∈ own c i /\ pcs c i <> Entered lk /\ pcs c i <> Leaving lk;
  inv_pc : forall i, match pcs c i with
                     | Outside => True
                     | Spinning lk => lk ∉ own c i
                     | Entered lk | Leaving lk => lk ∈ own c i
                     end;
  inv_noff : forall i, c_noff (cpus (mach c) i) =
    Z.of_nat (length (own c i)) + match pcs c i with Spinning _ => 1 | _ => 0 end;
  inv_sie : forall i, 0 < c_noff (cpus (mach c) i) -> c_sie (cpus (mach c) i) = false
}.

Lemma fn_ins {A T} `{EqDecision A} (f : A -> T) a b t :
  <[a := t]> f b = if decide (b = a) then t else f b.
Proof. case_decide; subst; [apply fn_lookup_insert|by apply fn_lookup_insert_ne]. Qed.

Lemma length_filter_remove (lk : lock) l :
  NoDup l -> lk ∈ l -> S (length (filter (.≠ lk) l)) = length l.
Proof.
  induction 1 as [|x l Hx Hl IH]; intros Hin; [by apply elem_of_nil in Hin|].
  destruct (decide (x = lk)) as [->|Hne].
  - rewrite filter_cons_False by auto. simpl. f_equal. f_equal.
    clear IH Hin Hl. induction l as [|y l IH]; [done|].
    rewrite filter_cons_True by set_solver. f_equal. apply IH. set_solver.
  - rewrite filter_cons_True by done. simpl. f_equal. apply IH. set_solver.
Qed.

(** *** What each section of code does *)

Lemma push_off_run i m :
  push_off i m = Ok tt (set_cpu i
    (MkCpu (s32 (c_noff (cpus m i) + 1))
       (if c_noff (cpus m i) =? 0 then c_sie (cpus m i) else c_intena (cpus m i)) false)
    (set_cpu i (intr_off (cpus m i)) m)).
Proof. unfold push_off, bind, gets, modify. simpl. by rewrite fn_ins, decide_True by done. Qed.

Lemma holding_own c i lk :
  inv c -> pcs c i = Outside -> holding_cpu i lk (mach c) = bool_decide (lk ∈ own c i).
Proof.
  intros Hi Hp. unfold holding_cpu. pose proof (inv_cpu c Hi i lk) as Hc.
  pose proof (inv_locked c Hi i lk) as Hl.
  destruct (bool_decide (lk ∈ own c i)) eqn:E.
  - apply bool_decide_eq_true in E. rewrite Hl by done. apply bool_decide_eq_true_2.
    apply Hc. rewrite Hp. done.
  - apply bool_decide_eq_false in E. apply andb_false_intro2, bool_decide_eq_false_2. tauto.
Qed.

Lemma pop_off_run c i :
  inv c -> nesting_ok c -> match pcs c i with Spinning _ => False | _ => True end ->
  forall m, cpus m = cpus (mach c) -> own c i <> [] ->
  exists cp, pop_off i m = Ok tt (set_cpu i cp m) /\
    c_noff cp = c_noff (cpus m i) - 1 /\ c_intena cp = c_intena (cpus m i) /\
    c_sie cp = bool_decide (c_noff cp = 0) && c_intena cp.
Proof.
  intros Hi Hn Hp m Hm Ho. unfold pop_off, bind, gets. simpl. rewrite Hm.
  pose proof (inv_noff c Hi i) as Hno. pose proof (inv_sie c Hi i) as Hs.
  assert (Hpos : 1 <= c_noff (cpus (mach c) i)).
  { rewrite Hno. destruct (own c i); [done|]. simpl. destruct (pcs c i); lia. }
  rewrite Hs by lia. destruct (Z.ltb_spec (c_noff (cpus (mach c) i)) 1); [lia|].
  unfold modify. eexists. split; [done|].
  destruct (Z.eqb_spec (c_noff (cpus (mach c) i) - 1) 0) as [E|E]; simpl.
  - destruct (c_intena _) eqn:Ei; simpl; rewrite ?Ei; split_and!; try done.
    + by rewrite bool_decide_true by done.
    + by rewrite andb_false_r.
  - split_and!; try done. by rewrite bool_decide_false by done.
Qed.

(** *** Preservation *)

Ltac fn_cases := repeat (rewrite fn_ins in * || case_decide; simplify_eq; simpl in *).

Section Preserve.
Context (m : machine) (p : nat -> pc) (o : nat -> list lock) (i : nat).
Context (Hi : inv (MkConfig m p o)) (Hn : nesting_ok (MkConfig m p o)).

Lemma preserve_enter lk m' :
  p i = Outside -> acquire_enter i lk m = Ok tt m' ->
  inv (MkConfig m' (<[i := Spinning lk]> p) o).
Proof.
  intros Hp H. destruct Hi as [I1 I2 I3 I4 I5 I6 I7 I8]. simpl in *.
  assert (Hlk : (lk ∉ o i) /\ m' = set_cpu i
    (MkCpu (c_noff (cpus m i) + 1)
       (if c_noff (cpus m i) =? 0 then c_sie (cpus m i) else c_intena (cpus m i)) false)
    (set_cpu i (intr_off (cpus m i)) m)).
  { unfold acquire_enter in H. rewrite (bind_ok _ _ _ _ _ (push_off_run i m)) in H.
    unfold bind in H. cbn [gets obind] in H.
    pose proof (holding_own _ i lk Hi Hp) as Hh. unfold holding_cpu in H, Hh. simpl in H, Hh.
    rewrite Hh in H. specialize (I7 i). rewrite Hp in I7. specialize (Hn i). simpl in Hn.
    rewrite s32_small in H by lia. clear Hh.
    destruct (bool_decide_reflect (lk ∈ o i)); [inversion H|]. split; [done|]. by inversion H. }
  destruct Hlk as [Hlk ->]. constructor; simpl; auto.
  - intros j l. rewrite I5. fn_cases; intuition congruence.
  - intros j. specialize (I6 j). fn_cases; done.
  - intros j. specialize (I7 j). fn_cases; [rewrite Hp in I7; lia|done].
  - intros j. specialize (I8 j). fn_cases; auto.
Qed.

Lemma preserve_spin lk m' :
  test_and_set lk m = Ok true m' -> inv (MkConfig m' p o).
Proof using Hi.
  clear Hn.
  unfold test_and_set, bind, gets, modify, ret. simpl. intros H. injection H as Hl <-.
  destruct Hi as [I1 I2 I3 I4 I5 I6 I7 I8]. simpl in *.
  constructor; simpl; auto.
  - intros j l Hj. specialize (I1 j l Hj). by fn_cases.
  - intros l. specialize (I2 l). fn_cases; auto.
  - intros j l. specialize (I5 j l). by fn_cases.
Qed.

Lemma preserve_got lk m' :
  p i = Spinning lk -> test_and_set lk m = Ok false m' ->
  inv (MkConfig m' (<[i := Entered lk]> p) (<[i := lk :: o i]> o)).
Proof using Hi.
  clear Hn.
  intros Hp. unfold test_and_set, bind, gets, modify, ret. simpl. intros H. injection H as Hl <-.
  destruct Hi as [I1 I2 I3 I4 I5 I6 I7 I8]. simpl in *.
  assert (Hno : forall j, lk ∉ o j) by (intros j Hj; rewrite (I1 j lk Hj) in Hl; done).
  constructor; simpl.
  - intros j l Hj. fn_cases; try done; try (by eapply I1).
    apply (I1 i). apply elem_of_cons in Hj as [?|?]; done.
  - intros l Hloc. fn_cases.
    + exists i. fn_cases. set_solver.
    + destruct (I2 l Hloc) as [j Hj]. exists j. fn_cases; set_solver.
  - intros j k l Hj Hk. fn_cases; try done; rewrite ?elem_of_cons in *; destruct_or?; subst;
      solve [eauto | exfalso; by eapply Hno].
  - intros j. specialize (I4 j). fn_cases; [|done]. by constructor.
  - intros j l. specialize (I5 j l). pose proof (Hno j).
    fn_cases; rewrite ?elem_of_cons; intuition congruence.
  - intros j. specialize (I6 j). fn_cases; [set_solver|done].
  - intros j. specialize (I7 j). fn_cases; [rewrite Hp in I7; lia|done].
  - intros j. apply I8.
Qed.

Lemma preserve_exit lk m' :
  p i = Entered lk -> acquire_exit i lk m = Ok tt m' -> inv (MkConfig m' (<[i := Outside]> p) o).
Proof using Hi.
  clear Hn.
  intros Hp. unfold acquire_exit, modify. intros H. injection H as <-.
  destruct Hi as [I1 I2 I3 I4 I5 I6 I7 I8]. simpl in *.
  pose proof (I6 i) as Hin. rewrite Hp in Hin.
  constructor; simpl; auto.
  - intros j l Hj. specialize (I1 j l Hj). by fn_cases.
  - intros l. specialize (I2 l). fn_cases; auto.
  - intros j l. specialize (I5 j l). pose proof (I3 i j lk).
    fn_cases; intuition congruence.
  - intros j. specialize (I6 j). fn_cases; done.
  - intros j. specialize (I7 j). fn_cases; [rewrite Hp in I7; lia|done].
Qed.

Lemma preserve_leave lk m' :
  p i = Outside -> release_enter i lk m = Ok tt m' ->
  inv (MkConfig m' (<[i := Leaving lk]> p) o).
Proof using Hi.
  clear Hn.
  intros Hp. unfold release_enter, bind. cbn [gets obind].
  pose proof (holding_own _ i lk Hi Hp) as Hh. simpl in Hh. rewrite Hh. case_bool_decide as Hlk; [|done].
  unfold modify. cbn [negb]. intros H. injection H as <-.
  destruct Hi as [I1 I2 I3 I4 I5 I6 I7 I8]. simpl in *.
  constructor; simpl; auto.
  - intros j l Hj. specialize (I1 j l Hj). by fn_cases.
  - intros l. specialize (I2 l). fn_cases; auto.
  - intros j l. specialize (I5 j l). pose proof (I3 i j lk).
    fn_cases; intuition congruence.
  - intros j. specialize (I6 j). fn_cases; done.
  - intros j. specialize (I7 j). fn_cases; [rewrite Hp in I7; lia|done].
Qed.

Lemma preserve_left lk m' :
  p i = Leaving lk -> release_exit i lk m = Ok tt m' ->
  inv (MkConfig m' (<[i := Outside]> p) (<[i := filter (.≠ lk) (o i)]> o)).
Proof.
  intros Hp. unfold release_exit, bind. cbn [modify obind].
  set (m1 := set_lock _ _ m). intros H.
  destruct (pop_off_run (MkConfig m p o) i Hi Hn ltac:(simpl; by rewrite Hp) m1 eq_refl)
    as (cp & Hpop & Hno & _ & Hs).
  { intros E. pose proof (inv_pc _ Hi i) as Hin. simpl in E, Hin. rewrite Hp, E in Hin.
    by apply elem_of_nil in Hin. }
  rewrite Hpop in H. injection H as <-.
  assert (Hs' : 0 < c_noff cp -> c_sie cp = false)
    by (intros; rewrite Hs; by rewrite bool_decide_false by lia). clear Hs.
  destruct Hi as [I1 I2 I3 I4 I5 I6 I7 I8]. simpl in *.
  pose proof (I6 i) as Hin. rewrite Hp in Hin.
  assert (Hlen := length_filter_remove lk (o i) (I4 i) Hin).
  constructor; simpl.
  - intros j l Hj. assert (Hold : l ∈ o j /\ (j = i -> l <> lk)).
    { rewrite fn_ins in Hj. case_decide; subst; [|done]. by apply list_elem_of_filter in Hj as [? ?]. }
    destruct Hold as [Hj' Hne]. rewrite fn_ins. case_decide; [|by eapply I1].
    subst. by destruct (Hne (I3 j i lk Hj' Hin)).
  - intros l Hloc. rewrite fn_ins in Hloc. case_decide; [done|].
    destruct (I2 l Hloc) as [j Hj]. exists j. rewrite fn_ins. case_decide; [|done].
    subst. by apply list_elem_of_filter.
  - intros j k l Hj Hk. fn_cases; try done; rewrite ?list_elem_of_filter in *; destruct_and?; eauto.
  - intros j. specialize (I4 j). fn_cases; [|done]. by apply list.NoDup_filter.
  - intros j l. specialize (I5 j l). pose proof (I3 i j lk Hin).
    fn_cases; rewrite ?list_elem_of_filter; intuition congruence.
  - intros j. specialize (I6 j). by fn_cases.
  - intros j. pose proof (I7 j) as Hj. fn_cases; [|done]. rewrite Hp in Hj. lia.
  - intros j. specialize (I8 j). by fn_cases.
Qed.

Lemma preserve_intr b :
  p i = Outside -> c_noff (cpus m i) = 0 ->
  inv (MkConfig (set_cpu i (MkCpu 0 (c_intena (cpus m i)) b) m) p o).
Proof using Hi.
  clear Hn.
  intros Hp H0. destruct Hi as [I1 I2 I3 I4 I5 I6 I7 I8]. simpl in *.
  constructor; simpl; auto.
  - intros j. specialize (I7 j). by fn_cases; lia.
  - intros j. specialize (I8 j). fn_cases; [lia|done].
Qed.
End Preserve.

Lemma reachable_inv c : reachable c -> inv c.
Proof.
  induction 1 as [c [Hl Hc]|i c c' _ Hi Hn Hs].
  - constructor.
    + intros i lk. destruct (Hc i) as (_ & _ & ->). set_solver.
    + intros lk. by rewrite Hl.
    + intros i j lk. destruct (Hc i) as (_ & _ & ->). set_solver.
    + intros i. destruct (Hc i) as (_ & _ & ->). constructor.
    + intros i lk. rewrite Hl. destruct (Hc i) as (_ & _ & ->). set_solver.
    + intros i. by destruct (Hc i) as (_ & -> & _).
    + intros i. by destruct (Hc i) as (-> & -> & ->).
    + intros i. destruct (Hc i) as (-> & _). lia.
  - destruct Hs; eauto using preserve_enter, preserve_spin, preserve_got, preserve_exit,
      preserve_leave, preserve_left, preserve_intr.
Qed.

(** ** What the locks promise *)

(** C18: in every interleaving of any number of CPUs, at most one CPU is between
    the successful test-and-set of a lock in [acquire] and the clearing of its
    [locked] word in [release]; that CPU has interrupts off; and [holding]
    answers exactly whether this CPU holds the lock. *)
Theorem spin_mutual_exclusion c :
  reachable c ->
  (forall i j lk, lk ∈ own c i -> lk ∈ own c j -> i = j) /\
  (forall i lk, lk ∈ own c i -> c_sie (cpus (mach c) i) = false) /\
  (forall i lk, pcs c i = Outside -> holding_cpu i lk (mach c) = bool_decide (lk ∈ own c i)).
Proof.
  intros Hi%reachable_inv. split_and!.
  - apply (inv_unique c Hi).
  - intros i lk Hin. apply (inv_sie c Hi). rewrite (inv_noff c Hi).
    destruct (own c i) as [|x l]; [by apply elem_of_nil in Hin|]. simpl. destruct (pcs c i); lia.
  - intros. by apply holding_own.
Qed.

(** CPU [i] of [c], outside of [acquire] and [release], against the list of held
    locks of the kernel's state. *)
Definition implements (i : nat) (c : config) (s : kstate) : Prop :=
  inv c /\ nesting_ok c /\ pcs c i = Outside /\ own c i = held s.

Lemma implements_noff i c s : implements i c s -> c_noff (cpus (mach c) i) = noff s.
Proof.
  intros (Hi & _ & Hp & Ho). rewrite (inv_noff c Hi i), Hp, Ho. unfold noff. lia.
Qed.

Lemma acquire_enter_run i lk c :
  inv c -> pcs c i = Outside -> nesting_ok c ->
  if bool_decide (lk ∈ own c i) then acquire_enter i lk (mach c) = Panic "acquire"
  else exists m, acquire_enter i lk (mach c) = Ok tt m /\ locks m = locks (mach c).
Proof.
  intros Hi Hp Hn. unfold acquire_enter. mstep (push_off_run i (mach c)).
  unfold bind. cbn [gets obind]. pose proof (holding_own c i lk Hi Hp) as Hh.
  unfold holding_cpu in *. simpl in *. rewrite Hh. clear Hh.
  destruct (bool_decide_reflect (lk ∈ own c i)); [done|]. eauto.
Qed.

Lemma acquire_cpu_run n i lk c :
  inv c -> nesting_ok c -> pcs c i = Outside -> (forall j, lk ∉ own c j) ->
  exists c', acquire_cpu (S n) i lk (mach c) = Ok tt (mach c') /\ inv c' /\ pcs c' i = Outside /\
    own c' = <[i := lk :: own c i]> (own c).
Proof.
  intros Hi Hn Hp Hfree. destruct c as [m p o]. simpl in *.
  pose proof (acquire_enter_run i lk _ Hi Hp Hn) as He. simpl in He.
  rewrite bool_decide_false in He by apply Hfree. destruct He as (m1 & He & Hm1).
  pose proof (preserve_enter m p o i Hi Hn lk m1 Hp He) as Hi1.
  assert (Hl : sp_locked (locks m1 lk) = false).
  { rewrite Hm1. destruct (sp_locked (locks m lk)) eqn:E; [|done].
    destruct (inv_owner _ Hi lk E) as [j Hj]. by apply Hfree in Hj. }
  set (m2 := set_lock lk (MkSpin true (sp_cpu (locks m1 lk))) m1).
  assert (Ht : test_and_set lk m1 = Ok false m2)
    by (unfold test_and_set, bind, gets, modify, ret; simpl; by rewrite Hl).
  pose proof (preserve_got m1 _ o i Hi1 lk m2 ltac:(rewrite fn_ins; by case_decide) Ht) as Hi2.
  set (m3 := set_lock lk (MkSpin (sp_locked (locks m2 lk)) (Some i)) m2).
  assert (Hx : acquire_exit i lk m2 = Ok tt m3) by done.
  pose proof (preserve_exit m2 _ _ i Hi2 lk m3 ltac:(rewrite fn_ins; by case_decide) Hx) as Hi3.
  eexists. split; [|split; [exact Hi3|]].
  - unfold acquire_cpu. mstep He. cbn [acquire_spin].
    rewrite (bind_assoc_ok _ _ _ _ _ _ Ht). done.
  - simpl. split; [rewrite fn_ins; by case_decide|done].
Qed.

Lemma release_cpu_run i lk c :
  inv c -> nesting_ok c -> pcs c i = Outside -> lk ∈ own c i ->
  exists c', release_cpu i lk (mach c) = Ok tt (mach c') /\ inv c' /\ pcs c' i = Outside /\
    own c' = <[i := filter (.≠ lk) (own c i)]> (own c).
Proof.
  intros Hi Hn Hp Hin. destruct c as [m p o]. simpl in *.
  set (m1 := set_lock lk (MkSpin (sp_locked (locks m lk)) None) m).
  assert (He : release_enter i lk m = Ok tt m1).
  { unfold release_enter, bind. cbn [gets obind]. pose proof (holding_own _ i lk Hi Hp) as Hh.
    simpl in Hh. rewrite Hh, bool_decide_true by done. done. }
  pose proof (preserve_leave m p o i Hi lk m1 Hp He) as Hi1.
  set (m2 := set_lock lk (MkSpin false (sp_cpu (locks m1 lk))) m1).
  destruct (pop_off_run _ i Hi1 Hn ltac:(simpl; rewrite fn_ins; by case_decide) m2 eq_refl)
    as (cp & Hpop & _).
  { simpl. intros E. rewrite E in Hin. by apply elem_of_nil in Hin. }
  pose proof (preserve_left m1 _ o i Hi1 Hn lk _ ltac:(rewrite fn_ins; by case_decide) Hpop) as Hi2.
  eexists. split; [|split; [exact Hi2|]].
  - unfold release_cpu. mstep He. exact Hpop.
  - simpl. split; [rewrite fn_ins; by case_decide|done].
Qed.

(** C35: [acquire] and [release] as the rest of the kernel is verified against,
    operations on the list of locks this CPU holds, are what [spinlock.c] does:
    on a lock no other CPU holds, the concrete code panics exactly when the
    abstract operation does, and otherwise finishes within one test-and-set in
    a machine state that again implements the abstract one; [noff] is the
    length of the list. *)
Theorem spinlock_implements i c s lk n :
  implements i c s -> Z.of_nat (length (held s)) + 1 < 2 ^ 30 ->
  (forall j, j <> i -> lk ∉ own c j) ->
  c_noff (cpus (mach c) i) = noff s /\
  match acquire lk s with
  | Ok _ s' => exists c', acquire_cpu (S n) i lk (mach c) = Ok tt (mach c') /\ implements i c' s'
  | _ => acquire_cpu (S n) i lk (mach c) = Panic "acquire"
  end /\
  match release lk s with
  | Ok _ s' => exists c', release_cpu i lk (mach c) = Ok tt (mach c') /\ implements i c' s'
  | _ => release_cpu i lk (mach c) = Panic "release"
  end.
Proof.
  intros Himp Hb Hother. split; [by eapply implements_noff|].
  destruct Himp as (Hi & Hn & Hp & Ho). unfold acquire, release, holding. rewrite <- Ho.
  destruct (bool_decide_reflect (lk ∈ own c i)) as [Hin|Hin]; split.
  - pose proof (acquire_enter_run i lk c Hi Hp Hn) as He. rewrite bool_decide_true in He by done.
    unfold acquire_cpu, bind. by rewrite He.
  - destruct (release_cpu_run i lk c Hi Hn Hp Hin) as (c' & Hr & Hi' & Hp' & Ho').
    exists c'. split; [done|]. split; [done|]. split; [|split; [done|]].
    + intros j. rewrite Ho', fn_ins. case_decide; [|apply Hn]. subst.
      pose proof (length_filter (.≠ lk) (own c i)). specialize (Hn i). lia.
    + rewrite Ho', fn_ins. by case_decide.
  - destruct (acquire_cpu_run n i lk c Hi Hn Hp) as (c' & Hr & Hi' & Hp' & Ho').
    { intros j. destruct (decide (j = i)); subst; auto. }
    exists c'. split; [done|]. split; [done|]. split; [|split; [done|]].
    + intros j. rewrite Ho', fn_ins. case_decide; [|apply Hn]. rewrite Ho. simpl. lia.
    + rewrite Ho', fn_ins. by case_decide.
  - unfold release_cpu, release_enter, bind. cbn [gets obind].
    rewrite (holding_own c i lk Hi Hp), bool_decide_false by done. done.
Qed.

(** A matched [push_off]/[pop_off] pair leaves the CPU's interrupt-enable
    bit and nesting depth as they were, whatever the depth; inside the pair
    interrupts are off. *)
Lemma push_pop_off i m :
  0 <= c_noff (cpus m i) < 2 ^ 31 - 1 ->
  (0 < c_noff (cpus m i) -> c_sie (cpus m i) = false) ->
  exists m1 m2, push_off i m = Ok tt m1 /\ c_sie (cpus m1 i) = false /\
    pop_off i m1 = Ok tt m2 /\ locks m2 = locks m /\
    c_sie (cpus m2 i) = c_sie (cpus m i) /\ c_noff (cpus m2 i) = c_noff (cpus m i).
Proof.
  intros Hr Hs. pose proof (push_off_run i m) as Hp. rewrite s32_small in Hp by lia.
  set (m1 := set_cpu _ _ (set_cpu _ _ m)) in Hp. exists m1.
  assert (E : cpus m1 i = MkCpu (c_noff (cpus m i) + 1)
    (if c_noff (cpus m i) =? 0 then c_sie (cpus m i) else c_intena (cpus m i)) false)
    by (unfold m1; simpl; by rewrite fn_ins, decide_True by done).
  assert (El : locks m1 = locks m) by done. clearbody m1.
  unfold pop_off, bind, gets, modify. simpl. rewrite E. simpl.
  destruct (Z.ltb_spec (c_noff (cpus m i) + 1) 1); [lia|].
  replace (c_noff (cpus m i) + 1 - 1) with (c_noff (cpus m i)) by lia.
  eexists. split; [done|]. split; [done|]. split; [done|].
  simpl. rewrite fn_ins, decide_True by done. split; [done|].
  destruct (Z.eqb_spec (c_noff (cpus m i)) 0) as [E0|E0]; simpl.
  - by destruct (c_sie (cpus m i)).
  - by rewrite Hs by lia.
Qed.

(** ** Witnesses *)

Definition idle_machine : machine :=
  MkMachine (fun _ => MkSpin false None) (fun _ => MkCpu 0 false true).
Definition idle : config := MkConfig idle_machine (fun _ => Outside) (fun _ => []).

Lemma idle_reachable : reachable idle.
Proof. apply reach_init. split; [done|]. intros i. done. Qed.

Lemma spin_mutual_exclusion_witness : holding_cpu 2 LkTicks (mach idle) = false.
Proof. exact (proj2 (proj2 (spin_mutual_exclusion idle idle_reachable)) 2%nat LkTicks eq_refl). Defined.

Lemma spinlock_implements_witness :
  exists c', acquire_cpu 1 0 LkTicks idle_machine = Ok tt (mach c') /\
    implements 0 c' (set_held [LkTicks] boot_state).
Proof.
  exact (proj1 (proj2 (spinlock_implements 0 idle boot_state LkTicks 0
    (conj (reachable_inv idle idle_reachable) (conj (fun _ => eq_refl) (conj eq_refl eq_refl)))
    eq_refl (fun j _ => not_elem_of_nil LkTicks)))).
Defined.

