(* ===== verification/Kalloc.v ===== *)
(** * The physical page allocator

    [kernel/kalloc.c].  The free list is threaded through the free pages
    themselves, in the byte memory; [free_list s l] says that the list in state
    [s] is [l].  [kalloc] and [kfree] are the head operations on it. *)

From stdpp Require Import gmap strings list fin_maps.
From S2P Require Import Prelude Layout State Sched Cstring.

(** A page of [memset] is never worth computing in a proof. *)
#[global] Opaque memset.

(** ** The code *)

Section Code.
Context `{Build}.

Definition kfree (pa : Z) : K unit :=
  if negb (pa mod PGSIZE =? 0) || (pa <? sym_end) || (PHYSTOP <=? pa) then panic "kfree" else
  modify (fun s => set_mem (memset (mem s) pa 1 PGSIZE) s) ;;
  acquire LkKmem ;;
  modify (fun s => set_mem (st64 (mem s) pa (freelist s)) s) ;;
  modify (set_freelist pa) ;;
  release LkKmem.

Definition kalloc : K Z :=
  acquire LkKmem ;;
  let! r := gets freelist in
  when (negb (r =? 0)) (modify (fun s => set_freelist (ld64 (mem s) r) s)) ;;
  release LkKmem ;;
  when (negb (r =? 0)) (modify (fun s => set_mem (memset (mem s) r 5 PGSIZE) s)) ;;
  ret r.

(** [for(; p + PGSIZE <= pa_end; p += PGSIZE) kfree(p);] with at most [n] turns. *)
Fixpoint freerange_loop (n : nat) (p pa_end : Z) : K unit :=
  if p + PGSIZE <=? pa_end then
    match n with
    | O => no_fuel
    | S n => kfree p ;; freerange_loop n (p + PGSIZE) pa_end
    end
  else ret tt.

(** Every turn frees a page, so [pa_end / PGSIZE] turns are enough. *)
Definition freerange (pa_start pa_end : Z) : K unit :=
  freerange_loop (Z.to_nat (pa_end / PGSIZE)) (PGROUNDUP pa_start) pa_end.

Definition kinit : K unit := freerange sym_end PHYSTOP.
End Code.

(** ** The free list *)

(** A page the allocator manages. *)
Definition page_ok `{Build} (p : Z) : Prop :=
  p mod PGSIZE = 0 /\ sym_end <= p < PHYSTOP.

(** The kernel is linked at [KERNBASE] and ends below [PHYSTOP]. *)
Definition linked `{Build} : Prop := KERNBASE <= sym_end <= PHYSTOP.

Fixpoint chain (m : gmap Z Z) (r : Z) (l : list Z) : Prop :=
  match l with
  | [] => r = 0
  | p :: l => r = p /\ chain m (ld64 m p) l
  end.

Definition free_list `{Build} (s : kstate) (l : list Z) : Prop :=
  chain (mem s) (freelist s) l /\ NoDup l /\ Forall page_ok l.

(** Address [x] lies in the page at [p]. *)
Definition in_page (p x : Z) : Prop := p <= x < p + PGSIZE.

(** The allocator, and the page tables built on it, change memory and the head
    of the free list only. *)
Definition mem_only (s s' : kstate) : Prop :=
  s' = set_freelist (freelist s') (set_mem (mem s') s).

Lemma mem_only_refl s : mem_only s s.
Proof. by destruct s. Qed.

Lemma mem_only_trans s1 s2 s3 : mem_only s1 s2 -> mem_only s2 s3 -> mem_only s1 s3.
Proof. unfold mem_only. intros -> ->. done. Qed.

Lemma mem_only_set_mem m s : mem_only s (set_mem m s).
Proof. by destruct s. Qed.

Lemma mem_only_held s s' : mem_only s s' -> held s' = held s.
Proof. by intros ->. Qed.

#[export] Hint Resolve mem_only_refl mem_only_trans mem_only_set_mem : kernel.

Lemma pages_disjoint p q x :
  p mod PGSIZE = 0 -> q mod PGSIZE = 0 -> in_page p x -> in_page q x -> p = q.
Proof. unfold in_page. intros. Z.div_mod_to_equations. lia. Qed.

Section Facts.
Context `{Build}.

Lemma chain_ext m m' r l :
  Forall (fun p => forall x, in_page p x -> ldb m' x = ldb m x) l -> chain m r l -> chain m' r l.
Proof.
  intros Hl. revert r. induction Hl as [|p l Hp _ IH]; intros r; [done|].
  intros [-> Hc]. split; [done|]. rewrite (ld64_ext m m'); [by apply IH|].
  intros x Hx. apply Hp. unfold in_page. lia.
Qed.

(** Writes to a page that is not free keep the free list. *)
Lemma free_list_frame s s' l p :
  free_list s l -> freelist s' = freelist s -> p mod PGSIZE = 0 -> p ∉ l ->
  (forall x, ~ in_page p x -> ldb (mem s') x = ldb (mem s) x) -> free_list s' l.
Proof.
  intros (Hc & Hnd & Hok) Hf Hp Hnin Hm. split; [|done]. rewrite Hf.
  eapply chain_ext; [|exact Hc]. apply Forall_forall. intros q Hq x Hx. apply Hm.
  intros Hx'. rewrite Forall_forall in Hok. destruct (Hok q Hq) as [Hqa _].
  by rewrite (pages_disjoint p q x) in Hnin.
Qed.

Lemma kalloc_none s :
  free_list s [] -> LkKmem ∉ held s -> kalloc s = Ok 0 s.
Proof.
  intros (Hc & _) Hh. simpl in Hc. unfold kalloc. mstep (acquire_ok _ _ Hh).
  unfold bind at 1. cbn [gets obind freelist set_held]. rewrite Hc. simpl.
  unfold bind at 1. cbn [ret obind]. unfold bind at 1.
  rewrite (lock_cycle LkKmem s) by done. by destruct s.
Qed.

Lemma kalloc_some s p l :
  linked -> free_list s (p :: l) -> LkKmem ∉ held s ->
  exists s', kalloc s = Ok p s' /\ mem_only s s' /\ free_list s' l /\ page_ok p /\
    (p ∉ l) /\ forall x, ldb (mem s') x = if decide (in_page p x) then 5 else ldb (mem s) x.
Proof.
  intros Hlk (Hc & Hnd & Hok) Hh. destruct Hc as [Hf Hc].
  apply NoDup_cons in Hnd as [Hnin Hnd]. apply Forall_cons in Hok as [Hp Hok].
  unfold kalloc. mstep (acquire_ok _ _ Hh).
  unfold bind at 1. cbn [gets obind freelist set_held]. rewrite Hf.
  destruct (Z.eqb_spec p 0) as [->|Hne]; [destruct Hp; unfold linked in *; lia|]. cbn [negb when].
  unfold bind at 1. cbn [modify obind]. set (s1 := set_freelist _ _).
  mstep (lock_cycle LkKmem s s1 Hh eq_refl). unfold bind. cbn [modify obind ret].
  set (s2 := set_mem _ _). exists s2. split; [done|].
  assert (Hm : forall x, ldb (mem s2) x = if decide (in_page p x) then 5 else ldb (mem s) x).
  { intros x. unfold s2, s1. cbn [mem set_mem set_held set_freelist]. rewrite ldb_memset.
    unfold in_page. by case_decide. }
  split; [unfold mem_only, s2, s1; state_eq s|]. split; [|split_and!; assumption].
  apply (free_list_frame (set_freelist (ld64 (mem s) p) s) s2 l p);
    [split_and!; assumption|reflexivity|apply Hp|assumption|].
  intros x Hx. rewrite Hm. by rewrite decide_False.
Qed.

Lemma kfree_bad pa s :
  ~ page_ok pa -> kfree pa s = Panic "kfree".
Proof.
  unfold page_ok, kfree. intros Hb.
  destruct (Z.eqb_spec (pa mod PGSIZE) 0), (Z.ltb_spec pa sym_end), (Z.leb_spec PHYSTOP pa);
    cbn [negb orb]; try done. exfalso. lia.
Qed.

Lemma kfree_ok pa s l :
  linked -> free_list s l -> page_ok pa -> pa ∉ l -> LkKmem ∉ held s ->
  exists s', kfree pa s = Ok tt s' /\ mem_only s s' /\ free_list s' (pa :: l) /\
    forall x, ~ in_page pa x -> ldb (mem s') x = ldb (mem s) x.
Proof.
  intros Hlk (Hc & Hnd & Hok) Hp Hnin Hh. pose proof Hp as [Ha Hr]. unfold kfree.
  destruct (Z.eqb_spec (pa mod PGSIZE) 0), (Z.ltb_spec pa sym_end), (Z.leb_spec PHYSTOP pa);
    cbn [negb orb]; try lia.
  unfold bind at 1. cbn [modify obind]. rewrite (bind_ok _ _ _ _ _ (acquire_ok LkKmem (set_mem (memset (mem s) pa 1 PGSIZE) s) Hh)).
  unfold bind at 1. cbn [modify obind]. unfold bind at 1. cbn [modify obind].
  set (s1 := set_freelist _ _). rewrite (lock_cycle LkKmem s s1 Hh eq_refl).
  set (s2 := set_held _ s1). exists s2. split; [reflexivity|].
  split; [unfold mem_only, s2, s1; state_eq s|].
  assert (Hm : forall x, ~ in_page pa x -> ldb (mem s2) x = ldb (mem s) x).
  { intros x Hx. unfold s2, s1. cbn [mem set_mem set_held set_freelist]. unfold in_page in Hx.
    rewrite ldb_st64_ne by lia. rewrite ldb_memset. by rewrite decide_False by lia. }
  split; [|exact Hm]. split; [|split; [by constructor|by constructor]].
  split; [reflexivity|]. unfold s2, s1. cbn [mem set_mem set_held set_freelist freelist].
  rewrite ld64_st64_eq.
  assert (Hfr : u64 (freelist s) = freelist s).
  { apply u64_small. destruct l as [|q l]; simpl in Hc; [lia|]. destruct Hc as [-> _].
    apply Forall_cons in Hok as [[_ ?] _]. unfold linked in *. lia. }
  rewrite Hfr. eapply chain_ext; [|exact Hc]. apply Forall_forall. intros q Hq x Hx.
  apply Hm. intros Hx'. rewrite Forall_forall in Hok. destruct (Hok q Hq) as [Hqa _].
  by rewrite (pages_disjoint pa q x) in Hnin.
Qed.

(** *** Building the list *)

(** The pages of [a .. b), last first. *)
Lemma freerange_loop_ok n p s l :
  linked -> free_list s l -> LkKmem ∉ held s ->
  p mod PGSIZE = 0 -> sym_end <= p -> PHYSTOP - p <= Z.of_nat n * PGSIZE ->
  (forall q, q ∈ l <-> page_ok q /\ q < p) ->
  exists s' l', freerange_loop n p PHYSTOP s = Ok tt s' /\ mem_only s s' /\ free_list s' l' /\
    forall q, q ∈ l' <-> page_ok q.
Proof.
  intros Hlk. revert p s l. induction n as [|n IH]; intros p s l Hl Hh Ha Hp Hn Hmem;
    cbn [freerange_loop]; destruct (Z.leb_spec (p + PGSIZE) PHYSTOP) as [Hle|Hle]; try lia.
  - exists s, l. split_and!; [reflexivity|apply mem_only_refl|done|]. intros q. rewrite Hmem.
    unfold page_ok. lia.
  - assert (Hok : page_ok p) by (split; [done|lia]).
    assert (Hnin : p ∉ l) by (rewrite Hmem; lia).
    destruct (kfree_ok p s l Hlk Hl Hok Hnin Hh) as (s1 & Hk & Hm & Hl1 & _).
    mstep Hk. destruct (IH (p + PGSIZE) s1 (p :: l)) as (s' & l' & Hr & Hm' & Hl' & Hall); try done.
    + by rewrite (mem_only_held _ _ Hm).
    + by rewrite <- Z.add_mod_idemp_l, Ha by lia.
    + lia.
    + lia.
    + intros q. rewrite elem_of_cons, Hmem. unfold page_ok. Z.div_mod_to_equations. lia.
    + exists s', l'. split_and!; eauto with kernel.
  - exists s, l. split_and!; [reflexivity|apply mem_only_refl|done|]. intros q. rewrite Hmem.
    unfold page_ok. Z.div_mod_to_equations. lia.
Qed.

Lemma kinit_ok s :
  linked -> freelist s = 0 -> LkKmem ∉ held s ->
  exists s' l, kinit s = Ok tt s' /\ mem_only s s' /\ free_list s' l /\
    forall q, q ∈ l <-> page_ok q.
Proof.
  intros Hlk Hf Hh. unfold kinit, freerange. pose proof Hlk as Hrange. unfold linked in Hrange.
  assert (Hup : PGROUNDUP sym_end = PGSIZE * ((sym_end + PGSIZE - 1) / PGSIZE))
    by (apply PGROUNDUP_spec; lia).
  apply freerange_loop_ok with (l := []); try done.
  - split; [done|]. split; [constructor|constructor].
  - rewrite Hup, Z.mul_comm. apply Z.mod_mul. lia.
  - rewrite Hup. Z.div_mod_to_equations. lia.
  - rewrite Hup. change (PHYSTOP / PGSIZE) with 557056. Z.div_mod_to_equations. lia.
  - intros q. split; [by intros ?%elem_of_nil|]. intros [[Ha [Hq _]] Hlt]. exfalso.
    rewrite Hup in Hlt. Z.div_mod_to_equations. lia.
Qed.
End Facts.

(** ** Clients of the allocator

    [uses s o]: a state reached from boot by the allocator and its clients, in
    which the clients hold the pages [o]; they free only pages they hold and
    write only to pages they hold. *)

Section Clients.
Context `{Build}.

Inductive uses : kstate -> list Z -> Prop :=
| uses_init s s' :
    freelist s = 0 -> held s = [] -> kinit s = Ok tt s' -> uses s' []
| uses_alloc s s' o p :
    uses s o -> kalloc s = Ok p s' -> uses s' (if p =? 0 then o else p :: o)
| uses_free s s' o1 p o2 :
    uses s (o1 ++ p :: o2) -> kfree p s = Ok tt s' -> uses s' (o1 ++ o2)
| uses_write s o m :
    uses s o ->
    (forall x, (forall p, p ∈ o -> ~ in_page p x) -> ldb m x = ldb (mem s) x) ->
    uses (set_mem m s) o.

(** Every page is either free or held by one client. *)
Definition partitioned (s : kstate) (o : list Z) : Prop :=
  held s = [] /\ exists l, free_list s l /\ NoDup (o ++ l) /\ forall p, p ∈ o ++ l <-> page_ok p.

Lemma uses_partitioned s o : linked -> uses s o -> partitioned s o.
Proof.
  intros Hlk. induction 1 as [s s' Hf Hh Hr|s s' o p _ (Hh & l & Hl & Hnd & Hall) Hr
    |s s' o1 p o2 _ (Hh & l & Hl & Hnd & Hall) Hr|s o m _ (Hh & l & Hl & Hnd & Hall) Hm].
  - destruct (kinit_ok s Hlk Hf) as (s2 & l & Hk & Hmo & Hl & Hall); [rewrite Hh; set_solver|].
    rewrite Hr in Hk. injection Hk as <-. split; [by rewrite (mem_only_held _ _ Hmo)|].
    exists l. split_and!; [done|apply Hl|done].
  - assert (Hn : LkKmem ∉ held s) by (rewrite Hh; set_solver). destruct l as [|q l].
    + rewrite (kalloc_none s Hl Hn) in Hr. injection Hr as <- <-. split; [done|]. by exists [].
    + destruct (kalloc_some s q l Hlk Hl Hn) as (s2 & Hk & Hmo & Hl2 & Hq & Hnin & _).
      rewrite Hr in Hk. injection Hk as -> ->. split; [by rewrite (mem_only_held _ _ Hmo)|].
      destruct (Z.eqb_spec q 0) as [->|_]; [unfold page_ok, linked in *; lia|].
      exists l. split; [done|]. rewrite <- (Permutation_middle o l q) in Hnd.
      split; [done|]. intros p. rewrite <- Hall. set_solver.
  - assert (Hn : LkKmem ∉ held s) by (rewrite Hh; set_solver).
    rewrite <- app_assoc in Hnd, Hall. simpl in Hnd, Hall.
    rewrite <- Permutation_middle in Hnd. apply NoDup_cons in Hnd as [Hnin Hnd].
    destruct (kfree_ok p s l Hlk Hl) as (s2 & Hk & Hmo & Hl2 & _); [apply Hall; set_solver|set_solver|done|].
    rewrite Hr in Hk. injection Hk as <-. split; [by rewrite (mem_only_held _ _ Hmo)|].
    exists (p :: l). split; [done|]. split.
    + rewrite <- Permutation_middle, <- app_assoc. by apply NoDup_cons.
    + intros q. rewrite <- Hall. set_solver.
  - split; [done|]. exists l. split; [|done]. destruct Hl as (Hc & Hndl & Hok). split; [|done].
    eapply chain_ext; [|exact Hc]. apply Forall_forall. intros q Hq x Hx. apply Hm.
    intros p Hp Hx'. assert (p = q) as ->.
    { apply (pages_disjoint p q x); [apply Hall; set_solver|apply Hall; set_solver|done|done]. }
    apply NoDup_app in Hnd as (_ & Hd & _). by apply (Hd q).
Qed.

(** C25: however its clients allocate, free and write to the pages they hold, the
    allocator never hands out a page that is still in use: pages in use are
    distinct pages between the end of the kernel and [PHYSTOP]; [kalloc] either
    returns a further such page filled with 5s without touching any other byte,
    or, only when every page is in use, 0; and freeing a page in use never
    panics. *)
Theorem kalloc_never_aliases s o :
  linked -> uses s o ->
  NoDup o /\ Forall page_ok o /\
  (exists p s', kalloc s = Ok p s' /\
     if p =? 0 then s' = s /\ (forall q, page_ok q -> q ∈ o)
     else page_ok p /\ (p ∉ o) /\
          forall x, ldb (mem s') x = if decide (in_page p x) then 5 else ldb (mem s) x) /\
  (forall p, p ∈ o -> exists s', kfree p s = Ok tt s').
Proof.
  intros Hlk Hu. destruct (uses_partitioned s o Hlk Hu) as (Hh & l & Hl & Hnd & Hall).
  assert (Hn : LkKmem ∉ held s) by (rewrite Hh; set_solver).
  apply NoDup_app in Hnd as (Hno & Hd & _). split_and!; [done| | |].
  - apply Forall_forall. intros p Hp. apply Hall. set_solver.
  - destruct l as [|p l].
    + exists 0, s. split; [by apply kalloc_none|]. simpl. split; [done|].
      intros q Hq. apply Hall in Hq. by rewrite app_nil_r in Hq.
    + destruct (kalloc_some s p l Hlk Hl Hn) as (s' & Hk & _ & _ & Hq & _ & Hm).
      exists p, s'. split; [done|]. destruct (Z.eqb_spec p 0) as [->|_].
      * unfold page_ok, linked in *. lia.
      * split_and!; [done|set_solver|done].
  - intros p Hp. destruct (kfree_ok p s l Hlk Hl) as (s' & Hk & _); eauto.
    apply Hall. set_solver.
Qed.

(** [kinit] puts every whole page between the end of the kernel and
    [PHYSTOP] on the free list, once, and changes nothing but memory and the
    head of the list; a later [kfree] of anything else panics. *)
Lemma kinit_frees_all s :
  linked -> freelist s = 0 -> LkKmem ∉ held s ->
  exists s' l, kinit s = Ok tt s' /\ mem_only s s' /\ free_list s' l /\ NoDup l /\
    (forall q, q ∈ l <-> page_ok q) /\
    (forall q, ~ page_ok q -> kfree q s' = Panic "kfree").
Proof.
  intros Hlk Hf Hh. destruct (kinit_ok s Hlk Hf Hh) as (s' & l & Hk & Hmo & Hl & Hall).
  exists s', l. split_and!; [done|done|done|apply Hl|done|]. intros. by apply kfree_bad.
Qed.
End Clients.

(** ** Witnesses: a kernel that ends four pages below [PHYSTOP] *)

Definition tiny_build : Build :=
  {| SCHEDULER := DEFAULT; sym_end := 0x87ffc000; sym_etext := 0x80008000;
     sym_trampoline := 0x80007000; sym_forkret := 0x80001a00; fuel := 10 |}.

Lemma tiny_linked : linked (H := tiny_build).
Proof. unfold linked. simpl. lia. Qed.

Lemma kalloc_never_aliases_witness :
  exists s p s', uses (H := tiny_build) s [] /\ kalloc s = Ok p s'.
Proof.
  destruct (kinit_ok (H := tiny_build) boot_state tiny_linked eq_refl
              ltac:(apply not_elem_of_nil)) as (s & l & H1 & _).
  pose proof (uses_init (H := tiny_build) boot_state s eq_refl eq_refl H1) as Hu.
  destruct (kalloc_never_aliases (H := tiny_build) s [] tiny_linked Hu)
    as (_ & _ & (p & s' & Hk & _) & _).
  exists s, p, s'. exact (conj Hu Hk).
Defined.
