(* ===== verification/Vm.v ===== *)
(** * Virtual memory: the code

    [kernel/vm.c] and [proc_mapstacks] of [kernel/proc.c].  Page tables live in
    the byte memory: [pagetable] is the physical address of a 4096-byte page of
    512 entries.  A pointer to an entry is its address, and the null pointer
    [walk] can return is [None].

    Buffers that [copyout], [copyin] and [copyinstr] exchange with user memory
    are fields and local arrays of the kernel, so they are lists of bytes: the
    source of [copyout] is an argument, and what [copyin] and [copyinstr] have
    stored in the destination is part of the result.

    Loops over pages take the number of pages in their range as their bound. *)

From stdpp Require Import gmap strings list fin_maps.
From S2P Require Import Prelude Layout State Sched Cstring Kalloc.

(** A test [pte & f]. *)
Definition flag (pte f : Z) : bool := negb (Z.land pte f =? 0).

(** [&pagetable[i]]. *)
Definition pte_addr (pagetable i : Z) : Z := pagetable + 8 * i.

Definition ld (a : Z) : K Z := gets (fun s => ld64 (mem s) a).
Definition st (a v : Z) : K unit := modify (fun s => set_mem (st64 (mem s) a v) s).
Definition zero_page (pa : Z) : K unit := modify (fun s => set_mem (memset (mem s) pa 0 PGSIZE) s).

Section Vm.
Context `{Build}.

(** One turn of [walk]'s loop: the next page table, or [None]. *)
Definition walk_level (level pagetable va : Z) (alloc : bool) : K (option Z) :=
  let pte := pte_addr pagetable (PX level va) in
  let! v := ld pte in
  if flag v PTE_V then ret (Some (PTE2PA v))
  else if negb alloc then ret None
  else
    let! pa := kalloc in
    if pa =? 0 then ret None
    else
      zero_page pa ;;
      st pte (Z.lor (PA2PTE pa) PTE_V) ;;
      ret (Some pa).

Definition walk (pagetable va : Z) (alloc : bool) : K (option Z) :=
  if MAXVA <=? va then panic "walk" else
  let! p1 := walk_level 2 pagetable va alloc in
  match p1 with
  | None => ret None
  | Some p1 =>
      let! p0 := walk_level 1 p1 va alloc in
      match p0 with
      | None => ret None
      | Some p0 => ret (Some (pte_addr p0 (PX 0 va)))
      end
  end.

Definition walkaddr (pagetable va : Z) : K Z :=
  if MAXVA <=? va then ret 0 else
  let! pte := walk pagetable va false in
  match pte with
  | None => ret 0
  | Some pte =>
      let! v := ld pte in
      if negb (flag v PTE_V) then ret 0
      else if negb (flag v PTE_U) then ret 0
      else ret (PTE2PA v)
  end.

(** The loop of [mappages] from page [a] to page [last]. *)
Fixpoint mappages_loop (n : nat) (pagetable a last pa perm : Z) : K Z :=
  match n with
  | O => no_fuel
  | S n =>
      let! pte := walk pagetable a true in
      match pte with
      | None => ret (-1)
      | Some pte =>
          let! v := ld pte in
          if flag v PTE_V then panic "mappages: remap" else
          st pte (Z.lor (Z.lor (PA2PTE pa) perm) PTE_V) ;;
          if a =? last then ret 0
          else mappages_loop n pagetable (a + PGSIZE) last (u64 (pa + PGSIZE)) perm
      end
  end.

(** The loop ends at [last], or, when [va + size] wraps around, at [MAXVA],
    where [walk] panics. *)
Definition mappages_pages (a last : Z) : nat :=
  S (Z.to_nat ((if a <=? last then last - a else MAXVA) / PGSIZE)).

Definition mappages (pagetable va size pa perm : Z) : K Z :=
  if size =? 0 then panic "mappages: size" else
  let a := PGROUNDDOWN va in
  let last := PGROUNDDOWN (u64 (va + size - 1)) in
  mappages_loop (mappages_pages a last) pagetable a last pa perm.

Definition kvmmap (kpgtbl va pa sz perm : Z) : K unit :=
  let! r := mappages kpgtbl va sz pa perm in
  if negb (r =? 0) then panic "kvmmap" else ret tt.

Definition proc_mapstacks (kpgtbl : Z) : K unit :=
  for_each all_procs (fun i =>
    let! pa := kalloc in
    if pa =? 0 then panic "kalloc" else
    kvmmap kpgtbl (KSTACK (Z.of_nat i)) pa PGSIZE (Z.lor PTE_R PTE_W)).

Definition kvmmake : K Z :=
  let! kpgtbl := kalloc in
  zero_page kpgtbl ;;
  kvmmap kpgtbl UART0 UART0 PGSIZE (Z.lor PTE_R PTE_W) ;;
  kvmmap kpgtbl VIRTIO0 VIRTIO0 PGSIZE (Z.lor PTE_R PTE_W) ;;
  kvmmap kpgtbl PLIC PLIC 0x400000 (Z.lor PTE_R PTE_W) ;;
  kvmmap kpgtbl KERNBASE KERNBASE (u64 (sym_etext - KERNBASE)) (Z.lor PTE_R PTE_X) ;;
  kvmmap kpgtbl sym_etext sym_etext (u64 (PHYSTOP - sym_etext)) (Z.lor PTE_R PTE_W) ;;
  kvmmap kpgtbl TRAMPOLINE sym_trampoline PGSIZE (Z.lor PTE_R PTE_X) ;;
  proc_mapstacks kpgtbl ;;
  ret kpgtbl.

Definition kvminit : K unit :=
  let! kpgtbl := kvmmake in
  modify (set_kernel_pagetable kpgtbl).

Fixpoint uvmunmap_loop (n : nat) (pagetable a bound : Z) (do_free : bool) : K unit :=
  if a <? bound then
    match n with
    | O => no_fuel
    | S n =>
        let! pte := walk pagetable a false in
        match pte with
        | None => panic "uvmunmap: walk"
        | Some pte =>
            let! v := ld pte in
            if negb (flag v PTE_V) then panic "uvmunmap: not mapped" else
            if PTE_FLAGS v =? PTE_V then panic "uvmunmap: not a leaf" else
            when do_free (kfree (PTE2PA v)) ;;
            st pte 0 ;;
            uvmunmap_loop n pagetable (a + PGSIZE) bound do_free
        end
    end
  else ret tt.

Definition uvmunmap (pagetable va npages : Z) (do_free : bool) : K unit :=
  if negb (va mod PGSIZE =? 0) then panic "uvmunmap: not aligned" else
  uvmunmap_loop (Z.to_nat npages) pagetable va (u64 (va + npages * PGSIZE)) do_free.

Definition uvmcreate : K Z :=
  let! pagetable := kalloc in
  if pagetable =? 0 then ret 0 else
  zero_page pagetable ;;
  ret pagetable.

(** [src] is the [initcode] array. *)
Definition uvminit (pagetable : Z) (src : list Z) : K unit :=
  if PGSIZE <=? Z.of_nat (length src) then panic "inituvm: more than a page" else
  let! pa := kalloc in
  zero_page pa ;;
  let! _ := mappages pagetable 0 PGSIZE pa (Z.lor (Z.lor (Z.lor PTE_W PTE_R) PTE_X) PTE_U) in
  modify (fun s => set_mem (stl (mem s) pa src) s).

Definition uvmdealloc (pagetable oldsz newsz : Z) : K Z :=
  if oldsz <=? newsz then ret oldsz else
  when (PGROUNDUP newsz <? PGROUNDUP oldsz)
    (let npages := s32 ((PGROUNDUP oldsz - PGROUNDUP newsz) / PGSIZE) in
     uvmunmap pagetable (PGROUNDUP newsz) (u64 npages) true) ;;
  ret newsz.

(** The loop of [uvmalloc]; [base] is the rounded old size. *)
Fixpoint uvmalloc_loop (n : nat) (pagetable a base newsz : Z) : K Z :=
  if a <? newsz then
    match n with
    | O => no_fuel
    | S n =>
        let! pa := kalloc in
        if pa =? 0 then
          let! _ := uvmdealloc pagetable a base in ret 0
        else
          zero_page pa ;;
          let! r := mappages pagetable a PGSIZE pa (Z.lor (Z.lor (Z.lor PTE_W PTE_X) PTE_R) PTE_U) in
          if negb (r =? 0) then
            kfree pa ;;
            let! _ := uvmdealloc pagetable a base in ret 0
          else uvmalloc_loop n pagetable (a + PGSIZE) base newsz
    end
  else ret newsz.

Definition uvmalloc (pagetable oldsz newsz : Z) : K Z :=
  if newsz <? oldsz then ret oldsz else
  let base := PGROUNDUP oldsz in
  uvmalloc_loop (S (Z.to_nat ((newsz - base) / PGSIZE))) pagetable base base newsz.

(** The loop body of [freewalk], where [rec] is the recursive call. *)
Definition freewalk_entry (rec : Z -> K unit) (pagetable : Z) (i : nat) : K unit :=
  let a := pte_addr pagetable (Z.of_nat i) in
  let! pte := ld a in
  if flag pte PTE_V && (Z.land pte (Z.lor (Z.lor PTE_R PTE_W) PTE_X) =? 0) then
    rec (PTE2PA pte) ;;
    st a 0
  else if flag pte PTE_V then panic "freewalk: leaf"
  else ret tt.

(** [freewalk] calls itself on the next level; [n] levels are left, three for a
    whole page table.  A fourth level would take a page of data for a table; what
    the code does then is not modelled. *)
Fixpoint freewalk_levels (n : nat) (pagetable : Z) : K unit :=
  match n with
  | O => ub "freewalk"
  | S n => for_each (seq 0 512) (freewalk_entry (freewalk_levels n) pagetable) ;; kfree pagetable
  end.

Definition freewalk (pagetable : Z) : K unit := freewalk_levels 3 pagetable.

Definition uvmfree (pagetable sz : Z) : K unit :=
  when (0 <? sz) (uvmunmap pagetable 0 (PGROUNDUP sz / PGSIZE) true) ;;
  freewalk pagetable.

Fixpoint uvmcopy_loop (n : nat) (old new i sz : Z) : K Z :=
  if i <? sz then
    match n with
    | O => no_fuel
    | S n =>
        let! pte := walk old i false in
        match pte with
        | None => panic "uvmcopy: pte should exist"
        | Some pte =>
            let! v := ld pte in
            if negb (flag v PTE_V) then panic "uvmcopy: page not present" else
            let pa := PTE2PA v in
            let flags := PTE_FLAGS v in
            let! pg := kalloc in
            if pg =? 0 then
              uvmunmap new 0 (i / PGSIZE) true ;; ret (-1)
            else
              modify (fun s => set_mem (memmove (mem s) pg pa PGSIZE) s) ;;
              let! r := mappages new i PGSIZE pg flags in
              if negb (r =? 0) then
                kfree pg ;; uvmunmap new 0 (i / PGSIZE) true ;; ret (-1)
              else uvmcopy_loop n old new (i + PGSIZE) sz
        end
    end
  else ret 0.

Definition uvmcopy (old new sz : Z) : K Z :=
  uvmcopy_loop (S (Z.to_nat (sz / PGSIZE))) old new 0 sz.

Definition uvmclear (pagetable va : Z) : K unit :=
  let! pte := walk pagetable va false in
  match pte with
  | None => panic "uvmclear"
  | Some pte =>
      let! v := ld pte in
      st pte (Z.land v (u64 (Z.lnot PTE_U)))
  end.

(** Copy the bytes [src] to user address [dstva]; every turn copies at least one. *)
Fixpoint copyout_loop (n : nat) (pagetable dstva : Z) (src : list Z) : K Z :=
  match src with
  | [] => ret 0
  | _ =>
      match n with
      | O => no_fuel
      | S n =>
          let va0 := PGROUNDDOWN dstva in
          let! pa0 := walkaddr pagetable va0 in
          if pa0 =? 0 then ret (-1) else
          let k := Z.min (PGSIZE - (dstva - va0)) (Z.of_nat (length src)) in
          modify (fun s => set_mem (stl (mem s) (pa0 + (dstva - va0)) (take (Z.to_nat k) src)) s) ;;
          copyout_loop n pagetable (u64 (va0 + PGSIZE)) (drop (Z.to_nat k) src)
      end
  end.

Definition copyout (pagetable dstva : Z) (src : list Z) : K Z :=
  copyout_loop (length src) pagetable dstva src.

(** Returns the code and the bytes stored in the destination. *)
Fixpoint copyin_loop (n : nat) (pagetable srcva len : Z) : K (Z * list Z) :=
  if 0 <? len then
    match n with
    | O => no_fuel
    | S n =>
        let va0 := PGROUNDDOWN srcva in
        let! pa0 := walkaddr pagetable va0 in
        if pa0 =? 0 then ret (-1, []) else
        let k := Z.min (PGSIZE - (srcva - va0)) len in
        let! bytes := gets (fun s => ldl (mem s) (pa0 + (srcva - va0)) (Z.to_nat k)) in
        let! (r, rest) := copyin_loop n pagetable (u64 (va0 + PGSIZE)) (len - k) in
        ret (r, bytes ++ rest)
    end
  else ret (0, []).

Definition copyin (pagetable srcva len : Z) : K (Z * list Z) :=
  copyin_loop (Z.to_nat len) pagetable srcva len.

(** The inner loop of [copyinstr] over at most [n] bytes at [p]: the bytes stored,
    with the terminator if it was found, and whether it was. *)
Fixpoint copyinstr_bytes (m : gmap Z Z) (n : nat) (p : Z) : list Z * bool :=
  match n with
  | O => ([], false)
  | S n =>
      if ldb m p =? 0 then ([0], true)
      else let (l, b) := copyinstr_bytes m n (p + 1) in (ldb m p :: l, b)
  end.

Fixpoint copyinstr_loop (n : nat) (pagetable srcva max : Z) : K (Z * list Z) :=
  if 0 <? max then
    match n with
    | O => no_fuel
    | S n =>
        let va0 := PGROUNDDOWN srcva in
        let! pa0 := walkaddr pagetable va0 in
        if pa0 =? 0 then ret (-1, []) else
        let k := Z.min (PGSIZE - (srcva - va0)) max in
        let! (l, got_null) :=
          gets (fun s => copyinstr_bytes (mem s) (Z.to_nat k) (pa0 + (srcva - va0))) in
        if got_null then ret (0, l)
        else
          let! (r, rest) := copyinstr_loop n pagetable (u64 (va0 + PGSIZE)) (max - k) in
          ret (r, l ++ rest)
    end
  else ret (-1, []).

Definition copyinstr (pagetable srcva max : Z) : K (Z * list Z) :=
  copyinstr_loop (Z.to_nat max) pagetable srcva max.
End Vm.
