(* ===== verification/VmFacts.v ===== *)
(** * Virtual memory: page tables as maps

    Facts about the code of [Vm.v].  [pt m root pg] says that the pages [pg]
    form the page table rooted at [root] in memory [m]; [leaf m pg va] is the
    level-0 entry for [va].  [walk], [mappages] and [uvmunmap] read and update
    that function and leave everything else alone; the user address space built
    on it is in [Uvm.v]. *)

From stdpp Require Import gmap strings list fin_maps.
From S2P Require Import Prelude Layout State Sched Cstring Kalloc Vm.

(** The entry that maps physical page [pa] with [flags]. *)
Definition pte_of (pa flags : Z) : Z := Z.lor (PA2PTE pa) flags.

(** The page-table pages, named by the indices that lead to them: [[]] is the
    root, [[i2]] a level-1 table, [[i2; i1]] a level-0 table. *)
Section Tables.
Context `{Build}.

Record pt (m : gmap Z Z) (root : Z) (pg : gmap (list Z) Z) : Prop := MkPt {
  pt_root : pg !! [] = Some root;
  pt_page : forall p a, pg !! p = Some a -> page_ok a;
  pt_inj : forall p q a, pg !! p = Some a -> pg !! q = Some a -> p = q;
  pt_depth : forall p a, pg !! p = Some a -> (length p <= 2)%nat;
  pt_index : forall p a, pg !! p = Some a -> Forall (fun i => 0 <= i < 512) p;
  pt_top : forall i p a, pg !! (i :: p) = Some a -> i < 256;
  pt_parent : forall p i c, pg !! (p ++ [i]) = Some c -> is_Some (pg !! p);
  pt_entry : forall p a i, pg !! p = Some a -> (length p < 2)%nat -> 0 <= i < 512 ->
    match pg !! (p ++ [i]) with
    | Some c => ld64 m (pte_addr a i) = pte_of c PTE_V
    | None => flag (ld64 m (pte_addr a i)) PTE_V = false
    end
}.

(** The level-0 entry for [va]; 0, an invalid entry, where there is no table. *)
Definition leaf (m : gmap Z Z) (pg : gmap (list Z) Z) (va : Z) : Z :=
  match pg !! [PX 2 va; PX 1 va] with
  | Some t => ld64 m (pte_addr t (PX 0 va))
  | None => 0
  end.

(** A page table next to the free list. *)
Record tables (s : kstate) (root : Z) (pg : gmap (list Z) Z) (l : list Z) : Prop := MkTables {
  tables_pt : pt (mem s) root pg;
  tables_free : free_list s l;
  tables_disj : forall p a, pg !! p = Some a -> a ∉ l
}.

(** ** Entries *)

Lemma flag_pte_of pa flags f :
  0 <= pa < 2 ^ 56 -> 0 <= flags < 1024 -> 0 <= f < 1024 ->
  flag (pte_of pa flags) f = negb (Z.land flags f =? 0).
Proof. intros. unfold flag, pte_of. by rewrite pte_flag_test by lia. Qed.

Lemma PTE2PA_pte_of pa flags :
  page_ok pa -> linked -> 0 <= flags < 1024 -> PTE2PA (pte_of pa flags) = pa.
Proof.
  unfold page_ok, linked. intros [? ?] ? ?. apply PTE2PA_PA2PTE; [|done|done]. lia.
Qed.

Lemma pte_addr_page a i x :
  0 <= i < 512 -> pte_addr a i <= x < pte_addr a i + 8 -> in_page a x.
Proof. unfold pte_addr, in_page. lia. Qed.

Lemma pte_addr_disj a i j :
  i <> j -> pte_addr a i + 8 <= pte_addr a j \/ pte_addr a j + 8 <= pte_addr a i.
Proof. unfold pte_addr. lia. Qed.

(** Entries are unchanged where their page is. *)
Lemma entry_ext m m' a i :
  0 <= i < 512 -> (forall x, in_page a x -> ldb m' x = ldb m x) ->
  ld64 m' (pte_addr a i) = ld64 m (pte_addr a i).
Proof. intros Hi Hm. apply ld64_ext. intros x Hx. apply Hm. by eapply pte_addr_page. Qed.

Lemma st64_page m a i v x :
  0 <= i < 512 -> ~ in_page a x -> ldb (st64 m (pte_addr a i) v) x = ldb m x.
Proof. intros Hi Hx. apply ldb_st64_ne. unfold pte_addr, in_page in *. lia. Qed.

Lemma page_apart a b x : page_ok a -> page_ok b -> a <> b -> in_page a x -> ~ in_page b x.
Proof. intros [Ha _] [Hb _] Hne Hx Hx'. apply Hne. by apply (pages_disjoint a b x). Qed.

(** ** Changes of memory that leave a page table alone *)

Lemma pt_ext m m' root pg :
  pt m root pg ->
  (forall p a x, pg !! p = Some a -> (length p < 2)%nat -> in_page a x -> ldb m' x = ldb m x) ->
  pt m' root pg.
Proof.
  intros [P1 P2 P3 P4 P4' P4'' P5 P6] Hm. constructor; auto. intros p a i Hp Hl Hi.
  specialize (P6 p a i Hp Hl Hi). rewrite (entry_ext m m') by eauto. done.
Qed.

Lemma leaf_ext m m' pg va :
  (forall p a x, pg !! p = Some a -> length p = 2%nat -> in_page a x -> ldb m' x = ldb m x) ->
  leaf m' pg va = leaf m pg va.
Proof.
  intros Hm. unfold leaf. destruct (pg !! _) as [t|] eqn:E; [|done].
  apply entry_ext; [apply PX_range|]. intros x Hx. by eapply Hm.
Qed.

(** ** A new table *)

Section NewTable.
Context (m : gmap Z Z) (root : Z) (pg : gmap (list Z) Z) (p : list Z) (a i q : Z).
Context (Hlink : linked) (Hpt : pt m root pg) (Hp : pg !! p = Some a) (Hl : (length p < 2)%nat)
  (Hi : 0 <= i < 512) (Htop : p = [] -> i < 256) (Hnone : pg !! (p ++ [i]) = None)
  (Hq : page_ok q) (Hfresh : forall p' a', pg !! p' = Some a' -> a' <> q).

(** Memory after [memset(q, 0, PGSIZE); *pte = PA2PTE(q) | PTE_V]. *)
Let m' : gmap Z Z := st64 (memset m q 0 PGSIZE) (pte_addr a i) (pte_of q PTE_V).

Lemma new_table_frame x : ~ in_page q x -> ~ in_page a x -> ldb m' x = ldb m x.
Proof using All.
  intros H1 H2. unfold m'. rewrite st64_page by done. rewrite ldb_memset.
  unfold in_page in H1. by rewrite decide_False by done.
Qed.

Lemma new_table_other b j :
  page_ok b -> b <> q -> 0 <= j < 512 -> (b <> a \/ j <> i) ->
  ld64 m' (pte_addr b j) = ld64 m (pte_addr b j).
Proof using All.
  intros Hb Hne Hj Hor. assert (Ha : page_ok a) by (by eapply pt_page).
  unfold m'. transitivity (ld64 (memset m q 0 PGSIZE) (pte_addr b j)).
  - destruct (decide (b = a)) as [->|Hba].
    + apply ld64_st64_ne. destruct Hor; [done|]. by apply pte_addr_disj.
    + apply entry_ext; [done|]. intros x Hx. apply st64_page; [done|].
      intros Hx'. by apply (page_apart b a x).
  - apply entry_ext; [done|]. intros x Hx. rewrite ldb_memset.
    rewrite decide_False; [done|]. intros Hx'. by apply (page_apart b q x).
Qed.

Lemma new_table_zero j : 0 <= j < 512 -> ld64 m' (pte_addr q j) = 0.
Proof using All.
  intros Hj. assert (Ha : page_ok a) by (by eapply pt_page).
  assert (Hqa : q <> a) by (intros ->; by apply (Hfresh p a Hp)).
  unfold m'. transitivity (ld64 (memset m q 0 PGSIZE) (pte_addr q j)).
  - apply entry_ext; [done|]. intros x Hx. apply st64_page; [done|].
    intros Hx'. by apply (page_apart q a x).
  - transitivity (ld64 (∅ : gmap Z Z) (pte_addr q j)); [|done].
    apply ld64_ext. intros x Hx%pte_addr_page; [|done]. rewrite ldb_memset.
    unfold in_page in Hx. by rewrite decide_True by lia.
Qed.

Lemma new_table_pt : pt m' root (<[p ++ [i] := q]> pg).
Proof using All.
  pose proof Hpt as [P1 P2 P3 P4 P4' P4'' P5 P6]. constructor.
  - rewrite lookup_insert_ne; [done|]. by destruct p.
  - intros p' a'. rewrite lookup_insert. case_decide; [|apply P2]. by intros [= <-].
  - intros p1 p2 b. rewrite !lookup_insert. repeat case_decide; subst; try done.
    + intros [= <-] H2. by apply Hfresh in H2.
    + intros H1 [= <-]. by apply Hfresh in H1.
    + apply P3.
  - intros p' a'. rewrite lookup_insert. case_decide; [|apply P4].
    intros _. subst. rewrite length_app. simpl. lia.
  - intros p' a'. rewrite lookup_insert. case_decide; [|apply P4'].
    intros _. subst. apply Forall_app. split; [by eapply P4'|by apply Forall_singleton].
  - intros j p' a'. rewrite lookup_insert. case_decide as E; [|apply P4'']. intros _.
    destruct p as [|k p0]; simpl in E; injection E as -> E; [by apply Htop|by eapply P4''].
  - intros p' j c. rewrite !lookup_insert. case_decide as E1; case_decide as E2; eauto.
    apply app_inj_2 in E1 as [-> _]; [|done]. eauto.
  - intros p' a' j. rewrite !lookup_insert. case_decide as E1.
    + intros [= <-] Hl' Hj. rewrite decide_False.
      2: { intros E. apply (f_equal length) in E. rewrite !length_app in E. subst p'.
           rewrite length_app in E. simpl in E. lia. }
      destruct (pg !! (p' ++ [j])) eqn:E.
      { apply P5 in E as [? E]. subst. congruence. }
      rewrite new_table_zero by done. done.
    + intros Hp' Hl' Hj. case_decide as E2.
      * apply app_inj_2 in E2 as [-> E2]; [|done]. injection E2 as ->.
        rewrite Hp in Hp'. injection Hp' as <-. unfold m'. rewrite ld64_st64_eq. apply u64_small.
        apply pte_range; [|lia]. destruct Hq as [_ ?]. unfold linked in *. lia.
      * rewrite new_table_other; [by apply P6|by eapply P2|by eapply Hfresh|done|].
        destruct (decide (a' = a)) as [->|]; [right|by left].
        intros ->. by rewrite (P3 p' p a Hp' Hp) in E2.
Qed.

Lemma new_table_leaf va : leaf m' (<[p ++ [i] := q]> pg) va = leaf m pg va.
Proof using All.
  unfold leaf. rewrite lookup_insert. case_decide as E.
  - rewrite new_table_zero by apply PX_range. rewrite <- E, Hnone. done.
  - destruct (pg !! [PX 2 va; PX 1 va]) as [t|] eqn:Et; [|done].
    apply new_table_other; [by eapply pt_page|by eapply Hfresh|apply PX_range|]. left.
    intros ->. pose proof (pt_inj _ _ _ Hpt _ _ _ Hp Et) as ->. simpl in Hl. lia.
Qed.
End NewTable.

(** ** Growing a page table

    From [(s, pg, l)] to [(s', pg', l')] some pages moved from the free list to
    the page table, and no other page changed than those and the tables. *)
Record grows (root : Z) (s : kstate) (pg : gmap (list Z) Z) (l : list Z)
    (s' : kstate) (pg' : gmap (list Z) Z) (l' : list Z) : Prop := MkGrows {
  grows_mem : mem_only s s';
  grows_tables : tables s' root pg' l';
  grows_sub : pg ⊆ pg';
  grows_used : exists used, l = used ++ l' /\
    forall q, q ∈ used <-> exists p, pg' !! p = Some q /\ pg !! p = None;
  grows_frame : forall x,
    (forall p a, pg !! p = Some a -> ~ in_page a x) -> (forall q, q ∈ l -> ~ in_page q x) ->
    ldb (mem s') x = ldb (mem s) x
}.

Lemma grows_refl root s pg l : tables s root pg l -> grows root s pg l s pg l.
Proof.
  intros Ht. constructor; try done; [apply mem_only_refl|].
  exists []. split; [done|]. intros q. rewrite elem_of_nil. naive_solver congruence.
Qed.

Lemma grows_trans root s1 pg1 l1 s2 pg2 l2 s3 pg3 l3 :
  grows root s1 pg1 l1 s2 pg2 l2 -> grows root s2 pg2 l2 s3 pg3 l3 ->
  grows root s1 pg1 l1 s3 pg3 l3.
Proof.
  intros [A1 A2 A3 (u1 & A4 & A5) A6] [B1 B2 B3 (u2 & B4 & B5) B6]. constructor.
  - by eapply mem_only_trans.
  - done.
  - by etransitivity.
  - exists (u1 ++ u2). split; [by rewrite A4, B4, app_assoc|]. intros q.
    rewrite elem_of_app, A5, B5. split.
    + intros [(p & H1 & H2)|(p & H1 & H2)]; exists p.
      * split; [by eapply lookup_weaken|done].
      * split; [done|]. destruct (pg1 !! p) eqn:E; [|done].
        rewrite (lookup_weaken _ _ _ _ E A3) in H2. done.
    + intros (p & H1 & H2). destruct (pg2 !! p) as [q'|] eqn:E; [left|right]; exists p; [|done].
      rewrite (lookup_weaken _ _ _ _ E B3) in H1. by injection H1 as ->.
  - intros x H1 H2. rewrite B6, A6; [done|done|done| |].
    + intros p a Hp Hx. destruct (pg1 !! p) as [a'|] eqn:E.
      * pose proof (lookup_weaken _ _ _ _ E A3) as E'. rewrite Hp in E'. injection E' as ->.
        by apply (H1 p a').
      * apply (H2 a); [|done]. rewrite A4, elem_of_app. left. rewrite A5. eauto.
    + intros q Hq. apply H2. rewrite A4, elem_of_app. by right.
Qed.

Hypothesis Hlink : linked.

Lemma tables_kalloc s root pg l q :
  tables s root pg (q :: l) -> LkKmem ∉ held s ->
  exists s', kalloc s = Ok q s' /\ mem_only s s' /\ tables s' root pg l /\ page_ok q /\
    (q ∉ l) /\ (forall p a, pg !! p = Some a -> a <> q) /\ q <> 0 /\
    forall x, ~ in_page q x -> ldb (mem s') x = ldb (mem s) x.
Proof.
  intros [Hpt Hf Hd] Hh.
  destruct (kalloc_some s q l Hlink Hf Hh) as (s' & Hk & Hmo & Hf' & Hq & Hnin & Hm).
  assert (Hne : forall p a, pg !! p = Some a -> a <> q).
  { intros p a Hp ->. apply (Hd p q Hp). set_solver. }
  assert (Hfr : forall x, ~ in_page q x -> ldb (mem s') x = ldb (mem s) x).
  { intros x Hx. rewrite Hm. by rewrite decide_False. }
  exists s'. split_and!; try done.
  - constructor; [|done|].
    + eapply pt_ext; [done|]. intros p a x Hp _ Hx. apply Hfr.
      apply (page_apart a q x); eauto using pt_page.
    + intros p a Hp Hin. apply (Hd p a Hp). set_solver.
  - destruct Hq as [_ ?]. unfold linked in *. lia.
Qed.

(** *** [walk] without allocation *)

Lemma walk_level_old level p a va alloc s root pg c :
  pt (mem s) root pg -> pg !! p = Some a -> (length p < 2)%nat ->
  pg !! (p ++ [PX level va]) = Some c ->
  walk_level level a va alloc s = Ok (Some c) s.
Proof.
  intros Hpt Hp Hl Hc. unfold walk_level. cbn [bind ld gets obind].
  pose proof (pt_entry _ _ _ Hpt p a (PX level va) Hp Hl (PX_range _ _)) as He.
  rewrite Hc in He. rewrite He.
  assert (Hok : page_ok c) by (by eapply pt_page).
  rewrite flag_pte_of by (destruct Hok; unfold linked in *; lia).
  change (negb (Z.land PTE_V PTE_V =? 0)) with true. unfold ret.
  by rewrite PTE2PA_pte_of by (done || lia).
Qed.

Lemma walk_level_none level p a va s root pg :
  pt (mem s) root pg -> pg !! p = Some a -> (length p < 2)%nat ->
  pg !! (p ++ [PX level va]) = None -> walk_level level a va false s = Ok None s.
Proof.
  intros Hpt Hp Hl Hc. unfold walk_level. cbn [bind ld gets obind].
  pose proof (pt_entry _ _ _ Hpt p a (PX level va) Hp Hl (PX_range _ _)) as He.
  rewrite Hc in He. rewrite He. done.
Qed.

Lemma walk_ok s root pg va :
  pt (mem s) root pg -> 0 <= va < MAXVA ->
  walk root va false s =
    Ok ((fun t => pte_addr t (PX 0 va)) <$> pg !! [PX 2 va; PX 1 va]) s.
Proof.
  intros Hpt Hva. unfold walk. destruct (Z.leb_spec MAXVA va); [lia|].
  pose proof (pt_root _ _ _ Hpt) as Hr. destruct (pg !! [PX 2 va]) as [p1|] eqn:E1.
  - rewrite (bind_ok _ _ _ _ _ (walk_level_old 2 [] root va false s root pg p1 Hpt Hr ltac:(simpl; lia) E1)).
    destruct (pg !! [PX 2 va; PX 1 va]) as [p0|] eqn:E0.
    + by rewrite (bind_ok _ _ _ _ _
        (walk_level_old 1 [PX 2 va] p1 va false s root pg p0 Hpt E1 ltac:(simpl; lia) E0)).
    + by rewrite (bind_ok _ _ _ _ _
        (walk_level_none 1 [PX 2 va] p1 va s root pg Hpt E1 ltac:(simpl; lia) E0)).
  - rewrite (bind_ok _ _ _ _ _ (walk_level_none 2 [] root va s root pg Hpt Hr ltac:(simpl; lia) E1)).
    destruct (pg !! [PX 2 va; PX 1 va]) as [p0|] eqn:E0; [|done].
    destruct (pt_parent _ _ _ Hpt [PX 2 va] (PX 1 va) p0 E0). congruence.
Qed.

(** *** [walk] with allocation *)

Lemma walk_level_alloc level p a va s root pg l :
  tables s root pg l -> LkKmem ∉ held s -> pg !! p = Some a -> (length p < 2)%nat ->
  (p = [] -> PX level va < 256) ->
  exists r s' pg' l', walk_level level a va true s = Ok r s' /\
    grows root s pg l s' pg' l' /\ (forall va', leaf (mem s') pg' va' = leaf (mem s) pg va') /\
    match r with
    | Some c => pg' !! (p ++ [PX level va]) = Some c /\ (length l <= length l' + 1)%nat
    | None => l = [] /\ l' = []
    end.
Proof.
  intros Ht Hh Hp Hl Htop. pose proof Ht as [Hpt Hf Hd].
  destruct (pg !! (p ++ [PX level va])) as [c|] eqn:Ec.
  { exists (Some c), s, pg, l. split; [by eapply walk_level_old|].
    split; [by apply grows_refl|]. split; [done|]. split; [done|lia]. }
  unfold walk_level. cbn [bind ld gets obind negb].
  pose proof (pt_entry _ _ _ Hpt p a (PX level va) Hp Hl (PX_range _ _)) as He.
  rewrite Ec in He. rewrite He. destruct l as [|q l].
  { unfold bind. rewrite (kalloc_none s Hf Hh). cbn.
    exists None, s, pg, []. split; [done|]. split; [by apply grows_refl|]. done. }
  destruct (tables_kalloc s root pg l q Ht Hh) as (s1 & Hk & Hmo & Ht1 & Hq & Hnin & Hne & H0 & Hm1).
  unfold bind. rewrite Hk. cbn [obind]. destruct (Z.eqb_spec q 0); [done|].
  cbn [zero_page st modify obind ret].
  set (m' := st64 (memset (mem s1) q 0 PGSIZE) (pte_addr a (PX level va)) (pte_of q PTE_V)).
  pose proof Ht1 as [Hpt1 Hf1 Hd1].
  pose proof (new_table_frame (mem s1) root pg p a (PX level va) q Hlink Hpt1 Hp Hl (PX_range _ _) Htop Ec Hq Hne) as Hfr.
  pose proof (new_table_pt (mem s1) root pg p a (PX level va) q Hlink Hpt1 Hp Hl (PX_range _ _) Htop Ec Hq Hne) as Hptn.
  pose proof (new_table_leaf (mem s1) root pg p a (PX level va) q Hlink Hpt1 Hp Hl (PX_range _ _) Htop Ec Hq Hne) as Hlf.
  cbv zeta in Hfr, Hptn, Hlf. fold m' in Hfr, Hptn, Hlf.
  exists (Some q), (set_mem m' s1), (<[p ++ [PX level va] := q]> pg), l.
  split; [reflexivity|]. split; [|split; [|split; [by rewrite lookup_insert_eq|simpl; lia]]].
  - constructor.
    + eapply mem_only_trans; [exact Hmo|apply mem_only_set_mem].
    + constructor; [exact Hptn| |].
      * destruct Hf1 as (Hc & Hnd & Hok). split; [|done]. eapply chain_ext; [|exact Hc].
        apply Forall_forall. intros b Hb x Hx. rewrite Forall_forall in Hok.
        apply Hfr; apply (page_apart b); eauto using pt_page; intros ->; [done|by eapply Hd1].
      * intros p' a'. rewrite lookup_insert. case_decide; [by intros [= <-]|apply Hd1].
    + by apply insert_subseteq.
    + exists [q]. split; [done|]. intros b. rewrite list_elem_of_singleton. split.
      * intros ->. exists (p ++ [PX level va]). by rewrite lookup_insert_eq.
      * intros (p' & H1 & H2). rewrite lookup_insert in H1. case_decide; congruence.
    + intros x H1 H2. cbn [mem set_mem]. rewrite Hfr, Hm1; [done| | |].
      * apply H2. set_solver.
      * apply H2. set_solver.
      * by eapply H1.
  - intros va'. cbn [mem set_mem]. rewrite Hlf. apply leaf_ext.
    intros p' a' x Hp' _ Hx. apply Hm1. apply (page_apart a' q x); eauto using pt_page.
Qed.

Lemma grows_held root s pg l s' pg' l' : grows root s pg l s' pg' l' -> held s' = held s.
Proof. intros []. by apply mem_only_held. Qed.

Lemma walk_alloc s root pg l va :
  tables s root pg l -> LkKmem ∉ held s -> 0 <= va < MAXVA ->
  exists r s' pg' l', walk root va true s = Ok r s' /\
    grows root s pg l s' pg' l' /\ (forall va', leaf (mem s') pg' va' = leaf (mem s) pg va') /\
    match r with
    | Some a => (exists t, pg' !! [PX 2 va; PX 1 va] = Some t /\ a = pte_addr t (PX 0 va)) /\
        (length l <= length l' + 2)%nat
    | None => l' = [] /\ (length l <= 1)%nat
    end.
Proof.
  intros Ht Hh Hva. unfold walk. destruct (Z.leb_spec MAXVA va); [lia|].
  pose proof (pt_root _ _ _ (tables_pt _ _ _ _ Ht)) as Hr.
  destruct (walk_level_alloc 2 [] root va s root pg l Ht Hh Hr ltac:(simpl; lia)
              (fun _ => PX_top va Hva))
    as (r1 & s1 & pg1 & l1 & Hw1 & Hg1 & Hlf1 & H1). mstep Hw1.
  destruct r1 as [c1|].
  2: { exists None, s1, pg1, l1. destruct H1 as [-> ->]. split_and!; try done. simpl. lia. }
  destruct H1 as [H1 Hlen1].
  pose proof (grows_held _ _ _ _ _ _ _ Hg1) as Hh1.
  destruct (walk_level_alloc 1 [PX 2 va] c1 va s1 root pg1 l1 (grows_tables _ _ _ _ _ _ _ Hg1)
              ltac:(by rewrite Hh1) H1 ltac:(simpl; lia) ltac:(done))
    as (r0 & s2 & pg2 & l2 & Hw2 & Hg2 & Hlf2 & H2). mstep Hw2.
  pose proof (grows_trans _ _ _ _ _ _ _ _ _ _ Hg1 Hg2) as Hg.
  destruct r0 as [c0|].
  - exists (Some (pte_addr c0 (PX 0 va))), s2, pg2, l2. split_and!; [done|done| | |].
    + intros va'. by rewrite Hlf2, Hlf1.
    + exists c0. split; [apply H2|done].
    + destruct H2. lia.
  - exists None, s2, pg2, l2. destruct H2 as [-> ->]. simpl in Hlen1.
    split; [done|]. split; [done|]. split; [|split; [done|lia]]. intros va'. by rewrite Hlf2, Hlf1.
Qed.

(** *** Writing a level-0 entry *)

Lemma PX_same_page va va' :
  0 <= va < MAXVA -> 0 <= va' < MAXVA ->
  (PX 2 va = PX 2 va' /\ PX 1 va = PX 1 va' /\ PX 0 va = PX 0 va') <-> va / PGSIZE = va' / PGSIZE.
Proof.
  intros H1 H2. rewrite (PX_page va), (PX_page va') by done.
  pose proof (PX_range 2 va). pose proof (PX_range 1 va). pose proof (PX_range 0 va).
  pose proof (PX_range 2 va'). pose proof (PX_range 1 va'). pose proof (PX_range 0 va').
  split; [by intros (-> & -> & ->)|]. lia.
Qed.

Lemma leaf_store m root pg va t v va' :
  pt m root pg -> 0 <= va < MAXVA -> 0 <= va' < MAXVA -> pg !! [PX 2 va; PX 1 va] = Some t ->
  leaf (st64 m (pte_addr t (PX 0 va)) v) pg va' =
    if decide (va / PGSIZE = va' / PGSIZE) then u64 v else leaf m pg va'.
Proof.
  intros Hpt H1 H2 Ht. pose proof (PX_same_page va va' H1 H2) as Hiff. unfold leaf.
  case_decide as Hd.
  - apply Hiff in Hd as (E2 & E1 & E0). rewrite <- E2, <- E1, <- E0, Ht. apply ld64_st64_eq.
  - destruct (pg !! [PX 2 va'; PX 1 va']) as [t'|] eqn:Et'; [|done].
    destruct (decide (t' = t)) as [->|Hne].
    + pose proof (pt_inj _ _ _ Hpt _ _ _ Ht Et') as E. injection E as E2 E1.
      apply ld64_st64_ne. apply pte_addr_disj. intros E0. apply Hd, Hiff. done.
    + apply entry_ext; [apply PX_range|]. intros x Hx. apply st64_page; [apply PX_range|].
      apply (page_apart t' t x); eauto using pt_page.
Qed.

(** Storing to a level-0 entry keeps the tables and the free list. *)
Lemma tables_store s root pg l va t v :
  tables s root pg l -> pg !! [PX 2 va; PX 1 va] = Some t ->
  grows root s pg l (set_mem (st64 (mem s) (pte_addr t (PX 0 va)) v) s) pg l.
Proof.
  intros Ht Hpg. pose proof Ht as [Hpt Hf Hd].
  assert (Htok : page_ok t) by (by eapply pt_page).
  assert (Hm : forall x, ~ in_page t x ->
    ldb (st64 (mem s) (pte_addr t (PX 0 va)) v) x = ldb (mem s) x)
    by (intros x Hx; apply st64_page; [apply PX_range|done]).
  constructor.
  - apply mem_only_set_mem.
  - constructor; [|by eapply (free_list_frame s _ l t); [|reflexivity|apply Htok|eapply Hd|]|done].
    eapply pt_ext; [done|]. intros p a x Hp Hlen Hx. apply Hm.
    apply (page_apart a t x); eauto using pt_page. intros ->.
    pose proof (pt_inj _ _ _ Hpt _ _ _ Hp Hpg) as ->. simpl in Hlen. lia.
  - done.
  - exists []. split; [done|]. intros q. rewrite elem_of_nil. naive_solver congruence.
  - intros x H1 _. cbn [mem set_mem]. apply Hm. by eapply H1.
Qed.

(** ** [walkaddr] and the leaf *)

Lemma leaf_load s root pg va :
  pt (mem s) root pg -> 0 <= va < MAXVA ->
  walkaddr root va s =
    Ok (if flag (leaf (mem s) pg va) PTE_V && flag (leaf (mem s) pg va) PTE_U
        then PTE2PA (leaf (mem s) pg va) else 0) s.
Proof.
  intros Hpt Hva. unfold walkaddr. destruct (Z.leb_spec MAXVA va); [lia|].
  mstep (walk_ok s root pg va Hpt Hva). unfold leaf.
  destruct (pg !! [PX 2 va; PX 1 va]) as [t|]; cbn [fmap option_fmap option_map]; [|done].
  cbn [bind ld gets obind]. by destruct (flag _ PTE_V), (flag _ PTE_U).
Qed.

Lemma walkaddr_high s root va : MAXVA <= va -> walkaddr root va s = Ok 0 s.
Proof. intros. unfold walkaddr. by destruct (Z.leb_spec MAXVA va); [|lia]. Qed.

(** ** [mappages] *)

(** The level-0 entries after mapping [k] pages from [a] to [pa] on. *)
Definition map_range (old : Z -> Z) (a k pa flags va : Z) : Z :=
  if decide (a <= va < a + k * PGSIZE) then pte_of (pa + (PGROUNDDOWN va - a)) flags else old va.

Lemma map_range_cons old a k pa flags va :
  a mod PGSIZE = 0 -> 0 <= k ->
  map_range (fun va => if decide (a / PGSIZE = va / PGSIZE) then pte_of pa flags else old va)
    (a + PGSIZE) k (pa + PGSIZE) flags va = map_range old a (k + 1) pa flags va.
Proof.
  intros Ha Hk. unfold map_range. rewrite PGROUNDDOWN_spec.
  repeat case_decide; try (Z.div_mod_to_equations; lia); f_equal;
    Z.div_mod_to_equations; lia.
Qed.

Lemma store_value pa perm :
  0 <= pa < 2 ^ 56 -> 0 <= perm < 1024 ->
  u64 (Z.lor (Z.lor (PA2PTE pa) perm) PTE_V) = pte_of pa (Z.lor perm PTE_V).
Proof.
  intros. rewrite <- Z.lor_assoc. apply u64_small, pte_range; [done|].
  apply flags_lor; lia.
Qed.

Lemma mappages_loop_ok n root last perm :
  last mod PGSIZE = 0 -> last < MAXVA -> 0 <= perm < 1024 ->
  forall a pa s pg l,
  tables s root pg l -> LkKmem ∉ held s ->
  a mod PGSIZE = 0 -> 0 <= a <= last -> (last - a) / PGSIZE < Z.of_nat n ->
  0 <= pa -> pa + (last - a) < 2 ^ 56 ->
  (forall va, a <= va < last + PGSIZE -> flag (leaf (mem s) pg va) PTE_V = false) ->
  exists r s' pg' l' k, mappages_loop n root a last pa perm s = Ok r s' /\
    grows root s pg l s' pg' l' /\
    (r = 0 /\ k = (last - a) / PGSIZE + 1 /\ Z.of_nat (length l) <= Z.of_nat (length l') + 2 * k \/
     r = -1 /\ l' = [] /\ 0 <= k <= (last - a) / PGSIZE /\ Z.of_nat (length l) <= 2 * k + 1) /\
    forall va, 0 <= va < MAXVA ->
      leaf (mem s') pg' va = map_range (leaf (mem s) pg) a k pa (Z.lor perm PTE_V) va.
Proof.
  intros Hlast Hmax Hperm. assert (Hmax' : last + PGSIZE <= MAXVA) by (Z.div_mod_to_equations; lia).
  induction n as [|n IH];
    intros a pa s pg l Ht Hh Ha Har Hn Hpa Hpr Hfree.
  { exfalso. Z.div_mod_to_equations. lia. }
  cbn [mappages_loop].
  destruct (walk_alloc s root pg l a Ht Hh ltac:(lia)) as (r & s1 & pg1 & l1 & Hw & Hg1 & Hlf & Hr).
  mstep Hw. destruct r as [e|].
  2: { exists (-1), s1, pg1, l1, 0. split; [done|]. split; [done|]. split.
       - right. destruct Hr as [-> Hlen]. split_and!; [done|done|lia| |lia]. Z.div_mod_to_equations. lia.
       - intros va _. rewrite Hlf. unfold map_range. by rewrite decide_False by lia. }
  destruct Hr as ((t & Hpg1 & ->) & Hlen).
  assert (Hleaf1 : ld64 (mem s1) (pte_addr t (PX 0 a)) = leaf (mem s) pg a).
  { rewrite <- Hlf. unfold leaf. by rewrite Hpg1. }
  cbn [bind ld gets obind]. rewrite Hleaf1, (Hfree a) by lia.
  cbn [bind obind st modify].
  pose proof (grows_tables _ _ _ _ _ _ _ Hg1) as Ht1.
  set (s2 := set_mem _ s1).
  assert (Hg2 : grows root s1 pg1 l1 s2 pg1 l1) by (by apply tables_store).
  pose proof (grows_trans _ _ _ _ _ _ _ _ _ _ Hg1 Hg2) as Hg.
  assert (Hlf2 : forall va, 0 <= va < MAXVA -> leaf (mem s2) pg1 va =
    if decide (a / PGSIZE = va / PGSIZE) then pte_of pa (Z.lor perm PTE_V) else leaf (mem s) pg va).
  { intros va Hva. unfold s2. cbn [mem set_mem].
    rewrite (leaf_store _ root) by (done || lia || apply Ht1).
    rewrite store_value by (done || lia). by rewrite Hlf. }
  cbn [obind]. destruct (Z.eqb_spec a last) as [->|Hne].
  - exists 0, s2, pg1, l1, 1. split; [done|]. split; [done|]. split.
    + left. rewrite Z.sub_diag. split_and!; [done|done|lia].
    + intros va Hva. rewrite Hlf2 by done. unfold map_range. rewrite PGROUNDDOWN_spec.
      repeat case_decide; try (Z.div_mod_to_equations; lia).
      f_equal. Z.div_mod_to_equations. lia.
  - assert (Hstep : a + PGSIZE <= last) by (Z.div_mod_to_equations; lia).
    rewrite (u64_small (pa + PGSIZE)) by lia.
    destruct (IH (a + PGSIZE) (pa + PGSIZE) s2 pg1 l1) as (r & s3 & pg3 & l3 & k & Hrun & Hg3 & Hk & Hlf3).
    + apply Hg2.
    + by rewrite (grows_held _ _ _ _ _ _ _ Hg).
    + Z.div_mod_to_equations. lia.
    + lia.
    + Z.div_mod_to_equations. lia.
    + lia.
    + lia.
    + intros va Hva. rewrite Hlf2 by lia. rewrite decide_False by (Z.div_mod_to_equations; lia).
      apply Hfree. lia.
    + assert (Hdiv : (last - a) / PGSIZE = (last - (a + PGSIZE)) / PGSIZE + 1)
        by (Z.div_mod_to_equations; lia).
      exists r, s3, pg3, l3, (k + 1). split; [exact Hrun|]. split; [by eapply grows_trans|]. split.
      * destruct Hk as [(-> & -> & Hk)|(-> & -> & Hk & Hk2)]; [left|right]; split_and!; try done; lia.
      * intros va Hva. rewrite Hlf3 by done. rewrite <- map_range_cons by (done || (destruct Hk as [(_ & -> & _)|(_ & _ & ? & _)]; Z.div_mod_to_equations; lia)).
        unfold map_range. case_decide; [done|]. by rewrite Hlf2.
Qed.

(** [mappages] of page-aligned regions. *)
Lemma mappages_ok s root pg l va npages pa perm :
  tables s root pg l -> LkKmem ∉ held s ->
  va mod PGSIZE = 0 -> 0 <= va -> 0 < npages -> va + npages * PGSIZE <= MAXVA ->
  0 <= perm < 1024 -> 0 <= pa -> pa + npages * PGSIZE <= 2 ^ 56 ->
  (forall va', va <= va' < va + npages * PGSIZE -> flag (leaf (mem s) pg va') PTE_V = false) ->
  exists r s' pg' l' k, mappages root va (npages * PGSIZE) pa perm s = Ok r s' /\
    grows root s pg l s' pg' l' /\
    (r = 0 /\ k = npages /\ Z.of_nat (length l) <= Z.of_nat (length l') + 2 * k \/
     r = -1 /\ l' = [] /\ 0 <= k < npages /\ Z.of_nat (length l) <= 2 * k + 1) /\
    forall va', 0 <= va' < MAXVA ->
      leaf (mem s') pg' va' = map_range (leaf (mem s) pg) va k pa (Z.lor perm PTE_V) va'.
Proof.
  intros Ht Hh Ha H0 Hn Hmax Hperm Hpa Hpr Hfree. unfold mappages.
  destruct (Z.eqb_spec (npages * PGSIZE) 0); [lia|].
  rewrite (PGROUNDDOWN_aligned va) by done. rewrite u64_small by lia.
  replace (PGROUNDDOWN (va + npages * PGSIZE - 1)) with (va + (npages - 1) * PGSIZE)
    by (rewrite PGROUNDDOWN_spec; Z.div_mod_to_equations; lia).
  set (last := va + (npages - 1) * PGSIZE). unfold mappages_pages.
  destruct (Z.leb_spec va last); [|lia].
  assert (Hlen : (last - va) / PGSIZE = npages - 1).
  { unfold last. replace (va + (npages - 1) * PGSIZE - va) with ((npages - 1) * PGSIZE) by lia.
    apply Z.div_mul. lia. }
  destruct (mappages_loop_ok (S (Z.to_nat ((last - va) / PGSIZE))) root last perm)
    with (a := va) (pa := pa) (s := s) (pg := pg) (l := l)
    as (r & s' & pg' & l' & k & Hrun & Hg & Hk & Hlf); try done; try lia.
  - unfold last. rewrite Z.mod_add by lia. done.
  - intros va' Hva'. apply Hfree. unfold last in Hva'. lia.
  - exists r, s', pg', l', k. split_and!; try done. rewrite Hlen in Hk.
    destruct Hk as [(-> & -> & Hk)|(-> & -> & Hk & Hk2)]; [left|right]; split_and!; try done; lia.
Qed.

(** [mappages] of whole pages installs exactly the translations asked for:
    when it returns 0, [walkaddr] of every page of the region that is mapped for
    the user yields the corresponding physical page, and every other address
    translates as before; it returns -1 only when memory for page tables ran
    out, having mapped a prefix of the region.  Only page tables and pages that
    were free change. *)
Theorem mappages_walkaddr s root pg l va npages pa perm :
  tables s root pg l -> LkKmem ∉ held s ->
  va mod PGSIZE = 0 -> 0 <= va -> 0 < npages -> va + npages * PGSIZE <= MAXVA ->
  0 <= perm < 1024 -> pa mod PGSIZE = 0 -> 0 <= pa -> pa + npages * PGSIZE <= 2 ^ 56 ->
  (forall va', va <= va' < va + npages * PGSIZE -> flag (leaf (mem s) pg va') PTE_V = false) ->
  exists r s' pg' l' k, mappages root va (npages * PGSIZE) pa perm s = Ok r s' /\
    grows root s pg l s' pg' l' /\
    (r = 0 /\ k = npages \/ r = -1 /\ 0 <= k < npages /\ Z.of_nat (length l) <= 2 * k + 1) /\
    forall va', 0 <= va' < MAXVA ->
      if decide (va <= va' < va + k * PGSIZE)
      then walkaddr root va' s' = Ok (if negb (Z.land perm PTE_U =? 0)
             then pa + (PGROUNDDOWN va' - va) else 0) s'
      else exists a, walkaddr root va' s = Ok a s /\ walkaddr root va' s' = Ok a s'.
Proof.
  intros Ht Hh Ha H0 Hn Hmax Hperm Hpal Hpa Hpr Hfree.
  destruct (mappages_ok s root pg l va npages pa perm Ht Hh Ha H0 Hn Hmax Hperm Hpa Hpr Hfree)
    as (r & s' & pg' & l' & k & Hrun & Hg & Hk & Hlf).
  exists r, s', pg', l', k. split; [done|]. split; [done|]. split; [tauto|].
  intros va' Hva'. rewrite (leaf_load s' root pg') by (apply Hg || done). rewrite Hlf by done.
  unfold map_range. case_decide as Hd.
  - set (p := pa + (PGROUNDDOWN va' - va)).
    assert (Hp : 0 <= p < 2 ^ 56 /\ p mod PGSIZE = 0).
    { unfold p. rewrite PGROUNDDOWN_spec. destruct Hk as [(_ & -> & _)|(_ & _ & ? & _)];
        Z.div_mod_to_equations; lia. }
    assert (Hfl : 0 <= Z.lor perm PTE_V < 1024) by (apply flags_lor; lia).
    rewrite !flag_pte_of by lia. unfold pte_of. rewrite PTE2PA_PA2PTE by lia.
    replace (Z.land (Z.lor perm PTE_V) PTE_V =? 0) with false by
      (symmetry; apply Z.eqb_neq; rewrite Z.land_lor_distr_l, Z.lor_eq_0_iff; by intros [_ ?]).
    rewrite Z.land_lor_distr_l. change (Z.land PTE_V PTE_U) with 0. rewrite Z.lor_0_r. done.
  - rewrite (leaf_load s root pg) by (apply Ht || done). eauto.
Qed.
End Tables.
