(* ===== verification/Uvm.v ===== *)
(** * User address spaces

    [uspace s root pg l um] describes a user page table: [um] maps each user
    page number to the physical page and the flags of its entry; the physical
    pages are distinct from each other, from the page tables and from the free
    pages.  [uget m um va] is the byte a user program sees at [va].  The copy
    routines of [kernel/vm.c] read and write exactly that. *)

From stdpp Require Import gmap strings list fin_maps.
From S2P Require Import Prelude Layout State Sched Cstring Kalloc Vm VmFacts.

(** Page numbers: [0 .. UPAGES) is the user's part, the trapframe and the
    trampoline lie above it, and [MAXVA] is page [VPAGES]. *)
Abbreviation UPAGES := 0x3fffffe.
Abbreviation VPAGES := 0x4000000.

(** The flags of a valid leaf entry. *)
Definition leaf_flags (fl : Z) : Prop :=
  0 <= fl < 1024 /\ Z.land fl PTE_V <> 0 /\ Z.land fl (Z.lor (Z.lor PTE_R PTE_W) PTE_X) <> 0.

Section Uspace.
Context `{Build}.

Record uspace (s : kstate) (root : Z) (pg : gmap (list Z) Z) (l : list Z)
    (um : gmap Z (Z * Z)) : Prop := MkUspace {
  us_tables : tables s root pg l;
  us_leaf : forall v pa fl, um !! v = Some (pa, fl) ->
    0 <= v < UPAGES /\ page_ok pa /\ leaf_flags fl /\
    leaf (mem s) pg (v * PGSIZE) = pte_of pa fl;
  us_none : forall v, um !! v = None -> 0 <= v < UPAGES ->
    flag (leaf (mem s) pg (v * PGSIZE)) PTE_V = false;
  us_high : forall v, UPAGES <= v < VPAGES ->
    flag (leaf (mem s) pg (v * PGSIZE)) PTE_V && flag (leaf (mem s) pg (v * PGSIZE)) PTE_U = false;
  us_inj : forall v v' pa fl fl', um !! v = Some (pa, fl) -> um !! v' = Some (pa, fl') -> v = v';
  us_table : forall v pa fl p, um !! v = Some (pa, fl) -> pg !! p <> Some pa;
  us_free : forall v pa fl, um !! v = Some (pa, fl) -> pa ∉ l
}.

(** The user may access a page with these flags. *)
Definition user_ok (fl : Z) : bool := negb (Z.land fl PTE_U =? 0).

Definition uget (m : gmap Z Z) (um : gmap Z (Z * Z)) (va : Z) : option Z :=
  match um !! (va / PGSIZE) with
  | Some (pa, fl) => if user_ok fl then Some (ldb m (pa + va mod PGSIZE)) else None
  | None => None
  end.

Hypothesis Hlink : linked.

Lemma flag_of pa fl f :
  page_ok pa -> 0 <= fl < 1024 -> 0 <= f < 1024 ->
  flag (pte_of pa fl) f = negb (Z.land fl f =? 0).
Proof. intros [_ ?] ? ?. apply flag_pte_of; unfold linked in *; lia. Qed.

Lemma page_ok_nonzero pa : page_ok pa -> pa <> 0.
Proof. intros [_ ?]. unfold linked in *. lia. Qed.

(** What [walkaddr] returns for the page of [va]. *)
Definition upage (um : gmap Z (Z * Z)) (va : Z) : Z :=
  match um !! (va / PGSIZE) with
  | Some (pa, fl) => if user_ok fl then pa else 0
  | None => 0
  end.

Lemma walkaddr_user s root pg l um va :
  uspace s root pg l um -> 0 <= va -> walkaddr root (PGROUNDDOWN va) s = Ok (upage um va) s.
Proof.
  intros [Ht Hl Hn Hhi _ _ _] Hva. rewrite PGROUNDDOWN_spec, Z.mul_comm. unfold upage.
  assert (Hv : 0 <= va / PGSIZE) by (Z.div_mod_to_equations; lia).
  set (v := va / PGSIZE) in *. destruct (decide (v < VPAGES)) as [Hlt|Hge].
  - rewrite (leaf_load Hlink s root pg) by (apply Ht || lia). do 2 f_equal.
    destruct (um !! v) as [[pa fl]|] eqn:E.
    + destruct (Hl v pa fl E) as (_ & Hpa & (Hfl & HV & _) & Hlf). rewrite Hlf.
      rewrite !flag_of, PTE2PA_pte_of by (done || lia). unfold user_ok.
      destruct (Z.eqb_spec (Z.land fl PTE_V) 0); [done|].
      by destruct (Z.land fl PTE_U =? 0).
    + destruct (decide (v < UPAGES)); [by rewrite Hn by (done || lia)|]. by rewrite Hhi by lia.
  - rewrite walkaddr_high by lia. f_equal. destruct (um !! v) as [[pa fl]|] eqn:E; [|done].
    destruct (Hl v pa fl E). lia.
Qed.

Lemma upage_Some s root pg l um va pa fl :
  uspace s root pg l um -> um !! (va / PGSIZE) = Some (pa, fl) -> user_ok fl = true ->
  upage um va = pa /\ pa <> 0.
Proof.
  intros Hu E Hok. unfold upage. rewrite E, Hok. split; [done|].
  apply page_ok_nonzero. by eapply us_leaf.
Qed.

Lemma upage_cases s root pg l um va :
  uspace s root pg l um ->
  (upage um va = 0 /\ forall m, uget m um va = None) \/
  exists pa fl, um !! (va / PGSIZE) = Some (pa, fl) /\ user_ok fl = true /\
    upage um va = pa /\ pa <> 0.
Proof.
  intros Hu. unfold uget. destruct (um !! (va / PGSIZE)) as [[pa fl]|] eqn:E.
  - destruct (user_ok fl) eqn:Ef; [right|left].
    + exists pa, fl. pose proof (upage_Some _ _ _ _ _ _ _ _ Hu E Ef). tauto.
    + unfold upage. by rewrite E, Ef.
  - left. unfold upage. by rewrite E.
Qed.

(** Writes inside one user page keep the address space. *)
Lemma uspace_write s root pg l um v pa fl m :
  uspace s root pg l um -> um !! v = Some (pa, fl) ->
  (forall x, ~ in_page pa x -> ldb m x = ldb (mem s) x) ->
  uspace (set_mem m s) root pg l um.
Proof.
  intros [Ht Hl Hn Hhi Hinj Htab Hfree] E Hm. pose proof Ht as [Hpt Hf Hd].
  destruct (Hl v pa fl E) as (_ & Hpa & _).
  assert (Hsame : forall p a x, pg !! p = Some a -> in_page a x -> ldb m x = ldb (mem s) x).
  { intros p a x Hp Hx. apply Hm. apply (page_apart a pa x); eauto using pt_page.
    intros ->. by apply (Htab v pa fl p). }
  assert (Hlf : forall va, leaf m pg va = leaf (mem s) pg va) by (intros; apply leaf_ext; eauto).
  constructor; cbn [mem set_mem]; try done.
  - constructor; [by eapply pt_ext; eauto| |done].
    eapply (free_list_frame s _ l pa); [done|reflexivity|apply Hpa|by eapply Hfree|done].
  - intros. rewrite Hlf. eauto.
  - intros. rewrite Hlf. eauto.
  - intros. rewrite Hlf. eauto.
Qed.

(** The pages of [um] hold what they held. *)
Definition upages_same (um : gmap Z (Z * Z)) (m m' : gmap Z Z) : Prop :=
  forall v pa fl x, um !! v = Some (pa, fl) -> in_page pa x -> ldb m' x = ldb m x.

Lemma upages_same_uget um m m' va : upages_same um m m' -> uget m' um va = uget m um va.
Proof.
  intros Hs. unfold uget. destruct (um !! (va / PGSIZE)) as [[pa fl]|] eqn:E; [|done].
  destruct (user_ok fl); [|done]. f_equal. eapply Hs; [done|]. unfold in_page.
  Z.div_mod_to_equations. lia.
Qed.

Lemma upages_same_trans um m1 m2 m3 :
  upages_same um m1 m2 -> upages_same um m2 m3 -> upages_same um m1 m3.
Proof. intros H1 H2 v pa fl x E Hx. rewrite (H2 v pa fl), (H1 v pa fl); done. Qed.

(** Changes elsewhere, with fewer pages free. *)
Lemma uspace_frame s s' root pg l l' um :
  uspace s root pg l um -> free_list s' l' -> (forall q, q ∈ l' -> q ∈ l) ->
  (forall p a x, pg !! p = Some a -> in_page a x -> ldb (mem s') x = ldb (mem s) x) ->
  uspace s' root pg l' um.
Proof.
  intros [Ht Hl Hn Hhi Hinj Htab Hfree] Hf Hsub Hm. pose proof Ht as [Hpt _ Hd].
  assert (Hlf : forall va, leaf (mem s') pg va = leaf (mem s) pg va)
    by (intros; apply leaf_ext; eauto).
  constructor; try done.
  - constructor; [by eapply pt_ext; eauto|done|]. intros p a Hp Hin. eapply Hd; eauto.
  - intros. rewrite Hlf. eauto.
  - intros. rewrite Hlf. eauto.
  - intros. rewrite Hlf. eauto.
  - intros v pa fl E Hin. eapply Hfree; eauto.
Qed.

(** Growing the tables of an address space. *)
Lemma uspace_grows s root pg l um s' pg' l' :
  uspace s root pg l um -> grows root s pg l s' pg' l' ->
  (forall va, 0 <= va < MAXVA -> leaf (mem s') pg' va = leaf (mem s) pg va) ->
  uspace s' root pg' l' um /\ upages_same um (mem s) (mem s').
Proof.
  intros [Ht Hl Hn Hhi Hinj Htab Hfree] [G1 G2 G3 (used & G4 & G5) G6] Hlf. split.
  - constructor; try done.
    + intros v pa fl E. pose proof (Hl v pa fl E) as Hv. rewrite Hlf by lia. done.
    + intros v E Hv. rewrite Hlf by lia. eauto.
    + intros v Hv. rewrite Hlf by lia. eauto.
    + intros v pa fl p E Hp. destruct (pg !! p) as [a|] eqn:Ep.
      * pose proof (lookup_weaken _ _ _ _ Ep G3) as Ep'. rewrite Hp in Ep'. injection Ep' as <-.
        by apply (Htab v pa fl p).
      * apply (Hfree v pa fl E). rewrite G4, elem_of_app. left. rewrite G5. eauto.
    + intros v pa fl E Hin. apply (Hfree v pa fl E). rewrite G4, elem_of_app. by right.
  - intros v pa fl x E Hx. destruct (Hl v pa fl E) as (_ & Hpa & _). apply G6.
    + intros p a Hp. apply (page_apart pa a x); [done|by eapply pt_page; [apply Ht|]| |done].
      intros ->. by apply (Htab v a fl p).
    + intros q Hq. apply (page_apart pa q x); [done| | |done].
      * destruct (tables_free _ _ _ _ Ht) as (_ & _ & Hok). rewrite Forall_forall in Hok. auto.
      * intros ->. by apply (Hfree v q fl E).
Qed.

(** ** [copyout] *)

Abbreviation is_bytes l := (Forall (fun b => 0 <= b < 256) l).

(** A write inside one user page, seen by the user. *)
Lemma uget_stl s root pg l um va0 pa fl bytes va :
  uspace s root pg l um -> um !! (va0 / PGSIZE) = Some (pa, fl) -> user_ok fl = true ->
  0 <= va0 -> va0 mod PGSIZE + Z.of_nat (length bytes) <= PGSIZE -> is_bytes bytes ->
  uget (stl (mem s) (pa + va0 mod PGSIZE) bytes) um va =
    if decide (va0 <= va < va0 + Z.of_nat (length bytes)) then bytes !! Z.to_nat (va - va0)
    else uget (mem s) um va.
Proof.
  intros Hu E Hok H0 Hlen Hb. unfold uget. case_decide as Hd.
  - assert (Hv : va / PGSIZE = va0 / PGSIZE) by (Z.div_mod_to_equations; lia). rewrite Hv, E, Hok.
    assert (Hi : (Z.to_nat (va - va0) < length bytes)%nat) by lia.
    replace (pa + va mod PGSIZE) with (pa + va0 mod PGSIZE + Z.of_nat (Z.to_nat (va - va0)))
      by (Z.div_mod_to_equations; lia).
    rewrite ldb_stl_in by done. destruct (lookup_lt_is_Some_2 bytes _ Hi) as [b Hb'].
    rewrite Hb'. simpl. f_equal. apply u8_small. rewrite Forall_lookup in Hb. eauto.
  - destruct (um !! (va / PGSIZE)) as [[pa' fl']|] eqn:E'; [|done].
    destruct (user_ok fl'); [|done]. f_equal. apply ldb_stl_out.
    destruct (decide (va / PGSIZE = va0 / PGSIZE)) as [Hv|Hv].
    + rewrite Hv, E in E'. injection E' as <- <-. Z.div_mod_to_equations. lia.
    + destruct (us_leaf _ _ _ _ _ Hu _ _ _ E) as (_ & [Ha _] & _).
      destruct (us_leaf _ _ _ _ _ Hu _ _ _ E') as (_ & [Ha' _] & _).
      assert (pa <> pa') by (intros ->; by apply Hv, (us_inj _ _ _ _ _ Hu _ _ pa' fl' fl)).
      Z.div_mod_to_equations. lia.
Qed.

(** What a copy of [bytes] to [dst] that got [k] bytes far leaves the user with. *)
Definition copied (old : Z -> option Z) (dst k : Z) (bytes : list Z) (va : Z) : option Z :=
  if decide (dst <= va < dst + k) then bytes !! Z.to_nat (va - dst) else old va.

(** No byte outside of the user's pages changed. *)
Definition user_only (um : gmap Z (Z * Z)) (m m' : gmap Z Z) : Prop :=
  forall x, (forall v pa fl, um !! v = Some (pa, fl) -> ~ in_page pa x) -> ldb m' x = ldb m x.

(** The part of [len] bytes at [va] that lies in the page of [va]. *)
Definition in_first_page (va len : Z) : Z := Z.min (PGSIZE - va mod PGSIZE) len.

Lemma first_page_offset va : va - PGROUNDDOWN va = va mod PGSIZE.
Proof. rewrite PGROUNDDOWN_spec. Z.div_mod_to_equations. lia. Qed.

Lemma first_page_range va len :
  0 <= va -> 0 < len ->
  0 < in_first_page va len <= len /\ va mod PGSIZE + in_first_page va len <= PGSIZE /\
  (in_first_page va len < len -> PGROUNDDOWN va + PGSIZE = va + in_first_page va len).
Proof.
  intros. rewrite PGROUNDDOWN_spec. unfold in_first_page. Z.div_mod_to_equations. lia.
Qed.

(** One turn of [copyout]'s loop. *)
Lemma copyout_chunk s root pg l um dstva pa fl src :
  uspace s root pg l um -> um !! (dstva / PGSIZE) = Some (pa, fl) -> user_ok fl = true ->
  0 <= dstva -> (0 < length src)%nat -> is_bytes src ->
  let k := in_first_page dstva (Z.of_nat (length src)) in
  let m1 := stl (mem s) (pa + dstva mod PGSIZE) (take (Z.to_nat k) src) in
  uspace (set_mem m1 s) root pg l um /\ user_only um (mem s) m1 /\
  forall va, uget m1 um va = copied (uget (mem s) um) dstva k src va.
Proof.
  intros Hu E Hok H0 Hpos Hb k m1.
  destruct (first_page_range dstva (Z.of_nat (length src))) as (Hk & Hk2 & _); [lia..|].
  fold k in Hk, Hk2.
  assert (Hcl : Z.of_nat (length (take (Z.to_nat k) src)) = k) by (rewrite length_take; lia).
  assert (Hfr : forall x, ~ in_page pa x -> ldb m1 x = ldb (mem s) x).
  { intros x Hx. apply ldb_stl_out. unfold in_page in Hx. rewrite Hcl.
    Z.div_mod_to_equations. lia. }
  split_and!.
  - by eapply uspace_write.
  - intros x Hx. apply Hfr. by eapply Hx.
  - intros va. unfold m1. rewrite (uget_stl s root pg l um dstva pa fl) by
      (done || lia || by apply Forall_take). unfold copied. rewrite Hcl.
    case_decide; [|done]. rewrite lookup_take_lt by lia. done.
Qed.

Lemma copied_split old dst k1 k2 bytes va :
  0 <= k1 -> 0 <= k2 -> k1 <= Z.of_nat (length bytes) ->
  copied (copied old dst k1 bytes) (dst + k1) k2 (drop (Z.to_nat k1) bytes) va =
    copied old dst (k1 + k2) bytes va.
Proof.
  intros H1 H2 H3. unfold copied. repeat case_decide; try lia; try done.
  rewrite lookup_drop. f_equal. lia.
Qed.

Lemma copied_none old dst bytes va : copied old dst 0 bytes va = old va.
Proof. unfold copied. by rewrite decide_False by lia. Qed.

Lemma copied_ext f g dst k bytes va :
  (forall va, f va = g va) -> copied f dst k bytes va = copied g dst k bytes va.
Proof. intros E. unfold copied. case_decide; [done|apply E]. Qed.

Lemma copyout_loop_ok n root pg l um :
  forall src dstva s,
  uspace s root pg l um -> 0 <= dstva -> (length src <= n)%nat -> is_bytes src ->
  exists r m' k, copyout_loop n root dstva src s = Ok r (set_mem m' s) /\
    uspace (set_mem m' s) root pg l um /\ user_only um (mem s) m' /\
    (r = 0 /\ k = Z.of_nat (length src) \/
     r = -1 /\ 0 <= k < Z.of_nat (length src) /\ uget (mem s) um (dstva + k) = None) /\
    forall va, uget m' um va = copied (uget (mem s) um) dstva k src va.
Proof.
  induction n as [|n IH]; intros src dstva s Hu H0 Hlen Hb; destruct src as [|b0 src0];
    try (simpl in Hlen; lia);
    try (exists 0, (mem s), 0; rewrite (set_mem_mem s); split_and!; try done; [by left|];
         intros va; by rewrite copied_none).
  cbn [copyout_loop]. remember (b0 :: src0) as src eqn:Esrc.
  assert (Hpos : (0 < length src)%nat) by (subst; simpl; lia).
  mstep (walkaddr_user s root pg l um dstva Hu H0).
  destruct (upage_cases s root pg l um dstva Hu) as [[-> Hnone]|(pa & fl & E & Hok & -> & Hnz)].
  { exists (-1), (mem s), 0. rewrite (set_mem_mem s). split_and!; try done.
    - right. split_and!; [done|lia|lia|]. by rewrite Z.add_0_r.
    - intros va. by rewrite copied_none. }
  destruct (Z.eqb_spec pa 0); [done|]. cbn [bind modify obind]. rewrite first_page_offset.
  destruct (copyout_chunk s root pg l um dstva pa fl src Hu E Hok H0 Hpos Hb) as (Hu1 & Hfr & Hg1).
  destruct (first_page_range dstva (Z.of_nat (length src))) as (Hk & _ & Hnext); [lia..|].
  change (Z.min (PGSIZE - dstva mod PGSIZE) (Z.of_nat (length src)))
    with (in_first_page dstva (Z.of_nat (length src))).
  set (k := in_first_page dstva (Z.of_nat (length src))) in *. set (m1 := stl _ _ _) in *.
  destruct (us_leaf _ _ _ _ _ Hu _ _ _ E) as (Hv & _).
  rewrite u64_small by (rewrite PGROUNDDOWN_spec; lia).
  destruct (IH (drop (Z.to_nat k) src) (PGROUNDDOWN dstva + PGSIZE) (set_mem m1 s))
    as (r & m' & k' & Hrun & Hu' & Hfr' & Hr & Hget);
    [done|rewrite PGROUNDDOWN_spec; lia|rewrite length_drop; lia|by apply Forall_drop|].
  cbn [mem set_mem] in *. rewrite length_drop in Hr.
  assert (Hk' : k = Z.of_nat (length src) /\ k' = 0 \/ PGROUNDDOWN dstva + PGSIZE = dstva + k).
  { destruct (decide (k < Z.of_nat (length src))); [right; by apply Hnext|left].
    destruct Hr as [[_ ->]|(_ & ? & _)]; lia. }
  exists r, m', (k + k'). split; [exact Hrun|]. split; [exact Hu'|]. split_and!.
  - intros x Hx. rewrite Hfr' by done. by apply Hfr.
  - destruct Hr as [[-> ->]|(-> & Hk2 & Hnone)]; [left|right]; (split; [done|]); [lia|].
    destruct Hk' as [[? ?]|Hk']; [lia|]. split; [lia|]. rewrite Hk', Hg1 in Hnone.
    unfold copied in Hnone. rewrite decide_False in Hnone by lia. by rewrite Z.add_assoc.
  - intros va. rewrite Hget. destruct Hk' as [[Hka ->]|Hk'].
    + rewrite copied_none, Z.add_0_r. apply Hg1.
    + rewrite Hk', <- copied_split by (destruct Hr as [[_ ->]|(_ & ? & _)]; lia).
      by apply copied_ext.
Qed.

(** ** [copyin] and [copyinstr] *)

(** [bytes] is what the user has at [va]. *)
Definition user_bytes (m : gmap Z Z) (um : gmap Z (Z * Z)) (va : Z) (bytes : list Z) : Prop :=
  forall i, (i < length bytes)%nat -> uget m um (va + Z.of_nat i) = bytes !! i.

Lemma user_bytes_nil m um va : user_bytes m um va [].
Proof. intros i Hi. simpl in Hi. lia. Qed.

Lemma user_bytes_app m um va l1 l2 :
  user_bytes m um va l1 -> user_bytes m um (va + Z.of_nat (length l1)) l2 ->
  user_bytes m um va (l1 ++ l2).
Proof.
  intros H1 H2 i Hi. rewrite length_app in Hi. destruct (decide (i < length l1)%nat).
  - rewrite lookup_app_l by done. by apply H1.
  - rewrite lookup_app_r by lia. rewrite <- H2 by lia. f_equal. lia.
Qed.

(** Bytes read from the page of [va]. *)
Lemma user_bytes_page m um va pa fl k :
  um !! (va / PGSIZE) = Some (pa, fl) -> user_ok fl = true -> 0 <= va ->
  va mod PGSIZE + Z.of_nat k <= PGSIZE -> user_bytes m um va (ldl m (pa + va mod PGSIZE) k).
Proof.
  intros E Hok H0 Hk i Hi. rewrite length_ldl in Hi. rewrite lookup_ldl by done. unfold uget.
  replace ((va + Z.of_nat i) / PGSIZE) with (va / PGSIZE) by (Z.div_mod_to_equations; lia).
  rewrite E, Hok. do 2 f_equal. Z.div_mod_to_equations. lia.
Qed.

Lemma copyin_loop_ok n root pg l um s :
  uspace s root pg l um ->
  forall srcva len, 0 <= srcva -> len <= Z.of_nat n ->
  exists r bytes, copyin_loop n root srcva len s = Ok (r, bytes) s /\
    (r = 0 /\ Z.of_nat (length bytes) = Z.max 0 len \/
     r = -1 /\ Z.of_nat (length bytes) < len /\
     uget (mem s) um (srcva + Z.of_nat (length bytes)) = None) /\
    user_bytes (mem s) um srcva bytes.
Proof.
  intros Hu. induction n as [|n IH]; intros srcva len H0 Hn;
    cbn [copyin_loop]; destruct (Z.ltb_spec 0 len); try lia;
    try (exists 0, []; split_and!; [done|left; split; [done|simpl; lia]|apply user_bytes_nil]).
  mstep (walkaddr_user s root pg l um srcva Hu H0).
  destruct (upage_cases s root pg l um srcva Hu) as [[-> Hnone]|(pa & fl & E & Hok & -> & Hnz)].
  { exists (-1), []. split_and!; [done| |apply user_bytes_nil]. right. split_and!; [done|done|].
    simpl. by rewrite Z.add_0_r. }
  destruct (Z.eqb_spec pa 0); [done|]. cbn [bind gets obind]. rewrite first_page_offset.
  change (Z.min (PGSIZE - srcva mod PGSIZE) len) with (in_first_page srcva len).
  destruct (first_page_range srcva len) as (Hk & Hk2 & Hnext); [lia..|].
  set (k := in_first_page srcva len) in *.
  destruct (us_leaf _ _ _ _ _ Hu _ _ _ E) as (Hv & _).
  rewrite u64_small by (rewrite PGROUNDDOWN_spec; lia).
  destruct (IH (PGROUNDDOWN srcva + PGSIZE) (len - k)) as (r & rest & Hrun & Hr & Hrest);
    [rewrite PGROUNDDOWN_spec; lia|lia|].
  mstep Hrun. cbn [ret].
  set (bytes := ldl _ _ _). assert (Hb : length bytes = Z.to_nat k) by apply length_ldl.
  assert (Hk' : rest = [] /\ len <= k \/ PGROUNDDOWN srcva + PGSIZE = srcva + k).
  { destruct (decide (k < len)); [right; by apply Hnext|left]. split; [|lia].
    apply length_zero_iff_nil. destruct Hr as [[_ ?]|(_ & ? & _)]; lia. }
  exists r, (bytes ++ rest). rewrite length_app, Hb. split; [done|]. split.
  - destruct Hr as [[-> Hlen]|(-> & Hlen & Hnone)]; [left|right]; (split; [done|]); [lia|].
    split; [lia|]. destruct Hk' as [[-> ?]|Hk']; [simpl in Hlen; lia|]. rewrite Hk' in Hnone.
    rewrite <- Hnone. f_equal. lia.
  - apply user_bytes_app; [eapply user_bytes_page; [done|done|done|lia]|].
    destruct Hk' as [[-> _]|Hk']; [apply user_bytes_nil|]. rewrite Hb. rewrite Hk' in Hrest.
    by rewrite Z2Nat.id by lia.
Qed.

Lemma copyinstr_bytes_spec m n p :
  exists str, (0 ∉ str) /\ str = ldl m p (length str) /\
    (copyinstr_bytes m n p = (str ++ [0], true) /\ (length str < n)%nat /\
       ldb m (p + Z.of_nat (length str)) = 0 \/
     copyinstr_bytes m n p = (str, false) /\ length str = n).
Proof.
  revert p. induction n as [|n IH]; intros p; cbn [copyinstr_bytes].
  - exists []. split_and!; [set_solver|done|by right].
  - destruct (Z.eqb_spec (ldb m p) 0) as [E|E].
    + exists []. split_and!; [set_solver|done|]. left. split_and!; [done|simpl; lia|].
      simpl. by rewrite Z.add_0_r.
    + destruct (IH (p + 1)) as (str & Hn & Hstr & Hor). exists (ldb m p :: str).
      split; [rewrite not_elem_of_cons; split; [congruence|done]|].
      split; [simpl; by rewrite <- Hstr|].
      destruct Hor as [(-> & Hlt & Hz)|(-> & Hlen)]; [left|right].
      * split; [done|]. split; [simpl; lia|]. rewrite <- Hz. f_equal. simpl. lia.
      * split; [done|]. simpl. lia.
Qed.

Lemma copyinstr_loop_ok n root pg l um s :
  uspace s root pg l um ->
  forall srcva max, 0 <= srcva -> max <= Z.of_nat n ->
  exists str, (0 ∉ str) /\ user_bytes (mem s) um srcva str /\
    let len := Z.of_nat (length str) in
    (copyinstr_loop n root srcva max s = Ok (0, str ++ [0]) s /\ len < max /\
       uget (mem s) um (srcva + len) = Some 0 \/
     copyinstr_loop n root srcva max s = Ok (-1, str) s /\
       (len = Z.max 0 max \/ len < max /\ uget (mem s) um (srcva + len) = None)).
Proof.
  intros Hu. induction n as [|n IH]; intros srcva max H0 Hn;
    cbn [copyinstr_loop]; destruct (Z.ltb_spec 0 max); try lia;
    try (exists []; split_and!; [set_solver|apply user_bytes_nil|]; right;
         split; [done|left; simpl; lia]).
  rewrite (bind_ok _ _ _ _ _ (walkaddr_user s root pg l um srcva Hu H0)).
  destruct (upage_cases s root pg l um srcva Hu) as [[-> Hnone]|(pa & fl & E & Hok & -> & Hnz)].
  { exists []. split_and!; [set_solver|apply user_bytes_nil|]. right. split; [done|right].
    simpl. by rewrite Z.add_0_r. }
  destruct (Z.eqb_spec pa 0); [done|]. cbn [bind gets obind]. rewrite first_page_offset.
  change (Z.min (PGSIZE - srcva mod PGSIZE) max) with (in_first_page srcva max).
  destruct (first_page_range srcva max) as (Hk & Hk2 & Hnext); [lia..|].
  set (k := in_first_page srcva max) in *.
  destruct (us_leaf _ _ _ _ _ Hu _ _ _ E) as (Hv & _).
  destruct (copyinstr_bytes_spec (mem s) (Z.to_nat k) (pa + srcva mod PGSIZE))
    as (str & Hnz' & Hstr & [(-> & Hlt & Hz)|(-> & Hlen)]).
  - exists str. split_and!; [done|rewrite Hstr; eapply user_bytes_page; [done|done|done|lia]|].
    left. split; [done|]. split; [lia|]. unfold uget.
    replace ((srcva + Z.of_nat (length str)) / PGSIZE) with (srcva / PGSIZE)
      by (Z.div_mod_to_equations; lia).
    rewrite E, Hok. rewrite <- Hz. do 2 f_equal. Z.div_mod_to_equations. lia.
  - rewrite u64_small by (rewrite PGROUNDDOWN_spec; lia).
    destruct (IH (PGROUNDDOWN srcva + PGSIZE) (max - k)) as (rest & Hnr & Hrest & Hor);
      [rewrite PGROUNDDOWN_spec; lia|lia|].
    assert (Hb : user_bytes (mem s) um srcva str)
      by (rewrite Hstr; eapply user_bytes_page; [done|done|done|lia]).
    assert (Hk' : rest = [] /\ k = max \/ PGROUNDDOWN srcva + PGSIZE = srcva + k).
    { destruct (decide (k < max)); [right; by apply Hnext|left]. split; [|lia].
      apply length_zero_iff_nil. destruct Hor as [(_ & ? & _)|(_ & [?|[? _]])]; lia. }
    exists (str ++ rest). rewrite length_app, Hlen. split; [set_solver|].
    split.
    + apply user_bytes_app; [done|]. destruct Hk' as [[-> _]|Hk']; [apply user_bytes_nil|].
      rewrite Hlen. rewrite Hk' in Hrest. by rewrite Z2Nat.id by lia.
    + replace (srcva + Z.of_nat (Z.to_nat k + length rest)) with (srcva + k + Z.of_nat (length rest)) by lia.
      destruct Hk' as [[-> Hkm]|Hk'].
      * destruct Hor as [(_ & ? & _)|(Hrun & Hor)]; [simpl in *; lia|].
        rewrite (bind_ok _ _ _ _ _ Hrun). right. split; [done|left].
        simpl in *. lia.
      * rewrite Hk' in Hor. destruct Hor as [(Hrun & Hlt & Hz)|(Hrun & Hor)]; rewrite Hk';
          rewrite (bind_ok _ _ _ _ _ Hrun); [left|right].
        -- cbn [ret]. rewrite app_assoc. split_and!; [done|lia|done].
        -- split; [done|]. destruct Hor as [?|[? ?]]; [left; lia|right; split; [lia|done]].
Qed.

(** C28: [copyout] writes the given bytes to the user's memory and nothing else:
    it returns 0 when every page of the destination is accessible to the user,
    and then the user sees the bytes there and its old memory elsewhere; it
    returns -1 exactly at the first byte that is not accessible, with the bytes
    before it written.  Page tables, the address space and all memory outside
    of the user's pages are unchanged. *)
Theorem copyout_spec s root pg l um dstva src :
  uspace s root pg l um -> 0 <= dstva -> is_bytes src ->
  exists r m' k, copyout root dstva src s = Ok r (set_mem m' s) /\
    uspace (set_mem m' s) root pg l um /\ user_only um (mem s) m' /\
    (r = 0 /\ k = Z.of_nat (length src) \/
     r = -1 /\ 0 <= k < Z.of_nat (length src) /\ uget (mem s) um (dstva + k) = None) /\
    forall va, uget m' um va = copied (uget (mem s) um) dstva k src va.
Proof. intros. by apply copyout_loop_ok. Qed.

(** What [copyout] has put into user memory [copyin] gets back: if the copy out
    succeeds, copying in the same range succeeds and yields the same bytes. *)
Theorem copyout_copyin s root pg l um va src :
  uspace s root pg l um -> 0 <= va -> is_bytes src ->
  exists r m', copyout root va src s = Ok r (set_mem m' s) /\
    (r = 0 -> copyin root va (Z.of_nat (length src)) (set_mem m' s) = Ok (0, src) (set_mem m' s)).
Proof.
  intros Hu H0 Hb.
  destruct (copyout_loop_ok (length src) root pg l um src va s Hu H0 ltac:(lia) Hb)
    as (r & m' & k & Hrun & Hu' & _ & Hr & Hget).
  exists r, m'. split; [exact Hrun|]. intros ->. destruct Hr as [[_ ->]|[? _]]; [|done].
  unfold copyin. rewrite Nat2Z.id.
  destruct (copyin_loop_ok (length src) root pg l um (set_mem m' s) Hu' va (Z.of_nat (length src)))
    as (r & bytes & Hin & Hor & Hbytes); [done|lia|].
  cbn [mem set_mem] in *. rewrite Hin.
  assert (Hat : forall i, (i < length src)%nat -> uget m' um (va + Z.of_nat i) = src !! i).
  { intros i Hi. rewrite Hget. unfold copied. rewrite decide_True by lia. f_equal. lia. }
  assert (Hlen : length bytes = length src /\ r = 0).
  { destruct Hor as [[-> ?]|(_ & Hlt & Hnone)]; [split; [lia|done]|].
    rewrite Hat in Hnone by lia. apply lookup_ge_None in Hnone. lia. }
  destruct Hlen as [Hlen ->]. do 2 f_equal. apply list_eq. intros i.
  destruct (decide (i < length src)%nat) as [Hi|Hi].
  - rewrite <- Hbytes by lia. by apply Hat.
  - rewrite !lookup_ge_None_2 by lia. done.
Qed.

(** [copyinstr] fetches the string at a user address: it returns 0 with the
    characters up to and including the terminator when the user has one within
    [max] bytes, and -1 when the first [max] bytes have no terminator or run
    into an inaccessible page; it never reads past either and changes nothing. *)
Theorem copyinstr_spec s root pg l um srcva max :
  uspace s root pg l um -> 0 <= srcva ->
  exists str, (0 ∉ str) /\ user_bytes (mem s) um srcva str /\
    let len := Z.of_nat (length str) in
    (copyinstr root srcva max s = Ok (0, str ++ [0]) s /\ len < max /\
       uget (mem s) um (srcva + len) = Some 0 \/
     copyinstr root srcva max s = Ok (-1, str) s /\
       (len = Z.max 0 max \/ len < max /\ uget (mem s) um (srcva + len) = None)).
Proof. intros Hu H0. apply copyinstr_loop_ok with pg l; [done|done|lia]. Qed.
End Uspace.
