(* ===== verification/UvmAlloc.v ===== *)
(** * Growing, shrinking, copying and freeing address spaces

    [uvmunmap], [uvmalloc], [uvmdealloc], [uvmcopy] and [uvmfree] of
    [kernel/vm.c] on the address spaces of [Uvm.v]: what the user sees, which
    pages move between the address space and the free list, and that failures
    undo what was done. *)

From stdpp Require Import gmap strings list fin_maps.
From S2P Require Import Prelude Layout State Sched Cstring Kalloc Vm VmFacts Uvm.

Section UvmAlloc.
Context `{Build}.
Hypothesis Hlink : linked.

(** The entries above the user's part, the trapframe and the trampoline, are the same. *)
Definition high_same (m : gmap Z Z) (pg : gmap (list Z) Z) (m' : gmap Z Z) (pg' : gmap (list Z) Z) : Prop :=
  forall u, UPAGES <= u < VPAGES -> leaf m' pg' (u * PGSIZE) = leaf m pg (u * PGSIZE).

Lemma high_same_trans m1 pg1 m2 pg2 m3 pg3 :
  high_same m1 pg1 m2 pg2 -> high_same m2 pg2 m3 pg3 -> high_same m1 pg1 m3 pg3.
Proof. intros H1 H2 u Hu. rewrite (H2 u Hu). by apply H1. Qed.

(** A page that belongs to nobody: not free, not a table, not a user page. *)
Definition fresh_page (pg : gmap (list Z) Z) (l : list Z) (um : gmap Z (Z * Z)) (pa : Z) : Prop :=
  page_ok pa /\ (pa ∉ l) /\ (forall p, pg !! p <> Some pa) /\ (forall v fl, um !! v <> Some (pa, fl)).

(** Taking a free page. *)
Lemma uspace_kalloc s root pg l um q :
  uspace s root pg (q :: l) um -> LkKmem ∉ held s ->
  exists s', kalloc s = Ok q s' /\ mem_only s s' /\ uspace s' root pg l um /\
    fresh_page pg l um q /\ q <> 0 /\
    (forall x, ~ in_page q x -> ldb (mem s') x = ldb (mem s) x).
Proof.
  intros Hu Hh. pose proof (us_tables _ _ _ _ _ Hu) as Ht.
  destruct (tables_kalloc Hlink s root pg l q Ht Hh)
    as (s' & Hk & Hmo & Ht' & Hq & Hnin & Hne & H0 & Hm).
  exists s'. split; [done|]. split; [done|]. split.
  - eapply uspace_frame; [done|apply Ht'|set_solver|].
    intros p a x Hp Hx. apply Hm. apply (page_apart a q x); eauto using pt_page, tables_pt.
  - unfold fresh_page. split_and!; try done.
    + intros p Hp. by apply (Hne p q).
    + intros v fl E. apply (us_free _ _ _ _ _ Hu v q fl E). set_solver.
Qed.

(** Writing to a fresh page. *)
Lemma uspace_fresh s root pg l um pa m :
  uspace s root pg l um -> fresh_page pg l um pa ->
  (forall x, ~ in_page pa x -> ldb m x = ldb (mem s) x) ->
  uspace (set_mem m s) root pg l um /\ upages_same um (mem s) m.
Proof.
  intros Hu (Hpa & Hl & Hp & Hv) Hm. split.
  - eapply uspace_frame; [done| |done|].
    + eapply (free_list_frame s _ l pa); [apply Hu|reflexivity|apply Hpa|done|done].
    + intros p a x Ep Hx. apply Hm. apply (page_apart a pa x); [|done| |done].
      * by eapply pt_page; [apply Hu|].
      * intros ->. by apply (Hp p).
  - intros v a fl x E Hx. apply Hm. apply (page_apart a pa x); [|done| |done].
    + by apply (us_leaf _ _ _ _ _ Hu v a fl).
    + intros ->. by apply (Hv v fl).
Qed.

(** Giving a page back. *)
Lemma uspace_kfree s root pg l um pa :
  uspace s root pg l um -> fresh_page pg l um pa -> LkKmem ∉ held s ->
  exists s', kfree pa s = Ok tt s' /\ mem_only s s' /\ uspace s' root pg (pa :: l) um /\
    (forall x, ~ in_page pa x -> ldb (mem s') x = ldb (mem s) x).
Proof.
  intros Hu Hfr Hh. pose proof Hfr as (Hpa & Hl & Hp & Hv).
  destruct (kfree_ok pa s l Hlink (tables_free _ _ _ _ (us_tables _ _ _ _ _ Hu)) Hpa Hl Hh)
    as (s' & Hk & Hmo & Hf & Hm).
  exists s'. split; [done|]. split; [done|]. split; [|done].
  destruct (uspace_fresh s root pg l um pa (mem s') Hu Hfr Hm) as [[[A1 A2 A3] B C D E F G] _].
  cbn [mem set_mem] in *. constructor; try done.
  - constructor; [done|done|]. intros p a Ep. rewrite not_elem_of_cons. split; [|eauto].
    intros ->. by apply (Hp p).
  - intros v a fl E'. rewrite not_elem_of_cons. split; [|eauto]. intros ->. by apply (Hv v fl).
Qed.

(** *** Mapping one page *)

(** Pages that are not free and not tables are not touched by growing tables. *)
Lemma grows_page root s pg l s' pg' l' b x :
  tables s root pg l -> grows root s pg l s' pg' l' ->
  page_ok b -> (b ∉ l) -> (forall p, pg !! p <> Some b) -> in_page b x ->
  ldb (mem s') x = ldb (mem s) x.
Proof.
  intros Ht [_ _ _ _ G6] Hb Hbl Hbp Hx. apply G6.
  - intros p a Ep. apply (page_apart b a x); [done|by eapply pt_page; [apply Ht|]| |done].
    intros ->. by apply (Hbp p).
  - intros q Hq. apply (page_apart b q x); [done| |by intros ->|done].
    destruct (tables_free _ _ _ _ Ht) as (_ & _ & Hok). rewrite Forall_forall in Hok. auto.
Qed.

Lemma grows_fresh root s pg l s' pg' l' um pa :
  grows root s pg l s' pg' l' -> fresh_page pg l um pa -> fresh_page pg' l' um pa.
Proof.
  intros [_ _ G3 (used & G4 & G5) _] (Hpa & Hpl & Hpp & Hpu). split_and!; [done| | |done].
  - intros Hin. apply Hpl. rewrite G4, elem_of_app. by right.
  - intros p Ep. destruct (pg !! p) as [a|] eqn:Ep0.
    + rewrite (lookup_weaken _ _ _ _ Ep0 G3) in Ep. injection Ep as ->. by apply (Hpp p).
    + apply Hpl. rewrite G4, elem_of_app. left. rewrite G5. eauto.
Qed.

(** A new entry for a fresh page, after growing the tables. *)
Lemma uspace_insert s root pg l um v pa fl s' pg' l' :
  uspace s root pg l um -> grows root s pg l s' pg' l' -> fresh_page pg' l' um pa ->
  0 <= v < UPAGES -> leaf_flags fl ->
  (forall u, 0 <= u < VPAGES -> leaf (mem s') pg' (u * PGSIZE) =
     if decide (u = v) then pte_of pa fl else leaf (mem s) pg (u * PGSIZE)) ->
  uspace s' root pg' l' (<[v := (pa, fl)]> um).
Proof.
  intros [Ht Hl Hn Hhi Hinj Htab Hfree] [_ G2 G3 (used & G4 & G5) _] (Hpa & Hpl & Hpp & Hpu) Hv Hfl Hlf.
  constructor; try done.
  - intros u a fl'. rewrite lookup_insert. case_decide as Eu.
    + intros [= <- <-]. subst u. rewrite Hlf, decide_True by (done || lia). done.
    + intros E. destruct (Hl u a fl' E) as (? & ? & ? & ?).
      rewrite Hlf, decide_False by (done || lia). done.
  - intros u. rewrite lookup_insert. case_decide; [done|]. intros E Hur.
    rewrite Hlf, decide_False by (done || lia). eauto.
  - intros u Hur. rewrite Hlf, decide_False by lia. eauto.
  - intros u u' a f1 f2. rewrite !lookup_insert. repeat case_decide; subst; try done.
    + intros [= <- <-] E. by apply Hpu in E.
    + intros E [= <- <-]. by apply Hpu in E.
    + apply Hinj.
  - intros u a f1 p. rewrite lookup_insert. case_decide; [intros [= <- <-]; apply Hpp|].
    intros E Ep. destruct (pg !! p) as [b|] eqn:Ep0.
    + rewrite (lookup_weaken _ _ _ _ Ep0 G3) in Ep. injection Ep as ->. by eapply Htab.
    + eapply (Hfree u a f1 E). rewrite G4, elem_of_app. left. rewrite G5. eauto.
  - intros u a f1. rewrite lookup_insert. case_decide; [by intros [= <- <-]|].
    intros E Hin. apply (Hfree u a f1 E). rewrite G4, elem_of_app. by right.
Qed.

Lemma uvm_map_page s root pg l um v pa perm :
  uspace s root pg l um -> LkKmem ∉ held s -> fresh_page pg l um pa ->
  um !! v = None -> 0 <= v < UPAGES -> 0 <= perm < 1024 -> leaf_flags (Z.lor perm PTE_V) ->
  exists r s' pg' l', mappages root (v * PGSIZE) PGSIZE pa perm s = Ok r s' /\
    grows root s pg l s' pg' l' /\ upages_same um (mem s) (mem s') /\
    (forall x, in_page pa x -> ldb (mem s') x = ldb (mem s) x) /\
    high_same (mem s) pg (mem s') pg' /\
    (r = 0 /\ uspace s' root pg' l' (<[v := (pa, Z.lor perm PTE_V)]> um) /\
       (length l <= length l' + 2)%nat \/
     r = -1 /\ l' = [] /\ uspace s' root pg' l' um /\ fresh_page pg' l' um pa /\ (length l <= 1)%nat).
Proof.
  intros Hu Hh Hfr Hv Hvr Hperm Hfl. pose proof Hfr as (Hpa & Hpl & Hpp & Hpu).
  pose proof Hu as [Ht Hl Hn Hhi Hinj Htab Hfree].
  assert (Hpar : 0 <= pa < 2 ^ 40) by (destruct Hpa; unfold linked in *; lia).
  destruct (mappages_ok Hlink s root pg l (v * PGSIZE) 1 pa perm)
    as (r & s' & pg' & l' & k & Hrun & Hg & Hk & Hlf); try done; try lia.
  { apply Z.mod_mul. lia. }
  { intros va Hva. replace (leaf (mem s) pg va) with (leaf (mem s) pg (v * PGSIZE));
      [by apply Hn|]. unfold leaf.
    destruct (proj2 (PX_same_page (v * PGSIZE) va ltac:(lia) ltac:(lia))) as (-> & -> & ->);
      [Z.div_mod_to_equations; lia|done]. }
  rewrite Z.mul_1_l in Hrun. exists r, s', pg', l'. split; [done|]. split; [done|].
  split; [intros u a fl x E; eapply grows_page;
    [done|done|by eapply Hl|by eapply Hfree|by intros; eapply Htab]|].
  split; [intros x; by eapply grows_page|].
  split; [intros u Hur; rewrite Hlf by lia; unfold map_range; by rewrite decide_False by lia|].
  pose proof (grows_fresh _ _ _ _ _ _ _ _ _ Hg Hfr) as Hfr'.
  destruct Hk as [(-> & -> & Hlen)|(-> & -> & Hk & Hlen)]; [left|right]; (split; [done|]).
  - split; [|lia]. apply (uspace_insert s root pg l); try done.
    intros u Hur. rewrite Hlf by lia. unfold map_range. rewrite PGROUNDDOWN_spec, Z.div_mul by lia.
    repeat case_decide; try lia. f_equal. lia.
  - split; [done|]. split; [|split; [done|lia]]. eapply uspace_grows; [done|done|].
    intros va Hva. rewrite Hlf by done. unfold map_range. by rewrite decide_False by lia.
Qed.

(** ** [uvmunmap] with [do_free] *)

(** Without the pages [v .. v + k). *)
Definition drop_range (v k : Z) (um : gmap Z (Z * Z)) : gmap Z (Z * Z) :=
  filter (fun e => ~ (v <= e.1 < v + k)) um.

Lemma lookup_drop_range v k um u :
  drop_range v k um !! u = if decide (v <= u < v + k) then None else um !! u.
Proof.
  apply option_eq. intros e. unfold drop_range. rewrite map_lookup_filter_Some. simpl.
  case_decide; [|tauto]. split; [tauto|done].
Qed.

Lemma drop_range_0 v um : drop_range v 0 um = um.
Proof. apply map_eq. intros u. rewrite lookup_drop_range. by rewrite decide_False by lia. Qed.

Lemma drop_range_step v k um :
  0 <= k -> drop_range (v + 1) k (delete v um) = drop_range v (k + 1) um.
Proof.
  intros. apply map_eq. intros u. rewrite !lookup_drop_range, lookup_delete.
  repeat case_decide; done || lia.
Qed.

(** Bytes outside of the tables and of the given user pages are untouched. *)
Definition outside (pg : gmap (list Z) Z) (um : gmap Z (Z * Z)) (x : Z) : Prop :=
  (forall p a, pg !! p = Some a -> ~ in_page a x) /\
  (forall v pa fl, um !! v = Some (pa, fl) -> ~ in_page pa x).

Lemma uspace_remove s root pg l um v pa fl t :
  uspace s root pg l um -> um !! v = Some (pa, fl) ->
  pg !! [PX 2 (v * PGSIZE); PX 1 (v * PGSIZE)] = Some t ->
  uspace (set_mem (st64 (mem s) (pte_addr t (PX 0 (v * PGSIZE))) 0) s) root pg l (delete v um).
Proof.
  intros [Ht Hl Hn Hhi Hinj Htab Hfree] E Hpg. destruct (Hl v pa fl E) as (Hv & _).
  pose proof (tables_store s root pg l (v * PGSIZE) t 0 Ht Hpg) as Hg.
  assert (Hlf : forall u, 0 <= u < VPAGES ->
    leaf (st64 (mem s) (pte_addr t (PX 0 (v * PGSIZE))) 0) pg (u * PGSIZE) =
    if decide (u = v) then 0 else leaf (mem s) pg (u * PGSIZE)).
  { intros u Hu. rewrite (leaf_store _ root) by (done || lia || apply Ht).
    rewrite !Z.div_mul by lia. repeat case_decide; done || lia. }
  constructor; cbn [mem set_mem]; [apply Hg| | | | | |].
  - intros u a f. rewrite lookup_delete. case_decide; [done|]. intros Eu.
    destruct (Hl u a f Eu) as (? & ? & ? & ?). rewrite Hlf, decide_False by (done || lia). done.
  - intros u. rewrite lookup_delete. case_decide.
    + intros _ Hu. subst. rewrite Hlf, decide_True by (done || lia). done.
    + intros Eu Hu. rewrite Hlf, decide_False by (done || lia). eauto.
  - intros u Hu. rewrite Hlf, decide_False by lia. eauto.
  - intros u u' a f1 f2. rewrite !lookup_delete. repeat case_decide; try done. apply Hinj.
  - intros u a f p. rewrite lookup_delete. case_decide; [done|]. apply Htab.
  - intros u a f. rewrite lookup_delete. case_decide; [done|]. apply Hfree.
Qed.

Lemma uspace_walk s root pg l um v pa fl :
  uspace s root pg l um -> um !! v = Some (pa, fl) ->
  exists t, pg !! [PX 2 (v * PGSIZE); PX 1 (v * PGSIZE)] = Some t /\
    walk root (v * PGSIZE) false s = Ok (Some (pte_addr t (PX 0 (v * PGSIZE)))) s /\
    ld64 (mem s) (pte_addr t (PX 0 (v * PGSIZE))) = pte_of pa fl.
Proof.
  intros Hu E. destruct (us_leaf _ _ _ _ _ Hu v pa fl E) as (Hv & Hpa & (Hfl & HV & _) & Hlf).
  rewrite (walk_ok Hlink s root pg) by (apply Hu || lia). unfold leaf in Hlf.
  destruct (pg !! [PX 2 (v * PGSIZE); PX 1 (v * PGSIZE)]) as [t|]; [by exists t|].
  exfalso. pose proof (flag_of Hlink pa fl PTE_V Hpa Hfl ltac:(lia)) as Hf. rewrite <- Hlf in Hf.
  destruct (Z.eqb_spec (Z.land fl PTE_V) 0); [done|]. by vm_compute in Hf.
Qed.

Lemma leaf_flags_not_V pa fl :
  page_ok pa -> leaf_flags fl -> (PTE_FLAGS (pte_of pa fl) =? PTE_V) = false.
Proof.
  intros [_ Hpa] (Hfl & _ & Hrwx). unfold pte_of.
  rewrite PTE_FLAGS_PA2PTE by (unfold linked in *; lia).
  destruct (Z.eqb_spec fl PTE_V) as [->|]; [|done]. by destruct Hrwx.
Qed.

Lemma unmap_high s root pg l um v pa fl t m :
  uspace s root pg l um -> um !! v = Some (pa, fl) ->
  pg !! [PX 2 (v * PGSIZE); PX 1 (v * PGSIZE)] = Some t ->
  (forall x, ~ in_page pa x -> ldb m x = ldb (mem s) x) ->
  high_same (mem s) pg (st64 m (pte_addr t (PX 0 (v * PGSIZE))) 0) pg.
Proof.
  intros Hu E Hpg Hm u Hur. destruct (us_leaf _ _ _ _ _ Hu v pa fl E) as (Hv & Hpa & _).
  assert (Hsame : forall p a x, pg !! p = Some a -> in_page a x -> ldb m x = ldb (mem s) x).
  { intros p a x Hp Hx. apply Hm. apply (page_apart a pa x); [|done| |done].
    - by eapply pt_page; [apply Hu|].
    - intros ->. by apply (us_table _ _ _ _ _ Hu v pa fl p E). }
  rewrite (leaf_store m root) by (done || lia || (eapply pt_ext; [apply Hu|eauto])).
  rewrite !Z.div_mul by lia. rewrite decide_False by lia. apply leaf_ext. eauto.
Qed.

Lemma unmap_entry s root pg l um v pa fl :
  uspace s root pg l um -> LkKmem ∉ held s -> um !! v = Some (pa, fl) ->
  exists t s', pg !! [PX 2 (v * PGSIZE); PX 1 (v * PGSIZE)] = Some t /\
    (kfree pa ;; st (pte_addr t (PX 0 (v * PGSIZE))) 0) s = Ok tt s' /\ mem_only s s' /\
    uspace s' root pg (pa :: l) (delete v um) /\ high_same (mem s) pg (mem s') pg /\
    (forall x, (forall p a, pg !! p = Some a -> ~ in_page a x) -> ~ in_page pa x ->
       ldb (mem s') x = ldb (mem s) x).
Proof.
  intros Hu Hh E. destruct (uspace_walk s root pg l um v pa fl Hu E) as (t & Hpg & _ & _).
  destruct (us_leaf _ _ _ _ _ Hu v pa fl E) as (Hv & Hpa & _).
  assert (Htok : page_ok t) by (by eapply pt_page; [apply Hu|]).
  pose proof (uspace_remove s root pg l um v pa fl t Hu E Hpg) as Hu1.
  set (s1 := set_mem _ s) in Hu1.
  assert (Hfr : fresh_page pg l (delete v um) pa).
  { split_and!; [done|by apply (us_free _ _ _ _ _ Hu v pa fl)| |].
    { intros p Ep. by apply (us_table _ _ _ _ _ Hu v pa fl p E). }
    intros u f. rewrite lookup_delete. case_decide as Hne; [done|]. intros Eu.
    by apply Hne, (us_inj _ _ _ _ _ Hu v u pa fl f). }
  assert (Htpa : t <> pa) by (intros ->; by eapply (us_table _ _ _ _ _ Hu v pa fl _ E)).
  (* free first, as the code does *)
  destruct (kfree_ok pa s l Hlink (tables_free _ _ _ _ (us_tables _ _ _ _ _ Hu)) Hpa) as (s2 & Hk & Hmo & Hf & Hm);
    [by apply (us_free _ _ _ _ _ Hu v pa fl)|done|].
  exists t, (set_mem (st64 (mem s2) (pte_addr t (PX 0 (v * PGSIZE))) 0) s2).
  split; [done|]. split; [by rewrite (bind_ok _ _ _ _ _ Hk)|].
  split; [by eapply mem_only_trans; [|apply mem_only_set_mem]|].
  assert (Hm' : forall x, ~ in_page pa x ->
    ldb (st64 (mem s2) (pte_addr t (PX 0 (v * PGSIZE))) 0) x = ldb (mem s1) x).
  { intros x Hx. unfold s1. cbn [mem set_mem].
    by apply ldb_st64_cong, Hm. }
  split.
  - destruct (uspace_fresh s1 root pg l (delete v um) pa _ Hu1 Hfr Hm') as [[[A1 A2 A3] B C D E' F G] _].
    cbn [mem set_mem] in *. constructor; try done.
    + constructor; [done| |].
      * eapply (free_list_frame s2 _ (pa :: l) t); [done|reflexivity|apply Htok| |].
        -- rewrite not_elem_of_cons. split; [done|]. by eapply A3.
        -- intros x Hx. apply st64_page; [apply PX_range|done].
      * intros p a Ep. rewrite not_elem_of_cons. split; [|eauto]. intros ->.
        by apply (us_table _ _ _ _ _ Hu v pa fl p E).
    + intros u a f Eu. rewrite not_elem_of_cons. split; [|eauto]. intros ->.
      by apply (proj2 (proj2 (proj2 Hfr)) u f).
  - split; [by eapply unmap_high|].
    intros x Hx1 Hx2. cbn [mem set_mem]. rewrite st64_page; [by apply Hm|apply PX_range|by eapply Hx1].
Qed.

(** From [(s, l)] to [(s', l')] the user pages [v .. v + k) went to the free list. *)
Definition shrunk (root : Z) (pg : gmap (list Z) Z) (s : kstate) (l : list Z)
    (um : gmap Z (Z * Z)) (v k : Z) (s' : kstate) (l' : list Z) : Prop :=
  mem_only s s' /\ uspace s' root pg l' (drop_range v k um) /\ high_same (mem s) pg (mem s') pg /\
  (forall q, q ∈ l' <-> q ∈ l \/ exists u fl, v <= u < v + k /\ um !! u = Some (q, fl)) /\
  (forall x, (forall p a, pg !! p = Some a -> ~ in_page a x) ->
     (forall u pa fl, v <= u < v + k -> um !! u = Some (pa, fl) -> ~ in_page pa x) ->
     ldb (mem s') x = ldb (mem s) x).

Lemma shrunk_none root pg s l um v k :
  uspace s root pg l um -> k <= 0 -> shrunk root pg s l um v k s l.
Proof.
  intros Hu Hk. split_and!; [apply mem_only_refl| |done| |done].
  - replace (drop_range v k um) with um; [done|]. apply map_eq. intros u.
    rewrite lookup_drop_range. by rewrite decide_False by lia.
  - intros q. split; [by left|]. intros [?|(u & fl & ? & _)]; [done|lia].
Qed.

Lemma uvmunmap_loop_ok n root pg :
  forall v k s l um,
  uspace s root pg l um -> LkKmem ∉ held s -> 0 <= k <= Z.of_nat n ->
  (forall u, v <= u < v + k -> is_Some (um !! u)) ->
  exists s' l', uvmunmap_loop n root (v * PGSIZE) ((v + k) * PGSIZE) true s = Ok tt s' /\
    shrunk root pg s l um v k s' l'.
Proof.
  induction n as [|n IH]; intros v k s l um Hu Hh Hk Hall; cbn [uvmunmap_loop];
    destruct (Z.ltb_spec (v * PGSIZE) ((v + k) * PGSIZE)) as [Hlt|Hge]; try lia.
  1,3: exists s, l; split; [done|]; apply shrunk_none; [done|lia].
  destruct (Hall v ltac:(lia)) as [[pa fl] E].
  destruct (us_leaf _ _ _ _ _ Hu v pa fl E) as (Hv & Hpa & Hfl & _).
  destruct (uspace_walk s root pg l um v pa fl Hu E) as (t & Hpg & Hw & Hld).
  mstep Hw. cbn [bind ld gets obind]. rewrite Hld.
  rewrite (flag_of Hlink) by (done || (destruct Hfl; lia)).
  destruct (Z.eqb_spec (Z.land fl PTE_V) 0); [by destruct Hfl as (_ & ? & _)|]. cbn [negb].
  rewrite leaf_flags_not_V by done. rewrite (PTE2PA_pte_of pa fl) by (done || (destruct Hfl; lia)).
  cbn [when].
  destruct (unmap_entry s root pg l um v pa fl Hu Hh E) as (t' & s1 & Hpg' & Hrun & Hmo & Hu1 & Hhi1 & Hm1).
  rewrite Hpg in Hpg'. injection Hpg' as <-. unfold bind in Hrun.
  destruct (kfree pa s) as [[] sk| | | |] eqn:Ek; cbn [obind] in Hrun; try done.
  unfold bind. rewrite Ek. cbn [obind]. rewrite Hrun. cbn [obind].
  destruct (IH (v + 1) (k - 1) s1 (pa :: l) (delete v um)) as (s' & l' & Hr & Hmo' & Hu' & Hhi' & Hl' & Hm').
  { done. }
  { by rewrite (mem_only_held _ _ Hmo). }
  { lia. }
  { intros u Hu2. rewrite lookup_delete_ne by lia. apply Hall. lia. }
  exists s', l'. unfold shrunk. split_and!.
  - rewrite <- Hr. f_equal; lia.
  - by eapply mem_only_trans.
  - rewrite drop_range_step in Hu' by lia. by replace (k - 1 + 1) with k in Hu' by lia.
  - by eapply high_same_trans.
  - intros q. rewrite Hl', elem_of_cons. split.
    + intros [[->|?]|(u & f & Hu2 & Eu)]; [right; exists v, fl; split; [lia|done]|by left|].
      rewrite lookup_delete_ne in Eu by lia. right. exists u, f. split; [lia|done].
    + intros [?|(u & f & Hu2 & Eu)]; [by left; right|].
      destruct (decide (u = v)) as [->|Hne]; [left; left; congruence|].
      right. exists u, f. rewrite lookup_delete_ne by lia. split; [lia|done].
  - intros x H1 H2. rewrite Hm', Hm1; [done|done| |done|].
    + apply (H2 v pa fl); [lia|done].
    + intros u a f Hur. rewrite lookup_delete_ne by lia. apply H2. lia.
Qed.

(** [uvmunmap] of pages that are all mapped. *)
Lemma uvmunmap_ok s root pg l um v k :
  uspace s root pg l um -> LkKmem ∉ held s -> 0 <= v -> 0 <= k -> v + k <= UPAGES ->
  (forall u, v <= u < v + k -> is_Some (um !! u)) ->
  exists s' l', uvmunmap root (v * PGSIZE) k true s = Ok tt s' /\
    shrunk root pg s l um v k s' l'.
Proof.
  intros Hu Hh Hv Hk Hmax Hall. unfold uvmunmap. rewrite Z.mod_mul by lia. cbn [Z.eqb negb].
  rewrite u64_small by lia. replace (v * PGSIZE + k * PGSIZE) with ((v + k) * PGSIZE) by lia.
  apply uvmunmap_loop_ok; try done. lia.
Qed.

(** ** Sizes

    A process of size [sz] has exactly the pages below [sz] mapped. *)
Definition npages (sz : Z) : Z := (sz + PGSIZE - 1) / PGSIZE.

Definition sized (um : gmap Z (Z * Z)) (sz : Z) : Prop :=
  forall v, is_Some (um !! v) <-> 0 <= v < npages sz.

Lemma PGROUNDUP_npages sz : 0 <= sz <= MAXVA -> PGROUNDUP sz = npages sz * PGSIZE.
Proof. intros. rewrite PGROUNDUP_spec by lia. unfold npages. lia. Qed.

Lemma npages_mono a b : a <= b -> npages a <= npages b.
Proof. intros. unfold npages. Z.div_mod_to_equations. lia. Qed.

Lemma npages_nonneg a : 0 <= a -> 0 <= npages a.
Proof. intros. unfold npages. Z.div_mod_to_equations. lia. Qed.

Lemma npages_pages k : npages (k * PGSIZE) = k.
Proof. unfold npages. Z.div_mod_to_equations. lia. Qed.

Lemma drop_range_sized um oldsz newsz :
  sized um oldsz -> 0 <= newsz <= oldsz ->
  sized (drop_range (npages newsz) (npages oldsz - npages newsz) um) newsz.
Proof.
  intros Hs Hr v. rewrite lookup_drop_range. pose proof (npages_mono newsz oldsz).
  case_decide as Hd.
  - split; [by intros []|lia].
  - rewrite (Hs v). lia.
Qed.

Lemma uvmdealloc_ok s root pg l um oldsz newsz :
  uspace s root pg l um -> LkKmem ∉ held s -> sized um oldsz ->
  0 <= newsz -> 0 <= oldsz <= UPAGES * PGSIZE ->
  exists s' l', uvmdealloc root oldsz newsz s = Ok (Z.min oldsz newsz) s' /\
    shrunk root pg s l um (npages newsz) (npages oldsz - npages newsz) s' l'.
Proof.
  intros Hu Hh Hs Hnew Hold. unfold uvmdealloc.
  destruct (Z.leb_spec oldsz newsz) as [Hle|Hgt].
  { exists s, l. rewrite Z.min_l by lia. split; [done|]. apply shrunk_none; [done|].
    pose proof (npages_mono oldsz newsz Hle). lia. }
  rewrite Z.min_r by lia. rewrite !PGROUNDUP_npages by lia.
  pose proof (npages_mono newsz oldsz ltac:(lia)). pose proof (npages_nonneg newsz ltac:(lia)).
  assert (npages oldsz <= UPAGES) by (unfold npages; Z.div_mod_to_equations; lia).
  destruct (Z.ltb_spec (npages newsz * PGSIZE) (npages oldsz * PGSIZE)) as [Hlt|Hge].
  2: { exists s, l. split; [done|]. apply shrunk_none; [done|lia]. }
  cbn [when]. rewrite <- Z.mul_sub_distr_r, Z.div_mul by lia. rewrite s32_small, u64_small by lia.
  destruct (uvmunmap_ok s root pg l um (npages newsz) (npages oldsz - npages newsz))
    as (s' & l' & Hrun & Hsh); try done; try lia.
  { intros u Hur. apply Hs. lia. }
  unfold bind. rewrite Hrun. by exists s', l'.
Qed.

(** ** Growing an address space

    From [(s, pg, l, um)] to [(s', pg', l', um')] pages moved from the free list
    to the tables and to the user; the user's old pages, and all memory that was
    neither free nor a table, are as before. *)
Record ugrows (root : Z) (s : kstate) (pg : gmap (list Z) Z) (l : list Z) (um : gmap Z (Z * Z))
    (s' : kstate) (pg' : gmap (list Z) Z) (l' : list Z) (um' : gmap Z (Z * Z)) : Prop := MkUgrows {
  ug_mem : mem_only s s';
  ug_space : uspace s' root pg' l' um';
  ug_tables : pg ⊆ pg';
  ug_pages : um ⊆ um';
  ug_high : high_same (mem s) pg (mem s') pg';
  ug_account : forall q, q ∈ l <->
    q ∈ l' \/ (exists p, pg' !! p = Some q /\ pg !! p = None) \/
    (exists v fl, um' !! v = Some (q, fl) /\ um !! v = None);
  ug_frame : forall x,
    (forall p a, pg !! p = Some a -> ~ in_page a x) -> (forall q, q ∈ l -> ~ in_page q x) ->
    ldb (mem s') x = ldb (mem s) x
}.

Lemma ugrows_refl root s pg l um : uspace s root pg l um -> ugrows root s pg l um s pg l um.
Proof.
  intros Hu. constructor; try done; [apply mem_only_refl|].
  intros q. split; [by left|]. intros [?|[(p & ? & ?)|(v & fl & ? & ?)]]; congruence.
Qed.

Lemma ugrows_trans root s1 pg1 l1 um1 s2 pg2 l2 um2 s3 pg3 l3 um3 :
  ugrows root s1 pg1 l1 um1 s2 pg2 l2 um2 -> ugrows root s2 pg2 l2 um2 s3 pg3 l3 um3 ->
  ugrows root s1 pg1 l1 um1 s3 pg3 l3 um3.
Proof.
  intros [A1 A2 A3 A4 A4' A5 A6] [B1 B2 B3 B4 B4' B5 B6]. constructor.
  - by eapply mem_only_trans.
  - done.
  - by etransitivity.
  - by etransitivity.
  - by eapply high_same_trans.
  - intros q. rewrite A5, B5. split.
    + intros [[?|[(p & H1 & H2)|(v & fl & H1 & H2)]]|[(p & H1 & H2)|(v & fl & H1 & H2)]].
      * by left.
      * right. left. exists p. split; [done|]. by eapply lookup_weaken_None.
      * right. right. exists v, fl. split; [done|]. by eapply lookup_weaken_None.
      * right. left. exists p. split; [by eapply lookup_weaken|done].
      * right. right. exists v, fl. split; [by eapply lookup_weaken|done].
    + intros [?|[(p & H1 & H2)|(v & fl & H1 & H2)]].
      * by left; left.
      * destruct (pg2 !! p) as [q'|] eqn:E.
        -- pose proof (lookup_weaken _ _ _ _ E B3) as E'. rewrite H1 in E'. injection E' as <-.
           right. left. by exists p.
        -- left. right. left. by exists p.
      * destruct (um2 !! v) as [e|] eqn:E.
        -- pose proof (lookup_weaken _ _ _ _ E B4) as E'. rewrite H1 in E'. injection E' as <-.
           right. right. by exists v, fl.
        -- left. right. right. by exists v, fl.
  - intros x H1 H2. rewrite B6, A6; [done|done|done| |].
    + intros p a Hp. destruct (pg1 !! p) as [a'|] eqn:E.
      * pose proof (lookup_weaken _ _ _ _ E A3) as E'. rewrite Hp in E'. injection E' as ->.
        by apply (H1 p a').
      * apply H2. apply A5. right. left. by exists p.
    + intros q Hq. apply H2. apply A5. by left.
Qed.

(** The user's old pages are as before. *)
Lemma ugrows_same root s pg l um s' pg' l' um' :
  uspace s root pg l um -> ugrows root s pg l um s' pg' l' um' -> upages_same um (mem s) (mem s').
Proof.
  intros [Ht Hl _ _ _ Htab Hfree] [_ _ _ _ _ _ G6] v pa fl x E Hx.
  destruct (Hl v pa fl E) as (_ & Hpa & _). apply G6.
  - intros p a Hp. apply (page_apart pa a x); [done|by eapply pt_page; [apply Ht|]| |done].
    intros ->. by apply (Htab v a fl p).
  - intros q Hq. apply (page_apart pa q x); [done| | |done].
    + destruct (tables_free _ _ _ _ Ht) as (_ & _ & Hok). rewrite Forall_forall in Hok. auto.
    + intros ->. by apply (Hfree v q fl E).
Qed.

(** Undoing the growth of the user's pages. *)
Lemma ugrows_shrunk root s0 pg0 l0 um0 s pg l um v k s' l' :
  ugrows root s0 pg0 l0 um0 s pg l um -> shrunk root pg s l um v k s' l' ->
  drop_range v k um = um0 -> ugrows root s0 pg0 l0 um0 s' pg l' um0.
Proof.
  intros [A1 A2 A3 A4 A4' A5 A6] (B1 & B2 & B2' & B3 & B4) Hd. rewrite Hd in B2.
  assert (Hnew : forall u q fl, um !! u = Some (q, fl) ->
    (v <= u < v + k <-> um0 !! u = None)).
  { intros u q fl E. rewrite <- Hd, lookup_drop_range. case_decide; [done|].
    rewrite E. split; done. }
  constructor; try done.
  - by eapply mem_only_trans.
  - by eapply high_same_trans.
  - intros q. rewrite A5, B3. split.
    + intros [?|[?|(u & fl & E & E0)]]; [tauto|tauto|]. left. right. exists u, fl.
      split; [|done]. by eapply Hnew.
    + intros [[?|(u & fl & Hur & E)]|[?|(u & fl & E & E0)]]; [tauto| |tauto|congruence].
      right. right. exists u, fl. split; [done|]. by eapply Hnew.
  - intros x H1 H2. rewrite B4, A6; [done|done|done| |].
    + intros p a Hp. destruct (pg0 !! p) as [a'|] eqn:E.
      * pose proof (lookup_weaken _ _ _ _ E A3) as E'. rewrite Hp in E'. injection E' as ->.
        by apply (H1 p a').
      * apply H2. apply A5. right. left. by exists p.
    + intros u pa fl Hur E. apply H2. apply A5. right. right. exists u, fl.
      split; [done|]. by eapply Hnew.
Qed.

Lemma ugrows_held root s pg l um s' pg' l' um' :
  ugrows root s pg l um s' pg' l' um' -> held s' = held s.
Proof. intros []. by apply mem_only_held. Qed.

(** Allocating a page, filling it, and mapping it at page [v] of the user. *)
Lemma alloc_map_page s root pg q l um v perm :
  uspace s root pg (q :: l) um -> LkKmem ∉ held s ->
  um !! v = None -> 0 <= v < UPAGES -> 0 <= perm < 1024 -> leaf_flags (Z.lor perm PTE_V) ->
  exists s1, kalloc s = Ok q s1 /\ page_ok q /\ q <> 0 /\ upages_same um (mem s) (mem s1) /\
  uspace s1 root pg l um /\ mem_only s s1 /\
  (forall p a x, pg !! p = Some a -> in_page a x -> ldb (mem s1) x = ldb (mem s) x) /\
  (forall x, ~ in_page q x -> ldb (mem s1) x = ldb (mem s) x) /\
  forall m, (forall x, ~ in_page q x -> ldb m x = ldb (mem s1) x) ->
  exists r s3 pg' l', mappages root (v * PGSIZE) PGSIZE q perm (set_mem m s1) = Ok r s3 /\
    (r = 0 /\ (forall x, in_page q x -> ldb (mem s3) x = ldb m x) /\
       ugrows root s pg (q :: l) um s3 pg' l' (<[v := (q, Z.lor perm PTE_V)]> um) /\
       (length (q :: l) <= length l' + 3)%nat \/
     r = -1 /\ (length (q :: l) <= 2)%nat /\ exists s4, kfree q s3 = Ok tt s4 /\
       ugrows root s pg (q :: l) um s4 pg' [q] um).
Proof.
  intros Hu Hh Hv Hvr Hperm Hfl.
  destruct (uspace_kalloc s root pg l um q Hu Hh) as (s1 & Hk & Hmo1 & Hu1 & Hfr & H0 & Hm1).
  exists s1. split; [done|]. pose proof Hfr as (Hq & Hql & Hqp & Hqu).
  assert (Hsame : forall b x, page_ok b -> b <> q -> in_page b x -> ldb (mem s1) x = ldb (mem s) x).
  { intros b x Hb Hne Hx. apply Hm1. by apply (page_apart b q x). }
  split_and!; try done.
  { intros u a fl x E Hx. apply (Hsame a); [by eapply (us_leaf _ _ _ _ _ Hu)| |done].
    intros ->. by apply (Hqu u fl). }
  { intros p a x Ep Hx. apply (Hsame a); [by eapply pt_page; [apply Hu|]| |done].
    intros ->. by apply (Hqp p). }
  intros m Hm. destruct (uspace_fresh s1 root pg l um q m Hu1 Hfr Hm) as [Hu2 _].
  assert (Hh2 : LkKmem ∉ held (set_mem m s1)) by (cbn; by rewrite (mem_only_held _ _ Hmo1)).
  destruct (uvm_map_page (set_mem m s1) root pg l um v q perm Hu2 Hh2 Hfr Hv Hvr Hperm Hfl)
    as (r & s3 & pg' & l' & Hrun & Hg & _ & Hcont & Hhi & Hor).
  exists r, s3, pg', l'. split; [done|].
  pose proof Hg as [G1 G2 G3 (used & G4 & G5) G6]. cbn [mem set_mem] in *.
  assert (Hmo3 : mem_only s s3).
  { eapply mem_only_trans; [exact Hmo1|]. by eapply mem_only_trans; [apply mem_only_set_mem|]. }
  assert (Hframe : forall x, (forall p a, pg !! p = Some a -> ~ in_page a x) ->
    (forall b, b ∈ q :: l -> ~ in_page b x) -> ldb (mem s3) x = ldb (mem s) x).
  { intros x H1 H2. assert (~ in_page q x) by (apply H2; set_solver).
    rewrite G6, Hm, Hm1; try done. intros b Hb. apply H2. set_solver. }
  assert (Hhigh : high_same (mem s) pg (mem s3) pg').
  { eapply high_same_trans; [|exact Hhi]. intros u _. apply leaf_ext. intros p a x Ep _ Hx.
    assert (Hqx : ~ in_page q x).
    { apply (page_apart a q x); [by eapply pt_page; [apply Hu|]|done| |done]. intros ->. by apply (Hqp p). }
    by rewrite Hm, Hm1. }
  destruct Hor as [(-> & Hu3 & Hlen)|(-> & -> & Hu3 & Hfr3 & Hlen)]; [left|right]; (split; [done|]).
  - split; [done|]. split; [|simpl; lia]. constructor; try done.
    + by apply insert_subseteq.
    + intros b. rewrite elem_of_cons, G4, elem_of_app, G5. split.
      * intros [->|[?|?]]; [|tauto|tauto]. right. right. exists v, (Z.lor perm PTE_V).
        by rewrite lookup_insert_eq.
      * intros [?|[?|(u & fl & E & E0)]]; [tauto|tauto|]. rewrite lookup_insert in E.
        case_decide; [|congruence]. injection E as -> _. by left.
  - destruct (uspace_kfree s3 root pg' [] um q Hu3 Hfr3) as (s4 & Hkf & Hmo4 & Hu4 & Hm4).
    { by rewrite (mem_only_held _ _ Hmo3). }
    split; [simpl; lia|]. exists s4. split; [done|]. constructor; try done.
    + by eapply mem_only_trans.
    + eapply high_same_trans; [exact Hhigh|]. intros u _. apply leaf_ext. intros p a x Ep _ Hx.
      apply Hm4. apply (page_apart a q x); [by eapply pt_page; [apply Hu3|]|done| |done].
      intros ->. by apply (proj1 (proj2 (proj2 Hfr3)) p).
    + intros b. rewrite elem_of_cons, list_elem_of_singleton, G4, app_nil_r, G5. split; [tauto|].
      intros [?|[?|(u & fl & ? & ?)]]; [tauto|tauto|congruence].
    + intros x H1 H2. rewrite Hm4 by (apply H2; set_solver). by apply Hframe.
Qed.

(** ** [uvmalloc] *)

Definition user_perm : Z := Z.lor (Z.lor (Z.lor PTE_W PTE_X) PTE_R) PTE_U.
Definition user_flags : Z := Z.lor user_perm PTE_V.

Lemma user_flags_ok : 0 <= user_perm < 1024 /\ leaf_flags user_flags.
Proof. unfold leaf_flags. vm_compute. repeat split; discriminate. Qed.

(** The pages [um'] has beyond [um] are zero. *)
Definition zero_pages (m : gmap Z Z) (um um' : gmap Z (Z * Z)) : Prop :=
  forall v pa fl, um' !! v = Some (pa, fl) -> um !! v = None ->
    fl = user_flags /\ forall x, in_page pa x -> ldb m x = 0.

Section Uvmalloc.
Context (root : Z) (s0 : kstate) (pg0 : gmap (list Z) Z) (l0 : list Z) (um0 : gmap Z (Z * Z)) (b newsz : Z).
Context (Hu0 : uspace s0 root pg0 l0 um0) (Hh0 : LkKmem ∉ held s0)
  (Hsized : sized um0 (b * PGSIZE)) (Hb : 0 <= b) (Hmax : newsz <= UPAGES * PGSIZE).

Lemma uvmalloc_undo s pg l um v :
  ugrows root s0 pg0 l0 um0 s pg l um -> sized um (v * PGSIZE) -> b <= v <= UPAGES ->
  exists s' l', uvmdealloc root (v * PGSIZE) (b * PGSIZE) s = Ok (b * PGSIZE) s' /\
    ugrows root s0 pg0 l0 um0 s' pg l' um0.
Proof using All.
  intros Hg Hs Hv.
  destruct (uvmdealloc_ok s root pg l um (v * PGSIZE) (b * PGSIZE)) as (s' & l' & Hrun & Hsh);
    [apply Hg|by rewrite (ugrows_held _ _ _ _ _ _ _ _ _ Hg)|done|lia|lia|].
  rewrite Z.min_r in Hrun by lia. exists s', l'. split; [done|].
  eapply ugrows_shrunk; [done|done|]. rewrite !npages_pages. apply map_eq. intros u.
  rewrite lookup_drop_range. pose proof (Hs u) as Hsu. pose proof (Hsized u) as Hs0.
  rewrite npages_pages in *. case_decide.
  - destruct (um0 !! u) eqn:E; [|done]. destruct (proj1 Hs0); [done|lia].
  - destruct (um0 !! u) eqn:E.
    + by apply (lookup_weaken _ _ _ _ E), (ug_pages _ _ _ _ _ _ _ _ _ Hg).
    + destruct (um !! u) eqn:E'; [|done]. assert (0 <= u < v) by (by apply Hsu).
      assert (is_Some (None : option (Z * Z))) as [? ?] by (apply Hs0; lia). done.
Qed.

Lemma sized_insert um v e :
  sized um (v * PGSIZE) -> 0 <= v -> sized (<[v := e]> um) ((v + 1) * PGSIZE).
Proof.
  intros Hs Hv u. specialize (Hs u). rewrite npages_pages in *. rewrite lookup_insert.
  case_decide; [subst; split; [lia|eauto]|]. rewrite Hs. lia.
Qed.

Lemma sized_next um v : sized um (v * PGSIZE) -> um !! v = None.
Proof.
  intros Hs. destruct (um !! v) eqn:E; [|done]. specialize (Hs v). rewrite npages_pages, E in Hs.
  destruct (proj1 Hs); [done|lia].
Qed.

Lemma zero_pages_step s pg l um s' pg' l' v q :
  zero_pages (mem s) um0 um -> uspace s root pg l um ->
  ugrows root s pg l um s' pg' l' (<[v := (q, user_flags)]> um) -> um !! v = None ->
  (forall x, in_page q x -> ldb (mem s') x = 0) ->
  zero_pages (mem s') um0 (<[v := (q, user_flags)]> um).
Proof using All.
  intros Hz Hu Hg Hv Hq u pa fl. rewrite lookup_insert. case_decide; [by intros [= <- <-]|].
  intros E E0. destruct (Hz u pa fl E E0) as [-> Hx]. split; [done|]. intros x Hin.
  rewrite (ugrows_same _ _ _ _ _ _ _ _ _ Hu Hg u pa user_flags x E Hin). auto.
Qed.

Lemma uvmalloc_loop_ok n :
  forall v s pg l um,
  ugrows root s0 pg0 l0 um0 s pg l um -> sized um (v * PGSIZE) -> zero_pages (mem s) um0 um ->
  b <= v <= npages newsz -> npages newsz - v <= Z.of_nat n ->
  Z.of_nat (length l0) <= Z.of_nat (length l) + 3 * (v - b) ->
  exists r s' pg' l' um',
    uvmalloc_loop n root (v * PGSIZE) (b * PGSIZE) newsz s = Ok r s' /\
    ugrows root s0 pg0 l0 um0 s' pg' l' um' /\
    (r = newsz /\ sized um' newsz /\ zero_pages (mem s') um0 um' \/
     r = 0 /\ um' = um0 /\ Z.of_nat (length l0) < 3 * (npages newsz - b)).
Proof using All.
  induction n as [|n IH]; intros v s pg l um Hg Hs Hz Hv Hn Hlen;
    cbn [uvmalloc_loop]; destruct (Z.ltb_spec (v * PGSIZE) newsz) as [Hlt|Hge].
  1: { exfalso. unfold npages in *. Z.div_mod_to_equations. lia. }
  1, 3: solve [exists newsz, s, pg, l, um; split_and!; [done|done|left; split_and!; [done| |done]];
    assert (npages newsz = npages (v * PGSIZE)) as E
      by (rewrite npages_pages; unfold npages in *; Z.div_mod_to_equations; lia);
    intros u; rewrite E; apply Hs].
  assert (Hvm : v < UPAGES) by lia.
  assert (Hvn : v + 1 <= npages newsz) by (unfold npages in *; Z.div_mod_to_equations; lia).
  pose proof (ug_space _ _ _ _ _ _ _ _ _ Hg) as Hu.
  assert (Hh : LkKmem ∉ held s) by (by rewrite (ugrows_held _ _ _ _ _ _ _ _ _ Hg)).
  destruct l as [|q l].
  { unfold bind at 1. rewrite (kalloc_none s (tables_free _ _ _ _ (us_tables _ _ _ _ _ Hu)) Hh).
    cbn [obind Z.eqb].
    destruct (uvmalloc_undo s pg [] um v Hg Hs ltac:(lia)) as (s' & l' & Hrun & Hg').
    mstep Hrun. exists 0, s', pg, l', um0. simpl in Hlen. split_and!; [done|done|]. right.
    split_and!; [done|done|lia]. }
  destruct user_flags_ok as [Hup Huf].
  destruct (alloc_map_page s root pg q l um v user_perm Hu Hh (sized_next um v Hs) ltac:(lia) Hup Huf)
    as (s1 & Hk & Hq & Hq0 & _ & _ & Hmo1 & _ & _ & Hmap).
  mstep Hk. destruct (Z.eqb_spec q 0); [done|]. unfold bind at 1. cbn [zero_page modify obind].
  destruct (Hmap (memset (mem s1) q 0 PGSIZE)) as (r & s3 & pg' & l' & Hrun & Hor).
  { intros x Hx. rewrite ldb_memset. unfold in_page in Hx. by rewrite decide_False by done. }
  mstep Hrun. destruct Hor as [(-> & Hcont & Hg3 & Hlen3)|(-> & Hlen3 & s4 & Hkf & Hg4)].
  - cbn [Z.eqb negb].
    destruct (IH (v + 1) s3 pg' l' (<[v := (q, user_flags)]> um)) as (r & s' & pg2 & l2 & um2 & Hr & Hg2 & Hor).
    + by eapply ugrows_trans.
    + apply sized_insert; [done|lia].
    + eapply zero_pages_step; [done|done|done|by apply sized_next|].
      intros x Hx. rewrite Hcont by done. rewrite ldb_memset. unfold in_page in Hx.
      by rewrite decide_True by done.
    + lia.
    + lia.
    + lia.
    + exists r, s', pg2, l2, um2. split; [|done]. rewrite <- Hr. f_equal. lia.
  - cbn [Z.eqb negb]. mstep Hkf. pose proof (ugrows_trans _ _ _ _ _ _ _ _ _ _ _ _ _ Hg Hg4) as Hg5.
    destruct (uvmalloc_undo s4 pg' [q] um v Hg5 Hs ltac:(lia)) as (s' & l2 & Hr & Hg').
    mstep Hr. exists 0, s', pg', l2, um0. split_and!; [done|done|]. right. split_and!; [done|done|lia].
Qed.
End Uvmalloc.

(** C26: [uvmalloc(pagetable, oldsz, newsz)] grows a process of size [oldsz]
    either to exactly [newsz] or, when memory runs out, not at all: on success
    it returns [newsz], the process has exactly the pages below [newsz], the old
    ones with their contents and the new ones zero, readable, writable and
    executable by the user; it fails only with fewer than three free pages per
    page requested, and then returns 0 and the process has its old pages with
    their contents.  Either way every page that left the free list is
    accounted for as a page table or a page of the user, and no memory changes
    other than page tables and pages that were free. *)
Theorem uvmalloc_spec s root pg l um oldsz newsz :
  uspace s root pg l um -> LkKmem ∉ held s -> sized um oldsz ->
  0 <= oldsz <= newsz -> newsz <= UPAGES * PGSIZE ->
  exists r s' pg' l' um', uvmalloc root oldsz newsz s = Ok r s' /\
    ugrows root s pg l um s' pg' l' um' /\ upages_same um (mem s) (mem s') /\
    (r = newsz /\ sized um' newsz /\ zero_pages (mem s') um um' \/
     r = 0 /\ um' = um /\ Z.of_nat (length l) < 3 * (npages newsz - npages oldsz)).
Proof.
  intros Hu Hh Hs Hle Hmax. unfold uvmalloc. destruct (Z.ltb_spec newsz oldsz); [lia|].
  rewrite PGROUNDUP_npages by lia. set (b := npages oldsz).
  assert (Hb : 0 <= b) by (apply npages_nonneg; lia).
  assert (Hsb : sized um (b * PGSIZE)) by (intros u; rewrite npages_pages; apply Hs).
  pose proof (npages_mono oldsz newsz ltac:(lia)) as Hmono. fold b in Hmono.
  destruct (uvmalloc_loop_ok root s pg l um b newsz Hu Hh Hsb Hb Hmax
    (S (Z.to_nat ((newsz - b * PGSIZE) / PGSIZE))) b s pg l um)
    as (r & s' & pg' & l' & um' & Hrun & Hg & Hor).
  - by apply ugrows_refl.
  - done.
  - intros v pa fl E E0. congruence.
  - lia.
  - unfold npages. Z.div_mod_to_equations. lia.
  - lia.
  - exists r, s', pg', l', um'. split_and!; [done|done|by eapply ugrows_same|done].
Qed.

(** ** [uvmcopy] *)

(** The pages of [um'] below [n] hold what those of [um] hold, with the same flags. *)
Definition copy_of (m : gmap Z Z) (um : gmap Z (Z * Z)) (n : Z)
    (m' : gmap Z Z) (um' : gmap Z (Z * Z)) : Prop :=
  forall u pa fl, 0 <= u < n -> um !! u = Some (pa, fl) ->
    exists pa', um' !! u = Some (pa', fl) /\
      forall o, 0 <= o < PGSIZE -> ldb m' (pa' + o) = ldb m (pa + o).

Lemma lor_valid fl : 0 <= fl < 1024 -> Z.land fl PTE_V <> 0 -> Z.lor fl PTE_V = fl.
Proof.
  intros Hfl Hv. apply Z.bits_inj'. intros i Hi. rewrite Z.lor_spec.
  destruct (decide (i = 0)) as [->|Hne].
  - change (Z.testbit PTE_V 0) with true. rewrite orb_true_r.
    destruct (Z.testbit fl 0) eqn:E; [done|]. exfalso. apply Hv.
    apply Z.bits_inj'. intros j Hj. rewrite Z.land_spec, Z.bits_0.
    destruct (decide (j = 0)) as [->|]; [by rewrite E|].
    change PTE_V with (Z.ones 1). rewrite Z.ones_spec_high by lia. apply andb_false_r.
  - change PTE_V with (Z.ones 1). rewrite Z.ones_spec_high by lia. apply orb_false_r.
Qed.

Section Uvmcopy.
Context (old new : Z) (s0 : kstate) (pg1 pg2 : gmap (list Z) Z) (l0 : list Z) (um1 : gmap Z (Z * Z)) (sz : Z).
(** The parent's and the child's tables, and the parent's pages, are apart; the
    child has no pages yet. *)
Context (Hu1 : uspace s0 old pg1 l0 um1) (Hu2 : uspace s0 new pg2 l0 ∅) (Hh0 : LkKmem ∉ held s0)
  (Hapart : forall p q a, pg1 !! p = Some a -> pg2 !! q <> Some a)
  (Hapart' : forall v pa fl q, um1 !! v = Some (pa, fl) -> pg2 !! q <> Some pa)
  (Hsized : sized um1 sz) (Hsz : 0 <= sz <= UPAGES * PGSIZE).

(** Growing the child leaves the parent alone. *)
Lemma parent_kept s pg l um :
  ugrows new s0 pg2 l0 ∅ s pg l um ->
  uspace s old pg1 l um1 /\ upages_same um1 (mem s0) (mem s).
Proof using All.
  intros Hg. pose proof Hg as [G1 G2 G3 G4 _ G5 G6].
  pose proof (tables_free _ _ _ _ (us_tables _ _ _ _ _ Hu1)) as (_ & _ & Hok).
  rewrite Forall_forall in Hok.
  assert (Hsame : forall b x, page_ok b -> (b ∉ l0) -> (forall q, pg2 !! q <> Some b) -> in_page b x ->
    ldb (mem s) x = ldb (mem s0) x).
  { intros b x Hb Hbl Hbp Hx. apply G6.
    - intros p a Ep. apply (page_apart b a x); [done|by eapply pt_page; [apply Hu2|]| |done].
      intros ->. by apply (Hbp p).
    - intros q Hq. apply (page_apart b q x); [done|by apply Hok|by intros ->|done]. }
  split.
  - eapply uspace_frame; [exact Hu1|apply G2| |].
    + intros q Hq. apply G5. by left.
    + intros p a x Ep. apply Hsame; [by eapply pt_page; [apply Hu1|]| |by intros; eapply Hapart].
      by eapply tables_disj; [apply Hu1|].
  - intros v pa fl x E. apply Hsame; [by eapply (us_leaf _ _ _ _ _ Hu1)| |by intros; eapply Hapart'].
    by eapply (us_free _ _ _ _ _ Hu1).
Qed.

Lemma uvmcopy_undo s pg l um i :
  ugrows new s0 pg2 l0 ∅ s pg l um -> sized um (i * PGSIZE) -> 0 <= i <= UPAGES ->
  exists s' l', uvmunmap new 0 i true s = Ok tt s' /\ ugrows new s0 pg2 l0 ∅ s' pg l' ∅.
Proof using All.
  intros Hg Hs Hi.
  destruct (uvmunmap_ok s new pg l um 0 i) as (s' & l' & Hrun & Hsh);
    [apply Hg|by rewrite (ugrows_held _ _ _ _ _ _ _ _ _ Hg)|lia|lia|lia| |].
  { intros u Hu. apply Hs. rewrite npages_pages. lia. }
  exists s', l'. split; [done|]. eapply ugrows_shrunk; [done|done|]. apply map_eq. intros u.
  rewrite lookup_drop_range, lookup_empty. case_decide; [done|].
  destruct (um !! u) eqn:E; [|done]. specialize (Hs u). rewrite npages_pages, E in Hs.
  destruct (proj1 Hs); [done|lia].
Qed.

Lemma copy_of_step s pg l um s' pg' l' i pa q fl :
  ugrows new s0 pg2 l0 ∅ s pg l um -> copy_of (mem s0) um1 i (mem s) um ->
  um1 !! i = Some (pa, fl) -> um !! i = None ->
  ugrows new s pg l um s' pg' l' (<[i := (q, fl)]> um) ->
  (forall o, 0 <= o < PGSIZE -> ldb (mem s') (q + o) = ldb (mem s0) (pa + o)) ->
  copy_of (mem s0) um1 (i + 1) (mem s') (<[i := (q, fl)]> um).
Proof using All.
  intros Hg0 Hc Ei Hi Hg Hq u pa' fl' Hu E. rewrite lookup_insert. case_decide as Hd.
  - subst u. rewrite Ei in E. injection E as <- <-. by exists q.
  - destruct (Hc u pa' fl' ltac:(lia) E) as (pu & Eu & Hpu). exists pu. split; [done|].
    intros o Ho. rewrite <- Hpu by done.
    apply (ugrows_same _ _ _ _ _ _ _ _ _ (ug_space _ _ _ _ _ _ _ _ _ Hg0) Hg u pu fl' _ Eu).
    unfold in_page. lia.
Qed.

(** One page of the loop: the copy is allocated, filled and mapped, or nothing is. *)
Lemma uvmcopy_page s pg q l um i pa fl :
  ugrows new s0 pg2 l0 ∅ s pg (q :: l) um -> copy_of (mem s0) um1 i (mem s) um ->
  sized um (i * PGSIZE) -> 0 <= i < npages sz -> um1 !! i = Some (pa, fl) ->
  exists s1, kalloc s = Ok q s1 /\ q <> 0 /\
  exists r s3 pg' l', mappages new (i * PGSIZE) PGSIZE q fl
      (set_mem (memmove (mem s1) q pa PGSIZE) s1) = Ok r s3 /\
    (r = 0 /\ sized (<[i := (q, fl)]> um) ((i + 1) * PGSIZE) /\
       ugrows new s0 pg2 l0 ∅ s3 pg' l' (<[i := (q, fl)]> um) /\
       copy_of (mem s0) um1 (i + 1) (mem s3) (<[i := (q, fl)]> um) /\
       (length (q :: l) <= length l' + 3)%nat \/
     r = -1 /\ (length (q :: l) <= 2)%nat /\ exists s4, kfree q s3 = Ok tt s4 /\ ugrows new s0 pg2 l0 ∅ s4 pg' [q] um).
Proof using All.
  intros Hg Hc Hs Hi E. pose proof (ug_space _ _ _ _ _ _ _ _ _ Hg) as Hu.
  destruct (parent_kept s pg (q :: l) um Hg) as [Hup Hsame].
  destruct (us_leaf _ _ _ _ _ Hup i pa fl E) as (Hir & Hpa & Hfl & _).
  pose proof Hfl as (Hfr & HV & _). pose proof (lor_valid fl Hfr HV) as Hlor.
  assert (Hh : LkKmem ∉ held s) by (by rewrite (ugrows_held _ _ _ _ _ _ _ _ _ Hg)).
  destruct (alloc_map_page s new pg q l um i fl Hu Hh (sized_next um i Hs) ltac:(lia) Hfr)
    as (s1 & Hk & Hq & Hq0 & _ & _ & _ & _ & Hm1 & Hmap); [by rewrite Hlor|].
  exists s1. split; [done|]. split; [done|].
  assert (Hne : pa <> q) by (intros ->; apply (us_free _ _ _ _ _ Hup i q fl E); set_solver).
  destruct (Hmap (memmove (mem s1) q pa PGSIZE)) as (r & s3 & pg' & l' & Hrun & Hor).
  { intros x Hx. rewrite ldb_memmove by lia. unfold in_page in Hx. by rewrite decide_False by done. }
  rewrite Hlor in Hor. exists r, s3, pg', l'. split; [done|].
  destruct Hor as [(-> & Hcont & Hg3 & Hlen)|(-> & Hlen & s4 & Hkf & Hg4)]; [left|right]; (split; [done|]).
  - split; [apply sized_insert; [done|lia]|]. split; [by eapply ugrows_trans|]. split; [|done].
    eapply copy_of_step; [done|done|done|by apply sized_next|done|].
    intros o Ho. rewrite Hcont by (unfold in_page; lia). rewrite ldb_memmove by lia.
    rewrite decide_True by lia. replace (pa + (q + o - q)) with (pa + o) by lia.
    assert (Hin : in_page pa (pa + o)) by (unfold in_page; lia).
    rewrite Hm1 by (by apply (page_apart pa q)). by apply (Hsame i pa fl).
  - split; [done|]. exists s4. split; [done|]. by eapply ugrows_trans.
Qed.

Lemma uvmcopy_loop_ok n :
  forall i s pg l um,
  ugrows new s0 pg2 l0 ∅ s pg l um -> copy_of (mem s0) um1 i (mem s) um ->
  sized um (i * PGSIZE) -> 0 <= i <= npages sz -> npages sz - i <= Z.of_nat n ->
  Z.of_nat (length l0) <= Z.of_nat (length l) + 3 * i ->
  exists r s' pg' l' um', uvmcopy_loop n old new (i * PGSIZE) sz s = Ok r s' /\
    ugrows new s0 pg2 l0 ∅ s' pg' l' um' /\
    (r = 0 /\ sized um' sz /\ copy_of (mem s0) um1 (npages sz) (mem s') um' \/
     r = -1 /\ um' = ∅ /\ Z.of_nat (length l0) < 3 * npages sz).
Proof using All.
  induction n as [|n IH]; intros i s pg l um Hg Hc Hs Hi Hn Hlen0;
    cbn [uvmcopy_loop]; destruct (Z.ltb_spec (i * PGSIZE) sz) as [Hlt|Hge].
  1: { exfalso. unfold npages in *. Z.div_mod_to_equations. lia. }
  1, 3: assert (npages sz = i) as E by (unfold npages in *; Z.div_mod_to_equations; lia);
    exists 0, s, pg, l, um; split_and!; [done|done|left; split_and!; [done| |by rewrite E]];
    intros u; rewrite E; rewrite <- (npages_pages i); apply Hs.
  assert (Hi2 : 0 <= i < npages sz) by (unfold npages in *; Z.div_mod_to_equations; lia).
  destruct (parent_kept s pg l um Hg) as [Hup _].
  destruct (proj2 (Hsized i) Hi2) as [[pa fl] E].
  destruct (us_leaf _ _ _ _ _ Hup i pa fl E) as (Hir & Hpa & (Hfr & HV & _) & _).
  destruct (uspace_walk s old pg1 l um1 i pa fl Hup E) as (t & _ & Hw & Hld).
  mstep Hw. unfold bind at 1. cbn [ld gets obind]. rewrite Hld.
  rewrite (flag_of Hlink) by (done || lia). destruct (Z.eqb_spec (Z.land fl PTE_V) 0); [done|]. cbn [negb].
  rewrite (PTE2PA_pte_of pa fl) by done. unfold pte_of.
  rewrite PTE_FLAGS_PA2PTE by (destruct Hpa; unfold linked in *; lia).
  pose proof (ug_space _ _ _ _ _ _ _ _ _ Hg) as Hu.
  rewrite Z.div_mul by lia. destruct l as [|q l].
  { unfold bind at 1. rewrite (kalloc_none s (tables_free _ _ _ _ (us_tables _ _ _ _ _ Hu)))
      by (by rewrite (ugrows_held _ _ _ _ _ _ _ _ _ Hg)). cbn [obind Z.eqb].
    destruct (uvmcopy_undo s pg [] um i Hg Hs ltac:(lia)) as (s' & l' & Hrun & Hg').
    mstep Hrun. exists (-1), s', pg, l', ∅. simpl in Hlen0. split_and!; [done|done|]. right.
    split_and!; [done|done|lia]. }
  destruct (uvmcopy_page s pg q l um i pa fl Hg Hc Hs Hi2 E)
    as (s1 & Hk & Hq0 & r & s3 & pg' & l' & Hrun & Hor).
  mstep Hk. destruct (Z.eqb_spec q 0); [done|]. unfold bind at 1. cbn [modify obind].
  mstep Hrun.
  destruct Hor as [(-> & Hs3 & Hg3 & Hc3 & Hlen)|(-> & Hlen & s4 & Hkf & Hg4)]; cbn [Z.eqb negb].
  - destruct (IH (i + 1) s3 pg' l' (<[i := (q, fl)]> um)) as (r & s' & pg4 & l4 & um4 & Hr & Hrest);
      [done|done|done|lia|lia|lia|].
    exists r, s', pg4, l4, um4. split; [|done]. rewrite <- Hr. f_equal. lia.
  - mstep Hkf. destruct (uvmcopy_undo s4 pg' [q] um i Hg4 Hs ltac:(lia)) as (s' & l4 & Hr & Hg').
    mstep Hr. exists (-1), s', pg', l4, ∅. split_and!; [done|done|]. right. split_and!; [done|done|lia].
Qed.
End Uvmcopy.

Lemma copy_of_uget m um n m' um' va :
  copy_of m um n m' um' -> (forall v, is_Some (um !! v) <-> 0 <= v < n) ->
  (forall v, is_Some (um' !! v) <-> 0 <= v < n) -> uget m' um' va = uget m um va.
Proof.
  intros Hc H1 H2. unfold uget. destruct (um !! (va / PGSIZE)) as [[pa fl]|] eqn:E.
  - destruct (Hc _ _ _ (proj1 (H1 _) (ex_intro _ _ E)) E) as (pa' & -> & Hpa).
    destruct (user_ok fl); [|done]. f_equal. apply Hpa. Z.div_mod_to_equations. lia.
  - destruct (um' !! (va / PGSIZE)) as [e|] eqn:E'; [|done].
    assert (is_Some (um !! (va / PGSIZE))) as [? ?] by (apply H1, H2; by exists e). congruence.
Qed.

Lemma uvmcopy_ok s old new pg1 pg2 l um1 sz :
  uspace s old pg1 l um1 -> uspace s new pg2 l ∅ -> LkKmem ∉ held s ->
  (forall p q a, pg1 !! p = Some a -> pg2 !! q <> Some a) ->
  (forall v pa fl q, um1 !! v = Some (pa, fl) -> pg2 !! q <> Some pa) ->
  sized um1 sz -> 0 <= sz <= UPAGES * PGSIZE ->
  exists r s' pg' l' um', uvmcopy old new sz s = Ok r s' /\
    ugrows new s pg2 l ∅ s' pg' l' um' /\
    uspace s' old pg1 l' um1 /\ upages_same um1 (mem s) (mem s') /\
    (r = 0 /\ sized um' sz /\ (forall va, uget (mem s') um' va = uget (mem s) um1 va) \/
     r = -1 /\ um' = ∅ /\ Z.of_nat (length l) < 3 * npages sz).
Proof.
  intros Hu1 Hu2 Hh Ha Ha' Hs Hsz. unfold uvmcopy.
  destruct (uvmcopy_loop_ok old new s pg1 pg2 l um1 sz Hu1 Hu2 Hh Ha Ha' Hs Hsz
    (S (Z.to_nat (sz / PGSIZE))) 0 s pg2 l ∅) as (r & s' & pg' & l' & um' & Hrun & Hg & Hor).
  - by apply ugrows_refl.
  - intros u pa fl Hu. lia.
  - intros u. rewrite npages_pages, lookup_empty. split; [by intros []|lia].
  - split; [lia|]. apply npages_nonneg. lia.
  - unfold npages. Z.div_mod_to_equations. lia.
  - lia.
  - exists r, s', pg', l', um'. split; [exact Hrun|]. split; [done|].
    destruct (parent_kept old new s pg1 pg2 l um1 sz Hu1 Hu2 Hh Ha Ha' Hs Hsz s' pg' l' um' Hg)
      as [Hup Hsame]. split; [done|]. split; [done|].
    destruct Hor as [(-> & Hs' & Hc)|(-> & -> & Hlen)]; [left|by right]. split; [done|]. split; [done|].
    intros va. by eapply copy_of_uget.
Qed.

(** C16: [uvmcopy(old, new, sz)], which [fork] uses, gives the child either a
    complete copy of the parent's memory or nothing: on success the child sees at
    every address what the parent sees, in pages of its own; it fails only with
    fewer than three free pages per page of the parent, and then the child has
    no pages and everything allocated for it except page tables is free again.
    The parent keeps its pages and their contents, and no memory changes other
    than the child's page tables and pages that were free. *)
Theorem uvmcopy_spec s old new pg1 pg2 l um1 sz :
  uspace s old pg1 l um1 -> uspace s new pg2 l ∅ -> LkKmem ∉ held s ->
  (forall p q a, pg1 !! p = Some a -> pg2 !! q <> Some a) ->
  (forall v pa fl q, um1 !! v = Some (pa, fl) -> pg2 !! q <> Some pa) ->
  sized um1 sz -> 0 <= sz <= UPAGES * PGSIZE ->
  exists r s' pg' l' um', uvmcopy old new sz s = Ok r s' /\
    ugrows new s pg2 l ∅ s' pg' l' um' /\
    uspace s' old pg1 l' um1 /\ upages_same um1 (mem s) (mem s') /\
    (r = 0 /\ sized um' sz /\ (forall va, uget (mem s') um' va = uget (mem s) um1 va) \/
     r = -1 /\ um' = ∅ /\ Z.of_nat (length l) < 3 * npages sz).
Proof. apply uvmcopy_ok. Qed.

(** ** [uvmcreate] *)

Lemma uvmcreate_ok s q l :
  free_list s (q :: l) -> LkKmem ∉ held s ->
  exists s', uvmcreate s = Ok q s' /\ mem_only s s' /\ q <> 0 /\
    uspace s' q {[ [] := q ]} l ∅ /\
    (forall va, leaf (mem s') {[ [] := q ]} va = 0) /\
    (forall x, ~ in_page q x -> ldb (mem s') x = ldb (mem s) x).
Proof.
  intros Hf Hh. destruct (kalloc_some s q l Hlink Hf Hh) as (s1 & Hk & Hmo & Hf1 & Hq & Hnin & Hm).
  assert (Hq0 : q <> 0) by (destruct Hq; unfold linked in *; lia).
  unfold uvmcreate. mstep Hk. destruct (Z.eqb_spec q 0); [done|].
  set (s2 := set_mem (memset (mem s1) q 0 PGSIZE) s1). exists s2. split; [done|].
  assert (Hm2 : forall x, ldb (mem s2) x = if decide (in_page q x) then 0 else ldb (mem s1) x).
  { intros x. unfold s2. cbn [mem set_mem]. rewrite ldb_memset. unfold in_page. by case_decide. }
  assert (Hroot : forall i, 0 <= i < 512 -> ld64 (mem s2) (pte_addr q i) = 0).
  { intros i Hi. transitivity (ld64 (∅ : gmap Z Z) (pte_addr q i)); [|done].
    apply ld64_ext. intros x Hx%pte_addr_page; [|done]. rewrite Hm2. by rewrite decide_True. }
  assert (Hpg : forall p a, ({[ [] := q ]} : gmap (list Z) Z) !! p = Some a -> p = [] /\ a = q)
    by (intros p a [-> ->]%lookup_singleton_Some; done).
  assert (Hleaf0 : forall va, leaf (mem s2) {[ [] := q ]} va = 0)
    by (intros va; unfold leaf; by rewrite lookup_singleton_ne).
  split; [by eapply mem_only_trans; [|apply mem_only_set_mem]|]. split; [done|].
  split; [|split; [done|intros x Hx; rewrite Hm2, decide_False by done; rewrite Hm; by rewrite decide_False]].
  constructor; try done.
  - constructor.
    + constructor; [by rewrite lookup_singleton_eq| | | | | | |].
      * by intros p a [-> ->]%Hpg.
      * by intros p p' a [-> ->]%Hpg [-> _]%Hpg.
      * intros p a [-> _]%Hpg. simpl. lia.
      * by intros p a [-> _]%Hpg.
      * by intros i p a [? _]%Hpg.
      * intros p i c [E _]%Hpg. by destruct p.
      * intros p a i [-> ->]%Hpg _ Hi. rewrite lookup_singleton_ne by done. by rewrite Hroot.
    + eapply (free_list_frame s1 s2 l q); [done|done|apply Hq|done|].
      intros x Hx. rewrite Hm2. by rewrite decide_False.
    + by intros p a [-> ->]%Hpg.
  - intros v _ _. by rewrite Hleaf0.
  - intros v _. by rewrite Hleaf0.
Qed.
End UvmAlloc.
