(* ===== verification/UvmFree.v ===== *)
(** * Freeing address spaces

    [freewalk] and [uvmfree] of [kernel/vm.c]: every page of the process, user
    pages and page tables alike, goes back to the free list. *)

From stdpp Require Import gmap strings list fin_maps.
From S2P Require Import Prelude Layout State Sched Cstring Kalloc Vm VmFacts Uvm UvmAlloc.

Section Freewalk.
Context `{Build}.
Context (m0 : gmap Z Z) (root : Z) (pg : gmap (list Z) Z).
Context (Hlink : linked) (Hpt : pt m0 root pg).
(** All leaf mappings have been removed. *)
Context (Hleaf : forall va, 0 <= va < MAXVA -> flag (leaf m0 pg va) PTE_V = false).

(** Tables below [p]. *)
Definition below (p : list Z) (a : Z) : Prop := exists q, p `prefix_of` q /\ pg !! q = Some a.

(** The tables below [p] are still as in [m0] and not free. *)
Definition intact (s : kstate) (l : list Z) (p : list Z) : Prop :=
  forall a, below p a -> (a ∉ l) /\ forall x, in_page a x -> ldb (mem s) x = ldb m0 x.

(** From [(s, l)] to [(s', l')] exactly the tables satisfying [P] were freed. *)
Definition freed (P : Z -> Prop) (s : kstate) (l : list Z) (s' : kstate) (l' : list Z) : Prop :=
  mem_only s s' /\ free_list s' l' /\ (forall a, a ∈ l' <-> a ∈ l \/ P a) /\
  (forall x, (forall a, P a -> ~ in_page a x) -> ldb (mem s') x = ldb (mem s) x).

Lemma PX_of_indices i2 i1 i0 :
  0 <= i2 < 256 -> 0 <= i1 < 512 -> 0 <= i0 < 512 ->
  let va := i2 * 2 ^ 30 + i1 * 2 ^ 21 + i0 * 2 ^ 12 in
  0 <= va < MAXVA /\ PX 2 va = i2 /\ PX 1 va = i1 /\ PX 0 va = i0.
Proof.
  intros H2 H1 H0 va. rewrite !PX_spec by lia. unfold va.
  change (2 ^ (12 + 9 * 2)) with (2 ^ 30). change (2 ^ (12 + 9 * 1)) with (2 ^ 21).
  change (2 ^ (12 + 9 * 0)) with (2 ^ 12). Z.div_mod_to_equations. lia.
Qed.

Lemma entry_cases p a i :
  pg !! p = Some a -> 0 <= i < 512 ->
  (exists c, pg !! (p ++ [i]) = Some c /\ ld64 m0 (pte_addr a i) = pte_of c PTE_V) \/
  (pg !! (p ++ [i]) = None /\ flag (ld64 m0 (pte_addr a i)) PTE_V = false).
Proof using All.
  intros Hp Hi. destruct (decide (length p < 2)%nat) as [Hl|Hl].
  - pose proof (pt_entry _ _ _ Hpt p a i Hp Hl Hi) as He.
    destruct (pg !! (p ++ [i])) as [c|]; [left; by exists c|by right].
  - right. pose proof (pt_depth _ _ _ Hpt p a Hp) as Hd. split.
    + destruct (pg !! (p ++ [i])) as [c|] eqn:E; [|done].
      apply (pt_depth _ _ _ Hpt) in E. rewrite length_app in E. simpl in E. lia.
    + destruct p as [|i2 [|i1 [|]]]; simpl in *; try lia.
      pose proof (pt_index _ _ _ Hpt _ _ Hp) as Hix. pose proof (pt_top _ _ _ Hpt _ _ _ Hp) as Ht.
      apply Forall_cons in Hix as [H2 [H1 _]%Forall_cons].
      destruct (PX_of_indices i2 i1 i) as (Hva & E2 & E1 & E0); [lia|done|done|].
      pose proof (Hleaf _ Hva) as Hf. unfold leaf in Hf. by rewrite E2, E1, E0, Hp in Hf.
Qed.

Lemma below_page p b : below p b -> page_ok b.
Proof using All. intros (q & _ & E). by eapply pt_page. Qed.

(** The subtrees of one table are apart from each other and from the table. *)
Lemma below_child_ne p i a b : pg !! p = Some a -> below (p ++ [i]) b -> b <> a.
Proof using All.
  intros Hp (q & Hq & E) ->. pose proof (pt_inj _ _ _ Hpt _ _ _ Hp E) as <-.
  apply prefix_length in Hq. rewrite length_app in Hq. simpl in Hq. lia.
Qed.

Lemma below_children_ne p i j b c : i <> j -> below (p ++ [i]) b -> below (p ++ [j]) c -> b <> c.
Proof using All.
  intros Hne (q & [k Hq] & E) (q' & [k' Hq'] & E') ->.
  pose proof (pt_inj _ _ _ Hpt _ _ _ E E') as <-. subst q. rewrite <- !app_assoc in Hq'.
  by simplify_list_eq.
Qed.

Lemma below_split p a b :
  pg !! p = Some a ->
  below p b <-> b = a \/ exists j, 0 <= j < 512 /\ below (p ++ [j]) b.
Proof using All.
  intros Hp. split.
  - intros (q & [k ->] & E). destruct k as [|j k].
    + rewrite app_nil_r in E. left. congruence.
    + right. exists j. split.
      * pose proof (pt_index _ _ _ Hpt _ _ E) as Hix. apply Forall_app in Hix as [_ Hix].
        by apply Forall_cons in Hix as [? _].
      * exists (p ++ j :: k). split; [|done]. exists k. by rewrite <- app_assoc.
  - intros [->|(j & _ & q & Hq & E)].
    + exists p. split; [done|done].
    + exists q. split; [|done]. etransitivity; [|exact Hq]. by exists [j].
Qed.

(** While the loop of [freewalk] on table [a] is at index [k]. *)
Record at_index (p : list Z) (a k : Z) (s : kstate) (l : list Z) : Prop := MkAtIndex {
  ai_free : free_list s l;
  ai_lock : LkKmem ∉ held s;
  ai_self : a ∉ l;
  ai_entries : forall j, k <= j < 512 -> ld64 (mem s) (pte_addr a j) = ld64 m0 (pte_addr a j);
  ai_intact : forall j, k <= j < 512 -> intact s l (p ++ [j])
}.

(** What the recursive call does for a subtree. *)
Definition frees_below (n : nat) (p : list Z) (a : Z) : Prop :=
  forall s l, free_list s l -> LkKmem ∉ held s -> intact s l p ->
    exists s' l', freewalk_levels n a s = Ok tt s' /\ freed (below p) s l s' l'.

Lemma freewalk_entry_ok n p a k s l :
  pg !! p = Some a -> 0 <= k < 512 ->
  (forall c, pg !! (p ++ [k]) = Some c -> frees_below n (p ++ [k]) c) ->
  at_index p a k s l ->
  exists s' l', freewalk_entry (freewalk_levels n) a (Z.to_nat k) s = Ok tt s' /\
    at_index p a (k + 1) s' l' /\ mem_only s s' /\
    (forall b, b ∈ l' <-> b ∈ l \/ below (p ++ [k]) b) /\
    (forall x, ~ in_page a x -> (forall b, below (p ++ [k]) b -> ~ in_page b x) ->
       ldb (mem s') x = ldb (mem s) x).
Proof using All.
  intros Hp Hk IH [A1 A2 A3 A4 A5]. unfold freewalk_entry. rewrite Z2Nat.id by lia.
  unfold bind at 1. cbn [ld gets obind]. rewrite A4 by lia.
  assert (Ha : page_ok a) by (by eapply pt_page).
  destruct (entry_cases p a k Hp Hk) as [(c & Hc & ->)|[Hnone ->]].
  2: { cbn [andb]. exists s, l. split; [done|].
       assert (Hb : forall b, ~ below (p ++ [k]) b).
       { intros b (q & Hq & E). revert E. destruct Hq as [r ->]. revert b.
         induction r as [|j r IHr] using rev_ind; intros b E.
         - rewrite app_nil_r in E. congruence.
         - rewrite app_assoc in E. apply (pt_parent _ _ _ Hpt) in E as [b' E]. by apply IHr in E. }
       split; [constructor; try done; intros j Hj; [apply A4|apply A5]; lia|].
       split; [apply mem_only_refl|]. split; [|done]. intros b. specialize (Hb b). tauto. }
  assert (Hcok : page_ok c) by (by eapply pt_page).
  rewrite (flag_of Hlink) by (done || lia).
  change (Z.lor (Z.lor PTE_R PTE_W) PTE_X) with 14. unfold pte_of at 1.
  rewrite pte_flag_test by (destruct Hcok; unfold linked in *; lia).
  change (Z.land PTE_V 14 =? 0) with true. change (negb (Z.land PTE_V PTE_V =? 0)) with true.
  cbn [andb].
  rewrite PTE2PA_pte_of by (done || lia).
  destruct (IH c Hc s l A1 A2 (A5 k ltac:(lia))) as (s1 & l1 & Hrun & Hmo & Hf1 & Hl1 & Hm1).
  mstep Hrun. set (s2 := set_mem (st64 (mem s1) (pte_addr a k) 0) s1).
  exists s2, l1. split; [done|].
  assert (Hal1 : a ∉ l1).
  { rewrite Hl1. intros [?|Hb]; [done|]. by apply (below_child_ne p k a a Hp Hb). }
  assert (Hma : forall x, in_page a x -> ldb (mem s1) x = ldb (mem s) x).
  { intros x Hx. apply Hm1. intros b Hb. apply (page_apart a b x); [done|by eapply below_page| |done].
    apply not_eq_sym. by apply (below_child_ne p k a b Hp Hb). }
  assert (Hm2 : forall x, ~ in_page a x -> ldb (mem s2) x = ldb (mem s1) x)
    by (intros x Hx; by apply st64_page).
  split_and!.
  - constructor; try done.
    + by eapply (free_list_frame s1 s2 l1 a); [|done|apply Ha|done|].
    + unfold s2. cbn. by rewrite (mem_only_held _ _ Hmo).
    + intros j Hj. unfold s2. cbn [mem set_mem]. rewrite ld64_st64_ne by (apply pte_addr_disj; lia).
      rewrite <- A4 by lia. apply entry_ext; [lia|done].
    + intros j Hj b Hb. destruct (A5 j ltac:(lia) b Hb) as [Hbl Hbx]. split.
      * rewrite Hl1. intros [?|Hb']; [done|]. by apply (below_children_ne p k j b b) in Hb; [|lia|].
      * intros x Hx. rewrite <- Hbx by done. rewrite Hm2, Hm1; [done| |].
        -- intros b' Hb'. apply (page_apart b b' x); [by eapply below_page|by eapply below_page| |done].
           apply not_eq_sym. by apply (below_children_ne p k j b' b); [lia| |].
        -- apply (page_apart b a x); [by eapply below_page|done|by eapply below_child_ne|done].
  - by eapply mem_only_trans; [|apply mem_only_set_mem].
  - done.
  - intros x Hx Hb. by rewrite Hm2, Hm1.
Qed.

Lemma freewalk_loop_ok n p a :
  pg !! p = Some a ->
  (forall k c, 0 <= k < 512 -> pg !! (p ++ [k]) = Some c -> frees_below n (p ++ [k]) c) ->
  forall cnt k s l, (k + cnt = 512)%nat -> at_index p a (Z.of_nat k) s l ->
  exists s' l', for_each (seq k cnt) (freewalk_entry (freewalk_levels n) a) s = Ok tt s' /\
    at_index p a 512 s' l' /\ mem_only s s' /\
    (forall b, b ∈ l' <-> b ∈ l \/ exists j, Z.of_nat k <= j < 512 /\ below (p ++ [j]) b) /\
    (forall x, ~ in_page a x ->
       (forall b, (exists j, Z.of_nat k <= j < 512 /\ below (p ++ [j]) b) -> ~ in_page b x) ->
       ldb (mem s') x = ldb (mem s) x).
Proof using All.
  intros Hp IH. induction cnt as [|cnt IHc]; intros k s l Hkc Hai; cbn [seq for_each].
  - exists s, l. assert (k = 512%nat) as -> by lia. split; [done|]. split; [done|].
    split; [apply mem_only_refl|]. split; [|done]. intros b. split; [by left|].
    intros [?|(j & ? & _)]; [done|lia].
  - destruct (freewalk_entry_ok n p a (Z.of_nat k) s l Hp ltac:(lia)) as (s1 & l1 & Hrun & Hai1 & Hmo1 & Hl1 & Hm1).
    { intros c Hc. apply IH; [lia|done]. }
    { done. }
    rewrite Nat2Z.id in Hrun. mstep Hrun.
    destruct (IHc (S k) s1 l1) as (s2 & l2 & Hr2 & Hai2 & Hmo2 & Hl2 & Hm2);
      [lia|by replace (Z.of_nat (S k)) with (Z.of_nat k + 1) by lia|].
    exists s2, l2. split; [done|]. split; [done|]. split; [by eapply mem_only_trans|]. split.
    + intros b. rewrite Hl2, Hl1. split.
      * intros [[?|?]|(j & Hj & Hb)]; [by left| |]; right;
          [exists (Z.of_nat k)|exists j]; (split; [lia|done]).
      * intros [?|(j & Hj & Hb)]; [by left; left|].
        destruct (decide (j = Z.of_nat k)) as [->|]; [left; by right|].
        right. exists j. split; [lia|done].
    + intros x Hx Hb. rewrite Hm2, Hm1; [done|done| |done|].
      * intros b Hbb. apply Hb. exists (Z.of_nat k). split; [lia|done].
      * intros b (j & Hj & Hbb). apply Hb. exists j. split; [lia|done].
Qed.

Lemma freewalk_levels_ok n :
  forall p a, pg !! p = Some a -> (length p + n = 3)%nat -> frees_below n p a.
Proof using All.
  induction n as [|n IH]; intros p a Hp Hn s l Hf Hh Hint.
  { pose proof (pt_depth _ _ _ Hpt p a Hp). lia. }
  cbn [freewalk_levels]. assert (Ha : page_ok a) by (by eapply pt_page).
  assert (Hba : below p a) by (exists p; done).
  destruct (Hint a Hba) as [Hal Hax].
  destruct (freewalk_loop_ok n p a Hp) with (cnt := 512%nat) (k := 0%nat) (s := s) (l := l)
    as (s1 & l1 & Hrun & [A1 A2 A3 _ _] & Hmo & Hl1 & Hm1); [|done| |].
  { intros k c Hk Hc. apply IH; [done|]. rewrite length_app. simpl. lia. }
  { constructor; try done.
    - intros j Hj. apply entry_ext; [lia|done].
    - intros j Hj b Hb. apply Hint. apply (below_split p a b Hp). right. exists j. split; [lia|done]. }
  mstep Hrun. destruct (kfree_ok a s1 l1 Hlink A1 Ha A3 A2) as (s2 & Hk & Hmo2 & Hf2 & Hm2).
  exists s2, (a :: l1). split; [done|]. split; [by eapply mem_only_trans|]. split; [done|]. split.
  - intros b. rewrite elem_of_cons, Hl1, (below_split p a b Hp). simpl. tauto.
  - intros x Hx. rewrite Hm2 by (by apply Hx). apply Hm1; [by apply Hx|].
    intros b Hb. apply Hx. apply (below_split p a b Hp). by right.
Qed.
End Freewalk.

Section Uvmfree.
Context `{Build}.

(** [freewalk] of a page table without leaf mappings frees all of its pages. *)
Lemma freewalk_ok s root pg l :
  linked -> tables s root pg l -> LkKmem ∉ held s ->
  (forall va, 0 <= va < MAXVA -> flag (leaf (mem s) pg va) PTE_V = false) ->
  exists s' l', freewalk root s = Ok tt s' /\ mem_only s s' /\ free_list s' l' /\
    (forall a, a ∈ l' <-> a ∈ l \/ exists p, pg !! p = Some a) /\
    (forall x, (forall p a, pg !! p = Some a -> ~ in_page a x) -> ldb (mem s') x = ldb (mem s) x).
Proof.
  intros Hlink [Hpt Hf Hd] Hh Hleaf.
  destruct (freewalk_levels_ok (mem s) root pg Hlink Hpt Hleaf 3 [] root (pt_root _ _ _ Hpt) eq_refl s l Hf Hh)
    as (s' & l' & Hrun & Hmo & Hf' & Hl' & Hm').
  { intros a (q & _ & E). split; [by eapply Hd|done]. }
  exists s', l'. split_and!; [done|done|done| |].
  - intros a. rewrite Hl'. split; (intros [?|(p & E)]; [by left|right; exists p]); [tauto|].
    split; [apply prefix_nil|done].
  - intros x Hx. apply Hm'. intros a (q & _ & E). by eapply Hx.
Qed.

(** Without user pages and without high entries no leaf is valid. *)
Lemma uspace_no_leaf s root pg l um :
  uspace s root pg l um -> (forall v, um !! v = None) ->
  (forall v, UPAGES <= v < VPAGES -> flag (leaf (mem s) pg (v * PGSIZE)) PTE_V = false) ->
  forall va, 0 <= va < MAXVA -> flag (leaf (mem s) pg va) PTE_V = false.
Proof.
  intros Hu Hnone Hhi va Hva.
  replace (leaf (mem s) pg va) with (leaf (mem s) pg (va / PGSIZE * PGSIZE)).
  - destruct (decide (va / PGSIZE < UPAGES)).
    + apply (us_none _ _ _ _ _ Hu); [done|]. Z.div_mod_to_equations. lia.
    + apply Hhi. Z.div_mod_to_equations. lia.
  - unfold leaf. assert (0 <= va / PGSIZE * PGSIZE < MAXVA) by (Z.div_mod_to_equations; lia).
    destruct (proj2 (PX_same_page (va / PGSIZE * PGSIZE) va ltac:(lia) Hva)) as (-> & -> & ->);
      [by rewrite Z.div_mul by lia|done].
Qed.

Lemma uvmfree_ok s root pg l um sz :
  linked -> uspace s root pg l um -> LkKmem ∉ held s -> sized um sz -> 0 <= sz <= UPAGES * PGSIZE ->
  (forall v, UPAGES <= v < VPAGES -> flag (leaf (mem s) pg (v * PGSIZE)) PTE_V = false) ->
  exists s' l', uvmfree root sz s = Ok tt s' /\ mem_only s s' /\ free_list s' l' /\
    (forall a, a ∈ l' <-> a ∈ l \/ (exists v fl, um !! v = Some (a, fl)) \/ exists p, pg !! p = Some a) /\
    (forall x, outside pg um x -> ldb (mem s') x = ldb (mem s) x).
Proof.
  intros Hlink Hu Hh Hs Hsz Hhi. unfold uvmfree.
  pose proof (npages_nonneg sz ltac:(lia)).
  assert (npages sz <= UPAGES) by (unfold npages; Z.div_mod_to_equations; lia).
  assert (Hun : exists s1 l1, when (0 <? sz) (uvmunmap root 0 (PGROUNDUP sz / PGSIZE) true) s = Ok tt s1 /\
    shrunk root pg s l um 0 (npages sz) s1 l1).
  { destruct (Z.ltb_spec 0 sz); cbn [when].
    - rewrite PGROUNDUP_npages, Z.div_mul by lia.
      apply (uvmunmap_ok Hlink s root pg l um 0 (npages sz)); try done. intros u Hur. apply Hs. lia.
    - exists s, l. split; [done|]. apply shrunk_none; [done|].
      assert (sz = 0) as -> by lia. done. }
  destruct Hun as (s1 & l1 & Hr1 & Hmo1 & Hu1 & Hhi1 & Hl1 & Hm1). mstep Hr1.
  assert (Hnone : forall v, drop_range 0 (npages sz) um !! v = None).
  { intros v. rewrite lookup_drop_range. case_decide as Hd; [done|].
    destruct (um !! v) eqn:E; [|done]. destruct (proj1 (Hs v)); [by rewrite E|lia]. }
  assert (Hhi2 : forall v, UPAGES <= v < VPAGES -> flag (leaf (mem s1) pg (v * PGSIZE)) PTE_V = false)
    by (intros v Hv; rewrite (Hhi1 v Hv); auto).
  destruct (freewalk_ok s1 root pg l1 Hlink (us_tables _ _ _ _ _ Hu1)) as (s2 & l2 & Hr2 & Hmo2 & Hf2 & Hl2 & Hm2).
  { by rewrite (mem_only_held _ _ Hmo1). }
  { by eapply uspace_no_leaf. }
  exists s2, l2. split; [done|]. split; [by eapply mem_only_trans|]. split; [done|]. split.
  - intros a. rewrite Hl2, Hl1. split.
    + intros [[?|(u & fl & _ & E)]|?]; [tauto|right; left; eauto|tauto].
    + intros [?|[(u & fl & E)|?]]; [tauto| |tauto]. left. right. exists u, fl. split; [|done].
      apply Hs. by rewrite E.
  - intros x [Hx1 Hx2]. rewrite Hm2, Hm1; [done|done| |done]. intros u pa fl _ E. by eapply Hx2.
Qed.

(** C27: [uvmfree(pagetable, sz)] of a process of size [sz] whose trampoline and
    trapframe entries are already removed succeeds and returns every page of the
    process to the free list, its memory and its page tables, each once; no other
    memory changes. *)
Theorem uvmfree_returns_all s root pg l um sz :
  linked -> uspace s root pg l um -> LkKmem ∉ held s -> sized um sz -> 0 <= sz <= UPAGES * PGSIZE ->
  (forall v, UPAGES <= v < VPAGES -> flag (leaf (mem s) pg (v * PGSIZE)) PTE_V = false) ->
  exists s' l', uvmfree root sz s = Ok tt s' /\ mem_only s s' /\ free_list s' l' /\
    (forall a, a ∈ l' <-> a ∈ l \/ (exists v fl, um !! v = Some (a, fl)) \/ exists p, pg !! p = Some a) /\
    (forall x, outside pg um x -> ldb (mem s') x = ldb (mem s) x).
Proof. apply uvmfree_ok. Qed.
End Uvmfree.
