(* ===== verification/VmDemo.v ===== *)
(** * A machine with sixteen pages

    A kernel that ends sixteen pages below [PHYSTOP], booted by [kinit], with a
    process of one page and an empty address space for its child: the
    hypotheses of the theorems on virtual memory hold together. *)

From stdpp Require Import gmap strings list fin_maps.
From S2P Require Import Prelude Layout State Sched Cstring Kalloc Vm VmFacts Uvm UvmAlloc UvmFree.

#[local] Instance demo16 : Build :=
  {| SCHEDULER := DEFAULT; sym_end := 0x87ff0000; sym_etext := 0x80008000;
     sym_trampoline := 0x80007000; sym_forkret := 0x80001a00; fuel := 10 |}.

Lemma demo16_linked : linked.
Proof. unfold linked. simpl. lia. Qed.

Lemma demo16_pages l : (forall q, q ∈ l <-> page_ok q) -> (16 <= length l)%nat.
Proof.
  intros Hall.
  assert (Hsub : NoDup ((fun i => 0x87ff0000 + 4096 * Z.of_nat i) <$> seq 0 16) /\
    forall q, q ∈ ((fun i => 0x87ff0000 + 4096 * Z.of_nat i) <$> seq 0 16) -> q ∈ l).
  { split.
    - apply NoDup_fmap_2_strong; [|apply NoDup_seq]. intros i j _ _ E. lia.
    - intros q (i & -> & Hi%elem_of_seq)%list_elem_of_fmap. apply Hall. unfold page_ok. simpl.
      split; [|lia]. rewrite (Z.mul_comm 4096), Z.mod_add by lia. done. }
  destruct Hsub as [Hnd Hin]. pose proof (submseteq_length _ _ (NoDup_submseteq _ _ Hnd Hin)) as Hlen.
  by rewrite length_fmap, length_seq in Hlen.
Qed.

(** Two empty address spaces. *)
Lemma demo_two_empty :
  exists s r1 r2 l, uspace s r1 {[ [] := r1 ]} l ∅ /\ uspace s r2 {[ [] := r2 ]} l ∅ /\ r1 <> r2 /\
    held s = [] /\ (14 <= length l)%nat /\ forall va, leaf (mem s) {[ [] := r1 ]} va = 0.
Proof.
  destruct (kinit_ok boot_state demo16_linked eq_refl ltac:(apply not_elem_of_nil))
    as (s0 & l0 & _ & Hmo0 & Hf0 & Hall).
  pose proof (demo16_pages l0 Hall) as Hlen. pose proof (mem_only_held _ _ Hmo0) as Hh0.
  destruct l0 as [|r1 [|r2 l]]; simpl in Hlen; try lia.
  destruct (uvmcreate_ok demo16_linked s0 r1 (r2 :: l) Hf0) as (s1 & _ & Hmo1 & _ & Hu1 & Hlf1 & _);
    [rewrite Hh0; apply not_elem_of_nil|].
  pose proof (mem_only_held _ _ Hmo1) as Hh1. rewrite Hh0 in Hh1.
  destruct (uvmcreate_ok demo16_linked s1 r2 l) as (s2 & _ & Hmo2 & _ & Hu2 & _ & Hm2);
    [apply Hu1|rewrite Hh1; apply not_elem_of_nil|].
  assert (Hne : r1 <> r2).
  { destruct Hf0 as (_ & Hnd & _). apply NoDup_cons in Hnd as [Hnin _]. set_solver. }
  assert (Hok : page_ok r1 /\ page_ok r2) by (split; apply Hall; set_solver).
  assert (Hsame : forall p a x, ({[ [] := r1 ]} : gmap (list Z) Z) !! p = Some a -> in_page a x ->
    ldb (mem s2) x = ldb (mem s1) x).
  { intros p a x [_ <-]%lookup_singleton_Some Hx. apply Hm2. destruct Hok. by apply (page_apart r1 r2 x). }
  exists s2, r1, r2, l. split_and!; try done.
  - eapply uspace_frame; [exact Hu1|apply Hu2|set_solver|exact Hsame].
  - by rewrite (mem_only_held _ _ Hmo2).
  - lia.
  - intros va. rewrite <- (Hlf1 va). apply leaf_ext. eauto.
Qed.

(** A process with one page, and an empty address space. *)
Lemma demo_process :
  exists s r1 r2 pg1 l q, let um := {[ 0 := (q, user_flags) ]} in
    uspace s r1 pg1 l um /\ uspace s r2 {[ [] := r2 ]} l ∅ /\ held s = [] /\
    (forall p a, pg1 !! p = Some a -> a <> r2) /\ q <> r2 /\ sized um 4096 /\
    (forall v, UPAGES <= v < VPAGES -> flag (leaf (mem s) pg1 (v * PGSIZE)) PTE_V = false) /\
    (11 <= length l)%nat.
Proof.
  destruct demo_two_empty as (s & r1 & r2 & l & Hu1 & Hu2 & Hne & Hh & Hlen & Hlf).
  destruct l as [|q l]; [simpl in Hlen; lia|]. destruct user_flags_ok as [Hup Huf].
  destruct (alloc_map_page demo16_linked s r1 {[ [] := r1 ]} q l ∅ 0 user_perm Hu1)
    as (s1 & _ & Hq & _ & _ & _ & _ & _ & _ & Hmap);
    [rewrite Hh; apply not_elem_of_nil|done|lia|done|done|].
  destruct (Hmap (mem s1)) as (r & s3 & pg' & l' & _ & [(_ & _ & Hg & Hl3)|(_ & Hl2 & _)]);
    [done| |simpl in *; lia].
  rewrite insert_empty in Hg. pose proof Hg as [G1 G2 G3 G4 Ghi G5 G6].
  assert (Hr2 : page_ok r2 /\ (r2 ∉ q :: l)).
  { split; [by apply (pt_page _ _ _ (tables_pt _ _ _ _ (us_tables _ _ _ _ _ Hu2)) [] r2), lookup_singleton_eq|].
    by apply (tables_disj _ _ _ _ (us_tables _ _ _ _ _ Hu2) [] r2), lookup_singleton_eq. }
  destruct Hr2 as [Hr2 Hr2l]. exists s3, r1, r2, pg', l', q. cbv zeta. split_and!.
  - done.
  - eapply uspace_frame; [exact Hu2|apply G2| |].
    + intros b Hb. apply G5. by left.
    + intros p a x [_ <-]%lookup_singleton_Some Hx. apply G6.
      * intros p' a' [_ <-]%lookup_singleton_Some. apply (page_apart r2 r1 x); [done| |done|done].
        by apply (pt_page _ _ _ (tables_pt _ _ _ _ (us_tables _ _ _ _ _ Hu1)) [] r1), lookup_singleton_eq.
      * intros b Hb. apply (page_apart r2 b x); [done| |by intros ->|done].
        destruct (tables_free _ _ _ _ (us_tables _ _ _ _ _ Hu1)) as (_ & _ & Hok).
        rewrite Forall_forall in Hok. auto.
  - by rewrite (mem_only_held _ _ G1).
  - intros p a Hp ->. destruct (({[ [] := r1 ]} : gmap (list Z) Z) !! p) as [a|] eqn:E.
    + rewrite (lookup_weaken _ _ _ _ E G3) in Hp. apply lookup_singleton_Some in E as [_ <-]. congruence.
    + apply Hr2l, G5. right. left. eauto.
  - intros ->. apply Hr2l. set_solver.
  - intros v. unfold npages. rewrite lookup_singleton. change ((4096 + PGSIZE - 1) / PGSIZE) with 1.
    case_decide; [subst; split; [lia|eauto]|]. split; [by intros []|lia].
  - intros v Hv. rewrite (Ghi v Hv), Hlf. done.
  - simpl in Hlen, Hl3. lia.
Qed.

(** ** Witnesses *)

Lemma copyout_spec_witness :
  exists s root r m', copyout root 100 [1; 2; 3] s = Ok r (set_mem m' s).
Proof.
  destruct demo_process as (s & r1 & r2 & pg1 & l & q & Hu & _).
  destruct (copyout_spec demo16_linked s r1 pg1 l _ 100 [1; 2; 3] Hu ltac:(lia)
    ltac:(repeat constructor; lia)) as (r & m' & k & Hrun & _).
  exists s, r1, r, m'. exact Hrun.
Defined.

Lemma uvmalloc_spec_witness :
  exists s root r s', uvmalloc root 4096 10000 s = Ok r s'.
Proof.
  destruct demo_process as (s & r1 & r2 & pg1 & l & q & Hu & _ & Hh & _ & _ & Hs & _).
  destruct (uvmalloc_spec demo16_linked s r1 pg1 l _ 4096 10000 Hu
    ltac:(rewrite Hh; apply not_elem_of_nil) Hs ltac:(lia) ltac:(lia)) as (r & s' & pg' & l' & um' & H & _).
  exists s, r1, r, s'. exact H.
Defined.

Lemma uvmcopy_spec_witness :
  exists s old new r s', uvmcopy old new 4096 s = Ok r s'.
Proof.
  destruct demo_process as (s & r1 & r2 & pg1 & l & q & Hu1 & Hu2 & Hh & Ht & Hq & Hs & _).
  destruct (uvmcopy_spec demo16_linked s r1 r2 pg1 {[ [] := r2 ]} l _ 4096 Hu1 Hu2
    ltac:(rewrite Hh; apply not_elem_of_nil)
    ltac:(intros p p' a Ha [_ E]%lookup_singleton_Some; exact (Ht p a Ha (eq_sym E)))
    ltac:(intros v pa fl p [_ E]%lookup_singleton_Some [_ E']%lookup_singleton_Some;
          injection E as E _; exact (Hq (eq_trans E (eq_sym E'))))
    Hs ltac:(lia)) as (r & s' & pg' & l' & um' & H & _).
  exists s, r1, r2, r, s'. exact H.
Defined.

Lemma uvmfree_returns_all_witness :
  exists s root s', uvmfree root 4096 s = Ok tt s'.
Proof.
  destruct demo_process as (s & r1 & r2 & pg1 & l & q & Hu & _ & Hh & _ & _ & Hs & Hhi & _).
  destruct (uvmfree_returns_all s r1 pg1 l _ 4096 demo16_linked Hu
    ltac:(rewrite Hh; apply not_elem_of_nil) Hs ltac:(lia) Hhi) as (s' & l' & H & _).
  exists s, r1, s'. exact H.
Defined.
