(* ===== verification/Pipe.v ===== *)
(** * Pipes

    [pipeclose], [pipewrite] and [piperead] of [kernel/pipe.c] ([pipealloc],
    which needs the file table, is in [File.v]).  A [struct pipe] lives in a page
    of its own: the spinlock is the abstract [LkPipe], the ring of bytes, the two
    counters and the two flags are bytes of memory.  The theorems relate the
    ring to the queue of bytes it holds. *)

From stdpp Require Import gmap strings list fin_maps.
From S2P Require Import Prelude Layout State Sched Cstring Kalloc Vm VmFacts Uvm UvmAlloc VmDemo.

Abbreviation PIPESIZE := 512.

(** Fields of [struct pipe]. *)
Definition pi_data (pi : Z) : Z := pi + 24.
Definition pi_nread (pi : Z) : Z := pi + 536.
Definition pi_nwrite (pi : Z) : Z := pi + 540.
Definition pi_readopen (pi : Z) : Z := pi + 544.
Definition pi_writeopen (pi : Z) : Z := pi + 548.

Definition ldw (a : Z) : K Z := gets (fun s => ld32 (mem s) a).
Definition stw (a v : Z) : K unit := modify (fun s => set_mem (st32 (mem s) a v) s).
Definition stbyte (a v : Z) : K unit := modify (fun s => set_mem (stb (mem s) a v) s).
Definition ldbyte (a : Z) : K Z := gets (fun s => ldb (mem s) a).

Definition pipeclose `{Build} (pi : Z) (writable : bool) : K unit :=
  acquire (LkPipe pi) ;;
  (if writable then stw (pi_writeopen pi) 0 ;; wakeup (ChPipeR pi)
   else stw (pi_readopen pi) 0 ;; wakeup (ChPipeW pi)) ;;
  let! ro := ldw (pi_readopen pi) in
  let! wo := ldw (pi_writeopen pi) in
  if (ro =? 0) && (wo =? 0) then
    release (LkPipe pi) ;;
    kfree pi
  else release (LkPipe pi).

(** The statements after the loop of [pipewrite]. *)
Definition pipewrite_end (pi i : Z) : K Z :=
  wakeup (ChPipeR pi) ;;
  release (LkPipe pi) ;;
  ret i.

(** The loop of [pipewrite]: at most [k] turns, each of which writes a byte or
    goes to sleep. *)
Fixpoint pipewrite_loop (k : nat) (pr : nat) (pi addr n i : Z) : K Z :=
  if i <? n then
    match k with
    | O => no_fuel
    | S k =>
        let! ro := ldw (pi_readopen pi) in
        let! p := pget pr in
        if (ro =? 0) || p_killed p then
          release (LkPipe pi) ;;
          ret (-1)
        else
          let! nwrite := ldw (pi_nwrite pi) in
          let! nread := ldw (pi_nread pi) in
          if nwrite =? u32 (nread + PIPESIZE) then
            wakeup (ChPipeR pi) ;;
            sleep (ChPipeW pi) (LkPipe pi) ;;
            pipewrite_loop k pr pi addr n i
          else
            let! (r, ch) := copyin (p_pagetable p) (u64 (addr + i)) 1 in
            if r =? -1 then pipewrite_end pi i
            else
              stw (pi_nwrite pi) (nwrite + 1) ;;
              stbyte (pi_data pi + nwrite mod PIPESIZE) (default 0 (ch !! 0%nat)) ;;
              pipewrite_loop k pr pi addr n (i + 1)
    end
  else pipewrite_end pi i.

Definition pipewrite `{Build} (pi addr n : Z) : K Z :=
  let! pr := curproc in
  acquire (LkPipe pi) ;;
  pipewrite_loop (Z.to_nat n + S fuel) pr pi addr n 0.

(** [piperead]'s wait for data: [true] when it gave up because the process was
    killed. *)
Fixpoint piperead_wait (k : nat) (pr : nat) (pi : Z) : K bool :=
  match k with
  | O => no_fuel
  | S k =>
      let! nread := ldw (pi_nread pi) in
      let! nwrite := ldw (pi_nwrite pi) in
      let! wo := ldw (pi_writeopen pi) in
      if (nread =? nwrite) && negb (wo =? 0) then
        let! p := pget pr in
        if p_killed p then ret true
        else
          sleep (ChPipeR pi) (LkPipe pi) ;;
          piperead_wait k pr pi
      else ret false
  end.

(** Its copying loop, with [k] the number of turns left. *)
Fixpoint piperead_loop (k : nat) (pr : nat) (pi addr i : Z) : K Z :=
  match k with
  | O => ret i
  | S k =>
      let! nread := ldw (pi_nread pi) in
      let! nwrite := ldw (pi_nwrite pi) in
      if nread =? nwrite then ret i
      else
        let! ch := ldbyte (pi_data pi + nread mod PIPESIZE) in
        stw (pi_nread pi) (nread + 1) ;;
        let! p := pget pr in
        let! r := copyout (p_pagetable p) (u64 (addr + i)) [ch] in
        if r =? -1 then ret i else piperead_loop k pr pi addr (i + 1)
  end.

(** [piperead] from the point where it has the lock, with [k] turns for the wait. *)
Definition piperead_locked (k : nat) (pr : nat) (pi addr n : Z) : K Z :=
  let! killed := piperead_wait k pr pi in
  if killed then
    release (LkPipe pi) ;;
    ret (-1)
  else
    let! i := piperead_loop (Z.to_nat n) pr pi addr 0 in
    wakeup (ChPipeW pi) ;;
    release (LkPipe pi) ;;
    ret i.

Definition piperead `{Build} (pi addr n : Z) : K Z :=
  let! pr := curproc in
  acquire (LkPipe pi) ;;
  piperead_locked (S fuel) pr pi addr n.

(** ** The queue a pipe holds *)

(** The ring between the two counters, which run modulo [2 ^ 32], is the queue
    [q], oldest byte first. *)
Definition pipe_holds (m : gmap Z Z) (pi : Z) (q : list Z) : Prop :=
  (length q <= 512)%nat /\
  ld32 m (pi_nwrite pi) = u32 (ld32 m (pi_nread pi) + Z.of_nat (length q)) /\
  forall k b, q !! k = Some b ->
    ldb m (pi_data pi + (ld32 m (pi_nread pi) + Z.of_nat k) mod PIPESIZE) = b.

(** A store to a field of the pipe. *)
Lemma ld32_stb_ne m a v x : a < x \/ x + 4 <= a -> ld32 (stb m a v) x = ld32 m x.
Proof. intros. apply ld32_ext. intros y Hy. rewrite ldb_stb. case_decide; [lia|done]. Qed.

Lemma ring_index nr k : u32 (nr + k) mod PIPESIZE = (nr + k) mod PIPESIZE.
Proof. unfold u32. change (2 ^ 32) with (PIPESIZE * 2 ^ 23). word. Qed.

Lemma ring_ne nr k k' :
  0 <= k < PIPESIZE -> 0 <= k' < PIPESIZE -> k <> k' -> (nr + k) mod PIPESIZE <> (nr + k') mod PIPESIZE.
Proof. intros. Z.div_mod_to_equations. lia. Qed.

Lemma pipe_full m pi q :
  pipe_holds m pi q ->
  (ld32 m (pi_nwrite pi) =? u32 (ld32 m (pi_nread pi) + PIPESIZE)) = bool_decide (length q = 512%nat).
Proof.
  intros (Hl & Hw & _). rewrite Hw. set (nr := ld32 m (pi_nread pi)).
  destruct (Z.eqb_spec (u32 (nr + Z.of_nat (length q))) (u32 (nr + PIPESIZE))) as [E|E].
  - rewrite bool_decide_true; [done|]. revert E. word.
  - rewrite bool_decide_false; [done|]. intros El. apply E. rewrite El. done.
Qed.

Lemma pipe_empty m pi q :
  pipe_holds m pi q -> (ld32 m (pi_nread pi) =? ld32 m (pi_nwrite pi)) = bool_decide (q = []).
Proof.
  intros (Hl & Hw & _). rewrite Hw. pose proof (ld32_range m (pi_nread pi)).
  set (nr := ld32 m (pi_nread pi)) in *. destruct q as [|b q].
  - rewrite bool_decide_true by done. apply Z.eqb_eq. simpl. rewrite Z.add_0_r, u32_small; done.
  - rewrite bool_decide_false by done. apply Z.eqb_neq. simpl in *. word.
Qed.

(** Writing a byte at the tail, [pi->data[pi->nwrite++ % PIPESIZE] = ch]. *)
Definition push_mem (m : gmap Z Z) (pi ch : Z) : gmap Z Z :=
  stb (st32 m (pi_nwrite pi) (ld32 m (pi_nwrite pi) + 1))
    (pi_data pi + ld32 m (pi_nwrite pi) mod PIPESIZE) ch.

Lemma pipe_push m pi q ch :
  pipe_holds m pi q -> (length q < 512)%nat -> 0 <= ch < 256 ->
  pipe_holds (push_mem m pi ch) pi (q ++ [ch]).
Proof.
  intros (Hl & Hw & Hq) Hlt Hch. unfold push_mem. set (nw := ld32 m (pi_nwrite pi)) in *.
  assert (Hix : 0 <= nw mod PIPESIZE < PIPESIZE) by (apply Z.mod_pos_bound; lia).
  assert (Hnr : forall v a, pi_data pi <= a < pi_data pi + PIPESIZE ->
    ld32 (stb (st32 m (pi_nwrite pi) v) a ch) (pi_nread pi) = ld32 m (pi_nread pi)).
  { intros v a Ha. unfold pi_data, pi_nread, pi_nwrite in *.
    rewrite ld32_stb_ne, ld32_st32_ne by lia. done. }
  unfold pipe_holds. rewrite Hnr by lia. set (nr := ld32 m (pi_nread pi)) in *.
  rewrite length_app. cbn [length]. split_and!.
  - lia.
  - rewrite ld32_stb_ne by (unfold pi_data, pi_nwrite in *; lia). rewrite ld32_st32_eq, Hw.
    word.
  - intros k b Hk. rewrite ldb_stb. apply lookup_app_Some in Hk as [Hk|[Hk1 Hk]].
    + pose proof (lookup_lt_Some _ _ _ Hk). rewrite decide_False.
      * rewrite ldb_st32_ne; [by apply Hq|]. unfold pi_data, pi_nwrite.
        pose proof (Z.mod_pos_bound (nr + Z.of_nat k) PIPESIZE). lia.
      * rewrite Hw, ring_index. pose proof (ring_ne nr (Z.of_nat k) (Z.of_nat (length q))). lia.
    + apply list_lookup_singleton_Some in Hk as [Hk <-].
      assert (k = length q) as -> by lia. rewrite Hw, ring_index, decide_True by done.
      by apply u8_small.
Qed.

(** Taking the byte at the head, [pi->nread++]. *)
Lemma pipe_pop m pi ch q :
  pipe_holds m pi (ch :: q) ->
  ldb m (pi_data pi + ld32 m (pi_nread pi) mod PIPESIZE) = ch /\
  pipe_holds (st32 m (pi_nread pi) (ld32 m (pi_nread pi) + 1)) pi q.
Proof.
  intros (Hl & Hw & Hq). cbn [length] in *. split.
  - rewrite <- (Hq 0%nat ch eq_refl). by rewrite Z.add_0_r.
  - unfold pipe_holds. rewrite ld32_st32_eq, ld32_st32_ne by (unfold pi_nread, pi_nwrite; lia).
    set (nr := ld32 m (pi_nread pi)) in *. split_and!.
    + lia.
    + rewrite Hw. word.
    + intros k b Hk. rewrite ldb_st32_ne.
      * rewrite <- (Hq (S k) b Hk). do 2 f_equal. rewrite Nat2Z.inj_succ.
        unfold u32. change (2 ^ 32) with (PIPESIZE * 2 ^ 23). word.
      * unfold pi_data, pi_nread.
        pose proof (Z.mod_pos_bound (u32 (nr + 1) + Z.of_nat k) PIPESIZE). lia.
Qed.

(** The queue does not depend on memory outside of the pipe. *)
Lemma pipe_holds_ext m m' pi q :
  (forall x, in_page pi x -> ldb m' x = ldb m x) -> pipe_holds m pi q -> pipe_holds m' pi q.
Proof.
  intros Hm (Hl & Hw & Hq). unfold pipe_holds.
  rewrite !(ld32_ext m m') by (intros; apply Hm; unfold in_page, pi_nread, pi_nwrite in *; lia).
  split_and!; [done|done|]. intros k b Hk. rewrite Hm; [by apply Hq|].
  unfold in_page, pi_data. pose proof (Z.mod_pos_bound (ld32 m (pi_nread pi) + Z.of_nat k) PIPESIZE). lia.
Qed.

(** ** One stretch of a pipe operation

    Between two points where it may sleep, a routine runs with the pipe's lock
    as the only spinlock held.  [at_pipe] describes such a moment: process [pr],
    with entry [p], address space [um] and page tables [pg], is running, and the
    pipe [pi], in a page of its own, holds [q]. *)

Section Stretch.
Context `{Build}.
Hypothesis Hlink : linked.

Record at_pipe (s : kstate) (pr : nat) (p : proc) (pi : Z) (pg : gmap (list Z) Z) (l : list Z)
    (um : gmap Z (Z * Z)) (q : list Z) : Prop := MkAtPipe {
  ap_cur : cur s = Some pr;
  ap_proc : procs s !! pr = Some p;
  ap_len : length (procs s) = 64%nat;
  ap_held : held s = [LkPipe pi];
  ap_user : uspace s (p_pagetable p) pg l um;
  ap_page : page_ok pi;
  ap_free : pi ∉ l;
  ap_tables : forall x, pg !! x <> Some pi;
  ap_pages : forall v fl, um !! v <> Some (pi, fl);
  ap_queue : pipe_holds (mem s) pi q
}.

Definition readopen (m : gmap Z Z) (pi : Z) : bool := negb (ld32 m (pi_readopen pi) =? 0).
Definition writeopen (m : gmap Z Z) (pi : Z) : bool := negb (ld32 m (pi_writeopen pi) =? 0).

Definition same_outside (pi : Z) (m m' : gmap Z Z) : Prop :=
  forall x, ~ in_page pi x -> ldb m' x = ldb m x.

Lemma at_pipe_user s pr p pi pg l um q m' va :
  at_pipe s pr p pi pg l um q -> same_outside pi (mem s) m' -> uget m' um va = uget (mem s) um va.
Proof.
  intros Ha Hm. apply upages_same_uget. intros v pa fl x E Hx. apply Hm.
  apply (page_apart pa pi x); [by eapply us_leaf; [apply Ha|]|apply Ha| |done].
  intros ->. by apply (ap_pages _ _ _ _ _ _ _ _ Ha v fl).
Qed.

(** A change of the pipe's own page. *)
Lemma at_pipe_set s pr p pi pg l um q m' q' :
  at_pipe s pr p pi pg l um q -> same_outside pi (mem s) m' -> pipe_holds m' pi q' ->
  at_pipe (set_mem m' s) pr p pi pg l um q'.
Proof.
  intros [A1 A2 A3 A4 A5 A6 A7 A8 A9 A10] Hm Hq. constructor; try done.
  eapply uspace_frame; [exact A5| |done|].
  - eapply (free_list_frame s _ l pi); [apply A5|done|apply A6|done|exact Hm].
  - intros x a y Hx Hy. apply Hm. apply (page_apart a pi y); [by eapply pt_page; [apply A5|]|done| |done].
    intros ->. by apply (A8 x).
Qed.

Lemma push_outside m pi ch : same_outside pi m (push_mem m pi ch).
Proof.
  intros x Hx. unfold push_mem, in_page, pi_data, pi_nwrite in *.
  pose proof (Z.mod_pos_bound (ld32 m (pi + 540)) PIPESIZE).
  rewrite ldb_stb. case_decide; [lia|]. apply ldb_st32_ne. lia.
Qed.

Lemma push_readopen m pi ch : readopen (push_mem m pi ch) pi = readopen m pi.
Proof.
  unfold readopen, push_mem, pi_data, pi_nwrite, pi_readopen.
  pose proof (Z.mod_pos_bound (ld32 m (pi + 540)) PIPESIZE).
  rewrite ld32_stb_ne, ld32_st32_ne by lia. done.
Qed.

(** [copyin] of one byte. *)
Lemma copyin_byte s root pg l um va :
  uspace s root pg l um -> 0 <= va ->
  copyin root va 1 s =
    match uget (mem s) um va with Some b => Ok (0, [b]) s | None => Ok (-1, []) s end.
Proof.
  intros Hu Hva.
  destruct (copyin_loop_ok Hlink 1 root pg l um s Hu va 1 Hva ltac:(lia)) as (r & bs & Hrun & Hor & Hb).
  unfold copyin. change (Z.to_nat 1) with 1%nat. rewrite Hrun. destruct Hor as [[-> Hlen]|(-> & Hlen & Hn)].
  - destruct bs as [|b [|? ?]]; simpl in Hlen; try lia.
    specialize (Hb 0%nat ltac:(simpl; lia)). simpl in Hb. rewrite Z.add_0_r in Hb. by rewrite Hb.
  - destruct bs; simpl in Hlen; [|lia]. simpl in Hn. rewrite Z.add_0_r in Hn. by rewrite Hn.
Qed.

Lemma pipewrite_end_ok s pr p pi pg l um q i :
  at_pipe s pr p pi pg l um q ->
  pipewrite_end pi i s =
    Ok i (set_held [] (set_procs (wake_all (ChPipeR pi) (Some pr) (procs s)) s)).
Proof.
  intros [A1 A2 A3 A4 A5 A6 A7 A8 A9 A10]. unfold pipewrite_end.
  assert (Hom : only_mine s) by (intros j Hj; rewrite A4 in Hj; set_solver).
  mstep (wakeup_ok (ChPipeR pi) s Hom A3). rewrite A1.
  set (s1 := set_procs _ s). mstep (release_only (LkPipe pi) s1 A4). done.
Qed.

(** The state in which [pr] sleeps on [c], the pipe's lock released, the processes
    waiting on [c'] woken. *)
Definition gone_to_sleep (c c' : chan) (pr : nat) (p : proc) (s : kstate) : kstate :=
  set_procs (<[pr := asleep c p]> (wake_all c' (Some pr) (procs s))) (set_held [LkProc pr] s).

(** The state in which it goes on, when it is resumed in [s2]. *)
Definition back_from_sleep (pi : Z) (pr : nat) (p2 : proc) (s2 : kstate) : kstate :=
  set_held [LkPipe pi] (set_procs (<[pr := set_p_chan None p2]> (procs s2)) s2).

Lemma wake_and_sleep {A} s pr p pi pg l um q (f : K A) :
  at_pipe s pr p pi pg l um q ->
  exists c, (wakeup (ChPipeR pi) ;; sleep (ChPipeW pi) (LkPipe pi) ;; f) s =
    Switch (gone_to_sleep (ChPipeW pi) (ChPipeR pi) pr p s) c /\
    forall s2 p2, procs s2 !! pr = Some p2 -> held s2 = [LkProc pr] ->
      c s2 = f (back_from_sleep pi pr p2 s2).
Proof.
  intros [A1 A2 A3 A4 A5 A6 A7 A8 A9 A10].
  assert (Hom : only_mine s) by (intros j Hj; rewrite A4 in Hj; set_solver).
  mstep (wakeup_ok (ChPipeR pi) s Hom A3). rewrite A1. set (s1 := set_procs _ s).
  destruct (sleep_run (ChPipeW pi) (LkPipe pi) pr p s1) as (k & Hsl & Hk); [done| |done|done|].
  { simpl. by apply wake_all_me. }
  unfold bind at 1. rewrite Hsl. cbn [obind]. eexists. split; [done|].
  intros s2 p2 Hp2 Hh2. cbv beta. rewrite (Hk s2 p2 Hp2 Hh2). done.
Qed.

(** The ways a stretch of [pipewrite] ends, after [bs] has been written in state
    [s], which leads to [s1]: [i'] is the number of bytes written so far. *)
Inductive write_ends (s1 : kstate) (pr : nat) (p : proc) (pi addr n i' : Z)
    (um : gmap Z (Z * Z)) (q : list Z) : outcome kstate Z -> Prop :=
| WriteRefused :
    i' < n -> readopen (mem s1) pi = false \/ p_killed p = true ->
    write_ends s1 pr p pi addr n i' um q (Ok (-1) (set_held [] s1))
| WriteDone :
    i' = n \/ i' < n /\ uget (mem s1) um (addr + i') = None ->
    write_ends s1 pr p pi addr n i' um q
      (Ok i' (set_held [] (set_procs (wake_all (ChPipeR pi) (Some pr) (procs s1)) s1)))
| WriteSleeps k' c :
    i' < n -> length q = 512%nat -> (Z.to_nat (n - i') <= k')%nat ->
    (forall s2 p2, procs s2 !! pr = Some p2 -> held s2 = [LkProc pr] ->
       c s2 = pipewrite_loop k' pr pi addr n i' (back_from_sleep pi pr p2 s2)) ->
    write_ends s1 pr p pi addr n i' um q
      (Switch (gone_to_sleep (ChPipeW pi) (ChPipeR pi) pr p s1) c).

Lemma pipewrite_turn s pr p pi pg l um q addr n i k :
  at_pipe s pr p pi pg l um q -> 0 <= i -> 0 <= addr -> addr + n <= 2 ^ 64 -> i < n ->
  readopen (mem s) pi = true -> p_killed p = false -> (length q < 512)%nat ->
  pipewrite_loop (S k) pr pi addr n i s =
    match uget (mem s) um (addr + i) with
    | Some ch => pipewrite_loop k pr pi addr n (i + 1) (set_mem (push_mem (mem s) pi ch) s)
    | None => pipewrite_end pi i s
    end.
Proof.
  intros Ha Hi Hadr Hmax Hlt Hro Hk Hq. pose proof Ha as [A1 A2 A3 A4 A5 A6 A7 A8 A9 A10].
  cbn [pipewrite_loop]. destruct (Z.ltb_spec i n) as [_|]; [|lia].
  unfold bind at 1. cbn [ldw gets obind]. mstep (pget_ok pr p s A2).
  unfold readopen in Hro. rewrite negb_true_iff in Hro. rewrite Hro, Hk. cbn [orb].
  unfold bind at 1. cbn [ldw gets obind]. unfold bind at 1. cbn [ldw gets obind].
  rewrite (pipe_full _ _ _ A10), bool_decide_false by lia.
  rewrite u64_small by lia. unfold bind at 1.
  rewrite (copyin_byte s (p_pagetable p) pg l um (addr + i) A5 ltac:(lia)).
  destruct (uget (mem s) um (addr + i)) as [ch|]; cbn [obind]; [|done].
  destruct (Z.eqb_spec 0 (-1)); [done|]. unfold bind at 1. cbn [stw modify obind].
  unfold bind at 1. cbn [stbyte modify obind]. done.
Qed.

Lemma uget_byte m um va b : uget m um va = Some b -> 0 <= b < 256.
Proof.
  unfold uget. repeat case_match; try done. intros [= <-]. apply ldb_range.
Qed.

Lemma pipewrite_loop_ok pr p pi pg l um addr n : forall k i s q,
  at_pipe s pr p pi pg l um q -> 0 <= i <= n -> 0 <= addr -> addr + n <= 2 ^ 64 ->
  (Z.to_nat (n - i) < k)%nat ->
  exists bs m', let s1 := set_mem m' s in let i' := i + Z.of_nat (length bs) in
    i' <= n /\ user_bytes (mem s) um (addr + i) bs /\ same_outside pi (mem s) m' /\
    at_pipe s1 pr p pi pg l um (q ++ bs) /\
    write_ends s1 pr p pi addr n i' um (q ++ bs) (pipewrite_loop k pr pi addr n i s).
Proof.
  induction k as [|k IH]; intros i s q Ha Hi Hadr Hmax Hk; [lia|].
  pose proof Ha as [A1 A2 A3 A4 A5 A6 A7 A8 A9 A10].
  assert (Hhere : forall o, write_ends s pr p pi addr n i um q o -> exists bs m',
    let s1 := set_mem m' s in let i' := i + Z.of_nat (length bs) in
    i' <= n /\ user_bytes (mem s) um (addr + i) bs /\ same_outside pi (mem s) m' /\
    at_pipe s1 pr p pi pg l um (q ++ bs) /\ write_ends s1 pr p pi addr n i' um (q ++ bs) o).
  { intros o Ho. exists [], (mem s). cbv zeta. rewrite set_mem_mem, app_nil_r. simpl.
    rewrite Z.add_0_r. split_and!; [lia|apply user_bytes_nil|by intros x _|done|done]. }
  destruct (decide (i = n)) as [->|Hne].
  { apply Hhere. cbn [pipewrite_loop]. rewrite Z.ltb_irrefl.
    rewrite (pipewrite_end_ok s pr p pi pg l um q n Ha). by apply WriteDone; left. }
  destruct (negb (readopen (mem s) pi) || p_killed p) eqn:Estop.
  { apply Hhere. cbn [pipewrite_loop]. destruct (Z.ltb_spec i n) as [_|]; [|lia].
    unfold bind at 1. cbn [ldw gets obind]. mstep (pget_ok pr p s A2).
    unfold readopen in Estop. rewrite negb_involutive in Estop. rewrite Estop.
    mstep (release_only (LkPipe pi) s A4). apply WriteRefused; [lia|].
    unfold readopen. apply orb_true_iff in Estop as [->| ->]; auto. }
  apply orb_false_iff in Estop as [Hro Hkl]. apply negb_false_iff in Hro.
  destruct (decide (length q = 512%nat)) as [Hfull|Hroom].
  { apply Hhere. cbn [pipewrite_loop]. destruct (Z.ltb_spec i n) as [_|]; [|lia].
    unfold bind at 1. cbn [ldw gets obind]. mstep (pget_ok pr p s A2).
    unfold readopen in Hro. rewrite negb_true_iff in Hro. rewrite Hro, Hkl. cbn [orb].
    unfold bind at 1. cbn [ldw gets obind]. unfold bind at 1. cbn [ldw gets obind].
    rewrite (pipe_full _ _ _ A10), bool_decide_true by done.
    destruct (wake_and_sleep s pr p pi pg l um q (pipewrite_loop k pr pi addr n i) Ha) as (c & Hc & Hres).
    rewrite Hc. apply WriteSleeps with k; [lia|done|lia|done]. }
  assert (Hlen : (length q < 512)%nat) by (destruct A10; lia).
  rewrite (pipewrite_turn s pr p pi pg l um q addr n i k) by (done || lia).
  destruct (uget (mem s) um (addr + i)) as [ch|] eqn:Eu.
  2: { apply Hhere. rewrite (pipewrite_end_ok s pr p pi pg l um q i Ha). apply WriteDone. right. split; [lia|done]. }
  pose proof (push_outside (mem s) pi ch) as Hout.
  pose proof (at_pipe_set s pr p pi pg l um q _ _ Ha Hout
    (pipe_push _ _ _ ch A10 Hlen (uget_byte _ _ _ _ Eu))) as Ha1.
  destruct (IH (i + 1) _ _ Ha1) as (bs & m' & Hi' & Hub & Ho' & Ha' & He); [lia|done|done|lia|].
  cbn [mem set_mem] in *. exists (ch :: bs), m'. cbv zeta in *.
  replace (i + Z.of_nat (length (ch :: bs))) with (i + 1 + Z.of_nat (length bs)) by (cbn [length]; lia).
  replace (q ++ ch :: bs) with ((q ++ [ch]) ++ bs) by (by rewrite <- app_assoc).
  split_and!; [done| |by intros x Hx; rewrite Ho', Hout|exact Ha'|].
  - intros [|j] Hj; simpl; [by rewrite Z.add_0_r|]. cbn [length] in Hj.
    rewrite <- (Hub j) by lia. rewrite (at_pipe_user s pr p pi pg l um q (push_mem (mem s) pi ch)) by done.
    f_equal. lia.
  - destruct He; [by apply WriteRefused|by apply WriteDone|by eapply WriteSleeps].
Qed.


(** ** Reading *)

(** The memory after reading [bs] from the pipe to the user's memory at [dst]. *)
Record delivered (pi : Z) (um : gmap Z (Z * Z)) (dst : Z) (bs : list Z) (m m' : gmap Z Z) : Prop :=
  MkDelivered {
    dl_user : forall va, uget m' um va = copied (uget m um) dst (Z.of_nat (length bs)) bs va;
    dl_other : forall x, ~ in_page pi x ->
      (forall v pa fl, um !! v = Some (pa, fl) -> ~ in_page pa x) -> ldb m' x = ldb m x
  }.

Lemma delivered_nil pi um dst m m' :
  (forall va, uget m' um va = uget m um va) -> same_outside pi m m' -> delivered pi um dst [] m m'.
Proof.
  intros Hu Hs. constructor.
  - intros va. rewrite Hu. unfold copied. simpl. rewrite decide_False by lia. done.
  - intros x Hx _. by apply Hs.
Qed.

Lemma delivered_cons pi um dst b bs m m1 m2 :
  delivered pi um dst [b] m m1 -> delivered pi um (dst + 1) bs m1 m2 ->
  delivered pi um dst (b :: bs) m m2.
Proof.
  intros [U1 O1] [U2 O2]. constructor.
  - intros va. rewrite U2. unfold copied. cbn [length] in *. rewrite U1. unfold copied.
    cbn [length]. repeat case_decide; try lia; try done.
    + replace (Z.to_nat (va - dst)) with (S (Z.to_nat (va - (dst + 1)))) by lia. done.
    + replace (va - dst) with 0 by lia. done.
  - intros x Hx Hu. rewrite O2, O1; done.
Qed.

(** One byte taken from the queue and copied out. *)
Lemma piperead_byte s pr p pi pg l um ch q addr :
  at_pipe s pr p pi pg l um (ch :: q) -> 0 <= addr ->
  let s1 := set_mem (st32 (mem s) (pi_nread pi) (ld32 (mem s) (pi_nread pi) + 1)) s in
  exists r m', copyout (p_pagetable p) addr [ch] s1 = Ok r (set_mem m' s) /\
    at_pipe (set_mem m' s) pr p pi pg l um q /\
    (r = 0 /\ delivered pi um addr [ch] (mem s) m' \/
     r = -1 /\ uget (mem s) um addr = None /\ delivered pi um addr [] (mem s) m').
Proof.
  intros Ha Hadr s1. pose proof Ha as [A1 A2 A3 A4 A5 A6 A7 A8 A9 A10].
  destruct (pipe_pop _ _ _ _ A10) as [Hch Hpop].
  assert (Hout : same_outside pi (mem s) (mem s1)).
  { intros x Hx. simpl. apply ldb_st32_ne. unfold in_page, pi_nread in *. lia. }
  pose proof (at_pipe_set s pr p pi pg l um _ _ _ Ha Hout Hpop) as Ha1. fold s1 in Ha1.
  destruct (copyout_loop_ok Hlink 1 (p_pagetable p) pg l um [ch] addr s1)
    as (r & m' & k & Hrun & Hu' & Honly & Hor & Hget); [apply Ha1|done|simpl; lia| |].
  { constructor; [|done]. rewrite <- Hch. apply ldb_range. }
  assert (Hpi : forall x, in_page pi x -> ldb m' x = ldb (mem s1) x).
  { intros x Hx. apply Honly. intros v pa fl E.
    apply (page_apart pi pa x); [apply A6|by eapply us_leaf; [apply A5|]| |done].
    intros <-. by apply (A9 v fl). }
  exists r, m'. split; [exact Hrun|]. split.
  { constructor; try done. by apply (pipe_holds_ext (mem s1)). }
  assert (Hold : forall va, uget (mem s1) um va = uget (mem s) um va)
    by (intros va; by apply (at_pipe_user s pr p pi pg l um (ch :: q))).
  assert (Hoth : forall x, ~ in_page pi x ->
    (forall v pa fl, um !! v = Some (pa, fl) -> ~ in_page pa x) -> ldb m' x = ldb (mem s) x).
  { intros x Hx Hx'. rewrite (Honly x Hx'). by apply Hout. }
  destruct Hor as [[-> ->]|(-> & Hk & Hn)]; [left|right]; (split; [done|]).
  - constructor; [|done]. intros va. rewrite Hget. unfold copied. by rewrite Hold.
  - cbn [length] in Hk. assert (k = 0) as -> by lia. rewrite Z.add_0_r, Hold in Hn. split; [done|].
    constructor; [|done]. intros va. rewrite Hget. unfold copied. simpl. by rewrite Hold, !decide_False by lia.
Qed.

Lemma piperead_loop_ok pr p pi pg l um addr : forall k i s q,
  at_pipe s pr p pi pg l um q -> 0 <= i -> 0 <= addr -> addr + i + Z.of_nat k <= 2 ^ 64 ->
  exists bs lost q' m', q = bs ++ lost ++ q' /\ (length bs <= k)%nat /\
    piperead_loop k pr pi addr i s = Ok (i + Z.of_nat (length bs)) (set_mem m' s) /\
    at_pipe (set_mem m' s) pr p pi pg l um q' /\ delivered pi um (addr + i) bs (mem s) m' /\
    (lost = [] /\ (length bs = k \/ q' = []) \/
     (length bs < k)%nat /\ (exists b, lost = [b]) /\
       uget (mem s) um (addr + i + Z.of_nat (length bs)) = None).
Proof.
  induction k as [|k IH]; intros i s q Ha Hi Hadr Hmax.
  { exists [], [], q, (mem s). rewrite set_mem_mem. simpl. rewrite Z.add_0_r.
    split_and!; [done|lia|done|done|by apply delivered_nil|]. left. split; [done|by left]. }
  pose proof Ha as [A1 A2 A3 A4 A5 A6 A7 A8 A9 A10]. cbn [piperead_loop].
  unfold bind at 1. cbn [ldw gets obind]. unfold bind at 1. cbn [ldw gets obind].
  rewrite (pipe_empty _ _ _ A10). destruct q as [|ch q].
  { rewrite bool_decide_true by done. exists [], [], [], (mem s). rewrite set_mem_mem. simpl.
    rewrite Z.add_0_r. split_and!; [done|lia|done|done|by apply delivered_nil|].
    left. split; [done|by right]. }
  rewrite bool_decide_false by done. destruct (pipe_pop _ _ _ _ A10) as [Hch _].
  unfold bind at 1. cbn [ldbyte gets obind]. rewrite Hch. unfold bind at 1. cbn [stw modify obind].
  destruct (piperead_byte s pr p pi pg l um ch q (addr + i) Ha ltac:(lia)) as (r & m1 & Hrun & Ha1 & Hor).
  set (s1 := set_mem _ s) in *. mstep (pget_ok pr p s1 A2). rewrite u64_small by lia. mstep Hrun.
  destruct Hor as [[-> Hd]|(-> & Hn & Hd)].
  - destruct (Z.eqb_spec 0 (-1)); [done|].
    destruct (IH (i + 1) _ _ Ha1) as (bs & lost & q' & m' & -> & Hlen & Hrun' & Ha' & Hd' & Hend);
      [lia|done|lia|]. cbn [mem set_mem] in *.
    exists (ch :: bs), lost, q', m'. replace (addr + (i + 1)) with (addr + i + 1) in * by lia.
    replace (i + Z.of_nat (length (ch :: bs))) with (i + 1 + Z.of_nat (length bs)) by (cbn [length]; lia).
    split_and!; [done|simpl; lia|by rewrite Hrun'|done|by eapply delivered_cons|].
    destruct Hend as [[-> Hor]|(Hlt & Hb & Hn)]; [left|right]; (split; [done || (simpl; lia)|]).
    + by destruct Hor; [left; simpl; lia|right].
    + split; [done|]. destruct Hd as [Hdu _]. rewrite Hdu in Hn. unfold copied in Hn.
      cbn [length] in Hn. rewrite decide_False in Hn by lia. rewrite <- Hn. f_equal. simpl. lia.
  - exists [], [ch], q, m1. simpl. rewrite Z.add_0_r. split_and!; [done|lia|done|done|done|].
    right. rewrite !Z.add_0_r. split_and!; [lia|eauto|done].
Qed.

(** The ways a stretch of [piperead] ends. *)
Inductive read_ends (s : kstate) (pr : nat) (p : proc) (pi addr n : Z) (pg : gmap (list Z) Z)
    (l : list Z) (um : gmap Z (Z * Z)) (q : list Z) (k : nat) : outcome kstate Z -> Prop :=
| ReadKilled :
    q = [] -> writeopen (mem s) pi = true -> p_killed p = true ->
    read_ends s pr p pi addr n pg l um q k (Ok (-1) (set_held [] s))
| ReadSleeps c :
    q = [] -> writeopen (mem s) pi = true -> p_killed p = false ->
    (forall s2 p2, procs s2 !! pr = Some p2 -> held s2 = [LkProc pr] ->
       c s2 = piperead_locked k pr pi addr n (back_from_sleep pi pr p2 s2)) ->
    read_ends s pr p pi addr n pg l um q k
      (Switch (set_procs (<[pr := asleep (ChPipeR pi) p]> (procs s)) (set_held [LkProc pr] s)) c)
| ReadDone bs lost q' m' :
    q <> [] \/ writeopen (mem s) pi = false ->
    q = bs ++ lost ++ q' -> at_pipe (set_mem m' s) pr p pi pg l um q' ->
    delivered pi um addr bs (mem s) m' ->
    (lost = [] /\ (length bs = Z.to_nat n \/ (length bs < Z.to_nat n)%nat /\ q' = []) \/
     (length bs < Z.to_nat n)%nat /\ (exists b, lost = [b]) /\
       uget (mem s) um (addr + Z.of_nat (length bs)) = None) ->
    read_ends s pr p pi addr n pg l um q k
      (Ok (Z.of_nat (length bs))
         (set_held [] (set_procs (wake_all (ChPipeW pi) (Some pr) (procs s)) (set_mem m' s)))).

Lemma piperead_wait_turn s pr p pi pg l um q k :
  at_pipe s pr p pi pg l um q ->
  piperead_wait (S k) pr pi s =
    if bool_decide (q = []) && writeopen (mem s) pi then
      if p_killed p then Ok true s
      else (sleep (ChPipeR pi) (LkPipe pi) ;; piperead_wait k pr pi) s
    else Ok false s.
Proof.
  intros [A1 A2 A3 A4 A5 A6 A7 A8 A9 A10]. cbn [piperead_wait].
  do 3 (unfold bind at 1; cbn [ldw gets obind]). rewrite (pipe_empty _ _ _ A10).
  unfold writeopen. destruct (bool_decide (q = []) && _); [|done].
  mstep (pget_ok pr p s A2). by destruct (p_killed p).
Qed.

(** C30: a pipe is read as a queue.  A stretch of [piperead] with the lock held takes
    bytes from the front of the queue, in order, to the caller's memory, and
    changes nothing else but the queue.  On an empty queue whose write side is
    open it returns -1 if the caller was killed and otherwise sleeps on the read
    channel with the lock released; else it returns the number of bytes
    delivered, having woken the writers: [n], or all there were, or those before
    the first inaccessible byte of the destination, in which case the next byte
    of the queue is lost. *)
Theorem piperead_fifo pr p pi pg l um addr n k s q :
  at_pipe s pr p pi pg l um q -> 0 <= n -> 0 <= addr -> addr + n <= 2 ^ 64 ->
  read_ends s pr p pi addr n pg l um q k (piperead_locked (S k) pr pi addr n s).
Proof.
  intros Ha Hn Hadr Hmax. pose proof Ha as [A1 A2 A3 A4 A5 A6 A7 A8 A9 A10].
  unfold piperead_locked. unfold bind at 1. rewrite (piperead_wait_turn s pr p pi pg l um q k Ha).
  destruct (bool_decide_reflect (q = [])) as [Hq|Hq], (writeopen (mem s) pi) eqn:Hwo; cbn [andb obind].
  1: { destruct (p_killed p) eqn:Hkl; cbn [obind].
    - mstep (release_only (LkPipe pi) s A4). by apply ReadKilled.
    - destruct (sleep_run (ChPipeR pi) (LkPipe pi) pr p s A1 A2 A4 ltac:(done)) as (c & Hsl & Hc).
      unfold bind at 1. rewrite Hsl. cbn [obind]. apply ReadSleeps; [done|done|done|].
      intros s2 p2 Hp2 Hh2. cbv beta. by rewrite (Hc s2 p2 Hp2 Hh2). }
  all: destruct (piperead_loop_ok pr p pi pg l um addr (Z.to_nat n) 0 s q Ha)
      as (bs & lost & q' & m' & Hqs & Hlen & Hrun & Ha' & Hd & Hend); [lia|lia|lia|];
    mstep Hrun; rewrite Z.add_0_l, Z.add_0_r in *;
    (assert (Hom : only_mine (set_mem m' s)) by (intros j Hj; simpl in Hj; rewrite A4 in Hj; set_solver));
    mstep (wakeup_ok (ChPipeW pi) (set_mem m' s) Hom A3); simpl; rewrite A1;
    set (s1 := set_procs _ _); mstep (release_only (LkPipe pi) s1 A4);
    apply ReadDone with lost q'; auto;
    (destruct Hend as [[-> [?|?]]|?]; [left; auto|left|by right]);
    (split; [done|]); destruct (decide (length bs = Z.to_nat n)); [by left|right; split; [lia|done]].
Qed.

(** ** Closing *)

(** [pipeclose] of the last open end gives the page back; of another end it
    only clears the flag.  Those waiting on the other side are woken. *)
Lemma pipeclose_ok s l pi (writable : bool) :
  free_list s l -> page_ok pi -> pi ∉ l -> held s = [] -> length (procs s) = 64%nat ->
  exists s', pipeclose pi writable s = Ok tt s' /\ held s' = [] /\ cur s' = cur s /\
    procs s' = wake_all (if writable then ChPipeR pi else ChPipeW pi) (cur s) (procs s) /\
    same_outside pi (mem s) (mem s') /\
    if (if writable then readopen else writeopen) (mem s) pi
    then freelist s' = freelist s /\ (if writable then writeopen else readopen) (mem s') pi = false /\
      (forall q, pipe_holds (mem s) pi q -> pipe_holds (mem s') pi q)
    else free_list s' (pi :: l).
Proof.
  intros Hf Hp Hnin Hh Hlen. unfold pipeclose.
  mstep (acquire_ok (LkPipe pi) s ltac:(rewrite Hh; set_solver)). rewrite Hh.
  set (a := if writable then pi_writeopen pi else pi_readopen pi).
  set (m1 := st32 (mem s) a 0). set (c := if writable then ChPipeR pi else ChPipeW pi).
  set (s1 := set_procs (wake_all c (cur s) (procs s)) (set_mem m1 (set_held [LkPipe pi] s))).
  assert (Hrun : (if writable then stw (pi_writeopen pi) 0 ;; wakeup (ChPipeR pi)
                  else stw (pi_readopen pi) 0 ;; wakeup (ChPipeW pi)) (set_held [LkPipe pi] s) = Ok tt s1).
  { destruct writable; unfold bind; cbn [stw modify obind]; rewrite wakeup_ok; try done;
      intros j Hj; simpl in Hj; set_solver. }
  mstep Hrun. clear Hrun. do 2 (unfold bind at 1; cbn [ldw gets obind]).
  assert (Hout : same_outside pi (mem s) m1).
  { intros x Hx. apply ldb_st32_ne. unfold a, pi_writeopen, pi_readopen, in_page in *. destruct writable; lia. }
  assert (Hflags : (ld32 (mem s1) (pi_readopen pi) =? 0) && (ld32 (mem s1) (pi_writeopen pi) =? 0) =
    negb ((if writable then readopen else writeopen) (mem s) pi)).
  { unfold readopen, writeopen. simpl. unfold m1, a. rewrite !negb_if, !negb_involutive || idtac.
    destruct writable; unfold pi_writeopen, pi_readopen; rewrite ld32_st32_eq, ld32_st32_ne by lia;
      rewrite negb_involutive; change (u32 0 =? 0) with true; [by rewrite andb_true_r|done]. }
  rewrite Hflags. destruct ((if writable then readopen else writeopen) (mem s) pi); cbn [negb].
  - rewrite (release_only (LkPipe pi) s1) by done. eexists. split; [done|]. split_and!; try done.
    + unfold readopen, writeopen. simpl. unfold m1, a.
      destruct writable; rewrite ld32_st32_eq; done.
    + intros q (H1 & H2 & H3). simpl. unfold m1, pipe_holds. unfold a, pi_writeopen, pi_readopen, pi_nread, pi_nwrite in *.
      destruct writable; (rewrite !ld32_st32_ne by lia; split_and!; [done|done|]; intros k b Hk;
        rewrite ldb_st32_ne; [by apply H3|]; unfold pi_data;
        pose proof (Z.mod_pos_bound (ld32 (mem s) (pi + 536) + Z.of_nat k) PIPESIZE); lia).
  - mstep (release_only (LkPipe pi) s1 eq_refl).
    destruct (kfree_ok pi (set_held [] s1) l Hlink) as (s2 & Hk & Hmo & Hf2 & Hm2).
    + eapply (free_list_frame s _ l pi); [done|done|apply Hp|done|exact Hout].
    + done.
    + done.
    + simpl. apply not_elem_of_nil.
    + exists s2. rewrite Hk, Hmo. split_and!; try done.
      * simpl. intros x Hx. rewrite Hm2 by done. by apply Hout.
Qed.
End Stretch.

(** ** Witnesses *)

#[local] Existing Instance demo16.

(** The page of the child's page table in [demo_process], used as an empty pipe. *)
Lemma demo_at_pipe : exists s pr p pi pg l um, at_pipe s pr p pi pg l um [].
Proof.
  destruct demo_process as (s & r1 & r2 & pg1 & l & q & Hu & Hu2 & _ & Hpg & Hq & _).
  set (p := set_p_pagetable r1 zero_proc).
  set (m' := st32 (st32 (mem s) (pi_nread r2) 0) (pi_nwrite r2) 0).
  assert (Hok : page_ok r2)
    by (apply (pt_page _ _ _ (tables_pt _ _ _ _ (us_tables _ _ _ _ _ Hu2)) [] r2), lookup_singleton_eq).
  assert (Hout : same_outside r2 (mem s) m').
  { intros x Hx. unfold m', in_page, pi_nread, pi_nwrite in *. rewrite !ldb_st32_ne by lia. done. }
  assert (Hl : r2 ∉ l)
    by (apply (tables_disj _ _ _ _ (us_tables _ _ _ _ _ Hu2) [] r2), lookup_singleton_eq).
  exists (set_held [LkPipe r2] (set_cur (Some 0%nat) (set_procs (<[0%nat := p]> (replicate 64 zero_proc))
    (set_mem m' s)))), 0%nat, p, r2, pg1, l. eexists. constructor; try done.
  - apply (uspace_frame s _ r1 pg1 l); [exact Hu| |done|].
    + eapply (free_list_frame s _ l r2); [apply Hu|done|apply Hok|done|exact Hout].
    + intros x a y Hx Hy. apply Hout. apply (page_apart a r2 y); [|done| |done].
      * by eapply pt_page; [apply Hu|].
      * by apply (Hpg x a).
  - intros x Hx. by apply (Hpg x r2).
  - intros v fl [_ E]%lookup_singleton_Some. by inversion E.
  - split; [simpl; lia|]. split; [|by intros].
    simpl. unfold m', pi_nread, pi_nwrite. rewrite ld32_st32_eq, ld32_st32_ne, ld32_st32_eq by lia. done.
Qed.


Lemma piperead_fifo_witness :
  exists s pr p pi pg l um,
    read_ends s pr p pi 0 10 pg l um [] 3 (piperead_locked 4 pr pi 0 10 s).
Proof.
  destruct demo_at_pipe as (s & pr & p & pi & pg & l & um & Ha).
  exists s, pr, p, pi, pg, l, um.
  exact (piperead_fifo demo16_linked pr p pi pg l um 0 10 3 s [] Ha ltac:(lia) ltac:(lia) ltac:(lia)).
Defined.
