(* ===== verification/Block.v ===== *)
(** * Words in blocks

    A disk block, and any other array of bytes, is a list of bytes; this file has
    the reads and writes of little-endian words at an offset and their lemmas. *)

From stdpp Require Import list numbers.
From S2P Require Import Prelude.

(** [l] with the bytes at [off] replaced by [bs]. *)
Definition splice (off : nat) (bs l : list Z) : list Z :=
  take off l ++ bs ++ drop (off + length bs) l.

Definition bytes_at (off n : nat) (l : list Z) : list Z := take n (drop off l).

Definition get16 (off : nat) (l : list Z) : Z := le_val (bytes_at off 2 l).
Definition put16 (off : nat) (v : Z) (l : list Z) : list Z := splice off (le_bytes 2 v) l.
Definition get32 (off : nat) (l : list Z) : Z := le_val (bytes_at off 4 l).
Definition put32 (off : nat) (v : Z) (l : list Z) : list Z := splice off (le_bytes 4 v) l.

Definition all_bytes (l : list Z) : Prop := Forall (fun b => 0 <= b < 256) l.

Lemma length_splice off bs l :
  (off + length bs <= length l)%nat -> length (splice off bs l) = length l.
Proof. intros. unfold splice. rewrite !length_app, length_take, length_drop. lia. Qed.

Lemma lookup_splice off bs l i :
  (off + length bs <= length l)%nat ->
  splice off bs l !! i = if decide (off <= i < off + length bs)%nat then bs !! (i - off)%nat else l !! i.
Proof.
  intros Hlen. unfold splice. destruct (decide (i < off)%nat).
  - rewrite lookup_app_l by (rewrite length_take; lia). rewrite lookup_take_lt by done.
    rewrite decide_False by lia. done.
  - rewrite lookup_app_r by (rewrite length_take; lia). rewrite length_take, Nat.min_l by lia.
    destruct (decide (i < off + length bs)%nat).
    + rewrite lookup_app_l by lia. rewrite decide_True by lia. done.
    + rewrite lookup_app_r by lia. rewrite lookup_drop. rewrite decide_False by lia. f_equal. lia.
Qed.

Lemma lookup_bytes_at off n l i : (i < n)%nat -> bytes_at off n l !! i = l !! (off + i)%nat.
Proof. intros. unfold bytes_at. rewrite lookup_take_lt by done. apply lookup_drop. Qed.

Lemma length_bytes_at off n l : (off + n <= length l)%nat -> length (bytes_at off n l) = n.
Proof. intros. unfold bytes_at. rewrite length_take, length_drop. lia. Qed.

Lemma bytes_at_ext off n l l' :
  length l' = length l -> (forall i, (off <= i < off + n)%nat -> l' !! i = l !! i) ->
  bytes_at off n l' = bytes_at off n l.
Proof.
  intros Hlen H. apply list_eq. intros i. destruct (decide (i < n)%nat).
  - rewrite !lookup_bytes_at by done. apply H. lia.
  - unfold bytes_at. rewrite !lookup_take_ge by lia. done.
Qed.

Lemma bytes_at_splice off bs l :
  (off + length bs <= length l)%nat -> bytes_at off (length bs) (splice off bs l) = bs.
Proof.
  intros. apply list_eq. intros i. destruct (decide (i < length bs)%nat).
  - rewrite lookup_bytes_at, lookup_splice, decide_True by lia. f_equal. lia.
  - rewrite !lookup_ge_None_2; [done|lia|]. unfold bytes_at. rewrite length_take. lia.
Qed.

Lemma bytes_at_splice_ne off n off' bs l :
  (off' + length bs <= length l)%nat -> (off + n <= off' \/ off' + length bs <= off)%nat ->
  bytes_at off n (splice off' bs l) = bytes_at off n l.
Proof.
  intros. apply bytes_at_ext; [by rewrite length_splice|]. intros i Hi.
  rewrite lookup_splice by done. rewrite decide_False by lia. done.
Qed.

Lemma get32_put32_eq off v l : (off + 4 <= length l)%nat -> get32 off (put32 off v l) = u32 v.
Proof.
  intros. unfold get32, put32. rewrite <- (length_le_bytes 4 v) at 1.
  rewrite bytes_at_splice by (rewrite length_le_bytes; lia). by rewrite le_val_bytes.
Qed.

Lemma get32_put32_ne off off' v l :
  (off' + 4 <= length l)%nat -> (off + 4 <= off' \/ off' + 4 <= off)%nat ->
  get32 off (put32 off' v l) = get32 off l.
Proof.
  intros. unfold get32, put32. rewrite bytes_at_splice_ne; rewrite ?length_le_bytes; done.
Qed.

Lemma get16_put16_eq off v l : (off + 2 <= length l)%nat -> get16 off (put16 off v l) = u16 v.
Proof.
  intros. unfold get16, put16. rewrite <- (length_le_bytes 2 v) at 1.
  rewrite bytes_at_splice by (rewrite length_le_bytes; lia). by rewrite le_val_bytes.
Qed.

Lemma length_put32 off v l : (off + 4 <= length l)%nat -> length (put32 off v l) = length l.
Proof. intros. apply length_splice. by rewrite length_le_bytes. Qed.

Lemma length_put16 off v l : (off + 2 <= length l)%nat -> length (put16 off v l) = length l.
Proof. intros. apply length_splice. by rewrite length_le_bytes. Qed.

Lemma all_bytes_splice off bs l : all_bytes l -> all_bytes bs -> all_bytes (splice off bs l).
Proof.
  intros. unfold splice, all_bytes. rewrite !Forall_app. split_and!; auto using Forall_take, Forall_drop.
Qed.

Lemma all_bytes_put32 off v l : all_bytes l -> all_bytes (put32 off v l).
Proof. intros. apply all_bytes_splice; [done|]. apply le_bytes_range. Qed.

Lemma all_bytes_put16 off v l : all_bytes l -> all_bytes (put16 off v l).
Proof. intros. apply all_bytes_splice; [done|]. apply le_bytes_range. Qed.

Lemma s32_u32 v : - 2 ^ 31 <= v < 2 ^ 31 -> s32 (u32 v) = v.
Proof. intros. word. Qed.
