(* ===== verification/Bio.v ===== *)
(** * The buffer cache

    [kernel/bio.c]: the cache of disk blocks, a doubly linked list of buffers in
    order of recent use.  The disk driver is an interface, [Disk], with the
    contract [DiskOk]; [VirtioDisk.v] discharges it for [kernel/virtio_disk.c].

    The abstract state of the cache has, for every block number, the contents
    that readers see (the logical disk), and for every block in use its reference
    count and whether it is locked.  The lemmas of this file say what each
    operation does to it, for a process that does not have to wait. *)

From stdpp Require Import gmap strings list fin_maps.
From S2P Require Import Prelude Layout State Sched.

(** ** The disk driver's interface *)

(** [disk_idle] is the driver's own invariant: no request is in progress. *)
Class Disk : Type := {
  virtio_disk_rw : nat -> bool -> K unit;
  disk_idle : virtio -> Prop
}.

(** [q] is [p] but for the scheduler's counts. *)
Definition uncounted (p : proc) : proc :=
  set_p_nrun_whole 0 (set_p_nrun 0 (set_p_niceness 0 (set_p_rtime 0 (set_p_stime 0 p)))).
Definition same_proc (p q : proc) : Prop := uncounted p = uncounted q.

(** The processes [ps'] are [ps] with some sleepers other than [me] woken, after
    [me] was scheduled any number of times. *)
Definition woken (me : option nat) (ps ps' : list proc) : Prop :=
  length ps' = length ps /\
  forall i p, ps !! i = Some p -> exists q, ps' !! i = Some q /\
    (me = Some i /\ same_proc p q \/
     me <> Some i /\ (q = p \/ p_state p = SLEEPING /\ q = set_p_state RUNNABLE p)).

(** Process [pr], which is [p] but for the scheduler's counts, runs in the kernel and
    holds no spinlock. *)
Record running (s : kstate) (pr : nat) (p : proc) : Prop := MkRunning {
  run_cur : cur s = Some pr;
  run_at : exists q, procs s !! pr = Some q /\ same_proc p q;
  run_len : length (procs s) = 64%nat;
  run_held : held s = [];
  run_state : p_state p = RUNNING;
  run_chan : p_chan p = None
}.

(** A transfer between buffer [i], which is [b], and its block of the disk. *)
Definition transfer (i : nat) (b : buf) (write : bool) (s : kstate) : kstate :=
  if write then
    set_disk (<[b_blockno b := b_data b]> (disk s))
      (set_disk_writes ((b_blockno b, b_data b) :: disk_writes s) s)
  else
    set_bcache (<[i := set_b_data (default [] (disk s !! b_blockno b)) b]> (bcache s)) s.

(** The disk has fewer than [2 ^ 31] blocks, so that a sector number fits a
    [uint32]. *)
Definition disk_range (d : gmap Z (list Z)) : Prop := forall n, is_Some (d !! n) -> 0 <= n < 2 ^ 31.

(** What the cache relies on: a request for a block of the disk returns once the
    transfer is done; other processes may have been woken meanwhile. *)
Class DiskOk `{Disk} : Prop := {
  disk_rw_ok : forall s pr p i b write,
    running s pr p -> disk_idle (vdisk s) -> bcache s !! i = Some b ->
    b_disk b = false -> is_Some (disk s !! b_blockno b) -> disk_range (disk s) ->
    exists ps vd, woken (Some pr) (procs s) ps /\ disk_idle vd /\
      virtio_disk_rw i write s = Ok tt (transfer i b write (set_procs ps (set_vdisk vd s)))
}.

(** ** The code *)

(** The index of [bcache.head]. *)
Definition HEAD : nat := 30.

Definition buf_at (i : nat) : K buf := fun s =>
  match bcache s !! i with Some b => Ok b s | None => UB "buf" end.

Definition bupd (i : nat) (f : buf -> buf) : K unit := fun s =>
  match bcache s !! i with
  | Some _ => Ok tt (set_bcache (alter f i (bcache s)) s)
  | None => UB "buf"
  end.

Definition all_bufs : list nat := seq 0 30.

Definition binit : K unit :=
  bupd HEAD (set_b_prev HEAD) ;;
  bupd HEAD (set_b_next HEAD) ;;
  for_each all_bufs (fun b =>
    let! h := buf_at HEAD in
    bupd b (set_b_next (b_next h)) ;;
    bupd b (set_b_prev HEAD) ;;
    initsleeplock (SlBuf b) ;;
    let! h := buf_at HEAD in
    bupd (b_next h) (set_b_prev b) ;;
    bupd HEAD (set_b_next b)).

(** [bget]'s first loop, from buffer [i] on along [next]. *)
Fixpoint bget_cached (n : nat) (dev blockno : Z) (i : nat) : K (option nat) :=
  if bool_decide (i = HEAD) then ret None
  else
    match n with
    | O => no_fuel
    | S n =>
        let! b := buf_at i in
        if (b_dev b =? dev) && (b_blockno b =? blockno) then ret (Some i)
        else bget_cached n dev blockno (b_next b)
    end.

(** Its second loop, along [prev]. *)
Fixpoint bget_unused (n : nat) (i : nat) : K (option nat) :=
  if bool_decide (i = HEAD) then ret None
  else
    match n with
    | O => no_fuel
    | S n =>
        let! b := buf_at i in
        if b_refcnt b =? 0 then ret (Some i) else bget_unused n (b_prev b)
    end.

Definition recycle (dev blockno : Z) (b : buf) : buf :=
  set_b_refcnt 1 (set_b_valid false (set_b_blockno blockno (set_b_dev dev b))).

Definition bget `{Build} (dev blockno : Z) : K nat :=
  acquire LkBcache ;;
  let! h := buf_at HEAD in
  let! hit := bget_cached 30 dev blockno (b_next h) in
  match hit with
  | Some i =>
      bupd i (fun b => set_b_refcnt (u32 (b_refcnt b + 1)) b) ;;
      release LkBcache ;;
      acquiresleep (SlBuf i) ;;
      ret i
  | None =>
      let! unused := bget_unused 30 (b_prev h) in
      match unused with
      | Some i =>
          bupd i (recycle dev blockno) ;;
          release LkBcache ;;
          acquiresleep (SlBuf i) ;;
          ret i
      | None => panic "bget: no buffers"
      end
  end.

Definition bread `{Build} `{Disk} (dev blockno : Z) : K nat :=
  let! i := bget dev blockno in
  let! b := buf_at i in
  when (negb (b_valid b)) (virtio_disk_rw i false ;; bupd i (set_b_valid true)) ;;
  ret i.

Definition bwrite `{Disk} (i : nat) : K unit :=
  let! h := holdingsleep (SlBuf i) in
  if negb h then panic "bwrite" else virtio_disk_rw i true.

(** Move buffer [i] to the front of the list. *)
Definition move_to_front (i : nat) : K unit :=
  let! b := buf_at i in
  bupd (b_next b) (set_b_prev (b_prev b)) ;;
  let! b := buf_at i in
  bupd (b_prev b) (set_b_next (b_next b)) ;;
  let! h := buf_at HEAD in
  bupd i (set_b_next (b_next h)) ;;
  bupd i (set_b_prev HEAD) ;;
  let! h := buf_at HEAD in
  bupd (b_next h) (set_b_prev i) ;;
  bupd HEAD (set_b_next i).

Definition brelse (i : nat) : K unit :=
  let! h := holdingsleep (SlBuf i) in
  if negb h then panic "brelse" else
  releasesleep (SlBuf i) ;;
  acquire LkBcache ;;
  bupd i (fun b => set_b_refcnt (u32 (b_refcnt b - 1)) b) ;;
  let! b := buf_at i in
  when (b_refcnt b =? 0) (move_to_front i) ;;
  release LkBcache.

Definition bpin (i : nat) : K unit :=
  acquire LkBcache ;;
  bupd i (fun b => set_b_refcnt (u32 (b_refcnt b + 1)) b) ;;
  release LkBcache.

Definition bunpin (i : nat) : K unit :=
  acquire LkBcache ;;
  bupd i (fun b => set_b_refcnt (u32 (b_refcnt b - 1)) b) ;;
  release LkBcache.

(** ** Linked lists *)

(** Following [f] from [x] goes through [l] to [z]. *)
Fixpoint path (f : nat -> option nat) (x : nat) (l : list nat) (z : nat) : Prop :=
  match l with
  | [] => f x = Some z
  | y :: l => f x = Some y /\ path f y l z
  end.

Definition fupd (f : nat -> option nat) (x y : nat) : nat -> option nat :=
  fun i => if decide (i = x) then Some y else f i.

(** The first and the last of a list, with a default. *)
Definition first (l : list nat) (z : nat) : nat := match l with [] => z | y :: _ => y end.
Definition final (x : nat) (l : list nat) : nat := first (reverse l) x.

Lemma path_app f x l1 b l2 z : path f x (l1 ++ b :: l2) z <-> path f x l1 b /\ path f b l2 z.
Proof.
  revert x. induction l1 as [|y l1 IH]; intros x; simpl; [done|]. rewrite IH. tauto.
Qed.

Lemma path_ext f g x l z : (forall i, i ∈ x :: l -> g i = f i) -> path f x l z -> path g x l z.
Proof.
  revert x. induction l as [|y l IH]; intros x Hext; simpl.
  - rewrite Hext by set_solver. done.
  - rewrite Hext by set_solver. intros [H1 H2]. split; [done|]. apply IH; [set_solver|done].
Qed.

Lemma final_cons x y l : final x (y :: l) = final y l.
Proof. unfold final. rewrite reverse_cons. by destruct (reverse l). Qed.

Lemma final_in x l : final x l ∈ x :: l.
Proof.
  revert x. induction l as [|y l IH]; intros x; [set_solver|].
  rewrite final_cons. specialize (IH y). set_solver.
Qed.

Lemma path_first f x l z : path f x l z -> f x = Some (first l z).
Proof. destruct l; simpl; tauto. Qed.

Lemma path_final f x l z : path f x l z -> f (final x l) = Some z.
Proof.
  revert x. induction l as [|y l IH]; intros x; simpl; [done|].
  intros [_ H]. rewrite final_cons. auto.
Qed.

Lemma path_set_final f x l z w :
  NoDup (x :: l) -> path f x l z -> path (fupd f (final x l) w) x l w.
Proof.
  revert x. induction l as [|y l IH]; intros x Hnd; simpl.
  - intros _. unfold fupd. by rewrite decide_True.
  - intros [H1 H2]. apply NoDup_cons in Hnd as [Hx Hnd]. rewrite final_cons. split.
    + unfold fupd. rewrite decide_False; [done|]. intros ->. apply Hx, final_in.
    + by apply IH.
Qed.

(** Taking [b] out. *)
Lemma path_remove f x l1 b l2 z :
  NoDup (x :: l1 ++ b :: l2) -> path f x (l1 ++ b :: l2) z ->
  path (fupd f (final x l1) (first l2 z)) x (l1 ++ l2) z.
Proof.
  intros Hnd [H1 H2]%path_app.
  assert (Hnd1 : NoDup (x :: l1)).
  { change (x :: l1 ++ b :: l2) with ((x :: l1) ++ b :: l2) in Hnd. by apply NoDup_app in Hnd as (? & _ & _). }
  pose proof (path_set_final f x l1 b (first l2 z) Hnd1 H1) as H3.
  destruct l2 as [|y l2]; simpl in *; [by rewrite app_nil_r|]. destruct H2 as [_ H2].
  apply path_app. split; [done|]. eapply path_ext; [|exact H2]. intros i Hi. unfold fupd.
  rewrite decide_False; [done|]. intros ->.
  change (x :: l1 ++ b :: y :: l2) with ((x :: l1) ++ b :: y :: l2) in Hnd.
  apply NoDup_app in Hnd as (_ & Hd & _). apply (Hd (final x l1)); [apply final_in|set_solver].
Qed.

(** Putting [b] in front. *)
Lemma path_insert f x b l z :
  x <> b -> x ∉ l -> b ∉ l -> path f x l z ->
  path (fupd (fupd f b (first l z)) x b) x (b :: l) z.
Proof.
  intros Hxb Hx Hb Hp. simpl. split; [unfold fupd; by rewrite decide_True|].
  destruct l as [|y l]; simpl in *.
  - unfold fupd. rewrite decide_False, decide_True; done.
  - destruct Hp as [_ Hp]. split; [unfold fupd; by rewrite decide_False, decide_True|].
    eapply path_ext; [|exact Hp]. intros i Hi. unfold fupd.
    assert (i <> x /\ i <> b) as [??] by (split; intros ->; set_solver).
    by rewrite !decide_False.
Qed.

Definition next_of (bs : list buf) (i : nat) : option nat := b_next <$> bs !! i.
Definition prev_of (bs : list buf) (i : nat) : option nat := b_prev <$> bs !! i.

(** The buffers [l], most recently used first, linked in both directions. *)
Definition linked_list (bs : list buf) (l : list nat) : Prop :=
  path (next_of bs) HEAD l HEAD /\ path (prev_of bs) HEAD (reverse l) HEAD.

(** A change of the buffers that does not touch the links. *)
Lemma linked_list_ext bs bs' l :
  (forall i, next_of bs' i = next_of bs i /\ prev_of bs' i = prev_of bs i) ->
  linked_list bs l -> linked_list bs' l.
Proof.
  intros Hs [H1 H2].
  split; (eapply path_ext; [|eassumption]); intros i _; apply Hs.
Qed.

Lemma alter_links f i (bs : list buf) :
  (forall b, b_next (f b) = b_next b /\ b_prev (f b) = b_prev b) ->
  forall j, next_of (alter f i bs) j = next_of bs j /\ prev_of (alter f i bs) j = prev_of bs j.
Proof.
  intros Hf j. unfold next_of, prev_of. rewrite list_lookup_alter. case_decide; [|done].
  subst. destruct (bs !! _) as [b|]; simpl; [|done]. destruct (Hf b) as [-> ->]. done.
Qed.

Lemma next_set_next i y (bs : list buf) j :
  (i < length bs)%nat -> next_of (alter (set_b_next y) i bs) j = fupd (next_of bs) i y j.
Proof.
  intros Hi. unfold next_of, fupd. rewrite list_lookup_alter. case_decide as E.
  - subst. destruct (lookup_lt_is_Some_2 _ _ Hi) as [b ->]. rewrite decide_True by done. done.
  - rewrite decide_False by congruence. done.
Qed.
Lemma prev_set_prev i y (bs : list buf) j :
  (i < length bs)%nat -> prev_of (alter (set_b_prev y) i bs) j = fupd (prev_of bs) i y j.
Proof.
  intros Hi. unfold prev_of, fupd. rewrite list_lookup_alter. case_decide as E.
  - subst. destruct (lookup_lt_is_Some_2 _ _ Hi) as [b ->]. rewrite decide_True by done. done.
  - rewrite decide_False by congruence. done.
Qed.
Lemma next_set_prev i y (bs : list buf) j : next_of (alter (set_b_prev y) i bs) j = next_of bs j.
Proof.
  unfold next_of. rewrite list_lookup_alter. case_decide; [|done]. subst. by destruct (bs !! _).
Qed.
Lemma prev_set_next i y (bs : list buf) j : prev_of (alter (set_b_next y) i bs) j = prev_of bs j.
Proof.
  unfold prev_of. rewrite list_lookup_alter. case_decide; [|done]. subst. by destruct (bs !! _).
Qed.

Lemma bupd_ok i f s :
  (i < length (bcache s))%nat -> bupd i f s = Ok tt (set_bcache (alter f i (bcache s)) s).
Proof. intros Hi. unfold bupd. by destruct (lookup_lt_is_Some_2 _ _ Hi) as [b ->]. Qed.

Lemma buf_at_ok i b s : bcache s !! i = Some b -> buf_at i s = Ok b s.
Proof. unfold buf_at. by intros ->. Qed.

Lemma next_lookup bs i b : bs !! i = Some b -> next_of bs i = Some (b_next b).
Proof. unfold next_of. by intros ->. Qed.
Lemma prev_lookup bs i b : bs !! i = Some b -> prev_of bs i = Some (b_prev b).
Proof. unfold prev_of. by intros ->. Qed.

(** The buffers with their links blanked out. *)
Definition no_links (b : buf) : buf := set_b_prev 0 (set_b_next 0 b).

Lemma no_links_alter (f : buf -> buf) i (bs : list buf) :
  (forall b, no_links (f b) = no_links b) -> no_links <$> alter f i bs = no_links <$> bs.
Proof.
  intros Hf. apply list_eq. intros j. rewrite !list_lookup_fmap, list_lookup_alter.
  case_decide; [|done]. subst. destruct (bs !! _); simpl; [|done]. by rewrite Hf.
Qed.

(** Putting [i] in front of a list. *)
Lemma insert_links bs1 i l :
  (i < length bs1)%nat -> (HEAD < length bs1)%nat -> (first l HEAD < length bs1)%nat ->
  i <> HEAD -> NoDup (HEAD :: l) -> i ∉ l -> linked_list bs1 l ->
  let w := first l HEAD in
  linked_list (alter (set_b_next i) HEAD (alter (set_b_prev i) w
               (alter (set_b_prev HEAD) i (alter (set_b_next w) i bs1)))) (i :: l).
Proof.
  intros Hi H30 Hw Hne Hnd Hil [Hn1 Hp1] w. pose proof Hnd as [Hh _]%NoDup_cons. split.
  - eapply path_ext; [|exact (path_insert _ _ i _ _ (not_eq_sym Hne) Hh Hil Hn1)]. intros j _.
    rewrite next_set_next by (rewrite !length_alter; lia). unfold fupd at 1 2.
    case_decide; [done|]. by rewrite !next_set_prev, next_set_next by (rewrite ?length_alter; lia).
  - rewrite reverse_cons. apply path_app. cbn [path]. split.
    + assert (Hw2 : w = final HEAD (reverse l)) by (unfold final; by rewrite reverse_involutive).
      eapply path_ext; [|apply (path_set_final (prev_of bs1) HEAD (reverse l) HEAD i); [|exact Hp1]].
      * intros j Hj. rewrite prev_set_next, <- Hw2.
        rewrite prev_set_prev by (rewrite !length_alter; lia). unfold fupd. case_decide; [done|].
        rewrite prev_set_prev by (rewrite !length_alter; lia). unfold fupd. rewrite prev_set_next.
        rewrite decide_False; [done|]. intros ->. rewrite elem_of_cons, elem_of_reverse in Hj. naive_solver.
      * by rewrite reverse_Permutation.
    + rewrite prev_set_next, prev_set_prev by (rewrite !length_alter; lia). unfold fupd.
      rewrite decide_False; [rewrite prev_set_prev by (rewrite !length_alter; lia); unfold fupd; by rewrite decide_True|].
      unfold w. intros E. destruct l as [|y l]; simpl in E; set_solver.
Qed.

(** Putting [i] first, in the list without it. *)
Lemma move_links bs l1 i l2 :
  length bs = 31%nat -> l1 ++ i :: l2 ≡ₚ seq 0 30 ->
  linked_list bs (l1 ++ i :: l2) ->
  let u := final HEAD l1 in let v := first l2 HEAD in
  let bs1 := alter (set_b_next v) u (alter (set_b_prev u) v bs) in
  let w := first (l1 ++ l2) HEAD in
  let bs2 := alter (set_b_next i) HEAD (alter (set_b_prev i) w
               (alter (set_b_prev HEAD) i (alter (set_b_next w) i bs1))) in
  linked_list bs1 (l1 ++ l2) /\ linked_list bs2 (i :: l1 ++ l2).
Proof.
  intros Hlen Hperm [Hn Hp] u v bs1 w bs2.
  assert (Hall : forall j, j ∈ l1 ++ i :: l2 -> (j < 30)%nat).
  { intros j Hj. rewrite Hperm in Hj. apply elem_of_seq in Hj. lia. }
  assert (Hnd : NoDup (HEAD :: l1 ++ i :: l2)).
  { apply NoDup_cons. split; [intros H30; specialize (Hall _ H30); unfold HEAD in Hall; lia|].
    rewrite Hperm. apply NoDup_seq. }
  assert (Hin : forall j, j ∈ HEAD :: l1 ++ i :: l2 -> (j < length bs)%nat).
  { intros j [->|Hj]%elem_of_cons; [unfold HEAD; lia|]. specialize (Hall _ Hj). lia. }
  assert (Hu : (u < length bs)%nat) by (apply Hin; pose proof (final_in HEAD l1); set_solver).
  assert (Hv : (v < length bs)%nat) by (apply Hin; unfold v; destruct l2; set_solver).
  assert (Hw : (w < length bs)%nat) by (apply Hin; unfold w; destruct l1, l2; set_solver).
  assert (Hi : (i < length bs)%nat) by (apply Hin; set_solver).
  rewrite reverse_app, reverse_cons, <- app_assoc in Hp. cbn [app] in Hp.
  assert (Hndr : NoDup (HEAD :: reverse l2 ++ i :: reverse l1)).
  { rewrite !reverse_Permutation. by rewrite (Permutation_app_comm l2 (i :: l1)), <- Permutation_middle in *. }
  assert (Hh : HEAD <> i /\ (HEAD ∉ l1 ++ l2) /\ i ∉ l1 ++ l2).
  { rewrite <- Permutation_middle in Hnd. apply NoDup_cons in Hnd as [H1 H2].
    apply NoDup_cons in H2 as [H2 _]. set_solver. }
  destruct Hh as (Hne & Hh & Hil).
  assert (Hl1 : linked_list bs1 (l1 ++ l2)).
  { split.
    - eapply path_ext; [|exact (path_remove _ _ _ _ _ _ Hnd Hn)]. intros j _. unfold bs1.
      rewrite next_set_next by (by rewrite length_alter). unfold fupd. by rewrite next_set_prev.
    - rewrite reverse_app. eapply path_ext; [|exact (path_remove _ _ _ _ _ _ Hndr Hp)].
      intros j _. unfold bs1. rewrite prev_set_next, prev_set_prev by done.
      unfold v, u, final. by rewrite reverse_involutive. }
  split; [done|].
  assert (Hlen1 : length bs1 = length bs) by (unfold bs1; by rewrite !length_alter).
  apply insert_links; rewrite ?Hlen1; try done; [unfold HEAD; lia|].
  apply NoDup_cons. split; [done|]. rewrite <- Permutation_middle in Hnd.
  apply NoDup_cons in Hnd as [_ Hnd]. by apply NoDup_cons in Hnd as [_ ?].
Qed.

Lemma next_read bs i y : next_of bs i = Some y -> exists b, bs !! i = Some b /\ b_next b = y.
Proof. unfold next_of. destruct (bs !! i) as [b|]; simpl; [|done]. intros [= <-]. eauto. Qed.
Lemma prev_read bs i y : prev_of bs i = Some y -> exists b, bs !! i = Some b /\ b_prev b = y.
Proof. unfold prev_of. destruct (bs !! i) as [b|]; simpl; [|done]. intros [= <-]. eauto. Qed.

Lemma links_read bs i y z :
  next_of bs i = Some y -> prev_of bs i = Some z ->
  exists b, bs !! i = Some b /\ b_next b = y /\ b_prev b = z.
Proof.
  unfold next_of, prev_of. destruct (bs !! i) as [b|]; simpl; [|done]. intros [= <-] [= <-]. eauto.
Qed.

Lemma linked_split bs l1 i l2 :
  linked_list bs (l1 ++ i :: l2) ->
  next_of bs i = Some (first l2 HEAD) /\ prev_of bs i = Some (final HEAD l1).
Proof.
  intros [[_ Hn]%path_app Hp]. rewrite reverse_app, reverse_cons, <- app_assoc in Hp. cbn [app] in Hp.
  apply path_app in Hp as [_ Hp]. split; [by apply path_first in Hn|]. by apply path_first in Hp.
Qed.

Lemma move_to_front_ok s l1 i l2 :
  length (bcache s) = 31%nat -> l1 ++ i :: l2 ≡ₚ seq 0 30 ->
  linked_list (bcache s) (l1 ++ i :: l2) ->
  exists bs', move_to_front i s = Ok tt (set_bcache bs' s) /\
    linked_list bs' (i :: l1 ++ l2) /\ no_links <$> bs' = no_links <$> bcache s.
Proof.
  intros Hlen Hperm Hl. destruct (move_links _ _ _ _ Hlen Hperm Hl) as [Hl1 Hl2].
  destruct (linked_split _ _ _ _ Hl) as [Hnx Hpv]. cbv zeta in *.
  set (u := final HEAD l1) in *. set (v := first l2 HEAD) in *. set (w := first (l1 ++ l2) HEAD) in *.
  assert (Hnd : NoDup (HEAD :: l1 ++ i :: l2)).
  { apply NoDup_cons. rewrite Hperm. split; [|apply NoDup_seq].
    intros H30. apply elem_of_seq in H30. unfold HEAD in H30. lia. }
  assert (Hin : forall j, j ∈ HEAD :: l1 ++ i :: l2 -> (j < 31)%nat).
  { intros j [->|Hj]%elem_of_cons; [unfold HEAD; lia|]. rewrite Hperm in Hj. apply elem_of_seq in Hj. lia. }
  assert (Hu : (u < 31)%nat) by (apply Hin; pose proof (final_in HEAD l1); set_solver).
  assert (Hv : (v < 31)%nat) by (apply Hin; unfold v; destruct l2; set_solver).
  assert (Hw : (w < 31)%nat) by (apply Hin; unfold w; destruct l1, l2; set_solver).
  assert (Hi : (i < 31)%nat) by (apply Hin; set_solver).
  assert (Hvi : v <> i).
  { unfold v. rewrite <- Permutation_middle in Hnd. apply NoDup_cons in Hnd as [H1 H2].
    apply NoDup_cons in H2 as [H2 _]. destruct l2; simpl; set_solver. }
  assert (Hih : i <> HEAD).
  { apply NoDup_cons in Hnd as [H1 _]. intros ->. set_solver. }
  destruct (links_read _ _ _ _ Hnx Hpv) as (b & Hb & Eb1 & Eb2).
  unfold move_to_front. mstep (buf_at_ok i b s Hb). rewrite Eb1, Eb2.
  mstep (bupd_ok v (set_b_prev u) s ltac:(lia)). set (s1 := set_bcache _ s).
  assert (Hb1 : bcache s1 !! i = Some b) by (simpl; rewrite list_lookup_alter_ne by done; done).
  mstep (buf_at_ok i b s1 Hb1). rewrite Eb1, Eb2.
  mstep (bupd_ok u (set_b_next v) s1 ltac:(simpl; rewrite length_alter; lia)). set (s2 := set_bcache _ s1).
  destruct (next_read (bcache s2) HEAD w) as (h & Hh & Eh); [exact (path_first _ _ _ _ (proj1 Hl1))|].
  mstep (buf_at_ok HEAD h s2 Hh). rewrite Eh.
  mstep (bupd_ok i (set_b_next w) s2 ltac:(simpl; rewrite !length_alter; lia)). set (s3 := set_bcache _ s2).
  mstep (bupd_ok i (set_b_prev HEAD) s3 ltac:(simpl; rewrite !length_alter; lia)). set (s4 := set_bcache _ s3).
  assert (Hh4 : bcache s4 !! HEAD = Some h).
  { simpl. rewrite !(list_lookup_alter_ne _ _ i HEAD) by done. exact Hh. }
  mstep (buf_at_ok HEAD h s4 Hh4). rewrite Eh.
  mstep (bupd_ok w (set_b_prev i) s4 ltac:(simpl; rewrite !length_alter; lia)). set (s5 := set_bcache _ s4).
  rewrite (bupd_ok HEAD (set_b_next i) s5) by (simpl; rewrite !length_alter; unfold HEAD; lia).
  eexists. split; [reflexivity|]. split; [exact Hl2|].
  simpl. rewrite !no_links_alter by done. done.
Qed.

(** ** The abstract state of the cache

    [bc bs D l A V]: the buffers [bs] over the disk [D] are in the order of use
    [l]; [V] is the logical disk; [A] has the blocks in use, each with its
    reference count and whether it is locked. *)

Record bc (bs : list buf) (D : gmap Z (list Z)) (l : list nat) (A : gmap Z (Z * bool))
    (V : gmap Z (list Z)) : Prop := MkBc {
  bc_len : length bs = 31%nat;
  bc_links : linked_list bs l;
  bc_perm : l ≡ₚ seq 0 30;
  bc_disk : forall i b, bs !! i = Some b -> b_disk b = false;
  bc_ref : forall i b, (i < 30)%nat -> bs !! i = Some b -> 0 <= b_refcnt b;
  bc_valid : forall i b, (i < 30)%nat -> bs !! i = Some b -> b_dev b = ROOTDEV -> b_valid b = true;
  bc_uniq : forall i j b b', (i < 30)%nat -> (j < 30)%nat -> bs !! i = Some b -> bs !! j = Some b' ->
    b_dev b = ROOTDEV -> b_dev b' = ROOTDEV -> b_blockno b = b_blockno b' -> i = j;
  bc_used : forall i b, (i < 30)%nat -> bs !! i = Some b -> 0 < b_refcnt b ->
    b_dev b = ROOTDEV /\ A !! b_blockno b = Some (b_refcnt b, sl_locked (b_lock b));
  bc_users : forall n r k, A !! n = Some (r, k) -> r < 2 ^ 31 /\
    exists i b, (i < 30)%nat /\ bs !! i = Some b /\ 0 < b_refcnt b /\ b_blockno b = n;
  bc_unlocked : forall i b, (i < 30)%nat -> bs !! i = Some b -> b_refcnt b = 0 ->
    sl_locked (b_lock b) = false;
  bc_clean : forall i b, (i < 30)%nat -> bs !! i = Some b -> b_dev b = ROOTDEV -> b_refcnt b = 0 ->
    D !! b_blockno b = Some (b_data b);
  bc_hit : forall i b, (i < 30)%nat -> bs !! i = Some b -> b_dev b = ROOTDEV ->
    V !! b_blockno b = Some (b_data b);
  bc_miss : forall n, (forall i b, (i < 30)%nat -> bs !! i = Some b -> b_dev b = ROOTDEV ->
    b_blockno b <> n) -> V !! n = D !! n
}.

(** The buffer of block [n], if there is one. *)
Lemma find_buf (bs : list buf) n :
  (exists i b, (i < 30)%nat /\ bs !! i = Some b /\ b_dev b = ROOTDEV /\ b_blockno b = n) \/
  (forall i b, (i < 30)%nat -> bs !! i = Some b -> b_dev b = ROOTDEV -> b_blockno b <> n).
Proof.
  destruct (list_find (fun b => b_dev b = ROOTDEV /\ b_blockno b = n) (take 30 bs)) as [[i b]|] eqn:E.
  - apply list_find_Some in E as (Hi & [Hd Hn] & _). apply lookup_take_Some in Hi as [Hi Hlt]. left. eauto 10.
  - apply list_find_None in E. right. intros i b Hi Hb Hd Hn. rewrite Forall_lookup in E.
    apply (E i b); [|done]. rewrite lookup_take_lt by done. done.
Qed.

(** A block that nobody uses is on the disk as readers see it. *)
Lemma bc_idle_block bs D l A V n : bc bs D l A V -> A !! n = None -> V !! n = D !! n.
Proof.
  intros Hbc Hn. destruct (find_buf bs n) as [(i & b & Hi & Hb & Hd & E)|Hno].
  - rewrite <- E, (bc_hit _ _ _ _ _ Hbc i b Hi Hb Hd).
    rewrite (bc_clean _ _ _ _ _ Hbc i b Hi Hb Hd); [done|].
    pose proof (bc_ref _ _ _ _ _ Hbc i b Hi Hb). destruct (decide (0 < b_refcnt b)); [|lia].
    destruct (bc_used _ _ _ _ _ Hbc i b Hi Hb) as [_ Hu]; [done|]. congruence.
  - by apply (bc_miss _ _ _ _ _ Hbc).
Qed.

(** There is an unused buffer when fewer than [NBUF] blocks are in use. *)
Lemma bc_room bs D l A V :
  bc bs D l A V -> (size A < 30)%nat -> exists i b, (i < 30)%nat /\ bs !! i = Some b /\ b_refcnt b = 0.
Proof.
  intros Hbc Hsize.
  destruct (list_find (fun b => b_refcnt b = 0) (take 30 bs)) as [[i b]|] eqn:E.
  { apply list_find_Some in E as (Hi & Hr & _). apply lookup_take_Some in Hi as [Hi Hlt]. eauto. }
  exfalso. apply list_find_None in E. rewrite Forall_lookup in E.
  pose proof (bc_len _ _ _ _ _ Hbc) as Hlen.
  assert (Hpos : forall i b, take 30 bs !! i = Some b -> (i < 30)%nat /\ bs !! i = Some b /\ 0 < b_refcnt b).
  { intros i b Hb. pose proof (E i b Hb) as Hr. apply lookup_take_Some in Hb as [Hb Hlt].
    pose proof (bc_ref _ _ _ _ _ Hbc i b Hlt Hb). simpl in Hr. split_and!; [done|done|lia]. }
  assert (Hnd : NoDup (b_blockno <$> take 30 bs)).
  { apply NoDup_alt. intros i j n Hi Hj. rewrite list_lookup_fmap in Hi, Hj.
    apply fmap_Some in Hi as (b & Hb & ->). apply fmap_Some in Hj as (b' & Hb' & En).
    destruct (Hpos i b Hb) as (Hi & Hib & Hir), (Hpos j b' Hb') as (Hj & Hjb & Hjr).
    destruct (bc_used _ _ _ _ _ Hbc i b Hi Hib Hir) as [Hd _].
    destruct (bc_used _ _ _ _ _ Hbc j b' Hj Hjb Hjr) as [Hd' _].
    by apply (bc_uniq _ _ _ _ _ Hbc i j b b'). }
  assert (Hsub : list_to_set (b_blockno <$> take 30 bs) ⊆ dom A).
  { intros n Hn. apply elem_of_list_to_set, list_elem_of_fmap in Hn as (b & -> & Hb).
    apply list_elem_of_lookup in Hb as [i Hb]. destruct (Hpos i b Hb) as (Hi & Hib & Hir).
    apply elem_of_dom. destruct (bc_used _ _ _ _ _ Hbc i b Hi Hib Hir) as [_ ->]. done. }
  apply subseteq_size in Hsub. rewrite size_list_to_set, length_fmap, length_take, size_dom in Hsub by done. lia.
Qed.

(** The entry of [A] for a buffer. *)
Definition use_of (b : buf) : option (Z * bool) :=
  if b_refcnt b =? 0 then None else Some (b_refcnt b, sl_locked (b_lock b)).

(** Replacing one buffer: the new one holds block [n] of the root device, which no
    other buffer does, and if the old one held another block, nobody used it. *)
Lemma bc_update bs D l A V i b b' :
  bc bs D l A V -> bs !! i = Some b -> (i < 30)%nat ->
  b_next b' = b_next b -> b_prev b' = b_prev b -> b_disk b' = false ->
  b_dev b' = ROOTDEV -> b_valid b' = true -> 0 <= b_refcnt b' < 2 ^ 31 ->
  (b_refcnt b' = 0 -> sl_locked (b_lock b') = false /\ D !! b_blockno b' = Some (b_data b')) ->
  (forall j c, j <> i -> (j < 30)%nat -> bs !! j = Some c -> b_dev c = ROOTDEV ->
     b_blockno c <> b_blockno b') ->
  (b_dev b = ROOTDEV /\ b_blockno b = b_blockno b' \/ b_refcnt b = 0) ->
  bc (<[i := b']> bs) D l (partial_alter (fun _ => use_of b') (b_blockno b') A)
    (<[b_blockno b' := b_data b']> V).
Proof.
  intros Hbc Hb Hi Enx Epv Edk Edev Eval Href Hzero Huniq Hold.
  pose proof Hbc as [B1 B2 B3 B4 B5 B6 B7 B8 B9 B10 B11 B12 B13].
  set (n := b_blockno b') in *.
  assert (Hlk : forall j c, <[i := b']> bs !! j = Some c -> j = i /\ c = b' \/ j <> i /\ bs !! j = Some c).
  { intros j c Hc. apply list_lookup_insert_Some in Hc as [(<- & <- & _)|[Hne Hc]]; [by left|right; auto]. }
  constructor.
  - by rewrite length_insert.
  - eapply linked_list_ext; [|exact B2]. intros j. unfold next_of, prev_of.
    destruct (decide (j = i)) as [->|Hne].
    + rewrite list_lookup_insert_eq by (by eapply lookup_lt_Some). rewrite Hb. simpl. by rewrite Enx, Epv.
    + by rewrite list_lookup_insert_ne.
  - done.
  - intros j c Hc. apply Hlk in Hc as [[-> ->]|[_ Hc]]; eauto.
  - intros j c Hj Hc. apply Hlk in Hc as [[-> ->]|[_ Hc]]; [lia|eauto].
  - intros j c Hj Hc. apply Hlk in Hc as [[-> ->]|[_ Hc]]; eauto.
  - intros j k c c' Hj Hk Hc Hc' Dc Dc' E.
    apply Hlk in Hc as [[-> ->]|[Hne Hc]]; apply Hlk in Hc' as [[-> ->]|[Hne' Hc']]; [done| | |eauto].
    + exfalso. by apply (Huniq k c' Hne' Hk Hc' Dc').
    + exfalso. by apply (Huniq j c Hne Hj Hc Dc).
  - intros j c Hj Hc Hr. apply Hlk in Hc as [[-> ->]|[Hne Hc]].
    + split; [done|]. fold n. rewrite lookup_partial_alter_eq. unfold use_of.
      destruct (Z.eqb_spec (b_refcnt b') 0); [lia|done].
    + destruct (B8 j c Hj Hc Hr) as [Dc Ec]. split; [done|].
      rewrite lookup_partial_alter_ne; [done|]. intros E. by apply (Huniq j c Hne Hj Hc Dc).
  - intros m r k Hm. destruct (decide (m = n)) as [->|Hne].
    + rewrite lookup_partial_alter_eq in Hm. unfold use_of in Hm.
      destruct (Z.eqb_spec (b_refcnt b') 0); [done|]. injection Hm as <- <-. split; [lia|].
      exists i, b'. rewrite list_lookup_insert_eq by (by eapply lookup_lt_Some). split_and!; [done|done|lia|done].
    + rewrite lookup_partial_alter_ne in Hm by done. destruct (B9 m r k Hm) as (Hrb & j & c & Hj & Hc & Hr & Ec).
      split; [done|]. exists j, c. split; [done|]. split; [|done]. rewrite list_lookup_insert_ne; [done|].
      intros <-. assert (c = b) as -> by congruence. destruct Hold as [[_ E]|E]; [congruence|lia].
  - intros j c Hj Hc Hr. apply Hlk in Hc as [[-> ->]|[_ Hc]]; [by apply Hzero|eauto].
  - intros j c Hj Hc Dc Hr. apply Hlk in Hc as [[-> ->]|[_ Hc]]; [by apply Hzero|eauto].
  - intros j c Hj Hc Dc. apply Hlk in Hc as [[-> ->]|[Hne Hc]].
    + fold n. by rewrite lookup_insert_eq.
    + rewrite lookup_insert_ne; [eauto|]. intros E. by apply (Huniq j c Hne Hj Hc Dc).
  - intros m Hm. assert (m <> n) as Hne.
    { intros ->. apply (Hm i b' Hi); [by apply list_lookup_insert_eq; eapply lookup_lt_Some|done|done]. }
    rewrite lookup_insert_ne by done. destruct (decide (b_dev b = ROOTDEV /\ b_blockno b = m)) as [[Db Eb]|Hnb].
    + destruct Hold as [[_ E]|E]; [congruence|].
      rewrite <- Eb, (B12 i b Hi Hb Db), (B11 i b Hi Hb Db E). done.
    + apply B13. intros j c Hj Hc Dc Ec. destruct (decide (j = i)) as [->|Hji].
      * assert (c = b) as -> by congruence. auto.
      * apply (Hm j c Hj); [by rewrite list_lookup_insert_ne|done|done].
Qed.

(** Writing the block of a buffer in use to the disk. *)
Lemma bc_write bs D l A V n d :
  bc bs D l A V -> is_Some (A !! n) -> V !! n = Some d -> bc bs (<[n := d]> D) l A V.
Proof.
  intros [B1 B2 B3 B4 B5 B6 B7 B8 B9 B10 B11 B12 B13] [[r k] Hn] Hd. constructor; try done.
  - intros i b Hi Hb Dv Hr. destruct (decide (b_blockno b = n)) as [E|E].
    + subst n. rewrite lookup_insert_eq. rewrite <- Hd. eauto.
    + rewrite lookup_insert_ne by done. eauto.
  - intros m Hm. rewrite lookup_insert_ne; [by apply B13|]. intros <-.
    destruct (B9 _ _ _ Hn) as (_ & i & b & Hi & Hb & Hr & E). apply (Hm i b Hi Hb); [|done].
    by eapply B8.
Qed.

(** ** The operations *)

(** What the file system leaves alone below the inode layer. *)
Definition core (s : kstate) :=
  (held s, cur s, mem s, freelist s, kernel_pagetable s, (initproc s, nextpid s, queues s, q_index s),
   (ticks s, ftable s, sb s, cons s, uartst s)).

Lemma disk_range_insert d n x : disk_range d -> is_Some (d !! n) -> disk_range (<[n := x]> d).
Proof. intros Hd Hn m. destruct (decide (m = n)) as [->|]; [auto|]. rewrite lookup_insert_ne by done. apply Hd. Qed.

Lemma woken_refl me ps : woken me ps ps.
Proof.
  split; [done|]. intros i p Hp. exists p. split; [done|]. destruct (decide (me = Some i)); [left|right]; auto. done.
Qed.

(** What becomes of [me]. *)
Lemma woken_self ps ps' pr p :
  woken (Some pr) ps ps' -> (exists q, ps !! pr = Some q /\ same_proc p q) ->
  exists q, ps' !! pr = Some q /\ same_proc p q.
Proof.
  intros [_ Hw] (q & Hq & Eq). destruct (Hw pr q Hq) as (r & Hr & [[_ Er]|[? _]]); [|congruence].
  exists r. split; [done|]. unfold same_proc in *. congruence.
Qed.

Lemma same_proc_pid p q : same_proc p q -> p_pid p = p_pid q.
Proof. intros E. exact (f_equal p_pid E). Qed.

(** A running process, with its counts as they are now. *)
Lemma running_now s pr p : running s pr p -> exists q, procs s !! pr = Some q /\ running s pr q.
Proof.
  intros [R1 (q & Hq & Eq) R3 R4 R5 R6]. exists q. split; [done|]. constructor; try done; [by exists q| |].
  - rewrite <- R5. symmetry. exact (f_equal p_state Eq).
  - rewrite <- R6. symmetry. exact (f_equal p_chan Eq).
Qed.

Lemma woken_trans me ps1 ps2 ps3 : woken me ps1 ps2 -> woken me ps2 ps3 -> woken me ps1 ps3.
Proof.
  intros [L1 H1] [L2 H2]. split; [lia|]. intros i p Hp. destruct (H1 i p Hp) as (q & Hq & Eq).
  destruct (H2 i q Hq) as (r & Hr & Er). exists r. split; [done|].
  destruct Eq as [[Hm Eq]|[Hm Eq]], Er as [[Hm' Er]|[Hm' Er]]; [left|done|done|right].
  - split; [done|]. unfold same_proc in *. congruence.
  - split; [done|]. destruct Eq as [->|[Hs ->]]; [done|]. by destruct Er as [->|[? _]]; [right|].
Qed.

Lemma woken_wake_all c me ps : woken me ps (wake_all c me ps).
Proof.
  split; [apply length_imap|]. intros i p Hp. unfold wake_all. rewrite list_lookup_imap, Hp. simpl.
  eexists. split; [reflexivity|]. destruct (bool_decide_reflect (me = Some i)); [by left|]. right. split; [done|].
  unfold wake_proc. destruct (bool_decide_reflect (p_state p = SLEEPING /\ p_chan p = Some c)) as [[??]|]; auto.
Qed.

Section Ops.
Context `{Build} `{DiskOk}.

Record bio_frame (s s' : kstate) : Prop := MkBioFrame {
  bf_core : core s' = core s;
  bf_log : klogst s' = klogst s;
  bf_itable : itable s' = itable s;
  bf_procs : woken (cur s) (procs s) (procs s');
  bf_idle : disk_idle (vdisk s) -> disk_idle (vdisk s')
}.

Lemma core_held s s' : core s' = core s -> held s' = held s.
Proof. by intros [= ? ? ? ? ? ? ? ? ? ? ? ? ? ?]. Qed.
Lemma core_cur s s' : core s' = core s -> cur s' = cur s.
Proof. by intros [= ? ? ? ? ? ? ? ? ? ? ? ? ? ?]. Qed.

Lemma bio_frame_refl s : bio_frame s s.
Proof. constructor; auto using woken_refl. Qed.

Lemma bio_frame_trans s1 s2 s3 : bio_frame s1 s2 -> bio_frame s2 s3 -> bio_frame s1 s3.
Proof.
  intros [C1 L1 I1 P1 D1] [C2 L2 I2 P2 D2]. constructor; try congruence; auto.
  rewrite (core_cur _ _ C1) in P2. eauto using woken_trans.
Qed.

Lemma woken_running s s' pr p :
  core s' = core s -> woken (cur s) (procs s) (procs s') -> running s pr p -> running s' pr p.
Proof.
  intros Hc [Hlen Hw] [R1 R2 R3 R4 R5 R6]. pose proof (core_cur _ _ Hc). pose proof (core_held _ _ Hc).
  constructor; try congruence. rewrite R1 in Hw. exact (woken_self _ _ _ _ (conj Hlen Hw) R2).
Qed.

(** The cache, as a process that runs sees it: [A] and [V] describe it. *)
Record cache (s : kstate) (pr : nat) (p : proc) (A : gmap Z (Z * bool)) (V : gmap Z (list Z)) : Prop :=
  MkCache {
    ca_run : running s pr p;
    ca_idle : disk_idle (vdisk s);
    ca_bc : exists l, bc (bcache s) (disk s) l A V;
    ca_range : disk_range (disk s)
  }.

(** Process [p] holds buffer [i], which has block [n]. *)
Definition holds (s : kstate) (p : proc) (i : nat) (n : Z) : Prop :=
  (i < 30)%nat /\ exists b, bcache s !! i = Some b /\ b_dev b = ROOTDEV /\ b_blockno b = n /\
    b_lock b = MkSleeplock true (p_pid p) /\ 0 < b_refcnt b.

Definition refs (A : gmap Z (Z * bool)) (n : Z) : Z := match A !! n with Some (r, _) => r | None => 0 end.

(** Block [n] can be had without waiting. *)
Definition can_get (A : gmap Z (Z * bool)) (n : Z) : Prop :=
  match A !! n with Some (r, k) => k = false /\ r < 1000 | None => (size A < 30)%nat end.

Lemma can_get_empty n : can_get ∅ n.
Proof. unfold can_get. rewrite lookup_empty, map_size_empty. lia. Qed.

(** [bget_cached] finds the buffer of the block among [l], if there is one. *)
Lemma bget_cached_ok s dev n : forall l k i,
  (length l <= k)%nat -> (forall j, j ∈ l -> (j < 30)%nat) -> i = first l HEAD ->
  match l with [] => True | y :: l => path (next_of (bcache s)) y l HEAD end ->
  exists o, bget_cached k dev n i s = Ok o s /\
    match o with
    | Some j => j ∈ l /\ exists b, bcache s !! j = Some b /\ b_dev b = dev /\ b_blockno b = n
    | None => forall j b, j ∈ l -> bcache s !! j = Some b -> b_dev b = dev -> b_blockno b <> n
    end.
Proof.
  induction l as [|y l IH]; intros k i Hk Hlt -> Hp.
  { exists None. split; [by destruct k|]. intros j b Hj. set_solver. }
  destruct k as [|k]; [simpl in Hk; lia|]. cbn [bget_cached first].
  rewrite bool_decide_false by (specialize (Hlt y); unfold HEAD; set_solver by lia).
  destruct (next_read (bcache s) y (first l HEAD)) as (b & Hb & Eb).
  { by destruct l; simpl in *; tauto. }
  mstep (buf_at_ok y b s Hb). destruct ((b_dev b =? dev) && (b_blockno b =? n)) eqn:E.
  - apply andb_true_iff in E as [E1%Z.eqb_eq E2%Z.eqb_eq]. exists (Some y). split; [done|].
    split; [set_solver|eauto].
  - destruct (IH k (b_next b)) as (o & Hrun & Ho).
    + simpl in Hk. lia.
    + set_solver.
    + done.
    + destruct l; simpl in *; tauto.
    + exists o. split; [done|]. destruct o as [j|].
      * destruct Ho as [Hj Ho]. split; [set_solver|done].
      * intros j c [->|Hj]%elem_of_cons Hc Hd Hn; [|by eapply Ho].
        assert (c = b) as -> by congruence. rewrite Hd, Hn, !Z.eqb_refl in E. done.
Qed.

(** [bget_unused] finds the last unused buffer of the list. *)
Lemma bget_unused_ok s : forall l k i,
  (length l <= k)%nat -> (forall j, j ∈ l -> (j < 30)%nat) -> i = first l HEAD ->
  match l with [] => True | y :: l => path (prev_of (bcache s)) y l HEAD end ->
  exists o, bget_unused k i s = Ok o s /\
    match o with
    | Some j => exists l1 l2 b, l = l1 ++ j :: l2 /\ bcache s !! j = Some b /\ b_refcnt b = 0 /\
        forall j b, j ∈ l1 -> bcache s !! j = Some b -> b_refcnt b <> 0
    | None => forall j b, j ∈ l -> bcache s !! j = Some b -> b_refcnt b <> 0
    end.
Proof.
  induction l as [|y l IH]; intros k i Hk Hlt -> Hp.
  { exists None. split; [by destruct k|]. intros j b Hj. set_solver. }
  destruct k as [|k]; [simpl in Hk; lia|]. cbn [bget_unused first].
  rewrite bool_decide_false by (specialize (Hlt y); unfold HEAD; set_solver by lia).
  destruct (prev_read (bcache s) y (first l HEAD)) as (b & Hb & Eb).
  { by destruct l; simpl in *; tauto. }
  mstep (buf_at_ok y b s Hb). destruct (Z.eqb_spec (b_refcnt b) 0) as [E|E].
  - exists (Some y). split; [done|]. exists [], l, b. split_and!; [done|done|done|set_solver].
  - destruct (IH k (b_prev b)) as (o & Hrun & Ho).
    + simpl in Hk. lia.
    + set_solver.
    + done.
    + destruct l; simpl in *; tauto.
    + exists o. split; [done|]. destruct o as [j|].
      * destruct Ho as (l1 & l2 & c & -> & Hc & Hr & Hbef). exists (y :: l1), l2, c.
        split_and!; [done|done|done|]. intros j' c' [->|Hj]%elem_of_cons Hc'; [congruence|exact (Hbef j' c' Hj Hc')].
      * intros j c [->|Hj]%elem_of_cons Hc; [congruence|exact (Ho j c Hj Hc)].
Qed.

(** What [bget] does to the buffer it returns. *)
Definition got (p : proc) (n : Z) (b : buf) : buf :=
  set_b_lock (MkSleeplock true (p_pid p))
    (if (b_dev b =? ROOTDEV) && (b_blockno b =? n) then set_b_refcnt (b_refcnt b + 1) b
     else recycle ROOTDEV n b).

Lemma alter_is_insert {A} (f : A -> A) i (l : list A) x :
  l !! i = Some x -> alter f i l = <[i := f x]> l.
Proof.
  intros Hx. apply list_eq. intros j. rewrite list_lookup_alter. case_decide as E.
  - subst. rewrite list_lookup_insert_eq by (by eapply lookup_lt_Some). by rewrite Hx.
  - by rewrite list_lookup_insert_ne.
Qed.

(** The end of [bget]: the buffer is changed, the cache's lock released and the
    buffer's lock taken. *)
Lemma bget_tail s pr p i b f :
  running s pr p -> bcache s !! i = Some b -> b_lock (f b) = b_lock b -> sl_locked (b_lock b) = false ->
  (bupd i f ;; release LkBcache ;; acquiresleep (SlBuf i) ;; ret i) (set_held [LkBcache] s) =
    Ok i (set_bcache (<[i := set_b_lock (MkSleeplock true (p_pid p)) (f b)]> (bcache s)) s).
Proof.
  intros [R1 (q & R2 & Eq) R3 R4 R5 R6] Hb Hf Hu. rewrite (same_proc_pid _ _ Eq). set (s0 := set_held _ s).
  mstep (bupd_ok i f s0 ltac:(simpl; by eapply lookup_lt_Some)). set (s1 := set_bcache _ s0).
  mstep (release_only LkBcache s1 eq_refl). set (s2 := set_held [] s1).
  assert (Hb2 : bcache s2 !! i = Some (f b)).
  { simpl. rewrite (alter_is_insert _ _ _ _ Hb). apply list_lookup_insert_eq. by eapply lookup_lt_Some. }
  mstep (acquiresleep_free (SlBuf i) (b_lock (f b)) pr q s2 ltac:(simpl; set_solver)
    ltac:(simpl; cbn in Hb2; by rewrite Hb2) ltac:(by rewrite Hf) R1 R2).
  unfold ret. f_equal. cbn [slset]. rewrite (alter_is_insert _ _ _ _ Hb2).
  change (bcache s2) with (alter f i (bcache s)). rewrite (alter_is_insert _ _ _ _ Hb), list_insert_insert_eq.
  unfold s2, s1, s0. rewrite <- R4. state_eq s.
Qed.

Lemma bget_ok s pr p l A V n :
  running s pr p -> bc (bcache s) (disk s) l A V -> can_get A n ->
  exists i b, bget ROOTDEV n s = Ok i (set_bcache (<[i := got p n b]> (bcache s)) s) /\
    (i < 30)%nat /\ bcache s !! i = Some b /\ 0 <= b_refcnt b < 1000 /\
    (b_dev b = ROOTDEV /\ b_blockno b = n \/
     (forall j c, (j < 30)%nat -> bcache s !! j = Some c -> b_dev c = ROOTDEV -> b_blockno c <> n) /\
     b_refcnt b = 0 /\
     exists l1 l2, l = l1 ++ i :: l2 /\
       forall j c, j ∈ l2 -> bcache s !! j = Some c -> b_refcnt c <> 0).
Proof.
  intros Hr Hbc Hget. pose proof Hr as [R1 R2 R3 R4 R5 R6].
  pose proof Hbc as [B1 [Bn Bp] B3 B4 B5 B6 B7 B8 B9 B10 B11 B12 B13]. unfold bget.
  mstep (acquire_ok LkBcache s ltac:(rewrite R4; set_solver)). rewrite R4.
  destruct (links_read (bcache s) HEAD (first l HEAD) (first (reverse l) HEAD)) as (h & Hh & Eh1 & Eh2);
    [by apply path_first in Bn|by apply path_first in Bp|].
  mstep (buf_at_ok HEAD h (set_held [LkBcache] s) Hh).
  assert (Hl30 : forall j, j ∈ l <-> (j < 30)%nat).
  { intros j. rewrite B3, elem_of_seq. lia. }
  assert (Hlen : length l = 30%nat) by (rewrite B3; apply length_seq).
  destruct (bget_cached_ok (set_held [LkBcache] s) ROOTDEV n l 30 (b_next h)) as (o & Hscan & Ho);
    [lia|by intros; apply Hl30|done|by destruct l; simpl in *; tauto|].
  mstep Hscan. destruct o as [i|].
  - destruct Ho as (Hi & b & Hb & Hd & Hn). apply Hl30 in Hi. cbn [bcache set_held] in Hb.
    assert (Hfree : sl_locked (b_lock b) = false /\ 0 <= b_refcnt b < 1000).
    { pose proof (B5 i b Hi Hb). destruct (decide (0 < b_refcnt b)).
      - destruct (B8 i b Hi Hb ltac:(done)) as [_ Hu]. unfold can_get in Hget. rewrite Hn in Hu.
        rewrite Hu in Hget. destruct Hget. split; [done|lia].
      - split; [|lia]. apply (B10 i b Hi Hb). lia. }
    destruct Hfree as [Hfree Hrr]. exists i, b.
    rewrite (bget_tail s pr p i b) by done. split; [|split_and!; auto; lia].
    unfold got. rewrite Hd, Hn, !Z.eqb_refl. cbn [andb]. by rewrite u32_small by lia.
  - destruct (bget_unused_ok (set_held [LkBcache] s) (reverse l) 30 (b_prev h)) as (o & Hscan2 & Ho2).
    + rewrite length_reverse. lia.
    + intros j Hj. rewrite elem_of_reverse in Hj. exact (proj1 (Hl30 j) Hj).
    + done.
    + destruct (reverse l); simpl in *; tauto.
    + mstep Hscan2. destruct o as [i|].
      * destruct Ho2 as (l1 & l2 & b & El & Hb & Hz & Hbef). cbn [bcache set_held] in *.
        assert (Hi : (i < 30)%nat) by (apply Hl30; rewrite <- elem_of_reverse, El; set_solver).
        exists i, b. rewrite (bget_tail s pr p i b) by (eauto || done).
        assert (Hmiss : ((b_dev b =? ROOTDEV) && (b_blockno b =? n)) = false).
        { apply not_true_iff_false. rewrite andb_true_iff, !Z.eqb_eq. intros [Hd Hn].
          by apply (Ho i b (proj2 (Hl30 i) Hi) Hb Hd). }
        split; [unfold got; by rewrite Hmiss|]. split_and!; try (done || lia). right.
        split_and!; [|done|].
        -- intros j c Hj Hc Hd. exact (Ho j c (proj2 (Hl30 j) Hj) Hc Hd).
        -- exists (reverse l2), (reverse l1). split.
           ++ rewrite <- (reverse_involutive l), El, reverse_app, reverse_cons, <- app_assoc. done.
           ++ intros j c Hj Hc. rewrite elem_of_reverse in Hj. exact (Hbef j c Hj Hc).
      * exfalso. unfold can_get in Hget. destruct (A !! n) as [[r k]|] eqn:EA.
        -- destruct (B9 n r k EA) as (_ & j & c & Hj & Hc & Hrc & En).
           destruct (B8 j c Hj Hc Hrc) as [Hd _]. by apply (Ho j c (proj2 (Hl30 j) Hj) Hc Hd).
        -- destruct (bc_room _ _ _ _ _ Hbc Hget) as (j & c & Hj & Hc & Hz).
           apply (Ho2 j c); [by apply elem_of_reverse, Hl30|done|done].
Qed.

Lemma bc_refs bs D l A V i b :
  bc bs D l A V -> (i < 30)%nat -> bs !! i = Some b -> b_dev b = ROOTDEV ->
  refs A (b_blockno b) = b_refcnt b.
Proof.
  intros [B1 B2 B3 B4 B5 B6 B7 B8 B9 B10 B11 B12 B13] Hi Hb Hd. pose proof (B5 i b Hi Hb).
  unfold refs. destruct (decide (0 < b_refcnt b)) as [Hr|Hr].
  - destruct (B8 i b Hi Hb Hr) as [_ ->]. done.
  - destruct (A !! b_blockno b) as [[r k]|] eqn:E; [|lia].
    destruct (B9 _ _ _ E) as (_ & j & c & Hj & Hc & Hrc & En). destruct (B8 j c Hj Hc Hrc) as [Hdc _].
    assert (i = j) as -> by (apply (B7 i j b c); auto). congruence.
Qed.

Lemma refs_absent A n : A !! n = None -> refs A n = 0.
Proof. unfold refs. by intros ->. Qed.

(** Someone who does not wait for block [n] does not hold it. *)
Lemma holds_get s p l A V i b n j m :
  bc (bcache s) (disk s) l A V -> can_get A n -> bcache s !! i = Some b ->
  (b_dev b = ROOTDEV /\ b_blockno b = n \/ b_refcnt b = 0) -> holds s p j m -> j <> i.
Proof.
  intros Hbc Hget Hb Hor (Hj & c & Hc & Hd & Hn & Hl & Hr) ->.
  assert (c = b) as -> by congruence. destruct Hor as [[_ E]|?]; [|lia].
  destruct (bc_used _ _ _ _ _ Hbc i b Hj Hb Hr) as [_ Hu]. unfold can_get in Hget.
  rewrite Hl, E in Hu. rewrite Hu in Hget. by destruct Hget.
Qed.

Lemma holds_insert s s' p i b j m :
  bcache s' = <[i := b]> (bcache s) -> j <> i -> holds s p j m -> holds s' p j m.
Proof.
  intros E Hne (Hj & c & Hc & Hrest). split; [done|]. exists c. rewrite E.
  rewrite list_lookup_insert_ne by done. done.
Qed.

(** [bread] of a block that can be had returns a buffer with the contents of the
    logical disk, held by the caller; the logical disk is as before. *)
Lemma bread_ok s pr p A V n d :
  cache s pr p A V -> V !! n = Some d -> can_get A n ->
  exists i s', bread ROOTDEV n s = Ok i s' /\ bio_frame s s' /\
    cache s' pr p (<[n := (refs A n + 1, true)]> A) V /\
    disk s' = disk s /\ disk_writes s' = disk_writes s /\ holds s' p i n /\
    (forall j m, holds s p j m -> holds s' p j m).
Proof.
  intros [Hr Hid [l Hbc] Hrg] Hd Hget.
  destruct (bget_ok s pr p l A V n Hr Hbc Hget) as (i & b & Hrun & Hi & Hb & Hrb & Hcase).
  unfold bread. mstep Hrun. set (s1 := set_bcache _ s).
  assert (Hlen : (i < length (bcache s))%nat) by (by eapply lookup_lt_Some).
  assert (Hb1 : bcache s1 !! i = Some (got p n b)) by (by apply list_lookup_insert_eq).
  mstep (buf_at_ok i _ s1 Hb1).
  pose proof Hbc as [B1 B2 B3 B4 B5 B6 B7 B8 B9 B10 B11 B12 B13].
  assert (Hhold : forall j m, holds s p j m -> j <> i).
  { intros j m Hj. eapply (holds_get s p l A V i b n j m); eauto. destruct Hcase as [?|(_ & ? & _)]; auto. }
  destruct Hcase as [[Hdv Hn]|(Hno & Hz & _)].
  - assert (Eg : got p n b = set_b_lock (MkSleeplock true (p_pid p)) (set_b_refcnt (b_refcnt b + 1) b)).
    { unfold got. by rewrite Hdv, Hn, !Z.eqb_refl. }
    assert (Hv : b_valid (got p n b) = true) by (rewrite Eg; by apply (B6 i b)).
    rewrite Hv. exists i, s1. split; [done|].
    assert (Hbc1 : bc (bcache s1) (disk s1) l (<[n := (refs A n + 1, true)]> A) V).
    { pose proof (bc_update _ _ _ _ _ i b (got p n b) Hbc Hb Hi) as Hu. rewrite Eg in Hu. simpl in Hu.
      rewrite <- Hn, (bc_refs _ _ _ _ _ i b Hbc Hi Hb Hdv).
      rewrite (insert_id V) in Hu by (by apply (B12 i b)).
      unfold s1. rewrite Eg. unfold use_of in Hu. simpl in Hu. destruct (Z.eqb_spec (b_refcnt b + 1) 0); [lia|].
      apply Hu; eauto; lia. }
    split; [constructor; try done; apply woken_refl|].
    split; [constructor; [by destruct Hr|done|by exists l|done]|]. split_and!; [done|done| |].
    + split; [done|]. exists (got p n b). rewrite Eg. rewrite Eg in Hb1. simpl. split_and!; (done || lia).
    + intros j m Hj. by eapply (holds_insert s s1 p i); [|eapply Hhold|].
  - assert (Eg : got p n b = set_b_lock (MkSleeplock true (p_pid p)) (recycle ROOTDEV n b)).
    { unfold got. destruct (Z.eqb_spec (b_dev b) ROOTDEV) as [Hdv|]; [|done].
      destruct (Z.eqb_spec (b_blockno b) n); [|done]. exfalso. by apply (Hno i b). }
    assert (Hdn : disk s !! n = Some d) by (rewrite <- (B13 n Hno); done).
    rewrite Eg. simpl. rewrite Eg in Hb1. set (g := set_b_lock _ (recycle ROOTDEV n b)) in *.
    assert (Hr1 : running s1 pr p) by (by destruct Hr).
    destruct (disk_rw_ok s1 pr p i g false Hr1 Hid Hb1) as (ps & vd & Hw & Hid' & Hrw).
    { by apply (B4 i b). }
    { change (is_Some (disk s !! n)). by rewrite Hdn. }
    { done. }
    unfold bind at 1. cbn [when negb]. unfold bind at 1. rewrite Hrw. cbn [obind transfer].
    set (s2 := set_bcache _ _).
    assert (Hb2 : bcache s2 !! i = Some (set_b_data d g)).
    { simpl. rewrite list_lookup_insert_eq by (by rewrite length_insert). by rewrite Hdn. }
    rewrite (bupd_ok i (set_b_valid true) s2) by (by eapply lookup_lt_Some). cbn [obind ret].
    set (g' := set_b_valid true (set_b_data d g)).
    assert (E3 : alter (set_b_valid true) i (bcache s2) = <[i := g']> (bcache s)).
    { rewrite (alter_is_insert _ _ _ _ Hb2). simpl. by rewrite !list_insert_insert_eq. }
    rewrite E3. set (s3 := set_bcache (<[i := g']> (bcache s)) s2). exists i, s3. split; [done|].
    assert (Hbc3 : bc (bcache s3) (disk s3) l (<[n := (refs A n + 1, true)]> A) V).
    { pose proof (bc_update _ _ _ _ _ i b g' Hbc Hb Hi) as Hu. simpl in Hu. unfold use_of in Hu. simpl in Hu.
      rewrite (insert_id V) in Hu by done.
      assert (HA : A !! n = None).
      { destruct (A !! n) as [[r k]|] eqn:EA; [|done]. destruct (B9 _ _ _ EA) as (_ & j & c & Hj & Hc & Hrc & En).
        exfalso. apply (Hno j c Hj Hc); [by eapply B8|done]. }
      rewrite (refs_absent A n HA). apply Hu; auto; try lia; [by apply (B4 i b)|].
      intros j c Hj Hj30 Hc Hdc. by apply (Hno j c). }
    split; [constructor; try done; by rewrite (run_cur _ _ _ Hr)|].
    split.
    { constructor; [|done|by exists l|done]. destruct Hr as [R1 R2 R3 R4 R5 R6]. constructor; try done.
      - exact (woken_self _ _ _ _ Hw R2).
      - simpl. destruct Hw as [Hw _]. simpl in Hw. congruence. }
    split_and!; [done|done| |].
    + split; [done|]. exists g'. simpl. rewrite list_lookup_insert_eq by done. split_and!; (done || lia).
    + intros j m Hj. by eapply (holds_insert s s3 p i); [|eapply Hhold|].
Qed.

Lemma no_links_fields b c :
  no_links b = no_links c -> b_valid b = b_valid c /\ b_disk b = b_disk c /\ b_dev b = b_dev c /\
    b_blockno b = b_blockno c /\ b_lock b = b_lock c /\ b_refcnt b = b_refcnt c /\ b_data b = b_data c.
Proof. unfold no_links. intros E. injection E. intros. split_and!; done. Qed.

(** A change of the links only. *)
Lemma bc_relink bs bs' D l l' A V :
  bc bs D l A V -> no_links <$> bs' = no_links <$> bs -> linked_list bs' l' -> l' ≡ₚ seq 0 30 ->
  bc bs' D l' A V.
Proof.
  intros [B1 B2 B3 B4 B5 B6 B7 B8 B9 B10 B11 B12 B13] E Hl Hp.
  assert (Hlk : forall j c', bs' !! j = Some c' -> exists c, bs !! j = Some c /\ no_links c = no_links c').
  { intros j c' Hc'. assert (no_links <$> bs' !! j = no_links <$> bs !! j) as Ej by (by rewrite <- !list_lookup_fmap, E).
    rewrite Hc' in Ej. simpl in Ej. destruct (bs !! j) as [c|]; [|done]. apply Some_inj in Ej. eauto. }
  assert (Hkl : forall j c, bs !! j = Some c -> exists c', bs' !! j = Some c' /\ no_links c' = no_links c).
  { intros j c Hc. assert (no_links <$> bs' !! j = no_links <$> bs !! j) as Ej by (by rewrite <- !list_lookup_fmap, E).
    rewrite Hc in Ej. simpl in Ej. destruct (bs' !! j) as [c'|]; [|done]. apply Some_inj in Ej. eauto. }
  constructor; try done.
  - apply (f_equal length) in E. rewrite !length_fmap in E. lia.
  - intros i b' Hb'. destruct (Hlk i b' Hb') as (b & Hb & (? & ? & ? & ? & ? & ? & ?)%no_links_fields). rewrite <- (B4 i b Hb). congruence.
  - intros i b' Hi Hb'. destruct (Hlk i b' Hb') as (b & Hb & (? & ? & ? & ? & ? & ? & ?)%no_links_fields). pose proof (B5 i b Hi Hb). congruence.
  - intros i b' Hi Hb' Hd. destruct (Hlk i b' Hb') as (b & Hb & (? & ? & ? & ? & ? & ? & ?)%no_links_fields). rewrite <- (B6 i b Hi Hb); congruence.
  - intros i j b' c' Hi Hj Hb' Hc' Hd Hd' En.
    destruct (Hlk i b' Hb') as (b & Hb & (? & ? & ? & ? & ? & ? & ?)%no_links_fields), (Hlk j c' Hc') as (c & Hc & (? & ? & ? & ? & ? & ? & ?)%no_links_fields).
    apply (B7 i j b c); congruence.
  - intros i b' Hi Hb' Hr. destruct (Hlk i b' Hb') as (b & Hb & (? & ? & ? & ? & ? & ? & ?)%no_links_fields).
    destruct (B8 i b Hi Hb ltac:(congruence)) as [? ?]. split; congruence.
  - intros n r k HA. destruct (B9 n r k HA) as (Hr & i & b & Hi & Hb & Hrb & En). split; [done|].
    destruct (Hkl i b Hb) as (b' & Hb' & (? & ? & ? & ? & ? & ? & ?)%no_links_fields). exists i, b'. split_and!; congruence.
  - intros i b' Hi Hb' Hr. destruct (Hlk i b' Hb') as (b & Hb & (? & ? & ? & ? & ? & ? & ?)%no_links_fields).
    rewrite <- (B10 i b Hi Hb ltac:(congruence)). congruence.
  - intros i b' Hi Hb' Hd Hr. destruct (Hlk i b' Hb') as (b & Hb & (? & ? & ? & ? & ? & ? & ?)%no_links_fields).
    pose proof (B11 i b Hi Hb ltac:(congruence) ltac:(congruence)). congruence.
  - intros i b' Hi Hb' Hd. destruct (Hlk i b' Hb') as (b & Hb & (? & ? & ? & ? & ? & ? & ?)%no_links_fields).
    pose proof (B12 i b Hi Hb ltac:(congruence)). congruence.
  - intros n Hn. apply B13. intros i b Hi Hb Hd. destruct (Hkl i b Hb) as (b' & Hb' & (? & ? & ? & ? & ? & ? & ?)%no_links_fields).
    pose proof (Hn i b' Hi Hb' ltac:(congruence)). congruence.
Qed.

Lemma holds_relink s s' p j m :
  no_links <$> bcache s' = no_links <$> bcache s -> holds s p j m -> holds s' p j m.
Proof.
  intros E (Hj & c & Hc & Hd & Hn & Hl & Hr). split; [done|].
  assert (no_links <$> bcache s' !! j = no_links <$> bcache s !! j) as Ej by (by rewrite <- !list_lookup_fmap, E).
  rewrite Hc in Ej. simpl in Ej. destruct (bcache s' !! j) as [c'|] eqn:Ec'; [|done].
  apply Some_inj, no_links_fields in Ej as (? & ? & ? & ? & ? & ? & ?).
  exists c'. split_and!; congruence.
Qed.

Lemma holds_lock s p i n l A V :
  bc (bcache s) (disk s) l A V -> holds s p i n ->
  exists b, (i < 30)%nat /\ bcache s !! i = Some b /\ b_dev b = ROOTDEV /\ b_blockno b = n /\
    b_lock b = MkSleeplock true (p_pid p) /\ 0 < b_refcnt b < 2 ^ 31 /\
    A !! n = Some (b_refcnt b, true) /\ V !! n = Some (b_data b).
Proof.
  intros Hbc (Hi & b & Hb & Hd & Hn & Hl & Hr). exists b.
  destruct (bc_used _ _ _ _ _ Hbc i b Hi Hb Hr) as [_ Hu]. rewrite Hl, Hn in Hu. simpl in Hu.
  destruct (bc_users _ _ _ _ _ Hbc _ _ _ Hu) as [Hlt _].
  split_and!; try done. rewrite <- Hn. by apply (bc_hit _ _ _ _ _ Hbc i b).
Qed.

Lemma holdingsleep_held s pr p i n :
  running s pr p -> holds s p i n -> holdingsleep (SlBuf i) s = Ok true s.
Proof.
  intros [R1 (q & R2 & Eq) R3 R4 R5 R6] (Hi & b & Hb & Hd & Hn & Hl & Hr).
  rewrite (holdingsleep_ok (SlBuf i) (b_lock b) pr q); [|rewrite R4; set_solver|simpl; by rewrite Hb|done|done].
  rewrite Hl. simpl. by rewrite (same_proc_pid _ _ Eq), Z.eqb_refl.
Qed.

(** [bwrite] puts the block on the disk. *)
Lemma bwrite_ok s pr p A V i n d :
  cache s pr p A V -> holds s p i n -> V !! n = Some d -> is_Some (disk s !! n) ->
  exists s', bwrite i s = Ok tt s' /\ bio_frame s s' /\ cache s' pr p A V /\
    disk s' = <[n := d]> (disk s) /\ disk_writes s' = (n, d) :: disk_writes s /\
    (forall j m, holds s p j m -> holds s' p j m).
Proof.
  intros [Hr Hid [l Hbc] Hrg] Hh Hd Hdn. unfold bwrite. mstep (holdingsleep_held s pr p i n Hr Hh). cbn [negb].
  destruct (holds_lock s p i n l A V Hbc Hh) as (b & Hi & Hb & Hdv & Hn & Hl & Hrf & HA & HV).
  assert (d = b_data b) as -> by congruence.
  destruct (disk_rw_ok s pr p i b true Hr Hid Hb) as (ps & vd & Hw & Hid' & Hrw).
  { by apply (bc_disk _ _ _ _ _ Hbc i b). }
  { by rewrite Hn. }
  { done. }
  rewrite Hrw. cbn [transfer]. rewrite Hn. eexists. split; [reflexivity|].
  split; [constructor; try done; by rewrite (run_cur _ _ _ Hr)|]. split.
  { constructor; [|done| |by apply disk_range_insert].
    - destruct Hr as [R1 R2 R3 R4 R5 R6]. constructor; try done; [exact (woken_self _ _ _ _ Hw R2)|].
      destruct Hw as [Hw1 Hw2]. simpl. congruence.
    - exists l. simpl. apply bc_write; [done|by rewrite HA|done]. }
  done.
Qed.

(** Changing the contents of a buffer one holds. *)
Lemma bset_ok s pr p A V i n (f : list Z -> list Z) d :
  cache s pr p A V -> holds s p i n -> V !! n = Some d ->
  exists s', bupd i (fun b => set_b_data (f (b_data b)) b) s = Ok tt s' /\ bio_frame s s' /\
    cache s' pr p A (<[n := f d]> V) /\ disk s' = disk s /\ disk_writes s' = disk_writes s /\
    (forall j m, holds s p j m -> holds s' p j m).
Proof.
  intros [Hr Hid [l Hbc] Hrg] Hh Hd.
  destruct (holds_lock s p i n l A V Hbc Hh) as (b & Hi & Hb & Hdv & Hn & Hl & Hrf & HA & HV).
  assert (d = b_data b) as -> by congruence.
  rewrite bupd_ok by (by eapply lookup_lt_Some). rewrite (alter_is_insert _ _ _ _ Hb).
  eexists. split; [reflexivity|]. split; [constructor; try done; apply woken_refl|].
  set (b' := set_b_data _ b). split_and!; [|done|done|].
  - constructor; [by destruct Hr|done| |done]. exists l. simpl.
    pose proof (bc_update _ _ _ _ _ i b b' Hbc Hb Hi) as Hu. simpl in Hu. rewrite Hn in Hu.
    assert (HA' : partial_alter (fun _ => use_of b') n A = A).
    { unfold use_of. simpl. destruct (Z.eqb_spec (b_refcnt b) 0); [lia|]. rewrite Hl. exact (insert_id A n _ HA). }
    rewrite HA' in Hu. apply Hu; auto; try lia.
    + by apply (bc_disk _ _ _ _ _ Hbc i b).
    + by apply (bc_valid _ _ _ _ _ Hbc i b).
    + intros j c Hj Hj30 Hc Hdc En. apply Hj. apply (bc_uniq _ _ _ _ _ Hbc j i c b); auto. congruence.
  - intros j m (Hj & c & Hc & Hrest). split; [done|]. simpl. destruct (decide (j = i)) as [->|Hne].
    + rewrite list_lookup_insert_eq by (by eapply lookup_lt_Some). assert (c = b) as -> by congruence.
      exists b'. done.
    + rewrite list_lookup_insert_ne by done. eauto.
Qed.

(** The reference count of a buffer one holds changes to [r]. *)
Lemma bref_ok s pr p A V i n r b :
  cache s pr p A V -> holds s p i n -> bcache s !! i = Some b -> 0 < r < 2 ^ 31 ->
  let s' := set_bcache (<[i := set_b_refcnt r b]> (bcache s)) s in
  cache s' pr p (<[n := (r, true)]> A) V /\ (forall j m, holds s p j m -> holds s' p j m).
Proof.
  intros [Hr Hid [l Hbc] Hrg] Hh Hb0 Hrr s'.
  destruct (holds_lock s p i n l A V Hbc Hh) as (b1 & Hi & Hb & Hdv & Hn & Hl & Hrf & HA & HV).
  assert (b1 = b) as -> by congruence. split.
  - constructor; [by destruct Hr|done| |done]. exists l. simpl.
    pose proof (bc_update _ _ _ _ _ i b (set_b_refcnt r b) Hbc Hb Hi) as Hu. simpl in Hu. rewrite Hn in Hu.
    rewrite (insert_id V) in Hu by done. unfold use_of in Hu. simpl in Hu.
    destruct (Z.eqb_spec r 0); [lia|]. rewrite Hl in Hu. apply Hu; auto; try lia.
    + by apply (bc_disk _ _ _ _ _ Hbc i b).
    + by apply (bc_valid _ _ _ _ _ Hbc i b).
    + intros j c Hj Hj30 Hc Hdc En. apply Hj. apply (bc_uniq _ _ _ _ _ Hbc j i c b); auto. congruence.
  - intros j m (Hj & c & Hc & Hd & Hm & Hlk & Hrc). split; [done|]. simpl. destruct (decide (j = i)) as [->|Hne].
    + rewrite list_lookup_insert_eq by (by eapply lookup_lt_Some). assert (c = b) as -> by congruence.
      eexists. split; [reflexivity|]. simpl. split_and!; (done || lia).
    + rewrite list_lookup_insert_ne by done. eauto 10.
Qed.

(** The cache's lock around a change of one buffer. *)
Lemma bcache_locked s pr p i b f :
  running s pr p -> bcache s !! i = Some b ->
  (acquire LkBcache ;; bupd i f ;; release LkBcache) s = Ok tt (set_bcache (<[i := f b]> (bcache s)) s).
Proof.
  intros [R1 R2 R3 R4 R5 R6] Hb. mstep (acquire_ok LkBcache s ltac:(rewrite R4; set_solver)). rewrite R4.
  mstep (bupd_ok i f (set_held [LkBcache] s) ltac:(by eapply lookup_lt_Some)).
  rewrite (release_only LkBcache) by done. rewrite <- R4.
  change (bcache (set_held (LkBcache :: _) s)) with (bcache s).
  f_equal. simpl. rewrite (alter_is_insert _ _ _ _ Hb). state_eq s.
Qed.

Lemma bpin_ok s pr p A V i n r :
  cache s pr p A V -> holds s p i n -> A !! n = Some (r, true) -> r < 1000 ->
  exists s', bpin i s = Ok tt s' /\ bio_frame s s' /\ cache s' pr p (<[n := (r + 1, true)]> A) V /\
    disk s' = disk s /\ disk_writes s' = disk_writes s /\ (forall j m, holds s p j m -> holds s' p j m).
Proof.
  intros Hca Hh HA Hr. pose proof Hca as [Hrun Hid [l Hbc] Hrg].
  destruct (holds_lock s p i n l A V Hbc Hh) as (b & Hi & Hb & Hdv & Hn & Hl & Hrf & HA' & HV).
  rewrite HA in HA'. injection HA' as ->. unfold bpin. rewrite (bcache_locked s pr p i b) by done.
  rewrite u32_small by lia. destruct (bref_ok s pr p A V i n (b_refcnt b + 1) b Hca Hh Hb ltac:(lia)) as [H2 H3].
  eexists. split; [reflexivity|]. split_and!; try done. constructor; try done. apply woken_refl.
Qed.

Lemma bunpin_ok s pr p A V i n r :
  cache s pr p A V -> holds s p i n -> A !! n = Some (r, true) -> 1 < r ->
  exists s', bunpin i s = Ok tt s' /\ bio_frame s s' /\ cache s' pr p (<[n := (r - 1, true)]> A) V /\
    disk s' = disk s /\ disk_writes s' = disk_writes s /\ (forall j m, holds s p j m -> holds s' p j m).
Proof.
  intros Hca Hh HA Hr. pose proof Hca as [Hrun Hid [l Hbc] Hrg].
  destruct (holds_lock s p i n l A V Hbc Hh) as (b & Hi & Hb & Hdv & Hn & Hl & Hrf & HA' & HV).
  rewrite HA in HA'. injection HA' as ->. unfold bunpin. rewrite (bcache_locked s pr p i b) by done.
  rewrite u32_small by lia. destruct (bref_ok s pr p A V i n (b_refcnt b - 1) b Hca Hh Hb ltac:(lia)) as [H2 H3].
  eexists. split; [reflexivity|]. split_and!; try done. constructor; try done. apply woken_refl.
Qed.

(** Dropping one reference and the lock. *)
Definition drop_ref (A : gmap Z (Z * bool)) (n r : Z) : gmap Z (Z * bool) :=
  if r =? 1 then delete n A else <[n := (r - 1, false)]> A.

(** [brelse] gives up the lock and a reference; the last reference may only be
    given up when the block is on the disk as readers see it. *)
Lemma brelse_ok s pr p A V i n r :
  cache s pr p A V -> holds s p i n -> A !! n = Some (r, true) -> (r = 1 -> V !! n = disk s !! n) ->
  exists s', brelse i s = Ok tt s' /\ bio_frame s s' /\ cache s' pr p (drop_ref A n r) V /\
    disk s' = disk s /\ disk_writes s' = disk_writes s /\
    (forall j m, j <> i -> holds s p j m -> holds s' p j m).
Proof.
  intros [Hr Hid [l Hbc] Hrg] Hh HA Hclean.
  destruct (holds_lock s p i n l A V Hbc Hh) as (b & Hi & Hb & Hdv & Hn & Hl & Hrf & HA' & HV).
  rewrite HA in HA'. injection HA' as ->. pose proof Hr as [R1 R2 R3 R4 R5 R6].
  unfold brelse. mstep (holdingsleep_held s pr p i n Hr Hh). cbn [negb].
  assert (Hnp : no_proc_lock s) by (intros j; rewrite R4; set_solver).
  mstep (releasesleep_ok (SlBuf i) (b_lock b) s ltac:(rewrite R4; set_solver) ltac:(simpl; by rewrite Hb) Hnp R3).
  cbn [slset sl_chan]. rewrite (alter_is_insert _ _ _ _ Hb). set (b1 := set_b_lock _ b).
  set (s1 := set_procs _ _).
  mstep (acquire_ok LkBcache s1 ltac:(simpl; rewrite R4; set_solver)).
  change (held s1) with (held s). rewrite R4. set (s2 := set_held _ s1).
  set (b2 := set_b_refcnt (b_refcnt b - 1) b1).
  assert (Hlen : (i < length (bcache s))%nat) by (by eapply lookup_lt_Some).
  assert (Hb2 : bcache s2 !! i = Some b1) by (by apply list_lookup_insert_eq).
  mstep (bupd_ok i (fun b => set_b_refcnt (u32 (b_refcnt b - 1)) b) s2 ltac:(by eapply lookup_lt_Some)).
  rewrite (alter_is_insert _ _ _ _ Hb2). change (bcache s2) with (<[i := b1]> (bcache s)).
  rewrite list_insert_insert_eq. change (b_refcnt b1) with (b_refcnt b). rewrite u32_small by lia. fold b2.
  set (s3 := set_bcache (<[i := b2]> (bcache s)) s2).
  assert (Hb3 : bcache s3 !! i = Some b2) by (by apply list_lookup_insert_eq).
  mstep (buf_at_ok i b2 s3 Hb3).
  assert (Hbc3 : bc (bcache s3) (disk s3) l (drop_ref A n (b_refcnt b)) V).
  { pose proof (bc_update _ _ _ _ _ i b b2 Hbc Hb Hi) as Hu. simpl in Hu. rewrite Hn in Hu.
    rewrite (insert_id V) in Hu by done.
    assert (HAd : partial_alter (fun _ => use_of b2) n A = drop_ref A n (b_refcnt b)).
    { unfold use_of, drop_ref. simpl. destruct (Z.eqb_spec (b_refcnt b - 1) 0), (Z.eqb_spec (b_refcnt b) 1); try lia; done. }
    rewrite HAd in Hu. apply Hu; auto; try lia.
    - by apply (bc_disk _ _ _ _ _ Hbc i b).
    - by apply (bc_valid _ _ _ _ _ Hbc i b).
    - intros E. split; [done|]. rewrite <- Hclean by lia. done.
    - intros j c Hj Hj30 Hc Hdc En. apply Hj. apply (bc_uniq _ _ _ _ _ Hbc j i c b); auto. congruence. }
  assert (Hh3 : forall j m, j <> i -> holds s p j m -> holds s3 p j m).
  { intros j m Hj Hjm. by eapply (holds_insert s s3 p i). }
  assert (Hmv : exists bs' l', when (b_refcnt b2 =? 0) (move_to_front i) s3 = Ok tt (set_bcache bs' s3) /\
    bc bs' (disk s) l' (drop_ref A n (b_refcnt b)) V /\ no_links <$> bs' = no_links <$> bcache s3).
  { destruct (Z.eqb_spec (b_refcnt b2) 0) as [E|E]; cbn [when].
    - assert (Hin : i ∈ l) by (rewrite (bc_perm _ _ _ _ _ Hbc), elem_of_seq; lia).
      apply list_elem_of_split in Hin as (l1 & l2 & ->).
      destruct (move_to_front_ok s3 l1 i l2) as (bs' & Hm & Hll & Hnl);
        [apply Hbc3|apply Hbc|apply Hbc3|]. exists bs', (i :: l1 ++ l2). split_and!; [done| |done].
      eapply bc_relink; [exact Hbc3|done|done|]. rewrite Permutation_middle. apply Hbc.
    - exists (bcache s3), l. split_and!; [|done|done]. unfold ret. f_equal. }
  destruct Hmv as (bs' & l' & Hm & Hbc' & Hnl). mstep Hm. rewrite (release_only LkBcache) by done.
  eexists. split; [reflexivity|]. split.
  { constructor; try done; [|simpl; apply woken_wake_all]. unfold core. simpl. by rewrite R4. }
  split.
  { constructor; [|done|by exists l'|done]. constructor; try done.
    - simpl. rewrite R1. exact (woken_self _ _ _ _ (woken_wake_all _ _ _) R2).
    - simpl. unfold wake_all. by rewrite length_imap. }
  split_and!; [done|done|]. intros j m Hj Hjm.
  apply (holds_relink s3); [exact Hnl|]. by apply Hh3.
Qed.
End Ops.

(** ** Initialisation *)

(** A buffer that has never been used. *)
Definition blank (b : buf) : Prop :=
  b_disk b = false /\ b_dev b <> ROOTDEV /\ b_refcnt b = 0 /\ sl_locked (b_lock b) = false.

Lemma Forall_blank_alter f i bs :
  (forall b, blank b -> blank (f b)) -> Forall blank bs -> Forall blank (alter f i bs).
Proof. intros Hf Hbs. apply Forall_alter; auto. Qed.

Lemma binit_step s bs l a :
  length bs = 31%nat -> Forall blank bs -> linked_list bs l -> (a < 30)%nat -> a ∉ l -> NoDup l ->
  (forall j, j ∈ l -> (j < 30)%nat) ->
  exists bs', (let! h := buf_at HEAD in
    bupd a (set_b_next (b_next h)) ;;
    bupd a (set_b_prev HEAD) ;;
    initsleeplock (SlBuf a) ;;
    let! h := buf_at HEAD in
    bupd (b_next h) (set_b_prev a) ;;
    bupd HEAD (set_b_next a)) (set_bcache bs s) = Ok tt (set_bcache bs' s) /\
    length bs' = 31%nat /\ Forall blank bs' /\ linked_list bs' (a :: l).
Proof.
  intros Hlen Hbl Hl Ha Hal Hnd Hlt. set (w := first l HEAD).
  assert (Hw : (w < 31)%nat).
  { unfold w. destruct l as [|y l]; simpl; [unfold HEAD; lia|]. specialize (Hlt y). set_solver by lia. }
  destruct (next_read bs HEAD w (path_first _ _ _ _ (proj1 Hl))) as (h & Hh & Eh).
  mstep (buf_at_ok HEAD h (set_bcache bs s) Hh). rewrite Eh.
  mstep (bupd_ok a (set_b_next w) (set_bcache bs s) ltac:(simpl; lia)). set (s1 := set_bcache _ _).
  mstep (bupd_ok a (set_b_prev HEAD) s1 ltac:(simpl; rewrite length_alter; lia)). set (s2 := set_bcache _ s1).
  destruct (lookup_lt_is_Some_2 (bcache s2) a) as [b Hb]; [simpl; rewrite !length_alter; lia|].
  mstep (sl_set_ok (SlBuf a) (b_lock b) (MkSleeplock false 0) s2 ltac:(simpl; cbn in Hb; by rewrite Hb)).
  cbn [slset]. set (s3 := set_bcache _ s2).
  assert (Hh3 : bcache s3 !! HEAD = Some h).
  { simpl. rewrite !(list_lookup_alter_ne _ _ a HEAD) by (unfold HEAD; lia). exact Hh. }
  mstep (buf_at_ok HEAD h s3 Hh3). rewrite Eh.
  mstep (bupd_ok w (set_b_prev a) s3 ltac:(simpl; rewrite !length_alter; lia)). set (s4 := set_bcache _ s3).
  rewrite (bupd_ok HEAD (set_b_next a) s4) by (simpl; rewrite !length_alter; unfold HEAD; lia).
  eexists. split; [reflexivity|]. simpl. split_and!.
  - by rewrite !length_alter.
  - repeat (apply Forall_blank_alter; [by intros ? (? & ? & ? & ?)|]). done.
  - eapply linked_list_ext; [|apply (insert_links bs a l); rewrite ?Hlen; try done].
    + intros j. fold w. split.
      * rewrite !next_set_next by (rewrite !length_alter; unfold HEAD; lia). unfold fupd.
        case_decide; [done|]. rewrite !next_set_prev.
        by rewrite (proj1 (alter_links (set_b_lock _) a _ (fun b => conj eq_refl eq_refl) j)), !next_set_prev.
      * rewrite !prev_set_next. rewrite !(prev_set_prev w) by (rewrite !length_alter; lia). unfold fupd.
        case_decide; [done|].
        by rewrite (proj2 (alter_links (set_b_lock _) a _ (fun b => conj eq_refl eq_refl) j)).
    + lia.
    + unfold HEAD. lia.
    + unfold HEAD. lia.
    + apply NoDup_cons. split; [|done]. intros H30. specialize (Hlt _ H30). unfold HEAD in Hlt. lia.
Qed.

(** After [binit] no block is in use and readers see the disk. *)
Lemma binit_ok s :
  length (bcache s) = 31%nat -> Forall blank (bcache s) ->
  exists bs l, binit s = Ok tt (set_bcache bs s) /\ bc bs (disk s) l ∅ (disk s).
Proof.
  intros Hlen Hbl. unfold binit.
  mstep (bupd_ok HEAD (set_b_prev HEAD) s ltac:(rewrite Hlen; unfold HEAD; lia)). set (s1 := set_bcache _ s).
  mstep (bupd_ok HEAD (set_b_next HEAD) s1 ltac:(simpl; rewrite length_alter, Hlen; unfold HEAD; lia)).
  set (bs0 := alter (set_b_next HEAD) HEAD (bcache s1)).
  assert (Hl0 : linked_list bs0 []).
  { split; cbn [path reverse rev_append]; unfold bs0; simpl.
    - rewrite next_set_next by (rewrite length_alter, Hlen; unfold HEAD; lia). unfold fupd. by rewrite decide_True.
    - rewrite prev_set_next, prev_set_prev by (rewrite Hlen; unfold HEAD; lia). unfold fupd. by rewrite decide_True. }
  pose (I := fun (dn : list nat) (t : kstate) => exists bs, t = set_bcache bs s /\ length bs = 31%nat /\
    Forall blank bs /\ linked_list bs (reverse dn)).
  unfold all_bufs. remember (seq 0 30) as l30 eqn:E30.
  destruct (for_each_inv I l30 (fun b => let! h := buf_at HEAD in
    bupd b (set_b_next (b_next h)) ;;
    bupd b (set_b_prev HEAD) ;;
    initsleeplock (SlBuf b) ;;
    let! h := buf_at HEAD in
    bupd (b_next h) (set_b_prev b) ;;
    bupd HEAD (set_b_next b)) [] (set_bcache bs0 s1)) as (s' & Hrun & bs & -> & Hlen' & Hbl' & Hl').
  - exists bs0. split_and!; [done| | |done].
    + unfold bs0. simpl. rewrite !length_alter. done.
    + unfold bs0. simpl. repeat (apply Forall_blank_alter; [by intros ? (? & ? & ? & ?)|]). done.
  - intros pre a post t Hpre (bs & -> & Hlen' & Hbl' & Hl'). cbn [app] in *.
    assert (Hnd : NoDup (pre ++ a :: post)) by (rewrite <- Hpre, E30; apply NoDup_seq).
    assert (Hall : forall j, j ∈ pre ++ a :: post -> (j < 30)%nat).
    { intros j. rewrite <- Hpre, E30, elem_of_seq. lia. }
    apply NoDup_app in Hnd as (Hnd & Hd & _).
    destruct (binit_step s bs (reverse pre) a) as (bs' & Hr & Hlen2 & Hbl2 & Hl2); try done.
    + apply Hall. set_solver.
    + rewrite elem_of_reverse. intros Hin. apply (Hd a Hin). set_solver.
    + by rewrite reverse_Permutation.
    + intros j. rewrite elem_of_reverse. intros Hj. apply Hall. set_solver.
    + eexists. split; [exact Hr|]. exists bs'. split_and!; try done. by rewrite reverse_snoc.
  - rewrite Hrun. exists bs, (reverse l30). split; [done|].
    assert (Hb : forall i b, bs !! i = Some b -> blank b) by (intros i b Hib; by eapply Forall_lookup_1).
    assert (Hx : forall i b, bs !! i = Some b -> b_dev b = ROOTDEV -> False).
    { intros i b Hib Hd. by destruct (Hb i b Hib) as (_ & ? & _). }
    constructor; try done.
    + by rewrite reverse_Permutation, E30.
    + intros i b Hib. by destruct (Hb i b Hib).
    + intros i b _ Hib. destruct (Hb i b Hib) as (_ & _ & -> & _). done.
    + intros i b _ Hib Hd. by destruct (Hx i b Hib Hd).
    + intros i j b b' _ _ Hib _ Hd. by destruct (Hx i b Hib Hd).
    + intros i b _ Hib Hr. destruct (Hb i b Hib) as (_ & _ & E & _). lia.
    + intros i b _ Hib _. by destruct (Hb i b Hib) as (_ & _ & _ & ?).
    + intros i b _ Hib Hd. by destruct (Hx i b Hib Hd).
    + intros i b _ Hib Hd. by destruct (Hx i b Hib Hd).
Qed.

Lemma init_cache `{Disk} s pr p :
  running s pr p -> disk_idle (vdisk s) -> length (bcache s) = 31%nat -> Forall blank (bcache s) ->
  disk_range (disk s) -> exists bs, binit s = Ok tt (set_bcache bs s) /\ cache (set_bcache bs s) pr p ∅ (disk s).
Proof.
  intros Hr Hi Hlen Hbl Hrg. destruct (binit_ok s Hlen Hbl) as (bs & l & Hb & Hbc).
  exists bs. split; [done|]. constructor; [by destruct Hr|done|by exists l|done].
Qed.

(** ** The cache implements its specification

    The specification has the blocks in use, the logical disk, the disk, and the
    buffers the running process holds, each with its block. *)

Inductive bop : Type :=
| OpRead (n : Z)                          (** [bread(ROOTDEV, n)] *)
| OpSet (i : nat) (f : list Z -> list Z)  (** assignments to [b->data] *)
| OpWrite (i : nat)
| OpRelse (i : nat)
| OpPin (i : nat)
| OpUnpin (i : nat).

Record abs_cache : Type := MkAbs {
  a_use : gmap Z (Z * bool);
  a_view : gmap Z (list Z);
  a_disk : gmap Z (list Z);
  a_held : gmap nat Z
}.

(** An operation is allowed: it does not have to wait, it is on a buffer the
    process holds, and the last reference to a block is given up, by [brelse], only
    when the disk has its contents. *)
Definition allowed (a : abs_cache) (op : bop) : Prop :=
  match op with
  | OpRead n => is_Some (a_view a !! n) /\ can_get (a_use a) n
  | OpSet i _ => is_Some (a_held a !! i)
  | OpWrite i => exists n, a_held a !! i = Some n /\ is_Some (a_disk a !! n)
  | OpRelse i => exists n, a_held a !! i = Some n /\
      (refs (a_use a) n = 1 -> a_view a !! n = a_disk a !! n)
  | OpPin i => exists n, a_held a !! i = Some n /\ refs (a_use a) n < 1000
  | OpUnpin i => exists n, a_held a !! i = Some n /\ 1 < refs (a_use a) n
  end.

(** What an allowed operation does; [r] is the buffer [bread] returns. *)
Definition abs_step (a : abs_cache) (op : bop) (r : nat) : abs_cache :=
  let 'MkAbs A V D H := a in
  match op with
  | OpRead n => MkAbs (<[n := (refs A n + 1, true)]> A) V D (<[r := n]> H)
  | OpSet i f =>
      let n := default 0 (H !! i) in
      MkAbs A (<[n := f (default [] (V !! n))]> V) D H
  | OpWrite i =>
      let n := default 0 (H !! i) in
      MkAbs A V (<[n := default [] (V !! n)]> D) H
  | OpRelse i => let n := default 0 (H !! i) in MkAbs (drop_ref A n (refs A n)) V D (delete i H)
  | OpPin i => let n := default 0 (H !! i) in MkAbs (<[n := (refs A n + 1, true)]> A) V D H
  | OpUnpin i => let n := default 0 (H !! i) in MkAbs (<[n := (refs A n - 1, true)]> A) V D H
  end.

Section Refinement.
Context `{Build} `{DiskOk}.

Definition run_op (op : bop) : K nat :=
  match op with
  | OpRead n => bread ROOTDEV n
  | OpSet i f => bupd i (fun b => set_b_data (f (b_data b)) b) ;; ret 0%nat
  | OpWrite i => bwrite i ;; ret 0%nat
  | OpRelse i => brelse i ;; ret 0%nat
  | OpPin i => bpin i ;; ret 0%nat
  | OpUnpin i => bunpin i ;; ret 0%nat
  end.

(** State [s] implements [a]. *)
Record implements_cache (s : kstate) (pr : nat) (p : proc) (a : abs_cache) : Prop := MkImpl {
  im_cache : cache s pr p (a_use a) (a_view a);
  im_disk : disk s = a_disk a;
  im_held : forall i n, a_held a !! i = Some n -> holds s p i n
}.

Lemma holds_refs s pr p A V i n :
  cache s pr p A V -> holds s p i n ->
  A !! n = Some (refs A n, true) /\ exists d, V !! n = Some d.
Proof.
  intros [_ _ [l Hbc]] Hh.
  destruct (holds_lock s p i n l A V Hbc Hh) as (b & _ & _ & _ & _ & _ & _ & HA & HV).
  unfold refs. rewrite HA. eauto.
Qed.

(** C4: the buffer cache implements its specification: in a state that implements
    [a], every allowed operation returns, and leads to a state that implements
    the next abstract state.  So [bread] yields the logical contents of the block
    whether it is cached or not, assignments to a buffer change the logical
    contents of its block only, [bwrite] puts them on the disk, and [brelse],
    [bpin] and [bunpin] change neither.  Other processes' locks and data, the
    log and the inode table are left alone. *)
Theorem bcache_refines s pr p a op :
  implements_cache s pr p a -> allowed a op ->
  exists r s', run_op op s = Ok r s' /\ implements_cache s' pr p (abs_step a op r) /\ bio_frame s s' /\
    match op with OpRead n => a_held a !! r = None /\ holds s' p r n | _ => True end.
Proof.
  intros [Hca Hd Hh] Hok. destruct a as [A V D Hd']. cbn [a_use a_view a_disk a_held] in *.
  destruct op as [n|i f|i|i|i|i]; cbn [allowed run_op abs_step a_use a_view a_disk a_held] in *.
  - destruct Hok as [[d Hv] Hget].
    destruct (bread_ok s pr p A V n d Hca Hv Hget) as (i & s' & Hr & Hf & Hca' & Hd1 & _ & Hi & Hk).
    exists i, s'. split; [done|].
    assert (Hnew : Hd' !! i = None).
    { destruct (Hd' !! i) as [m|] eqn:E; [|done]. exfalso. specialize (Hh i m E).
      pose proof (Hk i m Hh) as (_ & b & Hb & _ & Em & _). destruct Hi as (_ & b' & Hb' & _ & En & _).
      assert (m = n) as -> by congruence. destruct (holds_refs s pr p A V i n Hca Hh) as [HA _].
      unfold can_get in Hget. rewrite HA in Hget. by destruct Hget. }
    split; [|done]. constructor; [done|by rewrite Hd1|]. cbn [a_held].
    intros j m [[<- <-]|[_ Hj]]%lookup_insert_Some; [done|]. apply Hk. by apply Hh.
  - destruct Hok as [n Hi]. rewrite Hi. change (default 0 (Some n)) with n. pose proof (Hh i n Hi) as Hhi.
    destruct (holds_refs s pr p A V i n Hca Hhi) as (_ & d & Hv).
    destruct (bset_ok s pr p A V i n f d Hca Hhi Hv) as (s' & Hr & Hf & Hca' & Hd1 & _ & Hk).
    mstep Hr. exists 0%nat, s'. split; [done|]. split; [|done]. rewrite Hv.
    constructor; [done|by rewrite Hd1|auto].
  - destruct Hok as (n & Hi & Hdn). rewrite Hi. change (default 0 (Some n)) with n. pose proof (Hh i n Hi) as Hhi.
    destruct (holds_refs s pr p A V i n Hca Hhi) as (_ & d & Hv).
    destruct (bwrite_ok s pr p A V i n d Hca Hhi Hv) as (s' & Hr & Hf & Hca' & Hd1 & _ & Hk);
      [by rewrite Hd|]. mstep Hr. exists 0%nat, s'. split; [done|]. split; [|done]. rewrite Hv.
    constructor; [done|by rewrite Hd1, Hd|auto].
  - destruct Hok as (n & Hi & Hcl). rewrite Hi. change (default 0 (Some n)) with n. pose proof (Hh i n Hi) as Hhi.
    destruct (holds_refs s pr p A V i n Hca Hhi) as (HA & _).
    destruct (brelse_ok s pr p A V i n (refs A n) Hca Hhi HA) as (s' & Hr & Hf & Hca' & Hd1 & _ & Hk);
      [by rewrite Hd|]. mstep Hr. exists 0%nat, s'. split; [done|]. split; [|done].
    constructor; [done|by rewrite Hd1, Hd|]. cbn [a_held].
    intros j m [Hji Hj]%lookup_delete_Some. apply Hk; auto.
  - destruct Hok as (n & Hi & Hlt). rewrite Hi. change (default 0 (Some n)) with n. pose proof (Hh i n Hi) as Hhi.
    destruct (holds_refs s pr p A V i n Hca Hhi) as (HA & _).
    destruct (bpin_ok s pr p A V i n (refs A n) Hca Hhi HA Hlt) as (s' & Hr & Hf & Hca' & Hd1 & _ & Hk).
    mstep Hr. exists 0%nat, s'. split; [done|]. split; [|done]. constructor; [done|by rewrite Hd1, Hd|auto].
  - destruct Hok as (n & Hi & Hlt). rewrite Hi. change (default 0 (Some n)) with n. pose proof (Hh i n Hi) as Hhi.
    destruct (holds_refs s pr p A V i n Hca Hhi) as (HA & _).
    destruct (bunpin_ok s pr p A V i n (refs A n) Hca Hhi HA Hlt) as (s' & Hr & Hf & Hca' & Hd1 & _ & Hk).
    mstep Hr. exists 0%nat, s'. split; [done|]. split; [|done]. constructor; [done|by rewrite Hd1, Hd|auto].
Qed.
End Refinement.

(** ** A disk for evaluating the definitions *)

(** A disk that answers at once. *)
Definition prompt_disk : Disk := {|
  virtio_disk_rw i write s :=
    match bcache s !! i with Some b => Ok tt (transfer i b write s) | None => UB "buf" end;
  disk_idle _ := True
|}.

Lemma prompt_disk_ok : @DiskOk prompt_disk.
Proof.
  constructor. intros s pr p i b write _ _ Hb _ _ _. exists (procs s), (vdisk s).
  split; [apply woken_refl|]. split; [done|]. cbn. rewrite Hb. f_equal.
Qed.

#[local] Existing Instance prompt_disk.
#[local] Existing Instance prompt_disk_ok.

(** Process 5 runs; the cache has been initialised; the disk has the blocks of
    [d]. *)
Definition demo_fs (d : gmap Z (list Z)) : kstate :=
  set_disk d (set_cur (Some 3%nat)
    (set_procs (<[3%nat := demo_proc 5 RUNNING 6 60 1]> (replicate 64 zero_proc)) boot_state)).

Lemma demo_blank d : length (bcache (demo_fs d)) = 31%nat /\ Forall blank (bcache (demo_fs d)).
Proof.
  split; [reflexivity|]. change (bcache (demo_fs d)) with (replicate 31 zero_buf). apply Forall_replicate.
  split_and!; [reflexivity|discriminate|reflexivity|reflexivity].
Qed.

Lemma demo_running_fs d : running (demo_fs d) 3 (demo_proc 5 RUNNING 6 60 1).
Proof. constructor; try reflexivity. eexists. split; reflexivity. Qed.

Lemma demo_fs_disk d : disk (demo_fs d) = d.
Proof. reflexivity. Qed.

Lemma demo_cache d : disk_range d -> exists s, cache s 3 (demo_proc 5 RUNNING 6 60 1) ∅ d /\ disk s = d.
Proof.
  intros Hrg. destruct (demo_blank d) as [H1 H2]. pose proof (demo_running_fs d) as Hr.
  pose proof (demo_fs_disk d) as Hd. revert H1 H2 Hr Hd. generalize (demo_fs d). intros s0 H1 H2 Hr Hd.
  destruct (@init_cache prompt_disk s0 3 _ Hr I H1 H2 ltac:(by rewrite Hd)) as (bs & _ & Hca). rewrite Hd in Hca.
  eexists. split; [exact Hca|exact Hd].
Qed.

Lemma bcache_refines_witness :
  exists s r s', implements_cache s' 3 (demo_proc 5 RUNNING 6 60 1)
    (abs_step (MkAbs ∅ {[ 7 := [1; 2; 3] ]} {[ 7 := [1; 2; 3] ]} ∅) (OpRead 7) r) /\
    @run_op (demo_build DEFAULT) prompt_disk (OpRead 7) s = Ok r s'.
Proof.
  destruct (demo_cache {[ 7 := [1; 2; 3] ]}) as (s & Hca & Hd).
  { intros n [x [<- _]%lookup_singleton_Some]. lia. }
  destruct (@bcache_refines (demo_build DEFAULT) prompt_disk prompt_disk_ok s 3 (demo_proc 5 RUNNING 6 60 1)
    (MkAbs ∅ {[ 7 := [1; 2; 3] ]} {[ 7 := [1; 2; 3] ]} ∅) (OpRead 7)) as (r & s' & Hr & Hi & _).
  - constructor; [exact Hca|exact Hd|]. intros i n Hi. discriminate Hi.
  - split; [eexists; reflexivity|apply can_get_empty].
  - exists s, r, s'. split; [exact Hi|exact Hr].
Defined.
