(* ===== verification/LogCommit.v ===== *)
(** * Commit and recovery

    What [commit] and [recover_from_log] of [Log.v] do to the disk, write by
    write, and the atomicity of transactions under crashes. *)

From stdpp Require Import gmap strings list fin_maps.
From S2P Require Import Prelude Layout State Sched Block Bio Log.

(** Blocks are [BSIZE] bytes. *)
Definition sized_blocks (V : gmap Z (list Z)) : Prop :=
  forall n d, V !! n = Some d -> length d = 1024%nat.

(** Block [n] belongs to the log at [ls] of [sz] blocks. *)
Definition in_log (ls sz n : Z) : Prop := ls <= n < ls + sz.

(** The blocks in the log are pinned: one reference each, none locked. *)
Definition pins (B : list Z) : gmap Z (Z * bool) := gset_to_gmap (1, false) (list_to_set B).

Lemma lookup_pins B n : pins B !! n = if decide (n ∈ B) then Some (1, false) else None.
Proof.
  unfold pins. case_decide as Hn.
  - apply lookup_gset_to_gmap_Some. set_solver.
  - apply lookup_gset_to_gmap_None. set_solver.
Qed.

Lemma pins_in B n : n ∈ B -> pins B !! n = Some (1, false).
Proof. intros. rewrite lookup_pins. by rewrite decide_True. Qed.
Lemma pins_out B n : n ∉ B -> pins B !! n = None.
Proof. intros. rewrite lookup_pins. by rewrite decide_False. Qed.

Lemma size_pins B : (size (pins B) <= length B)%nat.
Proof.
  unfold pins. rewrite <- size_dom, dom_gset_to_gmap.
  induction B as [|b B IH]; cbn [list_to_set length]; [by rewrite size_empty|].
  pose proof (size_union_alt {[b]} (list_to_set B : gset Z)) as Hs. rewrite Hs, size_singleton.
  pose proof (subseteq_size (list_to_set B ∖ {[b]}) (list_to_set B : gset Z) ltac:(set_solver)). lia.
Qed.

Lemma pins_delete b B : b ∉ B -> delete b (pins (b :: B)) = pins B.
Proof.
  intros Hb. apply map_eq. intros n. rewrite lookup_delete, !lookup_pins.
  repeat case_decide; set_solver.
Qed.

(** The in-memory log holds the blocks [B]. *)
Record logged (lg : klog) (ls sz : Z) (B : list Z) : Prop := MkLogged {
  lo_dev : log_dev lg = ROOTDEV;
  lo_start : log_start lg = ls;
  lo_size : log_size lg = sz;
  lo_range : 0 < ls /\ 1 < sz /\ ls + sz <= 2 ^ 31;
  lo_len : length (lh_block lg) = 30%nat;
  lo_n : lh_n lg = Z.of_nat (length B);
  lo_blocks : take (length B) (lh_block lg) = B;
  lo_fit : (length B <= 29)%nat /\ Z.of_nat (length B) < sz;
  lo_nodup : NoDup B;
  lo_home : Forall (fun b => 0 <= b < 2 ^ 31 /\ ~ in_log ls sz b) B
}.

Lemma logged_at lg ls sz B k b : logged lg ls sz B -> B !! k = Some b -> lh_block lg !! k = Some b.
Proof.
  intros Hl Hk. rewrite <- (lo_blocks _ _ _ _ Hl) in Hk. by apply lookup_take_Some in Hk as [? _].
Qed.

Lemma logged_block lg ls sz B b :
  logged lg ls sz B -> b ∈ B -> 0 <= b < 2 ^ 31 /\ ~ in_log ls sz b.
Proof. intros Hl Hb. pose proof (lo_home _ _ _ _ Hl) as Hf. rewrite Forall_forall in Hf. auto. Qed.

Section Commit.
Context `{Build} `{DiskOk}.

Lemma lh_at_ok i b s : lh_block (klogst s) !! i = Some b -> lh_at i s = Ok b s.
Proof. unfold lh_at. by intros ->. Qed.

Lemma holds_ne s p i n j m : holds s p i n -> holds s p j m -> n <> m -> i <> j.
Proof.
  intros (_ & b & Hb & _ & En & _) (_ & c & Hc & _ & Em & _) Hne ->. congruence.
Qed.

Lemma buf_at_held s pr p A V i n d :
  cache s pr p A V -> holds s p i n -> V !! n = Some d ->
  exists b, buf_at i s = Ok b s /\ b_data b = d /\ b_blockno b = n.
Proof.
  intros [_ _ [l Hbc]] Hh Hd. destruct (holds_lock s p i n l A V Hbc Hh) as (b & _ & Hb & _ & Hn & _ & _ & _ & HV).
  exists b. split; [by apply buf_at_ok|]. split; [congruence|done].
Qed.

(** ** Copying a block to the log *)

Definition log_step (lg : klog) (tail : nat) : K unit :=
  let! to := bread (u32 (log_dev lg)) (u32 (log_start lg + Z.of_nat tail + 1)) in
  let! home := lh_at tail in
  let! from := bread (u32 (log_dev lg)) (u32 home) in
  let! fb := buf_at from in
  bupd to (fun b => set_b_data (b_data fb) b) ;;
  bwrite to ;;
  brelse from ;;
  brelse to.

Lemma log_step_ok s pr p B V ls sz k b d :
  cache s pr p (pins B) V -> logged (klogst s) ls sz B -> B !! k = Some b -> V !! b = Some d ->
  let m := ls + 1 + Z.of_nat k in
  is_Some (V !! m) ->
  exists s', log_step (klogst s) k s = Ok tt s' /\ bio_frame s s' /\ cache s' pr p (pins B) (<[m := d]> V) /\
    disk s' = <[m := d]> (disk s) /\ disk_writes s' = (m, d) :: disk_writes s.
Proof.
  intros Hca Hlg Hk Hb m [dm Hm]. pose proof Hlg as [L1 L2 L3 L4 L5 L6 L7 L8 L9 L10].
  assert (HbB : b ∈ B) by (by eapply list_elem_of_lookup_2).
  destruct (logged_block _ _ _ _ b Hlg HbB) as [Hbr Hbl].
  pose proof (lookup_lt_Some _ _ _ Hk) as Hkl.
  assert (Hml : in_log ls sz m) by (unfold in_log, m; lia).
  assert (Hmb : m <> b) by (intros ->; done).
  assert (HmB : m ∉ B) by (intros Hin; by destruct (logged_block _ _ _ _ m Hlg Hin)).
  assert (Hmd : V !! m = disk s !! m).
  { destruct Hca as [_ _ [l Hbc]]. apply (bc_idle_block _ _ _ _ _ m Hbc). by apply pins_out. }
  unfold log_step. rewrite L1, L2. replace (u32 ROOTDEV) with ROOTDEV by done.
  replace (u32 (ls + Z.of_nat k + 1)) with m by (unfold m; rewrite u32_small; lia).
  destruct (bread_ok s pr p (pins B) V m dm Hca Hm) as (to & s1 & R1 & F1 & C1 & D1 & W1 & H1t & _).
  { unfold can_get. rewrite pins_out by done. pose proof (size_pins B). lia. }
  rewrite (refs_absent (pins B) m) in C1 by (by apply pins_out). simpl in C1.
  mstep R1. mstep (lh_at_ok k b s1 ltac:(rewrite (bf_log _ _ F1); by eapply logged_at)).
  replace (u32 b) with b by (rewrite u32_small; lia).
  destruct (bread_ok s1 pr p _ V b d C1 Hb) as (from & s2 & R2 & F2 & C2 & D2 & W2 & H2f & K2).
  { unfold can_get. rewrite lookup_insert_ne, pins_in by done. split; [done|lia]. }
  unfold refs in C2. rewrite lookup_insert_ne, pins_in in C2 by done. simpl in C2.
  mstep R2. pose proof (K2 _ _ H1t) as H2t.
  destruct (buf_at_held s2 pr p _ V from b d C2 H2f Hb) as (fb & Rb & Efb & _). mstep Rb. rewrite Efb.
  destruct (bset_ok s2 pr p _ V to m (fun _ => d) dm C2 H2t Hm) as (s3 & R3 & F3 & C3 & D3 & W3 & K3).
  mstep R3. cbv beta in C3.
  assert (HV3 : <[m := d]> V !! m = Some d) by apply lookup_insert_eq.
  destruct (bwrite_ok s3 pr p _ _ to m d C3 (K3 _ _ H2t) HV3) as (s4 & R4 & F4 & C4 & D4 & W4 & K4).
  { rewrite D3, D2, D1, <- Hmd. eauto. }
  mstep R4. pose proof (K4 _ _ (K3 _ _ H2t)) as H4t. pose proof (K4 _ _ (K3 _ _ H2f)) as H4f.
  destruct (brelse_ok s4 pr p _ _ from b 2 C4 H4f) as (s5 & R5 & F5 & C5 & D5 & W5 & K5);
    [by rewrite lookup_insert_eq|lia|].
  unfold drop_ref in C5. simpl in C5. mstep R5.
  pose proof (K5 to m (holds_ne _ _ _ _ _ _ H4t H4f Hmb) H4t) as H5t.
  destruct (brelse_ok s5 pr p _ _ to m 1 C5 H5t) as (s6 & R6 & F6 & C6 & D6 & W6 & _).
  { by rewrite !lookup_insert_ne, lookup_insert_eq by done. }
  { intros _. rewrite D5, D4. by rewrite !lookup_insert_eq. }
  rewrite R6. unfold drop_ref in C6. simpl in C6. exists s6. split; [done|]. split_and!.
  - eauto 10 using bio_frame_trans.
  - assert (E : delete m (<[b := (1, false)]> (<[b := (2, true)]> (<[m := (1, true)]> (pins B)))) = pins B).
    { rewrite insert_insert_eq. rewrite delete_insert_ne by done. rewrite delete_insert_id by (by apply pins_out).
      apply insert_id. by apply pins_in. }
    rewrite <- E. exact C6.
  - rewrite D6, D5, D4, D3, D2, D1. done.
  - rewrite W6, W5, W4, W3, W2, W1. done.
Qed.

(** ** Sequences of writes *)

Definition blk (V : gmap Z (list Z)) (n : Z) : list Z := default [] (V !! n).

(** The disk after the writes [W], first to last. *)
Definition apply_writes (W : list (Z * list Z)) (D : gmap Z (list Z)) : gmap Z (list Z) :=
  foldl (fun D w => <[w.1 := w.2]> D) D W.

(** The blocks [B], with their contents in [V], written from block [m] on. *)
Fixpoint log_entries (m : Z) (V : gmap Z (list Z)) (B : list Z) : list (Z * list Z) :=
  match B with
  | [] => []
  | b :: B => (m, blk V b) :: log_entries (m + 1) V B
  end.

(** The blocks [B] written to their homes. *)
Definition home_entries (V : gmap Z (list Z)) (B : list Z) : list (Z * list Z) :=
  (fun b => (b, blk V b)) <$> B.

Lemma apply_writes_app W1 W2 D : apply_writes (W1 ++ W2) D = apply_writes W2 (apply_writes W1 D).
Proof. apply foldl_app. Qed.

Lemma apply_writes_cons m d W D : apply_writes ((m, d) :: W) D = apply_writes W (<[m := d]> D).
Proof. done. Qed.

Lemma lookup_apply_writes_out W D n : n ∉ W.*1 -> apply_writes W D !! n = D !! n.
Proof.
  revert D. induction W as [|[m d] W IH]; intros D Hn; [done|]. rewrite fmap_cons in Hn.
  cbn [fst] in Hn. rewrite apply_writes_cons, IH by set_solver. apply lookup_insert_ne. set_solver.
Qed.

Lemma apply_writes_some W D n : is_Some (D !! n) -> is_Some (apply_writes W D !! n).
Proof.
  revert D. induction W as [|[m d] W IH]; intros D Hn; [done|]. rewrite apply_writes_cons. apply IH.
  rewrite lookup_insert_is_Some. destruct (decide (m = n)); auto.
Qed.

Lemma log_entries_fst m V B n : n ∈ (log_entries m V B).*1 <-> m <= n < m + Z.of_nat (length B).
Proof.
  revert m. induction B as [|b B IH]; intros m; cbn.
  - rewrite elem_of_nil. lia.
  - rewrite elem_of_cons, IH. lia.
Qed.

Lemma log_entries_ext m V V' B :
  (forall b, b ∈ B -> V' !! b = V !! b) -> log_entries m V' B = log_entries m V B.
Proof.
  revert m. induction B as [|b B IH]; intros m Hext; cbn; [done|]. unfold blk. rewrite Hext by set_solver.
  f_equal. apply IH. set_solver.
Qed.

Lemma home_entries_fst V B : (home_entries V B).*1 = B.
Proof.
  unfold home_entries. rewrite <- list_fmap_compose. induction B; simpl; [done|]. by f_equal.
Qed.

Lemma lookup_log_entries m V D B k b :
  B !! k = Some b -> apply_writes (log_entries m V B) D !! (m + Z.of_nat k) = Some (blk V b).
Proof.
  revert m D k. induction B as [|c B IH]; intros m D k Hk; [done|]. cbn [log_entries].
  rewrite apply_writes_cons.
  destruct k as [|k]; simpl in Hk.
  - injection Hk as ->. rewrite lookup_apply_writes_out; rewrite ?log_entries_fst, ?Z.add_0_r; [|lia].
    apply lookup_insert_eq.
  - rewrite <- (IH (m + 1) (<[m := blk V c]> D) k Hk). f_equal. lia.
Qed.

Lemma lookup_home_entries V D B b :
  b ∈ B -> apply_writes (home_entries V B) D !! b = Some (blk V b).
Proof.
  revert D. induction B as [|c B IH]; intros D Hb; [set_solver|].
  change (home_entries V (c :: B)) with ((c, blk V c) :: home_entries V B). rewrite apply_writes_cons.
  destruct (decide (b ∈ B)) as [Hin|Hnin]; [by apply IH|].
  assert (b = c) as -> by set_solver.
  rewrite lookup_apply_writes_out by (by rewrite home_entries_fst). apply lookup_insert_eq.
Qed.

Lemma bio_frame_klog s s' : bio_frame s s' -> klogst s' = klogst s.
Proof. by intros []. Qed.

(** All of [B2] copied to the log. *)
Lemma write_log_loop pr p ls sz B lg : forall B2 B1 s V,
  B = B1 ++ B2 -> klogst s = lg -> logged lg ls sz B -> cache s pr p (pins B) V ->
  (forall n, in_log ls sz n -> is_Some (V !! n)) -> (forall b, b ∈ B -> is_Some (V !! b)) ->
  let W := log_entries (ls + 1 + Z.of_nat (length B1)) V B2 in
  exists s', for_each (seq (length B1) (length B2)) (log_step lg) s = Ok tt s' /\ bio_frame s s' /\
    cache s' pr p (pins B) (apply_writes W V) /\ disk s' = apply_writes W (disk s) /\
    disk_writes s' = reverse W ++ disk_writes s.
Proof.
  induction B2 as [|b B2 IH]; intros B1 s V EB Elg Hlg Hca Hlog Hhome W.
  { exists s. split; [done|]. split; [apply bio_frame_refl|]. done. }
  assert (Hk : B !! length B1 = Some b) by (by rewrite EB, list_lookup_middle).
  assert (HbB : b ∈ B) by (by eapply list_elem_of_lookup_2).
  destruct (Hhome b HbB) as [d Hd]. pose proof (lookup_lt_Some _ _ _ Hk).
  pose proof (lo_fit _ _ _ _ Hlg) as [_ Hfit]. set (m := ls + 1 + Z.of_nat (length B1)) in *.
  assert (Hml : in_log ls sz m) by (unfold in_log, m; lia).
  destruct (log_step_ok s pr p B V ls sz (length B1) b d Hca ltac:(by rewrite Elg) Hk Hd (Hlog m Hml))
    as (s1 & R1 & F1 & C1 & D1 & W1).
  rewrite Elg in R1. cbn [length seq for_each]. mstep R1. fold m in C1, D1, W1.
  assert (Hsame : forall c, c ∈ B -> <[m := d]> V !! c = V !! c).
  { intros c Hc. apply lookup_insert_ne. intros <-. by destruct (logged_block _ _ _ _ m Hlg Hc). }
  destruct (IH (B1 ++ [b]) s1 (<[m := d]> V)) as (s2 & R2 & F2 & C2 & D2 & W2).
  - by rewrite <- app_assoc.
  - by rewrite (bio_frame_klog _ _ F1).
  - done.
  - done.
  - intros n Hn. rewrite lookup_insert_is_Some. destruct (decide (m = n)); auto.
  - intros c Hc. rewrite Hsame by done. auto.
  - rewrite length_app in *. cbn [length] in *. rewrite Nat.add_1_r in *.
    assert (EW : log_entries (ls + 1 + Z.of_nat (S (length B1))) (<[m := d]> V) B2 = log_entries (m + 1) V B2).
    { rewrite (log_entries_ext _ V) by (intros c Hc; apply Hsame; rewrite EB; set_solver). f_equal. unfold m. lia. }
    rewrite EW in C2, D2, W2. exists s2.
    assert (EW0 : W = (m, d) :: log_entries (m + 1) V B2) by (unfold W; cbn [log_entries]; unfold blk at 1; by rewrite Hd).
    rewrite EW0. split_and!; [done|by eapply bio_frame_trans|done| |].
    + rewrite D2, D1. done.
    + rewrite W2, W1, reverse_cons, <- app_assoc. done.
Qed.

(** ** The header *)

Lemma write_head_ok s pr p ls sz B A V h :
  logged (klogst s) ls sz B -> cache s pr p A V -> A !! ls = None -> (size A < 30)%nat ->
  V !! ls = Some h ->
  let h' := encode_head B h in
  exists s', write_head s = Ok tt s' /\ bio_frame s s' /\ cache s' pr p A (<[ls := h']> V) /\
    disk s' = <[ls := h']> (disk s) /\ disk_writes s' = (ls, h') :: disk_writes s.
Proof.
  intros Hlg Hca HA Hsz Hh h'. pose proof Hlg as [L1 L2 L3 L4 L5 L6 L7 L8 L9 L10].
  assert (Hmd : V !! ls = disk s !! ls).
  { destruct Hca as [_ _ [l Hbc]]. by apply (bc_idle_block _ _ _ _ _ ls Hbc). }
  unfold write_head. unfold bind at 1. cbn [gets obind]. rewrite L1, L2.
  replace (u32 ROOTDEV) with ROOTDEV by done. replace (u32 ls) with ls by (rewrite u32_small; lia).
  destruct (bread_ok s pr p A V ls h Hca Hh) as (i & s1 & R1 & F1 & C1 & D1 & W1 & Hi & _).
  { unfold can_get. by rewrite HA. }
  rewrite (refs_absent A ls HA) in C1. mstep R1. rewrite L5, L6.
  destruct (Z.ltb_spec (Z.of_nat 30) (Z.of_nat (length B))) as [?|_]; [lia|].
  rewrite Nat2Z.id, L7. change (put_blocks 0 B (put32 0 (Z.of_nat (length B)) ?x)) with (encode_head B x).
  destruct (bset_ok s1 pr p _ V i ls (encode_head B) h C1 Hi Hh) as (s2 & R2 & F2 & C2 & D2 & W2 & K2).
  mstep R2. fold h' in C2.
  assert (HV2 : <[ls := h']> V !! ls = Some h') by apply lookup_insert_eq.
  destruct (bwrite_ok s2 pr p _ _ i ls h' C2 (K2 _ _ Hi) HV2) as (s3 & R3 & F3 & C3 & D3 & W3 & K3).
  { rewrite D2, D1, <- Hmd. eauto. }
  mstep R3.
  destruct (brelse_ok s3 pr p _ _ i ls 1 C3 (K3 _ _ (K2 _ _ Hi))) as (s4 & R4 & F4 & C4 & D4 & W4 & _).
  { by rewrite lookup_insert_eq. }
  { intros _. rewrite D3. by rewrite !lookup_insert_eq. }
  rewrite R4. exists s4. split; [done|]. split_and!.
  - eauto 10 using bio_frame_trans.
  - assert (E : delete ls (<[ls := (0 + 1, true)]> A) = A) by (by apply delete_insert_id).
    rewrite <- E. exact C4.
  - rewrite D4, D3, D2, D1. done.
  - rewrite W4, W3, W2, W1. done.
Qed.

(** ** Copying a block to its home *)

Definition install_step (lg : klog) (recovering : bool) (tail : nat) : K unit :=
  let! lbuf := bread (u32 (log_dev lg)) (u32 (log_start lg + Z.of_nat tail + 1)) in
  let! home := lh_at tail in
  let! dbuf := bread (u32 (log_dev lg)) (u32 home) in
  let! lb := buf_at lbuf in
  bupd dbuf (fun b => set_b_data (b_data lb) b) ;;
  bwrite dbuf ;;
  when (negb recovering) (bunpin dbuf) ;;
  brelse lbuf ;;
  brelse dbuf.

(** While recovering nobody uses the block; in [commit] it is pinned, and is not
    afterwards. *)
Lemma install_step_ok s pr p A V ls k b m d (recovering : bool) :
  cache s pr p A V -> log_dev (klogst s) = ROOTDEV -> log_start (klogst s) = ls ->
  lh_block (klogst s) !! k = Some b -> m = ls + 1 + Z.of_nat k -> 0 <= m < 2 ^ 31 -> 0 <= b < 2 ^ 31 -> m <> b ->
  A !! m = None -> (size A < 29)%nat \/ recovering = false /\ (size A < 30)%nat ->
  A !! b = (if recovering then None else Some (1, false)) ->
  V !! m = Some d -> is_Some (V !! b) -> is_Some (disk s !! b) ->
  exists s', install_step (klogst s) recovering k s = Ok tt s' /\ bio_frame s s' /\
    cache s' pr p (delete b A) (<[b := d]> V) /\
    disk s' = <[b := d]> (disk s) /\ disk_writes s' = (b, d) :: disk_writes s.
Proof.
  intros Hca L1 L2 Hk Em Hmr Hbr Hmb HAm Hsz HAb Hm [db Hb] Hdb.
  assert (Hmd : V !! m = disk s !! m).
  { destruct Hca as [_ _ [l Hbc]]. by apply (bc_idle_block _ _ _ _ _ m Hbc). }
  unfold install_step. rewrite L1, L2. replace (u32 ROOTDEV) with ROOTDEV by done.
  replace (u32 (ls + Z.of_nat k + 1)) with m by (rewrite u32_small; lia).
  destruct (bread_ok s pr p A V m d Hca Hm) as (i & s1 & R1 & F1 & C1 & D1 & W1 & Hi & _).
  { unfold can_get. rewrite HAm. lia. }
  rewrite (refs_absent A m HAm) in C1.
  mstep R1. mstep (lh_at_ok k b s1 ltac:(by rewrite (bf_log _ _ F1))).
  replace (u32 b) with b by (rewrite u32_small; lia).
  set (r := if recovering then 1 else 2).
  assert (Hr : refs (<[m := (0 + 1, true)]> A) b + 1 = r).
  { unfold refs, r. rewrite lookup_insert_ne, HAb by done. by destruct recovering. }
  destruct (bread_ok s1 pr p _ V b db C1 Hb) as (j & s2 & R2 & F2 & C2 & D2 & W2 & Hj & K2).
  { unfold can_get. rewrite lookup_insert_ne, HAb by done. destruct recovering.
    - rewrite map_size_insert_None by done. lia.
    - split; [done|lia]. }
  rewrite Hr in C2. mstep R2. pose proof (K2 _ _ Hi) as Hi2.
  destruct (buf_at_held s2 pr p _ V i m d C2 Hi2 Hm) as (lb & Rb & Elb & _). mstep Rb. rewrite Elb.
  destruct (bset_ok s2 pr p _ V j b (fun _ => d) db C2 Hj Hb) as (s3 & R3 & F3 & C3 & D3 & W3 & K3).
  mstep R3. cbv beta in C3.
  assert (HV3 : <[b := d]> V !! b = Some d) by apply lookup_insert_eq.
  destruct (bwrite_ok s3 pr p _ _ j b d C3 (K3 _ _ Hj) HV3) as (s4 & R4 & F4 & C4 & D4 & W4 & K4).
  { by rewrite D3, D2, D1. }
  mstep R4. pose proof (K4 _ _ (K3 _ _ Hi2)) as Hi4. pose proof (K4 _ _ (K3 _ _ Hj)) as Hj4.
  assert (Hun : exists s5, when (negb recovering) (bunpin j) s4 = Ok tt s5 /\ bio_frame s4 s5 /\
    cache s5 pr p (<[b := (1, true)]> (<[m := (0 + 1, true)]> A)) (<[b := d]> V) /\
    disk s5 = disk s4 /\ disk_writes s5 = disk_writes s4 /\ (forall j m, holds s4 p j m -> holds s5 p j m)).
  { unfold r in C4. destruct recovering; cbn [negb when].
    - exists s4. split; [done|]. split_and!; auto using bio_frame_refl.
    - destruct (bunpin_ok s4 pr p _ _ j b 2 C4 Hj4) as (s5 & R5 & F5 & C5 & D5 & W5 & K5);
        [by rewrite lookup_insert_eq|lia|]. rewrite insert_insert_eq in C5. eauto 10. }
  destruct Hun as (s5 & R5 & F5 & C5 & D5 & W5 & K5). mstep R5.
  destruct (brelse_ok s5 pr p _ _ i m 1 C5 (K5 _ _ Hi4)) as (s6 & R6 & F6 & C6 & D6 & W6 & K6).
  { rewrite lookup_insert_ne by done. by rewrite lookup_insert_eq. }
  { intros _. rewrite D5, D4, D3, D2, D1, !lookup_insert_ne by done. done. }
  mstep R6. pose proof (K6 j b (not_eq_sym (holds_ne _ _ _ _ _ _ (K5 _ _ Hi4) (K5 _ _ Hj4) Hmb)) (K5 _ _ Hj4)) as Hj6.
  change (drop_ref ?x m 1) with (delete m x) in C6.
  destruct (brelse_ok s6 pr p _ _ j b 1 C6 Hj6) as (s7 & R7 & F7 & C7 & D7 & W7 & _).
  { rewrite lookup_delete_ne, lookup_insert_eq by done. done. }
  { intros _. rewrite D6, D5, D4. by rewrite !lookup_insert_eq. }
  rewrite R7. exists s7. split; [done|]. split_and!.
  - eauto 12 using bio_frame_trans.
  - assert (E : delete b (delete m (<[b := (1, true)]> (<[m := (0 + 1, true)]> A))) = delete b A).
    { rewrite delete_insert_ne by done. rewrite delete_insert_eq.
      rewrite (delete_insert_id A) by done. done. }
    rewrite <- E. exact C7.
  - rewrite D7, D6, D5, D4, D3, D2, D1. done.
  - rewrite W7, W6, W5, W4, W3, W2, W1. done.
Qed.

(** The blocks of the log from [m] on written to their homes [B]. *)
Fixpoint install_entries (m : Z) (V : gmap Z (list Z)) (B : list Z) : list (Z * list Z) :=
  match B with
  | [] => []
  | b :: B => (b, blk V m) :: install_entries (m + 1) V B
  end.

Lemma install_entries_fst m V B : (install_entries m V B).*1 = B.
Proof. revert m. induction B as [|b B IH]; intros m; cbn; [done|]. f_equal. apply IH. Qed.

Lemma install_entries_ext m V V' B :
  (forall n, m <= n < m + Z.of_nat (length B) -> V' !! n = V !! n) ->
  install_entries m V' B = install_entries m V B.
Proof.
  revert m. induction B as [|b B IH]; intros m Hext; cbn [install_entries]; [done|].
  cbn [length] in Hext. unfold blk. rewrite Hext by lia. f_equal. apply IH. intros. apply Hext. lia.
Qed.

Lemma lookup_install_entries m V D B k b :
  NoDup B -> B !! k = Some b ->
  apply_writes (install_entries m V B) D !! b = Some (blk V (m + Z.of_nat k)).
Proof.
  revert m D k. induction B as [|c B IH]; intros m D k Hnd Hk; [done|]. cbn [install_entries].
  rewrite apply_writes_cons. apply NoDup_cons in Hnd as [Hc Hnd]. destruct k as [|k]; simpl in Hk.
  - injection Hk as ->. rewrite lookup_apply_writes_out by (by rewrite install_entries_fst).
    rewrite Z.add_0_r. apply lookup_insert_eq.
  - rewrite (IH (m + 1) _ k Hnd Hk). do 2 f_equal. lia.
Qed.

Lemma install_loop pr p ls sz B lg (recovering : bool) : forall B2 B1 s V,
  B = B1 ++ B2 -> klogst s = lg -> logged lg ls sz B ->
  cache s pr p (if recovering then ∅ else pins B2) V ->
  (forall n, in_log ls sz n -> is_Some (V !! n)) ->
  (forall b, b ∈ B -> is_Some (V !! b) /\ is_Some (disk s !! b)) ->
  let W := install_entries (ls + 1 + Z.of_nat (length B1)) V B2 in
  exists s', for_each (seq (length B1) (length B2)) (install_step lg recovering) s = Ok tt s' /\
    bio_frame s s' /\ cache s' pr p ∅ (apply_writes W V) /\ disk s' = apply_writes W (disk s) /\
    disk_writes s' = reverse W ++ disk_writes s.
Proof.
  induction B2 as [|b B2 IH]; intros B1 s V EB Elg Hlg Hca Hlog Hhome W.
  { exists s. split; [done|]. split; [apply bio_frame_refl|]. by destruct recovering. }
  assert (Hk : B !! length B1 = Some b) by (by rewrite EB, list_lookup_middle).
  assert (HbB : b ∈ B) by (by eapply list_elem_of_lookup_2).
  pose proof (lookup_lt_Some _ _ _ Hk). pose proof (lo_fit _ _ _ _ Hlg) as [Hlen Hfit].
  pose proof (lo_range _ _ _ _ Hlg) as Hrange.
  pose proof (lo_nodup _ _ _ _ Hlg) as Hnd. rewrite EB in Hnd. apply NoDup_app in Hnd as (_ & _ & Hnd).
  apply NoDup_cons in Hnd as [HbB2 _]. set (m := ls + 1 + Z.of_nat (length B1)) in *.
  assert (Hml : in_log ls sz m) by (unfold in_log, m; lia).
  destruct (logged_block _ _ _ _ b Hlg HbB) as [Hbr Hbl].
  destruct (Hlog m Hml) as [d Hd]. destruct (Hhome b HbB) as [Hvb Hdb].
  assert (HmB : m ∉ B) by (intros Hin; by destruct (logged_block _ _ _ _ m Hlg Hin)).
  destruct (install_step_ok s pr p _ V ls (length B1) b m d recovering Hca) as (s1 & R1 & F1 & C1 & D1 & W1).
  { rewrite Elg. apply Hlg. }
  { rewrite Elg. apply Hlg. }
  { rewrite Elg. by eapply logged_at. }
  { done. }
  { unfold m. lia. }
  { done. }
  { by intros ->. }
  { destruct recovering; [apply lookup_empty|]. apply pins_out. rewrite EB in HmB. set_solver. }
  { rewrite EB, length_app in Hlen. cbn [length] in Hlen. pose proof (size_pins (b :: B2)) as Hp.
    cbn [length] in Hp. destruct recovering; [left; rewrite map_size_empty|right]; lia. }
  { destruct recovering; [apply lookup_empty|]. apply pins_in. set_solver. }
  { done. }
  { done. }
  { done. }
  rewrite Elg in R1. cbn [length seq for_each]. mstep R1.
  destruct (IH (B1 ++ [b]) s1 (<[b := d]> V)) as (s2 & R2 & F2 & C2 & D2 & W2).
  - by rewrite <- app_assoc.
  - by rewrite (bio_frame_klog _ _ F1).
  - done.
  - destruct recovering; [by rewrite delete_empty in C1|]. by rewrite pins_delete in C1.
  - intros n Hn. rewrite lookup_insert_is_Some. destruct (decide (b = n)); auto.
  - intros c Hc. rewrite D1, !lookup_insert_is_Some. destruct (Hhome c Hc). destruct (decide (b = c)); auto.
  - rewrite length_app in *. cbn [length] in *. rewrite Nat.add_1_r in *.
    assert (EW : install_entries (ls + 1 + Z.of_nat (S (length B1))) (<[b := d]> V) B2 = install_entries (m + 1) V B2).
    { replace (ls + 1 + Z.of_nat (S (length B1))) with (m + 1) by (unfold m; lia).
      apply install_entries_ext. intros n Hn. apply lookup_insert_ne. intros <-. apply Hbl.
      rewrite EB, length_app in Hfit. cbn [length] in Hfit. unfold in_log, m in *. lia. }
    rewrite EW in C2, D2, W2. exists s2.
    assert (EW0 : W = (b, d) :: install_entries (m + 1) V B2).
    { unfold W; cbn [install_entries]; unfold blk at 1; by rewrite Hd. }
    rewrite EW0. split_and!; [done|by eapply bio_frame_trans|done| |].
    + rewrite D2, D1. done.
    + rewrite W2, W1, reverse_cons, <- app_assoc. done.
Qed.

(** ** [commit] *)

(** The writes of a commit of the blocks [B], in order: their contents to the log,
    the header, their contents to their homes, the cleared header. *)
Definition commit_writes (ls : Z) (V : gmap Z (list Z)) (B : list Z) (h : list Z) : list (Z * list Z) :=
  log_entries (ls + 1) V B ++ [(ls, encode_head B h)] ++ home_entries V B ++
    [(ls, encode_head [] (encode_head B h))].

(** The logical disk outside of the log: what file system code sees. *)
Definition same_homes (ls sz : Z) (V V' : gmap Z (list Z)) : Prop :=
  forall n, ~ in_log ls sz n -> V' !! n = V !! n.

Lemma install_is_home ls V V' B :
  (forall k b, B !! k = Some b -> V' !! (ls + Z.of_nat k) = Some (blk V b)) ->
  install_entries ls V' B = home_entries V B.
Proof.
  revert ls. induction B as [|b B IH]; intros ls Hl; cbn; [done|]. f_equal.
  - pose proof (Hl 0%nat b eq_refl) as E. rewrite Z.add_0_r in E. unfold blk at 1. by rewrite E.
  - apply IH. intros k c Hk. rewrite <- (Hl (S k) c Hk). f_equal. lia.
Qed.

Lemma logged_none lg ls sz B : logged lg ls sz B -> logged (set_lh_n 0 lg) ls sz [].
Proof. intros [L1 L2 L3 L4 L5 L6 L7 L8 L9 L10]. constructor; simpl; try done; [lia|apply NoDup_nil_2]. Qed.

(** What the log leaves alone. *)
Record log_frame (s s' : kstate) : Prop := MkLogFrame {
  gf_core : core s' = core s;
  gf_itable : itable s' = itable s;
  gf_procs : woken (cur s) (procs s) (procs s');
  gf_idle : disk_idle (vdisk s) -> disk_idle (vdisk s')
}.

Lemma bio_log_frame s s' : bio_frame s s' -> log_frame s s'.
Proof. by intros [F1 F2 F3 F4 F5]. Qed.

Lemma log_frame_refl s : log_frame s s.
Proof. apply bio_log_frame, bio_frame_refl. Qed.

Lemma log_frame_trans s1 s2 s3 : log_frame s1 s2 -> log_frame s2 s3 -> log_frame s1 s3.
Proof.
  intros [C1 I1 P1 D1] [C2 I2 P2 D2]. constructor; try congruence; auto.
  rewrite (core_cur _ _ C1) in P2. eauto using woken_trans.
Qed.

(** Setting fields of the in-memory log. *)
Lemma lupd_frame f s : log_frame s (set_klogst (f (klogst s)) s).
Proof. constructor; try done. apply woken_refl. Qed.

Lemma cache_lupd s pr p A V lg : cache s pr p A V -> cache (set_klogst lg s) pr p A V.
Proof. intros [[R1 R2 R3 R4 R5 R6] Hi Hb Hrg]. by constructor. Qed.

Lemma cache_idle s pr p V : cache s pr p ∅ V -> V = disk s.
Proof.
  intros [_ _ [l Hbc]]. apply map_eq. intros n. by apply (bc_idle_block _ _ _ _ _ n Hbc).
Qed.

Lemma commit_ok s pr p ls sz B V h :
  logged (klogst s) ls sz B -> B <> [] -> cache s pr p (pins B) V -> V !! ls = Some h ->
  (forall n, in_log ls sz n -> is_Some (V !! n)) ->
  (forall b, b ∈ B -> is_Some (V !! b) /\ is_Some (disk s !! b)) ->
  let W := commit_writes ls V B h in
  exists s', commit s = Ok tt s' /\ log_frame s s' /\ klogst s' = set_lh_n 0 (klogst s) /\
    cache s' pr p ∅ (disk s') /\ disk s' = apply_writes W (disk s) /\
    disk_writes s' = reverse W ++ disk_writes s.
Proof.
  intros Hlg HB Hca Hh Hlog Hhome W. pose proof Hlg as [L1 L2 L3 L4 L5 L6 L7 L8 L9 L10].
  unfold commit. unfold bind at 1. cbn [gets obind].
  assert (0 < length B)%nat by (destruct B; simpl; [done|lia]).
  destruct (Z.ltb_spec 0 (lh_n (klogst s))) as [_|?]; [|lia]. cbn [when].
  destruct (write_log_loop pr p ls sz B (klogst s) B [] s V eq_refl eq_refl Hlg Hca Hlog)
    as (s1 & R1 & F1 & C1 & D1 & W1); [intros b Hb; by apply Hhome|].
  cbn [length] in R1, C1, D1, W1. change (Z.of_nat 0) with 0 in C1, D1, W1. rewrite Z.add_0_r in C1, D1, W1.
  set (We := log_entries (ls + 1) V B) in *. set (V1 := apply_writes We V) in *.
  assert (Rw : write_log s = Ok tt s1).
  { unfold write_log. unfold bind at 1. cbn [gets obind]. rewrite L6, Nat2Z.id. exact R1. }
  mstep Rw. pose proof (bio_frame_klog _ _ F1) as K1.
  assert (Hls : in_log ls sz ls) by (unfold in_log; lia).
  assert (HlsB : ls ∉ B) by (intros Hin; by destruct (logged_block _ _ _ _ ls Hlg Hin)).
  assert (Hh1 : V1 !! ls = Some h).
  { unfold V1. rewrite lookup_apply_writes_out; [done|]. unfold We. rewrite log_entries_fst. lia. }
  destruct (write_head_ok s1 pr p ls sz B (pins B) V1 h) as (s2 & R2 & F2 & C2 & D2 & W2); try done.
  { by rewrite K1. }
  { by apply pins_out. }
  { pose proof (size_pins B). lia. }
  mstep R2. pose proof (bio_frame_klog _ _ F2) as K2. set (V2 := <[ls := encode_head B h]> V1) in *.
  assert (Hlog2 : forall n, in_log ls sz n -> is_Some (V2 !! n)).
  { intros n Hn. unfold V2. rewrite lookup_insert_is_Some. destruct (decide (ls = n)); [auto|].
    right. split; [done|]. apply apply_writes_some. auto. }
  assert (Hv2 : forall b, b ∈ B -> V2 !! b = V !! b).
  { intros b Hb. unfold V2. rewrite lookup_insert_ne by (by intros ->). unfold V1.
    apply lookup_apply_writes_out. unfold We. rewrite log_entries_fst.
    destruct (logged_block _ _ _ _ b Hlg Hb) as [_ Hnl]. unfold in_log in Hnl. lia. }
  destruct (install_loop pr p ls sz B (klogst s) false B [] s2 V2 eq_refl) as (s3 & R3 & F3 & C3 & D3 & W3);
    [by rewrite K2, K1|done|done|done| |].
  { intros b Hb. rewrite Hv2 by done. destruct (Hhome b Hb) as [? Hdb]. split; [done|]. rewrite D2, D1.
    rewrite lookup_insert_is_Some. destruct (decide (ls = b)); [auto|]. right. split; [done|].
    by apply apply_writes_some. }
  cbn [length] in R3, C3, D3, W3. change (Z.of_nat 0) with 0 in C3, D3, W3. rewrite Z.add_0_r in C3, D3, W3.
  assert (Hins : install_entries (ls + 1) V2 B = home_entries V B).
  { apply install_is_home. intros k b Hk. unfold V2. rewrite lookup_insert_ne by lia. unfold V1, We.
    by apply lookup_log_entries. }
  rewrite Hins in C3, D3, W3.
  assert (Ri : install_trans false s2 = Ok tt s3).
  { unfold install_trans. unfold bind at 1. cbn [gets obind]. rewrite K2, K1, L6, Nat2Z.id. exact R3. }
  mstep Ri. pose proof (bio_frame_klog _ _ F3) as K3.
  unfold bind at 1. unfold lupd at 1. cbn [modify obind]. rewrite K3, K2, K1.
  set (s4 := set_klogst _ s3). set (V3 := apply_writes (home_entries V B) V2) in *.
  assert (Hh3 : V3 !! ls = Some (encode_head B h)).
  { unfold V3. rewrite lookup_apply_writes_out by (by rewrite home_entries_fst). apply lookup_insert_eq. }
  destruct (write_head_ok s4 pr p ls sz [] ∅ V3 (encode_head B h)) as (s5 & R5 & F5 & C5 & D5 & W5).
  { by eapply logged_none. }
  { by apply cache_lupd. }
  { apply lookup_empty. }
  { rewrite map_size_empty. lia. }
  { done. }
  rewrite R5. exists s5. split; [done|]. split_and!.
  - apply (log_frame_trans _ s3); [apply bio_log_frame; eauto using bio_frame_trans|].
    apply (log_frame_trans _ s4); [|by apply bio_log_frame, F5]. apply (lupd_frame (fun _ => set_lh_n 0 (klogst s))).
  - by rewrite (bio_frame_klog _ _ F5).
  - pose proof (cache_idle _ _ _ _ C5) as E. rewrite <- E. exact C5.
  - rewrite D5. simpl. rewrite D3, D2, D1. unfold W, commit_writes. fold We.
    rewrite !apply_writes_app. done.
  - rewrite W5. simpl. rewrite W3, W2, W1. unfold W, commit_writes. fold We.
    rewrite !reverse_app, !reverse_cons, !reverse_nil. cbn [app]. by rewrite <- !app_assoc.
Qed.

(** ** Recovery *)

(** The log on the disk [D] is well formed and its header lists [B]. *)
Record good_log (ls sz : Z) (D : gmap Z (list Z)) (B : list Z) : Prop := MkGoodLog {
  gl_range : 0 < ls /\ 1 < sz /\ ls + sz <= 2 ^ 31;
  gl_head : exists h, D !! ls = Some h /\ length h = 1024%nat /\ 0 <= hdr_n h /\ decode_head h = B;
  gl_blocks : forall n, in_log ls sz n -> is_Some (D !! n);
  gl_homes : forall b, b ∈ B -> is_Some (D !! b);
  gl_fit : (length B <= 29)%nat /\ Z.of_nat (length B) < sz;
  gl_nodup : NoDup B;
  gl_home : Forall (fun b => 0 <= b < 2 ^ 31 /\ ~ in_log ls sz b) B
}.

(** The writes of a recovery. *)
Definition recovery_writes (ls : Z) (D : gmap Z (list Z)) : list (Z * list Z) :=
  install_entries (ls + 1) D (decode_head (blk D ls)) ++ [(ls, encode_head [] (blk D ls))].

Lemma lh_set_loop data : forall j k s,
  (k + j <= length (lh_block (klogst s)))%nat ->
  exists L, for_each (seq k j) (fun i => lh_set i (hdr_block i data)) s =
      Ok tt (set_klogst (set_lh_block L (klogst s)) s) /\
    length L = length (lh_block (klogst s)) /\
    forall i, L !! i = if decide (k <= i < k + j)%nat then Some (hdr_block i data) else lh_block (klogst s) !! i.
Proof.
  induction j as [|j IH]; intros k s Hlen; cbn [seq for_each].
  { exists (lh_block (klogst s)). split; [by destruct s as [? ? ? ? ? ? ? ? ? ? ? ? ? ? ? ? []]|].
    split; [done|]. intros i. by rewrite decide_False by lia. }
  assert (Hset : lh_set k (hdr_block k data) s =
    Ok tt (set_klogst (set_lh_block (<[k := hdr_block k data]> (lh_block (klogst s))) (klogst s)) s)).
  { unfold lh_set. destruct (lookup_lt_is_Some_2 (lh_block (klogst s)) k) as [x ->]; [lia|]. done. }
  mstep Hset. set (s1 := set_klogst _ s).
  destruct (IH (S k) s1) as (L & R & Hl & HL); [simpl; rewrite length_insert; lia|].
  exists L. split; [rewrite R; by destruct s as [? ? ? ? ? ? ? ? ? ? ? ? ? ? ? ? []]|].
  simpl in Hl, HL. rewrite length_insert in Hl. split; [done|]. intros i. rewrite HL.
  destruct (decide (i = k)) as [->|Hne].
  - rewrite decide_False by lia. rewrite decide_True by lia. apply list_lookup_insert_eq. lia.
  - rewrite list_lookup_insert_ne by done. repeat case_decide; try lia; done.
Qed.

Lemma length_decode h : 0 <= hdr_n h -> hdr_n h = Z.of_nat (length (decode_head h)).
Proof. intros. unfold decode_head. rewrite length_fmap, length_seq. lia. Qed.

Lemma read_head_ok s pr p ls sz D B :
  log_dev (klogst s) = ROOTDEV -> log_start (klogst s) = ls -> log_size (klogst s) = sz ->
  length (lh_block (klogst s)) = 30%nat ->
  cache s pr p ∅ D -> good_log ls sz D B ->
  exists s', read_head s = Ok tt s' /\ log_frame s s' /\ cache s' pr p ∅ D /\ logged (klogst s') ls sz B /\
    disk s' = disk s /\ disk_writes s' = disk_writes s.
Proof.
  intros L1 L2 L3 L5 Hca [G1 (h & Hh & Hlh & Hn0 & Hdec) G3 G4 G5 G6 G7].
  pose proof (length_decode h Hn0) as Hn. rewrite Hdec in Hn.
  unfold read_head. unfold bind at 1. cbn [gets obind]. rewrite L1, L2.
  replace (u32 ROOTDEV) with ROOTDEV by done. replace (u32 ls) with ls by (rewrite u32_small; lia).
  destruct (bread_ok s pr p ∅ D ls h Hca Hh (can_get_empty ls)) as (i & s1 & R1 & F1 & C1 & D1 & W1 & Hi & _).
  mstep R1. destruct (buf_at_held s1 pr p _ D i ls h C1 Hi Hh) as (b & Rb & Eb & _). mstep Rb. rewrite Eb.
  unfold bind at 1. unfold lupd at 1. cbn [modify obind]. set (s2 := set_klogst _ s1).
  rewrite Hn, Nat2Z.id.
  destruct (lh_set_loop h (length B) 0 s2) as (L & Rl & HlL & HL).
  { simpl. rewrite (bio_frame_klog _ _ F1), L5. lia. }
  mstep Rl. set (s3 := set_klogst _ s2).
  assert (C3 : cache s3 pr p (<[ls := (refs ∅ ls + 1, true)]> ∅) D) by (by apply cache_lupd, cache_lupd).
  destruct (brelse_ok s3 pr p _ D i ls 1 C3 Hi) as (s4 & R4 & F4 & C4 & D4 & W4 & _).
  { by rewrite lookup_insert_eq. }
  { intros _. simpl. rewrite D1. by rewrite (cache_idle _ _ _ _ Hca). }
  rewrite R4. exists s4. split; [done|]. split_and!.
  - apply (log_frame_trans _ s1); [by apply bio_log_frame|]. apply (log_frame_trans _ s3); [|by apply bio_log_frame].
    constructor; try done. apply woken_refl.
  - assert (E : delete ls (<[ls := (refs ∅ ls + 1, true)]> ∅) = (∅ : gmap Z (Z * bool)))
      by (apply delete_insert_id, lookup_empty).
    rewrite <- E. exact C4.
  - rewrite (bio_frame_klog _ _ F4). simpl in HlL, HL. rewrite (bio_frame_klog _ _ F1) in HlL.
    constructor; simpl; rewrite ?(bio_frame_klog _ _ F1); try done; try congruence.
    apply list_eq. intros k. destruct (decide (k < length B)%nat) as [Hk|Hk].
    + rewrite lookup_take_lt, HL, decide_True by lia. rewrite <- Hdec. unfold decode_head.
      rewrite list_lookup_fmap, lookup_seq_lt by lia. done.
    + rewrite lookup_take_ge by lia. rewrite lookup_ge_None_2 by lia. done.
  - rewrite D4. simpl. done.
  - rewrite W4. simpl. done.
Qed.

Lemma initlog_ok s pr p (sbk : superblock) ls sz D B :
  sb_logstart sbk = ls -> sb_nlog sbk = sz -> length (lh_block (klogst s)) = 30%nat ->
  cache s pr p ∅ D -> good_log ls sz D B ->
  exists s', initlog ROOTDEV sbk s = Ok tt s' /\ log_frame s s' /\ cache s' pr p ∅ (disk s') /\
    logged (klogst s') ls sz [] /\ disk s' = apply_writes (recovery_writes ls D) D /\
    disk_writes s' = reverse (recovery_writes ls D) ++ disk_writes s.
Proof.
  intros E1 E2 L5 Hca HG. pose proof HG as [G1 (h & Hh & Hlh & Hn0 & Hdec) G3 G4 G5 G6 G7].
  pose proof (cache_idle _ _ _ _ Hca) as ED.
  unfold initlog. destruct (Z.leb_spec BSIZE (4 + 4 * LOGSIZE)); [lia|].
  unfold bind at 1. unfold lupd at 1. cbn [modify obind]. rewrite E1, E2, !s32_small by lia.
  set (s0 := set_klogst _ s). unfold recover_from_log.
  destruct (read_head_ok s0 pr p ls sz D B) as (s1 & R1 & F1 & C1 & Hlg & D1 & W1); try done.
  { by apply cache_lupd. }
  mstep R1.
  destruct (install_loop pr p ls sz B (klogst s1) true B [] s1 D eq_refl eq_refl Hlg C1 G3)
    as (s2 & R2 & F2 & C2 & D2 & W2).
  { intros b Hb. rewrite D1. simpl. rewrite <- ED. auto. }
  cbn [length] in R2, C2, D2, W2. change (Z.of_nat 0) with 0 in C2, D2, W2. rewrite Z.add_0_r in C2, D2, W2.
  assert (Ri : install_trans true s1 = Ok tt s2).
  { unfold install_trans. unfold bind at 1. cbn [gets obind]. rewrite (lo_n _ _ _ _ Hlg), Nat2Z.id. exact R2. }
  mstep Ri. unfold bind at 1. unfold lupd at 1. cbn [modify obind]. set (s3 := set_klogst _ s2).
  assert (HlsB : ls ∉ B).
  { intros Hin. destruct (logged_block _ _ _ _ ls Hlg Hin) as [_ Hnl]. apply Hnl. unfold in_log. lia. }
  destruct (write_head_ok s3 pr p ls sz [] ∅ (apply_writes (install_entries (ls + 1) D B) D) h) as (s4 & R4 & F4 & C4 & D4 & W4).
  { simpl. rewrite (bio_frame_klog _ _ F2). by eapply logged_none. }
  { by apply cache_lupd. }
  { apply lookup_empty. }
  { rewrite map_size_empty. lia. }
  { rewrite lookup_apply_writes_out; [done|]. by rewrite install_entries_fst. }
  rewrite R4. exists s4. split; [done|].
  assert (EW : recovery_writes ls D = install_entries (ls + 1) D B ++ [(ls, encode_head [] h)]).
  { unfold recovery_writes, blk. rewrite Hh. cbn [default from_option id]. by rewrite Hdec. }
  split_and!.
  - apply (log_frame_trans _ s0); [apply (lupd_frame (fun _ => klogst s0))|].
    apply (log_frame_trans _ s1); [done|]. apply (log_frame_trans _ s2); [by apply bio_log_frame|].
    apply (log_frame_trans _ s3); [apply (lupd_frame (fun _ => klogst s3))|by apply bio_log_frame].
  - pose proof (cache_idle _ _ _ _ C4) as E. rewrite <- E. exact C4.
  - rewrite (bio_frame_klog _ _ F4). simpl. rewrite (bio_frame_klog _ _ F2). by eapply logged_none.
  - rewrite D4. simpl. rewrite D2, D1. simpl. rewrite <- ED, EW, apply_writes_app. done.
  - rewrite W4. simpl. rewrite W2, W1. rewrite EW, reverse_app. done.
Qed.

(** ** Crashes

    A crash loses memory and leaves the disk as the writes done so far made it; a
    block is written entirely or not at all. *)

Definition recovered (ls : Z) (D : gmap Z (list Z)) : gmap Z (list Z) :=
  apply_writes (recovery_writes ls D) D.

Lemma good_log_decode ls sz D B : good_log ls sz D B -> decode_head (blk D ls) = B.
Proof. intros [_ (h & Hh & _ & _ & Hd) _ _ _ _ _]. unfold blk. by rewrite Hh. Qed.

Lemma decode_clear h : length h = 1024%nat -> decode_head (encode_head [] h) = [] /\ hdr_n (encode_head [] h) = 0.
Proof.
  intros Hh. split; [apply decode_encode; [simpl; lia|done|constructor]|].
  by rewrite (hdr_n_encode [] h) by (simpl; lia || done).
Qed.

(** The homes after recovery: those of the logged blocks have their copies. *)
Lemma recovered_home ls sz D B n :
  good_log ls sz D B -> ~ in_log ls sz n ->
  recovered ls D !! n =
    match list_find (n =.) B with Some (k, _) => Some (blk D (ls + 1 + Z.of_nat k)) | None => D !! n end.
Proof.
  intros HG Hn. pose proof HG as [G1 _ G3 G4 G5 G6 G7]. unfold recovered, recovery_writes.
  rewrite (good_log_decode _ _ _ _ HG), apply_writes_app. cbn [apply_writes foldl fst snd].
  rewrite lookup_insert_ne by (intros <-; apply Hn; unfold in_log; lia).
  destruct (list_find (n =.) B) as [[k c]|] eqn:E.
  - apply list_find_Some in E as (Hk & <- & _). by apply lookup_install_entries.
  - apply list_find_None in E. rewrite lookup_apply_writes_out; [done|]. rewrite install_entries_fst.
    intros Hin. rewrite Forall_forall in E. by apply (E n).
Qed.

(** A crash during recovery is harmless: after any part of its writes the log is
    well formed and recovering again gives the same homes. *)
Lemma recovery_prefix ls sz D B W1 W2 :
  good_log ls sz D B -> recovery_writes ls D = W1 ++ W2 ->
  exists B', good_log ls sz (apply_writes W1 D) B' /\
    same_homes ls sz (recovered ls D) (recovered ls (apply_writes W1 D)).
Proof.
  intros HG EW. pose proof HG as [G1 (h & Hh & Hlh & Hn0 & Hdec) G3 G4 G5 G6 G7].
  assert (HlsB : ls ∉ B).
  { intros Hin. rewrite Forall_forall in G7. destruct (G7 ls Hin) as [_ Hnl]. apply Hnl. unfold in_log. lia. }
  assert (Eblk : blk D ls = h) by (unfold blk; by rewrite Hh).
  destruct (decide (W2 = [])) as [->|HW2].
  - rewrite app_nil_r in EW. subst W1. fold (recovered ls D). exists [].
    assert (Hr : recovered ls D !! ls = Some (encode_head [] h)).
    { unfold recovered, recovery_writes. rewrite Eblk, apply_writes_app. cbn. apply lookup_insert_eq. }
    destruct (decode_clear h Hlh) as [Hc1 Hc2].
    assert (HG' : good_log ls sz (recovered ls D) []).
    { constructor; try done.
      - eexists. split; [exact Hr|]. split_and!; [apply length_encode_head; [simpl; lia|done]|lia|done].
      - intros n Hn. apply apply_writes_some. auto.
      - intros b Hb. set_solver.
      - simpl. lia.
      - apply NoDup_nil_2. }
    split; [done|]. intros n Hn. by rewrite (recovered_home _ _ _ _ _ HG' Hn).
  - assert (Hpre : exists c, install_entries (ls + 1) D B = W1 ++ c).
    { unfold recovery_writes in EW. rewrite Eblk, Hdec in EW.
      destruct (exists_last HW2) as (c & x & ->). exists c. rewrite app_assoc in EW.
      by apply app_inj_tail in EW as [? _]. }
    destruct Hpre as [c Hpre].
    assert (Hfst : forall n, n ∈ W1.*1 -> n ∈ B).
    { intros n Hn. rewrite <- (install_entries_fst (ls + 1) D B), Hpre, fmap_app. set_solver. }
    assert (Hlogsame : forall n, in_log ls sz n -> apply_writes W1 D !! n = D !! n).
    { intros n Hn. apply lookup_apply_writes_out. intros Hin%Hfst. rewrite Forall_forall in G7.
      by destruct (G7 n Hin). }
    assert (HG' : good_log ls sz (apply_writes W1 D) B).
    { constructor; try done.
      - exists h. split; [|done]. rewrite Hlogsame by (unfold in_log; lia). done.
      - intros n Hn. rewrite Hlogsame by done. auto.
      - intros b Hb. apply apply_writes_some. auto. }
    exists B. split; [done|]. intros n Hn. rewrite (recovered_home _ _ _ _ _ HG' Hn), (recovered_home _ _ _ _ _ HG Hn).
    destruct (list_find (n =.) B) as [[k x]|] eqn:E.
    + apply list_find_Some in E as (Hk & <- & _). pose proof (lookup_lt_Some _ _ _ Hk).
      unfold blk. rewrite Hlogsame by (unfold in_log; lia). done.
    + apply list_find_None in E. apply lookup_apply_writes_out. intros Hin%Hfst.
      rewrite Forall_forall in E. by apply (E n).
Qed.

Lemma recovered_empty ls sz D :
  good_log ls sz D [] -> same_homes ls sz D (recovered ls D).
Proof. intros HG n Hn. by rewrite (recovered_home _ _ _ _ _ HG Hn). Qed.

(** Writes that leave the header alone, to blocks of the log only. *)
Lemma good_log_writes ls sz D W :
  good_log ls sz D [] -> (forall n, n ∈ W.*1 -> ls < n < ls + sz) ->
  good_log ls sz (apply_writes W D) [] /\ same_homes ls sz D (apply_writes W D).
Proof.
  intros HG HW. pose proof HG as [G1 (h & Hh & Hlh & Hn0 & Hdec) G3 G4 G5 G6 G7]. split.
  - constructor; try done.
    + exists h. split; [|done]. rewrite lookup_apply_writes_out; [done|]. intros Hin%HW. lia.
    + intros n Hn. apply apply_writes_some. auto.
    + intros b Hb. set_solver.
  - intros n Hn. apply lookup_apply_writes_out. intros Hin%HW. apply Hn. unfold in_log. lia.
Qed.

(** The disk right after the header is written. *)
Lemma commit_point ls sz D V B h :
  good_log ls sz D [] -> D !! ls = Some h -> (length B <= 29)%nat -> Z.of_nat (length B) < sz ->
  NoDup B -> Forall (fun b => 0 <= b < 2 ^ 31 /\ ~ in_log ls sz b) B ->
  (forall b, b ∈ B -> is_Some (D !! b)) ->
  let D2 := <[ls := encode_head B h]> (apply_writes (log_entries (ls + 1) V B) D) in
  good_log ls sz D2 B /\
  recovery_writes ls D2 = home_entries V B ++ [(ls, encode_head [] (encode_head B h))] /\
  same_homes ls sz (apply_writes (home_entries V B) D) (recovered ls D2).
Proof.
  intros HG Hh HB1 HB2 Hnd Hf Hsome D2. pose proof HG as [G1 (h0 & Hh0 & Hlh & Hn0 & Hdec) G3 G4 G5 G6 G7].
  assert (h0 = h) as -> by congruence.
  assert (Hdec2 : decode_head (encode_head B h) = B).
  { apply decode_encode; [lia|done|]. eapply Forall_impl; [exact Hf|]. simpl. lia. }
  assert (HD2 : forall k b, B !! k = Some b -> D2 !! (ls + 1 + Z.of_nat k) = Some (blk V b)).
  { intros k b Hk. unfold D2. rewrite lookup_insert_ne by lia. by apply lookup_log_entries. }
  assert (Hhome : forall n, ~ in_log ls sz n -> D2 !! n = D !! n).
  { intros n Hn. unfold D2. unfold in_log in Hn. rewrite lookup_insert_ne by lia.
    apply lookup_apply_writes_out. rewrite log_entries_fst. lia. }
  assert (Hls : blk D2 ls = encode_head B h) by (unfold blk, D2; by rewrite lookup_insert_eq).
  assert (HGB : good_log ls sz D2 B).
  { constructor; try done.
    - exists (encode_head B h). unfold D2. rewrite lookup_insert_eq. split_and!; [done| | |done].
      + apply length_encode_head; [lia|done].
      + rewrite hdr_n_encode; [lia|lia|done].
    - intros n Hn. unfold D2. rewrite lookup_insert_is_Some. destruct (decide (ls = n)); [auto|].
      right. split; [done|]. apply apply_writes_some. auto.
    - intros b Hb. rewrite Forall_forall in Hf. rewrite Hhome by (by apply Hf). auto. }
  assert (Hins : install_entries (ls + 1) D2 B = home_entries V B).
  { apply install_is_home. intros k b Hk. by apply HD2. }
  split; [done|]. split.
  - unfold recovery_writes. by rewrite Hls, Hdec2, Hins.
  - intros n Hn. unfold recovered, recovery_writes. rewrite Hls, Hdec2, Hins, apply_writes_app.
    cbn [apply_writes foldl fst snd]. rewrite lookup_insert_ne by (intros <-; apply Hn; unfold in_log; lia).
    destruct (decide (n ∈ B)) as [Hin|Hnin].
    + change (foldl _ D2 (home_entries V B)) with (apply_writes (home_entries V B) D2).
      change (foldl _ D (home_entries V B)) with (apply_writes (home_entries V B) D).
      by rewrite !lookup_home_entries.
    + change (foldl _ D2 (home_entries V B)) with (apply_writes (home_entries V B) D2).
      change (foldl _ D (home_entries V B)) with (apply_writes (home_entries V B) D).
      rewrite !lookup_apply_writes_out by (by rewrite home_entries_fst). auto.
Qed.

(** A crash after any part of the writes of a commit. *)
Lemma commit_prefix ls sz D V B h W1 W2 :
  good_log ls sz D [] -> D !! ls = Some h -> (length B <= 29)%nat -> Z.of_nat (length B) < sz ->
  NoDup B -> Forall (fun b => 0 <= b < 2 ^ 31 /\ ~ in_log ls sz b) B ->
  (forall b, b ∈ B -> is_Some (D !! b)) -> commit_writes ls V B h = W1 ++ W2 ->
  exists B', good_log ls sz (apply_writes W1 D) B' /\
    (same_homes ls sz D (recovered ls (apply_writes W1 D)) \/
     same_homes ls sz (apply_writes (home_entries V B) D) (recovered ls (apply_writes W1 D))).
Proof.
  intros HG Hh HB1 HB2 Hnd Hf Hsome EW.
  assert (Hpre : forall W k, log_entries (ls + 1) V B = W ++ k -> exists B', good_log ls sz (apply_writes W D) B' /\
    same_homes ls sz D (recovered ls (apply_writes W D))).
  { intros W k E. exists []. destruct (good_log_writes ls sz D W HG) as [HG' Hs].
    - intros n Hn. assert (n ∈ (log_entries (ls + 1) V B).*1) as Hin by (rewrite E, fmap_app; set_solver).
      apply log_entries_fst in Hin. lia.
    - split; [done|]. intros n Hn. rewrite (recovered_empty _ _ _ HG' n Hn). auto. }
  unfold commit_writes in EW. apply app_eq_inv in EW as [(k & E1 & E2)|(k & E1 & E2)].
  - destruct (Hpre W1 k E1) as (B' & ? & ?). eauto.
  - destruct k as [|x k].
    { rewrite app_nil_r in E1. destruct (Hpre W1 []) as (B' & ? & ?); [by rewrite app_nil_r|]. eauto. }
    cbn [app] in E2. injection E2 as <- E2.
    destruct (commit_point ls sz D V B h HG Hh HB1 HB2 Hnd Hf Hsome) as (HG2 & Hrec & Hnew).
    set (D2 := <[ls := encode_head B h]> _) in *.
    destruct (recovery_prefix ls sz D2 B k W2 HG2) as (B' & HG3 & Hs3); [by rewrite Hrec|].
    assert (ED : apply_writes W1 D = apply_writes k D2) by (rewrite E1, apply_writes_app; done).
    rewrite ED. exists B'. split; [done|]. right. intros n Hn. rewrite (Hs3 n Hn). auto.
Qed.

Lemma pinned_some s pr p B V b : cache s pr p (pins B) V -> b ∈ B -> is_Some (V !! b).
Proof.
  intros [_ _ [l Hbc]] Hb. destruct (bc_users _ _ _ _ _ Hbc b 1 false (pins_in B b Hb)) as (_ & i & c & Hi & Hc & Hr & <-).
  destruct (bc_used _ _ _ _ _ Hbc i c Hi Hc Hr) as [Hd _]. rewrite (bc_hit _ _ _ _ _ Hbc i c Hi Hc Hd). eauto.
Qed.

(** The homes after all the writes of a commit. *)
Lemma commit_homes ls sz D V B h n :
  0 < ls /\ 1 < sz /\ ls + sz <= 2 ^ 31 -> Z.of_nat (length B) < sz -> ~ in_log ls sz n ->
  (n ∈ B -> is_Some (V !! n)) -> (n ∉ B -> V !! n = D !! n) ->
  apply_writes (commit_writes ls V B h) D !! n = V !! n.
Proof.
  intros Hrg Hlen Hn Hin Hout. unfold commit_writes. rewrite !apply_writes_app.
  cbn [apply_writes foldl fst snd]. unfold in_log in Hn. rewrite lookup_insert_ne by lia.
  change (foldl _ ?d (home_entries V B)) with (apply_writes (home_entries V B) d).
  destruct (decide (n ∈ B)) as [HB|HB].
  - rewrite lookup_home_entries by done. destruct (Hin HB) as [d Hd]. unfold blk. by rewrite Hd.
  - rewrite lookup_apply_writes_out by (by rewrite home_entries_fst). rewrite lookup_insert_ne by lia.
    change (foldl _ D ?W) with (apply_writes W D).
    rewrite lookup_apply_writes_out; [by rewrite Hout|]. rewrite log_entries_fst. lia.
Qed.

(** C1: transactions are atomic under crashes.  [commit], with the blocks [B] in the
    log and the logical disk [V], returns with the disk equal to [V] outside of
    the log.  If the machine stops after any part [W1] of the disk writes it
    makes, [initlog] of the next boot, on the disk that is left, returns with the
    log empty and, outside of the log, either the disk from before the commit
    or [V]: all the changes of the transaction or none. *)
Theorem commit_atomic s pr p ls sz B V sbk :
  logged (klogst s) ls sz B -> B <> [] -> cache s pr p (pins B) V -> good_log ls sz (disk s) [] ->
  (forall b, b ∈ B -> is_Some (disk s !! b)) -> sb_logstart sbk = ls -> sb_nlog sbk = sz ->
  exists s' W, commit s = Ok tt s' /\ disk_writes s' = reverse W ++ disk_writes s /\
    disk s' = apply_writes W (disk s) /\ same_homes ls sz V (disk s') /\
    forall W1 W2, W = W1 ++ W2 ->
    forall s0 pr0 p0, length (lh_block (klogst s0)) = 30%nat -> cache s0 pr0 p0 ∅ (apply_writes W1 (disk s)) ->
    exists s1, initlog ROOTDEV sbk s0 = Ok tt s1 /\ logged (klogst s1) ls sz [] /\
      (same_homes ls sz (disk s) (disk s1) \/ same_homes ls sz V (disk s1)).
Proof.
  intros Hlg HB Hca HG Hsome E1 E2. pose proof Hlg as [L1 L2 L3 L4 L5 L6 L7 L8 L9 L10].
  pose proof HG as [G1 (h & Hh & Hlh & Hn0 & Hdec) G3 G4 G5 G6 G7].
  assert (Hidle : forall n, n ∉ B -> V !! n = disk s !! n).
  { intros n Hn. destruct Hca as [_ _ [l Hbc]]. apply (bc_idle_block _ _ _ _ _ n Hbc). by apply pins_out. }
  assert (HlogB : forall n, in_log ls sz n -> n ∉ B).
  { intros n Hn Hin. by destruct (logged_block _ _ _ _ n Hlg Hin). }
  assert (Hls : in_log ls sz ls) by (unfold in_log; lia).
  assert (Hnew : same_homes ls sz V (apply_writes (home_entries V B) (disk s))).
  { intros n Hn. destruct (decide (n ∈ B)) as [Hin|Hnin].
    - rewrite lookup_home_entries by done. destruct (pinned_some _ _ _ _ _ _ Hca Hin) as [d Hd].
      unfold blk. by rewrite Hd.
    - rewrite lookup_apply_writes_out by (by rewrite home_entries_fst). by rewrite Hidle. }
  destruct (commit_ok s pr p ls sz B V h Hlg HB Hca) as (s' & R & _ & _ & _ & D' & W').
  { by rewrite Hidle by auto. }
  { intros n Hn. rewrite Hidle by auto. auto. }
  { intros b Hb. split; [by eapply pinned_some|auto]. }
  exists s', (commit_writes ls V B h). split_and!; try done.
  - intros n Hn. rewrite D'. apply (commit_homes ls sz); auto; [lia|]. intros Hin. by eapply pinned_some.
  - intros W1 W2 EW s0 pr0 p0 Hl0 Hc0.
    destruct (commit_prefix ls sz (disk s) V B h W1 W2) as (B' & HG' & Hor); try done; try lia.
    destruct (initlog_ok s0 pr0 p0 sbk ls sz _ B' E1 E2 Hl0 Hc0 HG') as (s1 & R1 & _ & _ & Hlg1 & D1 & _).
    exists s1. split; [done|]. split; [done|]. rewrite D1. fold (recovered ls (apply_writes W1 (disk s))).
    destruct Hor as [Hs|Hs]; [left; exact Hs|right]. intros n Hn. rewrite (Hs n Hn). auto.
Qed.

(** C20: recovery may itself be interrupted: if the machine stops after any part [W1]
    of the writes of [initlog], the next boot's [initlog] leaves outside of the
    log what the first would have left. *)
Theorem recovery_restarts s0 pr0 p0 ls sz D B sbk :
  sb_logstart sbk = ls -> sb_nlog sbk = sz -> length (lh_block (klogst s0)) = 30%nat ->
  cache s0 pr0 p0 ∅ D -> good_log ls sz D B ->
  exists s1 W, initlog ROOTDEV sbk s0 = Ok tt s1 /\ disk_writes s1 = reverse W ++ disk_writes s0 /\
    disk s1 = apply_writes W D /\
    forall W1 W2, W = W1 ++ W2 ->
    forall s2 pr2 p2, length (lh_block (klogst s2)) = 30%nat -> cache s2 pr2 p2 ∅ (apply_writes W1 D) ->
    exists s3, initlog ROOTDEV sbk s2 = Ok tt s3 /\ same_homes ls sz (disk s1) (disk s3).
Proof.
  intros E1 E2 Hl0 Hc0 HG.
  destruct (initlog_ok s0 pr0 p0 sbk ls sz D B E1 E2 Hl0 Hc0 HG) as (s1 & R1 & _ & _ & _ & D1 & W1').
  exists s1, (recovery_writes ls D). split_and!; try done.
  intros W1 W2 EW s2 pr2 p2 Hl2 Hc2.
  destruct (recovery_prefix ls sz D B W1 W2 HG EW) as (B' & HG' & Hs).
  destruct (initlog_ok s2 pr2 p2 sbk ls sz _ B' E1 E2 Hl2 Hc2 HG') as (s3 & R3 & _ & _ & _ & D3 & _).
  exists s3. split; [done|]. rewrite D3, D1. exact Hs.
Qed.
End Commit.
