(* ===== verification/LogTx.v ===== *)
(** * Inside a transaction

    What file system code between [begin_op] and [end_op] sees of the cache and
    the log: the logical disk [V], the blocks [B] in the log and the blocks [H] it
    holds.  [log_write] adds a block to the log; reading, and changing blocks that
    are then logged, is all it takes to keep the picture.  [begin_op] reserves
    space, [end_op] commits. *)

From stdpp Require Import gmap strings list fin_maps.
From S2P Require Import Prelude Layout State Sched Block Bio Log LogCommit.

(** The use of the cache: a reference for being in the log, one for being held. *)
Definition uses (B H : list Z) : gmap Z (Z * bool) :=
  gset_to_gmap (2, true) (list_to_set (filter (.∈ B) H)) ∪
  (gset_to_gmap (1, true) (list_to_set H) ∪ pins B).

Lemma lookup_const {A} (x : A) (l : list Z) n :
  gset_to_gmap x (list_to_set l : gset Z) !! n = if decide (n ∈ l) then Some x else None.
Proof.
  case_decide as Hn.
  - apply lookup_gset_to_gmap_Some. set_solver.
  - apply lookup_gset_to_gmap_None. set_solver.
Qed.

Lemma lookup_uses B H n :
  uses B H !! n =
    if decide (n ∈ H) then Some (if decide (n ∈ B) then 2 else 1, true)
    else if decide (n ∈ B) then Some (1, false) else None.
Proof.
  unfold uses. rewrite !lookup_union, lookup_pins, !lookup_const.
  repeat case_decide; try done; rewrite ?list_elem_of_filter in *; tauto.
Qed.

Lemma uses_nil B : uses B [] = pins B.
Proof. apply map_eq. intros n. rewrite lookup_uses, lookup_pins. rewrite decide_False by set_solver. done. Qed.

Lemma size_uses B H : (size (uses B H) <= length B + length H)%nat.
Proof.
  rewrite <- length_app.
  assert (Hsub : dom (uses B H) ⊆ list_to_set (B ++ H)).
  { intros n [x Hn]%elem_of_dom. rewrite lookup_uses in Hn. rewrite elem_of_list_to_set, elem_of_app.
    repeat case_decide; try done; auto. }
  apply subseteq_size in Hsub. rewrite size_dom in Hsub. etransitivity; [exact Hsub|].
  generalize (B ++ H). clear. intros l. pose proof (size_pins l) as Hs. unfold pins in Hs.
  by rewrite <- size_dom, dom_gset_to_gmap in Hs.
Qed.

Lemma refs_uses B H n : n ∉ H -> refs (uses B H) n = if decide (n ∈ B) then 1 else 0.
Proof. intros. unfold refs. rewrite lookup_uses, decide_False by done. by case_decide. Qed.

Lemma uses_hold B H n : n ∉ H -> <[n := (refs (uses B H) n + 1, true)]> (uses B H) = uses B (n :: H).
Proof.
  intros Hn. rewrite refs_uses by done. apply map_eq. intros m.
  destruct (decide (m = n)) as [->|Hne].
  - rewrite lookup_insert_eq, lookup_uses, (decide_True (P := n ∈ n :: H)) by set_solver. by case_decide.
  - rewrite lookup_insert_ne by done. rewrite !lookup_uses.
    destruct (decide (m ∈ H)); [rewrite (decide_True (P := m ∈ n :: H)) by set_solver; done|].
    rewrite (decide_False (P := m ∈ n :: H)) by set_solver. done.
Qed.

Lemma uses_release B H n :
  n ∉ H -> drop_ref (uses B (n :: H)) n (if decide (n ∈ B) then 2 else 1) = uses B H.
Proof.
  intros Hn. apply map_eq. intros m. unfold drop_ref. destruct (decide (n ∈ B)) as [HB|HB].
  - change (2 =? 1) with false. cbv iota. destruct (decide (m = n)) as [->|Hne].
    + rewrite lookup_insert_eq, lookup_uses, decide_False, decide_True by done. done.
    + rewrite lookup_insert_ne by done. rewrite !lookup_uses. repeat case_decide; set_solver.
  - change (1 =? 1) with true. cbv iota. destruct (decide (m = n)) as [->|Hne].
    + by rewrite lookup_delete_eq, lookup_uses, !decide_False.
    + rewrite lookup_delete_ne by done. rewrite !lookup_uses. repeat case_decide; set_solver.
Qed.

Lemma uses_log B H n : n ∈ H -> n ∉ B -> <[n := (2, true)]> (uses B H) = uses (B ++ [n]) H.
Proof.
  intros Hn HB. apply map_eq. intros m. destruct (decide (m = n)) as [->|Hne].
  - rewrite lookup_insert_eq, lookup_uses, decide_True, decide_True by set_solver. done.
  - rewrite lookup_insert_ne by done. rewrite !lookup_uses. repeat case_decide; set_solver.
Qed.

(** The log after [log_write] of block [n]. *)
Definition add_block (n : Z) (B : list Z) : list Z := if decide (n ∈ B) then B else B ++ [n].

Lemma add_block_in n B : n ∈ add_block n B.
Proof. unfold add_block. case_decide; set_solver. Qed.
Lemma add_block_sub n B : B ⊆ add_block n B.
Proof. unfold add_block. case_decide; set_solver. Qed.
Lemma length_add_block n B : (length (add_block n B) <= S (length B))%nat.
Proof. unfold add_block. case_decide; [lia|]. rewrite length_app. simpl. lia. Qed.

Section Tx.
Context {bld : Build} {dsk : Disk} {dok : DiskOk}.

(** Process [pr] is inside a transaction. *)
Record intx (s : kstate) (pr : nat) (p : proc) (ls sz : Z) (B H : list Z) (V : gmap Z (list Z)) : Prop :=
  MkIntx {
    ix_cache : cache s pr p (uses B H) V;
    ix_log : logged (klogst s) ls sz B;
    ix_out : 1 <= log_outstanding (klogst s)
  }.

(** What code inside a transaction leaves alone. *)
Record tx_frame (s s' : kstate) : Prop := MkTxFrame {
  tf_core : core s' = core s;
  tf_procs : woken (cur s) (procs s) (procs s');
  tf_idle : disk_idle (vdisk s) -> disk_idle (vdisk s');
  tf_disk : disk s' = disk s;
  tf_writes : disk_writes s' = disk_writes s;
  tf_log : log_outstanding (klogst s') = log_outstanding (klogst s) /\
           log_committing (klogst s') = log_committing (klogst s)
}.

Lemma tx_frame_refl s : tx_frame s s.
Proof. constructor; auto using woken_refl. Qed.

Lemma tx_frame_trans s1 s2 s3 : tx_frame s1 s2 -> tx_frame s2 s3 -> tx_frame s1 s3.
Proof.
  intros [C1 P1 I1 D1 W1 [O1 M1]] [C2 P2 I2 D2 W2 [O2 M2]].
  constructor; [congruence| |auto|congruence|congruence|split; congruence].
  rewrite (core_cur _ _ C1) in P2. eauto using woken_trans.
Qed.

Lemma bio_tx_frame s s' :
  bio_frame s s' -> disk s' = disk s -> disk_writes s' = disk_writes s -> tx_frame s s'.
Proof. intros [F1 F2 F3 F4 F5] Hd Hw. constructor; auto. by rewrite F2. Qed.

(** A block that is neither logged nor held is on the disk. *)
Lemma intx_idle s pr p ls sz B H V n :
  intx s pr p ls sz B H V -> n ∉ B -> n ∉ H -> V !! n = disk s !! n.
Proof.
  intros [[_ _ [l Hbc]] _ _] HB HH. apply (bc_idle_block _ _ _ _ _ n Hbc).
  rewrite lookup_uses. by rewrite !decide_False.
Qed.

Lemma bread_tx s pr p ls sz B H V n d :
  intx s pr p ls sz B H V -> V !! n = Some d -> n ∉ H -> (length B + length H < 30)%nat ->
  exists i s', bread ROOTDEV n s = Ok i s' /\ tx_frame s s' /\ itable s' = itable s /\
    intx s' pr p ls sz B (n :: H) V /\ holds s' p i n /\ (forall j m, holds s p j m -> holds s' p j m).
Proof.
  intros [Hca Hlg Ho] Hv Hn Hsz.
  destruct (bread_ok s pr p (uses B H) V n d Hca Hv) as (i & s' & R & F & C & D & W & Hi & K).
  { unfold can_get. rewrite lookup_uses, decide_False by done. case_decide; [split; [done|lia]|].
    pose proof (size_uses B H). lia. }
  rewrite uses_hold in C by done. exists i, s'. split; [done|].
  split; [by apply bio_tx_frame|]. split; [apply F|]. split; [|done].
  constructor; [done| |]; by rewrite (bio_frame_klog _ _ F).
Qed.

(** Releasing a block that was logged, or not changed. *)
Lemma brelse_tx s pr p ls sz B H V i n :
  intx s pr p ls sz B (n :: H) V -> n ∉ H -> holds s p i n -> (n ∉ B -> V !! n = disk s !! n) ->
  exists s', brelse i s = Ok tt s' /\ tx_frame s s' /\ itable s' = itable s /\
    intx s' pr p ls sz B H V /\ (forall j m, j <> i -> holds s p j m -> holds s' p j m).
Proof.
  intros [Hca Hlg Ho] Hn Hi Hcl.
  destruct (brelse_ok s pr p _ V i n (if decide (n ∈ B) then 2 else 1) Hca Hi) as (s' & R & F & C & D & W & K).
  { rewrite lookup_uses, (decide_True (P := n ∈ n :: H)) by set_solver. done. }
  { case_decide; [done|]. intros _. auto. }
  rewrite uses_release in C by done. exists s'. split; [done|].
  split; [by apply bio_tx_frame|]. split; [apply F|]. split; [|done].
  constructor; [done| |]; by rewrite (bio_frame_klog _ _ F).
Qed.

(** Changing a block one holds. *)
Lemma bset_tx s pr p ls sz B H V i n f d :
  intx s pr p ls sz B H V -> holds s p i n -> V !! n = Some d ->
  exists s', bupd i (fun b => set_b_data (f (b_data b)) b) s = Ok tt s' /\ tx_frame s s' /\
    itable s' = itable s /\ intx s' pr p ls sz B H (<[n := f d]> V) /\
    (forall j m, holds s p j m -> holds s' p j m).
Proof.
  intros [Hca Hlg Ho] Hi Hd.
  destruct (bset_ok s pr p _ V i n f d Hca Hi Hd) as (s' & R & F & C & D & W & K).
  exists s'. split; [done|]. split; [by apply bio_tx_frame|]. split; [apply F|]. split; [|done].
  constructor; [done| |]; by rewrite (bio_frame_klog _ _ F).
Qed.

Lemma buf_at_tx s pr p ls sz B H V i n d :
  intx s pr p ls sz B H V -> holds s p i n -> V !! n = Some d ->
  exists b, buf_at i s = Ok b s /\ b_data b = d /\ b_blockno b = n.
Proof. intros [Hca _ _] Hi Hd. by eapply buf_at_held. Qed.

(** ** [log_write] *)

Lemma find_logged_ok n s : forall B2 i,
  (forall j b, B2 !! j = Some b -> lh_block (klogst s) !! (i + j)%nat = Some b /\ 0 <= b < 2 ^ 31) ->
  exists k, find_logged i (length B2) n s = Ok (i + k)%nat s /\
    (B2 !! k = Some n \/ k = length B2 /\ n ∉ B2).
Proof.
  induction B2 as [|b B2 IH]; intros i HB; cbn [length find_logged].
  { exists 0%nat. rewrite Nat.add_0_r. split; [done|]. right. split; [done|set_solver]. }
  destruct (HB 0%nat b eq_refl) as [Hb Hr]. rewrite Nat.add_0_r in Hb. mstep (lh_at_ok i b s Hb).
  rewrite u32_small by lia. destruct (Z.eqb_spec b n) as [->|Hne].
  - exists 0%nat. rewrite Nat.add_0_r. split; [done|by left].
  - destruct (IH (S i)) as (k & Rk & Hk).
    { intros j c Hj. rewrite Nat.add_succ_l, <- Nat.add_succ_r. by apply HB. }
    exists (S k). rewrite Rk. split; [f_equal; lia|].
    destruct Hk as [Hk|[-> Hk]]; [by left|right]. split; [done|]. set_solver.
Qed.

Lemma bpin_run s i b :
  LkBcache ∉ held s -> bcache s !! i = Some b ->
  bpin i s = Ok tt (set_bcache (<[i := set_b_refcnt (u32 (b_refcnt b + 1)) b]> (bcache s)) s).
Proof.
  intros Hh Hb. unfold bpin. mstep (acquire_ok LkBcache s Hh). set (s1 := set_held _ s).
  mstep (bupd_ok i (fun b => set_b_refcnt (u32 (b_refcnt b + 1)) b) s1 ltac:(by eapply lookup_lt_Some)).
  rewrite (lock_cycle LkBcache s) by done. f_equal. simpl.
  rewrite (alter_is_insert _ _ _ _ Hb). state_eq s.
Qed.

Lemma lh_set_ok i v x s :
  lh_block (klogst s) !! i = Some x ->
  lh_set i v s = Ok tt (set_klogst (set_lh_block (<[i := v]> (lh_block (klogst s))) (klogst s)) s).
Proof. unfold lh_set. by intros ->. Qed.

Lemma logged_add lg ls sz B n :
  logged lg ls sz B -> n ∉ B -> 0 <= n < 2 ^ 31 -> ~ in_log ls sz n ->
  (length B < 29)%nat -> Z.of_nat (length B) < sz - 1 ->
  logged (set_lh_n (lh_n lg + 1) (set_lh_block (<[length B := n]> (lh_block lg)) lg)) ls sz (B ++ [n]).
Proof.
  intros [L1 L2 L3 L4 L5 L6 L7 L8 L9 L10] Hn Hr Hl Hlen Hsz.
  constructor; simpl; try done.
  - by rewrite length_insert.
  - rewrite length_app. simpl. lia.
  - rewrite length_app. simpl. rewrite Nat.add_1_r.
    rewrite (take_S_r _ _ n) by (apply list_lookup_insert_eq; lia).
    by rewrite take_insert_ge, L7 by lia.
  - rewrite length_app. simpl. lia.
  - apply NoDup_app. split; [done|]. split; [|apply NoDup_singleton]. set_solver.
  - apply Forall_app. split; [done|]. by constructor.
Qed.

(** [log_write] of a block one holds puts it in the log, once. *)
Lemma log_write_tx s pr p ls sz B HD V i n :
  intx s pr p ls sz B HD V -> holds s p i n -> n ∈ HD -> 0 <= n < 2 ^ 31 -> ~ in_log ls sz n ->
  (length B < 29)%nat -> Z.of_nat (length B) < sz - 1 ->
  exists s', log_write i s = Ok tt s' /\ tx_frame s s' /\ itable s' = itable s /\
    intx s' pr p ls sz (add_block n B) HD V /\ (forall j m, holds s p j m -> holds s' p j m).
Proof.
  intros Hix Hi Hn Hr Hnl Hlen Hsz. pose proof Hix as [Hca Hlg Ho].
  pose proof Hlg as [L1 L2 L3 L4 L5 L6 L7 L8 L9 L10]. pose proof Hca as [Hrun Hid [l Hbc] Hrg].
  pose proof (run_held _ _ _ Hrun) as Hh.
  destruct (holds_lock s p i n l _ V Hbc Hi) as (b & Hi30 & Hb & Hdv & Hbn & Hbl & Hrf & HA & HV).
  unfold log_write. mstep (acquire_ok LkLog s ltac:(rewrite Hh; set_solver)). rewrite Hh.
  set (s1 := set_held [LkLog] s). unfold bind at 1. cbn [gets obind]. change (klogst s1) with (klogst s).
  rewrite L3, L6.
  destruct (Z.leb_spec LOGSIZE (Z.of_nat (length B))), (Z.leb_spec (sz - 1) (Z.of_nat (length B))); try lia.
  cbn [orb]. destruct (Z.ltb_spec (log_outstanding (klogst s)) 1); [lia|].
  mstep (buf_at_ok i b s1 Hb). rewrite Hbn, Nat2Z.id.
  destruct (find_logged_ok n s1 B 0) as (k & Rk & Hk).
  { intros j c Hj. split; [by eapply logged_at|].
    by apply (logged_block _ _ _ _ c Hlg), (list_elem_of_lookup_2 _ j). }
  cbn [Nat.add] in Rk. mstep Rk. rewrite s32_small by lia. destruct Hk as [Hk|[-> HnB]].
  - pose proof (logged_at _ _ _ _ _ _ Hlg Hk) as Hat. pose proof (lookup_lt_Some _ _ _ Hk).
    mstep (lh_set_ok k n n s1 Hat). change (klogst s1) with (klogst s). rewrite list_insert_id by done.
    destruct (Z.eqb_spec (Z.of_nat k) (Z.of_nat (length B))); [lia|]. unfold bind. cbn [when ret obind].
    rewrite (release_only LkLog) by done. eexists. split; [reflexivity|].
    assert (HB : n ∈ B) by (by eapply list_elem_of_lookup_2).
    unfold add_block. rewrite decide_True by done.
    assert (Es : set_held [] (set_klogst (set_lh_block (lh_block (klogst s)) (klogst s)) s1) = s).
    { unfold s1. rewrite <- Hh. destruct s as [? ? ? ? ? ? ? ? ? ? ? ? ? ? ? ? []]. reflexivity. }
    rewrite Es. split_and!; auto using tx_frame_refl.
  - destruct (lookup_lt_is_Some_2 (lh_block (klogst s)) (length B)) as [x Hx]; [lia|].
    mstep (lh_set_ok (length B) n x s1 Hx). change (klogst s1) with (klogst s). set (s2 := set_klogst _ s1).
    rewrite Z.eqb_refl. cbn [when].
    assert (Rp : bpin i s2 = Ok tt (set_bcache (<[i := set_b_refcnt 2 b]> (bcache s)) s2)).
    { rewrite (bpin_run s2 i b); [|simpl; set_solver|done]. rewrite lookup_uses in HA.
      rewrite decide_True, decide_False in HA by done. injection HA as <-. done. }
    unfold bind at 1. unfold bind at 1. rewrite Rp. cbn [obind]. unfold lupd. cbn [modify obind].
    rewrite (release_only LkLog) by done. eexists. split; [reflexivity|].
    destruct (bref_ok s pr p _ V i n 2 b Hca Hi Hb ltac:(lia)) as [Hca2 Hk2].
    rewrite uses_log in Hca2 by done. unfold add_block. rewrite decide_False by done.
    split_and!.
    + constructor; try done; [|simpl; apply woken_refl]. unfold core. simpl. by rewrite Hh.
    + done.
    + constructor.
      * destruct Hca2 as [[R1 R2 R3 R4 R5 R6] I2 B2 Hrg2]. constructor; [|done|done|done]. by constructor.
      * simpl. by apply logged_add.
      * done.
    + exact Hk2.
Qed.

(** ** [begin_op] and [end_op] *)

(** [begin_op] lets an operation start only if no commit is in progress and the
    log has room for [MAXOPBLOCKS] blocks of each operation under way and of
    this one; otherwise it gives up the CPU asleep on the log, having released
    the log's lock, and checks again when it is woken. *)
Theorem begin_op_reserves s pr p :
  running s pr p -> procs s !! pr = Some p ->
  let lg := klogst s in
  let room := lh_n lg + (log_outstanding lg + 1) * MAXOPBLOCKS <= LOGSIZE in
  (log_committing lg = false -> room ->
     begin_op s = Ok tt (set_klogst (set_log_outstanding (log_outstanding lg + 1) lg) s)) /\
  (log_committing lg = true \/ ~ room ->
     exists k, begin_op s =
         Switch (set_procs (<[pr := asleep ChLog p]> (procs s)) (set_held [LkProc pr] s)) k /\
       forall s2 p2, procs s2 !! pr = Some p2 -> held s2 = [LkProc pr] ->
         k s2 = begin_wait fuel (set_held [LkLog] (set_procs (<[pr := set_p_chan None p2]> (procs s2)) s2))).
Proof.
  intros [R1 _ R3 R4 R5 R6] R2 lg room. unfold begin_op.
  mstep (acquire_ok LkLog s ltac:(rewrite R4; set_solver)). rewrite R4. set (s1 := set_held [LkLog] s).
  assert (E : begin_wait (S fuel) s1 =
    if log_committing lg then (sleep ChLog LkLog ;; begin_wait fuel) s1
    else if LOGSIZE <? lh_n lg + (log_outstanding lg + 1) * MAXOPBLOCKS then (sleep ChLog LkLog ;; begin_wait fuel) s1
    else (lupd (fun lg => set_log_outstanding (log_outstanding lg + 1) lg) ;; release LkLog) s1).
  { cbn [begin_wait]. unfold bind at 1. cbn [gets obind]. change (klogst s1) with lg. by repeat case_match. }
  rewrite E. clear E. split.
  - intros -> Hroom. unfold room in Hroom. destruct (Z.ltb_spec LOGSIZE (lh_n lg + (log_outstanding lg + 1) * MAXOPBLOCKS)); [lia|].
    unfold bind, lupd. cbn [modify obind]. rewrite (release_only LkLog) by done.
    change (klogst s1) with lg. unfold s1. f_equal. rewrite <- R4. state_eq s.
  - intros Hor. assert (Hsl : exists k, (sleep ChLog LkLog ;; begin_wait fuel) s1 =
         Switch (set_procs (<[pr := asleep ChLog p]> (procs s)) (set_held [LkProc pr] s)) k /\
       forall s2 p2, procs s2 !! pr = Some p2 -> held s2 = [LkProc pr] ->
         k s2 = begin_wait fuel (set_held [LkLog] (set_procs (<[pr := set_p_chan None p2]> (procs s2)) s2))).
    { destruct (sleep_run ChLog LkLog pr p s1 R1 R2 eq_refl ltac:(done)) as (k & Hk & Hres).
      unfold bind at 1. rewrite Hk. cbn [obind]. eexists. split; [done|]. intros s2 p2 Hp2 Hh2.
      cbv beta. by rewrite (Hres s2 p2 Hp2 Hh2). }
    destruct (log_committing lg); [exact Hsl|].
    destruct (Z.ltb_spec LOGSIZE (lh_n lg + (log_outstanding lg + 1) * MAXOPBLOCKS)) as [_|?]; [exact Hsl|].
    unfold room in Hor. destruct Hor; [done|lia].
Qed.


Lemma running_wake s pr p c : running s pr p -> running (set_procs (wake_all c (cur s) (procs s)) s) pr p.
Proof.
  intros [R1 R2 R3 R4 R5 R6]. constructor; try done; simpl.
  - rewrite R1. exact (woken_self _ _ _ _ (woken_wake_all _ _ _) R2).
  - unfold wake_all. by rewrite length_imap.
Qed.

(** The log's lock around a wakeup. *)
Lemma wake_log s pr p f :
  running s pr p ->
  (acquire LkLog ;; lupd f ;; wakeup ChLog ;; release LkLog) s =
    Ok tt (set_procs (wake_all ChLog (cur s) (procs s)) (set_klogst (f (klogst s)) s)).
Proof.
  intros [R1 R2 R3 R4 R5 R6]. mstep (acquire_ok LkLog s ltac:(rewrite R4; set_solver)). rewrite R4.
  unfold bind at 1. unfold lupd at 1. cbn [modify obind]. set (s1 := set_klogst _ _).
  assert (Hom : only_mine s1) by (intros j Hj; simpl in Hj; set_solver).
  mstep (wakeup_ok ChLog s1 Hom R3). rewrite (release_only LkLog) by done.
  f_equal. unfold s1. simpl. rewrite <- R4. state_eq s.
Qed.

(** C9: [end_op] of the last operation of a transaction commits it: afterwards the
    disk is, outside of the log, what the operations saw, the log is empty and
    no block is in use.  [end_op] of another operation leaves disk, cache and log
    alone. *)
Theorem end_op_commits s pr p ls sz B V :
  intx s pr p ls sz B [] V -> log_committing (klogst s) = false -> good_log ls sz (disk s) [] ->
  (forall b, b ∈ B -> is_Some (disk s !! b)) ->
  exists s', end_op s = Ok tt s' /\ log_frame s s' /\ log_committing (klogst s') = false /\
    log_outstanding (klogst s') = log_outstanding (klogst s) - 1 /\
    if log_outstanding (klogst s) =? 1
    then cache s' pr p ∅ (disk s') /\ logged (klogst s') ls sz [] /\ same_homes ls sz V (disk s')
    else disk s' = disk s /\ cache s' pr p (pins B) V /\ logged (klogst s') ls sz B.
Proof.
  intros [Hca Hlg Ho] Hcm HG Hsome. rewrite uses_nil in Hca.
  pose proof Hca as [Hrun Hid Hbc Hrg]. pose proof Hrun as [R1 R2 R3 R4 R5 R6].
  unfold end_op. mstep (acquire_ok LkLog s ltac:(rewrite R4; set_solver)). rewrite R4.
  unfold bind at 1. unfold lupd at 1. cbn [modify obind]. unfold bind at 1. cbn [gets obind].
  change (klogst (set_klogst ?x ?y)) with x. change (klogst (set_held [LkLog] s)) with (klogst s).
  simpl. rewrite Hcm. set (out := log_outstanding (klogst s)) in *.
  assert (Elk : forall lg, set_klogst lg (set_held [] (set_klogst (set_log_outstanding (out - 1) (klogst s)) (set_held [LkLog] s)))
    = set_klogst lg s) by (intros lg; rewrite <- R4; state_eq s).
  destruct (Z.eqb_spec out 1) as [Eo|Eo].
  - rewrite Eo. cbn [Z.eqb]. change (1 - 1 =? 0) with true. cbv iota.
    unfold bind at 1. unfold lupd at 1. cbn [modify obind].
    mstep (release_only LkLog (set_klogst (set_log_committing true (set_log_outstanding (1 - 1) (klogst s)))
      (set_klogst (set_log_outstanding (1 - 1) (klogst s)) (set_held [LkLog] s))) eq_refl).
    cbn [when]. set (s1 := set_held [] _).
    assert (E1 : s1 = set_klogst (set_log_committing true (set_log_outstanding 0 (klogst s))) s).
    { unfold s1. rewrite <- R4. state_eq s. }
    clearbody s1. subst s1. set (lg1 := set_log_committing _ _). set (s1 := set_klogst lg1 s).
    assert (Hlg1 : logged lg1 ls sz B) by (destruct Hlg; by constructor).
    assert (Hc : exists s2, commit s1 = Ok tt s2 /\ log_frame s1 s2 /\ klogst s2 = set_lh_n 0 lg1 /\
      cache s2 pr p ∅ (disk s2) /\ same_homes ls sz V (disk s2)).
    { destruct (decide (B = [])) as [->|HB].
      - exists s1. unfold commit, bind. cbn [gets obind]. change (klogst s1) with lg1.
        rewrite (lo_n _ _ _ _ Hlg1). cbn. split; [done|]. split; [apply log_frame_refl|].
        pose proof (lo_n _ _ _ _ Hlg1) as Hn. split; [unfold lg1 in *; destruct (klogst s); simpl in *; by rewrite Hn|].
        assert (EV : V = disk s) by (apply (cache_idle s pr p); by rewrite <- uses_nil, uses_nil in Hca).
        subst V. split; [by apply cache_lupd|]. done.
      - destruct HG as [G1 (h & Hh & Hlh & Hn0 & Hdec) G3 G4 G5 G6 G7].
        assert (Hidle : forall n, n ∉ B -> V !! n = disk s !! n).
        { intros n Hn. destruct Hbc as [l Hbc]. apply (bc_idle_block _ _ _ _ _ n Hbc). by apply pins_out. }
        assert (HlogB : forall n, in_log ls sz n -> n ∉ B).
        { intros n Hn Hin. by destruct (logged_block _ _ _ _ n Hlg Hin). }
        destruct (commit_ok s1 pr p ls sz B V h Hlg1 HB) as (s2 & Rc & Fc & Kc & Cc & Dc & _).
        + by apply cache_lupd.
        + rewrite Hidle; [done|]. apply HlogB. unfold in_log. lia.
        + intros n Hn. rewrite Hidle by auto. auto.
        + intros b Hb. split; [by eapply pinned_some|]. simpl. auto.
        + exists s2. split_and!; try done. intros n Hn. rewrite Dc. simpl.
          apply (commit_homes ls sz); try done; [apply (lo_fit _ _ _ _ Hlg)|auto|auto]. intros Hin. by eapply pinned_some. }
    destruct Hc as (s2 & Rc & Fc & Kc & Cc & Hs). mstep Rc. rewrite (wake_log s2 pr p _ (ca_run _ _ _ _ _ Cc)).
    rewrite Kc. eexists. split; [reflexivity|]. split_and!; try done.
    + apply (log_frame_trans _ s1); [apply (lupd_frame (fun _ => lg1))|]. apply (log_frame_trans _ s2); [done|].
      constructor; try done. simpl. apply woken_wake_all.
    + destruct Cc as [C1 C2 C3 C4]. constructor; [|done|done|done].
      pose proof (running_wake s2 pr p ChLog C1) as Hw. destruct Hw. by constructor.
    + destruct Hlg1. constructor; simpl; try done; [lia|apply NoDup_nil_2].
  - destruct (Z.eqb_spec (out - 1) 0); [lia|]. set (s1 := set_klogst _ _).
    assert (Hom : only_mine s1) by (intros j Hj; simpl in Hj; set_solver).
    unfold bind at 1. rewrite (wakeup_ok ChLog s1 Hom R3). cbn [obind].
    mstep (release_only LkLog (set_procs (wake_all ChLog (cur s1) (procs s1)) s1) eq_refl).
    cbn [when ret]. eexists. split; [reflexivity|]. split_and!; try done.
    + constructor; try done; [|simpl; apply woken_wake_all]. unfold core. simpl. by rewrite R4.
    + constructor; [|done|done|done]. pose proof (running_wake s pr p ChLog Hrun) as Hw. destruct Hw. by constructor.
    + destruct Hlg. by constructor.
Qed.
End Tx.

(** ** Witnesses: a transaction on a small disk *)

Definition zero_block : list Z := replicate (Z.to_nat BSIZE) 0.

(** Sixty-four zero blocks; the log is blocks 2 to 31. *)
Definition demo_disk : gmap Z (list Z) := gset_to_gmap zero_block (list_to_set (seqZ 0 64)).

Lemma demo_disk_at n : 0 <= n < 64 -> demo_disk !! n = Some zero_block.
Proof. intros. unfold demo_disk. rewrite lookup_const, decide_True; [done|]. apply elem_of_seqZ. lia. Qed.

Lemma zero_header : length zero_block = 1024%nat /\ hdr_n zero_block = 0 /\ decode_head zero_block = [].
Proof. split_and!; vm_compute; reflexivity. Qed.

Lemma demo_good_log : good_log 2 30 demo_disk [].
Proof.
  destruct zero_header as (H1 & H2 & H3). constructor.
  - lia.
  - exists zero_block. rewrite demo_disk_at by lia. rewrite H2. split_and!; auto. lia.
  - intros n Hn. unfold in_log in Hn. rewrite demo_disk_at by lia. eauto.
  - intros b Hb. by apply not_elem_of_nil in Hb.
  - simpl. lia.
  - apply NoDup_nil_2.
  - by apply Forall_nil.
Qed.

#[local] Existing Instance prompt_disk.
#[local] Existing Instance prompt_disk_ok.
#[local] Instance demo_default : Build := demo_build DEFAULT.

Definition demo_p : proc := demo_proc 5 RUNNING 6 60 1.

Lemma demo_disk_range : disk_range demo_disk.
Proof.
  intros n [x Hx]. unfold demo_disk in Hx. apply lookup_gset_to_gmap_Some in Hx as [Hx _].
  apply elem_of_list_to_set, elem_of_seqZ in Hx. lia.
Qed.

(** One operation under way on the disk [d], nothing logged. *)
Lemma demo_started_on d : disk_range d -> exists s, intx s 3 demo_p 2 30 [] [] d /\ disk s = d /\
  log_committing (klogst s) = false /\ log_outstanding (klogst s) = 1.
Proof.
  intros Hrg. destruct (demo_cache d Hrg) as (s & Hca & Hd).
  exists (set_klogst (MkLog 2 30 1 false ROOTDEV 0 (replicate 30 0)) s).
  split_and!; [|exact Hd|reflexivity|reflexivity].
  constructor; [rewrite uses_nil; by apply cache_lupd| |simpl; lia].
  constructor; simpl; try reflexivity; [lia|lia|apply NoDup_nil_2|by apply Forall_nil].
Qed.

Lemma demo_started : exists s, intx s 3 demo_p 2 30 [] [] demo_disk /\ disk s = demo_disk /\
  log_committing (klogst s) = false /\ log_outstanding (klogst s) = 1.
Proof. apply demo_started_on, demo_disk_range. Qed.

(** The operation has changed block 40 and logged it. *)
Lemma demo_logged : exists s V, intx s 3 demo_p 2 30 [40] [] V /\ disk s = demo_disk /\
  log_committing (klogst s) = false /\ log_outstanding (klogst s) = 1.
Proof.
  destruct demo_started as (s & Hix & Hd & Hcm & Ho).
  destruct (bread_tx s 3 demo_p 2 30 [] [] demo_disk 40 zero_block Hix) as (i & s1 & _ & F1 & _ & X1 & Hi & _);
    [by apply demo_disk_at|apply not_elem_of_nil|simpl; lia|].
  destruct (bset_tx s1 3 demo_p 2 30 [] [40] demo_disk i 40 (put32 0 77) zero_block X1 Hi) as (s2 & _ & F2 & _ & X2 & K2);
    [by apply demo_disk_at|].
  destruct (log_write_tx s2 3 demo_p 2 30 [] [40] _ i 40 X2 (K2 _ _ Hi)) as (s3 & _ & F3 & _ & X3 & K3);
    [set_solver|lia|unfold in_log; lia|simpl; lia|simpl; lia|].
  destruct (brelse_tx s3 3 demo_p 2 30 [40] [] _ i 40 X3) as (s4 & _ & F4 & _ & X4 & _);
    [apply not_elem_of_nil|by apply K3, K2|set_solver|].
  pose proof (tx_frame_trans _ _ _ F1 (tx_frame_trans _ _ _ F2 (tx_frame_trans _ _ _ F3 F4))) as [_ _ _ Fd _ [Fo Fc]].
  exists s4. eexists. split; [exact X4|]. rewrite Fd, Fo, Fc. done.
Qed.

Definition demo_sb : superblock := MkSuperblock FSMAGIC 64 10 10 30 2 32 33.

Lemma commit_atomic_witness : exists s s' V, commit s = Ok tt s' /\ same_homes 2 30 V (disk s').
Proof.
  destruct demo_logged as (s & V & [Hca Hlg Ho] & Hd & _ & _). rewrite uses_nil in Hca.
  destruct (commit_atomic s 3 demo_p 2 30 [40] V demo_sb Hlg ltac:(discriminate) Hca) as (s' & W & R & _ & _ & Hs & _).
  - rewrite Hd. apply demo_good_log.
  - intros b Hb. rewrite Hd. assert (b = 40) as -> by set_solver. eexists. by apply demo_disk_at.
  - reflexivity.
  - reflexivity.
  - exists s, s', V. split; [exact R|exact Hs].
Defined.

Lemma recovery_restarts_witness : exists s s', initlog ROOTDEV demo_sb s = Ok tt s'.
Proof.
  destruct demo_started as (s & [Hca Hlg Ho] & Hd & _ & _). rewrite uses_nil in Hca.
  destruct (recovery_restarts s 3 demo_p 2 30 demo_disk [] demo_sb eq_refl eq_refl (lo_len _ _ _ _ Hlg) Hca
    demo_good_log) as (s1 & W & R & _).
  exists s, s1. exact R.
Defined.

Lemma end_op_commits_witness : exists s s' V, end_op s = Ok tt s' /\ same_homes 2 30 V (disk s').
Proof.
  destruct demo_logged as (s & V & Hix & Hd & Hcm & Ho).
  destruct (end_op_commits s 3 demo_p 2 30 [40] V Hix Hcm) as (s' & R & _ & _ & _ & Hrest).
  - rewrite Hd. apply demo_good_log.
  - intros b Hb. rewrite Hd. assert (b = 40) as -> by set_solver. eexists. by apply demo_disk_at.
  - rewrite Ho in Hrest. destruct Hrest as (_ & _ & Hs). exists s, s', V. split; [exact R|exact Hs].
Defined.

(** An operation that has logged the [k] blocks from 32 on. *)
Lemma demo_filled (k : nat) : (k <= 29)%nat ->
  exists s V, intx s 3 demo_p 2 30 (seqZ 32 (Z.of_nat k)) [] V /\ forall n, 0 <= n < 64 -> is_Some (V !! n).
Proof.
  induction k as [|k IH]; intros Hk.
  { destruct demo_started as (s & Hix & _). exists s, demo_disk. split; [exact Hix|].
    intros n Hn. rewrite demo_disk_at by done. eauto. }
  destruct IH as (s & V & Hix & HV); [lia|]. set (n := 32 + Z.of_nat k).
  destruct (HV n ltac:(unfold n; lia)) as [d Hd].
  assert (Hlen : length (seqZ 32 (Z.of_nat k)) = k) by (rewrite length_seqZ; lia).
  destruct (bread_tx s 3 demo_p 2 30 _ [] V n d Hix Hd) as (i & s1 & _ & _ & _ & X1 & Hi & _);
    [apply not_elem_of_nil|rewrite Hlen; simpl; lia|].
  destruct (log_write_tx s1 3 demo_p 2 30 _ [n] V i n X1 Hi) as (s2 & _ & _ & _ & X2 & K2);
    [set_solver|unfold n; lia|unfold in_log, n; lia|rewrite Hlen; lia|rewrite Hlen; lia|].
  destruct (brelse_tx s2 3 demo_p 2 30 _ [] V i n X2) as (s3 & _ & _ & _ & X3 & _);
    [apply not_elem_of_nil|by apply K2|intros Hno; by destruct Hno; apply add_block_in|].
  exists s3, V. split; [|done]. unfold add_block in X3. rewrite decide_False in X3.
  - by rewrite seqZ_S.
  - rewrite elem_of_seqZ. unfold n. lia.
Qed.

