(* ===== verification/Virtio.v ===== *)
(** * The disk driver

    [kernel/virtio_disk.c]: the descriptors and rings it shares with the device, a
    request, and the completion interrupt.  The device is a parameter with the
    behaviour that the virtio specification gives it. *)

From stdpp Require Import gmap strings list fin_maps.
From S2P Require Import Prelude Layout State Sched Bio.

Abbreviation NUM := 8.
Abbreviation VRING_DESC_F_NEXT := 1.
Abbreviation VRING_DESC_F_WRITE := 2.
Abbreviation VIRTIO_BLK_T_IN := 0.
Abbreviation VIRTIO_BLK_T_OUT := 1.

Definition vupd (f : virtio -> virtio) : K unit := modify (fun s => set_vdisk (f (vdisk s)) s).

(** Assigning to a field of descriptor [i]. *)
Definition desc_set (i : nat) (d : vdesc) : K unit :=
  vupd (fun v => set_vd_desc (<[i := d]> (vd_desc v)) v).

(** ** Initialisation *)

(** The registers written, in order, with [pages] the address of [disk.pages] and
    [R] giving what the registers read. *)
Definition virtio_disk_init (pages : Z) (R : Z -> Z) : K (list (Z * Z)) :=
  if negb (R 0x000 =? 0x74726976) || negb (R 0x004 =? 1) || negb (R 0x008 =? 2) || negb (R 0x00c =? 0x554d4551)
  then panic "could not find virtio disk" else
  let features := R 0x010 in
  let features := Z.land features (Z.lnot (Z.shiftl 1 5)) in
  let features := Z.land features (Z.lnot (Z.shiftl 1 7)) in
  let features := Z.land features (Z.lnot (Z.shiftl 1 11)) in
  let features := Z.land features (Z.lnot (Z.shiftl 1 12)) in
  let features := Z.land features (Z.lnot (Z.shiftl 1 27)) in
  let features := Z.land features (Z.lnot (Z.shiftl 1 29)) in
  let features := Z.land features (Z.lnot (Z.shiftl 1 28)) in
  let max := R 0x034 in
  if max =? 0 then panic "virtio disk has no queue 0" else
  if max <? NUM then panic "virtio disk max queue too short" else
  vupd (fun v =>
    set_vd_free (replicate 8 true)
      (set_vd_used (replicate 8 0) (set_vd_used_dev 0 (set_vd_avail (replicate 8 0) (set_vd_avail_idx 0
        (set_vd_desc (replicate 8 (MkDesc DmaNull 0 0 0)) v)))))) ;;
  ret [(0x070, 1); (0x070, 3); (0x020, features); (0x070, 11); (0x070, 15); (0x028, PGSIZE); (0x030, 0);
       (0x038, NUM); (0x040, Z.shiftr pages PGSHIFT)].

(** ** Descriptors *)

Fixpoint alloc_desc_loop (l : list nat) : K (option nat) :=
  match l with
  | [] => ret None
  | i :: l =>
      let! v := gets vdisk in
      let! free := deref "disk.free" (vd_free v !! i : option bool) in
      if free then
        vupd (fun v => set_vd_free (<[i := false]> (vd_free v)) v) ;;
        ret (Some i)
      else alloc_desc_loop l
  end.

Definition alloc_desc : K (option nat) := alloc_desc_loop (seq 0 8).

Definition free_desc (i : nat) : K unit :=
  if NUM <=? Z.of_nat i then panic "free_desc 1" else
  let! v := gets vdisk in
  let! free := deref "disk.free" (vd_free v !! i : option bool) in
  if free then panic "free_desc 2" else
  desc_set i (MkDesc DmaNull 0 0 0) ;;
  vupd (fun v => set_vd_free (<[i := true]> (vd_free v)) v) ;;
  wakeup ChDiskFree.

Fixpoint free_chain_loop (k : nat) (i : nat) : K unit :=
  match k with
  | O => no_fuel
  | S k =>
      let! v := gets vdisk in
      let! d := deref "disk.desc" (vd_desc v !! i) in
      free_desc i ;;
      if negb (Z.land (d_flags d) VRING_DESC_F_NEXT =? 0) then free_chain_loop k (Z.to_nat (d_next d))
      else ret tt
  end.

(** A chain has at most [NUM] descriptors, each freed once. *)
Definition free_chain (i : nat) : K unit := free_chain_loop 9 i.

(** [alloc3_desc]'s loop, [l] being the descriptors it has and [k] those to go. *)
Fixpoint alloc3_loop (k : nat) (l : list nat) : K (option (list nat)) :=
  match k with
  | O => ret (Some l)
  | S k =>
      let! o := alloc_desc in
      match o with
      | Some i => alloc3_loop k (l ++ [i])
      | None =>
          for_each l free_desc ;;
          ret None
      end
  end.

Definition alloc3_desc : K (option (list nat)) := alloc3_loop 3 [].

(** ** A request *)

(** The wait for three descriptors. *)
Fixpoint alloc3_wait (k : nat) : K (list nat) :=
  match k with
  | O => no_fuel
  | S k =>
      let! o := alloc3_desc in
      match o with
      | Some l => ret l
      | None =>
          sleep ChDiskFree LkVdisk ;;
          alloc3_wait k
      end
  end.

(** Formatting the descriptors [x], [y], [z] for buffer [b]. *)
Definition format_request (b : nat) (write : bool) (sector : Z) (x y z : nat) : K unit :=
  vupd (fun v => set_vd_ops
    (<[x := MkReq (if write then VIRTIO_BLK_T_OUT else VIRTIO_BLK_T_IN) 0 sector]> (vd_ops v)) v) ;;
  desc_set x (MkDesc (DmaOp x) 16 VRING_DESC_F_NEXT (Z.of_nat y)) ;;
  desc_set y (MkDesc (DmaData b) BSIZE
    (Z.lor (if write then 0 else VRING_DESC_F_WRITE) VRING_DESC_F_NEXT) (Z.of_nat z)) ;;
  vupd (fun v => set_vd_info_status (<[x := 0xff]> (vd_info_status v)) v) ;;
  desc_set z (MkDesc (DmaStatus x) 1 VRING_DESC_F_WRITE 0).

(** The wait for the interrupt handler. *)
Fixpoint rw_wait (k : nat) (b : nat) : K unit :=
  match k with
  | O => no_fuel
  | S k =>
      let! bf := buf_at b in
      if b_disk bf then
        sleep (ChBuf b) LkVdisk ;;
        rw_wait k b
      else ret tt
  end.

Section Rw.
Context `{Build}.

Definition disk_rw (b : nat) (write : bool) : K unit :=
  let! bf := buf_at b in
  let sector := u32 (b_blockno bf * 2) in
  acquire LkVdisk ;;
  let! idx := alloc3_wait (S fuel) in
  match idx with
  | [x; y; z] =>
      format_request b write sector x y z ;;
      bupd b (set_b_disk true) ;;
      vupd (fun v => set_vd_info_b (<[x := Some b]> (vd_info_b v)) v) ;;
      vupd (fun v => set_vd_avail (<[Z.to_nat (vd_avail_idx v mod NUM) := Z.of_nat x]> (vd_avail v)) v) ;;
      vupd (fun v => set_vd_avail_idx (u16 (vd_avail_idx v + 1)) v) ;;
      rw_wait (S fuel) b ;;
      vupd (fun v => set_vd_info_b (<[x := None]> (vd_info_b v)) v) ;;
      free_chain x ;;
      release LkVdisk
  | _ => ub "idx"
  end.
End Rw.

(** ** The interrupt *)

Fixpoint intr_loop (k : nat) : K unit :=
  let! v := gets vdisk in
  if negb (vd_used_idx v =? vd_used_dev v) then
    match k with
    | O => no_fuel
    | S k =>
        let! id := deref "used->ring" (vd_used v !! Z.to_nat (vd_used_idx v mod NUM)) in
        let! status := deref "disk.info" (vd_info_status v !! Z.to_nat id) in
        if negb (status =? 0) then panic "virtio_disk_intr status" else
        let! o := deref "disk.info" (vd_info_b v !! Z.to_nat id : option (option nat)) in
        let! b := deref "b" o in
        bupd b (set_b_disk false) ;;
        wakeup (ChBuf b) ;;
        vupd (fun v => set_vd_used_idx (u16 (vd_used_idx v + 1)) v) ;;
        intr_loop k
    end
  else ret tt.

(** The used ring has at most [NUM] new entries: a chain takes a descriptor. *)
Definition disk_intr : K unit :=
  acquire LkVdisk ;;
  intr_loop 8 ;;
  release LkVdisk.
