(* ===== verification/VirtioDisk.v ===== *)
(** * The disk driver, its device and its interrupt

    [virtio_disk_rw] of [kernel/virtio_disk.c] puts a request into the rings it
    shares with the device and sleeps; the device serves the request and
    interrupts; [virtio_disk_intr] wakes the sleeper.  Together they are the
    synchronous transfer that the buffer cache is verified against: this file
    discharges [DiskOk]. *)

From stdpp Require Import gmap strings list fin_maps.
From S2P Require Import Prelude Layout State Sched Scheduler Bio Virtio.

(** ** The device

    What the virtio specification says of a block device, for a queue in which one
    request is new. *)

(** The request at the head of the new chain of [v]: descriptor [x] points at a
    request for the sectors of block [n], the next one at the data of buffer [i],
    and the last one at the status byte of [info[st]]. *)
Definition pending (v : virtio) (x st i : nat) (write : bool) (n : Z) : Prop :=
  vd_avail_idx v = u16 (vd_used_dev v + 1) /\
  vd_avail v !! Z.to_nat (vd_used_dev v mod NUM) = Some (Z.of_nat x) /\
  exists y z o,
    vd_desc v !! x = Some (MkDesc (DmaOp o) 16 VRING_DESC_F_NEXT (Z.of_nat y)) /\
    vd_ops v !! o = Some (MkReq (if write then VIRTIO_BLK_T_OUT else VIRTIO_BLK_T_IN) 0 (2 * n)) /\
    vd_desc v !! y = Some (MkDesc (DmaData i) BSIZE (if write then 1 else 3) (Z.of_nat z)) /\
    vd_desc v !! z = Some (MkDesc (DmaStatus st) 1 VRING_DESC_F_WRITE 0).

(** The device has moved the data of block [n]. *)
Definition moved (i : nat) (b : buf) (write : bool) (n : Z) (s : kstate) : kstate :=
  if write then
    set_disk (<[n := b_data b]> (disk s)) (set_disk_writes ((n, b_data b) :: disk_writes s) s)
  else set_bcache (<[i := set_b_data (default [] (disk s !! n)) b]> (bcache s)) s.

(** It stores a status of 0 and puts the chain in the used ring. *)
Definition completed (x st : nat) (v : virtio) : virtio :=
  set_vd_used_dev (u16 (vd_used_dev v + 1))
    (set_vd_used (<[Z.to_nat (vd_used_dev v mod NUM) := Z.of_nat x]> (vd_used v))
      (set_vd_info_status (<[st := 0]> (vd_info_status v)) v)).

Class Device := { device : kstate -> kstate }.

Class DeviceOk `{Device} : Prop := device_serves :
  forall s x st i write n b,
    pending (vdisk s) x st i write n -> bcache s !! i = Some b -> is_Some (disk s !! n) ->
    device s = set_vdisk (completed x st (vdisk s)) (moved i b write n s).

(** ** The system around the driver *)

(** Run [o] with [env] as what happens each time it gives up the CPU. *)
Fixpoint settle {A} (env : K unit) (o : outcome kstate A) : outcome kstate A :=
  match o with
  | Switch s k =>
      match env s with
      | Ok _ s' => settle env (k s')
      | Panic m => Panic m
      | UB w => UB w
      | NoFuel | Switch _ _ => NoFuel
      end
  | o => o
  end.

(** The scheduler's turn for process [pr], up to the switch to it. *)
Definition dispatch (pr : nat) : K unit := fun s =>
  match run_proc pr (pupd pr upd_default) s with
  | Switch s' _ => Ok tt s'
  | _ => NoFuel
  end.

(** Process [pr] sleeps: its CPU finishes the switch and releases the process's lock,
    takes the device's interrupt, and comes back to [pr]. *)
Definition meanwhile `{Device} (pr : nat) : K unit :=
  modify (set_cur None) ;;
  release (LkProc pr) ;;
  modify device ;;
  disk_intr ;;
  dispatch pr.

(** No request is under way. *)
Record vd_idle (v : virtio) : Prop := MkVdIdle {
  vi_desc : length (vd_desc v) = 8%nat;
  vi_avail : length (vd_avail v) = 8%nat;
  vi_used : length (vd_used v) = 8%nat;
  vi_free : vd_free v = replicate 8 true;
  vi_info : length (vd_info_b v) = 8%nat;
  vi_status : length (vd_info_status v) = 8%nat;
  vi_ops : length (vd_ops v) = 8%nat;
  vi_idx : vd_avail_idx v = vd_used_dev v /\ vd_used_idx v = vd_used_dev v;
  vi_range : 0 <= vd_used_dev v < 2 ^ 16
}.

(** ** States, by the fields that a request changes *)

Definition put (h : list lock) (c : option nat) (ps : list proc) (bs : list buf) (D : gmap Z (list Z))
    (W : list (Z * list Z)) (v : virtio) (s : kstate) : kstate :=
  set_held h (set_cur c (set_procs ps (set_bcache bs (set_disk D (set_disk_writes W (set_vdisk v s)))))).

Section Steps.
Context (h : list lock) (c : option nat) (ps : list proc) (bs : list buf) (D : gmap Z (list Z))
  (W : list (Z * list Z)) (v : virtio) (s : kstate).

Lemma put_acquire lk : lk ∉ h -> acquire lk (put h c ps bs D W v s) = Ok tt (put (lk :: h) c ps bs D W v s).
Proof. intros Hh. by rewrite acquire_ok. Qed.

Lemma put_release lk : lk ∉ h -> release lk (put (lk :: h) c ps bs D W v s) = Ok tt (put h c ps bs D W v s).
Proof. intros Hh. by rewrite (release_ok lk _ h). Qed.

Lemma put_vupd f : vupd f (put h c ps bs D W v s) = Ok tt (put h c ps bs D W (f v) s).
Proof. reflexivity. Qed.

Lemma put_cur c' : modify (set_cur c') (put h c ps bs D W v s) = Ok tt (put h c' ps bs D W v s).
Proof. reflexivity. Qed.

Lemma put_sleep h' ps' : set_procs ps' (set_held h' (put h c ps bs D W v s)) = put h' c ps' bs D W v s.
Proof. reflexivity. Qed.

Lemma put_woken h' ps' : set_held h' (set_procs ps' (put h c ps bs D W v s)) = put h' c ps' bs D W v s.
Proof. reflexivity. Qed.

Lemma put_bupd i f b : bs !! i = Some b -> bupd i f (put h c ps bs D W v s) = Ok tt (put h c ps (<[i := f b]> bs) D W v s).
Proof.
  intros Hb. rewrite bupd_ok by (simpl; by eapply lookup_lt_Some). simpl. by rewrite (alter_is_insert _ _ _ _ Hb).
Qed.

Lemma put_wakeup ch : (forall j, LkProc j ∉ h) -> length ps = 64%nat ->
  wakeup ch (put h c ps bs D W v s) = Ok tt (put h c (wake_all ch c ps) bs D W v s).
Proof. intros Hh Hl. rewrite wakeup_ok; [done| |done]. intros j Hj. by apply Hh in Hj. Qed.
End Steps.

(** ** The request *)

(** The driver's state with the request for buffer [i] in descriptors 0, 1 and 2. *)
Definition queued (i : nat) (write : bool) (n : Z) (v : virtio) : virtio :=
  let v := set_vd_free ([false; false; false] ++ replicate 5 true) v in
  let v := set_vd_ops (<[0%nat := MkReq (if write then VIRTIO_BLK_T_OUT else VIRTIO_BLK_T_IN) 0 (2 * n)]> (vd_ops v)) v in
  let v := set_vd_desc (<[0%nat := MkDesc (DmaOp 0) 16 VRING_DESC_F_NEXT 1]> (vd_desc v)) v in
  let v := set_vd_desc (<[1%nat := MkDesc (DmaData i) BSIZE (if write then 1 else 3) 2]> (vd_desc v)) v in
  let v := set_vd_info_status (<[0%nat := 0xff]> (vd_info_status v)) v in
  let v := set_vd_desc (<[2%nat := MkDesc (DmaStatus 0) 1 VRING_DESC_F_WRITE 0]> (vd_desc v)) v in
  let v := set_vd_info_b (<[0%nat := Some i]> (vd_info_b v)) v in
  let v := set_vd_avail (<[Z.to_nat (vd_avail_idx v mod NUM) := 0]> (vd_avail v)) v in
  set_vd_avail_idx (u16 (vd_avail_idx v + 1)) v.

(** What [virtio_disk_rw] does once the request is done. *)
Definition rw_tail : K unit :=
  vupd (fun v => set_vd_info_b (<[0%nat := None]> (vd_info_b v)) v) ;;
  free_chain 0 ;;
  release LkVdisk.

Section Request.
Context `{Build} (c : option nat) (ps : list proc) (bs : list buf) (D : gmap Z (list Z))
  (W : list (Z * list Z)) (v : virtio) (s : kstate) (i : nat) (b : buf) (write : bool).

Lemma alloc3_idle h :
  vd_free v = replicate 8 true ->
  alloc3_desc (put h c ps bs D W v s) =
    Ok (Some [0; 1; 2]%nat) (put h c ps bs D W (set_vd_free ([false; false; false] ++ replicate 5 true) v) s).
Proof. intros Hf. destruct v. simpl in Hf. subst. reflexivity. Qed.

Lemma disk_rw_request :
  vd_free v = replicate 8 true -> bs !! i = Some b -> 0 <= b_blockno b < 2 ^ 31 ->
  disk_rw i write (put [] c ps bs D W v s) =
    (rw_wait (S fuel) i ;; rw_tail)
      (put [LkVdisk] c ps (<[i := set_b_disk true b]> bs) D W (queued i write (b_blockno b) v) s).
Proof.
  intros Hf Hb Hn. unfold disk_rw. mstep (buf_at_ok i b (put [] c ps bs D W v s) Hb).
  rewrite u32_small, (Z.mul_comm _ 2) by lia. mstep (put_acquire [] c ps bs D W v s LkVdisk ltac:(set_solver)).
  unfold bind at 1. cbn [alloc3_wait]. unfold bind at 1. rewrite (alloc3_idle _ Hf). cbn [obind ret].
  set (v1 := set_vd_free _ v). unfold bind at 1. unfold format_request at 1. unfold bind at 1 2 3 4.
  unfold desc_set. rewrite !put_vupd; cbn [obind]. rewrite !put_vupd; cbn [obind].
  rewrite !put_vupd; cbn [obind]. rewrite !put_vupd; cbn [obind]. rewrite !put_vupd; cbn [obind].
  unfold bind at 1. rewrite (put_bupd _ _ _ _ _ _ _ _ i (set_b_disk true) b Hb). cbn [obind].
  unfold bind at 1. rewrite put_vupd; cbn [obind]. unfold bind at 1. rewrite put_vupd; cbn [obind].
  unfold bind at 1. rewrite put_vupd; cbn [obind]. destruct write; reflexivity.
Qed.

Lemma queued_pending : vd_idle v -> pending (queued i write (b_blockno b) v) 0 0 i write (b_blockno b).
Proof.
  intros []. destruct vi_idx0 as [E1 E2]. pose proof (Z.mod_pos_bound (vd_used_dev v) 8). unfold pending, queued. cbn. rewrite E1.
  split; [done|]. split; [apply list_lookup_insert_eq; lia|]. exists 1%nat, 2%nat, 0%nat.
  destruct (vd_desc v) as [|d0 [|d1 [|d2 l]]]; try discriminate. destruct (vd_ops v); [discriminate|]. done.
Qed.
End Request.

Lemma queued_desc i write n v :
  length (vd_desc v) = 8%nat ->
  exists l, vd_desc (queued i write n v) =
    MkDesc (DmaOp 0) 16 VRING_DESC_F_NEXT 1 :: MkDesc (DmaData i) BSIZE (if write then 1 else 3) 2 ::
    MkDesc (DmaStatus 0) 1 VRING_DESC_F_WRITE 0 :: l.
Proof.
  intros Hl. destruct v as [vd]. cbn in Hl. destruct vd as [|d0 [|d1 [|d2 l]]]; try discriminate. by exists l.
Qed.

(** ** The interrupt *)

Section Interrupt.
Context (ps : list proc) (bs : list buf) (D : gmap Z (list Z)) (W : list (Z * list Z)) (v : virtio) (s : kstate).

(** One entry of the used ring is new. *)
Lemma intr_loop_one k i b id :
  length ps = 64%nat -> bs !! i = Some b ->
  0 <= vd_used_idx v < 2 ^ 16 -> vd_used_dev v = u16 (vd_used_idx v + 1) ->
  vd_used v !! Z.to_nat (vd_used_idx v mod NUM) = Some id ->
  vd_info_status v !! Z.to_nat id = Some 0 -> vd_info_b v !! Z.to_nat id = Some (Some i) ->
  intr_loop (S k) (put [LkVdisk] None ps bs D W v s) =
    Ok tt (put [LkVdisk] None (wake_all (ChBuf i) None ps) (<[i := set_b_disk false b]> bs) D W
      (set_vd_used_idx (u16 (vd_used_idx v + 1)) v) s).
Proof.
  intros Hl Hb Hr Hd Hu Hs Hi. set (s1 := put [LkVdisk] None (wake_all _ _ _) _ D W _ s).
  assert (E1 : intr_loop k s1 = Ok tt s1).
  { destruct k; cbn [intr_loop]; unfold bind, gets; cbn [obind];
      change (vdisk s1) with (set_vd_used_idx (u16 (vd_used_idx v + 1)) v);
      cbn [vd_used_idx vd_used_dev set_vd_used_idx]; by rewrite Hd, Z.eqb_refl. }
  cbn [intr_loop]. unfold bind at 1. cbn [gets obind]. change (vdisk (put _ _ _ _ _ _ v s)) with v.
  assert (negb (vd_used_idx v =? vd_used_dev v) = true) as ->.
  { rewrite Hd. unfold u16. destruct (Z.eqb_spec (vd_used_idx v) ((vd_used_idx v + 1) mod 2 ^ 16)) as [E2|]; [|done].
    exfalso. destruct (decide (vd_used_idx v + 1 < 2 ^ 16)); [rewrite Z.mod_small in E2; lia|].
    replace (vd_used_idx v) with (2 ^ 16 - 1) in E2 by lia. discriminate. }
  rewrite Hu. cbn [deref]. unfold bind at 1; cbn [ret obind]. rewrite Hs. cbn [deref].
  unfold bind at 1; cbn [ret obind]. cbn [Z.eqb negb]. rewrite Hi. cbn [deref].
  unfold bind at 1; cbn [ret obind]. cbn [deref]. unfold bind at 1; cbn [ret obind].
  mstep (put_bupd [LkVdisk] None ps bs D W v s i (set_b_disk false) b Hb).
  mstep (put_wakeup [LkVdisk] None ps (<[i := set_b_disk false b]> bs) D W v s (ChBuf i) ltac:(set_solver) Hl).
  unfold bind at 1. rewrite put_vupd. cbn [obind]. exact E1.
Qed.

Lemma disk_intr_one i b id :
  length ps = 64%nat -> bs !! i = Some b ->
  0 <= vd_used_idx v < 2 ^ 16 -> vd_used_dev v = u16 (vd_used_idx v + 1) ->
  vd_used v !! Z.to_nat (vd_used_idx v mod NUM) = Some id ->
  vd_info_status v !! Z.to_nat id = Some 0 -> vd_info_b v !! Z.to_nat id = Some (Some i) ->
  disk_intr (put [] None ps bs D W v s) =
    Ok tt (put [] None (wake_all (ChBuf i) None ps) (<[i := set_b_disk false b]> bs) D W
      (set_vd_used_idx (u16 (vd_used_idx v + 1)) v) s).
Proof.
  intros. unfold disk_intr. mstep (put_acquire [] None ps bs D W v s LkVdisk ltac:(set_solver)).
  unfold bind. rewrite (intr_loop_one 7 i b id) by done. cbn [obind]. by apply put_release; set_solver.
Qed.

Lemma dispatch_ok pr q :
  ps !! pr = Some q -> p_state q = RUNNABLE ->
  dispatch pr (put [] None ps bs D W v s) =
    Ok tt (put [LkProc pr] (Some pr) (<[pr := upd_default q]> ps) bs D W v s).
Proof.
  intros Hq Hst. unfold dispatch, run_proc. mstep (put_acquire [] None ps bs D W v s (LkProc pr) ltac:(set_solver)).
  mstep (pget_ok pr q (put [LkProc pr] None ps bs D W v s) Hq). rewrite bool_decide_true by done. cbn [when].
  unfold bind at 1 2. rewrite (pupd_ok pr upd_default q) by done. reflexivity.
Qed.
End Interrupt.

(** ** The end of a request *)

Definition freed (j : nat) (v : virtio) : virtio :=
  set_vd_free (<[j := true]> (vd_free v)) (set_vd_desc (<[j := MkDesc DmaNull 0 0 0]> (vd_desc v)) v).

Lemma length_wake_all ch me ps : length (wake_all ch me ps) = length ps.
Proof. unfold wake_all. by rewrite length_imap. Qed.

Section Tail.
Context (c : option nat) (bs : list buf) (D : gmap Z (list Z)) (W : list (Z * list Z)) (s : kstate).

Lemma put_free_desc ps v j :
  (j < 8)%nat -> vd_free v !! j = Some false -> length ps = 64%nat ->
  free_desc j (put [LkVdisk] c ps bs D W v s) =
    Ok tt (put [LkVdisk] c (wake_all ChDiskFree c ps) bs D W (freed j v) s).
Proof.
  intros Hj Hf Hl. unfold free_desc. replace (NUM <=? Z.of_nat j) with false by (symmetry; lia).
  unfold bind at 1. cbn [gets obind]. change (vdisk (put _ _ _ _ _ _ v s)) with v. rewrite Hf. cbn [deref].
  unfold bind at 1. cbn [ret obind]. unfold bind at 1, desc_set. rewrite put_vupd. cbn [obind].
  unfold bind at 1. rewrite put_vupd. cbn [obind]. apply put_wakeup; [set_solver|done].
Qed.

Lemma free_chain_step k ps v j d :
  (j < 8)%nat -> vd_free v !! j = Some false -> vd_desc v !! j = Some d -> length ps = 64%nat ->
  free_chain_loop (S k) j (put [LkVdisk] c ps bs D W v s) =
    (if negb (Z.land (d_flags d) VRING_DESC_F_NEXT =? 0) then free_chain_loop k (Z.to_nat (d_next d)) else ret tt)
      (put [LkVdisk] c (wake_all ChDiskFree c ps) bs D W (freed j v) s).
Proof.
  intros Hj Hf Hd Hl. cbn [free_chain_loop]. unfold bind at 1. cbn [gets obind].
  change (vdisk (put _ _ _ _ _ _ v s)) with v. rewrite Hd. cbn [deref]. unfold bind at 1. cbn [ret obind].
  by mstep (put_free_desc ps v j Hj Hf Hl).
Qed.

Lemma rw_tail_ok ps v d0 d1 d2 l :
  length ps = 64%nat -> vd_free v = [false; false; false] ++ replicate 5 true -> vd_desc v = d0 :: d1 :: d2 :: l ->
  Z.land (d_flags d0) 1 = 1 -> d_next d0 = 1 -> Z.land (d_flags d1) 1 = 1 -> d_next d1 = 2 -> Z.land (d_flags d2) 1 = 0 ->
  rw_tail (put [LkVdisk] c ps bs D W v s) =
    Ok tt (put [] c (wake_all ChDiskFree c (wake_all ChDiskFree c (wake_all ChDiskFree c ps))) bs D W
      (freed 2 (freed 1 (freed 0 (set_vd_info_b (<[0%nat := None]> (vd_info_b v)) v)))) s).
Proof.
  intros Hl Hf Hd F0 N0 F1 N1 F2. unfold rw_tail. unfold bind at 1. rewrite put_vupd. cbn [obind].
  set (v1 := set_vd_info_b _ v). assert (vd_free v1 = [false; false; false] ++ replicate 5 true) as Hf1 by done.
  assert (vd_desc v1 = d0 :: d1 :: d2 :: l) as Hd1 by done. clearbody v1. clear Hf Hd v. unfold free_chain.
  unfold bind. rewrite (free_chain_step 8 ps v1 0 d0), F0, N0 by (lia || by rewrite ?Hf1, ?Hd1 || done).
  change (negb (1 =? 0)) with true. cbv iota. change (Z.to_nat 1) with 1%nat.
  rewrite (free_chain_step 7 _ (freed 0 v1) 1 d1), F1, N1
    by (lia || by rewrite ?length_wake_all || (unfold freed; simpl; by rewrite ?Hf1, ?Hd1)).
  change (negb (1 =? 0)) with true. cbv iota. change (Z.to_nat 2) with 2%nat.
  rewrite (free_chain_step 6 _ (freed 1 (freed 0 v1)) 2 d2), F2
    by (lia || by rewrite ?length_wake_all || (unfold freed; simpl; by rewrite ?Hf1, ?Hd1)).
  change (negb (0 =? 0)) with false. cbn [ret obind]. by apply put_release; set_solver.
Qed.
End Tail.

(** What becomes of the processes: [pr], asleep on [ch], is woken and dispatched. *)
Lemma woken_sleeper ch pr q ps :
  ps !! pr = Some q -> p_state q = RUNNING -> p_chan q = None ->
  exists q', wake_all ch None (<[pr := asleep ch q]> ps) !! pr = Some q' /\ p_state q' = RUNNABLE /\
    woken (Some pr) ps (<[pr := set_p_chan None (upd_default q')]> (wake_all ch None (<[pr := asleep ch q]> ps))).
Proof.
  intros Hq Hst Hch. assert (Hlt : (pr < length ps)%nat) by (by eapply lookup_lt_Some).
  exists (set_p_state RUNNABLE (asleep ch q)).
  assert (E : wake_all ch None (<[pr := asleep ch q]> ps) !! pr = Some (set_p_state RUNNABLE (asleep ch q))).
  { unfold wake_all. rewrite list_lookup_imap, list_lookup_insert_eq by done. simpl. unfold wake_proc.
    by rewrite bool_decide_true. }
  split; [done|]. split; [done|]. split; [by rewrite length_insert, length_wake_all, length_insert|].
  intros j p Hp. destruct (decide (j = pr)) as [->|Hne].
  - assert (p = q) as -> by congruence. eexists. split; [apply list_lookup_insert_eq; by rewrite length_wake_all, length_insert|].
    left. split; [done|]. unfold same_proc, uncounted, upd_default, asleep. destruct q. simpl in *. by subst.
  - exists (wake_proc ch p). rewrite list_lookup_insert_ne by done. unfold wake_all.
    rewrite list_lookup_imap, list_lookup_insert_ne by done. rewrite Hp. split; [done|]. right. split; [congruence|].
    unfold wake_proc. case_bool_decide; [right|left]; naive_solver.
Qed.

Section Serves.
Context `{Build} `{DeviceOk}.

(** Buffer, disk and log of writes after the transfer of [b]. *)
Definition moved_buf (D : gmap Z (list Z)) (b : buf) (write : bool) : buf :=
  if write then b else set_b_data (default [] (D !! b_blockno b)) b.
Definition moved_disk (D : gmap Z (list Z)) (b : buf) (write : bool) : gmap Z (list Z) :=
  if write then <[b_blockno b := b_data b]> D else D.
Definition moved_log (W : list (Z * list Z)) (b : buf) (write : bool) : list (Z * list Z) :=
  if write then (b_blockno b, b_data b) :: W else W.

Lemma device_ok ps bs D W v s i b write :
  vd_idle v -> bs !! i = Some b -> is_Some (D !! b_blockno b) ->
  device (put [] None ps (<[i := set_b_disk true b]> bs) D W (queued i write (b_blockno b) v) s) =
    put [] None ps (<[i := set_b_disk true (moved_buf D b write)]> bs) (moved_disk D b write) (moved_log W b write)
      (completed 0 0 (queued i write (b_blockno b) v)) s.
Proof.
  intros Hv Hb Hd. erewrite (device_serves _ 0 0 i write (b_blockno b) (set_b_disk true b)).
  - destruct write; unfold moved, moved_buf, moved_disk, moved_log, put; kcbv; [reflexivity|].
    by rewrite list_insert_insert_eq.
  - by apply queued_pending.
  - apply list_lookup_insert_eq. by eapply lookup_lt_Some.
  - done.
Qed.

(** The handler has seen the entry of the used ring. *)
Definition answered (v : virtio) : virtio := set_vd_used_idx (u16 (vd_used_idx v + 1)) v.

Lemma answered_desc x st v : vd_desc (answered (completed x st v)) = vd_desc v.
Proof. reflexivity. Qed.

Lemma meanwhile_ok pr ps bs D W v s i b write q :
  vd_idle v -> bs !! i = Some b -> is_Some (D !! b_blockno b) -> length ps = 64%nat ->
  wake_all (ChBuf i) None ps !! pr = Some q -> p_state q = RUNNABLE ->
  meanwhile pr (put [LkProc pr] (Some pr) ps (<[i := set_b_disk true b]> bs) D W (queued i write (b_blockno b) v) s) =
    Ok tt (put [LkProc pr] (Some pr) (<[pr := upd_default q]> (wake_all (ChBuf i) None ps))
      (<[i := set_b_disk false (moved_buf D b write)]> bs) (moved_disk D b write) (moved_log W b write)
      (answered (completed 0 0 (queued i write (b_blockno b) v))) s).
Proof.
  intros Hv Hb Hd Hl Hq Hst. pose proof Hv as []. destruct vi_idx0 as [E1 E2].
  assert (i < length bs)%nat by (by eapply lookup_lt_Some). pose proof (Z.mod_pos_bound (vd_used_dev v) 8).
  unfold meanwhile. unfold bind at 1. rewrite put_cur. cbn [obind].
  unfold bind at 1. rewrite put_release by set_solver. cbn [obind]. unfold bind at 1. cbn [modify obind].
  rewrite device_ok by done. unfold bind. 
  erewrite disk_intr_one with (i := i) (b := set_b_disk true (moved_buf D b write)) (id := 0).
  - cbn [obind]. rewrite (dispatch_ok _ _ _ _ _ _ pr q) by done. rewrite list_insert_insert_eq. done.
  - done.
  - by apply list_lookup_insert_eq.
  - simpl. lia.
  - simpl. by rewrite E2.
  - simpl. rewrite E2. apply list_lookup_insert_eq. lia.
  - simpl. destruct (vd_info_status v); [discriminate|]. done.
  - simpl. destruct (vd_info_b v); [discriminate|]. done.
Qed.
(** The state that a request leaves the driver in. *)
Definition after (i : nat) (write : bool) (n : Z) (v : virtio) : virtio :=
  let v := answered (completed 0 0 (queued i write n v)) in
  freed 2 (freed 1 (freed 0 (set_vd_info_b (<[0%nat := None]> (vd_info_b v)) v))).

Lemma after_idle i write n v : vd_idle v -> vd_idle (after i write n v).
Proof.
  intros [I1 I2 I3 I4 I5 I6 I7 [E1 E2] I9]. destruct v as [v1 v2 v3 v4 v5 v6 v7 v8 v9 v10]. cbn in E1, E2, I4. subst v2 v6 v7.
  constructor; cbn -[Z.modulo insert length u16]; rewrite ?length_insert; try assumption; [reflexivity|done|].
  apply Z.mod_pos_bound. lia.
Qed.

(** [rw_wait] from a buffer whose request is queued: one sleep. *)
Lemma settle_wait pr q ps bs D W v s i b write :
  (0 < fuel)%nat -> vd_idle v -> bs !! i = Some b -> b_disk b = false -> is_Some (D !! b_blockno b) ->
  length ps = 64%nat -> ps !! pr = Some q -> p_state q = RUNNING -> p_chan q = None ->
  exists ps', woken (Some pr) ps ps' /\
    settle (meanwhile pr) ((rw_wait (S fuel) i ;; rw_tail)
      (put [LkVdisk] (Some pr) ps (<[i := set_b_disk true b]> bs) D W (queued i write (b_blockno b) v) s)) =
    Ok tt (put [] (Some pr) ps' (<[i := moved_buf D b write]> bs) (moved_disk D b write) (moved_log W b write)
      (after i write (b_blockno b) v) s).
Proof.
  intros Hf Hv Hb Hbd Hd Hl Hq Hst Hch. assert (i < length bs)%nat by (by eapply lookup_lt_Some).
  destruct (woken_sleeper (ChBuf i) pr q ps Hq Hst Hch) as (q' & Hq' & Hst' & Hwk). set (s1 := put _ _ _ _ _ _ _ s).
  destruct (sleep_run (ChBuf i) LkVdisk pr q s1) as (k & Hk & Hres); [done..|].
  cbn [rw_wait]. unfold bind. rewrite (buf_at_ok i (set_b_disk true b)) by (by apply list_lookup_insert_eq).
  cbn [obind b_disk set_b_disk]. rewrite Hk. cbn [obind settle].
  change (procs s1) with ps. unfold s1. rewrite put_sleep, (meanwhile_ok _ _ _ _ _ _ _ _ _ _ q') by (done || by rewrite length_insert).
  set (ps1 := wake_all _ _ _) in *. set (v3 := answered _). set (s3 := put _ _ _ _ _ _ _ s).
  assert (pr < length ps1)%nat by (by eapply lookup_lt_Some).
  rewrite (Hres s3 (upd_default q')) by (done || by apply list_lookup_insert_eq). cbn [obind].
  change (procs s3) with (<[pr := upd_default q']> ps1). unfold s3. rewrite put_woken, list_insert_insert_eq. destruct fuel as [|f]; [lia|]. cbn [rw_wait]. unfold bind.
  rewrite (buf_at_ok i (set_b_disk false (moved_buf D b write))) by (by apply list_lookup_insert_eq).
  cbn [obind b_disk set_b_disk ret]. eexists. split; [|].
  2: { destruct (queued_desc i write (b_blockno b) v (vi_desc _ Hv)) as [l Hl3]. erewrite rw_tail_ok with (v := v3).
    - cbn [settle]. replace (set_b_disk false (moved_buf D b write)) with (moved_buf D b write); [reflexivity|].
      destruct write, b; simpl in *; by subst.
    - rewrite length_insert. unfold ps1. by rewrite length_wake_all, length_insert.
    - reflexivity.
    - unfold v3. rewrite answered_desc. exact Hl3.
    - reflexivity.
    - reflexivity.
    - by destruct write.
    - reflexivity.
    - reflexivity. }
  repeat (eapply woken_trans; [|apply woken_wake_all]). exact Hwk.
Qed.
Lemma put_self s pr : cur s = Some pr -> held s = [] ->
  s = put [] (Some pr) (procs s) (bcache s) (disk s) (disk_writes s) (vdisk s) s.
Proof. destruct s. cbn. by intros -> ->. Qed.

Lemma put_transfer s pr ps v i b write :
  cur s = Some pr -> held s = [] -> bcache s !! i = Some b ->
  put [] (Some pr) ps (<[i := moved_buf (disk s) b write]> (bcache s)) (moved_disk (disk s) b write)
    (moved_log (disk_writes s) b write) v s = transfer i b write (set_procs ps (set_vdisk v s)).
Proof.
  intros Hc Hh Hb. destruct write; unfold moved_buf, moved_disk, moved_log, transfer, put.
  - rewrite list_insert_id by done. rewrite <- Hc, <- Hh. state_eq s.
  - rewrite <- Hc, <- Hh. state_eq s.
Qed.

Lemma disk_rw_transfer s pr p i b write :
  (0 < fuel)%nat -> running s pr p -> vd_idle (vdisk s) -> bcache s !! i = Some b -> b_disk b = false ->
  is_Some (disk s !! b_blockno b) -> disk_range (disk s) ->
  exists ps vd, woken (Some pr) (procs s) ps /\ vd_idle vd /\
    settle (meanwhile pr) (disk_rw i write s) = Ok tt (transfer i b write (set_procs ps (set_vdisk vd s))).
Proof.
  intros Hf Hr Hv Hb Hbd Hd Hrg. destruct (running_now _ _ _ Hr) as (q & Hq & [R1 _ R3 R4 R5 R6]).
  destruct (settle_wait pr q (procs s) (bcache s) (disk s) (disk_writes s) (vdisk s) s i b write) as (ps & Hw & E); [done..|].
  exists ps, (after i write (b_blockno b) (vdisk s)). split; [done|]. split; [by apply after_idle|].
  rewrite <- (put_transfer s pr) by done. rewrite <- E. f_equal. rewrite (put_self s pr R1 R4) at 1.
  apply disk_rw_request; [apply Hv|done|by apply Hrg].
Qed.


(** The disk of the buffer cache. *)
Definition served_disk : Disk := {|
  virtio_disk_rw i write s :=
    match cur s with Some pr => settle (meanwhile pr) (disk_rw i write s) | None => UB "myproc" end;
  disk_idle := vd_idle
|}.

Lemma served_disk_ok : (0 < fuel)%nat -> @DiskOk served_disk.
Proof.
  intros Hf. constructor. intros s pr p i b write Hr Hv Hb Hbd Hd Hrg. cbn. rewrite (run_cur _ _ _ Hr).
  by eapply disk_rw_transfer.
Qed.
End Serves.

(** ** A device for evaluating the definitions *)

(** It follows the chain at the head of the queue. *)
Definition virtio_blk (s : kstate) : kstate :=
  let v := vdisk s in
  let at_desc z := match vd_desc v !! Z.to_nat z with Some d => d | None => MkDesc DmaNull 0 0 0 end in
  match vd_avail v !! Z.to_nat (vd_used_dev v mod NUM) with
  | Some x =>
      let d0 := at_desc x in
      let d1 := at_desc (d_next d0) in
      let d2 := at_desc (d_next d1) in
      match d_addr d0, d_addr d1, d_addr d2 with
      | DmaOp o, DmaData i, DmaStatus st =>
          match vd_ops v !! o, bcache s !! i with
          | Some r, Some b =>
              set_vdisk (completed (Z.to_nat x) st v)
                (moved i b (op_type r =? VIRTIO_BLK_T_OUT) (op_sector r / 2) s)
          | _, _ => s
          end
      | _, _, _ => s
      end
  | None => s
  end.

Definition demo_device : Device := {| device := virtio_blk |}.

Lemma demo_device_ok : @DeviceOk demo_device.
Proof.
  intros s x st i write n b (_ & Hx & y & z & o & H0 & Ho & H1 & H2) Hb _. cbn. unfold virtio_blk.
  rewrite Hx, !Nat2Z.id, H0. cbn [d_next d_addr]. rewrite !Nat2Z.id, H1. cbn [d_next d_addr].
  rewrite !Nat2Z.id, H2. cbn [d_addr]. rewrite Ho, Hb. cbn [op_type op_sector].
  replace (2 * n / 2) with n by (rewrite Z.mul_comm, Z.div_mul; lia). by destruct write.
Qed.

Definition demo_driver : virtio := set_vd_free (replicate 8 true) zero_vdisk.

