(* ===== verification/Fs.v ===== *)
(** * The file system

    [kernel/fs.c]: the allocator of disk blocks, inodes and their contents,
    directories and path names, over the log and the buffer cache; and
    [either_copyout], [either_copyin] of [kernel/proc.c], which it uses to move data.

    On-disk structures are read and written in the bytes of their block.  A local
    variable whose address is taken ([struct dirent de], [char name[DIRSIZ]]) is
    the list of its bytes: reading into one returns the bytes. *)

From stdpp Require Import gmap strings list fin_maps.
From S2P Require Import Prelude Layout State Sched Cstring Kalloc Vm Block Bio Log.

(** ** Moving data *)

(** The destination of [readi]: a user address, a kernel address, or a local
    variable, whose new contents are returned. *)
Inductive dest : Type := ToUser (va : Z) | ToKernel (pa : Z) | ToLocal.
(** The source of [writei]. *)
Inductive source : Type := FromUser (va : Z) | FromLocal (bytes : list Z).

Definition either_copyout `{Build} (d : dest) (src : list Z) : K Z :=
  match d with
  | ToUser va =>
      let! p := curproc in
      let! pr := pget p in
      copyout (p_pagetable pr) va src
  | ToKernel pa => modify (fun s => set_mem (stl (mem s) pa src) s) ;; ret 0
  | ToLocal => ret 0
  end.

(** The code and the bytes copied. *)
Definition either_copyin `{Build} (src : source) (len : Z) : K (Z * list Z) :=
  match src with
  | FromUser va =>
      let! p := curproc in
      let! pr := pget p in
      copyin (p_pagetable pr) va len
  | FromLocal bytes => ret (0, take (Z.to_nat len) bytes)
  end.

Definition dest_add (d : dest) (m : Z) : dest :=
  match d with ToUser va => ToUser (u64 (va + m)) | ToKernel pa => ToKernel (u64 (pa + m)) | ToLocal => ToLocal end.
Definition source_add (s : source) (m : Z) : source :=
  match s with FromUser va => FromUser (u64 (va + m)) | FromLocal l => FromLocal (drop (Z.to_nat m) l) end.

Section Fs.
Context `{Build} `{Disk}.

(** ** The superblock *)

Definition sb_of (data : list Z) : superblock :=
  MkSuperblock (get32 0 data) (get32 4 data) (get32 8 data) (get32 12 data) (get32 16 data)
    (get32 20 data) (get32 24 data) (get32 28 data).

Definition readsb (dev : Z) : K unit :=
  let! bp := bread dev 1 in
  let! b := buf_at bp in
  modify (set_sb (sb_of (b_data b))) ;;
  brelse bp.

Definition fsinit (dev : Z) : K unit :=
  readsb dev ;;
  let! sb := gets sb in
  if negb (sb_magic sb =? FSMAGIC) then panic "invalid file system" else
  initlog dev sb.

(** ** Blocks *)

Definition BBLOCK (b : Z) (sb : superblock) : Z := u32 (b / BPB + sb_bmapstart sb).
Definition IBLOCK (i : Z) (sb : superblock) : Z := u32 (i / IPB + sb_inodestart sb).

(** Assigning to the bytes of buffer [bp]. *)
Definition bdata (bp : nat) (f : list Z -> list Z) : K unit :=
  bupd bp (fun b => set_b_data (f (b_data b)) b).

Definition bzero (dev bno : Z) : K unit :=
  let! bp := bread dev (u32 bno) in
  bdata bp (fun _ => replicate (Z.to_nat BSIZE) 0) ;;
  log_write bp ;;
  brelse bp.

(** Bit [bi] of a bitmap block. *)
Definition bit_mask (bi : Z) : Z := Z.shiftl 1 (bi mod 8).
Definition bit_byte (bi : Z) (data : list Z) : Z := default 0 (data !! Z.to_nat (bi / 8)).
Definition bit_free (bi : Z) (data : list Z) : bool := Z.land (bit_byte bi data) (bit_mask bi) =? 0.
Definition set_bit (bi : Z) (data : list Z) : list Z :=
  <[Z.to_nat (bi / 8) := u8 (Z.lor (bit_byte bi data) (bit_mask bi))]> data.
Definition clear_bit (bi : Z) (data : list Z) : list Z :=
  <[Z.to_nat (bi / 8) := u8 (Z.land (bit_byte bi data) (Z.lnot (bit_mask bi)))]> data.

(** [balloc]'s loop over the bits of the block for [b]: the first free one, with
    [k] bits left to look at. *)
Fixpoint balloc_bits (k : nat) (bi b size : Z) (data : list Z) : option Z :=
  match k with
  | O => None
  | S k =>
      if b + bi <? size then
        if bit_free bi data then Some bi else balloc_bits k (bi + 1) b size data
      else None
  end.

(** Its loop over the bitmap blocks. *)
Fixpoint balloc_loop (k : nat) (dev b : Z) : K Z :=
  let! sb := gets sb in
  if b <? sb_size sb then
    match k with
    | O => no_fuel
    | S k =>
        let! bp := bread dev (BBLOCK b sb) in
        let! buf := buf_at bp in
        match balloc_bits (Z.to_nat BPB) 0 b (sb_size sb) (b_data buf) with
        | Some bi =>
            bdata bp (set_bit bi) ;;
            log_write bp ;;
            brelse bp ;;
            bzero dev (b + bi) ;;
            ret (b + bi)
        | None =>
            brelse bp ;;
            balloc_loop k dev (b + BPB)
        end
    end
  else panic "balloc: out of blocks".

Definition balloc (dev : Z) : K Z :=
  let! sb := gets sb in
  balloc_loop (Z.to_nat (sb_size sb / BPB + 1)) dev 0.

Definition bfree (dev b : Z) : K unit :=
  let! sb := gets sb in
  let! bp := bread (u32 dev) (BBLOCK b sb) in
  let bi := b mod BPB in
  let! buf := buf_at bp in
  if bit_free bi (b_data buf) then panic "freeing free block" else
  bdata bp (clear_bit bi) ;;
  log_write bp ;;
  brelse bp.

(** ** Inodes *)

Definition inode_at (i : nat) : K inode := fun s =>
  match itable s !! i with Some ip => Ok ip s | None => UB "inode" end.
Definition iupd (i : nat) (f : inode -> inode) : K unit := fun s =>
  match itable s !! i with
  | Some _ => Ok tt (set_itable (alter f i (itable s)) s)
  | None => UB "inode"
  end.

Definition all_inodes : list nat := seq 0 50.

Definition iinit : K unit := for_each all_inodes (fun i => initsleeplock (SlInode i)).

(** [(struct dinode* )bp->data + inum%IPB]: the offset of the inode's 64 bytes. *)
Definition dinode_off (inum : Z) : nat := Z.to_nat (64 * (inum mod IPB)).

(** The fields of [struct dinode] at offset [o]. *)
Definition di_type (o : nat) (data : list Z) : Z := s16 (get16 o data).
Definition di_addrs (o : nat) (data : list Z) : list Z :=
  (fun k => get32 (o + 12 + 4 * k) data) <$> seq 0 13.

(** [memset(dip, 0, sizeof( *dip)); dip->type = type]. *)
Definition init_dinode (o : nat) (type : Z) (data : list Z) : list Z :=
  put16 o type (splice o (replicate 64 0) data).

(** [memmove(dip->addrs, ip->addrs, sizeof(ip->addrs))]. *)
Fixpoint put_addrs (o : nat) (addrs : list Z) (data : list Z) : list Z :=
  match addrs with
  | [] => data
  | a :: addrs => put_addrs (o + 4) addrs (put32 o a data)
  end.

(** The assignments of [iupdate]. *)
Definition put_dinode (o : nat) (ip : inode) (data : list Z) : list Z :=
  put_addrs (o + 12) (i_addrs ip) (put32 (o + 8) (i_size ip) (put16 (o + 6) (i_nlink ip)
    (put16 (o + 4) (i_minor ip) (put16 (o + 2) (i_major ip) (put16 o (i_type ip) data))))).

(** The assignments of [ilock]. *)
Definition load_dinode (o : nat) (data : list Z) (ip : inode) : inode :=
  set_i_addrs (di_addrs o data) (set_i_size (get32 (o + 8) data) (set_i_nlink (s16 (get16 (o + 6) data))
    (set_i_minor (s16 (get16 (o + 4) data)) (set_i_major (s16 (get16 (o + 2) data))
      (set_i_type (di_type o data) ip))))).

(** [iget]'s loop: the entry of the inode, or the first unused entry seen. *)
Fixpoint iget_loop (l : list nat) (dev inum : Z) (empty : option nat) : K (nat + option nat) :=
  match l with
  | [] => ret (inr empty)
  | i :: l =>
      let! ip := inode_at i in
      if (0 <? i_ref ip) && (i_dev ip =? dev) && (i_inum ip =? inum) then ret (inl i)
      else
        iget_loop l dev inum
          (if bool_decide (empty = None) && (i_ref ip =? 0) then Some i else empty)
  end.

Definition iget (dev inum : Z) : K nat :=
  acquire LkItable ;;
  let! r := iget_loop all_inodes dev inum None in
  match r with
  | inl i =>
      iupd i (fun ip => set_i_ref (i_ref ip + 1) ip) ;;
      release LkItable ;;
      ret i
  | inr None => panic "iget: no inodes"
  | inr (Some i) =>
      iupd i (fun ip => set_i_valid false (set_i_ref 1 (set_i_inum inum (set_i_dev dev ip)))) ;;
      release LkItable ;;
      ret i
  end.

(** [ialloc]'s loop, with [k] inodes left from [inum] on. *)
Fixpoint ialloc_loop (k : nat) (dev type inum : Z) : K nat :=
  match k with
  | O => panic "ialloc: no inodes"
  | S k =>
      let! sb := gets sb in
      let! bp := bread dev (IBLOCK inum sb) in
      let! b := buf_at bp in
      if di_type (dinode_off inum) (b_data b) =? 0 then
        bdata bp (init_dinode (dinode_off inum) type) ;;
        log_write bp ;;
        brelse bp ;;
        iget dev inum
      else
        brelse bp ;;
        ialloc_loop k dev type (inum + 1)
  end.

Definition ialloc (dev type : Z) : K nat :=
  let! sb := gets sb in
  ialloc_loop (Z.to_nat (sb_ninodes sb - 1)) dev type 1.

Definition iupdate (i : nat) : K unit :=
  let! ip := inode_at i in
  let! sb := gets sb in
  let! bp := bread (i_dev ip) (IBLOCK (i_inum ip) sb) in
  let! ip := inode_at i in
  bdata bp (put_dinode (dinode_off (i_inum ip)) ip) ;;
  log_write bp ;;
  brelse bp.

Definition idup (i : nat) : K nat :=
  acquire LkItable ;;
  iupd i (fun ip => set_i_ref (i_ref ip + 1) ip) ;;
  release LkItable ;;
  ret i.

Definition ilock (o : option nat) : K unit :=
  match o with
  | None => panic "ilock"
  | Some i =>
      let! ip := inode_at i in
      if i_ref ip <? 1 then panic "ilock" else
      acquiresleep (SlInode i) ;;
      let! ip := inode_at i in
      if i_valid ip then ret tt
      else
        let! sb := gets sb in
        let! bp := bread (i_dev ip) (IBLOCK (i_inum ip) sb) in
        let! b := buf_at bp in
        iupd i (load_dinode (dinode_off (i_inum ip)) (b_data b)) ;;
        brelse bp ;;
        iupd i (set_i_valid true) ;;
        let! ip := inode_at i in
        if i_type ip =? 0 then panic "ilock: no type" else ret tt
  end.

Definition iunlock (o : option nat) : K unit :=
  match o with
  | None => panic "iunlock"
  | Some i =>
      let! h := holdingsleep (SlInode i) in
      if negb h then panic "iunlock" else
      let! ip := inode_at i in
      if i_ref ip <? 1 then panic "iunlock" else
      releasesleep (SlInode i)
  end.

(** [bfree] of the non-zero blocks listed in [addrs]. *)
Fixpoint free_blocks (dev : Z) (addrs : list Z) : K unit :=
  match addrs with
  | [] => ret tt
  | a :: addrs => when (negb (a =? 0)) (bfree dev a) ;; free_blocks dev addrs
  end.

(** The loop of [itrunc] over the direct blocks. *)
Fixpoint trunc_direct (i : nat) (l : list nat) : K unit :=
  match l with
  | [] => ret tt
  | k :: l =>
      let! ip := inode_at i in
      let! a := deref "ip->addrs" (i_addrs ip !! k) in
      when (negb (a =? 0))
        (bfree (i_dev ip) a ;;
         iupd i (fun ip => set_i_addrs (<[k := 0]> (i_addrs ip)) ip)) ;;
      trunc_direct i l
  end.

Definition itrunc (i : nat) : K unit :=
  trunc_direct i (seq 0 12) ;;
  let! ip := inode_at i in
  let! ind := deref "ip->addrs" (i_addrs ip !! 12%nat) in
  when (negb (ind =? 0))
    (let! bp := bread (i_dev ip) ind in
     let! b := buf_at bp in
     free_blocks (i_dev ip) ((fun j => get32 (4 * j) (b_data b)) <$> seq 0 256) ;;
     brelse bp ;;
     bfree (i_dev ip) ind ;;
     iupd i (fun ip => set_i_addrs (<[12%nat := 0]> (i_addrs ip)) ip)) ;;
  iupd i (set_i_size 0) ;;
  iupdate i.

Definition iput (i : nat) : K unit :=
  acquire LkItable ;;
  let! ip := inode_at i in
  when ((i_ref ip =? 1) && i_valid ip && (i_nlink ip =? 0))
    (acquiresleep (SlInode i) ;;
     release LkItable ;;
     itrunc i ;;
     iupd i (set_i_type 0) ;;
     iupdate i ;;
     iupd i (set_i_valid false) ;;
     releasesleep (SlInode i) ;;
     acquire LkItable) ;;
  iupd i (fun ip => set_i_ref (i_ref ip - 1) ip) ;;
  release LkItable.

Definition iunlockput (i : nat) : K unit :=
  iunlock (Some i) ;;
  iput i.

(** ** Contents *)

Definition bmap (i : nat) (bn : Z) : K Z :=
  let! ip := inode_at i in
  if bn <? NDIRECT then
    let! addr := deref "ip->addrs" (i_addrs ip !! Z.to_nat bn) in
    if addr =? 0 then
      let! addr := balloc (i_dev ip) in
      iupd i (fun ip => set_i_addrs (<[Z.to_nat bn := addr]> (i_addrs ip)) ip) ;;
      ret addr
    else ret addr
  else
    let bn := u32 (bn - NDIRECT) in
    if bn <? NINDIRECT then
      let! ind := deref "ip->addrs" (i_addrs ip !! 12%nat) in
      let! ind :=
        (if ind =? 0 then
           let! addr := balloc (i_dev ip) in
           iupd i (fun ip => set_i_addrs (<[12%nat := addr]> (i_addrs ip)) ip) ;;
           ret addr
         else ret ind) in
      let! bp := bread (i_dev ip) ind in
      let! b := buf_at bp in
      let addr := get32 (4 * Z.to_nat bn) (b_data b) in
      if addr =? 0 then
        let! addr := balloc (i_dev ip) in
        bdata bp (put32 (4 * Z.to_nat bn) addr) ;;
        log_write bp ;;
        brelse bp ;;
        ret addr
      else
        brelse bp ;;
        ret addr
    else panic "bmap: out of range".

(** kernel/stat.h: [struct stat]. *)
Record stat : Type := MkStat { st_dev : Z; st_ino : Z; st_type : Z; st_nlink : Z; st_size : Z }.

Definition stati (i : nat) : K stat :=
  let! ip := inode_at i in
  ret (MkStat (i_dev ip) (i_inum ip) (i_type ip) (i_nlink ip) (i_size ip)).

(** The loop of [readi] with [k] blocks left: the value of [tot] and the bytes
    put in a local destination. *)
Fixpoint readi_loop (k : nat) (i : nat) (dst : dest) (off n tot : Z) : K (Z * list Z) :=
  if tot <? n then
    match k with
    | O => no_fuel
    | S k =>
        let! ip := inode_at i in
        let! addr := bmap i (off / BSIZE) in
        let! bp := bread (i_dev ip) addr in
        let m := Z.min (n - tot) (BSIZE - off mod BSIZE) in
        let! b := buf_at bp in
        let bytes := bytes_at (Z.to_nat (off mod BSIZE)) (Z.to_nat m) (b_data b) in
        let! r := either_copyout dst bytes in
        if r =? -1 then
          brelse bp ;;
          ret (-1, [])
        else
          brelse bp ;;
          let! (t, l) := readi_loop k i (dest_add dst m) (off + m) n (tot + m) in
          ret (t, bytes ++ l)
    end
  else ret (tot, []).

Definition readi (i : nat) (dst : dest) (off n : Z) : K (Z * list Z) :=
  let! ip := inode_at i in
  if (i_size ip <? off) || (u32 (off + n) <? off) then ret (0, []) else
  let n := if i_size ip <? u32 (off + n) then i_size ip - off else n in
  readi_loop (Z.to_nat (n / BSIZE + 2)) i dst off n 0.

(** The loop of [writei]: the values of [tot] and [off]. *)
Fixpoint writei_loop (k : nat) (i : nat) (src : source) (off n tot : Z) : K (Z * Z) :=
  if tot <? n then
    match k with
    | O => no_fuel
    | S k =>
        let! ip := inode_at i in
        let! addr := bmap i (off / BSIZE) in
        let! bp := bread (i_dev ip) addr in
        let m := Z.min (n - tot) (BSIZE - off mod BSIZE) in
        let! (r, bytes) := either_copyin src m in
        bdata bp (splice (Z.to_nat (off mod BSIZE)) bytes) ;;
        if r =? -1 then
          brelse bp ;;
          ret (tot, off)
        else
          log_write bp ;;
          brelse bp ;;
          writei_loop k i (source_add src m) (off + m) n (tot + m)
    end
  else ret (tot, off).

Definition writei (i : nat) (src : source) (off n : Z) : K Z :=
  let! ip := inode_at i in
  if (i_size ip <? off) || (u32 (off + n) <? off) then ret (-1) else
  if MAXFILE * BSIZE <? u32 (off + n) then ret (-1) else
  let! (tot, off) := writei_loop (Z.to_nat (n / BSIZE + 2)) i src off n 0 in
  let! ip := inode_at i in
  when (i_size ip <? off) (iupd i (set_i_size off)) ;;
  iupdate i ;;
  ret tot.

(** ** Directories *)

(** [struct dirent]: the inode number and the name in its 16 bytes. *)
Definition de_inum (de : list Z) : Z := get16 0 de.
Definition de_name (de : list Z) : list Z := drop 2 de.

Definition namecmp (s t : list Z) : K Z := deref "namecmp" (strncmp s t 14).

(** How often the loops over directory entries turn at most: past the last byte
    that a file can have, [bmap] panics. *)
Definition dir_turns : nat := Z.to_nat (MAXFILE * BSIZE / 16 + 1).

(** The loop of [dirlookup]: the inode and the offset of its entry. *)
Fixpoint dirlookup_loop (k : nat) (dp : nat) (name : list Z) (off : Z) : K (option (nat * Z)) :=
  let! d := inode_at dp in
  if off <? i_size d then
    match k with
    | O => no_fuel
    | S k =>
        let! (r, de) := readi dp ToLocal off 16 in
        if negb (r =? 16) then panic "dirlookup read" else
        if de_inum de =? 0 then dirlookup_loop k dp name (off + 16) else
        let! c := namecmp name (de_name de) in
        if c =? 0 then
          let! i := iget (i_dev d) (de_inum de) in
          ret (Some (i, off))
        else dirlookup_loop k dp name (off + 16)
    end
  else ret None.

Definition dirlookup (dp : nat) (name : list Z) : K (option (nat * Z)) :=
  let! d := inode_at dp in
  if negb (i_type d =? T_DIR) then panic "dirlookup not DIR" else
  dirlookup_loop dir_turns dp name 0.

(** The loop of [dirlink]: the offset of the first empty entry and the bytes left
    in [de]. *)
Fixpoint dirlink_loop (k : nat) (dp : nat) (de : list Z) (off : Z) : K (Z * list Z) :=
  let! d := inode_at dp in
  if off <? i_size d then
    match k with
    | O => no_fuel
    | S k =>
        let! (r, de) := readi dp ToLocal off 16 in
        if negb (r =? 16) then panic "dirlink read" else
        if de_inum de =? 0 then ret (off, de) else dirlink_loop k dp de (off + 16)
    end
  else ret (off, de).

Definition dirlink (dp : nat) (name : list Z) (inum : Z) : K Z :=
  let! o := dirlookup dp name in
  match o with
  | Some (ip, _) => iput ip ;; ret (-1)
  | None =>
      let! (off, de) := dirlink_loop dir_turns dp (replicate 16 0) 0 in
      let! nm := deref "strncpy" (strncpy (de_name de) name 14) in
      let! r := writei dp (FromLocal (put16 0 inum (take 2 de ++ nm))) off 16 in
      if negb (r =? 16) then panic "dirlink" else ret 0
  end.

(** ** Paths

    A path is the list of its characters up to the NUL. *)

Definition chr_slash : Z := 47.

(** [while( *path == '/') path++;] *)
Fixpoint skip_slashes (path : list Z) : list Z :=
  match path with
  | c :: path' => if c =? chr_slash then skip_slashes path' else path
  | [] => []
  end.

(** [while( *path != '/' && *path != 0) path++;]: the characters passed and the rest. *)
Fixpoint take_elem (path : list Z) : list Z * list Z :=
  match path with
  | c :: path' =>
      if c =? chr_slash then ([], path)
      else let '(s, rest) := take_elem path' in (c :: s, rest)
  | [] => ([], [])
  end.

(** The new contents of [name] and the rest of the path. *)
Definition skipelem (path name : list Z) : option (list Z * list Z) :=
  let path := skip_slashes path in
  if bool_decide (path = []) then None
  else
    let '(s, path) := take_elem path in
    let name :=
      if DIRSIZ <=? Z.of_nat (length s) then splice 0 (take 14 s) name
      else splice 0 (s ++ [0]) name in
    Some (name, skip_slashes path).

(** The loop of [namex]: the inode and the contents of [name]. *)
Fixpoint namex_loop (k : nat) (nameiparent : bool) (ip : nat) (path name : list Z) : K (option nat * list Z) :=
  match skipelem path name with
  | None =>
      if nameiparent then iput ip ;; ret (None, name) else ret (Some ip, name)
  | Some (name, path) =>
      match k with
      | O => no_fuel
      | S k =>
          ilock (Some ip) ;;
          let! d := inode_at ip in
          if negb (i_type d =? T_DIR) then
            iunlockput ip ;;
            ret (None, name)
          else if nameiparent && bool_decide (path = []) then
            iunlock (Some ip) ;;
            ret (Some ip, name)
          else
            let! o := dirlookup ip name in
            match o with
            | None =>
                iunlockput ip ;;
                ret (None, name)
            | Some (next, _) =>
                iunlockput ip ;;
                namex_loop k nameiparent next path name
            end
      end
  end.

Definition namex (path : list Z) (nameiparent : bool) (name : list Z) : K (option nat * list Z) :=
  let! ip :=
    (if bool_decide (head path = Some chr_slash) then iget ROOTDEV ROOTINO
     else
       let! p := curproc in
       let! pr := pget p in
       let! cwd := deref "cwd" (p_cwd pr) in
       idup cwd) in
  namex_loop (length path) nameiparent ip path name.

Definition namei (path : list Z) : K (option nat) :=
  let! (ip, _) := namex path false (replicate 14 0) in ret ip.

Definition nameiparent (path name : list Z) : K (option nat * list Z) := namex path true name.
End Fs.
