(* ===== verification/Dinode.v ===== *)
(** * Inodes on the disk

    The 64 bytes of [struct dinode]: [ilock] loads what [iupdate] stores, and the other
    inodes of the block keep theirs. *)

From stdpp Require Import list.
From S2P Require Import Prelude Layout State Block Fs.

Lemma dinode_off_range inum : (dinode_off inum + 64 <= 1024)%nat.
Proof. unfold dinode_off. pose proof (Z.mod_pos_bound inum 16 ltac:(lia)). lia. Qed.

Lemma length_put_addrs addrs : forall o l,
  (o + 4 * length addrs <= length l)%nat -> length (put_addrs o addrs l) = length l.
Proof.
  induction addrs as [|a addrs IH]; simpl; intros o l Hl; [done|].
  rewrite IH; rewrite length_put32 by lia; [done|lia].
Qed.

Lemma bytes_at_put16 off n off' v l : (off' + 2 <= length l)%nat -> (off + n <= off' \/ off' + 2 <= off)%nat ->
  bytes_at off n (put16 off' v l) = bytes_at off n l.
Proof. intros. apply bytes_at_splice_ne; by rewrite length_le_bytes. Qed.

Lemma bytes_at_put32 off n off' v l : (off' + 4 <= length l)%nat -> (off + n <= off' \/ off' + 4 <= off)%nat ->
  bytes_at off n (put32 off' v l) = bytes_at off n l.
Proof. intros. apply bytes_at_splice_ne; by rewrite length_le_bytes. Qed.

(** Bytes that the addresses do not touch. *)
Lemma bytes_at_put_addrs addrs : forall o off n l, (o + 4 * length addrs <= length l)%nat ->
  (off + n <= o \/ o + 4 * length addrs <= off)%nat -> bytes_at off n (put_addrs o addrs l) = bytes_at off n l.
Proof.
  induction addrs as [|a addrs IH]; simpl; intros o off n l Hl Hn; [done|].
  rewrite IH; [|rewrite length_put32 by lia; lia|lia]. apply bytes_at_put32; lia.
Qed.

Lemma get32_put_addrs addrs : forall o l k a, (o + 4 * length addrs <= length l)%nat -> addrs !! k = Some a ->
  get32 (o + 4 * k) (put_addrs o addrs l) = u32 a.
Proof.
  induction addrs as [|b addrs IH]; intros o l k a Hl Hk; [done|]. cbn [put_addrs length] in *. destruct k as [|k].
  - injection Hk as ->. unfold get32 at 1. rewrite bytes_at_put_addrs; [|rewrite length_put32 by lia; lia|lia].
    replace (o + 4 * 0)%nat with o by lia. apply get32_put32_eq. lia.
  - rewrite <- (IH (o + 4)%nat (put32 o b l) k a); [f_equal; lia|rewrite length_put32 by lia; lia|done].
Qed.

(** The fields have the range of their types. *)
Record dinode_fits (ip : inode) : Prop := {
  df_type : - 2 ^ 15 <= i_type ip < 2 ^ 15;
  df_major : - 2 ^ 15 <= i_major ip < 2 ^ 15;
  df_minor : - 2 ^ 15 <= i_minor ip < 2 ^ 15;
  df_nlink : - 2 ^ 15 <= i_nlink ip < 2 ^ 15;
  df_size : 0 <= i_size ip < 2 ^ 32;
  df_len : length (i_addrs ip) = 13%nat;
  df_addrs : Forall (fun a => 0 <= a < 2 ^ 32) (i_addrs ip)
}.

Lemma s16_u16 x : - 2 ^ 15 <= x < 2 ^ 15 -> s16 (u16 x) = x.
Proof.
  intros Hx. unfold s16, u16. rewrite Zplus_mod_idemp_l. rewrite Z.mod_small by lia. lia.
Qed.

Section Dinode.
Variables (o : nat) (ip : inode) (d : list Z).
Hypotheses (Hf : dinode_fits ip) (Ho : (o + 64 <= length d)%nat).

Abbreviation d0 := (put16 o (i_type ip) d).
Abbreviation d1 := (put16 (o + 2) (i_major ip) d0).
Abbreviation d2 := (put16 (o + 4) (i_minor ip) d1).
Abbreviation d3 := (put16 (o + 6) (i_nlink ip) d2).
Abbreviation d4 := (put32 (o + 8) (i_size ip) d3).

Lemma length_d0 : length d0 = length d. Proof. apply length_put16. lia. Qed.
Lemma length_d1 : length d1 = length d. Proof. rewrite length_put16; rewrite length_d0; lia. Qed.
Lemma length_d2 : length d2 = length d. Proof. rewrite length_put16; rewrite length_d1; lia. Qed.
Lemma length_d3 : length d3 = length d. Proof. rewrite length_put16; rewrite length_d2; lia. Qed.
Lemma length_d4 : length d4 = length d. Proof. rewrite length_put32; rewrite length_d3; lia. Qed.

Lemma length_put_dinode : length (put_dinode o ip d) = length d.
Proof. unfold put_dinode. rewrite length_put_addrs; rewrite length_d4; [done|]. rewrite (df_len _ Hf). lia. Qed.

(** The bytes that are not the inode's. *)
Lemma bytes_at_put_dinode off n : (off + n <= o \/ o + 64 <= off)%nat ->
  bytes_at off n (put_dinode o ip d) = bytes_at off n d.
Proof.
  intros Hn. unfold put_dinode. rewrite bytes_at_put_addrs; rewrite ?length_d4, ?(df_len _ Hf); [|lia..].
  rewrite bytes_at_put32 by (rewrite ?length_d3; lia). rewrite bytes_at_put16 by (rewrite ?length_d2; lia).
  rewrite bytes_at_put16 by (rewrite ?length_d1; lia). rewrite bytes_at_put16 by (rewrite ?length_d0; lia).
  by rewrite bytes_at_put16 by lia.
Qed.

Lemma get_d4 off n : (off + n <= o + 12)%nat -> bytes_at off n (put_dinode o ip d) = bytes_at off n d4.
Proof. intros Hn. unfold put_dinode. apply bytes_at_put_addrs; rewrite ?length_d4, (df_len _ Hf); lia. Qed.

Lemma get_size : get32 (o + 8) (put_dinode o ip d) = i_size ip.
Proof.
  unfold get32 at 1. rewrite get_d4 by lia. rewrite <- (u32_small (i_size ip)) at 2 by apply Hf.
  apply get32_put32_eq. rewrite length_d3. lia.
Qed.

Lemma get_nlink : s16 (get16 (o + 6) (put_dinode o ip d)) = i_nlink ip.
Proof.
  unfold get16 at 1. rewrite get_d4, bytes_at_put32 by (rewrite ?length_d3; lia). rewrite <- (s16_u16 (i_nlink ip)) at 2 by apply Hf.
  f_equal. apply get16_put16_eq. rewrite length_d2. lia.
Qed.

Lemma get_minor : s16 (get16 (o + 4) (put_dinode o ip d)) = i_minor ip.
Proof.
  unfold get16 at 1. rewrite get_d4, bytes_at_put32, bytes_at_put16 by (rewrite ?length_d3, ?length_d2; lia).
  rewrite <- (s16_u16 (i_minor ip)) at 2 by apply Hf. f_equal. apply get16_put16_eq. rewrite length_d1. lia.
Qed.

Lemma get_major : s16 (get16 (o + 2) (put_dinode o ip d)) = i_major ip.
Proof.
  unfold get16 at 1. rewrite get_d4, bytes_at_put32, !bytes_at_put16 by (rewrite ?length_d3, ?length_d2, ?length_d1; lia).
  rewrite <- (s16_u16 (i_major ip)) at 2 by apply Hf. f_equal. apply get16_put16_eq. rewrite length_d0. lia.
Qed.

Lemma get_type : di_type o (put_dinode o ip d) = i_type ip.
Proof.
  unfold di_type, get16 at 1. rewrite get_d4, bytes_at_put32, !bytes_at_put16 by (rewrite ?length_d3, ?length_d2, ?length_d1, ?length_d0; lia).
  rewrite <- (s16_u16 (i_type ip)) at 2 by apply Hf. f_equal. apply get16_put16_eq. lia.
Qed.

Lemma get_addrs : di_addrs o (put_dinode o ip d) = i_addrs ip.
Proof.
  apply list_eq. intros k. unfold di_addrs. rewrite list_lookup_fmap. pose proof (df_len _ Hf) as Hlen.
  destruct (decide (k < 13)%nat) as [Hk|Hk].
  - rewrite lookup_seq_lt by done. destruct (lookup_lt_is_Some_2 (i_addrs ip) k ltac:(lia)) as [a Ha].
    cbn [fmap option_fmap option_map Nat.add]. unfold put_dinode. rewrite (get32_put_addrs _ _ _ k a); [|rewrite length_d4; lia|done].
    rewrite Ha. f_equal. apply u32_small. by apply (Forall_lookup_1 _ _ _ _ (df_addrs _ Hf) Ha).
  - rewrite lookup_seq_ge by lia. symmetry. apply lookup_ge_None_2. lia.
Qed.

(** [ilock] loads what [iupdate] stored. *)
Lemma load_put_dinode ip0 : load_dinode o (put_dinode o ip d) ip0 =
  MkInode (i_dev ip0) (i_inum ip0) (i_ref ip0) (i_lock ip0) (i_valid ip0)
    (i_type ip) (i_major ip) (i_minor ip) (i_nlink ip) (i_size ip) (i_addrs ip).
Proof. unfold load_dinode. by rewrite get_size, get_nlink, get_minor, get_major, get_type, get_addrs. Qed.
End Dinode.

(** Two inodes of a block do not overlap. *)
Lemma dinode_off_disjoint m n : dinode_off m <> dinode_off n ->
  (dinode_off m + 64 <= dinode_off n \/ dinode_off n + 64 <= dinode_off m)%nat.
Proof. unfold dinode_off. pose proof (Z.mod_pos_bound m 16 ltac:(lia)). pose proof (Z.mod_pos_bound n 16 ltac:(lia)). lia. Qed.

(** The 64 bytes determine what is loaded. *)
Lemma get_within off n o k d d' : bytes_at o k d = bytes_at o k d' -> (o <= off)%nat -> (off + n <= o + k)%nat ->
  bytes_at off n d = bytes_at off n d'.
Proof.
  intros E H1 H2. apply list_eq. intros i. destruct (decide (i < n)%nat) as [Hi|Hi].
  - rewrite !lookup_bytes_at by done. pose proof (f_equal (fun l => l !! (off + i - o)%nat) E) as Ei.
    rewrite !lookup_bytes_at in Ei by lia. by replace (o + (off + i - o))%nat with (off + i)%nat in Ei by lia.
  - unfold bytes_at. by rewrite !lookup_take_ge by lia.
Qed.

Lemma load_dinode_ext o d d' ip : bytes_at o 64 d = bytes_at o 64 d' -> load_dinode o d ip = load_dinode o d' ip.
Proof.
  intros E. assert (forall off n, (o <= off)%nat -> (off + n <= o + 64)%nat -> bytes_at off n d = bytes_at off n d') as H by (intros; by eapply get_within).
  unfold load_dinode, di_addrs, di_type, get16, get32. rewrite !(H _ 2%nat), (H _ 4%nat) by lia. f_equal.
  apply list_fmap_ext. intros k x Hx%lookup_seq. rewrite H; [done|lia|lia].
Qed.
