(* ===== verification/Uart.v ===== *)
(** * The UART driver

    [kernel/uart.c].  The device is the three fields of [uart] that record the
    bytes written to [THR], the bytes waiting in [RHR], and the answers the coming
    reads of [LSR] will give to the question whether [THR] is empty. *)

From stdpp Require Import gmap strings list.
From S2P Require Import Prelude Layout State Sched.

Abbreviation UART_TX_BUF_SIZE := 32.

Definition uupd (f : uart -> uart) : K unit := modify (fun s => set_uartst (f (uartst s)) s).

(** [ReadReg(LSR) & LSR_TX_IDLE]. *)
Definition lsr_tx_idle : K bool := fun s =>
  match uart_lsr (uartst s) with
  | [] => Ok true s
  | b :: l => Ok b (set_uartst (set_uart_lsr l (uartst s)) s)
  end.

(** [WriteReg(THR, c)]. *)
Definition write_thr (c : Z) : K unit := uupd (fun u => set_uart_out (uart_out u ++ [u8 c]) u).

(** [uartstart]'s loop, with [k] turns left. *)
Fixpoint uartstart_loop (k : nat) : K unit :=
  let! u := gets uartst in
  if uart_tx_w u =? uart_tx_r u then ret tt
  else
    match k with
    | O => no_fuel
    | S k =>
        let! idle := lsr_tx_idle in
        if negb idle then ret tt
        else
          let! c := deref "uart_tx_buf" (uart_tx_buf u !! Z.to_nat (uart_tx_r u mod UART_TX_BUF_SIZE)) in
          uupd (fun u => set_uart_tx_r (u64 (uart_tx_r u + 1)) u) ;;
          wakeup ChUartR ;;
          write_thr c ;;
          uartstart_loop k
    end.

(** The ring holds at most [UART_TX_BUF_SIZE] bytes. *)
Definition uartstart : K unit := uartstart_loop 32.

Fixpoint uartputc_loop (k : nat) (c : Z) : K unit :=
  match k with
  | O => no_fuel
  | S k =>
      let! u := gets uartst in
      if uart_tx_w u =? u64 (uart_tx_r u + UART_TX_BUF_SIZE) then
        sleep ChUartR LkUart ;;
        uartputc_loop k c
      else
        uupd (fun u =>
          set_uart_tx_w (u64 (uart_tx_w u + 1))
            (set_uart_tx_buf (<[Z.to_nat (uart_tx_w u mod UART_TX_BUF_SIZE) := u8 c]> (uart_tx_buf u)) u)) ;;
        uartstart ;;
        release LkUart
  end.

Definition uartputc `{Build} (c : Z) : K unit :=
  acquire LkUart ;;
  uartputc_loop (S fuel) c.

(** The loop that waits for the transmitter to be empty. *)
Fixpoint wait_tx_idle (k : nat) : K unit :=
  match k with
  | O => no_fuel
  | S k =>
      let! idle := lsr_tx_idle in
      if idle then ret tt else wait_tx_idle k
  end.

Definition uartputc_sync (c : Z) : K unit :=
  let! u := gets uartst in
  wait_tx_idle (S (length (uart_lsr u))) ;;
  write_thr c.

Definition uartgetc : K Z := fun s =>
  match uart_in (uartst s) with
  | [] => Ok (-1) s
  | c :: l => Ok c (set_uartst (set_uart_in l (uartst s)) s)
  end.
