(* ===== verification/Printf.v ===== *)
(** * Formatted output

    [kernel/printf.c] over [consputc] of [kernel/console.c].  The variable
    arguments of [printf] are a list of typed values; using one as another type, or
    more than there are, is undefined.  Every caller runs after [printfinit], so
    [pr.locking] is set. *)

From stdpp Require Import gmap strings list.
From S2P Require Import Prelude Layout State Sched Uart.

Abbreviation BACKSPACE := 0x100.

Definition consputc (c : Z) : K unit :=
  if c =? BACKSPACE then
    uartputc_sync 8 ;; uartputc_sync 32 ;; uartputc_sync 8
  else uartputc_sync c.

(** The characters of a string literal. *)
Definition lit (s : string) : list Z := (fun a => Z.of_nat (Ascii.nat_of_ascii a)) <$> String.list_ascii_of_string s.

Definition digits : list Z := lit "0123456789abcdef".
Definition digit (d : Z) : Z := default 0 (digits !! Z.to_nat d).

(** The [do]-[while] loop of [printint]: the digits of [x], the last one first. *)
Fixpoint digit_loop (k : nat) (base x : Z) : list Z :=
  match k with
  | O => []
  | S k => digit (x mod base) :: (if x / base =? 0 then [] else digit_loop k base (x / base))
  end.

(** What [printint] sends: [x] has at most 32 bits, so at most 32 digits. *)
Definition int_chars (xx base : Z) (sign : bool) : list Z :=
  let neg := sign && (xx <? 0) in
  let x := if neg then u32 (- xx) else u32 xx in
  reverse (digit_loop 32 base x ++ (if neg then [45] else [])).

Definition put_all (l : list Z) : K unit := for_each l consputc.

Definition printint (xx base : Z) (sign : bool) : K unit := put_all (int_chars xx base sign).

(** The loop of [printptr]: [k] digits, from the top. *)
Fixpoint ptr_loop (k : nat) (x : Z) : list Z :=
  match k with
  | O => []
  | S k => digit (Z.shiftr x 60) :: ptr_loop k (u64 (Z.shiftl x 4))
  end.

Definition ptr_chars (x : Z) : list Z := [48; 120] ++ ptr_loop 16 x.
Definition printptr (x : Z) : K unit := put_all (ptr_chars x).

Inductive parg : Type :=
| PInt (v : Z)                  (** [int] *)
| PPtr (v : Z)                  (** [uint64] *)
| PStr (v : option (list Z)).   (** [char*], up to its NUL *)

(** The characters [printf] sends for a format and arguments. *)
Fixpoint format (fmt : list Z) (args : list parg) : option (list Z) :=
  match fmt with
  | [] => Some []
  | c :: fmt =>
      if negb (c =? 37) then (c ::.) <$> format fmt args
      else
        match fmt with
        | [] => Some []
        | c :: fmt =>
            if c =? 100 then
              match args with PInt v :: args => (int_chars v 10 true ++.) <$> format fmt args | _ => None end
            else if c =? 120 then
              match args with PInt v :: args => (int_chars v 16 true ++.) <$> format fmt args | _ => None end
            else if c =? 112 then
              match args with PPtr v :: args => (ptr_chars v ++.) <$> format fmt args | _ => None end
            else if c =? 115 then
              match args with
              | PStr v :: args => (default (lit "(null)") v ++.) <$> format fmt args
              | _ => None
              end
            else if c =? 37 then (37 ::.) <$> format fmt args
            else (fun l => 37 :: c :: l) <$> format fmt args
        end
  end.

Definition printf (fmt : string) (args : list parg) : K unit :=
  acquire LkPr ;;
  let! l := deref "va_arg" (format (lit fmt) args) in
  put_all l ;;
  release LkPr.
