(* ===== verification/Console.v ===== *)
(** * The console

    [kernel/console.c]: the line-editing input buffer between the UART's interrupts
    and [consoleread], and console output; [uartintr] of [kernel/uart.c], which
    feeds it; [procdump] of [kernel/proc.c], which [^P] runs. *)

From stdpp Require Import gmap strings list.
From S2P Require Import Prelude Layout State Sched Uart Printf Vm Fs.

Abbreviation INPUT_BUF := 128.
Abbreviation CTRL_D := 4.
Abbreviation CTRL_H := 8.
Abbreviation CTRL_P := 16.
Abbreviation CTRL_U := 21.
Abbreviation NEWLINE := 10.

Definition cupd (f : console -> console) : K unit := modify (fun s => set_cons (f (cons s)) s).

Section Console.
Context `{Build}.

(** ** Output *)

Fixpoint consolewrite_loop (k : nat) (src : source) (i : Z) : K Z :=
  match k with
  | O => ret i
  | S k =>
      let! (r, c) := either_copyin (source_add src i) 1 in
      if r =? -1 then ret i
      else
        uartputc (default 0 (head c)) ;;
        consolewrite_loop k src (i + 1)
  end.

Definition consolewrite (src : source) (n : Z) : K Z := consolewrite_loop (Z.to_nat n) src 0.

(** ** [procdump] *)

(** [strcmp] of [kernel/proc.c] on arrays with their NUL. *)
Fixpoint strcmp (x y : list Z) : option Z :=
  match x, y with
  | a :: x, b :: y => if negb (a =? 0) && (a =? b) then strcmp x y else Some (a - b)
  | _, _ => None
  end.

Definition state_name (st : procstate) : list Z :=
  lit (match st with
       | UNUSED => "unused"
       | USED => "???"
       | SLEEPING => "sleep "
       | RUNNABLE => "runble"
       | RUNNING => "run   "
       | ZOMBIE => "zombie"
       end).

Definition procdump_one (i : nat) : K unit :=
  let! p := pget i in
  if bool_decide (p_state p = UNUSED) then ret tt
  else
    let state := PStr (Some (state_name (p_state p))) in
    let times := [PInt (s32 (p_rtime_every p)); PInt (s32 (p_wtime_every p)); PInt (p_nrun_whole p)] in
    match SCHEDULER with
    | DEFAULT | FCFS => printf "%d	%s	%d	%d	%d
" (PInt (p_pid p) :: state :: times)
    | PBS => printf "%d	%d		%s	%d	%d	%d
" (PInt (p_pid p) :: PInt (p_priority p) :: state :: times)
    | MLFQ =>
        let! c := deref "strcmp" (strcmp (state_name (p_state p) ++ [0]) (lit "zombie" ++ [0])) in
        let temp := if negb (c =? 0) then p_curr_q p else -1 in
        printf "%d	%d		%s	%d	%d	%d	%d	%d	%d	%d	%d
" (PInt (p_pid p) :: PInt temp :: state :: times ++ (PInt <$> p_q_val p))
    end ;;
    printf "
" [].

Definition procdump : K unit :=
  printf "
" [] ;;
  match SCHEDULER with
  | DEFAULT | FCFS => printf "PID	State	rtime	wtime	nrun
" []
  | PBS => printf "PID	Priority	State	rtime	wtime	nrun
" []
  | MLFQ => printf "PID	Priority	State	rtime	wtime	nrun	q0	q1	q2	q3	q4
" []
  end ;;
  for_each all_procs procdump_one.

(** ** Input *)

Definition cons_char (x : Z) (c : console) : Z := default 0 (cons_buf c !! Z.to_nat (x mod INPUT_BUF)).

(** The wait for input: [true] when the process was killed. *)
Fixpoint cons_wait (k : nat) (p : nat) : K bool :=
  match k with
  | O => no_fuel
  | S k =>
      let! c := gets cons in
      if cons_r c =? cons_w c then
        let! pr := pget p in
        if p_killed pr then ret true
        else
          sleep ChConsR LkCons ;;
          cons_wait k p
      else ret false
  end.

(** [consoleread]'s loop, with [n] bytes left of [target]: the value of [n] at the
    end, or nothing when the process was killed. *)
Fixpoint consoleread_loop (n : nat) (p : nat) (target : nat) (dst : dest) : K (option nat) :=
  match n with
  | O => ret (Some O)
  | S n' =>
      let! killed := cons_wait (S fuel) p in
      if killed then ret None
      else
        let! cs := gets cons in
        let c := cons_char (cons_r cs) cs in
        cupd (fun cs => set_cons_r (u32 (cons_r cs + 1)) cs) ;;
        if c =? CTRL_D then
          when (Nat.ltb n target) (cupd (fun cs => set_cons_r (u32 (cons_r cs - 1)) cs)) ;;
          ret (Some n)
        else
          let! r := either_copyout dst [c] in
          if r =? -1 then ret (Some n)
          else if c =? NEWLINE then ret (Some n')
          else consoleread_loop n' p target (dest_add dst 1)
  end.

Definition consoleread (dst : dest) (n : Z) : K Z :=
  let! p := curproc in
  acquire LkCons ;;
  let! o := consoleread_loop (Z.to_nat n) p (Z.to_nat n) dst in
  match o with
  | None =>
      release LkCons ;;
      ret (-1)
  | Some rest =>
      release LkCons ;;
      ret (if n <? 0 then 0 else n - Z.of_nat rest)
  end.

(** The loop of [^U]. *)
Fixpoint kill_line (k : nat) : K unit :=
  let! c := gets cons in
  if negb (cons_e c =? cons_w c) && negb (cons_char (u32 (cons_e c - 1)) c =? NEWLINE) then
    match k with
    | O => no_fuel
    | S k =>
        cupd (fun c => set_cons_e (u32 (cons_e c - 1)) c) ;;
        consputc BACKSPACE ;;
        kill_line k
    end
  else ret tt.

(** What an ordinary character does to the buffer. *)
Definition store_char (c : Z) (cs : console) : console :=
  set_cons_e (u32 (cons_e cs + 1))
    (set_cons_buf (<[Z.to_nat (cons_e cs mod INPUT_BUF) := u8 c]> (cons_buf cs)) cs).

Definition consoleintr (c : Z) : K unit :=
  acquire LkCons ;;
  (if c =? CTRL_P then procdump
   else if c =? CTRL_U then kill_line 128
   else if (c =? CTRL_H) || (c =? 127) then
     let! cs := gets cons in
     when (negb (cons_e cs =? cons_w cs))
       (cupd (fun c => set_cons_e (u32 (cons_e c - 1)) c) ;;
        consputc BACKSPACE)
   else
     let! cs := gets cons in
     when (negb (c =? 0) && (u32 (cons_e cs - cons_r cs) <? INPUT_BUF))
       (let c := if c =? 13 then NEWLINE else c in
        consputc c ;;
        cupd (store_char c) ;;
        let! cs := gets cons in
        when ((c =? NEWLINE) || (c =? CTRL_D) || (cons_e cs =? u32 (cons_r cs + INPUT_BUF)))
          (cupd (fun cs => set_cons_w (cons_e cs) cs) ;;
           wakeup ChConsR))) ;;
  release LkCons.

(** ** [uartintr] *)

Fixpoint uartintr_loop (k : nat) : K unit :=
  let! c := uartgetc in
  if c =? -1 then ret tt
  else
    match k with
    | O => no_fuel
    | S k =>
        consoleintr c ;;
        uartintr_loop k
    end.

Definition uartintr : K unit :=
  let! u := gets uartst in
  uartintr_loop (length (uart_in u)) ;;
  acquire LkUart ;;
  uartstart ;;
  release LkUart.
End Console.
