(* ===== verification/File.v ===== *)
(** * Open files

    [kernel/file.c] and [pipealloc] of [kernel/pipe.c]. *)

From stdpp Require Import gmap strings list.
From S2P Require Import Prelude Layout State Sched Kalloc Vm Pipe Block Bio Log Fs Console.

(** The most [filewrite] writes in one transaction: [((MAXOPBLOCKS-1-1-2) / 2) * BSIZE]. *)
Abbreviation WRITE_MAX := 3072.

Section File.
Context `{Build} `{Disk}.

Definition file_at (i : nat) : K file := fun s =>
  match ftable s !! i with Some f => Ok f s | None => UB "file" end.
Definition fupdate (i : nat) (g : file -> file) : K unit := fun s =>
  match ftable s !! i with
  | Some _ => Ok tt (set_ftable (alter g i (ftable s)) s)
  | None => UB "file"
  end.

Definition all_files : list nat := seq 0 100.

(** [filealloc]'s loop: the first entry with no references. *)
Fixpoint filealloc_loop (l : list nat) : K (option nat) :=
  match l with
  | [] =>
      release LkFtable ;;
      ret None
  | i :: l =>
      let! f := file_at i in
      if f_ref f =? 0 then
        fupdate i (set_f_ref 1) ;;
        release LkFtable ;;
        ret (Some i)
      else filealloc_loop l
  end.

Definition filealloc : K (option nat) :=
  acquire LkFtable ;;
  filealloc_loop all_files.

Definition filedup (i : nat) : K nat :=
  acquire LkFtable ;;
  let! f := file_at i in
  if f_ref f <? 1 then panic "filedup" else
  fupdate i (fun f => set_f_ref (f_ref f + 1) f) ;;
  release LkFtable ;;
  ret i.

Definition fileclose (i : nat) : K unit :=
  acquire LkFtable ;;
  let! f := file_at i in
  if f_ref f <? 1 then panic "fileclose" else
  fupdate i (set_f_ref (f_ref f - 1)) ;;
  if 0 <? f_ref f - 1 then release LkFtable
  else
    let! ff := file_at i in
    fupdate i (fun f => set_f_type FD_NONE (set_f_ref 0 f)) ;;
    release LkFtable ;;
    match f_type ff with
    | FD_PIPE => pipeclose (f_pipe ff) (negb (f_writable ff =? 0))
    | FD_INODE | FD_DEVICE =>
        begin_op ;;
        let! ip := deref "ff.ip" (f_ip ff) in
        iput ip ;;
        end_op
    | FD_NONE => ret tt
    end.

(** The bytes of [struct stat]; four of padding. *)
Definition stat_bytes (st : stat) : list Z :=
  le_bytes 4 (st_dev st) ++ le_bytes 4 (st_ino st) ++ le_bytes 2 (st_type st) ++
  le_bytes 2 (st_nlink st) ++ [0; 0; 0; 0] ++ le_bytes 8 (st_size st).

Definition filestat (i : nat) (addr : Z) : K Z :=
  let! p := curproc in
  let! f := file_at i in
  match f_type f with
  | FD_INODE | FD_DEVICE =>
      ilock (f_ip f) ;;
      let! ip := deref "f->ip" (f_ip f) in
      let! st := stati ip in
      iunlock (f_ip f) ;;
      let! pr := pget p in
      let! r := copyout (p_pagetable pr) addr (stat_bytes st) in
      if r <? 0 then ret (-1) else ret 0
  | _ => ret (-1)
  end.

(** [devsw]: [consoleinit] connects the console and nothing else is connected. *)
Definition devsw_read (major : Z) : option (dest -> Z -> K Z) :=
  if (major <? 0) || (NDEV <=? major) then None else if major =? 1 then Some consoleread else None.
Definition devsw_write (major : Z) : option (source -> Z -> K Z) :=
  if (major <? 0) || (NDEV <=? major) then None else if major =? 1 then Some consolewrite else None.

Definition fileread (i : nat) (addr n : Z) : K Z :=
  let! f := file_at i in
  if f_readable f =? 0 then ret (-1) else
  match f_type f with
  | FD_PIPE => piperead (f_pipe f) addr n
  | FD_DEVICE =>
      match devsw_read (f_major f) with
      | None => ret (-1)
      | Some read => read (ToUser addr) n
      end
  | FD_INODE =>
      ilock (f_ip f) ;;
      let! ip := deref "f->ip" (f_ip f) in
      let! f := file_at i in
      let! (r, _) := readi ip (ToUser addr) (f_off f) (u32 n) in
      when (0 <? r) (fupdate i (fun f => set_f_off (u32 (f_off f + r)) f)) ;;
      iunlock (f_ip f) ;;
      ret r
  | FD_NONE => panic "fileread"
  end.

(** [filewrite]'s loop on an inode with [k] turns left: the value of [i]. *)
Fixpoint filewrite_loop (k : nat) (fd : nat) (addr n i : Z) : K Z :=
  if i <? n then
    match k with
    | O => no_fuel
    | S k =>
        let n1 := if WRITE_MAX <? n - i then WRITE_MAX else n - i in
        begin_op ;;
        let! f := file_at fd in
        ilock (f_ip f) ;;
        let! ip := deref "f->ip" (f_ip f) in
        let! f := file_at fd in
        let! r := writei ip (FromUser (u64 (addr + i))) (f_off f) n1 in
        when (0 <? r) (fupdate fd (fun f => set_f_off (u32 (f_off f + r)) f)) ;;
        iunlock (f_ip f) ;;
        end_op ;;
        if negb (r =? n1) then ret i else filewrite_loop k fd addr n (i + r)
    end
  else ret i.

Definition filewrite (fd : nat) (addr n : Z) : K Z :=
  let! f := file_at fd in
  if f_writable f =? 0 then ret (-1) else
  match f_type f with
  | FD_PIPE => pipewrite (f_pipe f) addr n
  | FD_DEVICE =>
      match devsw_write (f_major f) with
      | None => ret (-1)
      | Some write => write (FromUser addr) n
      end
  | FD_INODE =>
      let! i := filewrite_loop (Z.to_nat (n / WRITE_MAX + 1)) fd addr n 0 in
      ret (if i =? n then n else -1)
  | FD_NONE => panic "filewrite"
  end.

(** [pipealloc]: the two files, or nothing. *)
Definition pipealloc_bad (pi : Z) (f0 f1 : option nat) : K (option (nat * nat)) :=
  when (negb (pi =? 0)) (kfree pi) ;;
  match f0 with Some f => fileclose f | None => ret tt end ;;
  match f1 with Some f => fileclose f | None => ret tt end ;;
  ret None.

Definition pipe_file (pi : Z) (readable writable : Z) (f : file) : file :=
  set_f_pipe pi (set_f_writable writable (set_f_readable readable (set_f_type FD_PIPE f))).

Definition pipealloc : K (option (nat * nat)) :=
  let! o0 := filealloc in
  match o0 with
  | None => pipealloc_bad 0 None None
  | Some f0 =>
      let! o1 := filealloc in
      match o1 with
      | None => pipealloc_bad 0 (Some f0) None
      | Some f1 =>
          let! pi := kalloc in
          if pi =? 0 then pipealloc_bad 0 (Some f0) (Some f1)
          else
            stw (pi_readopen pi) 1 ;;
            stw (pi_writeopen pi) 1 ;;
            stw (pi_nwrite pi) 0 ;;
            stw (pi_nread pi) 0 ;;
            fupdate f0 (pipe_file pi 1 0) ;;
            fupdate f1 (pipe_file pi 0 1) ;;
            ret (Some (f0, f1))
      end
  end.
End File.
