(* ===== verification/Proc.v ===== *)
(** * The life of a process

    The rest of [kernel/proc.c]: the process table, allocation and release of its
    entries, [fork], [exit], [wait] and [waitx], and the first process. *)

From stdpp Require Import gmap strings list.
From S2P Require Import Prelude Layout State Mlfq Sched Cstring Kalloc Vm Pipe Block Bio Log Fs Printf Console File.

(** Fields of [struct trapframe]. *)
Abbreviation TF_KERNEL_SATP := 0.
Abbreviation TF_KERNEL_SP := 8.
Abbreviation TF_KERNEL_TRAP := 16.
Abbreviation TF_EPC := 24.
Abbreviation TF_KERNEL_HARTID := 32.
Abbreviation TF_SP := 48.
Abbreviation TF_A0 := 112.
Abbreviation TF_A1 := 120.
Abbreviation TF_A7 := 168.
Abbreviation TF_SIZE := 288.

Section Proc.
Context `{Build} `{Disk}.

(** [p->trapframe->field]. *)
Definition tf_get (p : nat) (field : Z) : K Z :=
  let! pr := pget p in
  gets (fun s => ld64 (mem s) (p_trapframe pr + field)).
Definition tf_set (p : nat) (field v : Z) : K unit :=
  let! pr := pget p in
  modify (fun s => set_mem (st64 (mem s) (p_trapframe pr + field) v) s).

Definition procinit : K unit :=
  for_each all_procs (fun i => pupd i (set_p_kstack (KSTACK (Z.of_nat i)))).

Definition allocpid : K Z :=
  acquire LkPid ;;
  let! pid := gets nextpid in
  modify (set_nextpid (s32 (pid + 1))) ;;
  release LkPid ;;
  ret pid.

Definition proc_pagetable (p : nat) : K Z :=
  let! pagetable := uvmcreate in
  if pagetable =? 0 then ret 0 else
  let! r := mappages pagetable TRAMPOLINE PGSIZE sym_trampoline (Z.lor PTE_R PTE_X) in
  if r <? 0 then
    uvmfree pagetable 0 ;;
    ret 0
  else
    let! pr := pget p in
    let! r := mappages pagetable TRAPFRAME PGSIZE (p_trapframe pr) (Z.lor PTE_R PTE_W) in
    if r <? 0 then
      uvmunmap pagetable TRAMPOLINE 1 false ;;
      uvmfree pagetable 0 ;;
      ret 0
    else ret pagetable.

Definition proc_freepagetable (pagetable sz : Z) : K unit :=
  uvmunmap pagetable TRAMPOLINE 1 false ;;
  uvmunmap pagetable TRAPFRAME 1 false ;;
  uvmfree pagetable sz.

(** The assignments of [freeproc] after the page table is gone. *)
Definition clear_proc (pr : proc) : proc :=
  let pr := set_p_name (<[0%nat := 0]> (p_name pr)) (set_p_parent None (set_p_pid 0 (set_p_sz 0 pr))) in
  let pr := set_p_mask 0 (set_p_state UNUSED (set_p_xstate 0 (set_p_killed false (set_p_chan None pr)))) in
  let pr := set_p_rtime_every 0 (set_p_rtime_whole 0 (set_p_rtime 0 (set_p_ctime 0 (set_p_atime 0 pr)))) in
  let pr := set_p_stime 0 (set_p_wtime_every 0 (set_p_wtime_whole 0 (set_p_wtime 0 pr))) in
  let pr := set_p_nrun_whole 0 (set_p_nrun 0 (set_p_niceness 0 (set_p_spriority 0 (set_p_priority 0 pr)))) in
  set_p_q_val (replicate 5 0) (set_p_curr_q 0 pr).

Definition freeproc (p : nat) : K unit :=
  let! pr := pget p in
  when (negb (p_trapframe pr =? 0)) (kfree (p_trapframe pr)) ;;
  pupd p (set_p_trapframe 0) ;;
  let! pr := pget p in
  when (negb (p_pagetable pr =? 0)) (proc_freepagetable (p_pagetable pr) (p_sz pr)) ;;
  pupd p (set_p_pagetable 0) ;;
  pupd p clear_proc.

(** [allocproc]'s scan: the first unused entry, with its lock held. *)
Fixpoint allocproc_loop (l : list nat) : K (option nat) :=
  match l with
  | [] => ret None
  | i :: l =>
      acquire (LkProc i) ;;
      let! pr := pget i in
      if bool_decide (p_state pr = UNUSED) then ret (Some i)
      else
        release (LkProc i) ;;
        allocproc_loop l
  end.

(** The assignments at the end of [allocproc]. *)
Definition start_proc (ticks : Z) (pr : proc) : proc :=
  let ctx := set_ctx_sp (u64 (p_kstack pr + PGSIZE)) (set_ctx_ra sym_forkret zero_context) in
  let pr := set_p_context ctx pr in
  let pr := set_p_nrun_whole 0 (set_p_nrun 0 (set_p_niceness 5 (set_p_spriority 60 (set_p_priority 60 pr)))) in
  let pr := set_p_rtime_every 0 (set_p_rtime_whole 0 (set_p_rtime 0 (set_p_atime 0 pr))) in
  let pr := set_p_wtime_every 0 (set_p_wtime_whole 0 (set_p_wtime 0 pr)) in
  let pr := set_p_etime 0 (set_p_stime 0 pr) in
  let pr := set_p_q_val (replicate 5 0) (set_p_curr_q 0 pr) in
  set_p_ctime ticks pr.

Definition allocproc : K (option nat) :=
  let! o := allocproc_loop all_procs in
  match o with
  | None => ret None
  | Some p =>
      let! pid := allocpid in
      pupd p (fun pr => set_p_mask 0 (set_p_state USED (set_p_pid pid pr))) ;;
      let! tf := kalloc in
      pupd p (set_p_trapframe tf) ;;
      if tf =? 0 then
        freeproc p ;;
        release (LkProc p) ;;
        ret None
      else
        let! pagetable := proc_pagetable p in
        pupd p (set_p_pagetable pagetable) ;;
        if pagetable =? 0 then
          freeproc p ;;
          release (LkProc p) ;;
          ret None
        else
          let! t := gets ticks in
          pupd p (start_proc t) ;;
          ret (Some p)
  end.

Definition initcode : list Z := [
  0x17; 0x05; 0x00; 0x00; 0x13; 0x05; 0x45; 0x02;
  0x97; 0x05; 0x00; 0x00; 0x93; 0x85; 0x35; 0x02;
  0x93; 0x08; 0x70; 0x00; 0x73; 0x00; 0x00; 0x00;
  0x93; 0x08; 0x20; 0x00; 0x73; 0x00; 0x00; 0x00;
  0xef; 0xf0; 0x9f; 0xff; 0x2f; 0x69; 0x6e; 0x69;
  0x74; 0x00; 0x00; 0x24; 0x00; 0x00; 0x00; 0x00;
  0x00; 0x00; 0x00; 0x00].

(** [safestrcpy(p->name, src, sizeof(p->name))]. *)
Definition set_name (p : nat) (src : list Z) : K unit :=
  let! pr := pget p in
  let! nm := deref "safestrcpy" (safestrcpy (p_name pr) src 16) in
  pupd p (set_p_name nm).

Definition userinit : K unit :=
  init_queues ;;
  let! o := allocproc in
  modify (set_initproc o) ;;
  let! p := deref "userinit" o in
  let! pr := pget p in
  uvminit (p_pagetable pr) initcode ;;
  pupd p (set_p_sz PGSIZE) ;;
  tf_set p TF_EPC 0 ;;
  tf_set p TF_SP PGSIZE ;;
  set_name p (lit "initcode" ++ [0]) ;;
  let! cwd := namei (lit "/") in
  pupd p (set_p_cwd cwd) ;;
  pupd p (set_p_state RUNNABLE) ;;
  when (bool_decide (SCHEDULER = MLFQ)) (push p 0) ;;
  release (LkProc p).

Definition growproc (n : Z) : K Z :=
  let! p := curproc in
  let! pr := pget p in
  let sz := u32 (p_sz pr) in
  if 0 <? n then
    let! r := uvmalloc (p_pagetable pr) sz (u32 (sz + n)) in
    let sz := u32 r in
    if sz =? 0 then ret (-1)
    else
      pupd p (set_p_sz sz) ;;
      ret 0
  else if n <? 0 then
    let! r := uvmdealloc (p_pagetable pr) sz (u32 (sz + n)) in
    pupd p (set_p_sz (u32 r)) ;;
    ret 0
  else
    pupd p (set_p_sz sz) ;;
    ret 0.

(** The loop of [fork] over the open files. *)
Definition dup_file (p np : nat) (i : nat) : K unit :=
  let! pr := pget p in
  let! o := deref "ofile" (p_ofile pr !! i) in
  match o with
  | None => ret tt
  | Some f =>
      let! f := filedup f in
      pupd np (fun pr => set_p_ofile (<[i := Some f]> (p_ofile pr)) pr)
  end.

Definition fork : K Z :=
  let! p := curproc in
  let! o := allocproc in
  match o with
  | None => ret (-1)
  | Some np =>
      let! pr := pget p in
      let! npr := pget np in
      let! r := uvmcopy (p_pagetable pr) (p_pagetable npr) (p_sz pr) in
      if r <? 0 then
        freeproc np ;;
        release (LkProc np) ;;
        ret (-1)
      else
        pupd np (set_p_sz (p_sz pr)) ;;
        pupd np (set_p_mask (p_mask pr)) ;;
        modify (fun s => set_mem (stl (mem s) (p_trapframe npr) (ldl (mem s) (p_trapframe pr) 288)) s) ;;
        tf_set np TF_A0 0 ;;
        for_each (seq 0 16) (dup_file p np) ;;
        let! cwd := deref "cwd" (p_cwd pr) in
        let! cwd := idup cwd in
        pupd np (set_p_cwd (Some cwd)) ;;
        set_name np (p_name pr) ;;
        let! npr := pget np in
        let pid := p_pid npr in
        release (LkProc np) ;;
        acquire LkWait ;;
        pupd np (set_p_parent (Some p)) ;;
        release LkWait ;;
        acquire (LkProc np) ;;
        pupd np (set_p_state RUNNABLE) ;;
        when (bool_decide (SCHEDULER = MLFQ)) (push np 0) ;;
        release (LkProc np) ;;
        ret pid
  end.

(** The channel [wakeup(p)] and [sleep(p, ...)] use for a process. *)
Definition reparent_one (p : nat) (pp : nat) : K unit :=
  let! ppr := pget pp in
  when (bool_decide (p_parent ppr = Some p))
    (let! ini := gets initproc in
     pupd pp (set_p_parent ini) ;;
     let! ini := deref "initproc" ini in
     wakeup (ChProc ini)).

Definition reparent (p : nat) : K unit := for_each all_procs (reparent_one p).

Definition close_file (p : nat) (fd : nat) : K unit :=
  let! pr := pget p in
  let! o := deref "ofile" (p_ofile pr !! fd) in
  match o with
  | None => ret tt
  | Some f =>
      fileclose f ;;
      pupd p (fun pr => set_p_ofile (<[fd := None]> (p_ofile pr)) pr)
  end.

(** [exit] up to the point where it gives up the CPU for good. *)
Definition exit_prepare (status : Z) : K unit :=
  let! p := curproc in
  let! ini := gets initproc in
  if bool_decide (Some p = ini) then panic "init exiting" else
  for_each (seq 0 16) (close_file p) ;;
  begin_op ;;
  let! pr := pget p in
  let! cwd := deref "cwd" (p_cwd pr) in
  iput cwd ;;
  end_op ;;
  pupd p (set_p_cwd None) ;;
  acquire LkWait ;;
  reparent p ;;
  let! pr := pget p in
  match p_parent pr with
  | Some parent => wakeup (ChProc parent)
  | None => ret tt
  end ;;
  acquire (LkProc p) ;;
  let! t := gets ticks in
  pupd p (fun pr => set_p_etime t (set_p_state ZOMBIE (set_p_xstate status pr))) ;;
  release LkWait.

Definition exit {A} (status : Z) : K A :=
  exit_prepare status ;;
  sched ;;
  panic "zombie exit".

(** The scan of [wait] and [waitx] over the table.  [inl]: a child was reaped, or
    the status could not be stored; [inr]: whether there are children. *)
Fixpoint wait_scan (l : list nat) (p : nat) (addr : Z) (havekids : bool) : K (Z * option (Z * Z) + bool) :=
  match l with
  | [] => ret (inr havekids)
  | np :: l =>
      let! npr := pget np in
      if bool_decide (p_parent npr = Some p) then
        acquire (LkProc np) ;;
        let! npr := pget np in
        if bool_decide (p_state npr = ZOMBIE) then
          let times := (u32 (p_rtime_whole npr), u32 (p_etime npr - p_ctime npr - p_rtime_whole npr)) in
          let! pr := pget p in
          let! r := (if addr =? 0 then ret 0 else copyout (p_pagetable pr) addr (le_bytes 4 (p_xstate npr))) in
          if r <? 0 then
            release (LkProc np) ;;
            release LkWait ;;
            ret (inl (-1, Some times))
          else
            freeproc np ;;
            release (LkProc np) ;;
            release LkWait ;;
            ret (inl (p_pid npr, Some times))
        else
          release (LkProc np) ;;
          wait_scan l p addr true
      else wait_scan l p addr havekids
  end.

Fixpoint wait_loop (k : nat) (p : nat) (addr : Z) : K (Z * option (Z * Z)) :=
  match k with
  | O => no_fuel
  | S k =>
      let! r := wait_scan all_procs p addr false in
      match r with
      | inl r => ret r
      | inr havekids =>
          let! pr := pget p in
          if negb havekids || p_killed pr then
            release LkWait ;;
            ret (-1, None)
          else
            sleep (ChProc p) LkWait ;;
            wait_loop k p addr
      end
  end.

Definition wait (addr : Z) : K Z :=
  let! p := curproc in
  acquire LkWait ;;
  let! (r, _) := wait_loop (S fuel) p addr in
  ret r.

(** [waitx]: the result, and what it has stored in [*rtime_whole] and
    [*wtime_whole], if anything. *)
Definition waitx (addr : Z) : K (Z * option (Z * Z)) :=
  let! p := curproc in
  acquire LkWait ;;
  wait_loop (S fuel) p addr.
End Proc.
