(* ===== verification/ForkSpec.v ===== *)
(** * [fork]

    [allocproc] takes an unused entry of the process table and gives it a process id, a
    trapframe and a page table that maps nothing but the trampoline and the trapframe; [fork]
    makes the entry a copy of the process that calls it, with memory of its own. *)

From stdpp Require Import gmap strings list.
From S2P Require Import Prelude Layout State Mlfq Sched Cstring Kalloc Vm VmFacts Uvm UvmAlloc VmDemo Fs File Proc.

Section Fork.
Context {bld : Build}.
Hypothesis Hlink : linked.
Hypothesis Htramp : 0 <= sym_trampoline < 2 ^ 40.

(** ** The page table of a new process *)

Definition tramp_flags : Z := Z.lor (Z.lor PTE_R PTE_X) PTE_V.
Definition frame_flags : Z := Z.lor (Z.lor PTE_R PTE_W) PTE_V.

(** The pages [l] before, [l'] after; the others are those of the page table [pg]. *)
Definition took (pg : gmap (list Z) Z) (l l' : list Z) : Prop :=
  exists used, l = used ++ l' /\ forall a, a ∈ used <-> exists p, pg !! p = Some a.

(** No memory changed but in the pages [l]. *)
Definition only_in (l : list Z) (m m' : gmap Z Z) : Prop :=
  forall x, (forall q, q ∈ l -> ~ in_page q x) -> ldb m' x = ldb m x.

(** A page table that maps the trampoline and the trapframe [tf], and no user memory. *)
Record fresh_space (s : kstate) (root tf : Z) (pg : gmap (list Z) Z) (l : list Z) : Prop := {
  fs_space : uspace s root pg l ∅;
  fs_tramp : leaf (mem s) pg TRAMPOLINE = pte_of sym_trampoline tramp_flags;
  fs_frame : leaf (mem s) pg TRAPFRAME = pte_of tf frame_flags
}.

(** One page that the user cannot use. *)
Lemma map_high s root pg l va pa perm :
  tables s root pg l -> LkKmem ∉ held s -> (va = TRAMPOLINE \/ va = TRAPFRAME) -> 0 <= pa < 2 ^ 40 -> 0 <= perm < 1024 ->
  flag (leaf (mem s) pg va) PTE_V = false -> (2 <= length l)%nat ->
  exists s' pg' l', mappages root va PGSIZE pa perm s = Ok 0 s' /\ grows root s pg l s' pg' l' /\
    (length l <= length l' + 2)%nat /\
    forall va', 0 <= va' < MAXVA -> leaf (mem s') pg' va' =
      if decide (va <= va' < va + PGSIZE) then pte_of pa (Z.lor perm PTE_V) else leaf (mem s) pg va'.
Proof.
  intros Ht Hh Hva Hpa Hperm Hfree Hlen.
  destruct (mappages_ok Hlink s root pg l va 1 pa perm Ht Hh) as (r & s' & pg' & l' & k & E & G & Hk & Hlf); try lia.
  { by destruct Hva as [->| ->]. }
  { intros va' Hva'. replace (leaf (mem s) pg va') with (leaf (mem s) pg va); [done|]. unfold leaf.
    destruct (proj2 (PX_same_page va va' ltac:(lia) ltac:(lia))) as (-> & -> & ->); [|done].
    destruct Hva as [->| ->]; Z.div_mod_to_equations; lia. }
  destruct Hk as [(-> & -> & Hk)|(-> & -> & Hk & Hk')]; [|lia].
  exists s', pg', l'. split; [by rewrite Z.mul_1_l in E|]. split; [done|]. split; [lia|].
  intros va' Hva'. rewrite Hlf by done. unfold map_range. rewrite Z.mul_1_l. case_decide as Hd; [|done]. f_equal.
  rewrite PGROUNDDOWN_spec. destruct Hva as [->| ->]; Z.div_mod_to_equations; lia.
Qed.

Lemma proc_pagetable_ok s np pr q l :
  free_list s (q :: l) -> LkKmem ∉ held s -> procs s !! np = Some pr -> page_ok (p_trapframe pr) -> (4 <= length l)%nat ->
  exists s' pg l', proc_pagetable np s = Ok q s' /\ mem_only s s' /\ q <> 0 /\ fresh_space s' q (p_trapframe pr) pg l' /\
    took pg (q :: l) l' /\ (length l <= length l' + 4)%nat /\ only_in (q :: l) (mem s) (mem s').
Proof.
  intros Hf Hh Hp Htf Hlen. destruct (uvmcreate_ok Hlink s q l Hf Hh) as (s1 & E1 & M1 & Hq & U1 & L1 & R1).
  pose proof U1 as [T1 _ _ _ _ _ _].
  destruct (map_high s1 q {[ [] := q ]} l TRAMPOLINE sym_trampoline (Z.lor PTE_R PTE_X) T1) as (s2 & pg2 & l2 & E2 & G2 & K2 & L2);
    [by rewrite (mem_only_held _ _ M1)|by left|done|done|by rewrite L1|lia|].
  destruct (map_high s2 q pg2 l2 TRAPFRAME (p_trapframe pr) (Z.lor PTE_R PTE_W)) as (s3 & pg3 & l3 & E3 & G3 & K3 & L3).
  { apply G2. }
  { by rewrite (grows_held _ _ _ _ _ _ _ G2), (mem_only_held _ _ M1). }
  { by right. }
  { destruct Htf. unfold linked in Hlink. lia. }
  { done. }
  { rewrite L2 by lia. rewrite decide_False by lia. by rewrite L1. }
  { lia. }
  pose proof (grows_trans _ _ _ _ _ _ _ _ _ _ G2 G3) as G. pose proof G as [A1 A2 A3 (used & A4 & A5) A6].
  assert (forall va, 0 <= va < MAXVA -> leaf (mem s3) pg3 va = if decide (TRAPFRAME <= va < TRAPFRAME + PGSIZE) then pte_of (p_trapframe pr) frame_flags
    else if decide (TRAMPOLINE <= va < TRAMPOLINE + PGSIZE) then pte_of sym_trampoline tramp_flags else 0) as Hlf.
  { intros va Hva. rewrite L3 by done. case_decide; [done|]. rewrite L2 by done. case_decide; [done|]. apply L1. }
  assert (pg3 !! [] = Some q) as Hroot by (eapply lookup_weaken; [apply lookup_singleton_eq|exact A3]).
  exists s3, pg3, l3. split; [|split; [by eapply mem_only_trans|]].
  - unfold proc_pagetable. mstep E1. rewrite (proj2 (Z.eqb_neq q 0)) by done. mstep E2. cbn [Z.ltb Z.compare].
    mstep (pget_ok np pr s2 ltac:(rewrite (grows_mem _ _ _ _ _ _ _ G2), M1; done)). by mstep E3.
  - split; [done|]. split; [|split; [|split; [lia|]]].
    + split; [|by rewrite Hlf by lia; rewrite decide_False, decide_True by lia|by rewrite Hlf by lia; rewrite decide_True by lia].
      constructor; try done; [by intros v _ Hv; rewrite Hlf by lia; rewrite !decide_False by lia|].
      intros v Hv. rewrite Hlf by lia. destruct Htf as [_ ?]. unfold linked in Hlink. repeat case_decide; [| |done].
      * rewrite (flag_pte_of (p_trapframe pr) frame_flags PTE_U) by (done || lia). by rewrite andb_false_r.
      * rewrite (flag_pte_of sym_trampoline tramp_flags PTE_U) by (done || lia). by rewrite andb_false_r.
    + exists (q :: used). split; [by rewrite A4|]. intros a. rewrite elem_of_cons, A5. split.
      * intros [->|(p & ? & ?)]; [by exists []|by exists p].
      * intros (p & Hp'). destruct (decide (p = [])) as [->|Hne].
        -- left. congruence.
        -- right. exists p. split; [done|]. by apply lookup_singleton_ne.
    + intros x Hx. rewrite A6.
      * apply R1. apply Hx. left.
      * intros p a [_ <-]%lookup_singleton_Some. apply Hx. left.
      * intros b Hb. apply Hx. by right.
Qed.

(** ** [allocproc] *)

(** Entry [np] is the first that is unused. *)
Definition first_unused (ps : list proc) (np : nat) (pr : proc) : Prop :=
  (np < 64)%nat /\ ps !! np = Some pr /\ p_state pr = UNUSED /\
  forall i, (i < np)%nat -> exists p, ps !! i = Some p /\ p_state p <> UNUSED.

(** What changes when a process is made: memory, the process table, the locks held, the next
    process id. *)
Definition proc_only (s s' : kstate) : Prop :=
  s' = set_held (held s') (set_nextpid (nextpid s') (set_procs (procs s') (set_freelist (freelist s') (set_mem (mem s') s)))).

Lemma proc_only_refl s : proc_only s s.
Proof. by destruct s. Qed.

Lemma proc_only_trans s1 s2 s3 : proc_only s1 s2 -> proc_only s2 s3 -> proc_only s1 s3.
Proof. unfold proc_only. intros -> ->. done. Qed.

Lemma mem_proc_only s s' : mem_only s s' -> proc_only s s'.
Proof. unfold mem_only, proc_only. intros ->. by destruct s. Qed.

Lemma allocproc_loop_ok np pr : forall l1 l2 s, (forall i, LkProc i ∉ held s) -> procs s !! np = Some pr -> p_state pr = UNUSED ->
  (forall i, i ∈ l1 -> exists p, procs s !! i = Some p /\ p_state p <> UNUSED) ->
  allocproc_loop (l1 ++ np :: l2) s = Ok (Some np) (set_held (LkProc np :: held s) s).
Proof.
  induction l1 as [|i l1 IH]; intros l2 s Hh Hp Hu Hl; cbn [allocproc_loop app].
  - mstep (acquire_ok (LkProc np) s (Hh np)). mstep (pget_ok np pr (set_held (LkProc np :: held s) s) Hp). by rewrite bool_decide_true.
  - destruct (Hl i) as (p & Ep & Hpu); [left|]. mstep (acquire_ok (LkProc i) s (Hh i)).
    mstep (pget_ok i p (set_held (LkProc i :: held s) s) Ep). rewrite bool_decide_false by done.
    mstep (lock_cycle (LkProc i) s (set_held (LkProc i :: held s) s) (Hh i) eq_refl).
    assert (set_held (held s) (set_held (LkProc i :: held s) s) = s) as -> by state_eq s.
    apply IH; try done. intros j Hj. apply Hl. by right.
Qed.

Lemma first_split np : (np < 64)%nat -> all_procs = seq 0 np ++ np :: seq (S np) (63 - np).
Proof. intros H. unfold all_procs. change (Z.to_nat NPROC) with 64%nat. replace 64%nat with (np + S (63 - np))%nat by lia. by rewrite seq_app. Qed.

Lemma allocpid_ok s : LkPid ∉ held s -> allocpid s = Ok (nextpid s) (set_nextpid (s32 (nextpid s + 1)) s).
Proof.
  intros Hh. unfold allocpid. mstep (acquire_ok LkPid s Hh). erewrite bind_ok by reflexivity. erewrite bind_ok by reflexivity.
  set (s1 := set_nextpid _ _). mstep (lock_cycle LkPid s s1 Hh eq_refl). unfold s1. do 2 f_equal; state_eq s.
Qed.

(** The entry of a new process with trapframe [t] and page table [q]. *)
Definition born (s : kstate) (t q : Z) (pr : proc) : proc :=
  start_proc (ticks s) (set_p_pagetable q (set_p_trapframe t (set_p_mask 0 (set_p_state USED (set_p_pid (nextpid s) pr))))).

Lemma allocproc_ok s np pr t q l :
  first_unused (procs s) np pr -> held s = [] -> free_list s (t :: q :: l) -> (4 <= length l)%nat ->
  exists s' pg l', allocproc s = Ok (Some np) s' /\ proc_only s s' /\ held s' = [LkProc np] /\
    nextpid s' = s32 (nextpid s + 1) /\ procs s' = <[np := born s t q pr]> (procs s) /\
    page_ok t /\ (t ∉ q :: l) /\ fresh_space s' q t pg l' /\ took pg (q :: l) l' /\ (length l <= length l' + 4)%nat /\
    only_in (t :: q :: l) (mem s) (mem s').
Proof.
  intros (Hnp & Hp & Hst & Hfirst) Hh Hf Hlen.
  set (s1 := set_nextpid (s32 (nextpid s + 1)) (set_held [LkProc np] s)).
  set (pr1 := set_p_mask 0 (set_p_state USED (set_p_pid (nextpid s) pr))).
  set (s2 := set_procs (<[np := pr1]> (procs s)) s1).
  destruct (kalloc_some s2 t (q :: l) Hlink Hf) as (s3 & E3 & M3 & F3 & Ht & Hnt & R3); [cbn; set_solver|].
  set (pr2 := set_p_trapframe t pr1).
  assert (np < length (procs s))%nat as Hlt by (by eapply lookup_lt_Some).
  assert (procs s3 = <[np := pr1]> (procs s)) as Hp3 by (by rewrite M3).
  set (s4 := set_procs (<[np := pr2]> (procs s)) s3).
  assert (set_procs (<[np := set_p_trapframe t pr1]> (procs s3)) s3 = s4) as E4 by (unfold s4, pr2; by rewrite Hp3, list_insert_insert_eq).
  destruct (proc_pagetable_ok s4 np pr2 q l) as (s5 & pg & l' & E5 & M5 & Hq & U5 & T5 & K5 & R5); [done| | |done|done|].
  { unfold s4. cbn. rewrite (mem_only_held _ _ M3). cbn. set_solver. }
  { cbn. by apply list_lookup_insert_eq. }
  assert (t <> 0) as Ht0 by (destruct Ht; unfold linked in Hlink; lia).
  assert (procs s5 !! np = Some pr2) as Hp5 by (rewrite M5; cbn; by apply list_lookup_insert_eq).
  set (s6 := set_procs (<[np := set_p_pagetable q pr2]> (procs s5)) s5).
  assert (procs s6 !! np = Some (set_p_pagetable q pr2)) as Hp6 by (cbn; apply list_lookup_insert_eq; rewrite M5; cbn; by rewrite length_insert).
  set (s7 := set_procs (<[np := start_proc (ticks s6) (set_p_pagetable q pr2)]> (procs s6)) s6).
  assert (ticks s6 = ticks s) as Htk by (unfold s6; cbn; rewrite M5; cbn; rewrite M3; done).
  assert (proc_only s s7) as Hpo.
  { eapply (proc_only_trans s s2); [unfold s2, s1; state_eq s|]. eapply (proc_only_trans s2 s3); [by apply mem_proc_only|].
    eapply (proc_only_trans s3 s4); [unfold s4; by destruct s3|]. eapply (proc_only_trans s4 s5); [by apply mem_proc_only|].
    unfold s7, s6. by destruct s5. }
  exists s7, pg, l'. split; [|split; [done|split; [|split; [|split; [|split; [done|split; [done|split; [|split; [done|split; [done|]]]]]]]]]].
  - unfold allocproc. rewrite (first_split np Hnp).
    mstep (allocproc_loop_ok np pr (seq 0 np) (seq (S np) (63 - np)) s ltac:(rewrite Hh; set_solver) Hp Hst ltac:(intros i Hi%elem_of_seq; apply Hfirst; lia)).
    rewrite Hh. mstep (allocpid_ok (set_held [LkProc np] s) ltac:(cbn; set_solver)). fold s1.
    mstep (pupd_ok np (fun pr => set_p_mask 0 (set_p_state USED (set_p_pid (nextpid s) pr))) pr s1 Hp). fold pr1. change (procs s1) with (procs s). fold s2.
    mstep E3. mstep (pupd_ok np (set_p_trapframe t) pr1 s3 ltac:(rewrite Hp3; by apply list_lookup_insert_eq)). rewrite E4.
    rewrite (proj2 (Z.eqb_neq t 0)) by done. mstep E5. mstep (pupd_ok np (set_p_pagetable q) pr2 s5 Hp5). fold s6.
    rewrite (proj2 (Z.eqb_neq q 0)) by done. erewrite bind_ok by reflexivity. by mstep (pupd_ok np (start_proc (ticks s6)) _ s6 Hp6).
  - cbn. rewrite M5. cbn. by rewrite M3.
  - cbn. rewrite M5. cbn. by rewrite M3.
  - unfold s7. rewrite Htk. unfold s6. cbn. rewrite M5. cbn. by rewrite !list_insert_insert_eq.
  - destruct U5 as [U1 U2 U3]. split; [|done|done]. eapply uspace_frame; [exact U1|exact (tables_free _ _ _ _ (us_tables _ _ _ _ _ U1))|done|done].
  - intros x Hx. unfold s7, s6. cbn. rewrite R5 by (intros b Hb; apply Hx; by right). unfold s4. cbn.
    rewrite R3. rewrite decide_False by (apply Hx; left). done.
Qed.

(** ** The open files *)

Definition bump (f : file) : file := set_f_ref (f_ref f + 1) f.

(** The references after the descriptors [ofs] were duplicated. *)
Fixpoint dup_refs (ofs : list (option nat)) (ft : list file) : list file :=
  match ofs with
  | [] => ft
  | Some f :: ofs => dup_refs ofs (alter bump f ft)
  | None :: ofs => dup_refs ofs ft
  end.

Definition times (f : nat) (ofs : list (option nat)) : Z := Z.of_nat (length (filter (fun o => o = Some f) ofs)).

Lemma dup_refs_lookup ofs : forall ft f, dup_refs ofs ft !! f = (fun x => set_f_ref (f_ref x + times f ofs) x) <$> ft !! f.
Proof.
  induction ofs as [|o ofs IH]; intros ft f.
  - unfold times. cbn. destruct (ft !! f) as [x|]; [|done]. cbn. rewrite Z.add_0_r. by destruct x.
  - destruct o as [g|]; cbn [dup_refs]; rewrite IH; unfold times; rewrite filter_cons.
    + destruct (decide (g = f)) as [->|Hne].
      * rewrite list_lookup_alter_eq. rewrite decide_True by done. cbn [length]. destruct (ft !! f) as [x|]; [|done]. cbn [fmap option_fmap option_map].
        unfold bump. destruct x as [a1 a2]. unfold set_f_ref. cbn [f_ref file_eta]. do 2 f_equal. lia.
      * rewrite list_lookup_alter_ne by done. rewrite decide_False by congruence. done.
    + rewrite decide_False by done. done.
Qed.

(** The descriptors [ks] of [src] copied to [dst]. *)
Fixpoint dup_ofile (ks : list nat) (src dst : list (option nat)) : list (option nat) :=
  match ks with
  | [] => dst
  | k :: ks => dup_ofile ks src (match src !! k with Some (Some f) => <[k := Some f]> dst | _ => dst end)
  end.

Lemma dup_ofile_seq src k : forall n, (n + k <= length src)%nat ->
  dup_ofile (seq n k) src (take n src ++ replicate k None) = take (n + k) src.
Proof.
  induction k as [|k IH]; intros n Hn; cbn [seq dup_ofile replicate]; [by rewrite app_nil_r, Nat.add_0_r|].
  destruct (lookup_lt_is_Some_2 src n ltac:(lia)) as [o Eo]. rewrite Eo.
  replace (n + S k)%nat with (S n + k)%nat by lia. rewrite <- IH by lia. f_equal.
  rewrite (take_S_r _ _ _ Eo), <- app_assoc. cbn [app]. destruct o as [f|]; [|done].
  rewrite insert_app_r_alt; rewrite length_take_le by lia; [|lia]. by rewrite Nat.sub_diag.
Qed.

Lemma dup_ofile_all src : length src = 16%nat -> dup_ofile (seq 0 16) src (replicate 16 None) = src.
Proof. intros H. pose proof (dup_ofile_seq src 16 0 ltac:(lia)) as E. by rewrite (take_ge src (0 + 16)) in E by lia. Qed.

Lemma filedup_ok s f x : LkFtable ∉ held s -> ftable s !! f = Some x -> 1 <= f_ref x ->
  filedup f s = Ok f (set_ftable (alter bump f (ftable s)) s).
Proof.
  intros Hh Hx Hr. unfold filedup. mstep (acquire_ok LkFtable s Hh). set (s1 := set_held _ s).
  assert (file_at f s1 = Ok x s1) as E1 by (unfold file_at; cbn; by rewrite Hx). mstep E1.
  rewrite (proj2 (Z.ltb_ge (f_ref x) 1)) by lia.
  assert (fupdate f (fun f => set_f_ref (f_ref f + 1) f) s1 = Ok tt (set_ftable (alter bump f (ftable s)) s1)) as E2
    by (unfold fupdate; cbn; by rewrite Hx). mstep E2.
  set (s2 := set_ftable _ s1). mstep (lock_cycle LkFtable s s2 Hh eq_refl). unfold s2, s1. do 2 f_equal; state_eq s.
Qed.

(** Descriptors refer to open files. *)
Definition open_files (ft : list file) (ofs : list (option nat)) : Prop :=
  forall f, Some f ∈ ofs -> exists x, ft !! f = Some x /\ 1 <= f_ref x.

Lemma open_files_bump ft ofs g : open_files ft ofs -> open_files (alter bump g ft) ofs.
Proof.
  intros Ho f Hf. destruct (Ho f Hf) as (x & E & Hx). destruct (decide (g = f)) as [->|Hne].
  - exists (bump x). rewrite list_lookup_alter_eq, E. split; [done|]. cbn. lia.
  - exists x. by rewrite list_lookup_alter_ne.
Qed.

Lemma dup_loop_ok p np pr : p <> np -> forall ks s npr, (forall k, k ∈ ks -> (k < length (p_ofile pr))%nat) ->
  LkFtable ∉ held s -> procs s !! p = Some pr -> procs s !! np = Some npr -> open_files (ftable s) (p_ofile pr) ->
  for_each ks (dup_file p np) s =
    Ok tt (set_ftable (dup_refs (omap (fun k => p_ofile pr !! k) ks) (ftable s))
      (set_procs (<[np := set_p_ofile (dup_ofile ks (p_ofile pr) (p_ofile npr)) npr]> (procs s)) s)).
Proof.
  intros Hne. induction ks as [|k ks IH]; intros s npr Hks Hh Hp Hnp Ho.
  - cbn. unfold ret. f_equal. rewrite list_insert_id; [state_eq s|]. rewrite Hnp. by destruct npr.
  - cbn [for_each dup_ofile]. destruct (lookup_lt_is_Some_2 (p_ofile pr) k) as [o Eo]; [apply Hks; left|].
    cbn [omap list_omap]. rewrite Eo.
    assert (forall j, j ∈ ks -> (j < length (p_ofile pr))%nat) as Hks' by (intros j Hj; apply Hks; by right). destruct o as [f|].
    + destruct (Ho f) as (x & Ex & Hx); [by eapply list_elem_of_lookup_2|].
      set (s1 := set_ftable (alter bump f (ftable s)) s). set (npr1 := set_p_ofile (<[k := Some f]> (p_ofile npr)) npr).
      set (s2 := set_procs (<[np := npr1]> (procs s)) s1).
      assert (dup_file p np k s = Ok tt s2) as E.
      { unfold dup_file. mstep (pget_ok p pr s Hp). rewrite Eo. erewrite bind_ok by reflexivity. cbv beta iota. mstep (filedup_ok s f x Hh Ex Hx). fold s1.
        by rewrite (pupd_ok np _ npr s1 Hnp). }
      mstep E. assert (np < length (procs s))%nat as Hlt by (by eapply lookup_lt_Some).
      rewrite (IH s2 npr1); try done; [| | |].
      * f_equal. unfold s2, s1, npr1. cbn. rewrite list_insert_insert_eq. by destruct s, npr.
      * cbn. by rewrite list_lookup_insert_ne.
      * cbn. by apply list_lookup_insert_eq.
      * by apply open_files_bump.
    + assert (dup_file p np k s = Ok tt s) as E.
      { unfold dup_file. mstep (pget_ok p pr s Hp). by rewrite Eo. }
      mstep E. rewrite (IH s npr); try done.
Qed.

(** ** The rest of [fork] *)

Lemma omap_seq {A} (l : list A) k : forall n, omap (fun i => l !! i) (seq n k) = take k (drop n l).
Proof.
  induction k as [|k IH]; intros n; [done|]. cbn [seq omap list_omap]. destruct (l !! n) as [a|] eqn:E.
  - rewrite (drop_S _ _ _ E). cbn [take]. by rewrite IH.
  - apply lookup_ge_None in E. rewrite IH, !drop_ge by lia. by rewrite !take_nil.
Qed.

Lemma idup_ok s i ip : LkItable ∉ held s -> itable s !! i = Some ip ->
  idup i s = Ok i (set_itable (<[i := set_i_ref (i_ref ip + 1) ip]> (itable s)) s).
Proof.
  intros Hh Hi. unfold idup. mstep (acquire_ok LkItable s Hh). set (s1 := set_held _ s).
  assert (iupd i (fun ip => set_i_ref (i_ref ip + 1) ip) s1 = Ok tt (set_itable (<[i := set_i_ref (i_ref ip + 1) ip]> (itable s)) s1)) as E.
  { unfold iupd. cbn. rewrite Hi. by rewrite (Bio.alter_is_insert _ i (itable s) ip). }
  mstep E. set (s2 := set_itable _ s1). mstep (lock_cycle LkItable s s2 Hh eq_refl). unfold s2, s1. do 2 f_equal; state_eq s.
Qed.

(** The queues have room for a process where there are queues. *)
Definition queue_room (s : kstate) : Prop :=
  SCHEDULER = MLFQ -> exists qs l, repr s qs /\ qs !! 0%nat = Some l /\ (length l < 64)%nat.

(** What the rest of [fork] changes. *)
Definition tail_only (s s' : kstate) : Prop :=
  s' = set_held [] (set_procs (procs s') (set_ftable (ftable s') (set_itable (itable s')
    (set_queues (queues s') (set_q_index (q_index s') s))))).

(** The end: the child becomes runnable. *)
Lemma make_runnable s np npr : held s = [] -> procs s !! np = Some npr -> queue_room s ->
  exists s' f, (forall k : K Z, (acquire (LkProc np) ;; pupd np (set_p_state RUNNABLE) ;;
      when (bool_decide (SCHEDULER = MLFQ)) (push np 0) ;; release (LkProc np) ;; k) s = k s') /\
    procs s' = <[np := f (set_p_state RUNNABLE npr)]> (procs s) /\ (f = id \/ f = pushed 0) /\
    s' = set_procs (procs s') (set_queues (queues s') (set_q_index (q_index s') s)).
Proof.
  intros Hh Hp Hq. pose proof (acquire_ok (LkProc np) s ltac:(rewrite Hh; set_solver)) as E0. rewrite Hh in E0.
  pose proof (pupd_ok np (set_p_state RUNNABLE) npr (set_held [LkProc np] s) Hp) as E1. set (s1 := set_procs _ _) in E1.
  assert (procs s1 = <[np := set_p_state RUNNABLE npr]> (procs s)) as Hp1 by done.
  assert (np < length (procs s))%nat as Hlt by (by eapply lookup_lt_Some). unfold when. case_bool_decide as Hm.
  - destruct (Hq Hm) as (qs & l & Hr & Hl & Hlen).
    destruct (push_run s1 qs np (set_p_state RUNNABLE npr) 0 l) as (qq & qi & E & _); [done|by rewrite Hp1; apply list_lookup_insert_eq|done|done|].
    eexists _, (pushed 0). split; [intros k; mstep E0; mstep E1; mstep E; erewrite bind_ok; [reflexivity|apply (release_ok (LkProc np) _ []); [reflexivity|set_solver]]|].
    cbn. rewrite list_insert_insert_eq. split; [done|]. split; [by right|]. destruct s; cbn in Hh; subst; done.
  - eexists _, id. split; [intros k; mstep E0; mstep E1; erewrite bind_ok by reflexivity; erewrite bind_ok; [reflexivity|apply (release_ok (LkProc np) _ []); [reflexivity|set_solver]]|].
    split; [done|]. split; [by left|]. destruct s; cbn in Hh; subst; done.
Qed.

(** The child's entry when [fork] is done with it. *)
Definition copied_from (p : nat) (pr : proc) (nm : list Z) (npr : proc) : proc :=
  set_p_state RUNNABLE (set_p_parent (Some p) (set_p_name nm (set_p_cwd (p_cwd pr) (set_p_ofile (p_ofile pr) npr)))).

Lemma fork_tail s p np pr npr c ip nm :
  p <> np -> held s = [LkProc np] -> procs s !! p = Some pr -> procs s !! np = Some npr ->
  length (p_ofile pr) = 16%nat -> p_ofile npr = replicate 16 None -> open_files (ftable s) (p_ofile pr) ->
  p_cwd pr = Some c -> itable s !! c = Some ip -> safestrcpy (p_name npr) (p_name pr) 16 = Some nm -> queue_room s ->
  exists s' f, (for_each (seq 0 16) (dup_file p np) ;;
      let! cwd := deref "cwd" (p_cwd pr) in
      let! cwd := idup cwd in
      pupd np (set_p_cwd (Some cwd)) ;;
      set_name np (p_name pr) ;;
      let! npr := pget np in
      let pid := p_pid npr in
      release (LkProc np) ;;
      acquire LkWait ;;
      pupd np (set_p_parent (Some p)) ;;
      release LkWait ;;
      acquire (LkProc np) ;;
      pupd np (set_p_state RUNNABLE) ;;
      when (bool_decide (SCHEDULER = MLFQ)) (push np 0) ;;
      release (LkProc np) ;;
      ret pid) s = Ok (p_pid npr) s' /\
    tail_only s s' /\ procs s' = <[np := f (copied_from p pr nm npr)]> (procs s) /\ (f = id \/ f = pushed 0) /\
    ftable s' = dup_refs (p_ofile pr) (ftable s) /\ itable s' = <[c := set_i_ref (i_ref ip + 1) ip]> (itable s).
Proof.
  intros Hne Hh Hp Hnp Hlen Hof Ho Hc Hip Hnm Hq. assert (np < length (procs s))%nat as Hlt by (by eapply lookup_lt_Some).
  pose proof (dup_loop_ok p np pr Hne (seq 0 16) s npr ltac:(intros k Hk%elem_of_seq; lia) ltac:(rewrite Hh; set_solver) Hp Hnp Ho) as E1.
  rewrite Hof, dup_ofile_all, omap_seq, drop_0, take_ge in E1 by lia. set (npr1 := set_p_ofile (p_ofile pr) npr) in E1.
  set (s1 := set_ftable _ _) in E1. assert (held s1 = [LkProc np]) as Hh1 by done.
  pose proof (idup_ok s1 c ip ltac:(rewrite Hh1; set_solver) Hip) as E2. set (s2 := set_itable _ s1) in E2.
  assert (procs s2 = <[np := npr1]> (procs s)) as Hp2 by done.
  assert (procs s2 !! np = Some npr1) as Hn2 by (rewrite Hp2; by apply list_lookup_insert_eq).
  set (npr3 := set_p_cwd (Some c) npr1). set (s3 := set_procs (<[np := npr3]> (procs s)) s2).
  assert (pupd np (set_p_cwd (Some c)) s2 = Ok tt s3) as E3 by (rewrite (pupd_ok np _ npr1 s2 Hn2), Hp2, list_insert_insert_eq; done).
  assert (procs s3 !! np = Some npr3) as Hn3 by (by apply list_lookup_insert_eq).
  set (npr4 := set_p_name nm npr3). set (s4 := set_procs (<[np := npr4]> (procs s)) s3).
  assert (set_name np (p_name pr) s3 = Ok tt s4) as E4.
  { unfold set_name. mstep (pget_ok np npr3 s3 Hn3). change (p_name npr3) with (p_name npr). rewrite Hnm. erewrite bind_ok by reflexivity.
    rewrite (pupd_ok np _ npr3 s3 Hn3). unfold s4. cbn. by rewrite list_insert_insert_eq. }
  assert (procs s4 !! np = Some npr4) as Hn4 by (by apply list_lookup_insert_eq).
  set (s5 := set_held [] s4). assert (release (LkProc np) s4 = Ok tt s5) as E5 by (apply release_ok; [done|set_solver]).
  set (npr6 := set_p_parent (Some p) npr4). set (s6 := set_procs (<[np := npr6]> (procs s)) s5).
  destruct (make_runnable s6 np npr6 eq_refl) as (s' & f & E6 & Hp' & Hf & Hs'); [by apply list_lookup_insert_eq|done|].
  exists s', f. split; [|split; [|split; [|split; [done|]]]].
  - mstep E1. rewrite Hc. erewrite bind_ok by reflexivity. mstep E2. mstep E3. mstep E4. mstep (pget_ok np npr4 s4 Hn4). cbv zeta. mstep E5.
    mstep (acquire_ok LkWait s5 ltac:(cbn; set_solver)).
    mstep (pupd_ok np (set_p_parent (Some p)) npr4 (set_held (LkWait :: held s5) s5) Hn4). fold npr6.
    mstep (lock_cycle LkWait s5 (set_procs (<[np := npr6]> (procs (set_held (LkWait :: held s5) s5))) (set_held (LkWait :: held s5) s5)) ltac:(cbn; set_solver) eq_refl).
    assert (set_held (held s5) (set_procs (<[np := npr6]> (procs (set_held (LkWait :: held s5) s5))) (set_held (LkWait :: held s5) s5)) = s6) as ->
      by (unfold s6, s5, s4; cbn; by rewrite list_insert_insert_eq).
    rewrite E6. done.
  - unfold tail_only. rewrite Hs'. unfold s6, s5, s4, s3, s2, s1. by destruct s.
  - rewrite Hp'. unfold s6. cbn. rewrite list_insert_insert_eq. unfold npr6, npr4, npr3, npr1, copied_from. by rewrite Hc.
  - rewrite Hs'. done.
Qed.

(** ** Memory *)

Lemma uspace_same s s' root pg l um : uspace s root pg l um -> mem s' = mem s -> freelist s' = freelist s -> uspace s' root pg l um.
Proof.
  intros Hu Hm Hf. eapply uspace_frame; [exact Hu| |done|intros; by rewrite Hm].
  pose proof (tables_free _ _ _ _ (us_tables _ _ _ _ _ Hu)) as (F1 & F2 & F3). split; [by rewrite Hm, Hf|done].
Qed.

Lemma free_page s root pg l um q : uspace s root pg l um -> q ∈ l -> page_ok q.
Proof. intros Hu Hq. destruct (tables_free _ _ _ _ (us_tables _ _ _ _ _ Hu)) as (_ & _ & Hok). rewrite Forall_forall in Hok. auto. Qed.

(** A page that is not among the pages [l] keeps its contents. *)
Lemma only_in_page l m m' a x : only_in l m m' -> (forall q, q ∈ l -> page_ok q) -> page_ok a -> a ∉ l -> in_page a x -> ldb m' x = ldb m x.
Proof. intros Ho Hl Ha Hn Hx. apply Ho. intros q Hq. apply (page_apart a q x); [done|auto| |done]. by intros ->. Qed.

Lemma only_in_trans l m m' m'' : only_in l m m' -> only_in l m' m'' -> only_in l m m''.
Proof. intros H1 H2 x Hx. by rewrite H2, H1. Qed.

(** A write to the page [t], which is in no one's address space. *)
Lemma uspace_write_page s root pg l um t m :
  uspace s root pg l um -> page_ok t -> t ∉ l -> (forall p, pg !! p <> Some t) -> only_in [t] (mem s) m ->
  uspace (set_mem m s) root pg l um.
Proof.
  intros Hu Ht Hl Hp Hm. eapply uspace_frame; [exact Hu| |done|].
  - apply (free_list_frame s _ l t); [apply Hu|done|apply Ht|done|]. intros x Hx. apply Hm. by intros q ->%list_elem_of_singleton.
  - intros p a x Ep Hx. apply (only_in_page [t] _ _ a x Hm); [by intros q ->%list_elem_of_singleton|by eapply pt_page; [apply Hu|]| |done].
    rewrite list_elem_of_singleton. intros ->. by apply (Hp p).
Qed.

Lemma uget_write_page s root pg l um t m va :
  uspace s root pg l um -> page_ok t -> (forall v fl, um !! v <> Some (t, fl)) -> only_in [t] (mem s) m -> uget m um va = uget (mem s) um va.
Proof.
  intros Hu Ht Hv Hm. unfold uget. destruct (um !! (va / PGSIZE)) as [[pa fl]|] eqn:E; [|done]. destruct (user_ok fl); [|done]. f_equal.
  apply (only_in_page [t] _ _ pa _ Hm); [by intros q ->%list_elem_of_singleton|by eapply (us_leaf _ _ _ _ _ Hu)| |].
  - rewrite list_elem_of_singleton. intros ->. by apply (Hv (va / PGSIZE) fl).
  - unfold in_page. pose proof (Z.mod_pos_bound va PGSIZE ltac:(lia)). lia.
Qed.

(** The trapframe of the child. *)
Definition child_frame (m : gmap Z Z) (t tf : Z) : gmap Z Z := st64 (stl m t (ldl m tf 288)) (t + TF_A0) 0.

Lemma child_frame_only m t tf : page_ok t -> only_in [t] m (child_frame m t tf).
Proof.
  intros Ht x Hx. assert (~ in_page t x) as Hn by (apply Hx; left). unfold in_page in Hn. unfold child_frame.
  rewrite ldb_st64_ne by lia. apply ldb_stl_out. rewrite length_ldl. lia.
Qed.

Lemma child_frame_get m t tf off : (off mod 8 = 0) -> 0 <= off -> off + 8 <= 288 ->
  ld64 (child_frame m t tf) (t + off) = if decide (off = TF_A0) then 0 else ld64 m (tf + off).
Proof.
  intros Ha H0 H1. unfold child_frame. case_decide as E; [subst; by rewrite ld64_st64_eq|].
  rewrite ld64_st64_ne by (Z.div_mod_to_equations; lia). apply ld64_cong. intros k Hk.
  pose proof (ldb_stl_in m t (ldl m tf 288) (Z.to_nat off + k)) as Hin. rewrite length_ldl, lookup_ldl in Hin by lia. specialize (Hin ltac:(lia)).
  apply Some_inj in Hin. replace (t + off + Z.of_nat k) with (t + Z.of_nat (Z.to_nat off + k)) by lia. rewrite Hin.
  replace (tf + off + Z.of_nat k) with (tf + Z.of_nat (Z.to_nat off + k)) by lia. pose proof (ldb_range m (tf + Z.of_nat (Z.to_nat off + k))).
  unfold u8. by rewrite Z.mod_small by lia.
Qed.

(** ** [fork] *)

(** A process [p] that calls [fork]: it runs, holds no spinlock, and has its address space, its
    trapframe, its open files and its directory. *)
Record parent_ok (s : kstate) (p : nat) (pr : proc) (pg : gmap (list Z) Z) (l : list Z) (um : gmap Z (Z * Z)) (c : nat) (ip : inode) : Prop := {
  pa_cur : cur s = Some p;
  pa_held : held s = [];
  pa_proc : procs s !! p = Some pr;
  pa_state : p_state pr <> UNUSED;
  pa_space : uspace s (p_pagetable pr) pg l um;
  pa_size : sized um (p_sz pr) /\ 0 <= p_sz pr <= UPAGES * PGSIZE;
  pa_frame : page_ok (p_trapframe pr) /\ (p_trapframe pr ∉ l);
  pa_files : length (p_ofile pr) = 16%nat /\ open_files (ftable s) (p_ofile pr);
  pa_cwd : p_cwd pr = Some c /\ itable s !! c = Some ip;
  pa_name : terminated (p_name pr)
}.

(** An entry of the table that [exit] and [freeproc] left: no open files. *)
Definition clean (npr : proc) : Prop := p_ofile npr = replicate 16 None /\ length (p_name npr) = 16%nat.

(** The child's address space: the parent's memory [um] of [m], in pages that were free. *)
Record child_space (s' : kstate) (m : gmap Z Z) (um : gmap Z (Z * Z)) (l : list Z) (sz root t : Z)
    (pg' : gmap (list Z) Z) (l' : list Z) (um' : gmap Z (Z * Z)) : Prop := {
  cs_space : uspace s' root pg' l' um';
  cs_size : sized um' sz;
  cs_bytes : forall va, uget (mem s') um' va = uget m um va;
  cs_tramp : leaf (mem s') pg' TRAMPOLINE = pte_of sym_trampoline tramp_flags;
  cs_frame : leaf (mem s') pg' TRAPFRAME = pte_of t frame_flags;
  cs_tables : forall p a, pg' !! p = Some a -> a ∈ l;
  cs_pages : forall v pa fl, um' !! v = Some (pa, fl) -> pa ∈ l;
  cs_t : t ∈ l /\ (t ∉ l') /\ (forall p, pg' !! p <> Some t) /\ (forall v fl, um' !! v <> Some (t, fl))
}.

(** The child's page table is filled. *)
Lemma copy_space s s1 p pr pg um c ip np t q l pgc l1 :
  parent_ok s p pr pg (t :: q :: l) um c ip -> proc_only s s1 -> held s1 = [LkProc np] -> page_ok t -> t ∉ q :: l ->
  fresh_space s1 q t pgc l1 -> took pgc (q :: l) l1 -> 3 * npages (p_sz pr) <= Z.of_nat (length l1) ->
  only_in (t :: q :: l) (mem s) (mem s1) ->
  exists s2 pg' l' um', uvmcopy (p_pagetable pr) q (p_sz pr) s1 = Ok 0 s2 /\ mem_only s1 s2 /\
    child_space s2 (mem s) um (t :: q :: l) (p_sz pr) q t pg' l' um' /\
    uspace s2 (p_pagetable pr) pg l' um /\ (forall a, a ∈ l' -> a ∈ q :: l) /\ only_in (t :: q :: l) (mem s) (mem s2).
Proof.
  intros [P1 P2 P3 P4 Hu [Hsz Hszr] Hf P8 P9 P10] Hpo Hh Ht Htn [Uc Ltr Lfr] (used & Hused & Hpgc) Hlen Ho.
  assert (forall b, b ∈ t :: q :: l -> page_ok b) as Hpages by (intros b Hb; exact (free_page _ _ _ _ _ _ Hu Hb)).
  assert (forall a, a ∈ l1 -> a ∈ q :: l) as Hl1 by (intros a Ha; rewrite Hused; apply elem_of_app; by right).
  assert (forall x a, pgc !! x = Some a -> a ∈ q :: l) as Hc by (intros x a Ha; rewrite Hused; apply elem_of_app; left; apply Hpgc; eauto).
  assert (uspace s1 (p_pagetable pr) pg l1 um) as Hu1.
  { eapply uspace_frame; [exact Hu|apply Uc|intros a Ha; right; by apply Hl1|].
    intros x a y Ea Hy. apply (only_in_page _ _ _ a y Ho Hpages); [by eapply pt_page; [apply Hu|]|by eapply tables_disj; [apply Hu|]|done]. }
  destruct (uvmcopy_ok Hlink s1 (p_pagetable pr) q pg pgc l1 um (p_sz pr) Hu1 Uc) as (r & s2 & pg' & l' & um' & E & G & Hu2 & Hsame & Hor); try done.
  { rewrite Hh. set_solver. }
  { intros x y a Ea Ey. apply (tables_disj _ _ _ _ (us_tables _ _ _ _ _ Hu) x a Ea). right. by eapply Hc. }
  { intros v pa fl y Ev Ey. apply (us_free _ _ _ _ _ Hu v pa fl Ev). right. by eapply Hc. }
  destruct Hor as [(-> & Hsz' & Hget)|(_ & _ & Hbad)]; [|lia]. pose proof G as [A1 A2 A3 A4 A5 A6 A7].
  assert (forall a, a ∈ l' -> a ∈ q :: l) as Hl' by (intros a Ha; apply Hl1, A6; by left).
  assert (forall x a, pg' !! x = Some a -> a ∈ q :: l) as Hpg'.
  { intros x a Ea. destruct (pgc !! x) as [b|] eqn:Eb; [|apply Hl1, A6; right; left; eauto].
    pose proof (lookup_weaken _ _ _ _ Eb A3). assert (a = b) as -> by congruence. by eapply Hc. }
  assert (forall v pa fl, um' !! v = Some (pa, fl) -> pa ∈ q :: l) as Hum'.
  { intros v pa fl Ev. apply Hl1, A6. right. right. exists v, fl. by rewrite lookup_empty. }
  exists s2, pg', l', um'. split; [done|]. split; [done|]. split; [|split; [done|split; [done|]]].
  - split; try done.
    + intros va. rewrite Hget. apply upages_same_uget. intros v pa fl x Ev Hx.
      apply (only_in_page _ _ _ pa x Ho Hpages); [by eapply (us_leaf _ _ _ _ _ Hu)|by eapply (us_free _ _ _ _ _ Hu)|done].
    + rewrite <- Ltr. apply (A5 (TRAMPOLINE / PGSIZE)). by vm_compute.
    + rewrite <- Lfr. apply (A5 (TRAPFRAME / PGSIZE)). by vm_compute.
    + intros x a Ea. right. by eapply Hpg'.
    + intros v pa fl Ev. right. by eapply Hum'.
    + split; [left|]. split; [intros Hb; by apply Htn, Hl'|]. split; [intros x Ex; by eapply Htn, Hpg'|intros v fl Ev; by eapply Htn, Hum'].
  - eapply only_in_trans; [exact Ho|]. intros x Hx. apply A7.
    + intros y a Ea. apply Hx. right. by eapply Hc.
    + intros b Hb. apply Hx. right. by apply Hl1.
Qed.

(** The child's trapframe is written, and what else [fork] changes is not memory. *)
Lemma child_space_frame s s' m um l sz root t tf pg' l' um' : page_ok t ->
  child_space s m um l sz root t pg' l' um' -> mem s' = child_frame (mem s) t tf -> freelist s' = freelist s ->
  child_space s' m um l sz root t pg' l' um'.
Proof.
  intros Ht [C1 C2 C3 C4 C5 C6 C7 (C8 & C9 & C10 & C11)] Hm Hf. pose proof (child_frame_only (mem s) t tf Ht) as Ho.
  assert (forall va, leaf (mem s') pg' va = leaf (mem s) pg' va) as Hlf.
  { intros va. rewrite Hm. apply leaf_ext. intros p a x Ea _ Hx. apply (only_in_page [t] _ _ a x Ho); [by intros b ->%list_elem_of_singleton| | |done].
    - by eapply pt_page; [apply C1|].
    - rewrite list_elem_of_singleton. intros ->. by apply (C10 p). }
  split; [|exact C2| |by rewrite Hlf|by rewrite Hlf|exact C6|exact C7|by split_and!].
  - eapply (uspace_same (set_mem (child_frame (mem s) t tf) s)); [|done|done]. eapply uspace_write_page; done.
  - intros va. rewrite <- C3, Hm. by eapply uget_write_page.
Qed.

(** The state in which [fork] copies the open files. *)
Definition copied_state (s2 : kstate) (np : nat) (npr : proc) (t tf : Z) : kstate :=
  set_mem (child_frame (mem s2) t tf) (set_procs (<[np := npr]> (procs s2)) s2).

Lemma fork_head s p pr pg um c ip np npr t q l :
  parent_ok s p pr pg (t :: q :: l) um c ip -> first_unused (procs s) np npr -> 4 + 3 * npages (p_sz pr) <= Z.of_nat (length l) ->
  let npr1 := set_p_mask (p_mask pr) (set_p_sz (p_sz pr) (born s t q npr)) in
  exists s2 pg' l' um',
    let s3 := copied_state s2 np npr1 t (p_trapframe pr) in
    fork s = (for_each (seq 0 16) (dup_file p np) ;;
      let! cwd := deref "cwd" (p_cwd pr) in
      let! cwd := idup cwd in
      pupd np (set_p_cwd (Some cwd)) ;;
      set_name np (p_name pr) ;;
      let! npr := pget np in
      let pid := p_pid npr in
      release (LkProc np) ;;
      acquire LkWait ;;
      pupd np (set_p_parent (Some p)) ;;
      release LkWait ;;
      acquire (LkProc np) ;;
      pupd np (set_p_state RUNNABLE) ;;
      when (bool_decide (SCHEDULER = MLFQ)) (push np 0) ;;
      release (LkProc np) ;;
      ret pid) s3 /\
    proc_only s s3 /\ held s3 = [LkProc np] /\ nextpid s3 = s32 (nextpid s + 1) /\ procs s3 = <[np := npr1]> (procs s) /\
    child_space s3 (mem s) um (t :: q :: l) (p_sz pr) q t pg' l' um' /\
    uspace s3 (p_pagetable pr) pg l' um /\ only_in (t :: q :: l) (mem s) (mem s3) /\
    forall off, off mod 8 = 0 -> 0 <= off -> off + 8 <= 288 ->
      ld64 (mem s3) (t + off) = if decide (off = TF_A0) then 0 else ld64 (mem s) (p_trapframe pr + off).
Proof.
  intros Hpa Hfu Hlen npr1. pose proof Hpa as [P1 P2 P3 P4 Hu [Hsz Hszr] [Htf Htfl] P8 P9 P10]. pose proof Hfu as (Hnp & Hn & Hun & _).
  pose proof (npages_nonneg (p_sz pr) ltac:(lia)) as Hn0.
  destruct (allocproc_ok s np npr t q l Hfu P2) as (s1 & pgc & l1 & E1 & O1 & H1 & N1 & Q1 & Ht & Htn & U1 & T1 & K1 & R1); [apply Hu|lia|].
  destruct (copy_space s s1 p pr pg um c ip np t q l pgc l1 Hpa O1 H1 Ht Htn U1 T1 ltac:(lia) R1) as (s2 & pg' & l' & um' & E2 & M2 & C2 & Up & Hl' & R2).
  assert (p <> np) as Hne by congruence. assert (np < length (procs s))%nat as Hlt by (by eapply lookup_lt_Some).
  assert (procs s2 = <[np := born s t q npr]> (procs s)) as Q2 by (rewrite M2; cbn; done).
  set (s3 := copied_state s2 np npr1 t (p_trapframe pr)).
  assert (forall b, b ∈ t :: q :: l -> page_ok b) as Hpages by (intros b Hb; exact (free_page _ _ _ _ _ _ Hu Hb)).
  exists s2, pg', l', um'. cbv zeta. fold s3. split; [|split; [|split; [|split; [|split; [|split; [|split; [|split]]]]]]].
  - unfold fork. assert (curproc s = Ok p s) as E0 by (unfold curproc, myproc, bind; cbn [gets obind]; by rewrite P1). mstep E0. mstep E1. cbv beta iota.
    mstep (pget_ok p pr s1 ltac:(by rewrite Q1, list_lookup_insert_ne)).
    mstep (pget_ok np (born s t q npr) s1 ltac:(rewrite Q1; by apply list_lookup_insert_eq)). change (p_pagetable (born s t q npr)) with q. mstep E2.
    cbn [Z.ltb Z.compare]. mstep (pupd_ok np (set_p_sz (p_sz pr)) (born s t q npr) s2 ltac:(rewrite Q2; by apply list_lookup_insert_eq)).
    set (s2a := set_procs _ s2). assert (procs s2a !! np = Some (set_p_sz (p_sz pr) (born s t q npr))) as Ha by (cbn; rewrite Q2, list_insert_insert_eq; by apply list_lookup_insert_eq).
    mstep (pupd_ok np (set_p_mask (p_mask pr)) _ s2a Ha). fold npr1. change (p_trapframe (born s t q npr)) with t. erewrite bind_ok by reflexivity.
    set (s2b := set_mem _ _). assert (tf_set np TF_A0 0 s2b = Ok tt s3) as Eb; [|by mstep Eb].
    unfold tf_set. assert (procs s2b !! np = Some npr1) as Hb by (cbn; rewrite Q2, !list_insert_insert_eq; by apply list_lookup_insert_eq).
    mstep (pget_ok np npr1 s2b Hb). change (p_trapframe npr1) with t. unfold modify, s3, copied_state, child_frame, s2b, s2a. cbn. by rewrite list_insert_insert_eq.
  - eapply proc_only_trans; [exact O1|]. eapply proc_only_trans; [by apply mem_proc_only|]. unfold s3, copied_state. by destruct s2.
  - cbn. by rewrite (mem_only_held _ _ M2).
  - cbn. by rewrite M2.
  - change (procs s3) with (<[np := npr1]> (procs s2)). rewrite Q2. apply list_insert_insert_eq.
  - eapply child_space_frame; [exact Ht|exact C2|reflexivity|reflexivity].
  - eapply (uspace_same (set_mem (child_frame (mem s2) t (p_trapframe pr)) s2)); [|done|done].
    apply (uspace_write_page s2 _ _ _ _ t); [done|done|by apply C2| |by apply child_frame_only].
    intros x Ex. apply (tables_disj _ _ _ _ (us_tables _ _ _ _ _ Hu) x t Ex). left.
  - eapply only_in_trans; [exact R2|]. intros x Hx. apply child_frame_only; [done|]. intros b ->%list_elem_of_singleton. apply Hx. left.
  - intros off Ha H0 H288. cbn [mem s3 copied_state set_mem set_procs]. rewrite child_frame_get by done. case_decide; [done|].
    apply ld64_ext. intros x Hx. apply (only_in_page _ _ _ (p_trapframe pr) x R2 Hpages Htf Htfl). unfold in_page. lia.
Qed.

(** What the child's entry [npr'] has of its parent [p]. *)
Record child_of (p : nat) (pr : proc) (pid : Z) (npr' : proc) : Prop := {
  co_state : p_state npr' = RUNNABLE;
  co_pid : p_pid npr' = pid;
  co_parent : p_parent npr' = Some p;
  co_sz : p_sz npr' = p_sz pr;
  co_mask : p_mask npr' = p_mask pr;
  co_ofile : p_ofile npr' = p_ofile pr;
  co_cwd : p_cwd npr' = p_cwd pr;
  co_name : cstr (p_name npr') = take 15 (cstr (p_name pr))
}.

Lemma child_of_pushed p pr pid npr f : f = id \/ f = pushed 0 -> child_of p pr pid npr -> child_of p pr pid (f npr).
Proof. intros [->| ->] []; [by split|]. split; done. Qed.

(** C12: [fork] with a free entry in the table and enough memory makes a copy of the caller
    that shares nothing with it but files: the child is runnable, has the next process id, the
    caller as its parent, the same size, descriptors, directory, name and trace mask; at every
    user address it sees the byte that the parent saw, and its trapframe has the parent's
    registers but for a 0 as the result; its pages, tables and trapframe are pages that were
    free, no other memory changes, and the parent keeps its address space.  Each open file
    has one reference more for each descriptor of it, and the directory has one more.  The
    parent gets the process id. *)
Theorem fork_spec s p pr pg um c ip np npr l :
  parent_ok s p pr pg l um c ip -> first_unused (procs s) np npr -> clean npr -> queue_room s ->
  6 + 3 * npages (p_sz pr) <= Z.of_nat (length l) ->
  exists s' npr' pg' l' um', fork s = Ok (nextpid s) s' /\ held s' = [] /\ cur s' = Some p /\ nextpid s' = s32 (nextpid s + 1) /\
    procs s' = <[np := npr']> (procs s) /\ child_of p pr (nextpid s) npr' /\
    child_space s' (mem s) um l (p_sz pr) (p_pagetable npr') (p_trapframe npr') pg' l' um' /\
    (forall off, off mod 8 = 0 -> 0 <= off -> off + 8 <= 288 ->
      ld64 (mem s') (p_trapframe npr' + off) = if decide (off = TF_A0) then 0 else ld64 (mem s) (p_trapframe pr + off)) /\
    uspace s' (p_pagetable pr) pg l' um /\ only_in l (mem s) (mem s') /\
    (forall f x, ftable s !! f = Some x -> ftable s' !! f = Some (set_f_ref (f_ref x + times f (p_ofile pr)) x)) /\
    itable s' = <[c := set_i_ref (i_ref ip + 1) ip]> (itable s).
Proof.
  intros Hpa Hfu [Hc1 Hc2] Hq Hlen. pose proof Hpa as [P1 P2 P3 P4 Hu [Hsz Hszr] Htf [P8 P8'] [P9 P9'] P10].
  pose proof (npages_nonneg (p_sz pr) ltac:(lia)) as Hn0. destruct l as [|t [|q l]]; cbn [length] in Hlen; [lia..|].
  destruct (fork_head s p pr pg um c ip np npr t q l Hpa Hfu ltac:(lia)) as (s2 & pg' & l' & um' & E & O & H & N & Q & C & U & R & F). clear Hlen.
  set (s3 := copied_state _ _ _ _ _) in *. clearbody s3. set (npr1 := set_p_mask _ _) in *. pose proof Hfu as (_ & Hn & Hun & _).
  assert (p <> np) as Hne by congruence. assert (np < length (procs s))%nat as Hlt by (by eapply lookup_lt_Some).
  destruct (safestrcpy_terminates (p_name npr) (p_name pr) 16 ltac:(rewrite Hc2; lia) P10) as (nm & Enm & _ & _ & Hnm).
  assert (ftable s3 = ftable s /\ itable s3 = itable s /\ cur s3 = cur s /\ queues s3 = queues s /\ q_index s3 = q_index s) as (Hft & Hit & Hcu & Hqu & Hqi)
    by (rewrite O; done).
  destruct (fork_tail s3 p np pr npr1 c ip nm Hne H) as (s' & f & E' & O' & Q' & Hf & T' & I'); try done.
  { by rewrite Q, list_lookup_insert_ne. }
  { rewrite Q. by apply list_lookup_insert_eq. }
  { by rewrite Hft. }
  { by rewrite Hit. }
  { intros Hm. destruct (Hq Hm) as (qs & l0 & Hr & Hl0). exists qs, l0. split; [|done]. unfold repr in *. by rewrite Hqu, Hqi. }
  assert (mem s' = mem s3 /\ freelist s' = freelist s3 /\ cur s' = cur s3 /\ nextpid s' = nextpid s3 /\ held s' = []) as (Hm' & Hfl' & Hcu' & Hn' & Hh')
    by (rewrite O'; done).
  exists s', (f (copied_from p pr nm npr1)), pg', l', um'. split; [rewrite E; exact E'|]. split; [done|]. split; [congruence|]. split; [congruence|].
  split; [by rewrite Q', Q, list_insert_insert_eq|]. split; [|split; [|split; [|split; [|split; [|split]]]]].
  - apply child_of_pushed; [done|]. by split.
  - assert (p_pagetable (f (copied_from p pr nm npr1)) = q /\ p_trapframe (f (copied_from p pr nm npr1)) = t) as [-> ->] by (by destruct Hf as [->| ->]).
    destruct C as [C1 C2 C3 C4 C5 C6 C7 C8]. split; try done; rewrite ?Hm'; try done. eapply uspace_same; done.
  - assert (p_trapframe (f (copied_from p pr nm npr1)) = t) as -> by (by destruct Hf as [->| ->]). rewrite Hm'. exact F.
  - eapply uspace_same; done.
  - by rewrite Hm'.
  - intros g x Ex. rewrite T', dup_refs_lookup, Hft, Ex. done.
  - by rewrite I', Hit.
Qed.

(** With every entry in use, [fork] fails and changes nothing. *)
Lemma allocproc_loop_full : forall l s, (forall i, LkProc i ∉ held s) ->
  (forall i, i ∈ l -> exists p, procs s !! i = Some p /\ p_state p <> UNUSED) -> allocproc_loop l s = Ok None s.
Proof.
  induction l as [|i l IH]; intros s Hh Hl; [done|]. cbn [allocproc_loop]. destruct (Hl i) as (p & Ep & Hpu); [left|].
  mstep (acquire_ok (LkProc i) s (Hh i)). mstep (pget_ok i p (set_held (LkProc i :: held s) s) Ep). rewrite bool_decide_false by done.
  mstep (lock_cycle (LkProc i) s (set_held (LkProc i :: held s) s) (Hh i) eq_refl).
  assert (set_held (held s) (set_held (LkProc i :: held s) s) = s) as -> by state_eq s.
  apply IH; [done|]. intros j Hj. apply Hl. by right.
Qed.

Lemma fork_full s p : cur s = Some p -> held s = [] ->
  (forall i, (i < 64)%nat -> exists pr, procs s !! i = Some pr /\ p_state pr <> UNUSED) -> fork s = Ok (-1) s.
Proof.
  intros Hc Hh Hall. unfold fork. assert (curproc s = Ok p s) as E0 by (unfold curproc, myproc, bind; cbn [gets obind]; by rewrite Hc).
  mstep E0. assert (allocproc s = Ok None s) as E1; [|by mstep E1]. unfold allocproc.
  assert (allocproc_loop all_procs s = Ok None s) as E; [|by mstep E].
  apply allocproc_loop_full; [rewrite Hh; set_solver|]. intros i Hi%elem_of_seq. apply Hall. change (Z.to_nat NPROC) with 64%nat in Hi. lia.
Qed.
End Fork.

(** ** A process that forks *)

#[local] Existing Instance demo16.

Definition demo_forker (s : kstate) (root tf : Z) : kstate :=
  set_held [] (set_cur (Some 3%nat) (set_itable (replicate 50 zero_inode) (set_ftable (replicate 100 zero_file)
    (set_procs (<[3%nat := set_p_sz 4096 (set_p_cwd (Some 0%nat) (set_p_trapframe tf (set_p_pagetable root (set_p_state RUNNING zero_proc))))]>
      (replicate 64 zero_proc)) s)))).

Lemma fork_spec_witness : exists s pid s', fork s = Ok pid s' /\ pid = nextpid s.
Proof.
  destruct demo_process as (s & r1 & r2 & pg1 & l & q & Hu1 & Hu2 & Hh & Ht & Hq & Hs & _ & Hlen).
  assert (page_ok r2 /\ r2 ∉ l) as [Hr Hrl].
  { split; [by eapply (pt_page _ _ _ (tables_pt _ _ _ _ (us_tables _ _ _ _ _ Hu2)) []); apply lookup_singleton_eq|].
    by eapply (tables_disj _ _ _ _ (us_tables _ _ _ _ _ Hu2) []); apply lookup_singleton_eq. }
  set (s1 := demo_forker s r1 r2). set (pr := set_p_sz 4096 (set_p_cwd (Some 0%nat) (set_p_trapframe r2 (set_p_pagetable r1 (set_p_state RUNNING zero_proc))))).
  exists s1. destruct (fork_spec demo16_linked ltac:(cbn; lia) s1 3 pr pg1 {[ 0 := (q, user_flags) ]} 0 zero_inode 0 zero_proc l)
    as (s' & npr' & pg' & l' & um' & E & _).
  - split; [done|done|done|done|by apply (uspace_same s)|split; [done|change (p_sz pr) with 4096; lia]|by split| |by split|].
    + split; [done|]. intros f Hf. apply elem_of_replicate in Hf as [? _]. done.
    + unfold terminated. cbn. set_solver.
  - split; [lia|]. split; [done|]. split; [done|]. intros i Hi. lia.
  - done.
  - intros Hm. discriminate Hm.
  - change (p_sz pr) with 4096. change (npages 4096) with 1. lia.
  - exists (nextpid s1), s'. split; [exact E|done].
Defined.
