(* ===== verification/WaitSpec.v ===== *)
(** * What [wait] does

    A process that waits for a child that has exited gets its process id and its status, and
    every page of the child is free again: [freeproc] and [wait] of [kernel/proc.c]. *)

From stdpp Require Import gmap list strings.
From S2P Require Import Prelude Layout State Mlfq Sched Cstring Kalloc Vm VmFacts Uvm UvmAlloc UvmFree VmDemo Fs File Proc ForkSpec.

Section Wait.
Context {bld : Build}.
Hypothesis Hlink : linked.
Hypothesis Htramp : 0 <= sym_trampoline < 2 ^ 40.

(** ** The page table of a process *)

(** A page above the user's part is unmapped; it is not freed. *)
Lemma unmap_above s root pg l um v pa fl :
  uspace s root pg l um -> UPAGES <= v < VPAGES -> leaf (mem s) pg (v * PGSIZE) = pte_of pa fl -> 0 <= pa < 2 ^ 40 -> leaf_flags fl ->
  exists s', uvmunmap root (v * PGSIZE) 1 false s = Ok tt s' /\ mem_only s s' /\ uspace s' root pg l um /\
    (forall u, 0 <= u < VPAGES -> leaf (mem s') pg (u * PGSIZE) = if decide (u = v) then 0 else leaf (mem s) pg (u * PGSIZE)) /\
    (forall x, (forall p a, pg !! p = Some a -> ~ in_page a x) -> ldb (mem s') x = ldb (mem s) x).
Proof.
  intros Hu Hv Hlf Hpa (Hfl & HV & Hrwx). pose proof Hu as [Ht Hl Hn Hhi Hinj Htab Hfree].
  pose proof (flag_pte_of pa fl PTE_V ltac:(lia) Hfl ltac:(lia)) as Hflag. rewrite (proj2 (Z.eqb_neq _ 0)) in Hflag by done.
  pose proof (walk_ok Hlink s root pg (v * PGSIZE) (tables_pt _ _ _ _ Ht) ltac:(lia)) as Hw.
  destruct (pg !! [PX 2 (v * PGSIZE); PX 1 (v * PGSIZE)]) as [t|] eqn:Hpg; unfold leaf in Hlf; rewrite Hpg in Hlf;
    [|rewrite <- Hlf in Hflag; by vm_compute in Hflag].
  set (s' := set_mem (st64 (mem s) (pte_addr t (PX 0 (v * PGSIZE))) 0) s).
  assert (forall u, 0 <= u < VPAGES -> leaf (mem s') pg (u * PGSIZE) = if decide (u = v) then 0 else leaf (mem s) pg (u * PGSIZE)) as Hlf'.
  { intros u Hur. unfold s'. cbn [mem set_mem]. rewrite (leaf_store _ root) by (done || lia || apply Ht).
    rewrite !Z.div_mul by lia. repeat case_decide; done || lia. }
  exists s'. split; [|split; [apply mem_only_set_mem|split; [|split; [done|]]]].
  - unfold uvmunmap. rewrite Z.mod_mul by lia. cbn [Z.eqb negb]. rewrite u64_small by lia. change (Z.to_nat 1) with 1%nat.
    cbn [uvmunmap_loop]. rewrite (proj2 (Z.ltb_lt _ _)) by lia. mstep Hw. cbn [fmap option_fmap option_map].
    cbn [bind ld gets obind]. rewrite Hlf, Hflag. cbn [negb]. unfold pte_of. rewrite PTE_FLAGS_PA2PTE by lia.
    destruct (Z.eqb_spec fl PTE_V) as [->|_]; [by destruct Hrwx|]. cbn [when bind ret obind st modify].
    by rewrite (proj2 (Z.ltb_ge _ _)) by lia.
  - pose proof (tables_store s root pg l (v * PGSIZE) t 0 Ht Hpg) as Hg. constructor; [apply Hg| | | |done|done|done].
    + intros u a f Eu. destruct (Hl u a f Eu) as (? & ? & ? & ?). rewrite Hlf', decide_False by lia. done.
    + intros u Eu Hur. rewrite Hlf', decide_False by lia. eauto.
    + intros u Hur. rewrite Hlf' by lia. case_decide; [done|]. eauto.
  - intros x Hx. unfold s'. cbn [mem set_mem]. apply st64_page; [apply PX_range|by eapply Hx].
Qed.

Lemma proc_freepagetable_ok s root pg l um sz t :
  uspace s root pg l um -> LkKmem ∉ held s -> sized um sz -> 0 <= sz <= UPAGES * PGSIZE ->
  leaf (mem s) pg TRAMPOLINE = pte_of sym_trampoline tramp_flags -> leaf (mem s) pg TRAPFRAME = pte_of t frame_flags -> 0 <= t < 2 ^ 40 ->
  exists s' l', proc_freepagetable root sz s = Ok tt s' /\ mem_only s s' /\ free_list s' l' /\
    (forall a, a ∈ l' <-> a ∈ l \/ (exists v fl, um !! v = Some (a, fl)) \/ exists p, pg !! p = Some a) /\
    (forall x, outside pg um x -> ldb (mem s') x = ldb (mem s) x).
Proof.
  intros Hu Hh Hs Hsz Htr Hfr Ht.
  destruct (unmap_above s root pg l um (TRAMPOLINE / PGSIZE) sym_trampoline tramp_flags Hu) as (s1 & E1 & M1 & U1 & L1 & R1); [done|done|done|done|].
  destruct (unmap_above s1 root pg l um (TRAPFRAME / PGSIZE) t frame_flags U1) as (s2 & E2 & M2 & U2 & L2 & R2); [done| |done|done|].
  { rewrite L1 by done. rewrite decide_False by done. exact Hfr. }
  destruct (uvmfree_ok s2 root pg l um sz Hlink U2) as (s3 & l' & E3 & M3 & F3 & L3 & R3); [|done|done| |].
  { by rewrite (mem_only_held _ _ M2), (mem_only_held _ _ M1). }
  { intros v Hv. rewrite L2, L1 by lia. repeat case_decide; try done. exfalso.
    change (TRAPFRAME / PGSIZE) with 0x3fffffe in *. change (TRAMPOLINE / PGSIZE) with 0x3ffffff in *. lia. }
  exists s3, l'. split; [|split; [by eapply mem_only_trans; [|eapply mem_only_trans]|split; [done|split; [done|]]]].
  - unfold proc_freepagetable. change TRAMPOLINE with (TRAMPOLINE / PGSIZE * PGSIZE) at 1. mstep E1.
    change TRAPFRAME with (TRAPFRAME / PGSIZE * PGSIZE) at 1. by mstep E2.
  - intros x Hx. rewrite R3, R2, R1 by (done || apply Hx). done.
Qed.

(** ** [freeproc] *)

(** The memory of a process: its pages, its page table, which also maps the trampoline, and its
    trapframe. *)
Record proc_space (s : kstate) (pr : proc) (pg : gmap (list Z) Z) (l : list Z) (um : gmap Z (Z * Z)) : Prop := {
  ps_space : uspace s (p_pagetable pr) pg l um;
  ps_size : sized um (p_sz pr) /\ 0 <= p_sz pr <= UPAGES * PGSIZE;
  ps_tramp : leaf (mem s) pg TRAMPOLINE = pte_of sym_trampoline tramp_flags;
  ps_frame : leaf (mem s) pg TRAPFRAME = pte_of (p_trapframe pr) frame_flags;
  ps_own : fresh_page pg l um (p_trapframe pr)
}.

(** Page [a] belongs to the process. *)
Definition owns (pr : proc) (pg : gmap (list Z) Z) (um : gmap Z (Z * Z)) (a : Z) : Prop :=
  a = p_trapframe pr \/ (exists v fl, um !! v = Some (a, fl)) \/ exists p, pg !! p = Some a.

Lemma owns_page s pr pg l um a : proc_space s pr pg l um -> owns pr pg um a -> page_ok a.
Proof.
  intros [Hu _ _ _ Hf] [->|[(v & fl & E)|(p & E)]]; [apply Hf|by eapply (us_leaf _ _ _ _ _ Hu)|by eapply pt_page; [apply Hu|]].
Qed.

(** The entry of a process that has been freed. *)
Definition reaped (pr : proc) : proc := clear_proc (set_p_pagetable 0 (set_p_trapframe 0 pr)).

(** What [wait] can change: memory and the process table. *)
Definition reap_only (s s' : kstate) : Prop :=
  s' = set_procs (procs s') (set_freelist (freelist s') (set_mem (mem s') s)).

Lemma reap_only_trans s1 s2 s3 : reap_only s1 s2 -> reap_only s2 s3 -> reap_only s1 s3.
Proof. unfold reap_only. intros -> ->. done. Qed.

Lemma mem_reap_only s s' : mem_only s s' -> reap_only s s'.
Proof. unfold mem_only, reap_only. intros ->. by destruct s. Qed.

Lemma procs_reap_only s ps : reap_only s (set_procs ps s).
Proof. by destruct s. Qed.

Lemma freeproc_ok s np pr pg l um :
  procs s !! np = Some pr -> proc_space s pr pg l um -> LkKmem ∉ held s ->
  exists s' l', freeproc np s = Ok tt s' /\ reap_only s s' /\ procs s' = <[np := reaped pr]> (procs s) /\ free_list s' l' /\
    (forall a, a ∈ l' <-> a ∈ l \/ owns pr pg um a) /\
    (forall x, (forall a, owns pr pg um a -> ~ in_page a x) -> ldb (mem s') x = ldb (mem s) x).
Proof.
  intros Hp [Hu [Hs Hsz] Htr Hfr Hown] Hh. pose proof Hown as (Htf & Htl & Htp & Htu).
  destruct (uspace_kfree Hlink s (p_pagetable pr) pg l um (p_trapframe pr) Hu Hown Hh) as (s1 & E1 & M1 & U1 & R1).
  assert (procs s1 !! np = Some pr) as Hp1 by (by rewrite M1). assert (np < length (procs s))%nat as Hlt by (by eapply lookup_lt_Some).
  set (s2 := set_procs (<[np := set_p_trapframe 0 pr]> (procs s1)) s1).
  assert (forall va, leaf (mem s2) pg va = leaf (mem s) pg va) as Hlf.
  { intros va. apply leaf_ext. intros q a x Eq _ Hx. apply R1. apply (page_apart a (p_trapframe pr) x); [by eapply pt_page; [apply Hu|]|done| |done].
    intros ->. by apply (Htp q). }
  assert (procs s2 !! np = Some (set_p_trapframe 0 pr)) as Hp2 by (cbn; apply list_lookup_insert_eq; by rewrite M1).
  destruct (proc_freepagetable_ok s2 (p_pagetable pr) pg (p_trapframe pr :: l) um (p_sz pr) (p_trapframe pr)) as (s3 & l' & E3 & M3 & F3 & L3 & R3).
  { by apply (uspace_same s1). }
  { cbn. by rewrite (mem_only_held _ _ M1). }
  { done. }
  { done. }
  { by rewrite Hlf. }
  { by rewrite Hlf. }
  { destruct Htf. unfold linked in Hlink. lia. }
  assert (page_ok (p_pagetable pr)) as Hroot by (by eapply (pt_page _ _ _ (tables_pt _ _ _ _ (us_tables _ _ _ _ _ Hu)) []), pt_root, Hu).
  assert (procs s3 = procs s2) as Q3 by (rewrite M3; done).
  set (s4 := set_procs (<[np := set_p_pagetable 0 (set_p_trapframe 0 pr)]> (procs s3)) s3).
  set (s5 := set_procs (<[np := reaped pr]> (procs s4)) s4).
  assert (procs s5 = <[np := reaped pr]> (procs s)) as Q5 by (cbn; rewrite Q3; cbn; rewrite M1; cbn; by rewrite !list_insert_insert_eq).
  exists s5, l'. split; [|split; [|split; [exact Q5|split; [exact F3|split]]]].
  - unfold freeproc. mstep (pget_ok np pr s Hp). rewrite (proj2 (Z.eqb_neq _ 0)) by (by apply (page_ok_nonzero Hlink)). cbn [negb when]. mstep E1.
    mstep (pupd_ok np (set_p_trapframe 0) pr s1 Hp1). fold s2. mstep (pget_ok np _ s2 Hp2).
    change (p_pagetable (set_p_trapframe 0 pr)) with (p_pagetable pr). change (p_sz (set_p_trapframe 0 pr)) with (p_sz pr).
    rewrite (proj2 (Z.eqb_neq _ 0)) by (by apply (page_ok_nonzero Hlink)). cbn [negb when]. mstep E3.
    mstep (pupd_ok np (set_p_pagetable 0) (set_p_trapframe 0 pr) s3 ltac:(by rewrite Q3)). fold s4.
    rewrite (pupd_ok np clear_proc (set_p_pagetable 0 (set_p_trapframe 0 pr)) s4); [done|].
    cbn. apply list_lookup_insert_eq. rewrite Q3. cbn. rewrite length_insert. by rewrite M1.
  - eapply reap_only_trans; [apply (mem_reap_only _ _ M1)|]. eapply reap_only_trans; [apply procs_reap_only|]. fold s2.
    eapply reap_only_trans; [apply (mem_reap_only _ _ M3)|]. eapply reap_only_trans; [|apply procs_reap_only]. apply procs_reap_only.
  - intros a. rewrite L3, elem_of_cons. unfold owns. tauto.
  - intros x Hx. unfold s5, s4. cbn. rewrite R3.
    + unfold s2. cbn. apply R1, Hx. by left.
    + split; [intros q a Eq|intros v pa fl Ev]; apply Hx; right; eauto.
Qed.

(** ** [wait] *)

(** Entry [np] is the first child of [p] that has exited. *)
Definition first_zombie (ps : list proc) (p np : nat) (npr : proc) : Prop :=
  (np < 64)%nat /\ ps !! np = Some npr /\ p_parent npr = Some p /\ p_state npr = ZOMBIE /\
  forall i, (i < np)%nat -> exists pr, ps !! i = Some pr /\ (p_parent pr = Some p -> p_state pr <> ZOMBIE).

Lemma wait_scan_skip p addr : forall l1 l2 s h, (forall i, LkProc i ∉ held s) ->
  (forall i, i ∈ l1 -> exists pr, procs s !! i = Some pr /\ (p_parent pr = Some p -> p_state pr <> ZOMBIE)) ->
  exists h', wait_scan (l1 ++ l2) p addr h s = wait_scan l2 p addr h' s.
Proof.
  induction l1 as [|i l1 IH]; intros l2 s h Hh Hl; [by exists h|]. destruct (Hl i) as (pr & Ep & Hz); [left|].
  cbn [wait_scan app]. mstep (pget_ok i pr s Ep). case_bool_decide as Hpar.
  - mstep (acquire_ok (LkProc i) s (Hh i)). mstep (pget_ok i pr (set_held (LkProc i :: held s) s) Ep). rewrite bool_decide_false by auto.
    mstep (lock_cycle (LkProc i) s (set_held (LkProc i :: held s) s) (Hh i) eq_refl).
    assert (set_held (held s) (set_held (LkProc i :: held s) s) = s) as -> by state_eq s.
    apply IH; [done|]. intros j Hj. apply Hl. by right.
  - apply IH; [done|]. intros j Hj. apply Hl. by right.
Qed.

(** An address space when other pages are freed. *)
Lemma uspace_refree s s' root pg l l' um :
  uspace s root pg l um -> free_list s' l' -> (forall p a, pg !! p = Some a -> a ∉ l') -> (forall v pa fl, um !! v = Some (pa, fl) -> pa ∉ l') ->
  (forall p a x, pg !! p = Some a -> in_page a x -> ldb (mem s') x = ldb (mem s) x) -> uspace s' root pg l' um.
Proof.
  intros [Ht Hl Hn Hhi Hinj Htab Hfree] Hf Hp Hv Hm. pose proof Ht as [Hpt _ _].
  assert (forall va, leaf (mem s') pg va = leaf (mem s) pg va) as Hlf by (intros; apply leaf_ext; eauto).
  constructor; try done; try (intros; rewrite Hlf; eauto).
  constructor; [by eapply pt_ext; eauto|done|done].
Qed.

(** The pages of one process are not pages of the other. *)
Definition apart (pg : gmap (list Z) Z) (um : gmap Z (Z * Z)) (own : Z -> Prop) : Prop :=
  forall a, own a -> (forall p, pg !! p <> Some a) /\ (forall v fl, um !! v <> Some (a, fl)).

(** A write to the memory of the parent does not reach the child. *)
Lemma proc_space_write s m pr pg l um root pgp ump :
  proc_space s pr pg l um -> uspace s root pgp l ump -> uspace (set_mem m s) root pgp l ump -> apart pgp ump (owns pr pg um) ->
  user_only ump (mem s) m -> proc_space (set_mem m s) pr pg l um.
Proof.
  intros Hps Hup Hup' Hap Hm. pose proof Hps as [Hu Hs Htr Hfr Hown].
  assert (forall p a x, pg !! p = Some a -> in_page a x -> ldb m x = ldb (mem s) x) as Hsame.
  { intros p a x Ea Hx. apply Hm. intros v pa fl Ev. assert (owns pr pg um a) as Ho by (right; right; eauto).
    apply (page_apart a pa x); [by eapply owns_page|by eapply (us_leaf _ _ _ _ _ Hup)| |done]. intros ->. by apply (proj2 (Hap pa Ho) v fl). }
  assert (forall va, leaf m pg va = leaf (mem s) pg va) as Hlf by (intros; apply leaf_ext; eauto).
  split; [|done|by cbn; rewrite Hlf|by cbn; rewrite Hlf|done].
  eapply uspace_refree; [exact Hu|apply Hup'|by apply Hu|by apply Hu|exact Hsame].
Qed.

(** What the user sees with the status [v] stored at [addr], if that is not null. *)
Definition status_at (addr v : Z) (old : Z -> option Z) (va : Z) : option Z :=
  if decide (addr = 0) then old va else copied old addr 4 (le_bytes 4 v) va.

Lemma store_status s root pg l um addr v :
  uspace s root pg l um -> 0 <= addr ->
  exists r m', (if addr =? 0 then ret 0 else copyout root addr (le_bytes 4 v)) s = Ok r (set_mem m' s) /\
    uspace (set_mem m' s) root pg l um /\ user_only um (mem s) m' /\
    (r = 0 /\ (forall va, uget m' um va = status_at addr v (uget (mem s) um) va) \/
     r = -1 /\ addr <> 0 /\ exists k, 0 <= k < 4 /\ uget (mem s) um (addr + k) = None).
Proof.
  intros Hu H0. unfold status_at. destruct (Z.eqb_spec addr 0) as [E|E].
  - exists 0, (mem s). rewrite set_mem_mem. split; [done|]. split; [done|]. split; [by intros x _|]. left. split; [done|]. intros va. by rewrite decide_True.
  - destruct (copyout_loop_ok Hlink 4 root pg l um (le_bytes 4 v) addr s Hu H0 ltac:(by rewrite length_le_bytes) (le_bytes_range 4 v))
      as (r & m' & k & Hrun & Hu' & Hfr & Hr & Hget). rewrite length_le_bytes in Hr.
    exists r, m'. split; [unfold copyout; rewrite length_le_bytes; exact Hrun|]. split; [done|]. split; [done|].
    destruct Hr as [[-> ->]|(-> & Hk & Hn)]; [left|right; eauto]. split; [done|]. intros va. by rewrite decide_False.
Qed.

(** What [wait] of [p] with address space [pgp], [ump] leaves: either the child in entry [np] is
    reaped, or its status could not be stored and everything is as it was. *)
Definition waited (s : kstate) (pr : proc) (pgp : gmap (list Z) Z) (ump : gmap Z (Z * Z)) (l : list Z)
    (np : nat) (npr : proc) (pgc : gmap (list Z) Z) (umc : gmap Z (Z * Z)) (addr r : Z) (s' : kstate) : Prop :=
  (r = p_pid npr /\ procs s' = <[np := reaped npr]> (procs s) /\
   exists l', uspace s' (p_pagetable pr) pgp l' ump /\ (forall a, a ∈ l' <-> a ∈ l \/ owns npr pgc umc a) /\
     forall va, uget (mem s') ump va = status_at addr (p_xstate npr) (uget (mem s) ump) va) \/
  (r = -1 /\ addr <> 0 /\ procs s' = procs s /\ uspace s' (p_pagetable pr) pgp l ump /\ proc_space s' npr pgc l umc /\
   exists k, 0 <= k < 4 /\ uget (mem s) ump (addr + k) = None).

(** The child is freed while the parent keeps its memory. *)
Lemma reap_child s np npr pgc umc l root pgp ump :
  procs s !! np = Some npr -> proc_space s npr pgc l umc -> LkKmem ∉ held s -> uspace s root pgp l ump -> apart pgp ump (owns npr pgc umc) ->
  exists s' l', freeproc np s = Ok tt s' /\ reap_only s s' /\ procs s' = <[np := reaped npr]> (procs s) /\ uspace s' root pgp l' ump /\
    (forall a, a ∈ l' <-> a ∈ l \/ owns npr pgc umc a) /\ (forall va, uget (mem s') ump va = uget (mem s) ump va).
Proof.
  intros Hp Hps Hh Hu Hap. destruct (freeproc_ok s np npr pgc l umc Hp Hps Hh) as (s' & l' & E & O & Q & F & L & R).
  assert (forall b x, page_ok b -> ~ owns npr pgc umc b -> in_page b x -> ldb (mem s') x = ldb (mem s) x) as Hsame.
  { intros b x Hb Hn Hx. apply R. intros a Ho. apply (page_apart b a x); [done|by eapply owns_page| |done]. by intros ->. }
  exists s', l'. split; [done|]. split; [done|]. split; [done|]. split; [|split; [done|]].
  - eapply uspace_refree; [exact Hu|exact F| | |].
    + intros q a Eq [Ha|Ho]%L; [by eapply tables_disj; [apply Hu| |]|]. by apply (proj1 (Hap a Ho) q).
    + intros v pa fl Ev [Ha|Ho]%L; [by eapply (us_free _ _ _ _ _ Hu)|]. by apply (proj2 (Hap pa Ho) v fl).
    + intros q a x Eq. apply Hsame; [by eapply pt_page; [apply Hu|]|]. intros Ho. by apply (proj1 (Hap a Ho) q).
  - intros va. apply upages_same_uget. intros v pa fl x Ev.
    apply Hsame; [by eapply (us_leaf _ _ _ _ _ Hu)|]. intros Ho. by apply (proj2 (Hap pa Ho) v fl).
Qed.

(** The locks are released at the end. *)
Lemma reap_only_release s np m s4 :
  held s = [] -> reap_only (set_mem m (set_held [LkProc np; LkWait] s)) s4 -> reap_only s (set_held [] (set_held [LkWait] s4)).
Proof.
  unfold reap_only. intros Hh. cbn. generalize (procs s4) (freelist s4) (mem s4). intros a b c ->. destruct s. cbn in Hh. by subst.
Qed.

(** The scan when it comes to the child. *)
Lemma wait_scan_child s p pr np npr pgp ump pgc umc l addr rest h :
  held s = [] -> procs s !! p = Some pr -> uspace s (p_pagetable pr) pgp l ump ->
  procs s !! np = Some npr -> p_parent npr = Some p -> p_state npr = ZOMBIE ->
  proc_space s npr pgc l umc -> apart pgp ump (owns npr pgc umc) -> 0 <= addr ->
  exists r t s', wait_scan (np :: rest) p addr h (set_held [LkWait] s) = Ok (inl (r, t)) s' /\ reap_only s s' /\
    waited s pr pgp ump l np npr pgc umc addr r s'.
Proof.
  intros Hh Hp Hu Hn Hpar Hz Hps Hap H0. set (s1 := set_held [LkWait] s). set (s2 := set_held [LkProc np; LkWait] s).
  destruct (store_status s2 (p_pagetable pr) pgp l ump addr (p_xstate npr)) as (r & m & E & U & Um & Hor); [by apply (uspace_same s)|done|].
  set (s3 := set_mem m s2) in *. change (mem s2) with (mem s) in *.
  assert (proc_space (set_mem m s) npr pgc l umc) as Hps3 by (eapply proc_space_write; [exact Hps|exact Hu|by apply (uspace_same s3)|done|done]).
  assert (held s1 = [LkWait] /\ LkProc np ∉ held s1) as [Hh1 Hn1] by (split; [done|cbn; set_solver]).
  cbn [wait_scan]. mstep (pget_ok np npr s1 Hn). rewrite bool_decide_true by done. mstep (acquire_ok (LkProc np) s1 Hn1).
  change (set_held (LkProc np :: held s1) s1) with s2. mstep (pget_ok np npr s2 Hn). rewrite bool_decide_true by done.
  cbv zeta. mstep (pget_ok p pr s2 Hp). mstep E. fold s3.
  destruct Hor as [(-> & Hget)|(-> & Hne & Hbad)]; cbn [Z.ltb Z.compare].
  - destruct (reap_child s3 np npr pgc umc l (p_pagetable pr) pgp ump) as (s4 & l' & E4 & O4 & Q4 & U4 & L4 & G4);
      [done| |cbn; set_solver|done|done|].
    { destruct Hps3 as [A B C D F]. split; try done. by apply (uspace_same (set_mem m s)). }
    assert (held s4 = [LkProc np; LkWait]) as Hh4 by (by rewrite O4).
    mstep E4. mstep (release_ok (LkProc np) s4 [LkWait] Hh4 ltac:(set_solver)).
    mstep (release_ok LkWait (set_held [LkWait] s4) [] eq_refl ltac:(set_solver)).
    eexists _, _, _. split; [reflexivity|]. split; [|left].
    + by apply (reap_only_release s np m).
    + split; [done|]. split; [done|]. exists l'. split; [by apply (uspace_same s4)|]. split; [done|]. intros va. cbn. by rewrite G4.
  - mstep (release_ok (LkProc np) s3 [LkWait] eq_refl ltac:(set_solver)).
    mstep (release_ok LkWait (set_held [LkWait] s3) [] eq_refl ltac:(set_solver)).
    eexists _, _, _. split; [reflexivity|]. split; [|right].
    + by apply (reap_only_release s np m).
    + split; [done|]. split; [done|]. split; [done|]. split; [by apply (uspace_same s3)|]. split; [|done].
      destruct Hps3 as [A B C D F]. split; try done. by apply (uspace_same (set_mem m s)).
Qed.

(** C13: [wait] of a process that has a child that has exited does not block.  For the first such
    child in the table it returns the process id, with the child's exit status in the four bytes
    at [addr] unless [addr] is null; the child's entry is unused again, and the free list has
    gained exactly the child's pages: its memory, its page table and its trapframe.  When
    [addr] is not writable it returns -1, and the child stays, to be waited for again.  The
    caller keeps its address space, all locks are released, and only memory and the process
    table change. *)
Theorem wait_reaps s p pr pgp ump l np npr pgc umc addr :
  cur s = Some p -> held s = [] -> procs s !! p = Some pr -> uspace s (p_pagetable pr) pgp l ump ->
  first_zombie (procs s) p np npr -> proc_space s npr pgc l umc -> apart pgp ump (owns npr pgc umc) -> 0 <= addr ->
  exists r s', wait addr s = Ok r s' /\ reap_only s s' /\ waited s pr pgp ump l np npr pgc umc addr r s'.
Proof.
  intros Hc Hh Hp Hu (Hnp & Hn & Hpar & Hz & Hfirst) Hps Hap H0.
  destruct (wait_scan_skip p addr (seq 0 np) (np :: seq (S np) (63 - np)) (set_held [LkWait] s) false) as [h Hskip].
  { intros i. cbn. set_solver. }
  { intros i Hi%elem_of_seq. apply Hfirst. lia. }
  destruct (wait_scan_child s p pr np npr pgp ump pgc umc l addr (seq (S np) (63 - np)) h) as (r & t & s' & E & O & W); try done.
  assert (wait_loop (S fuel) p addr (set_held [LkWait] s) = Ok (r, t) s') as El.
  { cbn [wait_loop]. rewrite (first_split np Hnp). erewrite bind_ok by (rewrite Hskip; exact E). reflexivity. }
  exists r, s'. split; [|done]. unfold wait, curproc, myproc. erewrite bind_ok by (erewrite bind_ok by reflexivity; rewrite Hc; reflexivity).
  mstep (acquire_ok LkWait s ltac:(rewrite Hh; apply not_elem_of_nil)). rewrite Hh. by mstep El.
Qed.
End Wait.

(** ** A process that waits *)

#[local] Existing Instance demo16.

Lemma wait_reaps_witness : exists s r s', wait 0 s = Ok r s'.
Proof.
  destruct demo_process as (s & r1 & r2 & pg1 & l & q & Hu1 & Hu2 & Hh & Ht & Hq & Hs & _ & Hlen).
  destruct l as [|t [|q0 l]]; cbn [length] in Hlen; [lia..|]. set (s1 := demo_forker s r1 r2).
  assert (uspace s1 r1 pg1 (t :: q0 :: l) {[ 0 := (q, user_flags) ]}) as Hu by (by apply (uspace_same s)).
  destruct (allocproc_ok demo16_linked ltac:(cbn; lia) s1 0 zero_proc t q0 l) as (s2 & pg & l' & _ & O & _ & _ & Q & Hpt & Htn & [U Ltr Lfr] & (used & Hused & Hpg) & _ & R);
    [split; [lia|]; split; [done|]; split; [done|]; intros i Hi; lia|done|apply Hu|lia|].
  set (npr := set_p_parent (Some 3%nat) (set_p_state ZOMBIE (born s1 t q0 zero_proc))).
  set (s3 := set_held [] (set_procs (<[0%nat := npr]> (procs s2)) s2)).
  assert (forall a, owns npr pg ∅ a -> a ∈ t :: q0 :: l) as Hown.
  { intros a [->|[(v & fl & E)|(p & E)]]; [left|by rewrite lookup_empty in E|]. right. rewrite Hused. apply elem_of_app. left. apply Hpg. eauto. }
  assert (forall a, a ∈ l' -> a ∈ q0 :: l) as Hl' by (intros a Ha; rewrite Hused; apply elem_of_app; by right).
  set (pr := set_p_sz 4096 (set_p_cwd (Some 0%nat) (set_p_trapframe r2 (set_p_pagetable r1 (set_p_state RUNNING zero_proc))))).
  exists s3. destruct (wait_reaps demo16_linked ltac:(cbn; lia) s3 3 pr pg1 {[ 0 := (q, user_flags) ]} l' 0 npr pg ∅ 0) as (r & s' & E & _).
  - unfold s3. cbn. by rewrite O.
  - done.
  - unfold s3. cbn. by rewrite Q.
  - apply (uspace_same s2); [|done|done]. eapply uspace_frame; [exact Hu|apply U|intros a Ha; right; by apply Hl'|].
    intros p a x Ea Hx. apply (only_in_page _ _ _ a x R); [intros b Hb; exact (free_page _ _ _ _ _ _ Hu Hb)|by eapply pt_page; [apply Hu|]|by eapply tables_disj; [apply Hu|]|done].
  - split; [lia|]. split; [unfold s3; cbn; by rewrite Q|]. split; [done|]. split; [done|]. intros i Hi. lia.
  - split; [by apply (uspace_same s2)|split; [|by cbn]|exact Ltr|exact Lfr|].
    + intros v. rewrite lookup_empty. change (npages (p_sz npr)) with 0. split; [by intros []|lia].
    + split; [done|]. split; [intros Ha; by apply Htn, Hl'|]. split; [|intros v fl; by rewrite lookup_empty].
      intros p Ep. apply Htn. rewrite Hused. apply elem_of_app. left. apply Hpg. eauto.
  - intros a Ha%Hown. split; [intros p Ep; by apply (tables_disj _ _ _ _ (us_tables _ _ _ _ _ Hu) p a Ep)|].
    intros v fl Ev. by apply (us_free _ _ _ _ _ Hu v a fl Ev).
  - lia.
  - by exists r, s'.
Defined.
