(* ===== verification/Exec.v ===== *)
(** * exec

    [kernel/exec.c].  [argv] is a list of kernel pages that hold the argument
    strings. *)

From stdpp Require Import gmap strings list.
From S2P Require Import Prelude Layout State Sched Cstring Kalloc Vm Pipe Block Bio Log Fs File Proc.

Abbreviation ELF_MAGIC := 0x464C457F.
Abbreviation ELF_PROG_LOAD := 1.

Definition get64 (off : nat) (l : list Z) : Z := le_val (bytes_at off 8 l).

(** kernel/elf.h: [struct elfhdr], [struct proghdr], in their bytes. *)
Definition elf_magic (e : list Z) : Z := get32 0 e.
Definition elf_entry (e : list Z) : Z := get64 24 e.
Definition elf_phoff (e : list Z) : Z := get64 32 e.
Definition elf_phnum (e : list Z) : Z := get16 56 e.
Definition ph_type (h : list Z) : Z := get32 0 h.
Definition ph_off (h : list Z) : Z := get64 8 h.
Definition ph_vaddr (h : list Z) : Z := get64 16 h.
Definition ph_filesz (h : list Z) : Z := get64 32 h.
Definition ph_memsz (h : list Z) : Z := get64 40 h.

Section Exec.
Context `{Build} `{Disk}.

Fixpoint loadseg_loop (k : nat) (pagetable va : Z) (ip : nat) (offset sz i : Z) : K Z :=
  if i <? sz then
    match k with
    | O => no_fuel
    | S k =>
        let! pa := walkaddr pagetable (u64 (va + i)) in
        if pa =? 0 then panic "loadseg: address should exist" else
        let n := if sz - i <? PGSIZE then sz - i else PGSIZE in
        let! (r, _) := readi ip (ToKernel pa) (u32 (offset + i)) n in
        if negb (u32 r =? n) then ret (-1) else loadseg_loop k pagetable va ip offset sz (i + PGSIZE)
    end
  else ret 0.

Definition loadseg (pagetable va : Z) (ip : nat) (offset sz : Z) : K Z :=
  loadseg_loop (Z.to_nat (sz / PGSIZE + 1)) pagetable va ip offset sz 0.

(** The loop over the program headers, [k] of them left: whether all were loaded,
    and the size of the new image. *)
Fixpoint load_segments (k : nat) (pagetable : Z) (ip : nat) (off sz : Z) : K (bool * Z) :=
  match k with
  | O => ret (true, sz)
  | S k =>
      let! (r, ph) := readi ip ToLocal (u32 off) 56 in
      if negb (r =? 56) then ret (false, sz)
      else if negb (ph_type ph =? ELF_PROG_LOAD) then load_segments k pagetable ip (s32 (off + 56)) sz
      else if ph_memsz ph <? ph_filesz ph then ret (false, sz)
      else if u64 (ph_vaddr ph + ph_memsz ph) <? ph_vaddr ph then ret (false, sz)
      else
        let! sz1 := uvmalloc pagetable sz (u64 (ph_vaddr ph + ph_memsz ph)) in
        if sz1 =? 0 then ret (false, sz)
        else if negb (ph_vaddr ph mod PGSIZE =? 0) then ret (false, sz1)
        else
          let! r := loadseg pagetable (ph_vaddr ph) ip (u32 (ph_off ph)) (u32 (ph_filesz ph)) in
          if r <? 0 then ret (false, sz1) else load_segments k pagetable ip (s32 (off + 56)) sz1
  end.

(** The string at [a] in kernel memory, with its NUL. *)
Definition kstring (a : Z) : K (list Z) :=
  let! page := gets (fun s => ldl (mem s) a 4096) in
  let! len := deref "strlen" (strlen page) in
  ret (take (Z.to_nat (len + 1)) page).

(** The loop that pushes the argument strings: the stack pointer and [ustack]. *)
Fixpoint push_args (argv : list Z) (argc : nat) (pagetable sp stackbase : Z) (ustack : list Z) : K (option (Z * list Z)) :=
  match argv with
  | [] => ret (Some (sp, ustack))
  | a :: argv =>
      if MAXARG <=? Z.of_nat argc then ret None else
      let! str := kstring a in
      let sp := u64 (sp - Z.of_nat (length str)) in
      let sp := sp - sp mod 16 in
      if sp <? stackbase then ret None else
      let! r := copyout pagetable sp str in
      if r <? 0 then ret None else push_args argv (S argc) pagetable sp stackbase (ustack ++ [sp])
  end.

(** [bad:] *)
Definition exec_bad (pagetable sz : Z) (ip : option nat) : K Z :=
  when (negb (pagetable =? 0)) (proc_freepagetable pagetable sz) ;;
  match ip with
  | Some ip =>
      iunlockput ip ;;
      end_op
  | None => ret tt
  end ;;
  ret (-1).

(** [for(last=s=path; *s; s++) if( *s == '/') last = s+1;] *)
Fixpoint last_elem (last s : list Z) : list Z :=
  match s with
  | [] => last
  | c :: s => last_elem (if c =? chr_slash then s else last) s
  end.

(** From the new image of size [sz] on: the stack, the arguments, the switch to it. *)
Definition exec_image (p : nat) (path argv : list Z) (entry pagetable sz : Z) : K Z :=
  let! pr := pget p in
  let oldsz := p_sz pr in
  let sz := PGROUNDUP sz in
  let! sz1 := uvmalloc pagetable sz (u64 (sz + 2 * PGSIZE)) in
  if sz1 =? 0 then exec_bad pagetable sz None else
  let sz := sz1 in
  uvmclear pagetable (u64 (sz - 2 * PGSIZE)) ;;
  let stackbase := u64 (sz - PGSIZE) in
  let! o := push_args argv 0 pagetable sz stackbase [] in
  match o with
  | None => exec_bad pagetable sz None
  | Some (sp, ustack) =>
      let argc := Z.of_nat (length ustack) in
      let sp := u64 (sp - (argc + 1) * 8) in
      let sp := sp - sp mod 16 in
      if sp <? stackbase then exec_bad pagetable sz None else
      let! r := copyout pagetable sp (concat (le_bytes 8 <$> (ustack ++ [0]))) in
      if r <? 0 then exec_bad pagetable sz None else
      tf_set p TF_A1 sp ;;
      set_name p (last_elem path path ++ [0]) ;;
      let! pr := pget p in
      let oldpagetable := p_pagetable pr in
      pupd p (fun pr => set_p_sz sz (set_p_pagetable pagetable pr)) ;;
      tf_set p TF_EPC entry ;;
      tf_set p TF_SP sp ;;
      proc_freepagetable oldpagetable oldsz ;;
      ret argc
  end.

Definition exec (path argv : list Z) : K Z :=
  let! p := curproc in
  begin_op ;;
  let! o := namei path in
  match o with
  | None =>
      end_op ;;
      ret (-1)
  | Some ip =>
      ilock (Some ip) ;;
      let! (r, elf) := readi ip ToLocal 0 64 in
      if negb (r =? 64) then exec_bad 0 0 (Some ip)
      else if negb (elf_magic elf =? ELF_MAGIC) then exec_bad 0 0 (Some ip)
      else
        let! pagetable := proc_pagetable p in
        if pagetable =? 0 then exec_bad 0 0 (Some ip)
        else
          let! (ok, sz) := load_segments (Z.to_nat (elf_phnum elf)) pagetable ip (s32 (elf_phoff elf)) 0 in
          if negb ok then exec_bad pagetable sz (Some ip)
          else
            iunlockput ip ;;
            end_op ;;
            exec_image p path argv (elf_entry elf) pagetable sz
  end.
End Exec.
