(* ===== verification/Syscall.v ===== *)
(** * System call arguments

    The first half of [kernel/syscall.c]: fetching arguments from the trapframe and
    strings and words from user memory. *)

From stdpp Require Import gmap strings list.
From S2P Require Import Prelude Layout State Sched Cstring Vm Block Fs Proc.

Section Syscall.
Context `{Build}.

(** The code and the word. *)
Definition fetchaddr (addr : Z) : K (Z * Z) :=
  let! p := curproc in
  let! pr := pget p in
  if (p_sz pr <=? addr) || (p_sz pr <? u64 (addr + 8)) then ret (-1, 0) else
  let! (r, bytes) := copyin (p_pagetable pr) addr 8 in
  if negb (r =? 0) then ret (-1, 0) else ret (0, le_val bytes).

(** The length or -1, and the bytes stored in the buffer. *)
Definition fetchstr (addr max : Z) : K (Z * list Z) :=
  let! p := curproc in
  let! pr := pget p in
  let! (err, buf) := copyinstr (p_pagetable pr) addr max in
  if err <? 0 then ret (err, buf)
  else
    let! len := deref "strlen" (strlen buf) in
    ret (len, buf).

Definition argraw (n : Z) : K Z :=
  let! p := curproc in
  if (0 <=? n) && (n <=? 5) then tf_get p (TF_A0 + 8 * n) else panic "argraw".

Definition argint (n : Z) : K Z := let! v := argraw n in ret (s32 v).
Definition argaddr (n : Z) : K Z := argraw n.

(** The length or -1, and the string. *)
Definition argstr (n max : Z) : K (Z * list Z) :=
  let! addr := argaddr n in
  let! (r, buf) := fetchstr addr max in
  ret (r, cstr buf).
End Syscall.
