(* ===== verification/Sysfile.v ===== *)
(** * System calls on files

    [kernel/sysfile.c].  Results are the C values before they are widened to
    [uint64]. *)

From stdpp Require Import gmap strings list.
From S2P Require Import Prelude Layout State Sched Cstring Kalloc Vm Pipe Block Bio Log Fs Printf File Proc Exec Syscall.

Section Sysfile.
Context `{Build} `{Disk}.

(** The descriptor and its file. *)
Definition argfd (n : Z) : K (option (nat * nat)) :=
  let! fd := argint n in
  if (fd <? 0) || (NOFILE <=? fd) then ret None else
  let! p := curproc in
  let! pr := pget p in
  let! o := deref "ofile" (p_ofile pr !! Z.to_nat fd) in
  ret ((fun f => (Z.to_nat fd, f)) <$> o).

(** [myproc()->ofile[fd] = o]. *)
Definition set_fd (fd : nat) (o : option nat) : K unit :=
  let! p := curproc in
  pupd p (fun pr => set_p_ofile (<[fd := o]> (p_ofile pr)) pr).

Fixpoint fdalloc_loop (l : list nat) (p f : nat) : K Z :=
  match l with
  | [] => ret (-1)
  | fd :: l =>
      let! pr := pget p in
      let! o := deref "ofile" (p_ofile pr !! fd) in
      match o with
      | None =>
          pupd p (fun pr => set_p_ofile (<[fd := Some f]> (p_ofile pr)) pr) ;;
          ret (Z.of_nat fd)
      | Some _ => fdalloc_loop l p f
      end
  end.

Definition fdalloc (f : nat) : K Z :=
  let! p := curproc in
  fdalloc_loop (seq 0 16) p f.

Definition sys_dup : K Z :=
  let! o := argfd 0 in
  match o with
  | None => ret (-1)
  | Some (_, f) =>
      let! fd := fdalloc f in
      if fd <? 0 then ret (-1)
      else
        let! _ := filedup f in
        ret fd
  end.

Definition sys_read : K Z :=
  let! o := argfd 0 in
  match o with
  | None => ret (-1)
  | Some (_, f) =>
      let! n := argint 2 in
      let! p := argaddr 1 in
      fileread f p n
  end.

Definition sys_write : K Z :=
  let! o := argfd 0 in
  match o with
  | None => ret (-1)
  | Some (_, f) =>
      let! n := argint 2 in
      let! p := argaddr 1 in
      filewrite f p n
  end.

Definition sys_close : K Z :=
  let! o := argfd 0 in
  match o with
  | None => ret (-1)
  | Some (fd, f) =>
      set_fd fd None ;;
      fileclose f ;;
      ret 0
  end.

Definition sys_fstat : K Z :=
  let! o := argfd 0 in
  match o with
  | None => ret (-1)
  | Some (_, f) =>
      let! st := argaddr 1 in
      filestat f st
  end.

(** A [char name[DIRSIZ]] on the stack. *)
Definition new_name : list Z := replicate 14 0.

(** [bad:] of [sys_link]. *)
Definition link_bad (ip : nat) : K Z :=
  ilock (Some ip) ;;
  iupd ip (fun i => set_i_nlink (s16 (i_nlink i - 1)) i) ;;
  iupdate ip ;;
  iunlockput ip ;;
  end_op ;;
  ret (-1).

Definition sys_link : K Z :=
  let! (r, old) := argstr 0 MAXPATH in
  if r <? 0 then ret (-1) else
  let! (r, new) := argstr 1 MAXPATH in
  if r <? 0 then ret (-1) else
  begin_op ;;
  let! o := namei old in
  match o with
  | None =>
      end_op ;;
      ret (-1)
  | Some ip =>
      ilock (Some ip) ;;
      let! i := inode_at ip in
      if i_type i =? T_DIR then
        iunlockput ip ;;
        end_op ;;
        ret (-1)
      else
        iupd ip (fun i => set_i_nlink (s16 (i_nlink i + 1)) i) ;;
        iupdate ip ;;
        iunlock (Some ip) ;;
        let! (o, name) := nameiparent new new_name in
        match o with
        | None => link_bad ip
        | Some dp =>
            ilock (Some dp) ;;
            let! d := inode_at dp in
            let! i := inode_at ip in
            let! r := (if negb (i_dev d =? i_dev i) then ret (-1) else dirlink dp name (i_inum i)) in
            if r <? 0 then
              iunlockput dp ;;
              link_bad ip
            else
              iunlockput dp ;;
              iput ip ;;
              end_op ;;
              ret 0
        end
  end.

Fixpoint isdirempty_loop (k : nat) (dp : nat) (off : Z) : K bool :=
  let! d := inode_at dp in
  if off <? i_size d then
    match k with
    | O => no_fuel
    | S k =>
        let! (r, de) := readi dp ToLocal off 16 in
        if negb (r =? 16) then panic "isdirempty: readi" else
        if negb (de_inum de =? 0) then ret false else isdirempty_loop k dp (off + 16)
    end
  else ret true.

Definition isdirempty (dp : nat) : K bool :=
  isdirempty_loop dir_turns dp 32.

(** [bad:] of [sys_unlink]. *)
Definition unlink_bad (dp : nat) : K Z :=
  iunlockput dp ;;
  end_op ;;
  ret (-1).

Definition sys_unlink : K Z :=
  let! (r, path) := argstr 0 MAXPATH in
  if r <? 0 then ret (-1) else
  begin_op ;;
  let! (o, name) := nameiparent path new_name in
  match o with
  | None =>
      end_op ;;
      ret (-1)
  | Some dp =>
      ilock (Some dp) ;;
      let! c1 := namecmp name (lit "." ++ [0]) in
      if c1 =? 0 then unlink_bad dp else
      let! c2 := namecmp name (lit ".." ++ [0]) in
      if c2 =? 0 then unlink_bad dp else
      let! o := dirlookup dp name in
      match o with
      | None => unlink_bad dp
      | Some (ip, off) =>
          ilock (Some ip) ;;
          let! i := inode_at ip in
          if i_nlink i <? 1 then panic "unlink: nlink < 1" else
          let! full := (if i_type i =? T_DIR then let! e := isdirempty ip in ret (negb e) else ret false) in
          if full then
            iunlockput ip ;;
            unlink_bad dp
          else
            let! r := writei dp (FromLocal (replicate 16 0)) off 16 in
            if negb (r =? 16) then panic "unlink: writei" else
            let! i := inode_at ip in
            when (i_type i =? T_DIR)
              (iupd dp (fun d => set_i_nlink (s16 (i_nlink d - 1)) d) ;;
               iupdate dp) ;;
            iunlockput dp ;;
            iupd ip (fun i => set_i_nlink (s16 (i_nlink i - 1)) i) ;;
            iupdate ip ;;
            iunlockput ip ;;
            end_op ;;
            ret 0
      end
  end.

Definition create (path : list Z) (type major minor : Z) : K (option nat) :=
  let! (o, name) := nameiparent path new_name in
  match o with
  | None => ret None
  | Some dp =>
      ilock (Some dp) ;;
      let! o := dirlookup dp name in
      match o with
      | Some (ip, _) =>
          iunlockput dp ;;
          ilock (Some ip) ;;
          let! i := inode_at ip in
          if (type =? T_FILE) && ((i_type i =? T_FILE) || (i_type i =? T_DEVICE)) then ret (Some ip)
          else
            iunlockput ip ;;
            ret None
      | None =>
          let! d := inode_at dp in
          let! ip := ialloc (i_dev d) type in
          ilock (Some ip) ;;
          iupd ip (fun i => set_i_nlink 1 (set_i_minor minor (set_i_major major i))) ;;
          iupdate ip ;;
          when (type =? T_DIR)
            (iupd dp (fun d => set_i_nlink (s16 (i_nlink d + 1)) d) ;;
             iupdate dp ;;
             let! i := inode_at ip in
             let! r := dirlink ip (lit "." ++ [0]) (i_inum i) in
             if r <? 0 then panic "create dots" else
             let! d := inode_at dp in
             let! r := dirlink ip (lit ".." ++ [0]) (i_inum d) in
             if r <? 0 then panic "create dots" else ret tt) ;;
          let! i := inode_at ip in
          let! r := dirlink dp name (i_inum i) in
          if r <? 0 then panic "create: dirlink" else
          iunlockput dp ;;
          ret (Some ip)
      end
  end.

(** The first part of [sys_open]: the inode, locked, or nothing, when the
    operation has been ended. *)
Definition open_inode (path : list Z) (omode : Z) : K (option nat) :=
  if negb (Z.land omode O_CREATE =? 0) then
    let! o := create path T_FILE 0 0 in
    match o with
    | None =>
        end_op ;;
        ret None
    | Some ip => ret (Some ip)
    end
  else
    let! o := namei path in
    match o with
    | None =>
        end_op ;;
        ret None
    | Some ip =>
        ilock (Some ip) ;;
        let! i := inode_at ip in
        if (i_type i =? T_DIR) && negb (omode =? O_RDONLY) then
          iunlockput ip ;;
          end_op ;;
          ret None
        else ret (Some ip)
    end.

(** The assignments to the new file. *)
Definition open_file (ip : nat) (i : inode) (omode : Z) (f : file) : file :=
  let f := if i_type i =? T_DEVICE then set_f_major (i_major i) (set_f_type FD_DEVICE f)
           else set_f_off 0 (set_f_type FD_INODE f) in
  set_f_writable (Z.b2z (negb (Z.land omode O_WRONLY =? 0) || negb (Z.land omode O_RDWR =? 0)))
    (set_f_readable (Z.b2z (Z.land omode O_WRONLY =? 0)) (set_f_ip (Some ip) f)).

Definition sys_open : K Z :=
  let! (r, path) := argstr 0 MAXPATH in
  if r <? 0 then ret (-1) else
  let! omode := argint 1 in
  begin_op ;;
  let! o := open_inode path omode in
  match o with
  | None => ret (-1)
  | Some ip =>
      let! i := inode_at ip in
      let bad := iunlockput ip ;; end_op ;; ret (-1) in
      if (i_type i =? T_DEVICE) && ((i_major i <? 0) || (NDEV <=? i_major i)) then bad
      else
        let! fo := filealloc in
        match fo with
        | None => bad
        | Some f =>
            let! fd := fdalloc f in
            if fd <? 0 then
              fileclose f ;;
              bad
            else
              fupdate f (open_file ip i omode) ;;
              when (negb (Z.land omode O_TRUNC =? 0) && (i_type i =? T_FILE)) (itrunc ip) ;;
              iunlock (Some ip) ;;
              end_op ;;
              ret fd
        end
  end.

Definition sys_mkdir : K Z :=
  begin_op ;;
  let! (r, path) := argstr 0 MAXPATH in
  let! o := (if r <? 0 then ret None else create path T_DIR 0 0) in
  match o with
  | None =>
      end_op ;;
      ret (-1)
  | Some ip =>
      iunlockput ip ;;
      end_op ;;
      ret 0
  end.

Definition sys_mknod : K Z :=
  begin_op ;;
  let! (r, path) := argstr 0 MAXPATH in
  let! o :=
    (if r <? 0 then ret None
     else
       let! major := argint 1 in
       let! minor := argint 2 in
       create path T_DEVICE (s16 major) (s16 minor)) in
  match o with
  | None =>
      end_op ;;
      ret (-1)
  | Some ip =>
      iunlockput ip ;;
      end_op ;;
      ret 0
  end.

Definition sys_chdir : K Z :=
  let! p := curproc in
  begin_op ;;
  let! (r, path) := argstr 0 MAXPATH in
  let! o := (if r <? 0 then ret None else namei path) in
  match o with
  | None =>
      end_op ;;
      ret (-1)
  | Some ip =>
      ilock (Some ip) ;;
      let! i := inode_at ip in
      if negb (i_type i =? T_DIR) then
        iunlockput ip ;;
        end_op ;;
        ret (-1)
      else
        iunlock (Some ip) ;;
        let! pr := pget p in
        let! cwd := deref "cwd" (p_cwd pr) in
        iput cwd ;;
        end_op ;;
        pupd p (set_p_cwd (Some ip)) ;;
        ret 0
  end.

(** The loop of [sys_exec] from argument [i] on: whether it got to the end, and the
    pages allocated. *)
Fixpoint exec_args (k : nat) (i : Z) (uargv : Z) (argv : list Z) : K (bool * list Z) :=
  match k with
  | O => ret (false, argv)
  | S k =>
      let! (r, uarg) := fetchaddr (u64 (uargv + 8 * i)) in
      if r <? 0 then ret (false, argv)
      else if uarg =? 0 then ret (true, argv)
      else
        let! a := kalloc in
        if a =? 0 then ret (false, argv)
        else
          let! (r, buf) := fetchstr uarg PGSIZE in
          modify (fun s => set_mem (stl (mem s) a buf) s) ;;
          if r <? 0 then ret (false, argv ++ [a]) else exec_args k (i + 1) uargv (argv ++ [a])
  end.

Definition sys_exec : K Z :=
  let! (r, path) := argstr 0 MAXPATH in
  if r <? 0 then ret (-1) else
  let! uargv := argaddr 1 in
  let! (ok, argv) := exec_args 32 0 uargv [] in
  let! r := (if ok then exec path argv else ret (-1)) in
  for_each argv kfree ;;
  ret r.

Definition sys_pipe : K Z :=
  let! p := curproc in
  let! fdarray := argaddr 0 in
  let! o := pipealloc in
  match o with
  | None => ret (-1)
  | Some (rf, wf) =>
      let! fd0 := fdalloc rf in
      let! fd1 := (if fd0 <? 0 then ret (-1) else fdalloc wf) in
      if fd1 <? 0 then
        when (0 <=? fd0) (set_fd (Z.to_nat fd0) None) ;;
        fileclose rf ;;
        fileclose wf ;;
        ret (-1)
      else
        let! pr := pget p in
        let! r := copyout (p_pagetable pr) fdarray (le_bytes 4 fd0) in
        let! r :=
          (if r <? 0 then ret r else copyout (p_pagetable pr) (u64 (fdarray + 4)) (le_bytes 4 fd1)) in
        if r <? 0 then
          set_fd (Z.to_nat fd0) None ;;
          set_fd (Z.to_nat fd1) None ;;
          fileclose rf ;;
          fileclose wf ;;
          ret (-1)
        else ret 0
  end.
End Sysfile.
