(* ===== verification/Sysproc.v ===== *)
(** * System calls on processes, and the dispatcher

    [kernel/sysproc.c] and [syscall] of [kernel/syscall.c]. *)

From stdpp Require Import gmap strings list.
From S2P Require Import Prelude Layout State Sched Accounting Cstring Vm Block Bio Log Fs Printf File Proc Exec Syscall Sysfile.

Section Sysproc.
Context `{Build} `{Disk}.

Definition sys_exit : K Z :=
  let! n := argint 0 in
  exit n.

Definition sys_getpid : K Z :=
  let! p := curproc in
  let! pr := pget p in
  ret (p_pid pr).

Definition sys_fork : K Z := fork.

Definition sys_wait : K Z :=
  let! p := argaddr 0 in
  wait p.

Definition sys_sbrk : K Z :=
  let! n := argint 0 in
  let! p := curproc in
  let! pr := pget p in
  let addr := s32 (p_sz pr) in
  let! r := growproc n in
  if r <? 0 then ret (-1) else ret addr.

(** The wait of [sys_sleep]; [ticks - ticks0 < n] compares unsigned. *)
Fixpoint sleep_wait (k : nat) (p : nat) (n ticks0 : Z) : K Z :=
  match k with
  | O => no_fuel
  | S k =>
      let! t := gets ticks in
      if u32 (t - ticks0) <? u32 n then
        let! pr := pget p in
        if p_killed pr then
          release LkTicks ;;
          ret (-1)
        else
          sleep ChTicks LkTicks ;;
          sleep_wait k p n ticks0
      else
        release LkTicks ;;
        ret 0
  end.

Definition sys_sleep : K Z :=
  let! n := argint 0 in
  let! p := curproc in
  acquire LkTicks ;;
  let! ticks0 := gets ticks in
  sleep_wait (S fuel) p n ticks0.

Definition sys_kill : K Z :=
  let! pid := argint 0 in
  kill pid.

Definition sys_uptime : K Z :=
  acquire LkTicks ;;
  let! xticks := gets ticks in
  release LkTicks ;;
  ret xticks.

Definition sys_strace : K Z :=
  let! mask := argint 0 in
  let! p := curproc in
  let! pr := pget p in
  if 0 <? p_mask pr then ret (-1)
  else
    pupd p (set_p_mask mask) ;;
    ret 0.

Definition sys_set_priority : K Z :=
  let! new_priority := argint 0 in
  let! pid := argint 0 in
  priority_updater new_priority pid.

(** [uninit]: what the two local variables hold before [waitx] stores in them. *)
Definition sys_waitx (uninit : Z * Z) : K Z :=
  let! addr := argaddr 0 in
  let! addr1 := argaddr 1 in
  let! addr2 := argaddr 2 in
  let! (r, out) := waitx addr in
  let '(wtime, rtime) := default uninit out in
  let! p := curproc in
  let! pr := pget p in
  let! c := copyout (p_pagetable pr) addr1 (le_bytes 4 wtime) in
  if c <? 0 then ret (-1) else
  let! c := copyout (p_pagetable pr) addr2 (le_bytes 4 rtime) in
  if c <? 0 then ret (-1) else ret r.

(** ** The dispatcher *)

(** [syscalls], with no entry at 0. *)
Definition syscalls (uninit : Z * Z) : list (option (K Z)) := [
  None; Some sys_fork; Some sys_exit; Some sys_wait; Some sys_pipe; Some sys_read; Some sys_kill;
  Some sys_exec; Some sys_fstat; Some sys_chdir; Some sys_dup; Some sys_getpid; Some sys_sbrk;
  Some sys_sleep; Some sys_uptime; Some sys_open; Some sys_write; Some sys_mknod; Some sys_unlink;
  Some sys_link; Some sys_mkdir; Some sys_close; Some sys_strace; Some sys_set_priority;
  Some (sys_waitx uninit)].

(** [syscall_name]; the array has one row more than it has initialisers. *)
Definition syscall_name : list (list Z) := lit <$> [
  "NULL"; "fork"; "exit"; "wait"; "pipe"; "read"; "kill"; "exec"; "fstat"; "chdir"; "dup"; "getpid";
  "sbrk"; "sleep"; "uptime"; "open"; "write"; "mknod"; "unlink"; "link"; "mkdir"; "close"; "strace";
  "set_priority"; ""].

Definition syscall_argc : list Z :=
  [0; 1; 1; 1; 3; 1; 2; 2; 1; 1; 0; 1; 1; 0; 2; 3; 3; 1; 2; 1; 1; 1; 2; 3].

(** The trace line of [strace]. *)
Definition strace_line (p : nat) (num temp_trap : Z) : K unit :=
  let! pr := pget p in
  let! nm := deref "syscall_name" (syscall_name !! Z.to_nat num) in
  printf "%d: syscall %s ( %d " [PInt (p_pid pr); PStr (Some nm); PInt temp_trap] ;;
  let! argc := deref "syscall_argc" (syscall_argc !! Z.to_nat (num - 1)) in
  for_each (seq 1 (Z.to_nat (argc - 1))) (fun i =>
    let! temp := argint (Z.of_nat i) in
    printf "%d " [PInt temp]) ;;
  let! a0 := tf_get p TF_A0 in
  printf ") -> %d
" [PInt (s32 a0)].

Definition syscall (uninit : Z * Z) : K unit :=
  let! p := curproc in
  let! a7 := tf_get p TF_A7 in
  let num := s32 a7 in
  match (if 0 <? num then default None (syscalls uninit !! Z.to_nat num) else None) with
  | Some handler =>
      let! a0 := tf_get p TF_A0 in
      let temp_trap := s32 a0 in
      let! r := handler in
      tf_set p TF_A0 (u64 r) ;;
      let! pr := pget p in
      when (negb (Z.land (p_mask pr) (Z.shiftl 1 num) =? 0)) (strace_line p num temp_trap)
  | None =>
      let! pr := pget p in
      printf "%d %s: unknown sys call %d
" [PInt (p_pid pr); PStr (Some (cstr (p_name pr))); PInt num] ;;
      tf_set p TF_A0 (u64 (-1))
  end.
End Sysproc.
