(* ===== verification/Trap.v ===== *)
(** * Traps

    [kernel/trap.c] and [forkret] of [kernel/proc.c], over the registers of the
    hart that takes the trap. *)

From stdpp Require Import gmap strings list.
From S2P Require Import Prelude Layout State Mlfq Sched Accounting Vm Block Bio Log Fs Printf Console Proc Sysproc.

Abbreviation SSTATUS_SPP := 0x100.
Abbreviation SSTATUS_SPIE := 0x20.
Abbreviation SSTATUS_SIE := 0x2.
Abbreviation UART0_IRQ := 10.
Abbreviation VIRTIO0_IRQ := 1.

(** The hart's registers that trap handling uses.  [h_claim] is what reading the
    PLIC's claim register gives, [h_complete] the interrupts completed. *)
Record hart : Type := MkHart {
  h_tp : Z;
  h_stvec : Z;
  h_sepc : Z;
  h_scause : Z;
  h_stval : Z;
  h_sstatus : Z;
  h_satp : Z;
  h_sip : Z;
  h_claim : Z;
  h_complete : list Z
}.

Definition hart_eta (r : hart) : hart :=
  MkHart (h_tp r) (h_stvec r) (h_sepc r) (h_scause r) (h_stval r) (h_sstatus r) (h_satp r) (h_sip r)
    (h_claim r) (h_complete r).

Definition set_h_stvec (v : Z) (r : hart) : hart := ltac:(rset hart_eta h_stvec v r).
Definition set_h_sepc (v : Z) (r : hart) : hart := ltac:(rset hart_eta h_sepc v r).
Definition set_h_sstatus (v : Z) (r : hart) : hart := ltac:(rset hart_eta h_sstatus v r).
Definition set_h_sip (v : Z) (r : hart) : hart := ltac:(rset hart_eta h_sip v r).
Definition set_h_complete (v : list Z) (r : hart) : hart := ltac:(rset hart_eta h_complete v r).

(** Trap handlers run on the kernel's state and the hart. *)
Abbreviation T A := (M (kstate * hart) A).

(** Kernel code in a handler.  Where it gives up the CPU, it may resume on another
    hart, whose registers are whatever they are. *)
Fixpoint olift {A} (o : outcome kstate A) (h : hart) : outcome (kstate * hart) A :=
  match o with
  | Ok a s => Ok a (s, h)
  | Panic msg => Panic msg
  | UB w => UB w
  | NoFuel => NoFuel
  | Switch s k => Switch (s, h) (fun x => olift (k x.1) x.2)
  end.
Definition lift {A} (m : K A) : T A := fun x => olift (m x.1) x.2.

Definition hget {A} (f : hart -> A) : T A := gets (fun x => f x.2).
Definition hset (f : hart -> hart) : T unit := modify (fun x => (x.1, f x.2)).

(** Addresses the linker gives. *)
Class TrapBuild := { sym_kernelvec : Z; sym_uservec : Z; sym_userret : Z; sym_usertrap : Z }.

(** The interrupt handler of the disk driver. *)
Class DiskIntr := { virtio_disk_intr : K unit }.

(** [q_tick]. *)
Definition q_tick : list Z := [1; 2; 4; 8; 16].

Section Trap.
Context `{Build} `{Disk} `{TrapBuild} `{DiskIntr}.

Definition trapinithart : T unit := hset (set_h_stvec sym_kernelvec).

(** kernel/plic.c *)
Definition plic_claim : T Z := hget (fun h => s32 (h_claim h)).
Definition plic_complete (irq : Z) : T unit := hset (fun h => set_h_complete (irq :: h_complete h) h).

Definition cpuid : T Z := hget (fun h => s32 (h_tp h)).

Definition devintr : T Z :=
  let! scause := hget h_scause in
  if negb (Z.land scause 0x8000000000000000 =? 0) && (Z.land scause 0xff =? 9) then
    let! irq := plic_claim in
    (if irq =? UART0_IRQ then lift uartintr
     else if irq =? VIRTIO0_IRQ then lift virtio_disk_intr
     else if negb (irq =? 0) then lift (printf "unexpected interrupt irq=%d
" [PInt irq])
     else ret tt) ;;
    when (negb (irq =? 0)) (plic_complete irq) ;;
    ret 1
  else if scause =? 0x8000000000000001 then
    let! id := cpuid in
    when (id =? 0) (lift clockintr) ;;
    hset (fun h => set_h_sip (Z.land (h_sip h) (Z.lnot 2)) h) ;;
    ret 2
  else ret 0.

(** What [usertrapret] hands to [userret] in the trampoline: the argument
    registers, with [sepc] and [sstatus] in the hart. *)
Record user_return : Type := MkReturn { ur_fn : Z; ur_trapframe : Z; ur_satp : Z }.

Definition usertrapret : T user_return :=
  let! p := lift curproc in
  hset (fun h => set_h_sstatus (Z.land (h_sstatus h) (Z.lnot SSTATUS_SIE)) h) ;;
  hset (set_h_stvec (TRAMPOLINE + (sym_uservec - sym_trampoline))) ;;
  let! satp := hget h_satp in
  lift (tf_set p TF_KERNEL_SATP satp) ;;
  let! pr := lift (pget p) in
  lift (tf_set p TF_KERNEL_SP (u64 (p_kstack pr + PGSIZE))) ;;
  lift (tf_set p TF_KERNEL_TRAP sym_usertrap) ;;
  let! tp := hget h_tp in
  lift (tf_set p TF_KERNEL_HARTID tp) ;;
  hset (fun h => set_h_sstatus (Z.lor (Z.land (h_sstatus h) (Z.lnot SSTATUS_SPP)) SSTATUS_SPIE) h) ;;
  let! epc := lift (tf_get p TF_EPC) in
  hset (set_h_sepc epc) ;;
  ret (MkReturn (TRAMPOLINE + (sym_userret - sym_trampoline)) TRAPFRAME (MAKE_SATP (p_pagetable pr))).

(** [pop(p); push(p, p->curr_q+1); yield();] *)
Definition demote (p : nat) : K unit :=
  pop p ;;
  let! pr := pget p in
  push p (s32 (p_curr_q pr + 1)) ;;
  yield.

(** [uninit]: the stack slots that [sys_waitx] leaves uninitialised. *)
Definition usertrap (uninit : Z * Z) : T user_return :=
  let! sstatus := hget h_sstatus in
  if negb (Z.land sstatus SSTATUS_SPP =? 0) then panic "usertrap: not from user mode" else
  hset (set_h_stvec sym_kernelvec) ;;
  let! p := lift curproc in
  let! sepc := hget h_sepc in
  lift (tf_set p TF_EPC sepc) ;;
  let! scause := hget h_scause in
  let! which_dev :=
    (if scause =? 8 then
       let! pr := lift (pget p) in
       (if p_killed pr then lift (exit (-1)) else ret tt) ;;
       let! epc := lift (tf_get p TF_EPC) in
       lift (tf_set p TF_EPC (u64 (epc + 4))) ;;
       hset (fun h => set_h_sstatus (Z.lor (h_sstatus h) SSTATUS_SIE) h) ;;
       lift (syscall uninit) ;;
       ret 0
     else
       let! which_dev := devintr in
       if negb (which_dev =? 0) then ret which_dev
       else
         let! stval := hget h_stval in
         let! pr := lift (pget p) in
         lift (printf "usertrap(): unexpected scause %p pid=%d
" [PPtr scause; PInt (p_pid pr)]) ;;
         lift (printf "            sepc=%p stval=%p
" [PPtr sepc; PPtr stval]) ;;
         lift (pupd p (set_p_killed true)) ;;
         ret 0) in
  let! pr := lift (pget p) in
  (if p_killed pr then lift (exit (-1)) else ret tt) ;;
  match SCHEDULER with
  | DEFAULT => when (which_dev =? 2) (lift yield)
  | MLFQ => when (which_dev =? 2) (lift (demote p))
  | _ => ret tt
  end ;;
  usertrapret.

(** [myproc() != 0 && myproc()->state == RUNNING]. *)
Definition is_running : K (option nat) :=
  let! o := myproc in
  match o with
  | None => ret None
  | Some p =>
      let! pr := pget p in
      ret (if bool_decide (p_state pr = RUNNING) then Some p else None)
  end.

Definition kerneltrap : T unit :=
  let! sepc := hget h_sepc in
  let! sstatus := hget h_sstatus in
  let! scause := hget h_scause in
  if Z.land sstatus SSTATUS_SPP =? 0 then panic "kerneltrap: not from supervisor mode" else
  if negb (Z.land sstatus SSTATUS_SIE =? 0) then panic "kerneltrap: interrupts enabled" else
  let! which_dev := devintr in
  if which_dev =? 0 then
    let! stval := hget h_stval in
    lift (printf "scause %p
" [PPtr scause]) ;;
    lift (printf "sepc=%p stval=%p
" [PPtr sepc; PPtr stval]) ;;
    panic "kerneltrap"
  else
    match SCHEDULER with
    | DEFAULT =>
        when (which_dev =? 2)
          (let! o := lift is_running in
           match o with Some _ => lift yield | None => ret tt end)
    | MLFQ =>
        when (which_dev =? 2)
          (let! o := lift is_running in
           match o with
           | Some p =>
               let! pr := lift (pget p) in
               let! quota := deref "q_tick" (q_tick !! Z.to_nat (p_curr_q pr)) in
               when (quota <? p_rtime pr) (lift (demote p))
           | None => ret tt
           end)
    | _ => ret tt
    end ;;
    hset (set_h_sepc sepc) ;;
    hset (set_h_sstatus sstatus).

(** [first] is the static variable; the new value is [false]. *)
Definition forkret (first : bool) : T user_return :=
  let! p := lift curproc in
  lift (release (LkProc p)) ;;
  when first (lift (fsinit ROOTDEV)) ;;
  usertrapret.
End Trap.
