(* ===== verification/Main.v ===== *)
(** * Initialisation

    [kernel/main.c], the initialisers it calls that write device registers or function pointers
    ([consoleinit], [uartinit], [printfinit], [plicinit], [plicinithart], [kvminithart]), the first
    user program [user/initcode.S] that [userinit] loads, and the stubs of [user/usys.pl]. *)

From stdpp Require Import gmap strings list.
From S2P Require Import Prelude Layout State Mlfq Sched Scheduler Kalloc Vm Bio Log Fs Virtio Uart Printf Console File Proc Syscall Sysfile Sysproc Trap.

(** ** What boot sets besides the kernel's state *)

(** [struct devsw]. *)
Record devsw : Type := MkDevsw {
  dv_read : option (dest -> Z -> K Z);
  dv_write : option (source -> Z -> K Z)
}.

(** [b_io] are the device registers written, with their values, in order; [b_reads] the values
    that the coming reads of [started] give. *)
Record boot : Type := MkBoot {
  b_devsw : list devsw;
  b_locking : Z;
  b_io : list (Z * Z);
  b_started : Z;
  b_reads : list Z
}.

Definition boot_eta (r : boot) : boot := MkBoot (b_devsw r) (b_locking r) (b_io r) (b_started r) (b_reads r).
Definition set_b_devsw (v : list devsw) (r : boot) : boot := ltac:(rset boot_eta b_devsw v r).
Definition set_b_locking (v : Z) (r : boot) : boot := ltac:(rset boot_eta b_locking v r).
Definition set_b_io (v : list (Z * Z)) (r : boot) : boot := ltac:(rset boot_eta b_io v r).
Definition set_b_started (v : Z) (r : boot) : boot := ltac:(rset boot_eta b_started v r).
Definition set_b_reads (v : list Z) (r : boot) : boot := ltac:(rset boot_eta b_reads v r).

Abbreviation BM A := (M (kstate * hart * boot) A).

Fixpoint oboot {A} (o : outcome (kstate * hart) A) (b : boot) : outcome (kstate * hart * boot) A :=
  match o with
  | Ok a s => Ok a (s, b)
  | Panic msg => Panic msg
  | UB w => UB w
  | NoFuel => NoFuel
  | Switch s k => Switch (s, b) (fun x => oboot (k x.1) x.2)
  end.
(** Code of a hart, and code of the kernel. *)
Definition hlift {A} (m : T A) : BM A := fun x => oboot (m x.1) x.2.
Definition klift {A} (m : K A) : BM A := hlift (lift m).

Definition boot_get {A} (f : boot -> A) : BM A := gets (fun x => f x.2).
Definition bset (f : boot -> boot) : BM unit := modify (fun x => (x.1, f x.2)).

(** A store to a device register. *)
Definition mmio (a v : Z) : BM unit := bset (fun b => set_b_io (b_io b ++ [(a, v)]) b).

(** ** Devices *)

Abbreviation IER := 1.
Abbreviation FCR := 2.
Abbreviation LCR := 3.
Abbreviation IER_RX_ENABLE := 1.
Abbreviation IER_TX_ENABLE := 2.
Abbreviation FCR_FIFO_ENABLE := 1.
Abbreviation FCR_FIFO_CLEAR := 6.
Abbreviation LCR_EIGHT_BITS := 3.
Abbreviation LCR_BAUD_LATCH := 128.

Definition WriteReg (reg v : Z) : BM unit := mmio (UART0 + reg) (u8 v).

Definition uartinit : BM unit :=
  WriteReg IER 0 ;;
  WriteReg LCR LCR_BAUD_LATCH ;;
  WriteReg 0 3 ;;
  WriteReg 1 0 ;;
  WriteReg LCR LCR_EIGHT_BITS ;;
  WriteReg FCR (Z.lor FCR_FIFO_ENABLE FCR_FIFO_CLEAR) ;;
  WriteReg IER (Z.lor IER_TX_ENABLE IER_RX_ENABLE).

Definition PLIC_SENABLE (hart : Z) : Z := PLIC + 0x2080 + hart * 0x100.
Definition PLIC_SPRIORITY (hart : Z) : Z := PLIC + 0x201000 + hart * 0x2000.

Definition plicinit : BM unit :=
  mmio (PLIC + UART0_IRQ * 4) 1 ;;
  mmio (PLIC + VIRTIO0_IRQ * 4) 1.

Definition plicinithart : BM unit :=
  let! hart := hlift cpuid in
  mmio (PLIC_SENABLE hart) (Z.lor (Z.shiftl 1 UART0_IRQ) (Z.shiftl 1 VIRTIO0_IRQ)) ;;
  mmio (PLIC_SPRIORITY hart) 0.

Section Main.
Context `{Build} `{Disk} `{TrapBuild} (pages : Z) (R : Z -> Z).

Abbreviation CONSOLE := 1%nat.

Definition consoleinit : BM unit :=
  uartinit ;;
  bset (fun b => set_b_devsw (alter (fun d => MkDevsw (Some consoleread) (dv_write d)) CONSOLE (b_devsw b)) b) ;;
  bset (fun b => set_b_devsw (alter (fun d => MkDevsw (dv_read d) (Some consolewrite)) CONSOLE (b_devsw b)) b).

Definition printfinit : BM unit := bset (set_b_locking 1).

(** [w_satp(MAKE_SATP(kernel_pagetable)); sfence_vma();] *)
Definition kvminithart : BM unit :=
  let! pt := klift (gets kernel_pagetable) in
  hlift (modify (fun x => (x.1, MkHart (h_tp x.2) (h_stvec x.2) (h_sepc x.2) (h_scause x.2) (h_stval x.2) (h_sstatus x.2)
    (MAKE_SATP pt) (h_sip x.2) (h_claim x.2) (h_complete x.2)))).

(** [printf] takes its lock when [pr.locking] is set, as it is by then. *)
Definition boot_printf (fmt : string) (args : list parg) : BM unit :=
  let! locking := boot_get b_locking in
  if locking =? 0 then
    let! l := klift (deref "va_arg" (format (lit fmt) args)) in klift (put_all l)
  else klift (printf fmt args).

(** [while(started == 0);] *)
Fixpoint wait_started (k : nat) : BM unit :=
  match k with
  | O => no_fuel
  | S k =>
      let! l := boot_get b_reads in
      match l with
      | [] => no_fuel
      | v :: l => bset (set_b_reads l) ;; if v =? 0 then wait_started k else ret tt
      end
  end.

(** The register writes of [virtio_disk_init] follow those before it. *)
Definition disk_init : BM unit :=
  let! w := klift (virtio_disk_init pages R) in
  bset (fun b => set_b_io (b_io b ++ map (fun x => (VIRTIO0 + x.1, x.2)) w) b).

(** What hart 0 does up to the scheduler. *)
Definition main_first : BM unit :=
  consoleinit ;;
  printfinit ;;
  boot_printf "
" [] ;;
  boot_printf "xv6 kernel is booting
" [] ;;
  boot_printf "
" [] ;;
  klift kinit ;;
  klift kvminit ;;
  kvminithart ;;
  klift procinit ;;
  hlift trapinithart ;;
  plicinit ;;
  plicinithart ;;
  klift binit ;;
  klift iinit ;;
  disk_init ;;
  klift userinit ;;
  bset (set_b_started 1).

(** What the other harts do. *)
Definition main_other (k : nat) : BM unit :=
  wait_started k ;;
  let! id := hlift cpuid in
  boot_printf "hart %d starting
" [PInt id] ;;
  kvminithart ;;
  hlift trapinithart ;;
  plicinithart.

(** [k] bounds the reads of [started], [rounds] the turns of the scheduler. *)
Definition main (k rounds : nat) : BM unit :=
  let! id := hlift cpuid in
  (if id =? 0 then main_first else main_other k) ;;
  klift (scheduler rounds).
End Main.

(** ** The console's entry of [devsw] *)

Definition boot0 : boot := MkBoot (replicate 10 (MkDevsw None None)) 0 [] 0 [].

(** The registers that [uartinit] writes. *)
Definition uart_setup : list (Z * Z) :=
  [(UART0 + 1, 0); (UART0 + 3, 128); (UART0 + 0, 3); (UART0 + 1, 0); (UART0 + 3, 3); (UART0 + 2, 7); (UART0 + 1, 3)].

Lemma uartinit_writes x b : uartinit (x, b) = Ok tt (x, set_b_io (b_io b ++ uart_setup) b).
Proof.
  unfold uartinit, WriteReg, mmio. do 6 (erewrite bind_ok by reflexivity). unfold bset, modify. f_equal. f_equal.
  destruct b as [dv lk io st rd]. unfold set_b_io, boot_eta. cbn [b_io b_devsw b_locking b_started b_reads fst snd]. f_equal. by rewrite <- !app_assoc.
Qed.

(** What [fileread] and [filewrite] find in [devsw] is what [consoleinit] put there. *)
Lemma consoleinit_connects `{Build} x :
  exists b, consoleinit (x, boot0) = Ok tt (x, b) /\ forall major, 0 <= major < NDEV ->
    (b_devsw b !! Z.to_nat major ≫= dv_read) = devsw_read major /\ (b_devsw b !! Z.to_nat major ≫= dv_write) = devsw_write major.
Proof.
  exists (MkBoot (<[1%nat := MkDevsw (Some consoleread) (Some consolewrite)]> (replicate 10 (MkDevsw None None))) 0 uart_setup 0 []).
  split; [unfold consoleinit; by mstep (uartinit_writes x boot0)|]. intros major Hm.
  assert (major = 0 \/ major = 1 \/ major = 2 \/ major = 3 \/ major = 4 \/ major = 5 \/ major = 6 \/ major = 7 \/ major = 8 \/ major = 9) as Hc by lia.
  repeat destruct Hc as [->|Hc]; [..|subst]; split; reflexivity.
Qed.

(** ** The 16550

    The registers that [uartinit] sets: with the latch bit of [LCR] set, registers 0 and 1 are
    the divisor of the baud rate. *)
Record uart16550 : Type := MkUart16550 { u_divisor : Z; u_lcr : Z; u_fcr : Z; u_ier : Z }.

Definition uart_write (u : uart16550) (w : Z * Z) : uart16550 :=
  let '(a, v) := w in
  let latch := Z.testbit (u_lcr u) 7 in
  if a =? UART0 + 0 then (if latch then MkUart16550 (u_divisor u / 256 * 256 + v) (u_lcr u) (u_fcr u) (u_ier u) else u)
  else if a =? UART0 + 1 then
    (if latch then MkUart16550 (u_divisor u mod 256 + 256 * v) (u_lcr u) (u_fcr u) (u_ier u)
     else MkUart16550 (u_divisor u) (u_lcr u) (u_fcr u) v)
  else if a =? UART0 + 2 then MkUart16550 (u_divisor u) (u_lcr u) v (u_ier u)
  else if a =? UART0 + 3 then MkUart16550 (u_divisor u) v (u_fcr u) (u_ier u)
  else u.

(** [uartinit] leaves the device at 38400 baud (the divisor is 3), with 8 bits and no parity, the FIFOs
    on, both interrupts enabled, and the latch closed, if the latch was closed before. *)
Lemma uartinit_configures u : Z.testbit (u_lcr u) 7 = false ->
  foldl uart_write u uart_setup = MkUart16550 3 LCR_EIGHT_BITS 7 3.
Proof.
  intros Hl. destruct u as [d lcr fcr ier]. cbn [u_lcr] in Hl. unfold uart_setup. cbn [foldl].
  assert ((d / 256 * 256 + 3) mod 256 = 3) as E by (Z.div_mod_to_equations; lia).
  assert (uart_write (MkUart16550 d lcr fcr ier) (UART0 + 1, 0) = MkUart16550 d lcr fcr 0) as -> by (unfold uart_write; cbn [u_lcr]; by rewrite Hl).
  change (uart_write (MkUart16550 d lcr fcr 0) _) with (MkUart16550 d 128 fcr 0).
  change (uart_write (MkUart16550 d 128 fcr 0) _) with (MkUart16550 (d / 256 * 256 + 3) 128 fcr 0).
  change (uart_write (MkUart16550 (d / 256 * 256 + 3) 128 fcr 0) _) with (MkUart16550 ((d / 256 * 256 + 3) mod 256 + 256 * 0) 128 fcr 0).
  by rewrite E.
Qed.

(** ** The first user program *)

(** The statements of [initcode.S].  [La] takes two instructions; the alignment before [argv] asks
    for nothing in a section of instructions of four bytes. *)
Inductive asm : Type :=
| Label (name : string)
| La (rd : Z) (sym : string)
| LiS (rd imm : Z)
| Ecall
| JalTo (sym : string)
| Str (bytes : list Z)
| Long (sym : option string).

Abbreviation x_a0 := 10.
Abbreviation x_a1 := 11.
Abbreviation x_a7 := 17.
Abbreviation x_ra := 1.
Abbreviation SYS_exit := 2.
Abbreviation SYS_exec := 7.

Definition initcode_S : list asm :=
  [Label "start"; La x_a0 "init"; La x_a1 "argv"; LiS x_a7 SYS_exec; Ecall;
   Label "exit"; LiS x_a7 SYS_exit; Ecall; JalTo "exit";
   Label "init"; Str (lit "/init" ++ [0; 0]);
   Label "argv"; Long (Some "init"); Long None]%string.

Definition asm_size (a : asm) : Z :=
  match a with
  | Label _ => 0
  | La _ _ => 8
  | LiS _ _ | Ecall | JalTo _ | Long _ => 4
  | Str l => Z.of_nat (length l)
  end.

Fixpoint symbol (name : string) (at_ : Z) (p : list asm) : Z :=
  match p with
  | [] => 0
  | Label n :: p => if bool_decide (n = name) then at_ else symbol name at_ p
  | a :: p => symbol name (at_ + asm_size a) p
  end.

(** Instruction encodings of RV64I. *)
Definition enc_auipc (rd imm : Z) : Z := u32 (Z.lor (Z.shiftl imm 12) (Z.lor (Z.shiftl rd 7) 0x17)).
Definition enc_addi (rd rs imm : Z) : Z :=
  u32 (Z.lor (Z.shiftl (imm mod 4096) 20) (Z.lor (Z.shiftl rs 15) (Z.lor (Z.shiftl rd 7) 0x13))).
Definition enc_ecall : Z := 0x73.
Definition bits (x lo n : Z) : Z := Z.shiftr x lo mod 2 ^ n.
Definition enc_jal (rd off : Z) : Z :=
  u32 (Z.lor (Z.shiftl (bits off 20 1) 31) (Z.lor (Z.shiftl (bits off 1 10) 21) (Z.lor (Z.shiftl (bits off 11 1) 20)
    (Z.lor (Z.shiftl (bits off 12 8) 12) (Z.lor (Z.shiftl rd 7) 0x6f))))).

(** The bytes of one statement at address [at_]. *)
Definition assemble_one (p : list asm) (at_ : Z) (a : asm) : list Z :=
  match a with
  | Label _ => []
  | La rd sym =>
      let off := symbol sym 0 p - at_ in
      let hi := Z.shiftr (off + 2048) 12 in
      le_bytes 4 (enc_auipc rd hi) ++ le_bytes 4 (enc_addi rd rd (off - Z.shiftl hi 12))
  | LiS rd imm => le_bytes 4 (enc_addi rd 0 imm)
  | Ecall => le_bytes 4 enc_ecall
  | JalTo sym => le_bytes 4 (enc_jal x_ra (symbol sym 0 p - at_))
  | Str l => l
  | Long (Some sym) => le_bytes 4 (symbol sym 0 p)
  | Long None => le_bytes 4 0
  end.

Fixpoint assemble_from (p : list asm) (at_ : Z) (l : list asm) : list Z :=
  match l with
  | [] => []
  | a :: l => assemble_one p at_ a ++ assemble_from p (at_ + asm_size a) l
  end.
Definition assemble (p : list asm) : list Z := assemble_from p 0 p.

(** The array [initcode] in [kernel/proc.c] is the assembled [user/initcode.S], and zeros after it. *)
Lemma initcode_assembled : exists k, initcode = assemble initcode_S ++ replicate k 0.
Proof. exists 1%nat. vm_compute. done. Qed.
