(* ===== verification/Typed.v ===== *)
(** * Well-typed states and a logic for kernel code

    A predicate on states, [wf], that says that every table of the kernel has its
    size and every index stored in one is in range, and a program logic, [triple],
    that follows a routine through every outcome, including the states in which it
    gives up the CPU.  A triple says four things of a routine run by a process:

    - it keeps [wf];
    - it takes and drops spinlocks as its type says, never takes one that it
      holds, never drops one that it does not hold, and gives up the CPU with the
      process's own lock as the only one held;
    - it has no undefined behaviour but that which [may_ub] lists;
    - its loops end: fuel runs out only after the process has been switched away
      from as often as there is fuel. *)

From stdpp Require Import gmap strings list.
From S2P Require Import Prelude Layout State Mlfq Sched Kalloc Vm Bio Log.

(** ** Well-typed states *)

Definition opt_lt (n : nat) (o : option nat) : Prop := match o with Some i => (i < n)%nat | None => True end.

Record proc_ok (p : proc) : Prop := MkProcOk {
  po_ofile : length (p_ofile p) = 16%nat;
  po_files : Forall (opt_lt 100) (p_ofile p);
  po_cwd : opt_lt 50 (p_cwd p);
  po_parent : opt_lt 64 (p_parent p);
  po_name : length (p_name p) = 16%nat;
  po_sz : 0 <= p_sz p < 2 ^ 64;
  po_q_val : length (p_q_val p) = 5%nat
}.

Definition file_ok (f : file) : Prop :=
  opt_lt 50 (f_ip f) /\ (f_type f = FD_INODE \/ f_type f = FD_DEVICE -> is_Some (f_ip f)).

Definition inode_ok (i : inode) : Prop := length (i_addrs i) = 13%nat.

Definition buf_ok (b : buf) : Prop := length (b_data b) = 1024%nat.

(** The buffers, linked in some order of use. *)
Definition bcache_ok (bs : list buf) : Prop :=
  length bs = 31%nat /\ Forall buf_ok bs /\ exists l, l ≡ₚ seq 0 30 /\ linked_list bs l.

Definition log_ok (lg : klog) : Prop := length (lh_block lg) = 30%nat /\ 0 <= lh_n lg <= 30.

Definition cons_ok (c : console) : Prop :=
  length (cons_buf c) = 128%nat /\ 0 <= cons_r c < 2 ^ 32 /\ 0 <= cons_w c < 2 ^ 32 /\ 0 <= cons_e c < 2 ^ 32.

Definition uart_ok (u : uart) : Prop :=
  length (uart_tx_buf u) = 32%nat /\ u64 (uart_tx_w u - uart_tx_r u) <= 32 /\
  0 <= uart_tx_w u < 2 ^ 64 /\ 0 <= uart_tx_r u < 2 ^ 64.

Record virtio_ok (v : virtio) : Prop := MkVirtioOk {
  vo_desc : length (vd_desc v) = 8%nat;
  vo_next : Forall (fun d => 0 <= d_next d < 8) (vd_desc v);
  vo_avail : length (vd_avail v) = 8%nat;
  vo_free : length (vd_free v) = 8%nat;
  vo_info_b : length (vd_info_b v) = 8%nat;
  vo_status : length (vd_info_status v) = 8%nat;
  vo_ops : length (vd_ops v) = 8%nat
}.

(** The superblock [sb0] is read once, when the file system is mounted. *)
Record wf (sb0 : superblock) (s : kstate) : Prop := MkWf {
  wf_procs : length (procs s) = 64%nat /\ Forall proc_ok (procs s);
  wf_init : exists i, initproc s = Some i /\ (i < 64)%nat;
  wf_queues : length (queues s) = 5%nat /\ Forall (fun row => length row = 64%nat) (queues s);
  wf_q_index : length (q_index s) = 5%nat;
  wf_ftable : length (ftable s) = 100%nat /\ Forall file_ok (ftable s);
  wf_itable : length (itable s) = 50%nat /\ Forall inode_ok (itable s);
  wf_bcache : bcache_ok (bcache s);
  wf_sb : sb s = sb0;
  wf_log : log_ok (klogst s);
  wf_cons : cons_ok (cons s);
  wf_uart : uart_ok (uartst s);
  wf_vdisk : virtio_ok (vdisk s)
}.

(** ** The logic *)

(** Undefined behaviour that a state's being well typed does not exclude: the
    queues of the MLFQ policy overflow, an argument string that lost its
    terminator, a page table with a fourth level. *)
Definition may_ub (w : string) : bool :=
  bool_decide (w = "queues" \/ w = "queues[q][i]" \/ w = "strlen" \/ w = "freewalk")%string.

(** Panics that would mean that locks or scheduling went wrong. *)
Definition lock_panic (m : string) : bool :=
  bool_decide (m = "acquire" \/ m = "release" \/ m = "sched p->lock" \/ m = "sched running" \/
    m = "sched interruptible" \/ m = "argraw")%string.

(** Process [p] runs, this CPU holds the spinlocks [h], and the process has a
    current directory if [cw]. *)
Record at_ (sb0 : superblock) (p : nat) (cw : bool) (h : list lock) (s : kstate) : Prop := MkAt {
  at_wf : wf sb0 s;
  at_p : (p < 64)%nat;
  at_cur : cur s = Some p;
  at_held : held s = h;
  at_cwd : cw = true -> exists pr, procs s !! p = Some pr /\ is_Some (p_cwd pr)
}.

(** An outcome that is safe: if it is a result [a], then [φ a] holds and the locks
    [F a] are held; [n] is how many more switches the fuel lasts for.  A process
    that gives up the CPU finds what it left: a well-typed state, its lock, and its
    current directory if it had one. *)
Fixpoint post {A} (sb0 : superblock) (p : nat) (cw : bool) (n : nat) (φ : A -> Prop) (F : A -> list lock)
    (o : outcome kstate A) : Prop :=
  match o with
  | Ok a s => φ a /\ at_ sb0 p cw (F a) s
  | Panic m => lock_panic m = false
  | UB w => may_ub w = true
  | NoFuel => n = 0%nat
  | Switch s k =>
      exists cw', at_ sb0 p cw' [LkProc p] s /\
      forall s', at_ sb0 p cw' [LkProc p] s' -> post sb0 p cw (pred n) φ F (k s')
  end.

Section Logic.
Context {bld : Build} (sb0 : superblock) (p : nat) (cw : bool).

Definition tripleN {A} (n : nat) (h : list lock) (m : K A) (φ : A -> Prop) (F : A -> list lock) : Prop :=
  forall s, at_ sb0 p cw h s -> post sb0 p cw n φ F (m s).

Definition triple {A} (h : list lock) (m : K A) (φ : A -> Prop) (F : A -> list lock) : Prop :=
  forall n, (n <= fuel)%nat -> tripleN n h m φ F.

Lemma post_obind {A B} (o : outcome kstate A) (f : A -> K B) n φ F ψ G :
  post sb0 p cw n φ F o ->
  (forall a n', (n' <= n)%nat -> φ a -> tripleN n' (F a) (f a) ψ G) ->
  post sb0 p cw n ψ G (obind o f).
Proof.
  revert n. induction o as [a s|m|w| |s k IH]; intros n; cbn [post obind]; try done.
  - intros [Ha Hat] Hf. by apply (Hf a n).
  - intros (cw' & Hat & Hk) Hf. exists cw'. split; [done|]. intros s' Hs'. apply IH; [by apply Hk|].
    intros a n' Hn'. apply Hf. lia.
Qed.

Lemma tripleN_bind {A B} n h (m : K A) (k : A -> K B) φ F ψ G :
  (n <= fuel)%nat -> triple h m φ F ->
  (forall a n', (n' <= n)%nat -> φ a -> tripleN n' (F a) (k a) ψ G) ->
  tripleN n h (bind m k) ψ G.
Proof. intros Hn Hm Hk s Hs. unfold bind. eapply post_obind; [by apply Hm|done]. Qed.

Lemma post_assoc {A B C} (o : outcome kstate A) (f : A -> K B) (g : B -> K C) n φ F :
  post sb0 p cw n φ F (obind o (fun a => bind (f a) g)) -> post sb0 p cw n φ F (obind (obind o f) g).
Proof.
  revert n. induction o as [a s'|msg|w| |s' k IH]; intros n; cbn [post obind]; try done.
  intros (cw' & Hat & Hk). exists cw'. split; [done|]. intros s2 Hs2. apply IH. by apply Hk.
Qed.

Lemma tripleN_assoc {A B C} n h (m : K A) (f : A -> K B) (g : B -> K C) φ F :
  tripleN n h (bind m (fun a => bind (f a) g)) φ F -> tripleN n h (bind (bind m f) g) φ F.
Proof. intros Hm s Hs. apply post_assoc. by apply Hm. Qed.

Lemma tripleN_unbind {A} n h (m : K A) φ F : tripleN n h (bind m ret) φ F -> tripleN n h m φ F.
Proof.
  intros Hm s Hs. specialize (Hm s Hs). revert Hm. unfold bind. generalize (m s). intros o. revert n.
  induction o as [a s'|msg|w| |s' k IH]; intros n; cbn [post obind]; try done.
  intros (cw' & Hat & Hk). exists cw'. split; [done|]. auto.
Qed.

Lemma tripleN_ret {A} n h (a : A) (φ : A -> Prop) F : φ a -> F a = h -> tripleN n h (ret a) φ F.
Proof. intros Ha HF s Hs. cbn. by rewrite HF. Qed.

Lemma tripleN_bind_ret {A B} n h (a : A) (k : A -> K B) φ F :
  tripleN n h (k a) φ F -> tripleN n h (bind (ret a) k) φ F.
Proof. intros Hk s Hs. by apply Hk. Qed.

Lemma tripleN_panic {A} n h m (φ : A -> Prop) F : lock_panic m = false -> tripleN n h (panic m) φ F.
Proof. intros H s _. exact H. Qed.

Lemma tripleN_ub {A} n h w (φ : A -> Prop) F : may_ub w = true -> tripleN n h (ub w) φ F.
Proof. intros H s _. exact H. Qed.

Lemma tripleN_weaken {A} n h (m : K A) (φ ψ : A -> Prop) F G :
  tripleN n h m φ F -> (forall a, φ a -> ψ a /\ F a = G a) -> tripleN n h m ψ G.
Proof.
  intros Hm Hw s Hs. specialize (Hm s Hs). revert Hm. generalize (m s). intros o. revert n.
  induction o as [a s'|msg|w| |s' k IH]; intros n; cbn [post]; try done.
  - intros [Ha Hat]. destruct (Hw a Ha) as [Hp <-]. done.
  - intros (cw' & Hat & Hk). exists cw'. split; [done|]. auto.
Qed.

Lemma triple_weaken {A} h (m : K A) (φ ψ : A -> Prop) F G :
  triple h m φ F -> (forall a, φ a -> ψ a /\ F a = G a) -> triple h m ψ G.
Proof. intros Hm Hw n Hn. eapply tripleN_weaken; [by apply Hm|done]. Qed.

Lemma triple_gets {A} h (f : kstate -> A) (φ : A -> Prop) :
  (forall s, at_ sb0 p cw h s -> φ (f s)) -> triple h (gets f) φ (fun _ => h).
Proof. intros Hf n _ s Hs. cbn. auto. Qed.

Lemma triple_modify h f :
  (forall s, at_ sb0 p cw h s -> at_ sb0 p cw h (f s)) -> triple h (modify f) (fun _ => True) (fun _ => h).
Proof. intros Hf n _ s Hs. cbn. auto. Qed.

Lemma triple_deref {A} h w (o : option A) (φ : A -> Prop) :
  match o with Some a => φ a | None => may_ub w = true end -> triple h (deref w o) φ (fun _ => h).
Proof. intros Ho n _ s Hs. destruct o; cbn; auto. Qed.

Lemma tripleN_for_each {A} (f : A -> K unit) (l : list A) n h :
  (n <= fuel)%nat -> (forall a, a ∈ l -> triple h (f a) (fun _ => True) (fun _ => h)) ->
  tripleN n h (for_each l f) (fun _ => True) (fun _ => h).
Proof.
  revert n. induction l as [|a l IH]; intros n Hn Hf; [by apply tripleN_ret|].
  cbn [for_each]. eapply tripleN_bind; [done|apply Hf, list_elem_of_here|].
  intros [] n' Hn' _. apply IH; [lia|]. intros b Hb. apply Hf. by apply list_elem_of_further.
Qed.

Lemma triple_for_each {A} (f : A -> K unit) (l : list A) h :
  (forall a, a ∈ l -> triple h (f a) (fun _ => True) (fun _ => h)) ->
  triple h (for_each l f) (fun _ => True) (fun _ => h).
Proof. intros Hf n Hn. by apply tripleN_for_each. Qed.

Lemma triple_when h (b : bool) (m : K unit) :
  (b = true -> triple h m (fun _ => True) (fun _ => h)) ->
  triple h (when b m) (fun _ => True) (fun _ => h).
Proof. intros Hm n Hn. destruct b; [by apply Hm|by apply tripleN_ret]. Qed.

(** ** Locks *)

Lemma at_set_held h h' s : at_ sb0 p cw h s -> at_ sb0 p cw h' (set_held h' s).
Proof. intros [Hw Hp Hc Hh Hd]. constructor; [destruct Hw; by constructor|done..]. Qed.

Lemma triple_acquire h lk : lk ∉ h -> triple h (acquire lk) (fun _ => True) (fun _ => lk :: h).
Proof.
  intros Hn n _ s Hs. rewrite acquire_ok by (by rewrite (at_held _ _ _ _ _ Hs)).
  split; [done|]. rewrite (at_held _ _ _ _ _ Hs). by eapply at_set_held.
Qed.

Lemma triple_release h lk : lk ∉ h -> triple (lk :: h) (release lk) (fun _ => True) (fun _ => h).
Proof.
  intros Hn n _ s Hs. rewrite (release_ok lk s h) by (done || apply Hs).
  split; [done|]. by eapply at_set_held.
Qed.

(** Releasing a lock taken before the last one. *)
Lemma triple_release2 h lk lk' :
  lk <> lk' -> lk ∉ h -> triple (lk' :: lk :: h) (release lk) (fun _ => True) (fun _ => lk' :: h).
Proof.
  intros Hne Hn n _ s Hs. unfold release, holding. rewrite (at_held _ _ _ _ _ Hs).
  rewrite bool_decide_true by set_solver. split; [done|]. eapply at_set_held in Hs.
  rewrite filter_cons_True by done. rewrite filter_cons_False by auto.
  replace (filter (.≠ lk) h) with h; [exact Hs|].
  clear Hs. induction h as [|x h IH]; [done|]. rewrite filter_cons_True by set_solver.
  f_equal. apply IH. set_solver.
Qed.
End Logic.
