(* ===== verification/TypedCore.v ===== *)
(** * Triples for the core of the kernel

    Process table, scheduling, sleep locks, pages and page tables. *)

From stdpp Require Import gmap strings list.
From S2P Require Import Prelude Layout State Mlfq Sched Accounting Cstring Kalloc Vm Bio Typed.

Create HintDb typed.
#[export] Hint Constants Opaque : typed.
#[export] Hint Resolve triple_acquire triple_release triple_when : typed.

(** [nolock] proves that a lock is not among those held. *)
Ltac nolock :=
  repeat match goal with
         | |- _ ∉ [] => apply not_elem_of_nil
         | |- _ ∉ _ :: _ => apply not_elem_of_cons; split; [try discriminate; try congruence|]
         end; try assumption.
#[export] Hint Extern 1 (_ ∉ _) => solve [nolock] : typed.
#[export] Hint Extern 1 (_ < _)%nat => lia : typed.
#[export] Hint Extern 1 (_ <= _) => lia : typed.

Lemma opt_lt_None n : opt_lt n None.
Proof. done. Qed.
Lemma opt_lt_Some n i : (i < n)%nat -> opt_lt n (Some i).
Proof. done. Qed.
#[export] Hint Resolve opt_lt_None opt_lt_Some : typed.

(** Substitute the results that a triple determines. *)
Ltac tsubst :=
  repeat match goal with
         | H : ?x = _ |- _ => is_var x; lazymatch type of x with bool => fail | _ => subst x end
         | H : is_Some None |- _ => destruct H; discriminate
         end.

(** [tstep] takes one step of a routine in a triple: a call whose triple is in
    the hint database, a test, a panic, the end. *)
Ltac tstep :=
  match goal with
  | |- tripleN _ _ _ _ _ (bind (bind _ _) _) _ _ => apply tripleN_assoc
  | |- tripleN _ _ _ _ _ (bind (ret _) _) _ _ => apply tripleN_bind_ret; cbv beta
  | |- tripleN _ _ _ _ _ (bind (panic _) _) _ _ => let s := fresh in intros s _; reflexivity
  | |- tripleN _ _ _ _ _ (bind (when _ _) _) _ _ =>
      eapply tripleN_bind; [lia|apply triple_when; intros; intros ? ?; repeat tstep|cbv beta; intros]
  | |- tripleN _ _ _ _ _ (bind (match ?x with _ => _ end) _) _ _ => destruct x eqn:?
  | |- tripleN _ _ _ _ _ (bind _ _) _ _ =>
      eapply tripleN_bind; [lia|solve [eauto 6 with typed]|cbv beta; intros; destruct_and?; tsubst]
  | |- tripleN _ _ _ _ _ (ret _) _ _ => apply tripleN_ret; [try done|try done]
  | |- tripleN _ _ _ _ _ (panic _) _ _ => apply tripleN_panic; reflexivity
  | |- tripleN _ _ _ _ _ (match ?x with _ => _ end) _ _ => destruct x eqn:?
  | |- tripleN ?sb ?p ?cw ?n ?h (when ?b ?m) ?phi ?F =>
      apply (triple_when sb p cw h b m); [intros; intros ? ?; repeat tstep|lia]
  | |- tripleN ?sb ?p ?cw ?n ?h ?m ?phi ?F =>
      let Htail := fresh in
      assert (triple sb p cw h m phi F) as Htail by (solve [eauto 6 with typed]);
      apply Htail; lia
  end.
Ltac tgo := repeat tstep.

(** [kept] proves that an update keeps a process well typed. *)
Ltac kept :=
  let pr := fresh in let H := fresh in
  intros pr H; destruct H; split; [constructor; first [assumption|done|cbn; auto]|first [assumption|done|intros; assumption]].

Section Core.
Context {bld : Build} (sb0 : superblock) (p : nat) (cw : bool).
Abbreviation triple := (triple sb0 p cw).
Abbreviation tripleN := (tripleN sb0 p cw).
Abbreviation at_ := (at_ sb0 p cw).

(** ** The process table *)

Lemma at_proc h s i : at_ h s -> (i < 64)%nat ->
  exists pr, procs s !! i = Some pr /\ proc_ok pr /\ (cw = true -> i = p -> is_Some (p_cwd pr)).
Proof.
  intros Hs Hi. destruct (wf_procs _ _ (at_wf _ _ _ _ _ Hs)) as [Hl Hf].
  destruct (lookup_lt_is_Some_2 (procs s) i) as [pr Hpr]; [lia|].
  exists pr. split; [done|]. split; [by eapply Forall_lookup_1|].
  intros Hcw ->. destruct (at_cwd _ _ _ _ _ Hs Hcw) as (pr' & Hp & Hc). by simplify_eq.
Qed.

Lemma triple_pget h i :
  (i < 64)%nat ->
  triple h (pget i) (fun pr => proc_ok pr /\ (cw = true -> i = p -> is_Some (p_cwd pr))) (fun _ => h).
Proof.
  intros Hi n _ s Hs. destruct (at_proc h s i Hs Hi) as (pr & Hpr & Hok).
  rewrite (pget_ok _ _ _ Hpr). done.
Qed.

(** An update of a process that keeps it well typed and its current directory. *)
Definition keeps (f : proc -> proc) : Prop :=
  forall pr, proc_ok pr -> proc_ok (f pr) /\ (is_Some (p_cwd pr) -> is_Some (p_cwd (f pr))).

Lemma triple_pupd h i f : (i < 64)%nat -> keeps f -> triple h (pupd i f) (fun _ => True) (fun _ => h).
Proof.
  intros Hi Hf n _ s Hs. destruct (at_proc h s i Hs Hi) as (pr & Hpr & Hok & Hcw).
  rewrite (pupd_ok _ _ _ _ Hpr). split; [done|]. destruct (Hf pr Hok) as [Hok' Hcwd'].
  destruct Hs as [Hw Hp Hc Hh Hd]. constructor; try done.
  - destruct Hw as [[Hl Hall] ? ? ? ? ? ? ? ? ? ? ?]. constructor; try done. cbn. split.
    + by rewrite length_insert.
    + by apply Forall_insert.
  - intros Hb. destruct (Hd Hb) as (pr0 & Hpr0 & Hc0). cbn. destruct (decide (i = p)) as [->|Hne].
    + simplify_eq. exists (f pr). rewrite list_lookup_insert_eq by (by eapply lookup_lt_Some). auto.
    + exists pr0. by rewrite list_lookup_insert_ne.
Qed.

Lemma triple_myproc h : triple h myproc (fun o => o = Some p) (fun _ => h).
Proof. apply triple_gets. intros s Hs. apply Hs. Qed.

Lemma triple_curproc h : triple h curproc (fun i => i = p /\ (p < 64)%nat) (fun _ => h).
Proof.
  intros n Hn s Hs. unfold curproc, myproc, bind, gets. cbn. rewrite (at_cur _ _ _ _ _ Hs). cbn.
  split; [|done]. split; [done|]. apply Hs.
Qed.

(** ** The rest of the state *)

Lemma triple_gets_any {A} h (f : kstate -> A) : triple h (gets f) (fun _ => True) (fun _ => h).
Proof. by apply triple_gets. Qed.

(** What [wf] and [at_] talk about. *)
Definition tables (s : kstate) :=
  (procs s, initproc s, queues s, q_index s, ftable s, itable s, bcache s, sb s, klogst s, cons s, uartst s,
   vdisk s, cur s, held s).

Lemma at_tables h s s' : tables s' = tables s -> at_ h s -> at_ h s'.
Proof.
  intros Ht [Hw Hp Hc Hh Hd]. injection Ht as E1 E2 E3 E4 E5 E6 E7 E8 E9 E10 E11 E12 E13 E14.
  constructor; rewrite ?E1, ?E13, ?E14; try done.
  destruct Hw. constructor; rewrite ?E1, ?E2, ?E3, ?E4, ?E5, ?E6, ?E7, ?E8, ?E9, ?E10, ?E11, ?E12; done.
Qed.

Lemma triple_modify_inert h f :
  (forall s, tables (f s) = tables s) -> triple h (modify f) (fun _ => True) (fun _ => h).
Proof. intros Hf. apply triple_modify. intros s Hs. exact (at_tables h s (f s) (Hf s) Hs). Qed.

Lemma triple_gets_log h : triple h (gets klogst) log_ok (fun _ => h).
Proof. apply triple_gets. intros s Hs. apply Hs. Qed.
Lemma triple_gets_sb h : triple h (gets sb) (fun x => x = sb0) (fun _ => h).
Proof. apply triple_gets. intros s Hs. apply Hs. Qed.
Lemma triple_gets_cons h : triple h (gets cons) cons_ok (fun _ => h).
Proof. apply triple_gets. intros s Hs. apply Hs. Qed.
Lemma triple_gets_uart h : triple h (gets uartst) uart_ok (fun _ => h).
Proof. apply triple_gets. intros s Hs. apply Hs. Qed.
Lemma triple_gets_vdisk h : triple h (gets vdisk) virtio_ok (fun _ => h).
Proof. apply triple_gets. intros s Hs. apply Hs. Qed.
Lemma triple_gets_init h :
  triple h (gets initproc) (fun o => exists i, o = Some i /\ (i < 64)%nat) (fun _ => h).
Proof. apply triple_gets. intros s Hs. apply Hs. Qed.

(** ** Scheduling *)

Lemma sched_post h s pr :
  at_ (LkProc p :: h) s -> procs s !! p = Some pr -> p_state pr <> RUNNING ->
  sched s = Switch s (fun s' => Ok tt s') /\ h = [] \/ sched s = Panic "sched locks".
Proof.
  intros Hs Hpr Hst. unfold sched, curproc, myproc, bind. cbn [gets obind].
  rewrite (at_cur _ _ _ _ _ Hs). cbn [deref ret obind]. unfold holding, noff. rewrite (at_held _ _ _ _ _ Hs).
  rewrite bool_decide_true by apply list_elem_of_here. cbn [negb gets obind].
  rewrite (at_held _ _ _ _ _ Hs). destruct h as [|x h]; cbn [length].
  - left. split; [|done]. change (Z.of_nat 1 =? 1) with true. cbn [negb].
    rewrite (pget_ok _ _ _ Hpr). cbn [obind]. rewrite bool_decide_false by done.
    unfold intr_get. rewrite (at_held _ _ _ _ _ Hs). by rewrite bool_decide_false by done.
  - right. by destruct (Z.eqb_spec (Z.of_nat (S (S (length h)))) 1); [lia|].
Qed.

(** Giving up the CPU with the process's lock and the locks [h] held: it panics
    when there are any. *)
Lemma tripleN_switch {A B} n h f (g : unit -> K A) (k : A -> K B) ψ G :
  keeps f -> (forall pr, p_state (f pr) <> RUNNING) ->
  (forall n', (n' <= pred n)%nat -> tripleN n' (LkProc p :: h) (bind (g tt) k) ψ G) ->
  tripleN n (LkProc p :: h) (bind (pupd p f ;; bind sched g) k) ψ G.
Proof.
  intros Hf Hst Hk s Hs. apply post_assoc. destruct (at_proc _ _ p Hs) as (pr & Hpr & _); [apply Hs|].
  pose proof (triple_pupd (LkProc p :: h) p f (at_p _ _ _ _ _ Hs) Hf 0%nat ltac:(lia) s Hs) as Hu.
  rewrite (pupd_ok _ _ _ _ Hpr) in *. destruct Hu as [_ Hs']. cbn [obind]. apply post_assoc.
  assert (procs (set_procs (<[p := f pr]> (procs s)) s) !! p = Some (f pr)) as Hpr'.
  { cbn. apply list_lookup_insert_eq. by eapply lookup_lt_Some. }
  destruct (sched_post _ _ _ Hs' Hpr' (Hst pr)) as [[-> ->]| ->]; [|reflexivity].
  cbn. exists cw. split; [done|]. intros s2 Hs2. by apply Hk.
Qed.

Lemma tripleN_sleep_bind {A} n h c lk (k : unit -> K A) ψ G :
  (n <= fuel)%nat -> lk <> LkProc p -> lk ∉ h -> LkProc p ∉ h ->
  (forall n', (n' <= pred n)%nat -> tripleN n' (lk :: h) (k tt) ψ G) ->
  tripleN n (lk :: h) (bind (sleep c lk) k) ψ G.
Proof.
  intros Hn Hlk Hh Hp Hk. unfold sleep. apply tripleN_assoc.
  eapply tripleN_bind; [done|apply triple_curproc|]. cbv beta. intros ? n1 Hn1 [-> Hp64].
  apply tripleN_assoc. eapply tripleN_bind; [lia|apply triple_acquire; set_solver|]. cbv beta. intros _ n2 Hn2 _.
  apply tripleN_assoc. eapply tripleN_bind; [lia|apply triple_release2; done|]. cbv beta. intros _ n3 Hn3 _.
  apply tripleN_switch; [kept|done|]. intros n4 Hn4. apply tripleN_assoc.
  eapply tripleN_bind; [lia|apply triple_pupd; [done|kept]|]. cbv beta. intros _ n5 Hn5 _. apply tripleN_assoc.
  eapply tripleN_bind; [lia|by apply triple_release|]. cbv beta. intros _ n6 Hn6 _.
  eapply tripleN_bind; [lia|by apply triple_acquire|]. cbv beta. intros [] n7 Hn7 _. apply Hk. lia.
Qed.

End Core.

#[export] Hint Extern 1 (keeps _) => solve [kept] : typed.
#[export] Hint Extern 1 (forall s, tables _ = tables s) => solve [intros; reflexivity] : typed.
#[export] Hint Resolve triple_pget triple_pupd triple_myproc triple_curproc triple_gets_log triple_gets_sb
  triple_gets_cons triple_gets_uart triple_gets_vdisk triple_gets_init triple_modify_inert : typed.
#[export] Hint Resolve triple_gets_any | 10 : typed.

Lemma elem_all_procs i : i ∈ all_procs -> (i < 64)%nat.
Proof. unfold all_procs. rewrite elem_of_seq. lia. Qed.
#[export] Hint Resolve elem_all_procs : typed.

(** A routine that is a sequence of loop turns over the process table. *)
Section Sched.
Context {bld : Build} (sb0 : superblock) (p : nat) (cw : bool).
Abbreviation triple := (triple sb0 p cw).
Abbreviation tripleN := (tripleN sb0 p cw).

Lemma triple_yield : triple [] yield (fun _ => True) (fun _ => []).
Proof.
  intros n Hn. unfold yield. tstep. tstep.
  apply tripleN_unbind, tripleN_switch; [kept|done|]. intros n3 Hn3. tgo.
Qed.

Lemma triple_sleep h c lk :
  lk <> LkProc p -> lk ∉ h -> LkProc p ∉ h -> triple (lk :: h) (sleep c lk) (fun _ => True) (fun _ => lk :: h).
Proof.
  intros Hlk Hh Hp n Hn. apply tripleN_unbind, tripleN_sleep_bind; [done..|]. intros n' _. by apply tripleN_ret.
Qed.

(** No process lock is held. *)
Definition no_proc (h : list lock) : Prop := forall i, LkProc i ∉ h.

Lemma triple_wakeup h c : no_proc h -> triple h (wakeup c) (fun _ => True) (fun _ => h).
Proof.
  intros Hh. apply triple_for_each. intros i Hi%elem_all_procs n Hn. unfold wakeup_one.
  specialize (Hh i). tgo.
Qed.

(** Queues: [push] may overflow one. *)
Lemma triple_queue_set h q i x : triple h (queue_set q i x) (fun _ => True) (fun _ => h).
Proof.
  intros n _ s Hs. unfold queue_set. destruct (queues s !! q) as [row|] eqn:Hq; [|reflexivity].
  case_match; [|reflexivity]. split; [done|]. destruct Hs as [Hw Hp Hc Hh Hd]. constructor; try done.
  destruct Hw as [? ? [Hl Hf] ? ? ? ? ? ? ? ? ?]. constructor; try done. cbn. split; [by rewrite length_insert|].
  apply Forall_insert; [done|]. rewrite length_insert. exact (Forall_lookup_1 _ _ _ _ Hf Hq).
Qed.

Lemma triple_qindex_get h q : (q < 5)%nat -> triple h (qindex_get q) (fun _ => True) (fun _ => h).
Proof.
  intros Hq n _ s Hs. unfold qindex_get. destruct (lookup_lt_is_Some_2 (q_index s) q) as [x ->]; [|done].
  by rewrite (wf_q_index _ _ (at_wf _ _ _ _ _ Hs)).
Qed.

Lemma triple_qindex_set h q v : (q < 5)%nat -> triple h (qindex_set q v) (fun _ => True) (fun _ => h).
Proof.
  intros Hq n _ s Hs. unfold qindex_set. destruct (lookup_lt_is_Some_2 (q_index s) q) as [x ->].
  - by rewrite (wf_q_index _ _ (at_wf _ _ _ _ _ Hs)).
  - split; [done|]. destruct Hs as [Hw Hp Hc Hh Hd]. constructor; try done.
    destruct Hw. constructor; try done. cbn. by rewrite length_insert.
Qed.

Lemma clamp_q_lt5 q : (clamp_q q < 5)%nat.
Proof. unfold clamp_q. repeat case_match; lia. Qed.
End Sched.

#[export] Hint Resolve triple_yield triple_sleep triple_wakeup triple_queue_set triple_qindex_get
  triple_qindex_set clamp_q_lt5 : typed.
(** [noproc] proves that no process lock is held. *)
Ltac noproc := let i := fresh in intros i; nolock; try match goal with H : no_proc ?h |- LkProc ?j ∉ ?h => apply (H j) end.
#[export] Hint Extern 1 (no_proc _) => solve [noproc] : typed.
#[export] Hint Extern 1 (_ <> LkProc _) => discriminate : typed.

Section Sched2.
Context {bld : Build} (sb0 : superblock) (p : nat) (cw : bool).
Abbreviation triple := (triple sb0 p cw).
Abbreviation tripleN := (tripleN sb0 p cw).

Lemma triple_push h i q : (i < 64)%nat -> triple h (push i q) (fun _ => True) (fun _ => h).
Proof. intros Hi n Hn. unfold push. tgo. Qed.
#[local] Hint Resolve triple_push : typed.

Lemma triple_kill pid : triple [] (kill pid) (fun _ => True) (fun _ => []).
Proof.
  unfold kill. assert (Forall (fun i => (i < 64)%nat) all_procs) as Hall.
  { apply Forall_forall. eauto with typed. }
  induction Hall as [|i l Hi _ IH]; intros n Hn; cbn [kill_loop]; tgo.
Qed.

Lemma triple_priority_updater np pid : triple [] (priority_updater np pid) (fun _ => True) (fun _ => []).
Proof.
  assert (forall temp, triple [] (priority_loop np pid all_procs temp) (fun _ => True) (fun _ => [])) as Hloop.
  { assert (Forall (fun i => (i < 64)%nat) all_procs) as Hall by (apply Forall_forall; eauto with typed).
    induction Hall as [|i l Hi _ IH]; intros temp n Hn; cbn [priority_loop]; [tgo|].
    tgo. }
  intros n Hn. unfold priority_updater. tgo.
Qed.

(** ** Sleep locks *)

Lemma bcache_ok_alter f i bs :
  (forall b, buf_ok b -> buf_ok (f b)) -> (forall b, b_next (f b) = b_next b /\ b_prev (f b) = b_prev b) ->
  bcache_ok bs -> bcache_ok (alter f i bs).
Proof.
  intros Hf Hl (Hlen & Hall & l & Hp & Hll). split; [by rewrite length_alter|]. split.
  - apply Forall_alter; auto.
  - exists l. split; [done|]. eapply linked_list_ext; [|done]. by apply alter_links.
Qed.

Definition sl_in (l : slock) : Prop := match l with SlBuf i => (i < 31)%nat | SlInode i => (i < 50)%nat end.

Lemma triple_sl_get h l : sl_in l -> triple h (sl_get l) (fun _ => True) (fun _ => h).
Proof.
  intros Hl n _ s Hs. destruct Hs as [Hw Hp Hc Hh Hd] eqn:Heq. clear Heq. unfold sl_get. destruct l as [i|i]; cbn in Hl.
  - destruct (lookup_lt_is_Some_2 (bcache s) i) as [b ->]; [|done]. by destruct (wf_bcache _ _ Hw) as [-> _].
  - destruct (lookup_lt_is_Some_2 (itable s) i) as [b ->]; [|done]. by destruct (wf_itable _ _ Hw) as [-> _].
Qed.

Lemma triple_sl_set h l v : sl_in l -> triple h (sl_set l v) (fun _ => True) (fun _ => h).
Proof.
  intros Hl n _ s Hs. destruct Hs as [Hw Hp Hc Hh Hd]. unfold sl_set. destruct l as [i|i]; cbn in Hl.
  - destruct (wf_bcache _ _ Hw) as (Hbl & Hbf & _).
    destruct (lookup_lt_is_Some_2 (bcache s) i) as [b Hb]; [lia|]. rewrite Hb. split; [done|].
    constructor; try done. destruct Hw. constructor; try done. cbn.
    rewrite <- (alter_is_insert _ _ _ _ Hb). by apply bcache_ok_alter.
  - destruct (wf_itable _ _ Hw) as [Hbl Hbf].
    destruct (lookup_lt_is_Some_2 (itable s) i) as [b Hb]; [lia|]. rewrite Hb. split; [done|].
    constructor; try done. destruct Hw. constructor; try done. cbn. split; [by rewrite length_insert|].
    apply Forall_insert; [done|]. exact (Forall_lookup_1 _ _ _ _ Hbf Hb).
Qed.
#[local] Hint Resolve triple_sl_get triple_sl_set : typed.

Lemma tripleN_acquiresleep_wait k l n h :
  (n <= fuel)%nat -> (n <= k)%nat -> sl_in l -> sl_lk l ∉ h -> LkProc p ∉ h ->
  tripleN n (sl_lk l :: h) (acquiresleep_wait k l) (fun _ => True) (fun _ => sl_lk l :: h).
Proof.
  revert n. induction k as [|k IH]; intros n Hf Hk Hl Hh Hp; cbn [acquiresleep_wait].
  - intros s Hs. cbn. lia.
  - tstep. tstep; [|tgo]. apply tripleN_sleep_bind; [lia|by destruct l|done..|].
    intros n2 Hn2. apply IH; (done || lia).
Qed.

Lemma triple_acquiresleep l h :
  sl_in l -> sl_lk l ∉ h -> LkProc p ∉ h -> triple h (acquiresleep l) (fun _ => True) (fun _ => h).
Proof.
  intros Hl Hh Hp n Hn. unfold acquiresleep. tstep.
  eapply tripleN_bind with (φ := fun _ => True) (F := fun _ => sl_lk l :: h); [lia| |cbv beta; intros; tgo].
  intros n3 Hn3. apply tripleN_acquiresleep_wait; (done || lia).
Qed.

Lemma triple_releasesleep l h :
  sl_in l -> sl_lk l ∉ h -> no_proc h -> triple h (releasesleep l) (fun _ => True) (fun _ => h).
Proof. intros Hl Hh Hp n Hn. unfold releasesleep. assert (no_proc (sl_lk l :: h)) by (destruct l; noproc). tgo. Qed.

Lemma triple_holdingsleep l h :
  sl_in l -> sl_lk l ∉ h -> triple h (holdingsleep l) (fun _ => True) (fun _ => h).
Proof. intros Hl Hh n Hn. unfold holdingsleep. tgo. Qed.
End Sched2.
#[export] Hint Resolve triple_push triple_kill triple_priority_updater triple_sl_set triple_acquiresleep
  triple_releasesleep triple_holdingsleep : typed.
#[export] Hint Extern 1 (sl_in _) => progress cbn; lia : typed.
