(* ===== verification/TypedVm.v ===== *)
(** * Triples for pages and page tables *)

From stdpp Require Import gmap strings list.
From S2P Require Import Prelude Layout State Sched Cstring Kalloc Vm Typed TypedCore.

Section TypedVm.
Context {bld : Build} (sb0 : superblock) (p : nat) (cw : bool) (h : list lock).
Hypothesis Hk : LkKmem ∉ h.
Abbreviation triple := (triple sb0 p cw).
Abbreviation tripleN := (tripleN sb0 p cw).
Abbreviation keeps_locks m := (triple h m (fun _ => True) (fun _ => h)).

Lemma triple_kalloc : keeps_locks kalloc.
Proof. intros n Hn. unfold kalloc. tgo. Qed.

Lemma triple_kfree pa : keeps_locks (kfree pa).
Proof. intros n Hn. unfold kfree. tgo. Qed.

Lemma triple_ld a : keeps_locks (ld a).
Proof. intros n Hn. unfold ld. tgo. Qed.
Lemma triple_st a v : keeps_locks (st a v).
Proof. intros n Hn. unfold st. tgo. Qed.
Lemma triple_zero_page a : keeps_locks (zero_page a).
Proof. intros n Hn. unfold zero_page. tgo. Qed.
#[local] Hint Resolve triple_kalloc triple_kfree triple_ld triple_st triple_zero_page : typed.

Lemma triple_walk_level l pt va alloc : keeps_locks (walk_level l pt va alloc).
Proof. intros n Hn. unfold walk_level. tgo. Qed.
#[local] Hint Resolve triple_walk_level : typed.

Lemma triple_walk pt va alloc : triple h (walk pt va alloc) (fun _ => va < MAXVA) (fun _ => h).
Proof. intros n Hn. unfold walk. tgo; lia. Qed.
#[local] Hint Resolve triple_walk : typed.

Lemma triple_walkaddr pt va : keeps_locks (walkaddr pt va).
Proof. intros n Hn. unfold walkaddr. tgo. Qed.
#[local] Hint Resolve triple_walkaddr : typed.

(** From [a] the loop gets to [last], or past [MAXVA]. *)
Lemma tripleN_mappages_loop k n pt a last pa perm :
  (n <= fuel)%nat -> (1 <= k)%nat ->
  (a mod PGSIZE = 0 /\ last mod PGSIZE = 0 /\ a <= last <= a + PGSIZE * (Z.of_nat k - 1)) \/
    MAXVA <= a + PGSIZE * (Z.of_nat k - 1) ->
  tripleN n h (mappages_loop k pt a last pa perm) (fun _ => True) (fun _ => h).
Proof.
  revert n a pa. induction k as [|k IH]; intros n a pa Hn Hk1 Ha; [lia|]. cbn [mappages_loop].
  tstep. tstep; [|tgo]. tstep. tstep; [tgo|]. tstep. tstep; [tgo|].
  assert (k <> 0)%nat. { intros ->. Z.div_mod_to_equations. lia. }
  apply IH; [lia|lia|]. destruct Ha as [Ha|Ha]; [left|right; lia]. Z.div_mod_to_equations. lia.
Qed.

Lemma triple_mappages pt va size pa perm :
  0 <= va -> keeps_locks (mappages pt va size pa perm).
Proof.
  intros Hva n Hn. unfold mappages. tstep; [tgo|]. unfold mappages_pages.
  apply tripleN_mappages_loop; [done|lia|]. rewrite !PGROUNDDOWN_spec.
  generalize (u64 (va + size - 1)). intros x. destruct (Z.leb_spec (PGSIZE * (va / PGSIZE)) (PGSIZE * (x / PGSIZE))).
  - left. rewrite <- (Z.mul_comm (va / PGSIZE)), <- (Z.mul_comm (x / PGSIZE)), !Z.mod_mul by lia.
    split; [done|]. split; [done|]. rewrite Nat2Z.inj_succ, Z2Nat.id by (apply Z.div_pos; lia).
    replace (x / PGSIZE * PGSIZE - va / PGSIZE * PGSIZE) with ((x / PGSIZE - va / PGSIZE) * PGSIZE) by lia.
    rewrite Z.div_mul by lia. lia.
  - right. assert (0 <= va / PGSIZE) by (apply Z.div_pos; lia).
    change (MAXVA / PGSIZE) with 67108864. lia.
Qed.
#[local] Hint Resolve triple_mappages : typed.
#[local] Hint Extern 1 (_ <= _) => lia : typed.

Lemma tripleN_uvmunmap_loop k n pt a bound df :
  (n <= fuel)%nat -> bound <= a + PGSIZE * Z.of_nat k ->
  tripleN n h (uvmunmap_loop k pt a bound df) (fun _ => True) (fun _ => h).
Proof.
  revert n a. induction k as [|k IH]; intros n a Hn Ha; cbn [uvmunmap_loop]; tstep; try (by apply tripleN_ret); [lia|].
  tstep. tstep; [|tgo]. tstep. tstep; [tgo|]. tstep; [tgo|]. tstep. tstep. apply IH; lia.
Qed.

Lemma triple_uvmunmap pt va np df : 0 <= va -> 0 <= np -> keeps_locks (uvmunmap pt va np df).
Proof.
  intros Hva Hnp n Hn. unfold uvmunmap. tstep; [tgo|]. apply tripleN_uvmunmap_loop; [done|].
  rewrite Z2Nat.id by lia. unfold u64. pose proof (Z.mod_le (va + np * PGSIZE) (2 ^ 64)). lia.
Qed.
#[local] Hint Resolve triple_uvmunmap : typed.

Lemma triple_uvmcreate : keeps_locks uvmcreate.
Proof. intros n Hn. unfold uvmcreate. tgo. Qed.

Lemma u64_nonneg x : 0 <= u64 x.
Proof. unfold u64. apply Z.mod_pos_bound. lia. Qed.
Lemma PGROUNDUP_nonneg x : 0 <= PGROUNDUP x.
Proof. unfold PGROUNDUP. apply Z.land_nonneg. left. apply u64_nonneg. Qed.
#[local] Hint Resolve u64_nonneg PGROUNDUP_nonneg : typed.

Lemma triple_uvmdealloc pt o nw : keeps_locks (uvmdealloc pt o nw).
Proof. intros n Hn. unfold uvmdealloc. tgo. Qed.
#[local] Hint Resolve triple_uvmdealloc : typed.

Lemma tripleN_uvmalloc_loop k n pt a base newsz :
  (n <= fuel)%nat -> 0 <= a -> newsz <= a + PGSIZE * Z.of_nat k ->
  tripleN n h (uvmalloc_loop k pt a base newsz) (fun r => r = 0 \/ r = newsz) (fun _ => h).
Proof.
  revert n a. induction k as [|k IH]; intros n a Hn H0 Ha; cbn [uvmalloc_loop]; tstep;
    try (apply tripleN_ret; auto); [lia|].
  tstep. tstep; [tstep; apply tripleN_ret; auto|]. tstep. tstep.
  tstep; [tstep; tstep; apply tripleN_ret; auto|]. apply IH; lia.
Qed.

Lemma triple_uvmalloc pt o nw : triple h (uvmalloc pt o nw) (fun r => r = 0 \/ r = o \/ r = nw) (fun _ => h).
Proof.
  intros n Hn. unfold uvmalloc. tstep; [apply tripleN_ret; auto|].
  eapply tripleN_weaken; [apply tripleN_uvmalloc_loop; [done|apply PGROUNDUP_nonneg|]|naive_solver].
  generalize (PGROUNDUP o). intros b. rewrite Nat2Z.inj_succ. destruct (decide (0 <= (nw - b) / PGSIZE)).
  - rewrite Z2Nat.id by done. Z.div_mod_to_equations. lia.
  - Z.div_mod_to_equations. lia.
Qed.

Lemma triple_freewalk_levels l pt : keeps_locks (freewalk_levels l pt).
Proof.
  revert pt. induction l as [|l IH]; intros pt n Hn; cbn [freewalk_levels]; [by apply tripleN_ub|].
  eapply tripleN_bind; [done|apply triple_for_each|cbv beta; intros; tgo].
  intros i _ n2 Hn2. unfold freewalk_entry. tgo.
Qed.

Lemma triple_uvmfree pt sz : keeps_locks (uvmfree pt sz).
Proof.
  intros n Hn. unfold uvmfree, freewalk. pose proof triple_freewalk_levels.
  assert (0 <= PGROUNDUP sz / PGSIZE) by (apply Z.div_pos; [apply PGROUNDUP_nonneg|lia]). tgo.
Qed.

Lemma tripleN_uvmcopy_loop k n old new i sz :
  (n <= fuel)%nat -> 0 <= i -> sz <= i + PGSIZE * Z.of_nat k ->
  tripleN n h (uvmcopy_loop k old new i sz) (fun _ => True) (fun _ => h).
Proof.
  revert n i. induction k as [|k IH]; intros n i Hn H0 Ha; cbn [uvmcopy_loop]; tstep; try (by apply tripleN_ret); [lia|].
  assert (0 <= i / PGSIZE) by (apply Z.div_pos; lia).
  tstep. tstep; [|tgo]. tstep. tstep; [tgo|]. tstep. tstep; [tgo|]. tstep. tstep. tstep; [tgo|]. apply IH; lia.
Qed.

Lemma triple_uvmcopy old new sz : keeps_locks (uvmcopy old new sz).
Proof.
  intros n Hn. unfold uvmcopy. apply tripleN_uvmcopy_loop; [done|lia|]. rewrite Nat2Z.inj_succ.
  destruct (decide (0 <= sz / PGSIZE)); Z.div_mod_to_equations; lia.
Qed.

Lemma triple_uvmclear pt va : keeps_locks (uvmclear pt va).
Proof. intros n Hn. unfold uvmclear. tgo. Qed.

Lemma page_rest va len : 0 < len -> 1 <= Z.min (PGSIZE - (va - PGROUNDDOWN va)) len <= len.
Proof. intros. rewrite PGROUNDDOWN_spec. Z.div_mod_to_equations. lia. Qed.

Lemma tripleN_copyout_loop k n pt va src :
  (n <= fuel)%nat -> (length src <= k)%nat ->
  tripleN n h (copyout_loop k pt va src) (fun _ => True) (fun _ => h).
Proof.
  revert n va src. induction k as [|k IH]; intros n va src Hn Hl; destruct src as [|b src]; cbn [length] in Hl;
    cbn [copyout_loop]; try (by apply tripleN_ret); [lia|].
  tstep. tstep; [tgo|]. pose proof (page_rest va (Z.of_nat (length (b :: src)))) as Hr. cbn [length] in Hr.
  tstep. apply IH; [lia|]. rewrite length_drop. cbn [length]. lia.
Qed.

Lemma triple_copyout pt va src : keeps_locks (copyout pt va src).
Proof. intros n Hn. by apply tripleN_copyout_loop. Qed.

(** [copyin] stores at most the bytes it is asked for, and all of them on success. *)
Lemma tripleN_copyin_loop k n pt va len :
  (n <= fuel)%nat -> len <= Z.of_nat k ->
  tripleN n h (copyin_loop k pt va len)
    (fun x => Z.of_nat (length x.2) <= Z.max 0 len /\ (x.1 = 0 -> Z.of_nat (length x.2) = Z.max 0 len)) (fun _ => h).
Proof.
  revert n va len. induction k as [|k IH]; intros n va len Hn Hl; cbn [copyin_loop];
    destruct (Z.ltb_spec 0 len); try (apply tripleN_ret; [cbn; lia|done]); [lia|].
  tstep. tstep; [apply tripleN_ret; [cbn; lia|done]|]. pose proof (page_rest va len) as Hr.
  eapply tripleN_bind with (F := fun _ => h) (φ := fun bs => length bs = Z.to_nat (Z.min (PGSIZE - (va - PGROUNDDOWN va)) len));
    [lia|apply triple_gets; intros; by rewrite length_ldl|]. cbv beta. intros bs n3 Hn3 Hbs.
  eapply tripleN_bind; [lia|intros n4 Hn4; apply IH; lia|]. cbv beta. intros [r rest] n5 Hn5 [H1 H2].
  apply tripleN_ret; [|done]. cbn in *. rewrite length_app. lia.
Qed.

Lemma triple_copyin pt va len :
  triple h (copyin pt va len)
    (fun x => Z.of_nat (length x.2) <= Z.max 0 len /\ (x.1 = 0 -> Z.of_nat (length x.2) = Z.max 0 len)) (fun _ => h).
Proof. intros n Hn. apply tripleN_copyin_loop; lia. Qed.

Lemma copyinstr_bytes_null m k a : (copyinstr_bytes m k a).2 = true -> 0 ∈ (copyinstr_bytes m k a).1.
Proof.
  revert a. induction k as [|k IH]; intros a; cbn [copyinstr_bytes]; [done|]. case_match; [set_solver|].
  specialize (IH (a + 1)). destruct (copyinstr_bytes m k (a + 1)). cbn in *. intros ->. right. auto.
Qed.

(** A string that [copyinstr] accepts has its terminator. *)
Lemma tripleN_copyinstr_loop k n pt va mx :
  (n <= fuel)%nat -> mx <= Z.of_nat k ->
  tripleN n h (copyinstr_loop k pt va mx) (fun x => x.1 = 0 /\ 0 ∈ x.2 \/ x.1 = -1) (fun _ => h).
Proof.
  revert n va mx. induction k as [|k IH]; intros n va mx Hn Hl; cbn [copyinstr_loop];
    destruct (Z.ltb_spec 0 mx); try (apply tripleN_ret; [by right|done]); [lia|].
  tstep. tstep; [apply tripleN_ret; [by right|done]|]. pose proof (page_rest va mx) as Hr.
  eapply tripleN_bind with (F := fun _ => h) (φ := fun x => x.2 = true -> 0 ∈ x.1);
    [lia|apply triple_gets; intros; by apply copyinstr_bytes_null|]. cbv beta. intros [l got] n3 Hn3 Hbs. cbn in Hbs.
  destruct got; [apply tripleN_ret; [left; auto|done]|].
  eapply tripleN_bind; [lia|intros n4 Hn4; apply IH; lia|]. cbv beta. intros [r rest] n5 Hn5 Hx. cbn in Hx.
  apply tripleN_ret; [|done]. cbn. set_solver.
Qed.

Lemma triple_copyinstr pt va mx :
  triple h (copyinstr pt va mx) (fun x => x.1 = 0 /\ 0 ∈ x.2 \/ x.1 = -1) (fun _ => h).
Proof. intros n Hn. apply tripleN_copyinstr_loop; lia. Qed.
End TypedVm.

#[export] Hint Resolve triple_kalloc triple_kfree triple_walkaddr triple_mappages triple_uvmunmap triple_uvmcreate
  triple_uvmdealloc triple_uvmalloc triple_uvmfree triple_uvmcopy triple_uvmclear triple_copyout triple_copyin
  triple_copyinstr u64_nonneg : typed.
