(* ===== verification/TypedLog.v ===== *)
(** * Triples for the buffer cache and the log *)

From stdpp Require Import gmap strings list.
From S2P Require Import Prelude Layout State Sched Kalloc Vm Block Bio Log Typed TypedCore.

(** What the file system relies on: a request to the disk driver is well typed. *)
Class DiskTyped {bld : Build} {dsk : Disk} : Prop :=
  disk_typed : forall sb0 p cw i w, (i < 30)%nat ->
    triple sb0 p cw [] (virtio_disk_rw i w) (fun _ => True) (fun _ => []).

#[export] Hint Resolve disk_typed : typed.

(** An update of a buffer that keeps it well typed and linked. *)
Definition keeps_buf (f : buf -> buf) : Prop :=
  forall b, (buf_ok b -> buf_ok (f b)) /\ b_next (f b) = b_next b /\ b_prev (f b) = b_prev b.

Definition keeps_log (f : klog -> klog) : Prop := forall lg, log_ok lg -> log_ok (f lg).

#[export] Hint Extern 1 (keeps_buf _) => solve [intros ?; split; [intros ?; assumption|done]] : typed.
#[export] Hint Extern 1 (keeps_log _) => solve [intros ? ?; assumption] : typed.

Section TypedLog.
Context {bld : Build} {dsk : Disk} {dty : DiskTyped} (sb0 : superblock) (p : nat) (cw : bool).
Abbreviation triple := (triple sb0 p cw).
Abbreviation tripleN := (tripleN sb0 p cw).
Abbreviation at_ := (at_ sb0 p cw).
Abbreviation keeps_locks h m := (triple h%list m (fun _ => True) (fun _ => h%list)).

(** ** Buffers *)

Lemma at_buf h s i : at_ h s -> (i < 31)%nat -> exists b, bcache s !! i = Some b /\ buf_ok b.
Proof.
  intros Hs Hi. destruct (wf_bcache _ _ (at_wf _ _ _ _ _ Hs)) as (Hl & Hf & _).
  destruct (lookup_lt_is_Some_2 (bcache s) i) as [b Hb]; [lia|]. exists b.
  split; [done|]. exact (Forall_lookup_1 _ _ _ _ Hf Hb).
Qed.

Lemma triple_buf_at h i : (i < 31)%nat -> triple h (buf_at i) buf_ok (fun _ => h).
Proof. intros Hi n _ s Hs. destruct (at_buf h s i Hs Hi) as (b & Hb & Hok). by rewrite (buf_at_ok _ _ _ Hb). Qed.

Lemma at_set_bcache h bs s : at_ h s -> bcache_ok bs -> at_ h (set_bcache bs s).
Proof. intros [Hw Hp Hc Hh Hd] Hb. constructor; try done. destruct Hw. by constructor. Qed.

Lemma triple_bupd h i f : (i < 31)%nat -> keeps_buf f -> keeps_locks h (bupd i f).
Proof.
  intros Hi Hf n _ s Hs. pose proof (wf_bcache _ _ (at_wf _ _ _ _ _ Hs)) as Hb.
  rewrite bupd_ok by (destruct Hb as [-> _]; done). split; [done|]. apply at_set_bcache; [done|].
  apply bcache_ok_alter; [apply Hf|apply Hf|done].
Qed.
#[local] Hint Resolve triple_buf_at triple_bupd : typed.

(** The loops of [bget] stay in the list. *)
Lemma bget_cached_path dev bno s l x k :
  Bio.path (next_of (bcache s)) x l HEAD -> (length l <= k)%nat ->
  exists o, bget_cached k dev bno (first l HEAD) s = Ok o s /\ forall i, o = Some i -> i ∈ l.
Proof.
  revert x k. induction l as [|y l IH]; intros x k Hp Hk; cbn [first].
  - exists None. split; [|done]. destruct k; cbn; by rewrite bool_decide_true.
  - destruct k as [|k]; cbn in Hk; [lia|]. destruct Hp as [_ Hp]. cbn [bget_cached].
    case_bool_decide as Hy; [exists None; by split|].
    destruct (next_read _ _ _ (path_first _ _ _ _ Hp)) as (b & Hb & Hnx).
    mstep (buf_at_ok y b s Hb). case_match.
    + exists (Some y). split; [done|]. intros i [= <-]. set_solver.
    + rewrite Hnx. destruct (IH y k Hp ltac:(lia)) as (o & Ho & Hin). exists o. split; [done|]. set_solver.
Qed.

Lemma bget_unused_path s l x k :
  Bio.path (prev_of (bcache s)) x l HEAD -> (length l <= k)%nat ->
  exists o, bget_unused k (first l HEAD) s = Ok o s /\ forall i, o = Some i -> i ∈ l.
Proof.
  revert x k. induction l as [|y l IH]; intros x k Hp Hk; cbn [first].
  - exists None. split; [|done]. destruct k; cbn; by rewrite bool_decide_true.
  - destruct k as [|k]; cbn in Hk; [lia|]. destruct Hp as [_ Hp]. cbn [bget_unused].
    case_bool_decide as Hy; [exists None; by split|].
    destruct (prev_read _ _ _ (path_first _ _ _ _ Hp)) as (b & Hb & Hnx).
    mstep (buf_at_ok y b s Hb). case_match.
    + exists (Some y). split; [done|]. intros i [= <-]. set_solver.
    + rewrite Hnx. destruct (IH y k Hp ltac:(lia)) as (o & Ho & Hin). exists o. split; [done|]. set_solver.
Qed.

(** A routine that runs through on this state, and then another. *)
Lemma post_step {A B} n (m : K A) (k : A -> K B) φ F a s s' :
  m s = Ok a s' -> post sb0 p cw n φ F (k a s') -> post sb0 p cw n φ F (bind m k s).
Proof. unfold bind. by intros ->. Qed.

Lemma triple_bget dev bno : triple [] (bget dev bno) (fun i => (i < 30)%nat) (fun _ => []).
Proof.
  intros n Hn. unfold bget. tstep. intros s Hs.
  destruct (wf_bcache _ _ (at_wf _ _ _ _ _ Hs)) as (Hl & _ & l & Hp & [Hnx Hpv]).
  assert (length l = 30%nat) as Hlen by (by rewrite Hp). assert (forall i, i ∈ l -> (i < 30)%nat) as Hin.
  { intros i. rewrite Hp, elem_of_seq. lia. }
  destruct (links_read _ _ _ _ (path_first _ _ _ _ Hnx) (path_first _ _ _ _ Hpv)) as (b & Hb & En & Ep).
  eapply post_step; [exact (buf_at_ok _ _ _ Hb)|]. rewrite En, Ep.
  destruct (bget_cached_path dev bno s l HEAD 30 Hnx) as (o & Ho & Hi); [lia|]. eapply post_step; [exact Ho|].
  destruct o as [i|].
  - specialize (Hin i (Hi i eq_refl)). revert s Hs Hl Hp Hnx Hpv Hb Ho.
    assert (tripleN n' [LkBcache] (bupd i (fun b => set_b_refcnt (u32 (b_refcnt b + 1)) b) ;;
      release LkBcache ;; acquiresleep (SlBuf i) ;; ret i) (fun i => (i < 30)%nat) (fun _ => [])) as Ht by tgo.
    intros s Hs _ _ _ _ _ _. by apply Ht.
  - destruct (bget_unused_path s (reverse l) HEAD 30 Hpv) as (o2 & Ho2 & Hi2); [rewrite length_reverse; lia|].
    eapply post_step; [exact Ho2|]. destruct o2 as [i|]; [|reflexivity].
    specialize (Hi2 i eq_refl). rewrite elem_of_reverse in Hi2. specialize (Hin i Hi2).
    assert (tripleN n' [LkBcache] (bupd i (recycle dev bno) ;;
      release LkBcache ;; acquiresleep (SlBuf i) ;; ret i) (fun i => (i < 30)%nat) (fun _ => [])) as Ht by tgo.
    by apply Ht.
Qed.
#[local] Hint Resolve triple_bget : typed.

Lemma triple_bread dev bno : triple [] (bread dev bno) (fun i => (i < 30)%nat) (fun _ => []).
Proof. intros n Hn. unfold bread. tgo. Qed.

Lemma triple_bwrite i : (i < 30)%nat -> keeps_locks [] (bwrite i).
Proof. intros Hi n Hn. unfold bwrite. tgo. Qed.

Lemma buf_ok_links bs bs' :
  no_links <$> bs' = no_links <$> bs -> Forall buf_ok bs -> Forall buf_ok bs'.
Proof.
  intros He Hf. apply Forall_lookup. intros i b Hb.
  assert ((no_links <$> bs') !! i = Some (no_links b)) as H1 by (by rewrite list_lookup_fmap, Hb).
  rewrite He, list_lookup_fmap in H1. destruct (bs !! i) as [b0|] eqn:Hb0; [|done]. cbn in H1.
  pose proof (Forall_lookup_1 _ _ _ _ Hf Hb0) as Hok. injection H1 as H1. unfold buf_ok in *. congruence.
Qed.

Lemma triple_move_to_front h i : (i < 30)%nat -> keeps_locks h (move_to_front i).
Proof.
  intros Hi n _ s Hs. destruct (wf_bcache _ _ (at_wf _ _ _ _ _ Hs)) as (Hl & Hf & l & Hp & Hll).
  assert (i ∈ l) as (l1 & l2 & ->)%list_elem_of_split by (rewrite Hp, elem_of_seq; lia).
  destruct (move_to_front_ok s l1 i l2 Hl Hp Hll) as (bs' & -> & Hll' & Hnl). split; [done|].
  apply at_set_bcache; [done|]. split.
  - apply (f_equal length) in Hnl. by rewrite !length_fmap in Hnl; rewrite Hnl.
  - split; [by eapply buf_ok_links|]. exists (i :: l1 ++ l2). split; [|done]. by rewrite <- Hp, Permutation_middle.
Qed.
#[local] Hint Resolve triple_move_to_front triple_bread triple_bwrite : typed.

Lemma triple_brelse i : (i < 30)%nat -> keeps_locks [] (brelse i).
Proof. intros Hi n Hn. unfold brelse. tgo. Qed.

Lemma triple_bpin h i : (i < 30)%nat -> LkBcache ∉ h -> keeps_locks h (bpin i).
Proof. intros Hi Hh n Hn. unfold bpin. tgo. Qed.

Lemma triple_bunpin h i : (i < 30)%nat -> LkBcache ∉ h -> keeps_locks h (bunpin i).
Proof. intros Hi Hh n Hn. unfold bunpin. tgo. Qed.
#[local] Hint Resolve triple_brelse triple_bpin triple_bunpin : typed.

(** ** The log *)

Lemma triple_lupd h f : keeps_log f -> keeps_locks h (lupd f).
Proof.
  intros Hf. apply triple_modify. intros s [Hw Hp Hc Hh Hd]. constructor; try done.
  destruct Hw. constructor; try done. cbn. auto.
Qed.

Lemma triple_lh_at h i : (i < 30)%nat -> keeps_locks h (lh_at i).
Proof.
  intros Hi n _ s Hs. destruct (wf_log _ _ (at_wf _ _ _ _ _ Hs)) as [Hl _]. unfold lh_at.
  by destruct (lookup_lt_is_Some_2 (lh_block (klogst s)) i) as [x ->]; [lia|].
Qed.
#[local] Hint Resolve triple_lupd triple_lh_at : typed.

Lemma in_log_range lg tail : log_ok lg -> tail ∈ seq 0 (Z.to_nat (lh_n lg)) -> (tail < 30)%nat.
Proof. intros [_ H] Ht%elem_of_seq. lia. Qed.

Lemma keeps_buf_data (f : list Z -> list Z) :
  (forall l, length l = 1024%nat -> length (f l) = 1024%nat) -> keeps_buf (fun b => set_b_data (f (b_data b)) b).
Proof. intros Hf b. split; [|done]. unfold buf_ok. cbn. apply Hf. Qed.

Lemma triple_install_trans r : keeps_locks [] (install_trans r).
Proof.
  intros n Hn. unfold install_trans. tstep.
  match goal with |- tripleN ?n _ (for_each ?l ?f) _ _ => apply (triple_for_each sb0 p cw f l []); [|lia] end.
  intros tail Ht n2 Hn2. apply (in_log_range _ _ H0) in Ht. tstep. tstep. tstep. tstep.
  assert (keeps_buf (fun b => set_b_data (b_data a3) b)) by (apply (keeps_buf_data (fun _ => b_data a3)); auto).
  tgo.
Qed.

Lemma triple_write_log : keeps_locks [] write_log.
Proof.
  intros n Hn. unfold write_log. tstep.
  match goal with |- tripleN ?n _ (for_each ?l ?f) _ _ => apply (triple_for_each sb0 p cw f l []); [|lia] end.
  intros tail Ht n2 Hn2. apply (in_log_range _ _ H0) in Ht. tstep. tstep. tstep. tstep.
  assert (keeps_buf (fun b => set_b_data (b_data a3) b)) by (apply (keeps_buf_data (fun _ => b_data a3)); auto).
  tgo.
Qed.

Lemma triple_write_head : keeps_locks [] write_head.
Proof.
  intros n Hn. unfold write_head. tstep. destruct H0 as [Hl H0]. tstep.
  destruct (Z.ltb_spec (Z.of_nat (length (lh_block a))) (lh_n a)); [lia|].
  assert (keeps_buf (fun b => set_b_data
    (put_blocks 0 (take (Z.to_nat (lh_n a)) (lh_block a)) (put32 0 (lh_n a) (b_data b))) b)).
  { apply (keeps_buf_data (fun l => put_blocks 0 (take (Z.to_nat (lh_n a)) (lh_block a)) (put32 0 (lh_n a) l))).
    intros l Hlen. rewrite length_put_blocks; rewrite length_put32, ?length_take; lia. }
  tgo.
Qed.
#[local] Hint Resolve triple_install_trans triple_write_log triple_write_head : typed.
#[local] Hint Extern 1 (keeps_log (set_lh_n 0)) => (intros ? [? ?]; split; [assumption|cbn; lia]) : typed.

Lemma triple_commit : keeps_locks [] commit.
Proof. intros n Hn. unfold commit. tgo. Qed.
#[local] Hint Resolve triple_commit : typed.

Lemma tripleN_begin_wait k n :
  (n <= fuel)%nat -> (n <= k)%nat -> tripleN n [LkLog] (begin_wait k) (fun _ => True) (fun _ => []).
Proof.
  revert n. induction k as [|k IH]; intros n Hf Hk; cbn [begin_wait].
  - intros s Hs. cbn. lia.
  - tstep. tstep; [|tstep; [|tgo]].
    all: apply tripleN_sleep_bind; [lia|done|set_solver|set_solver|]; intros n2 Hn2; apply IH; lia.
Qed.

Lemma triple_begin_op : keeps_locks [] begin_op.
Proof. intros n Hn. unfold begin_op. tstep. apply tripleN_begin_wait; lia. Qed.

Lemma triple_end_op : keeps_locks [] end_op.
Proof. intros n Hn. unfold end_op. tgo. Qed.

Lemma find_logged_range k i bno s :
  (i + k <= length (lh_block (klogst s)))%nat ->
  exists j, find_logged i k bno s = Ok j s /\ (i <= j <= i + k)%nat.
Proof.
  revert i. induction k as [|k IH]; intros i Hk; cbn [find_logged]; [exists i; split; [done|lia]|].
  destruct (lookup_lt_is_Some_2 (lh_block (klogst s)) i) as [x Hx]; [lia|].
  eassert (lh_at i s = Ok x s) as E by (unfold lh_at; by rewrite Hx). mstep E. clear E.
  case_match; [exists i; split; [done|lia]|]. destruct (IH (S i)) as (j & Hj & Hr); [lia|].
  exists j. split; [done|lia].
Qed.

Lemma at_set_klogst h lg s : at_ h s -> log_ok lg -> at_ h (set_klogst lg s).
Proof. intros [Hw Hp Hc Hh Hd] Hb. constructor; try done. destruct Hw. by constructor. Qed.

Lemma triple_log_write i : (i < 30)%nat -> keeps_locks [] (log_write i).
Proof.
  intros Hi n Hn. unfold log_write. tstep. intros s Hs.
  pose proof (wf_log _ _ (at_wf _ _ _ _ _ Hs)) as [Hl Hr]. eapply post_step; [reflexivity|].
  destruct (Z.leb_spec LOGSIZE (lh_n (klogst s))); cbn [orb]; [reflexivity|].
  case_match; [reflexivity|]. case_match; [reflexivity|].
  destruct (at_buf _ s i Hs) as (b & Hb & _); [lia|]. eapply post_step; [exact (buf_at_ok _ _ _ Hb)|].
  destruct (find_logged_range (Z.to_nat (lh_n (klogst s))) 0 (b_blockno b) s) as (j & Hj & Hjr); [lia|].
  eapply post_step; [exact Hj|]. destruct (lookup_lt_is_Some_2 (lh_block (klogst s)) j) as [x Hx]; [lia|].
  set (lg := set_lh_block (<[j := s32 (b_blockno b)]> (lh_block (klogst s))) (klogst s)).
  assert (lh_set j (s32 (b_blockno b)) s = Ok tt (set_klogst lg s)) as E by (unfold lh_set; by rewrite Hx).
  eapply post_step; [exact E|]. clear E.
  assert (log_ok lg) as Hlg by (split; cbn; [by rewrite length_insert|lia]).
  pose proof (at_set_klogst _ lg s Hs Hlg) as Hs1.
  eapply (post_obind sb0 p cw _ _ n' (fun _ => True) (fun _ => [LkLog])); [|intros; tgo].
  unfold when. case_match; [|by split].
  assert (bpin i (set_klogst lg s) = Ok tt
    (set_bcache (alter (fun b => set_b_refcnt (u32 (b_refcnt b + 1)) b) i (bcache s)) (set_klogst lg s))) as E.
  { unfold bpin. mstep (acquire_ok LkBcache (set_klogst lg s) ltac:(cbn; rewrite (at_held _ _ _ _ _ Hs); set_solver)).
    mstep (bupd_ok i (fun b => set_b_refcnt (u32 (b_refcnt b + 1)) b) (set_held (LkBcache :: held (set_klogst lg s)) (set_klogst lg s))
      ltac:(cbn; by eapply lookup_lt_Some)).
    rewrite (release_ok _ _ (held s)); [by destruct s|done|]. rewrite (at_held _ _ _ _ _ Hs). set_solver. }
  eapply post_step; [exact E|]. split; [done|].
  apply at_set_klogst; [|split; [by apply Hlg|cbn; lia]]. apply at_set_bcache; [done|].
  apply bcache_ok_alter; [done|done|]. apply (wf_bcache _ _ (at_wf _ _ _ _ _ Hs)).
Qed.
End TypedLog.

#[export] Hint Resolve triple_buf_at triple_bupd triple_bread triple_bwrite triple_brelse triple_begin_op
  triple_end_op triple_log_write : typed.
