(* ===== verification/TypedFs.v ===== *)
(** * Triples for the file system *)

From stdpp Require Import gmap strings list.
From S2P Require Import Prelude Layout State Sched Cstring Kalloc Vm Block Bio Log Fs Dinode Typed TypedCore TypedVm TypedLog.

Definition keeps_inode (f : inode -> inode) : Prop := forall i, inode_ok i -> inode_ok (f i).
#[export] Hint Extern 1 (keeps_inode _) => solve [intros ? ?; assumption] : typed.

(** A change of a block's bytes that keeps their number. *)
Definition same_size (f : list Z -> list Z) : Prop := forall l, length l = 1024%nat -> length (f l) = 1024%nat.
#[export] Hint Extern 1 (same_size _) =>
  solve [intros ? ?; first [reflexivity|by rewrite length_insert|assumption]] : typed.

(** A name buffer, or a string literal. *)
Definition name_ok (l : list Z) : Prop := (14 <= length l)%nat \/ 0 ∈ l.

Lemma strncmp_total n : forall p q,
  (n <= length p)%nat \/ 0 ∈ p -> (n <= length q)%nat \/ 0 ∈ q -> is_Some (strncmp p q n).
Proof.
  induction n as [|n IH]; intros p q Hp Hq; cbn [strncmp]; [eauto|].
  destruct p as [|a p]; [cbn in Hp; destruct Hp as [|[]%not_elem_of_nil]; lia|].
  destruct q as [|b q]; [cbn in Hq; destruct Hq as [|[]%not_elem_of_nil]; lia|].
  destruct (Z.eqb_spec a 0) as [->|Ha]; cbn [negb andb]; [eauto|].
  destruct (Z.eqb_spec a b) as [<-|Hb]; [|eauto]. cbn [length] in *. rewrite elem_of_cons in Hp, Hq.
  apply IH; [destruct Hp as [?|[?|?]]|destruct Hq as [?|[?|?]]]; (left; lia) || (by right) || congruence.
Qed.

Lemma zero_fill_total n : forall s, (n <= length s)%nat -> exists r, zero_fill s n = Some r /\ length r = length s.
Proof.
  induction n as [|n IH]; intros s Hs; cbn [zero_fill]; [eauto|]. destruct s as [|c s]; cbn in Hs; [lia|].
  destruct (IH s) as (r & -> & Hr); [lia|]. cbn. exists (0 :: r). cbn. auto.
Qed.

Lemma strncpy_total n : forall s t,
  (n <= length s)%nat -> (n <= length t)%nat \/ 0 ∈ t -> exists r, strncpy s t n = Some r /\ length r = length s.
Proof.
  induction n as [|n IH]; intros s t Hs Ht; cbn [strncpy]; [eauto|].
  destruct s as [|b s]; cbn in Hs; [lia|].
  destruct t as [|a t]; [cbn in Ht; destruct Ht as [|[]%not_elem_of_nil]; lia|].
  destruct (Z.eqb_spec a 0) as [->|Ha].
  - destruct (zero_fill_total n s) as (r & -> & Hr); [lia|]. cbn. exists (0 :: r). cbn. auto.
  - destruct (IH s t) as (r & -> & Hr); [lia| |].
    + cbn in Ht. rewrite elem_of_cons in Ht. destruct Ht as [?|[?|?]]; (left; lia) || (by right) || congruence.
    + cbn. exists (a :: r). cbn. auto.
Qed.

Section TypedFs.
Context {bld : Build} {dsk : Disk} {dty : DiskTyped} (sb0 : superblock) (p : nat) (cw : bool).
Abbreviation triple := (triple sb0 p cw).
Abbreviation tripleN := (tripleN sb0 p cw).
Abbreviation at_ := (at_ sb0 p cw).
Abbreviation keeps_locks h m := (triple h%list m (fun _ => True) (fun _ => h%list)).

(** ** Moving data *)

Lemma triple_either_copyout h d src : LkKmem ∉ h -> keeps_locks h (either_copyout d src).
Proof. intros Hh n Hn. unfold either_copyout. tgo. Qed.

Lemma triple_either_copyin h s len :
  LkKmem ∉ h -> 0 <= len ->
  triple h (either_copyin s len) (fun x => Z.of_nat (length x.2) <= len) (fun _ => h).
Proof.
  intros Hh Hlen n Hn. unfold either_copyin. destruct s as [va|bytes].
  - tstep. tstep. eapply tripleN_weaken; [apply triple_copyin; [done|lia]|]. cbn. intros x [Hx _]. split; [lia|done].
  - apply tripleN_ret; [|done]. cbn. rewrite length_take. lia.
Qed.

(** ** Blocks *)

Lemma triple_bdata h i f :
  (i < 30)%nat -> same_size f -> keeps_locks h (bdata i f).
Proof. intros Hi Hf. apply triple_bupd; [lia|]. by apply keeps_buf_data. Qed.
#[local] Hint Resolve triple_either_copyout triple_either_copyin triple_bdata : typed.
Lemma triple_bzero dev bno : keeps_locks [] (bzero dev bno).
Proof. intros n Hn. unfold bzero. tgo. Qed.

Lemma same_size_set_bit bi : same_size (set_bit bi).
Proof. intros l Hl. unfold set_bit. by rewrite length_insert. Qed.
Lemma same_size_clear_bit bi : same_size (clear_bit bi).
Proof. intros l Hl. unfold clear_bit. by rewrite length_insert. Qed.
#[local] Hint Resolve triple_bzero same_size_set_bit same_size_clear_bit : typed.

Lemma tripleN_balloc_loop k n dev b :
  (n <= fuel)%nat -> sb_size sb0 <= b + BPB * Z.of_nat k ->
  tripleN n [] (balloc_loop k dev b) (fun _ => True) (fun _ => []).
Proof.
  revert n b. induction k as [|k IH]; intros n b Hn Hk; cbn [balloc_loop]; tstep; tstep; try tgo; [lia|].
  apply IH; lia.
Qed.

Lemma triple_balloc dev : keeps_locks [] (balloc dev).
Proof.
  intros n Hn. unfold balloc. tstep. apply tripleN_balloc_loop; [lia|].
  destruct (decide (0 <= sb_size sb0 / BPB)); [rewrite Z2Nat.id by lia|]; Z.div_mod_to_equations; lia.
Qed.

Lemma triple_bfree dev b : keeps_locks [] (bfree dev b).
Proof. intros n Hn. unfold bfree. tgo. Qed.
#[local] Hint Resolve triple_balloc triple_bfree : typed.

(** ** Inodes *)

Lemma at_inode h s i : at_ h s -> (i < 50)%nat -> exists ip, itable s !! i = Some ip /\ inode_ok ip.
Proof.
  intros Hs Hi. destruct (wf_itable _ _ (at_wf _ _ _ _ _ Hs)) as [Hl Hf].
  destruct (lookup_lt_is_Some_2 (itable s) i) as [ip Hip]; [lia|]. exists ip.
  split; [done|]. exact (Forall_lookup_1 _ _ _ _ Hf Hip).
Qed.

Lemma triple_inode_at h i : (i < 50)%nat -> triple h (inode_at i) inode_ok (fun _ => h).
Proof.
  intros Hi n _ s Hs. destruct (at_inode h s i Hs Hi) as (ip & Hip & Hok). unfold inode_at. by rewrite Hip.
Qed.

Lemma triple_iupd h i f : (i < 50)%nat -> keeps_inode f -> keeps_locks h (iupd i f).
Proof.
  intros Hi Hf n _ s Hs. destruct (at_inode h s i Hs Hi) as (ip & Hip & Hok). unfold iupd. rewrite Hip.
  split; [done|]. destruct Hs as [Hw Hp Hc Hh Hd]. constructor; try done. destruct Hw as [? ? ? ? ? [Hl Hall] ? ? ? ? ? ?].
  constructor; try done. cbn. split; [by rewrite length_alter|]. apply Forall_alter; auto.
Qed.
#[local] Hint Resolve triple_inode_at triple_iupd : typed.

Lemma same_size_put_dinode inum ip : inode_ok ip -> same_size (put_dinode (dinode_off inum) ip).
Proof.
  intros Hok l Hl. pose proof (dinode_off_range inum). unfold inode_ok in Hok. unfold put_dinode.
  rewrite length_put_addrs; rewrite length_put32; rewrite ?length_put16; rewrite ?length_put16;
    rewrite ?length_put16; rewrite ?length_put16; lia.
Qed.

Lemma same_size_init_dinode inum type : same_size (init_dinode (dinode_off inum) type).
Proof.
  intros l Hl. pose proof (dinode_off_range inum). unfold init_dinode.
  rewrite length_put16; rewrite length_splice; rewrite ?length_replicate; lia.
Qed.

Lemma keeps_load_dinode o l : keeps_inode (load_dinode o l).
Proof. intros i _. unfold inode_ok, load_dinode. cbn [i_addrs set_i_addrs]. unfold di_addrs. by rewrite length_fmap, length_seq. Qed.
#[local] Hint Resolve same_size_put_dinode same_size_init_dinode keeps_load_dinode : typed.

Lemma triple_iget_loop h l dev inum e :
  Forall (fun i => (i < 50)%nat) l -> opt_lt 50 e ->
  triple h (iget_loop l dev inum e)
    (fun r => match r with inl i => (i < 50)%nat | inr e => opt_lt 50 e end) (fun _ => h).
Proof.
  intros Hl. revert e. induction Hl as [|i l Hi _ IH]; intros e He n Hn; cbn [iget_loop].
  - by apply tripleN_ret.
  - tstep. tstep; [by apply tripleN_ret|]. apply IH; [|lia]. by case_match.
Qed.

Lemma all_inodes_lt : Forall (fun i => (i < 50)%nat) all_inodes.
Proof. apply Forall_forall. intros i. unfold all_inodes. rewrite elem_of_seq. lia. Qed.

Lemma triple_iget h dev inum : LkItable ∉ h -> triple h (iget dev inum) (fun i => (i < 50)%nat) (fun _ => h).
Proof.
  intros Hh n Hn. unfold iget. pose proof (triple_iget_loop (LkItable :: h) all_inodes dev inum None all_inodes_lt I) as Hloop.
  tstep. tstep. destruct a0 as [i|[i|]]; cbn [opt_lt] in *; clear Hloop; tgo.
Qed.
#[local] Hint Resolve triple_iget : typed.

Lemma triple_ialloc dev type : triple [] (ialloc dev type) (fun i => (i < 50)%nat) (fun _ => []).
Proof.
  intros n Hn. unfold ialloc. tstep. generalize (Z.to_nat (sb_ninodes sb0 - 1)). intros k.
  assert (forall n inum, (n <= fuel)%nat ->
    tripleN n [] (ialloc_loop k dev type inum) (fun i => (i < 50)%nat) (fun _ => [])) as Hl; [|apply Hl; lia].
  clear Hn. induction k as [|k IH]; intros n1 inum Hn; cbn [ialloc_loop]; [tgo|].
  do 4 tstep; [tgo|]. tstep. apply IH; lia.
Qed.

Lemma triple_iupdate i : (i < 50)%nat -> keeps_locks [] (iupdate i).
Proof. intros Hi n Hn. unfold iupdate. tgo. Qed.

Lemma triple_idup h i : (i < 50)%nat -> LkItable ∉ h -> triple h (idup i) (fun j => j = i) (fun _ => h).
Proof. intros Hi Hh n Hn. unfold idup. tgo. Qed.

Lemma triple_ilock o : opt_lt 50 o -> triple [] (ilock o) (fun _ => is_Some o) (fun _ => []).
Proof. intros Ho n Hn. destruct o as [i|]; cbn [ilock opt_lt] in *; [|tgo]. tgo. Qed.

Lemma triple_iunlock o : opt_lt 50 o -> keeps_locks [] (iunlock o).
Proof. intros Ho n Hn. destruct o as [i|]; cbn [iunlock opt_lt] in *; [|tgo]. tgo. Qed.
#[local] Hint Resolve triple_ialloc triple_iupdate triple_idup triple_ilock triple_iunlock : typed.

Lemma triple_free_blocks dev l : keeps_locks [] (free_blocks dev l).
Proof. induction l as [|a l IH]; intros n Hn; cbn [free_blocks]; tgo. Qed.

Lemma keeps_set_addr k a : keeps_inode (fun ip => set_i_addrs (<[k := a]> (i_addrs ip)) ip).
Proof. intros i Hi. unfold inode_ok in *. cbn. by rewrite length_insert. Qed.
#[local] Hint Resolve triple_free_blocks keeps_set_addr : typed.

Lemma triple_addr h k ip :
  inode_ok ip -> (k < 13)%nat -> keeps_locks h (deref "ip->addrs" (i_addrs ip !! k)).
Proof.
  intros Hok Hk. apply triple_deref. destruct (lookup_lt_is_Some_2 (i_addrs ip) k) as [a ->]; [|done].
  unfold inode_ok in Hok. lia.
Qed.
#[local] Hint Resolve triple_addr : typed.

Lemma triple_trunc_direct i l :
  (i < 50)%nat -> Forall (fun k => (k < 13)%nat) l -> keeps_locks [] (trunc_direct i l).
Proof. intros Hi Hl. induction Hl as [|k l Hk _ IH]; intros n Hn; cbn [trunc_direct]; tgo. Qed.

Lemma triple_itrunc i : (i < 50)%nat -> keeps_locks [] (itrunc i).
Proof.
  intros Hi n Hn. unfold itrunc. assert (Forall (fun k => (k < 13)%nat) (seq 0 12)) as H12.
  { apply Forall_forall. intros k. rewrite elem_of_seq. lia. }
  pose proof (triple_trunc_direct i _ Hi H12). tgo.
Qed.
#[local] Hint Resolve triple_itrunc : typed.

Lemma triple_iput i : (i < 50)%nat -> keeps_locks [] (iput i).
Proof. intros Hi n Hn. unfold iput. tgo. Qed.
#[local] Hint Resolve triple_iput : typed.

Lemma triple_iunlockput i : (i < 50)%nat -> keeps_locks [] (iunlockput i).
Proof. intros Hi n Hn. unfold iunlockput. tgo. Qed.
#[local] Hint Resolve triple_iunlockput : typed.

(** ** Contents *)

Lemma same_size_put32 k v : (k < 256)%nat -> same_size (put32 (4 * k) v).
Proof. intros Hk l Hl. rewrite length_put32; lia. Qed.

(** [bmap] panics on blocks that no file has. *)
Lemma triple_bmap i bn :
  (i < 50)%nat -> triple [] (bmap i bn) (fun _ => 0 <= bn < 2 ^ 32 -> bn < MAXFILE) (fun _ => []).
Proof.
  intros Hi n Hn. unfold bmap. tstep. destruct (Z.ltb_spec bn NDIRECT).
  - tgo; lia.
  - destruct (Z.ltb_spec (u32 (bn - NDIRECT)) NINDIRECT) as [Hb|]; [|tgo].
    assert (0 <= bn < 2 ^ 32 -> bn < MAXFILE) as Hbn.
    { intros. rewrite u32_small in Hb by lia. lia. }
    assert (Z.to_nat (u32 (bn - NDIRECT)) < 256)%nat as Hk by lia.
    pose proof (fun v => same_size_put32 _ v Hk). tgo.
Qed.
#[local] Hint Resolve triple_bmap : typed.

Lemma triple_stati h i : (i < 50)%nat -> keeps_locks h (stati i).
Proof. intros Hi n Hn. unfold stati. tgo. Qed.

(** [k] turns are enough for the bytes left. *)
Definition turns (k : nat) (off n tot : Z) : Prop := tot < n -> n - tot <= BSIZE * Z.of_nat k - off mod BSIZE.

Lemma turns_start off n : turns (Z.to_nat (n / BSIZE + 2)) off n 0.
Proof.
  intros H. pose proof (Z.mod_pos_bound off BSIZE). rewrite Z2Nat.id by (Z.div_mod_to_equations; lia).
  Z.div_mod_to_equations. lia.
Qed.

Lemma turns_step k off n tot :
  turns (S k) off n tot -> tot < n ->
  let m := Z.min (n - tot) (BSIZE - off mod BSIZE) in 0 < m /\ turns k (off + m) n (tot + m).
Proof.
  intros Ht Hn m. pose proof (Z.mod_pos_bound off BSIZE). specialize (Ht Hn). split; [lia|].
  intros Hn'. assert (m = BSIZE - off mod BSIZE) as Hm by lia.
  assert ((off + m) mod BSIZE = 0) as ->; [|lia].
  rewrite Hm. replace (off + (BSIZE - off mod BSIZE)) with ((off / BSIZE + 1) * BSIZE) by (Z.div_mod_to_equations; lia).
  by apply Z.mod_mul.
Qed.

(** What [readi] returns: an error, or the number of bytes, which lie in the file. *)
Definition read_ok (off n tot : Z) (x : Z * list Z) : Prop :=
  (x.1 = -1 \/ tot <= x.1 /\ Z.of_nat (length x.2) = x.1 - tot) /\
  (tot < x.1 -> 0 <= off < 2 ^ 32 -> off < MAXFILE * BSIZE).

Lemma tripleN_readi_loop k n i dst off cnt tot :
  (n <= fuel)%nat -> (i < 50)%nat -> 0 <= tot -> turns k off cnt tot ->
  tripleN n [] (readi_loop k i dst off cnt tot) (read_ok off cnt tot) (fun _ => []).
Proof.
  revert n dst off tot. induction k as [|k IH]; intros n dst off tot Hn Hi H0 Ht; cbn [readi_loop];
    (destruct (Z.ltb_spec tot cnt); [|apply tripleN_ret; [split; [right; cbn; lia|cbn; lia]|done]]).
  { specialize (Ht ltac:(lia)). pose proof (Z.mod_pos_bound off BSIZE). lia. }
  destruct (turns_step _ _ _ _ Ht) as [Hm Hnext]; [done|]. cbv zeta in *. pose proof (Z.mod_pos_bound off BSIZE).
  set (m := Z.min (cnt - tot) (BSIZE - off mod BSIZE)) in *. do 5 tstep.
  match goal with H : 0 <= off / BSIZE < 2 ^ 32 -> _ |- _ => rename H into Hb end.
  match goal with H : buf_ok ?b |- _ => rename H into Hok, b into bf end.
  assert (0 <= off < 2 ^ 32 -> off < MAXFILE * BSIZE) as Hoff by (intros; Z.div_mod_to_equations; lia).
  tstep; [tstep; apply tripleN_ret; [split; [by left|cbn; lia]|done]|].
  tstep. eapply tripleN_bind; [lia|intros n4 Hn4; apply IH; [done|done|lia|done]|].
  cbv beta. intros [t l] n5 Hn5 [Ht1 _]. apply tripleN_ret; [|done]. split; [|by intros _]. cbn in *.
  destruct Ht1 as [->|[Ht1 Ht2]]; [by left|right]. split; [lia|]. unfold buf_ok in Hok.
  rewrite length_app, length_bytes_at by lia. lia.
Qed.

Lemma triple_readi i dst off cnt :
  (i < 50)%nat -> triple [] (readi i dst off cnt) (read_ok off cnt 0) (fun _ => []).
Proof.
  intros Hi n Hn. unfold readi. tstep. tstep; [apply tripleN_ret; [split; cbn; lia|done]|].
  eapply tripleN_weaken; [apply tripleN_readi_loop; [lia|done|lia|apply turns_start]|]. done.
Qed.

Lemma tripleN_writei_loop k n i src off cnt tot :
  (n <= fuel)%nat -> (i < 50)%nat -> turns k off cnt tot ->
  tripleN n [] (writei_loop k i src off cnt tot) (fun _ => True) (fun _ => []).
Proof.
  revert n src off tot. induction k as [|k IH]; intros n src off tot Hn Hi Ht; cbn [writei_loop];
    (destruct (Z.ltb_spec tot cnt); [|by apply tripleN_ret]).
  { specialize (Ht ltac:(lia)). pose proof (Z.mod_pos_bound off BSIZE). lia. }
  destruct (turns_step _ _ _ _ Ht) as [Hm Hnext]; [done|]. cbv zeta in *. pose proof (Z.mod_pos_bound off BSIZE).
  set (m := Z.min (cnt - tot) (BSIZE - off mod BSIZE)) in *. assert (0 <= m) by lia. do 3 tstep.
  eapply tripleN_bind; [lia|apply triple_either_copyin; [set_solver|done]|]. cbv beta. intros [r bytes] n4 Hn4 Hl.
  cbn in Hl. assert (same_size (splice (Z.to_nat (off mod BSIZE)) bytes)).
  { intros l Hlen. rewrite length_splice; lia. }
  tstep. tstep; [tgo|]. tstep. tstep. apply IH; (done || lia).
Qed.

Lemma triple_writei i src off cnt : (i < 50)%nat -> keeps_locks [] (writei i src off cnt).
Proof.
  intros Hi n Hn. unfold writei. pose proof (fun n' Hn' => tripleN_writei_loop _ n' i src off cnt 0 Hn' Hi (turns_start off cnt)).
  tgo.
Qed.
#[local] Hint Resolve triple_stati triple_readi triple_writei : typed.

(** ** Directories *)

Lemma triple_namecmp h s t : name_ok s -> name_ok t -> keeps_locks h (namecmp s t).
Proof.
  intros Hs Ht. apply triple_deref. destruct (strncmp_total 14 s t) as [c ->]; [done|done|done].
Qed.

Lemma de_name_ok de : length de = 16%nat -> name_ok (de_name de).
Proof. intros H. left. unfold de_name. rewrite length_drop. lia. Qed.
#[local] Hint Resolve triple_namecmp de_name_ok : typed.

Lemma read_entry off r de : read_ok off 16 0 (r, de) -> r = 16 -> length de = 16%nat /\ (0 <= off < 2 ^ 32 -> off < MAXFILE * BSIZE).
Proof. intros [H1 H2] ->. cbn in *. destruct H1 as [|[_ H1]]; [lia|]. split; [lia|]. intros. apply H2; lia. Qed.

(** The loops over directory entries stop before the end of the largest file. *)
Definition dir_at (k : nat) (off : Z) : Prop :=
  0 <= off <= MAXFILE * BSIZE /\ off mod 16 = 0 /\ MAXFILE * BSIZE < off + 16 * Z.of_nat k.

Lemma dir_at_start off : off = 0 \/ off = 32 -> dir_at dir_turns off.
Proof.
  unfold dir_at, dir_turns. change (MAXFILE * BSIZE / 16 + 1) with 17153. rewrite Z2Nat.id by lia.
  intros [->| ->]; (split; [lia|]; split; [done|lia]).
Qed.

Lemma dir_at_step k off : dir_at (S k) off -> (0 <= off < 2 ^ 32 -> off < MAXFILE * BSIZE) -> dir_at k (off + 16).
Proof. unfold dir_at. intros (H1 & H2 & H3) H. Z.div_mod_to_equations. lia. Qed.

Lemma tripleN_dirlookup_loop k n dp name off :
  (n <= fuel)%nat -> (dp < 50)%nat -> name_ok name -> dir_at k off ->
  tripleN n [] (dirlookup_loop k dp name off) (fun o => match o with Some x => (x.1 < 50)%nat | None => True end) (fun _ => []).
Proof.
  revert n off. induction k as [|k IH]; intros n off Hn Hdp Hname Hk; cbn [dirlookup_loop]; (tstep; tstep; [|tgo]).
  - unfold dir_at in Hk. lia.
  - tstep. tstep. destruct (Z.eqb_spec z 16) as [Hz|]; cbn [negb]; [|tgo].
    destruct (read_entry _ _ _ H2 Hz) as [Hlen Hoff]. pose proof (dir_at_step _ _ Hk Hoff) as Hk'.
    tstep; [apply IH; (done || lia)|]. tstep. tstep; [tgo|]. apply IH; (done || lia).
Qed.

Lemma triple_dirlookup dp name :
  (dp < 50)%nat -> name_ok name ->
  triple [] (dirlookup dp name) (fun o => match o with Some x => (x.1 < 50)%nat | None => True end) (fun _ => []).
Proof.
  intros Hdp Hname n Hn. unfold dirlookup. tstep. tstep; [tgo|].
  apply tripleN_dirlookup_loop; [lia|done|done|]. apply dir_at_start. by left.
Qed.

Lemma tripleN_dirlink_loop k n dp de off :
  (n <= fuel)%nat -> (dp < 50)%nat -> length de = 16%nat -> dir_at k off ->
  tripleN n [] (dirlink_loop k dp de off) (fun x => length x.2 = 16%nat) (fun _ => []).
Proof.
  revert n de off. induction k as [|k IH]; intros n de off Hn Hdp Hde Hk; cbn [dirlink_loop]; (tstep; tstep; [|tgo]).
  - unfold dir_at in Hk. lia.
  - tstep. tstep. destruct (Z.eqb_spec z 16) as [Hz|]; cbn [negb]; [|tgo].
    destruct (read_entry _ _ _ H2 Hz) as [Hlen Hoff]. pose proof (dir_at_step _ _ Hk Hoff) as Hk'.
    tstep; [by apply tripleN_ret|]. apply IH; (done || lia).
Qed.
#[local] Hint Resolve triple_dirlookup : typed.

Lemma triple_dirlink dp name inum :
  (dp < 50)%nat -> name_ok name -> keeps_locks [] (dirlink dp name inum).
Proof.
  intros Hdp Hname n Hn. unfold dirlink. tstep. destruct a as [[ip off]|]; cbn [fst] in *; [tgo|].
  eapply tripleN_bind; [lia|intros n2 Hn2; apply tripleN_dirlink_loop;
    [lia|done|by rewrite length_replicate|apply dir_at_start; by left]|].
  cbv beta. intros [off de] n3 Hn3 Hde. cbn in Hde. apply de_name_ok in Hde as Hdn.
  eapply tripleN_bind with (φ := fun _ => True) (F := fun _ => []); [lia| |intros; tgo].
  apply triple_deref. destruct (strncpy_total 14 (de_name de) name) as (r & -> & _); [|done|done].
  unfold de_name. rewrite length_drop. lia.
Qed.
#[local] Hint Resolve triple_dirlink : typed.

(** ** Paths *)

Lemma skip_slashes_length path : (length (skip_slashes path) <= length path)%nat.
Proof. induction path as [|c path IH]; cbn; [done|]. case_match; cbn; lia. Qed.

Lemma take_elem_length path : (length (take_elem path).2 <= length path)%nat.
Proof. induction path as [|c path IH]; cbn; [done|]. case_match; cbn; [done|]. destruct (take_elem path). cbn in *. lia. Qed.

(** An element removed makes the path shorter, and the name keeps its size. *)
Lemma skipelem_shorter path name name' path' :
  skipelem path name = Some (name', path') -> length name = 14%nat ->
  (length path' < length path)%nat /\ length name' = 14%nat.
Proof.
  unfold skipelem. pose proof (skip_slashes_length path). intros Hs Hn.
  destruct (skip_slashes path) as [|c rest] eqn:Hp; [done|]. rewrite bool_decide_false in Hs by done.
  assert (c <> chr_slash) as Hc.
  { intros ->. clear -Hp. induction path as [|d path IH]; cbn in Hp; [done|]. case_match; [auto|]; by simplify_eq. }
  cbn [take_elem] in Hs. destruct (Z.eqb_spec c chr_slash); [done|].
  pose proof (take_elem_length rest). destruct (take_elem rest) as [e r] eqn:He. cbn in *.
  pose proof (skip_slashes_length r). simplify_eq. split; [lia|].
  destruct (Z.leb_spec DIRSIZ (Z.of_nat (S (length e)))); rewrite length_splice; cbn [length];
    rewrite ?length_take, ?length_app; cbn [length]; lia.
Qed.

Lemma tripleN_namex_loop k n np ip path name :
  (n <= fuel)%nat -> (ip < 50)%nat -> (length path <= k)%nat -> length name = 14%nat ->
  tripleN n [] (namex_loop k np ip path name) (fun x => opt_lt 50 x.1 /\ length x.2 = 14%nat) (fun _ => []).
Proof.
  revert n ip path name. induction k as [|k IH]; intros n ip path name Hn Hip Hk Hname; cbn [namex_loop].
  all: destruct (skipelem path name) as [[name' path']|] eqn:Hs;
    [destruct (skipelem_shorter _ _ _ _ Hs Hname) as [Hl Hname']|tgo].
  - lia.
  - assert (name_ok name') by (left; lia). tstep. tstep. tstep; [tgo|]. tstep; [tgo|]. tstep.
    destruct a1 as [[next off]|]; cbn [fst] in *; [|tgo]. tstep. apply IH; (done || lia).
Qed.

Lemma triple_namex path np name :
  cw = true -> length name = 14%nat ->
  triple [] (namex path np name) (fun x => opt_lt 50 x.1 /\ length x.2 = 14%nat) (fun _ => []).
Proof.
  intros Hcw Hname n Hn. unfold namex.
  eapply tripleN_bind with (φ := fun i => (i < 50)%nat) (F := fun _ => []); [lia| |].
  - intros n2 Hn2. tstep; [tgo|]. tstep. tstep.
    match goal with H : proc_ok _, Hc : _ -> _ -> is_Some _ |- _ => pose proof (po_cwd _ H) as Hok; destruct Hc as [cwd Hcwd]; [done..|] end.
    rewrite Hcwd in *. cbn [opt_lt] in Hok.
    cbn [deref]. tstep. eapply tripleN_weaken; [apply triple_idup; [done|set_solver|lia]|]. cbn. intros ? ->. done.
  - cbv beta. intros ip n2 Hn2 Hip. apply tripleN_namex_loop; (done || lia).
Qed.

Lemma triple_namei path : cw = true -> triple [] (namei path) (opt_lt 50) (fun _ => []).
Proof.
  intros Hcw n Hn. unfold namei. eapply tripleN_bind; [done|apply triple_namex; [done|by rewrite length_replicate]|].
  cbv beta. intros [o l] n2 Hn2 [Ho _]. by apply tripleN_ret.
Qed.

Lemma triple_nameiparent path name :
  cw = true -> length name = 14%nat ->
  triple [] (nameiparent path name) (fun x => opt_lt 50 x.1 /\ length x.2 = 14%nat) (fun _ => []).
Proof. apply triple_namex. Qed.
End TypedFs.

#[export] Hint Resolve triple_either_copyout triple_either_copyin triple_inode_at triple_iupd triple_iget triple_ialloc
  triple_iupdate triple_idup triple_ilock triple_iunlock triple_itrunc triple_iput triple_iunlockput triple_stati
  triple_readi triple_writei triple_namecmp triple_dirlookup triple_dirlink triple_namei triple_nameiparent : typed.
