(* ===== verification/TypedDev.v ===== *)
(** * Triples for the console, the UART and pipes *)

From stdpp Require Import gmap strings list.
From S2P Require Import Prelude Layout State Sched Cstring Kalloc Vm Pipe Block Bio Log Fs Uart Printf Console Typed TypedCore TypedVm TypedLog TypedFs.

Definition keeps_uart (f : uart -> uart) : Prop := forall u, uart_ok u -> uart_ok (f u).
Definition keeps_cons (f : console -> console) : Prop := forall c, cons_ok c -> cons_ok (f c).
#[export] Hint Extern 1 (keeps_uart _) => solve [intros ? ?; assumption] : typed.

Section TypedDev.
Context {bld : Build} (sb0 : superblock) (p : nat) (cw : bool).
Abbreviation triple := (triple sb0 p cw).
Abbreviation tripleN := (tripleN sb0 p cw).
Abbreviation at_ := (at_ sb0 p cw).
Abbreviation keeps_locks h m := (triple h%list m (fun _ => True) (fun _ => h%list)).

Lemma at_set_uart h u s : at_ h s -> uart_ok u -> at_ h (set_uartst u s).
Proof. intros [Hw Hp Hc Hh Hd] Hb. constructor; try done. destruct Hw. by constructor. Qed.

Lemma triple_uupd h f : keeps_uart f -> keeps_locks h (uupd f).
Proof. intros Hf. apply triple_modify. intros s Hs. apply at_set_uart; [done|]. apply Hf, Hs. Qed.

Lemma lsr_step h s : at_ h s -> exists b l, lsr_tx_idle s = Ok b (set_uartst (set_uart_lsr l (uartst s)) s) /\
  at_ h (set_uartst (set_uart_lsr l (uartst s)) s).
Proof.
  intros Hs. unfold lsr_tx_idle. destruct (uart_lsr (uartst s)) as [|b l] eqn:E.
  - exists true, []. split; [|apply at_set_uart; [done|apply Hs]]. f_equal. rewrite <- E. by destruct s as [? ? ? ? ? ? ? ? ? ? ? ? ? ? ? ? ? ? [] ? ?].
  - exists b, l. split; [done|]. apply at_set_uart; [done|apply Hs].
Qed.

Lemma triple_lsr_tx_idle h : keeps_locks h lsr_tx_idle.
Proof. intros n _ s Hs. destruct (lsr_step h s Hs) as (b & l & -> & Hs'). done. Qed.

Lemma triple_write_thr h c : keeps_locks h (write_thr c).
Proof. apply triple_uupd. by intros u Hu. Qed.
#[local] Hint Resolve triple_uupd triple_lsr_tx_idle triple_write_thr : typed.

Lemma triple_uartputc_sync h c : keeps_locks h (uartputc_sync c).
Proof.
  intros n Hn. unfold uartputc_sync. intros s Hs. eapply post_step; [reflexivity|].
  assert (forall k s, at_ h s -> (length (uart_lsr (uartst s)) < k)%nat ->
    post sb0 p cw n (fun _ => True) (fun _ => h) (wait_tx_idle k s)) as Hwait.
  { clear s Hs. induction k as [|k IH]; intros s Hs Hk; [lia|]. cbn [wait_tx_idle].
    destruct (uart_lsr (uartst s)) as [|b l] eqn:E.
    - eapply post_step; [unfold lsr_tx_idle; rewrite E; reflexivity|]. by split.
    - eapply post_step; [unfold lsr_tx_idle; rewrite E; reflexivity|].
      assert (at_ h (set_uartst (set_uart_lsr l (uartst s)) s)) as Hs' by (apply at_set_uart; [done|apply Hs]).
      destruct b; [by split|]. apply IH; [done|]. cbn in *. lia. }
  eapply post_obind; [apply Hwait; [done|lia]|]. intros; tgo.
Qed.

(** A turn of [uartstart] takes a byte out of the ring. *)
Lemma uart_ring_pop u :
  uart_ok u -> uart_tx_w u <> uart_tx_r u ->
  uart_ok (set_uart_tx_r (u64 (uart_tx_r u + 1)) u) /\
  u64 (uart_tx_w u - u64 (uart_tx_r u + 1)) = u64 (uart_tx_w u - uart_tx_r u) - 1.
Proof.
  intros (Hl & Hd & Hw & Hr) Hne.
  assert (u64 (uart_tx_w u - u64 (uart_tx_r u + 1)) = u64 (uart_tx_w u - uart_tx_r u) - 1) as E.
  { unfold u64 in *. rewrite Zminus_mod_idemp_r.
    destruct (decide (uart_tx_r u < uart_tx_w u)).
    - rewrite (Z.mod_small (_ - uart_tx_r u)) by lia. rewrite Z.mod_small; lia.
    - rewrite <- (Z.mod_unique (uart_tx_w u - uart_tx_r u) (2 ^ 64) (-1) (uart_tx_w u - uart_tx_r u + 2 ^ 64)) by lia.
      rewrite <- (Z.mod_unique _ (2 ^ 64) (-1) (uart_tx_w u - uart_tx_r u - 1 + 2 ^ 64)) by lia. lia. }
  split; [|done]. split; [done|]. cbn. rewrite E. split; [lia|]. split; [done|].
  unfold u64. apply Z.mod_pos_bound. lia.
Qed.

Lemma post_uartstart_loop h k n s :
  no_proc h -> (n <= fuel)%nat -> at_ h s -> u64 (uart_tx_w (uartst s) - uart_tx_r (uartst s)) <= Z.of_nat k ->
  post sb0 p cw n (fun _ => True) (fun _ => h) (uartstart_loop k s).
Proof.
  intros Hh Hn. revert s. induction k as [|k IH]; intros s Hs Hk; cbn [uartstart_loop];
    pose proof (wf_uart _ _ (at_wf _ _ _ _ _ Hs)) as Hu; (eapply post_step; [reflexivity|]);
    (destruct (Z.eqb_spec (uart_tx_w (uartst s)) (uart_tx_r (uartst s))) as [|Hne]; [by split|]).
  - exfalso. destruct Hu as (_ & _ & Hw & Hr). apply Hne. unfold u64 in Hk.
    pose proof (Z.mod_pos_bound (uart_tx_w (uartst s) - uart_tx_r (uartst s)) (2 ^ 64)).
    assert ((uart_tx_w (uartst s) - uart_tx_r (uartst s)) mod 2 ^ 64 = 0) as E by lia.
    apply Z.mod_divide in E as [q E]; [|lia]. nia.
  - destruct (lsr_step h s Hs) as (b & l & Hb & Hs1). eapply post_step; [exact Hb|].
    set (s1 := set_uartst _ s) in *. destruct b; cbn [negb]; [|by split].
    destruct (lookup_lt_is_Some_2 (uart_tx_buf (uartst s)) (Z.to_nat (uart_tx_r (uartst s) mod UART_TX_BUF_SIZE))) as [c Hc].
    { destruct Hu as [-> _]. pose proof (Z.mod_pos_bound (uart_tx_r (uartst s)) 32). lia. }
    rewrite Hc. eapply post_step; [reflexivity|].
    destruct (uart_ring_pop (uartst s1)) as [Hok Hdist]; [apply Hs1|exact Hne|].
    eapply post_step; [reflexivity|]. set (s2 := set_uartst _ s1).
    assert (at_ h s2) as Hs2 by (by apply at_set_uart).
    assert (only_mine s2) as Hm.
    { intros i Hi. exfalso. apply (Hh i). by rewrite <- (at_held _ _ _ _ _ Hs2). }
    pose proof (triple_wakeup sb0 p cw h ChUartR Hh n Hn s2 Hs2) as Hwk.
    rewrite (wakeup_ok _ _ Hm (proj1 (wf_procs _ _ (at_wf _ _ _ _ _ Hs2)))) in Hwk. destruct Hwk as [_ Hs3].
    eapply post_step; [exact (wakeup_ok _ _ Hm (proj1 (wf_procs _ _ (at_wf _ _ _ _ _ Hs2))))|].
    eapply post_step; [reflexivity|]. apply IH; [apply at_set_uart; [exact Hs3|apply Hs3]|].
    cbn. cbn in Hdist. rewrite Hdist. cbn. lia.
Qed.

Lemma triple_uartstart h : no_proc h -> keeps_locks h uartstart.
Proof.
  intros Hh n Hn s Hs. apply post_uartstart_loop; [done..|]. destruct (wf_uart _ _ (at_wf _ _ _ _ _ Hs)) as (_ & H & _).
  exact H.
Qed.
#[local] Hint Resolve triple_uartputc_sync triple_uartstart : typed.

Lemma uart_ring_push u c :
  uart_ok u -> uart_tx_w u <> u64 (uart_tx_r u + UART_TX_BUF_SIZE) ->
  uart_ok (set_uart_tx_w (u64 (uart_tx_w u + 1))
    (set_uart_tx_buf (<[Z.to_nat (uart_tx_w u mod UART_TX_BUF_SIZE) := u8 c]> (uart_tx_buf u)) u)).
Proof.
  intros (Hl & Hd & Hw & Hr) Hne. split; [cbn; by rewrite length_insert|]. cbn.
  split; [|split; [apply Z.mod_pos_bound; lia|done]].
  assert (u64 (uart_tx_w u - uart_tx_r u) <> 32) as Hd32.
  { intros E. apply Hne. unfold u64 in *. rewrite <- E, Zplus_mod_idemp_r.
    replace (uart_tx_r u + (uart_tx_w u - uart_tx_r u)) with (uart_tx_w u) by lia. by rewrite Z.mod_small. }
  unfold u64 in *. rewrite Zminus_mod_idemp_l.
  replace (uart_tx_w u + 1 - uart_tx_r u) with (uart_tx_w u - uart_tx_r u + 1) by lia.
  rewrite <- Zplus_mod_idemp_l. rewrite Z.mod_small; [lia|].
  pose proof (Z.mod_pos_bound (uart_tx_w u - uart_tx_r u) (2 ^ 64)). lia.
Qed.

Lemma tripleN_uartputc_loop k n c :
  (n <= fuel)%nat -> (n <= k)%nat -> tripleN n [LkUart] (uartputc_loop k c) (fun _ => True) (fun _ => []).
Proof.
  revert n. induction k as [|k IH]; intros n Hf Hk; cbn [uartputc_loop].
  - intros s Hs. cbn. lia.
  - intros s Hs. eapply post_step; [reflexivity|].
    destruct (Z.eqb_spec (uart_tx_w (uartst s)) (u64 (uart_tx_r (uartst s) + UART_TX_BUF_SIZE))).
    + revert s Hs e. intros s Hs _. revert s Hs.
      apply tripleN_sleep_bind; [lia|done|set_solver|set_solver|]. intros n2 Hn2. apply IH; lia.
    + eapply post_step; [reflexivity|].
      assert (tripleN n [LkUart] (uartstart ;; release LkUart) (fun _ => True) (fun _ => [])) as Ht by tgo.
      apply Ht, at_set_uart; [done|]. apply uart_ring_push; [apply Hs|done].
Qed.

Lemma triple_uartputc c : keeps_locks [] (uartputc c).
Proof. intros n Hn. unfold uartputc. tstep. apply tripleN_uartputc_loop; lia. Qed.
#[local] Hint Resolve triple_uartputc : typed.

(** ** Printing *)

Lemma triple_consputc h c : keeps_locks h (consputc c).
Proof. intros n Hn. unfold consputc. tgo. Qed.
#[local] Hint Resolve triple_consputc : typed.

Lemma triple_printf h fmt args :
  LkPr ∉ h -> is_Some (format (lit fmt) args) -> keeps_locks h (printf fmt args).
Proof.
  intros Hh [l Hl] n Hn. unfold printf. tstep. rewrite Hl. cbn [deref]. tstep.
  assert (keeps_locks (LkPr :: h) (put_all l)) by (apply triple_for_each; eauto with typed). tgo.
Qed.

(** ** The console *)

Lemma triple_consolewrite src n : keeps_locks [] (consolewrite src n).
Proof.
  intros n0 Hn0. unfold consolewrite. assert (forall k n0 i, (n0 <= fuel)%nat ->
    tripleN n0 [] (consolewrite_loop k src i) (fun _ => True) (fun _ => [])) as Hl; [|by apply Hl].
  intros k. induction k as [|k IH]; intros n1 i Hn1; cbn [consolewrite_loop]; [tgo|].
  do 3 tstep; [tgo|]. tstep. apply IH. lia.
Qed.

Lemma triple_cupd h f : keeps_cons f -> keeps_locks h (cupd f).
Proof.
  intros Hf. apply triple_modify. intros s [Hw Hp Hc Hh Hd]. constructor; try done.
  destruct Hw. constructor; try done. cbn. auto.
Qed.

Lemma keeps_cons_r f : keeps_cons (fun cs => set_cons_r (u32 (f cs)) cs).
Proof. intros c (H1 & H2 & H3 & H4). split; [done|]. split; [apply Z.mod_pos_bound; lia|done]. Qed.
#[local] Hint Resolve triple_cupd : typed.

Lemma tripleN_cons_wait k n :
  (p < 64)%nat -> (n <= fuel)%nat -> (n <= k)%nat ->
  tripleN n [LkCons] (cons_wait k p) (fun _ => True) (fun _ => [LkCons]).
Proof.
  intros Hp. revert n. induction k as [|k IH]; intros n Hf Hk; cbn [cons_wait].
  - intros s Hs. cbn. lia.
  - tstep. tstep; [|tgo]. tstep. tstep; [tgo|].
    apply tripleN_sleep_bind; [lia|done|set_solver|set_solver|]. intros n2 Hn2. apply IH; lia.
Qed.

Lemma triple_cons_wait : (p < 64)%nat -> triple [LkCons] (cons_wait (S fuel) p) (fun _ => True) (fun _ => [LkCons]).
Proof. intros Hp n Hn. apply tripleN_cons_wait; (done || lia). Qed.
#[local] Hint Resolve triple_cons_wait : typed.

Lemma triple_consoleread_loop k target dst :
  (p < 64)%nat -> triple [LkCons] (consoleread_loop k p target dst) (fun _ => True) (fun _ => [LkCons]).
Proof.
  intros Hp. revert dst. induction k as [|k IH]; intros dst n Hn; cbn [consoleread_loop]; [tgo|].
  pose proof (keeps_cons_r (fun cs => cons_r cs + 1)). pose proof (keeps_cons_r (fun cs => cons_r cs - 1)). tgo.
Qed.
#[local] Hint Resolve triple_consoleread_loop : typed.

Lemma triple_consoleread dst n : keeps_locks [] (consoleread dst n).
Proof. intros n0 Hn0. unfold consoleread. tgo. Qed.

(** ** Pipes *)

Lemma triple_ldw h a : keeps_locks h (ldw a).
Proof. intros n Hn. unfold ldw. tgo. Qed.
Lemma triple_stw h a v : keeps_locks h (stw a v).
Proof. intros n Hn. unfold stw. tgo. Qed.
Lemma triple_ldbyte h a : keeps_locks h (ldbyte a).
Proof. intros n Hn. unfold ldbyte. tgo. Qed.
Lemma triple_stbyte h a v : keeps_locks h (stbyte a v).
Proof. intros n Hn. unfold stbyte. tgo. Qed.
#[local] Hint Resolve triple_ldw triple_stw triple_ldbyte triple_stbyte : typed.

Lemma triple_pipeclose pi w : keeps_locks [] (pipeclose pi w).
Proof. intros n Hn. unfold pipeclose. tgo. Qed.

Lemma triple_pipewrite_end pi i : triple [LkPipe pi] (pipewrite_end pi i) (fun _ => True) (fun _ => []).
Proof. intros n Hn. unfold pipewrite_end. tgo. Qed.
#[local] Hint Resolve triple_pipewrite_end : typed.

(** A turn of [pipewrite] writes a byte or sleeps. *)
Lemma tripleN_pipewrite_loop k n pi addr cnt i :
  (p < 64)%nat -> (n <= fuel)%nat -> n = 0%nat \/ cnt - i + Z.of_nat n <= Z.of_nat k ->
  tripleN n [LkPipe pi] (pipewrite_loop k p pi addr cnt i) (fun _ => True) (fun _ => []).
Proof.
  intros Hp. revert n i. induction k as [|k IH]; intros n i Hf Hk; cbn [pipewrite_loop];
    (destruct (Z.ltb_spec i cnt); [|tgo]).
  - intros s Hs. cbn. lia.
  - tstep. tstep. tstep; [tgo|]. tstep. tstep. tstep.
    + tstep. apply tripleN_sleep_bind; [lia|done|set_solver|set_solver|]. intros n2 Hn2. apply IH; lia.
    + tstep. tstep. tstep; [tgo|]. tstep. tstep. apply IH; lia.
Qed.

Lemma triple_pipewrite pi addr cnt : keeps_locks [] (pipewrite pi addr cnt).
Proof. intros n Hn. unfold pipewrite. tstep. tstep. apply tripleN_pipewrite_loop; [done|lia|right; lia]. Qed.

Lemma tripleN_piperead_wait k n pi :
  (p < 64)%nat -> (n <= fuel)%nat -> (n <= k)%nat ->
  tripleN n [LkPipe pi] (piperead_wait k p pi) (fun _ => True) (fun _ => [LkPipe pi]).
Proof.
  intros Hp. revert n. induction k as [|k IH]; intros n Hf Hk; cbn [piperead_wait].
  - intros s Hs. cbn. lia.
  - tstep. tstep. tstep. tstep; [|tgo]. tstep. tstep; [tgo|].
    apply tripleN_sleep_bind; [lia|done|set_solver|set_solver|]. intros n2 Hn2. apply IH; lia.
Qed.

Lemma triple_piperead_loop k pi addr i :
  (p < 64)%nat -> keeps_locks [LkPipe pi] (piperead_loop k p pi addr i).
Proof. intros Hp. revert i. induction k as [|k IH]; intros i n Hn; cbn [piperead_loop]; tgo. Qed.
#[local] Hint Resolve triple_piperead_loop : typed.

Lemma triple_piperead pi addr cnt : keeps_locks [] (piperead pi addr cnt).
Proof.
  intros n Hn. unfold piperead, piperead_locked. tstep. tstep.
  assert (triple [LkPipe pi] (piperead_wait (S fuel) p pi) (fun _ => True) (fun _ => [LkPipe pi])).
  { intros n2 Hn2. apply tripleN_piperead_wait; (done || lia). }
  tgo.
Qed.
End TypedDev.

#[export] Hint Resolve triple_printf triple_consolewrite triple_consoleread triple_pipeclose triple_pipewrite
  triple_piperead triple_stw : typed.
