(* ===== verification/TypedProc.v ===== *)
(** * Triples for open files and processes *)

From stdpp Require Import gmap strings list.
From S2P Require Import Prelude Layout State Mlfq Sched Cstring Kalloc Vm Pipe Block Bio Log Fs Printf Console File Proc Typed TypedCore TypedVm TypedLog TypedFs TypedDev.

Definition keeps_file (g : file -> file) : Prop := forall f, file_ok f -> file_ok (g f).
#[export] Hint Extern 1 (keeps_file _) =>
  solve [let f := fresh in let Ho := fresh in let Ht := fresh in
         intros f [Ho Ht]; split; [exact Ho|first [exact Ht|intros [?|?]; discriminate]]] : typed.

Lemma file_ok_ip f : file_ok f -> opt_lt 50 (f_ip f).
Proof. by intros [? _]. Qed.
#[export] Hint Resolve file_ok_ip : typed.

Section TypedFile.
Context {bld : Build} {dsk : Disk} {dty : DiskTyped} (sb0 : superblock) (p : nat) (cw : bool).
Abbreviation triple := (triple sb0 p cw).
Abbreviation tripleN := (tripleN sb0 p cw).
Abbreviation at_ := (at_ sb0 p cw).
Abbreviation keeps_locks h m := (triple h%list m (fun _ => True) (fun _ => h%list)).

Lemma at_file h s i : at_ h s -> (i < 100)%nat -> exists f, ftable s !! i = Some f /\ file_ok f.
Proof.
  intros Hs Hi. destruct (wf_ftable _ _ (at_wf _ _ _ _ _ Hs)) as [Hl Hf].
  destruct (lookup_lt_is_Some_2 (ftable s) i) as [f Hfi]; [lia|]. exists f.
  split; [done|]. exact (Forall_lookup_1 _ _ _ _ Hf Hfi).
Qed.

Lemma triple_file_at h i : (i < 100)%nat -> triple h (file_at i) file_ok (fun _ => h).
Proof. intros Hi n _ s Hs. destruct (at_file h s i Hs Hi) as (f & Hf & Hok). unfold file_at. by rewrite Hf. Qed.

Lemma triple_fupdate h i g : (i < 100)%nat -> keeps_file g -> keeps_locks h (fupdate i g).
Proof.
  intros Hi Hg n _ s Hs. destruct (at_file h s i Hs Hi) as (f & Hf & Hok). unfold fupdate. rewrite Hf.
  split; [done|]. destruct Hs as [Hw Hp Hc Hh Hd]. constructor; try done. destruct Hw as [? ? ? ? [Hl Hall] ? ? ? ? ? ? ?].
  constructor; try done. cbn. split; [by rewrite length_alter|]. apply Forall_alter; auto.
Qed.
#[local] Hint Resolve triple_file_at triple_fupdate : typed.

Lemma triple_filealloc : triple [] filealloc (opt_lt 100) (fun _ => []).
Proof.
  assert (Forall (fun i => (i < 100)%nat) all_files) as Hall.
  { apply Forall_forall. intros i. unfold all_files. rewrite elem_of_seq. lia. }
  assert (triple [LkFtable] (filealloc_loop all_files) (opt_lt 100) (fun _ => [])) as Hl.
  { induction Hall as [|i l Hi _ IH]; intros n Hn; cbn [filealloc_loop]; tgo. }
  intros n Hn. unfold filealloc. tgo.
Qed.

Lemma triple_filedup h i : (i < 100)%nat -> LkFtable ∉ h -> triple h (filedup i) (fun j => j = i) (fun _ => h).
Proof. intros Hi Hh n Hn. unfold filedup. tgo. Qed.

Lemma triple_fileclose i : (i < 100)%nat -> keeps_locks [] (fileclose i).
Proof.
  intros Hi n Hn. unfold fileclose. do 5 tstep; [tgo|]. tstep. destruct H4 as [Ho Ht]. tstep. tstep.
  destruct (f_type a2) eqn:E; try tgo.
  all: destruct (f_ip a2) as [ip|]; [|destruct Ht as [? [=]]; auto]; cbn in Ho |- *; tgo.
Qed.
#[local] Hint Resolve triple_filealloc triple_filedup triple_fileclose : typed.

Lemma triple_filestat i addr : (i < 100)%nat -> keeps_locks [] (filestat i addr).
Proof.
  intros Hi n Hn. unfold filestat. do 2 tstep.
  match goal with H : file_ok ?f |- _ => destruct H as [Ho _]; destruct (f_ip f) as [ip|] end; cbn [opt_lt deref] in *; tgo.
Qed.

Lemma triple_devsw_read major r : devsw_read major = Some r -> forall d n, keeps_locks [] (r d n).
Proof. unfold devsw_read. intros. repeat case_match; simplify_eq; eauto with typed. Qed.
Lemma triple_devsw_write major w : devsw_write major = Some w -> forall d n, keeps_locks [] (w d n).
Proof. unfold devsw_write. intros. repeat case_match; simplify_eq; eauto with typed. Qed.
#[local] Hint Resolve triple_devsw_read triple_devsw_write : typed.

Lemma triple_fileread i addr cnt : (i < 100)%nat -> keeps_locks [] (fileread i addr cnt).
Proof.
  intros Hi n Hn. unfold fileread. tstep.
  match goal with H : file_ok ?f |- _ => destruct H as [Ho _]; destruct (f_ip f) as [ip|] end; cbn [opt_lt deref] in *; tgo.
Qed.

Lemma tripleN_filewrite_loop k n fd addr cnt i :
  (n <= fuel)%nat -> (fd < 100)%nat -> (i < cnt -> cnt - i <= WRITE_MAX * Z.of_nat k) ->
  tripleN n [] (filewrite_loop k fd addr cnt i) (fun _ => True) (fun _ => []).
Proof.
  revert n i. induction k as [|k IH]; intros n i Hn Hfd Hk; cbn [filewrite_loop];
    (destruct (Z.ltb_spec i cnt); [|tgo]); [lia|]. tstep. tstep.
  match goal with H : file_ok ?f |- _ => pose proof (file_ok_ip _ H) as Ho; destruct (f_ip f) as [ip|] end;
    cbn [opt_lt deref] in *; [|tgo].
  tstep. tstep. tstep. tstep. tstep. tstep. tstep.
  destruct (Z.eqb_spec a3 (if WRITE_MAX <? cnt - i then WRITE_MAX else cnt - i)) as [Hr|]; cbn [negb]; [|tgo].
  apply IH; [lia|done|]. intros. destruct (Z.ltb_spec WRITE_MAX (cnt - i)); lia.
Qed.

Lemma triple_filewrite fd addr cnt : (fd < 100)%nat -> keeps_locks [] (filewrite fd addr cnt).
Proof.
  intros Hi n Hn. unfold filewrite. assert (triple [] (filewrite_loop (Z.to_nat (cnt / WRITE_MAX + 1)) fd addr cnt 0)
    (fun _ => True) (fun _ => [])).
  { intros n2 Hn2. apply tripleN_filewrite_loop; [lia|done|]. intros. Z.div_mod_to_equations. lia. }
  tgo.
Qed.

Lemma keeps_pipe_file pi r w : keeps_file (pipe_file pi r w).
Proof. intros f [Ho Ht]. split; [done|]. by intros [?|?]. Qed.
#[local] Hint Resolve keeps_pipe_file : typed.

Definition pair_lt (o : option (nat * nat)) : Prop :=
  match o with Some (a, b) => (a < 100)%nat /\ (b < 100)%nat | None => True end.

Lemma triple_pipealloc : triple [] pipealloc pair_lt (fun _ => []).
Proof. intros n Hn. unfold pipealloc, pipealloc_bad. tgo. Qed.
End TypedFile.

#[export] Hint Resolve triple_filealloc triple_filedup triple_fileclose triple_filestat triple_fileread triple_filewrite
  triple_pipealloc triple_fupdate : typed.

(** ** Updates of a process *)

Lemma keeps_clear_proc : keeps clear_proc.
Proof.
  intros pr []. split; [|done]. constructor; try done.
  unfold clear_proc. cbn [p_name set_p_q_val set_p_curr_q set_p_nrun_whole set_p_nrun set_p_niceness set_p_spriority
    set_p_priority set_p_stime set_p_wtime_every set_p_wtime_whole set_p_wtime set_p_rtime_every set_p_rtime_whole
    set_p_rtime set_p_ctime set_p_atime set_p_mask set_p_state set_p_xstate set_p_killed set_p_chan set_p_name].
  by rewrite length_insert.
Qed.

Lemma keeps_start_proc {bld : Build} t : keeps (start_proc t).
Proof. intros pr []. split; [|done]. by constructor. Qed.

Lemma keeps_sz z : 0 <= z < 2 ^ 64 -> keeps (set_p_sz z).
Proof. intros Hz pr []. split; [|done]. by constructor. Qed.

Lemma keeps_ofile i o : opt_lt 100 o -> keeps (fun pr => set_p_ofile (<[i := o]> (p_ofile pr)) pr).
Proof.
  intros Ho pr []. split; [|done]. constructor; try done; cbn [p_ofile set_p_ofile].
  - by rewrite length_insert.
  - by apply Forall_insert.
Qed.

Lemma keeps_cwd i : (i < 50)%nat -> keeps (set_p_cwd (Some i)).
Proof. intros Hi pr []. split; [|by eexists]. by constructor. Qed.

Lemma keeps_parent o : opt_lt 64 o -> keeps (set_p_parent o).
Proof. intros Ho pr []. split; [|done]. by constructor. Qed.

Lemma keeps_name l : length l = 16%nat -> keeps (set_p_name l).
Proof. intros Hl pr []. split; [|done]. by constructor. Qed.
#[export] Hint Resolve keeps_clear_proc keeps_start_proc keeps_sz keeps_ofile keeps_cwd keeps_parent keeps_name : typed.

Lemma safestrcpy_total n : forall s t,
  (n < length s)%nat -> (n <= length t)%nat \/ 0 ∈ t -> exists r, safestrcpy_loop s t n = Some r /\ length r = length s.
Proof.
  induction n as [|n IH]; intros s t Hs Ht; cbn [safestrcpy_loop].
  - apply zero_fill_total. lia.
  - destruct s as [|b s]; cbn in Hs; [lia|].
    destruct t as [|a t]; [cbn in Ht; destruct Ht as [|[]%not_elem_of_nil]; lia|].
    destruct (Z.eqb_spec a 0) as [->|Ha].
    + destruct (zero_fill_total 1 s) as (r & -> & Hr); [lia|]. cbn. exists (0 :: r). cbn. auto.
    + destruct (IH s t) as (r & -> & Hr); [lia| |].
      * cbn in Ht. rewrite elem_of_cons in Ht. destruct Ht as [?|[?|?]]; (left; lia) || (by right) || congruence.
      * cbn. exists (a :: r). cbn. auto.
Qed.

Section TypedProc.
Context {bld : Build} {dsk : Disk} {dty : DiskTyped} (sb0 : superblock) (p : nat) (cw : bool).
Abbreviation triple := (triple sb0 p cw).
Abbreviation tripleN := (tripleN sb0 p cw).
Abbreviation at_ := (at_ sb0 p cw).
Abbreviation keeps_locks h m := (triple h%list m (fun _ => True) (fun _ => h%list)).

Lemma triple_tf_get h i f : (i < 64)%nat -> keeps_locks h (tf_get i f).
Proof. intros Hi n Hn. unfold tf_get. tgo. Qed.
Lemma triple_tf_set h i f v : (i < 64)%nat -> keeps_locks h (tf_set i f v).
Proof. intros Hi n Hn. unfold tf_set. tgo. Qed.
#[local] Hint Resolve triple_tf_get triple_tf_set : typed.

Lemma triple_set_name h i src :
  (i < 64)%nat -> (15 <= length src)%nat \/ 0 ∈ src -> keeps_locks h (set_name i src).
Proof.
  intros Hi Hsrc n Hn. unfold set_name. tstep. match goal with H : proc_ok ?x |- _ => pose proof (po_name _ H) as Hl end.
  unfold safestrcpy. change (16 <=? 0) with false. cbv iota.
  destruct (safestrcpy_total (Z.to_nat (16 - 1)) (p_name a) src) as (r & Hr & Hrl); [lia|done|].
  rewrite Hr. cbn [deref]. tstep. assert (length r = 16%nat) by lia. tgo.
Qed.

Lemma triple_allocpid h : LkPid ∉ h -> keeps_locks h allocpid.
Proof. intros Hh n Hn. unfold allocpid. tgo. Qed.

Lemma triple_proc_pagetable h i : (i < 64)%nat -> LkKmem ∉ h -> keeps_locks h (proc_pagetable i).
Proof. intros Hi Hh n Hn. unfold proc_pagetable. tgo. Qed.

Lemma triple_proc_freepagetable h pt sz : LkKmem ∉ h -> keeps_locks h (proc_freepagetable pt sz).
Proof. intros Hh n Hn. unfold proc_freepagetable. tgo. Qed.
#[local] Hint Resolve triple_set_name triple_allocpid triple_proc_pagetable triple_proc_freepagetable : typed.

Lemma triple_freeproc h i : (i < 64)%nat -> LkKmem ∉ h -> keeps_locks h (freeproc i).
Proof. intros Hi Hh n Hn. unfold freeproc. tgo. Qed.
#[local] Hint Resolve triple_freeproc : typed.

(** The lock [allocproc] returns with. *)
Definition lock_of (o : option nat) : list lock := match o with Some i => [LkProc i] | None => [] end.

Lemma triple_allocproc_loop : triple [] (allocproc_loop all_procs) (opt_lt 64) lock_of.
Proof.
  assert (Forall (fun i => (i < 64)%nat) all_procs) as Hall by (apply Forall_forall; eauto with typed).
  induction Hall as [|i l Hi _ IH]; intros n Hn; cbn [allocproc_loop]; tgo.
Qed.
#[local] Hint Resolve triple_allocproc_loop : typed.

Lemma triple_allocproc : triple [] allocproc (opt_lt 64) lock_of.
Proof. intros n Hn. unfold allocproc. tstep. destruct a as [i|]; cbn [opt_lt lock_of] in *; tgo. Qed.
#[local] Hint Resolve triple_allocproc : typed.

Lemma triple_growproc cnt : keeps_locks [] (growproc cnt).
Proof.
  intros n Hn. unfold growproc. assert (forall x, 0 <= u32 x < 2 ^ 64).
  { intros x. unfold u32. pose proof (Z.mod_pos_bound x (2 ^ 32)). lia. }
  tgo.
Qed.

Lemma triple_dup_file h np i :
  (p < 64)%nat -> (np < 64)%nat -> (i < 16)%nat -> LkFtable ∉ h -> keeps_locks h (dup_file p np i).
Proof.
  intros Hp Hnp Hi Hh n Hn. unfold dup_file. tstep.
  match goal with H : proc_ok ?x |- _ => destruct (lookup_lt_is_Some_2 (p_ofile x) i) as [o Ho];
    [rewrite (po_ofile _ H); done|]; pose proof (Forall_lookup_1 _ _ _ _ (po_files _ H) Ho) as Hlt end.
  rewrite Ho. cbn [deref]. tstep. destruct o as [f|]; cbn in Hlt; tgo.
Qed.

Lemma triple_fork : cw = true -> keeps_locks [] fork.
Proof.
  intros Hcw n Hn. unfold fork. tstep. tstep. destruct a as [np|]; cbn [opt_lt lock_of] in *; [|tgo].
  tstep. tstep. tstep. tstep; [tgo|].
  match goal with H : proc_ok ?x, Hc : cw = true -> p = p -> is_Some (p_cwd ?x) |- _ =>
    pose proof (po_cwd _ H) as Hok; pose proof (po_sz _ H); pose proof (po_name _ H);
    destruct Hc as [cwd Hcwd]; [done..|] end.
  rewrite Hcwd in *. cbn [opt_lt deref] in *.
  do 4 tstep. eapply tripleN_bind; [lia|apply triple_for_each|cbv beta; intros].
  { intros i Hi%elem_of_seq. apply triple_dup_file; (done || lia || set_solver). }
  tstep. tstep. assert (15 <= length (p_name a))%nat by lia.
  tgo.
Qed.

(** ** [wait] *)

Lemma triple_wait_scan l addr hk :
  (p < 64)%nat -> Forall (fun i => (i < 64)%nat) l ->
  triple [LkWait] (wait_scan l p addr hk) (fun _ => True) (fun r => match r with inl _ => [] | inr _ => [LkWait] end).
Proof.
  intros Hp Hl. revert hk. induction Hl as [|np l Hnp _ IH]; intros hk n Hn; cbn [wait_scan]; tgo.
Qed.

Lemma tripleN_wait_loop k n addr :
  (p < 64)%nat -> (n <= fuel)%nat -> (n <= k)%nat ->
  tripleN n [LkWait] (wait_loop k p addr) (fun _ => True) (fun _ => []).
Proof.
  intros Hp. assert (Forall (fun i => (i < 64)%nat) all_procs) as Hall by (apply Forall_forall; eauto with typed).
  pose proof (triple_wait_scan all_procs addr false Hp Hall) as Hscan. clear Hall.
  revert n. induction k as [|k IH]; intros n Hf Hk; cbn [wait_loop].
  - intros s Hs. cbn. lia.
  - tstep. clear Hscan. destruct a as [r|hk]; [tgo|]. tstep. tstep; [tgo|].
    apply tripleN_sleep_bind; [lia|done|set_solver|set_solver|]. intros n2 Hn2. apply IH; lia.
Qed.

Lemma triple_waitx addr : keeps_locks [] (waitx addr).
Proof. intros n Hn. unfold waitx. tstep. tstep. apply tripleN_wait_loop; (done || lia). Qed.

Lemma triple_wait addr : keeps_locks [] (wait addr).
Proof.
  intros n Hn. unfold wait. tstep. tstep.
  assert (triple [LkWait] (wait_loop (S fuel) p addr) (fun _ => True) (fun _ => [])).
  { intros n2 Hn2. apply tripleN_wait_loop; (done || lia). }
  tgo.
Qed.

(** ** [exit] *)

Lemma triple_reparent : keeps_locks [LkWait] (reparent p).
Proof.
  apply triple_for_each. intros i Hi%elem_all_procs n Hn. unfold reparent_one. tstep.
  match goal with |- tripleN ?n _ (when ?b ?m) _ _ => apply (triple_when sb0 p cw [LkWait] b m); [|lia] end.
  intros _ n2 Hn2. tstep. match goal with H : exists _, _ |- _ => destruct H as (j & -> & Hj) end.
  assert (opt_lt 64 (Some j)) by done. cbn [deref]. tgo.
Qed.
#[local] Hint Resolve triple_reparent : typed.

Lemma triple_close_file fd : (p < 64)%nat -> (fd < 16)%nat -> keeps_locks [] (close_file p fd).
Proof.
  intros Hp Hi n Hn. unfold close_file. tstep.
  match goal with H : proc_ok ?x |- _ => destruct (lookup_lt_is_Some_2 (p_ofile x) fd) as [o Ho];
    [rewrite (po_ofile _ H); done|]; pose proof (Forall_lookup_1 _ _ _ _ (po_files _ H) Ho) as Hlt end.
  rewrite Ho. cbn [deref]. tstep. destruct o as [f|]; cbn in Hlt; tgo.
Qed.
End TypedProc.

#[export] Hint Resolve triple_tf_get triple_tf_set triple_set_name triple_proc_pagetable triple_proc_freepagetable
  triple_growproc triple_fork triple_wait triple_waitx : typed.

(** A routine that does not return may lose the current directory on the way. *)
Lemma post_gone {A} sb0 p cw cw' n (F G : A -> list lock) (o : outcome kstate A) :
  post sb0 p cw n (fun _ => False) F o -> post sb0 p cw' n (fun _ => False) G o.
Proof.
  revert n. induction o as [a s|m|w| |s k IH]; intros n; cbn [post]; try done.
  - by intros [[] _].
  - intros (c & Hat & Hk). exists c. split; [done|]. auto.
Qed.

Section TypedExit.
Context {bld : Build} {dsk : Disk} {dty : DiskTyped} (sb0 : superblock) (p : nat).

(** The end of [exit]: the process is a zombie when it gives up the CPU. *)
Lemma tripleN_exit_sched {A} n f :
  (n <= fuel)%nat -> keeps f -> (forall pr, p_state (f pr) <> RUNNING) ->
  tripleN sb0 p false n [LkProc p; LkWait]
    (bind (pupd p f ;; release LkWait) (fun _ => sched ;; @panic kstate A "zombie exit")) (fun _ => False) (fun _ => []).
Proof.
  intros Hn Hf Hst s Hs. apply post_assoc. destruct (at_proc sb0 p false _ _ p Hs) as (pr & Hpr & _); [apply Hs|].
  pose proof (triple_pupd sb0 p false _ p f (at_p _ _ _ _ _ Hs) Hf 0%nat ltac:(lia) s Hs) as Hu.
  rewrite (pupd_ok _ _ _ _ Hpr) in *. destruct Hu as [_ Hs1]. cbn [obind]. set (s1 := set_procs _ s) in *.
  pose proof (triple_release2 sb0 p false [] LkWait (LkProc p) ltac:(done) ltac:(set_solver) 0%nat ltac:(lia) s1 Hs1) as Hr.
  unfold bind at 1. unfold release in *. destruct (holding LkWait s1); [|done]. destruct Hr as [_ Hs2]. cbn [obind].
  assert (procs (set_held (filter (.≠ LkWait) (held s1)) s1) !! p = Some (f pr)) as Hpr'.
  { cbn. apply list_lookup_insert_eq. by eapply lookup_lt_Some. }
  unfold bind. destruct (sched_post sb0 p false _ _ _ Hs2 Hpr' (Hst pr)) as [[-> _]| ->]; [|reflexivity].
  cbn. exists false. done.
Qed.

(** The part of [exit] without a current directory. *)
Definition exit_tail (status : Z) : K unit :=
  acquire LkWait ;;
  reparent p ;;
  let! pr := pget p in
  match p_parent pr with
  | Some parent => wakeup (ChProc parent)
  | None => ret tt
  end ;;
  acquire (LkProc p) ;;
  let! t := gets ticks in
  pupd p (fun pr => set_p_etime t (set_p_state ZOMBIE (set_p_xstate status pr))) ;;
  release LkWait.

Lemma tripleN_exit_tail {A} n status :
  (n <= fuel)%nat -> (p < 64)%nat ->
  tripleN sb0 p false n [] (bind (exit_tail status) (fun _ => sched ;; @panic kstate A "zombie exit"))
    (fun _ => False) (fun _ => []).
Proof.
  intros Hn Hp. unfold exit_tail. pose proof (triple_reparent sb0 p false) as Hre. do 6 tstep. clear Hre. tstep.
  eapply tripleN_bind with (φ := fun _ => True) (F := fun _ => [LkWait]); [lia|intros n3 Hn3; tgo|].
  cbv beta. intros _ n4 Hn4 _. do 4 tstep.
  match goal with |- tripleN _ _ _ _ _ (bind (bind (pupd p ?f) _) _) _ _ => apply (tripleN_exit_sched _ f) end;
    [lia|kept|done].
Qed.

Lemma triple_exit {A} status : triple sb0 p true [] (exit (A := A) status) (fun _ => False) (fun _ => []).
Proof.
  intros n Hn. unfold exit, exit_prepare. tstep. tstep. tstep. tstep.
  destruct (bool_decide _); [by intros s _|]. tstep.
  eapply tripleN_bind; [lia|apply triple_for_each|cbv beta; intros].
  { intros i Hi%elem_of_seq. apply triple_close_file; (done || lia). }
  do 4 tstep.
  match goal with H : proc_ok ?x, Hc : _ -> _ -> is_Some (p_cwd ?x) |- _ =>
    pose proof (po_cwd _ H) as Hok; destruct Hc as [cwd Hcwd]; [done..|] end.
  rewrite Hcwd in *. cbn [opt_lt deref] in *. do 7 tstep. intros s Hs.
  destruct (at_proc sb0 p true _ _ p Hs) as (pr & Hpr & Hpok & _); [done|].
  eapply post_step; [exact (pupd_ok _ _ _ _ Hpr)|].
  eapply post_gone. match goal with |- post _ _ _ ?n _ _ _ => apply (tripleN_exit_tail n status); [lia|done|] end.
  destruct Hs as [Hw _ Hc Hh _]. constructor; try done. destruct Hw as [[Hl Hall] ? ? ? ? ? ? ? ? ? ? ?].
  constructor; try done. cbn. split; [by rewrite length_insert|]. apply Forall_insert; [done|].
  destruct Hpok. by constructor.
Qed.
End TypedExit.
#[export] Hint Resolve triple_exit : typed.
