(* ===== verification/TypedSys.v ===== *)
(** * Triples for the system calls *)

From stdpp Require Import gmap strings list.
From S2P Require Import Prelude Layout State Mlfq Sched Accounting Cstring Kalloc Vm Pipe Block Bio Log Fs Printf Console File Proc Exec Syscall Sysfile Sysproc Typed TypedCore TypedVm TypedLog TypedFs TypedDev TypedProc.

Section TypedSys.
Context {bld : Build} {dsk : Disk} {dty : DiskTyped} (sb0 : superblock) (p : nat).
Abbreviation triple := (triple sb0 p true).
Abbreviation tripleN := (tripleN sb0 p true).
Abbreviation keeps_locks h m := (triple h%list m (fun _ => True) (fun _ => h%list)).

(** ** [exec] *)

Lemma tripleN_loadseg_loop k n pt va ip offset sz i :
  (n <= fuel)%nat -> (ip < 50)%nat -> (i < sz -> sz - i <= PGSIZE * Z.of_nat k) ->
  tripleN n [] (loadseg_loop k pt va ip offset sz i) (fun _ => True) (fun _ => []).
Proof.
  revert n i. induction k as [|k IH]; intros n i Hn Hip Hk; cbn [loadseg_loop];
    (destruct (Z.ltb_spec i sz); [|tgo]); [lia|].
  tstep. tstep; [tgo|]. tstep. tstep. tstep; [tgo|]. apply IH; lia.
Qed.

Lemma triple_loadseg pt va ip offset sz : (ip < 50)%nat -> keeps_locks [] (loadseg pt va ip offset sz).
Proof.
  intros Hip n Hn. unfold loadseg. apply tripleN_loadseg_loop; [done|done|].
  intros. Z.div_mod_to_equations. lia.
Qed.
#[local] Hint Resolve triple_loadseg : typed.

Lemma PGROUNDUP_range x : 0 <= PGROUNDUP x < 2 ^ 64.
Proof.
  change (PGROUNDUP x) with (PGROUNDDOWN (u64 (x + PGSIZE - 1))). rewrite PGROUNDDOWN_spec.
  pose proof (u64_range (x + PGSIZE - 1)). Z.div_mod_to_equations. lia.
Qed.

Lemma uvmalloc_range r o nw :
  0 <= o < 2 ^ 64 -> 0 <= nw < 2 ^ 64 -> r = 0 \/ r = o \/ r = nw -> 0 <= r < 2 ^ 64.
Proof. lia. Qed.

Lemma triple_load_segments k pt ip off sz :
  (ip < 50)%nat -> 0 <= sz < 2 ^ 64 ->
  triple [] (load_segments k pt ip off sz) (fun x => 0 <= x.2 < 2 ^ 64) (fun _ => []).
Proof.
  intros Hip. revert off sz. induction k as [|k IH]; intros off sz Hsz n Hn; cbn [load_segments]; [by tstep|].
  tstep. tstep. tstep; [by tstep|]. tstep; [apply IH; (done || lia)|]. tstep; [by tstep|]. tstep; [by tstep|]. tstep.
  match goal with H : ?r = 0 \/ _ |- _ => apply uvmalloc_range in H; [|done|apply u64_range] end.
  tstep; [by tstep|]. tstep; [by tstep|]. tstep. tstep; [by tstep|]. apply IH; (done || lia).
Qed.

Lemma triple_kstring h a : keeps_locks h (kstring a).
Proof.
  intros n Hn. unfold kstring. tstep. destruct (strlen a0); cbn [deref]; [tgo|]. by intros s _.
Qed.
#[local] Hint Resolve triple_load_segments triple_kstring : typed.

Lemma triple_push_args argv argc pt sp sb ustack : keeps_locks [] (push_args argv argc pt sp sb ustack).
Proof. revert argc sp ustack. induction argv as [|a argv IH]; intros argc sp ustack n Hn; cbn [push_args]; tgo. Qed.

Lemma triple_exec_bad pt sz ip : opt_lt 50 ip -> keeps_locks [] (exec_bad pt sz ip).
Proof. intros Hip n Hn. unfold exec_bad. destruct ip as [ip|]; cbn [opt_lt] in Hip; tgo. Qed.
#[local] Hint Resolve triple_push_args triple_exec_bad : typed.

Lemma keeps_image pt sz : 0 <= sz < 2 ^ 64 -> keeps (fun pr => set_p_sz sz (set_p_pagetable pt pr)).
Proof. intros Hz pr []. split; [|done]. by constructor. Qed.
#[local] Hint Resolve keeps_image : typed.

Lemma triple_exec_image path argv entry pt sz :
  (p < 64)%nat -> keeps_locks [] (exec_image p path argv entry pt sz).
Proof.
  intros Hp n Hn. unfold exec_image. assert (forall l, 0 ∈ l ++ [0]) by (intros; set_solver).
  tstep. tstep. tstep; [tgo|]. 
  match goal with H : ?r = 0 \/ _ |- _ => apply (uvmalloc_range _ _ _ (PGROUNDUP_range _) (u64_range _)) in H end.
  tgo.
Qed.
#[local] Hint Resolve triple_exec_image : typed.

Lemma triple_exec path argv : keeps_locks [] (exec path argv).
Proof.
  intros n Hn. unfold exec. tstep. tstep. tstep. destruct a0 as [ip|]; cbn [opt_lt] in *; [|tgo].
  assert (0 <= 0 < 2 ^ 64) by lia. tgo.
Qed.
#[local] Hint Resolve triple_exec : typed.

(** ** Arguments *)

Lemma strlen_total l : 0 ∈ l -> is_Some (strlen l).
Proof.
  induction l as [|c l IH]; [by intros []%not_elem_of_nil|]. intros Hin. cbn [strlen].
  destruct (Z.eqb_spec c 0); [eauto|]. apply elem_of_cons in Hin as [Hin|Hin]; [congruence|].
  destruct (IH Hin) as [m ->]. eauto.
Qed.

Lemma triple_fetchaddr addr : keeps_locks [] (fetchaddr addr).
Proof. intros n Hn. unfold fetchaddr. tgo. Qed.

Lemma triple_fetchstr addr mx : keeps_locks [] (fetchstr addr mx).
Proof.
  intros n Hn. unfold fetchstr. tstep. tstep. tstep. destruct a0 as [err buf]. cbn [fst snd] in *.
  destruct (Z.ltb_spec err 0); [tgo|].
  match goal with H : _ \/ _ |- _ => destruct H as [[_ Hz]| ->]; [|lia] end.
  destruct (strlen_total _ Hz) as [m ->]. cbn [deref]. tgo.
Qed.

Lemma triple_argraw h i : 0 <= i <= 5 -> keeps_locks h (argraw i).
Proof.
  intros Hi n Hn. unfold argraw. tstep. replace ((0 <=? i) && (i <=? 5)) with true by (symmetry; lia). tgo.
Qed.
#[local] Hint Resolve triple_fetchaddr triple_fetchstr triple_argraw : typed.

Lemma triple_argint h i : 0 <= i <= 5 -> keeps_locks h (argint i).
Proof. intros Hi n Hn. unfold argint. tgo. Qed.
Lemma triple_argaddr h i : 0 <= i <= 5 -> keeps_locks h (argaddr i).
Proof. apply triple_argraw. Qed.
#[local] Hint Resolve triple_argint triple_argaddr : typed.
#[local] Hint Extern 1 (_ <= _ <= _) => lia : typed.

Lemma triple_argstr i mx : 0 <= i <= 5 -> keeps_locks [] (argstr i mx).
Proof. intros Hi n Hn. unfold argstr. tgo. Qed.
#[local] Hint Resolve triple_argstr : typed.

(** ** Descriptors *)

Lemma proc_fd pr fd : proc_ok pr -> (fd < 16)%nat -> exists o, p_ofile pr !! fd = Some o /\ opt_lt 100 o.
Proof.
  intros [Hl Hf] Hfd. destruct (lookup_lt_is_Some_2 (p_ofile pr) fd) as [o Ho]; [lia|].
  exists o. split; [done|]. by eapply Forall_lookup_1 in Ho.
Qed.

Definition fd_ok (o : option (nat * nat)) : Prop :=
  match o with Some x => (x.1 < 16)%nat /\ (x.2 < 100)%nat | None => True end.

Lemma triple_argfd i : 0 <= i <= 5 -> triple [] (argfd i) fd_ok (fun _ => []).
Proof.
  intros Hi n Hn. unfold argfd. tstep. destruct ((a <? 0) || (NOFILE <=? a)) eqn:E; [tgo|]. tstep. tstep.
  apply orb_false_elim in E as [E1 E2]. assert (Z.to_nat a < 16)%nat by lia.
  match goal with H : proc_ok ?x |- _ => destruct (proc_fd x (Z.to_nat a) H ltac:(lia)) as (o & -> & Ho) end.
  cbn [deref]. tstep. apply tripleN_ret; [|done]. by destruct o as [f|].
Qed.

Lemma keeps_fd fd o : opt_lt 100 o -> keeps (fun pr => set_p_ofile (<[fd := o]> (p_ofile pr)) pr).
Proof.
  intros Ho pr []. split; [|done]. constructor; cbn; try done; [by rewrite length_insert|by apply Forall_insert].
Qed.
#[local] Hint Resolve triple_argfd keeps_fd : typed.

Lemma triple_set_fd fd o : opt_lt 100 o -> keeps_locks [] (set_fd fd o).
Proof. intros Ho n Hn. unfold set_fd. tgo. Qed.

Lemma triple_fdalloc f : (f < 100)%nat -> keeps_locks [] (fdalloc f).
Proof.
  intros Hf n Hn. unfold fdalloc. tstep.
  assert (forall l, Forall (fun fd => (fd < 16)%nat) l -> keeps_locks [] (fdalloc_loop l p f)) as Hl.
  { clear n' H. intros l Hl. induction Hl as [|fd l Hfd _ IH]; intros n2 Hn2; cbn [fdalloc_loop]; [tgo|]. tstep.
    match goal with H : proc_ok ?x |- _ => destruct (proc_fd x fd H ltac:(lia)) as (o & -> & Ho) end.
    cbn [deref]. tstep. destruct o; tgo. }
  apply Hl; [|lia]. apply Forall_forall. intros fd. rewrite elem_of_seq. lia.
Qed.
#[local] Hint Resolve triple_set_fd triple_fdalloc : typed.

(** ** System calls on files *)

(** [tgo] where results are options and pairs. *)
Ltac tall := repeat (tstep; cbn [opt_lt fst snd] in *).

(** After [argfd]. *)
Ltac tfd := tstep; match goal with o : option (nat * nat) |- _ => destruct o as [[]|] end; cbn [fd_ok fst snd] in *; tgo.

Lemma triple_sys_dup : keeps_locks [] sys_dup.
Proof. intros n Hn. unfold sys_dup. tfd. Qed.
Lemma triple_sys_read : keeps_locks [] sys_read.
Proof. intros n Hn. unfold sys_read. tfd. Qed.
Lemma triple_sys_write : keeps_locks [] sys_write.
Proof. intros n Hn. unfold sys_write. tfd. Qed.
Lemma triple_sys_close : keeps_locks [] sys_close.
Proof. intros n Hn. unfold sys_close. tfd. Qed.
Lemma triple_sys_fstat : keeps_locks [] sys_fstat.
Proof. intros n Hn. unfold sys_fstat. tfd. Qed.

Lemma triple_link_bad ip : (ip < 50)%nat -> keeps_locks [] (link_bad ip).
Proof. intros Hip n Hn. unfold link_bad. tgo. Qed.
#[local] Hint Resolve triple_link_bad : typed.

Lemma new_name_length : length new_name = 14%nat.
Proof. reflexivity. Qed.
Lemma name_ok_14 l : length l = 14%nat -> name_ok l.
Proof. left. lia. Qed.
Lemma name_ok_lit l : name_ok (l ++ [0]).
Proof. right. set_solver. Qed.
#[local] Hint Resolve new_name_length name_ok_14 name_ok_lit : typed.

Lemma triple_sys_link : keeps_locks [] sys_link.
Proof. intros n Hn. unfold sys_link. tall. Qed.

Lemma tripleN_isdirempty_loop k n dp off :
  (n <= fuel)%nat -> (dp < 50)%nat -> dir_at k off ->
  tripleN n [] (isdirempty_loop k dp off) (fun _ => True) (fun _ => []).
Proof.
  revert n off. induction k as [|k IH]; intros n off Hn Hdp Hk; cbn [isdirempty_loop]; (tstep; tstep; [|tgo]).
  - unfold dir_at in Hk. lia.
  - tstep. tstep. destruct (Z.eqb_spec z 16) as [Hz|]; cbn [negb]; [|tgo].
    destruct (read_entry _ _ _ H2 Hz) as [Hlen Hoff]. pose proof (dir_at_step _ _ Hk Hoff) as Hk'.
    tstep; [tgo|]. apply IH; (done || lia).
Qed.

Lemma triple_isdirempty dp : (dp < 50)%nat -> keeps_locks [] (isdirempty dp).
Proof. intros Hdp n Hn. apply tripleN_isdirempty_loop; [done|done|]. apply dir_at_start. by right. Qed.

Lemma triple_unlink_bad dp : (dp < 50)%nat -> keeps_locks [] (unlink_bad dp).
Proof. intros Hdp n Hn. unfold unlink_bad. tgo. Qed.
#[local] Hint Resolve triple_isdirempty triple_unlink_bad : typed.

Lemma triple_sys_unlink : keeps_locks [] sys_unlink.
Proof. intros n Hn. unfold sys_unlink. tall. Qed.

Lemma triple_create path type major minor : triple [] (create path type major minor) (opt_lt 50) (fun _ => []).
Proof. intros n Hn. unfold create. tall. Qed.
#[local] Hint Resolve triple_create : typed.

Lemma triple_open_inode path omode : triple [] (open_inode path omode) (opt_lt 50) (fun _ => []).
Proof. intros n Hn. unfold open_inode. tall. Qed.

Lemma keeps_open ip i omode : (ip < 50)%nat -> keeps_file (open_file ip i omode).
Proof. intros Hip f Hf. unfold open_file. by destruct (i_type i =? T_DEVICE). Qed.
#[local] Hint Resolve triple_open_inode keeps_open : typed.

Lemma triple_sys_open : keeps_locks [] sys_open.
Proof. intros n Hn. unfold sys_open. tall. Qed.

Lemma triple_sys_mkdir : keeps_locks [] sys_mkdir.
Proof. intros n Hn. unfold sys_mkdir. tall. Qed.

Lemma triple_sys_mknod : keeps_locks [] sys_mknod.
Proof. intros n Hn. unfold sys_mknod. tall. Qed.

(** [end_op] may switch away before the new directory is stored: until then the
    process has the old one. *)
Lemma keeps_chdir ip : (ip < 50)%nat -> keeps (set_p_cwd (Some ip)).
Proof. intros Hip pr []. split; [by constructor|eauto]. Qed.
#[local] Hint Resolve keeps_chdir : typed.

Lemma triple_cwd h pr : proc_ok pr -> is_Some (p_cwd pr) -> triple h (deref "cwd" (p_cwd pr)) (fun i => (i < 50)%nat) (fun _ => h).
Proof. intros Hpr [i Hi]. apply triple_deref. pose proof (po_cwd _ Hpr) as Hc. by rewrite Hi in *. Qed.
#[local] Hint Resolve triple_cwd : typed.

Lemma triple_sys_chdir : keeps_locks [] sys_chdir.
Proof. intros n Hn. unfold sys_chdir. tall. Qed.

(** ** [exec] and [pipe] *)

Lemma triple_exec_args k i uargv argv : keeps_locks [] (exec_args k i uargv argv).
Proof. revert i argv. induction k as [|k IH]; intros i argv n Hn; cbn [exec_args]; tall. Qed.
#[local] Hint Resolve triple_exec_args : typed.

Lemma triple_sys_exec : keeps_locks [] sys_exec.
Proof.
  intros n Hn. unfold sys_exec. assert (forall l, keeps_locks [] (for_each l kfree)).
  { intros l. apply triple_for_each. eauto with typed. }
  tall.
Qed.

Lemma triple_sys_pipe : keeps_locks [] sys_pipe.
Proof.
  intros n Hn. unfold sys_pipe. tstep. tstep. tstep. destruct a0 as [[rf wf]|]; cbn [pair_lt fst snd] in *; [|tgo].
  destruct_and?. tall.
Qed.

(** ** System calls on processes *)

Lemma triple_sys_exit : keeps_locks [] sys_exit.
Proof.
  intros n Hn. unfold sys_exit. tstep.
  eapply tripleN_weaken; [apply triple_exit; lia|]. by intros ? [].
Qed.
Lemma triple_sys_getpid : keeps_locks [] sys_getpid.
Proof. intros n Hn. unfold sys_getpid. tgo. Qed.
Lemma triple_sys_fork : keeps_locks [] sys_fork.
Proof. by apply triple_fork. Qed.
Lemma triple_sys_wait : keeps_locks [] sys_wait.
Proof. intros n Hn. unfold sys_wait. tgo. Qed.
Lemma triple_sys_sbrk : keeps_locks [] sys_sbrk.
Proof. intros n Hn. unfold sys_sbrk. tgo. Qed.

Lemma tripleN_sleep_wait k n m t0 :
  (p < 64)%nat -> (n <= fuel)%nat -> (n <= k)%nat ->
  tripleN n [LkTicks] (sleep_wait k p m t0) (fun _ => True) (fun _ => []).
Proof.
  intros Hp. revert n. induction k as [|k IH]; intros n Hf Hk; cbn [sleep_wait].
  - intros s Hs. cbn. lia.
  - tstep. tstep; [|tgo]. tstep. tstep; [tgo|].
    apply tripleN_sleep_bind; [lia|done|set_solver|set_solver|]. intros n2 Hn2. apply IH; lia.
Qed.

Lemma triple_sys_sleep : keeps_locks [] sys_sleep.
Proof. intros n Hn. unfold sys_sleep. do 4 tstep. apply tripleN_sleep_wait; (done || lia). Qed.
Lemma triple_sys_kill : keeps_locks [] sys_kill.
Proof. intros n Hn. unfold sys_kill. tgo. Qed.
Lemma triple_sys_uptime : keeps_locks [] sys_uptime.
Proof. intros n Hn. unfold sys_uptime. tgo. Qed.
Lemma triple_sys_strace : keeps_locks [] sys_strace.
Proof. intros n Hn. unfold sys_strace. assert (forall m, keeps (set_p_mask m)) by (intros m; kept). tgo. Qed.
Lemma triple_sys_set_priority : keeps_locks [] sys_set_priority.
Proof. intros n Hn. unfold sys_set_priority. tgo. Qed.
Lemma triple_sys_waitx uninit : keeps_locks [] (sys_waitx uninit).
Proof. intros n Hn. unfold sys_waitx. tall. Qed.

(** ** The dispatcher *)

Lemma triple_syscalls uninit i m : syscalls uninit !! i = Some (Some m) -> keeps_locks [] m.
Proof.
  intros Hi. apply list_elem_of_lookup_2 in Hi. unfold syscalls in Hi.
  repeat (apply elem_of_cons in Hi as [Hi|Hi]; [first [discriminate|injection Hi as ->];
    first [apply triple_sys_fork|apply triple_sys_exit|apply triple_sys_wait|apply triple_sys_pipe|apply triple_sys_read
      |apply triple_sys_kill|apply triple_sys_exec|apply triple_sys_fstat|apply triple_sys_chdir|apply triple_sys_dup
      |apply triple_sys_getpid|apply triple_sys_sbrk|apply triple_sys_sleep|apply triple_sys_uptime|apply triple_sys_open
      |apply triple_sys_write|apply triple_sys_mknod|apply triple_sys_unlink|apply triple_sys_link|apply triple_sys_mkdir
      |apply triple_sys_close|apply triple_sys_strace|apply triple_sys_set_priority|apply triple_sys_waitx]|]).
  by apply not_elem_of_nil in Hi.
Qed.

Lemma syscall_argc_ok i : (i < 24)%nat -> exists a, syscall_argc !! i = Some a /\ a <= 3.
Proof.
  intros Hi. destruct (lookup_lt_is_Some_2 syscall_argc i) as [a Ha]; [done|]. exists a. split; [done|].
  assert (Forall (fun a => a <= 3) syscall_argc) as Hall by (repeat constructor; lia).
  exact (Forall_lookup_1 _ _ _ _ Hall Ha).
Qed.

#[local] Hint Extern 1 (is_Some (format _ _)) => eexists; reflexivity : typed.

Lemma triple_strace_line num tt0 : (p < 64)%nat -> 0 < num < 25 -> keeps_locks [] (strace_line p num tt0).
Proof.
  intros Hp Hnum n Hn. unfold strace_line. tstep.
  destruct (lookup_lt_is_Some_2 syscall_name (Z.to_nat num)) as [nm ->]; [cbn; lia|].
  destruct (syscall_argc_ok (Z.to_nat (num - 1))) as (argc & -> & Hargc); [lia|]. cbn [deref]. do 3 tstep.
  eapply tripleN_bind; [lia|apply triple_for_each|cbv beta; intros; tgo].
  intros i Hi%elem_of_seq n2 Hn2. assert (0 <= Z.of_nat i <= 5) by lia. tgo.
Qed.
#[local] Hint Resolve triple_strace_line : typed.

Lemma triple_syscall uninit : keeps_locks [] (syscall uninit).
Proof.
  intros n Hn. unfold syscall. tstep. tstep. rename a into a7.
  destruct (if _ : bool then _ else None) as [m|] eqn:E; [|tgo].
  destruct (Z.ltb_spec 0 (s32 a7)); [|done].
  destruct (syscalls uninit !! Z.to_nat (s32 a7)) as [om|] eqn:Ho; [|done]. cbn in E. subst om.
  pose proof (triple_syscalls _ _ _ Ho) as Hm. apply lookup_lt_Some in Ho. cbn [syscalls length] in Ho.
  assert (0 < s32 a7 < 25) by lia. tgo.
Qed.
End TypedSys.
