(* ===== verification/TypedDisk.v ===== *)
(** * Triples for the disk driver

    The driver of [Virtio.v] is the disk that the file system's triples rely on. *)

From stdpp Require Import gmap strings list.
From S2P Require Import Prelude Layout State Sched Bio Virtio Typed TypedCore TypedLog.

Definition keeps_vd (f : virtio -> virtio) : Prop := forall v, virtio_ok v -> virtio_ok (f v).
#[export] Hint Extern 1 (keeps_vd _) =>
  solve [let v := fresh in let H := fresh in intros v H; destruct H; constructor; cbn; rewrite ?length_insert; assumption] : typed.

Section TypedDisk.
Context {bld : Build} (sb0 : superblock) (p : nat) (cw : bool).
Abbreviation triple := (triple sb0 p cw).
Abbreviation tripleN := (tripleN sb0 p cw).
Abbreviation at_ := (at_ sb0 p cw).
Abbreviation keeps_locks h m := (triple h%list m (fun _ => True) (fun _ => h%list)).

Lemma triple_vupd h f : keeps_vd f -> keeps_locks h (vupd f).
Proof.
  intros Hf. apply triple_modify. intros s [Hw Hp Hc Hh Hd]. constructor; try done. destruct Hw.
  constructor; try done. by apply Hf.
Qed.

Lemma keeps_desc i d : 0 <= d_next d < 8 -> keeps_vd (fun v => set_vd_desc (<[i := d]> (vd_desc v)) v).
Proof. intros Hd v []. constructor; cbn; rewrite ?length_insert; try done. by apply Forall_insert. Qed.

Lemma triple_desc_set h i d : 0 <= d_next d < 8 -> keeps_locks h (desc_set i d).
Proof. intros Hd. by apply triple_vupd, keeps_desc. Qed.
#[local] Hint Resolve triple_vupd triple_desc_set : typed.
#[local] Hint Extern 1 (_ <= _ < _) => cbn; lia : typed.

Lemma vd_free_at v i : virtio_ok v -> (i < 8)%nat -> exists b, vd_free v !! i = Some b.
Proof. intros [] Hi. apply lookup_lt_is_Some_2. lia. Qed.

Lemma triple_alloc_desc : triple [LkVdisk] alloc_desc (opt_lt 8) (fun _ => [LkVdisk]).
Proof.
  assert (forall l, Forall (fun i => (i < 8)%nat) l -> triple [LkVdisk] (alloc_desc_loop l) (opt_lt 8) (fun _ => [LkVdisk])) as Hl.
  { intros l Hl. induction Hl as [|i l Hi _ IH]; intros n Hn; cbn [alloc_desc_loop]; [tgo|]. tstep.
    destruct (vd_free_at _ i H0 Hi) as [b ->]. cbn [deref]. tgo. }
  apply Hl. apply Forall_forall. intros i. rewrite elem_of_seq. lia.
Qed.

Lemma triple_free_desc i : (i < 8)%nat -> keeps_locks [LkVdisk] (free_desc i).
Proof.
  intros Hi n Hn. unfold free_desc. tstep; [tgo|]. tstep. destruct (vd_free_at _ i H0 Hi) as [b ->]. cbn [deref]. tgo.
Qed.
#[local] Hint Resolve triple_alloc_desc triple_free_desc : typed.

Definition idx_ok (o : option (list nat)) : Prop :=
  match o with Some l => length l = 3%nat /\ Forall (fun i => (i < 8)%nat) l | None => True end.

Lemma triple_alloc3_desc : triple [LkVdisk] alloc3_desc idx_ok (fun _ => [LkVdisk]).
Proof.
  unfold alloc3_desc. assert (forall k l, Forall (fun i => (i < 8)%nat) l -> (length l + k)%nat = 3%nat ->
    triple [LkVdisk] (alloc3_loop k l) idx_ok (fun _ => [LkVdisk])) as Hl; [|by apply Hl].
  induction k as [|k IH]; intros l Hl Hk n Hn; cbn [alloc3_loop].
  - apply tripleN_ret; [|done]. split; [lia|done].
  - tstep. destruct a as [i|]; cbn [opt_lt] in *.
    + apply IH; [|rewrite length_app; cbn; lia|lia]. apply Forall_app. split; [done|]. by apply Forall_singleton.
    + eapply tripleN_bind; [lia|apply triple_for_each|cbv beta; intros; tgo].
      intros i Hi. apply triple_free_desc. rewrite Forall_forall in Hl. auto.
Qed.
#[local] Hint Resolve triple_alloc3_desc : typed.

Lemma tripleN_alloc3_wait k n :
  (n <= fuel)%nat -> (n <= k)%nat ->
  tripleN n [LkVdisk] (alloc3_wait k) (fun l => idx_ok (Some l)) (fun _ => [LkVdisk]).
Proof.
  revert n. induction k as [|k IH]; intros n Hf Hk; cbn [alloc3_wait].
  - intros s Hs. cbn. lia.
  - tstep. destruct a as [l|]; [by apply tripleN_ret|].
    apply tripleN_sleep_bind; [lia|done|set_solver|set_solver|]. intros n2 Hn2. apply IH; lia.
Qed.

Lemma tripleN_rw_wait k n b :
  (n <= fuel)%nat -> (n <= k)%nat -> (b < 30)%nat ->
  tripleN n [LkVdisk] (rw_wait k b) (fun _ => True) (fun _ => [LkVdisk]).
Proof.
  revert n. induction k as [|k IH]; intros n Hf Hk Hb; cbn [rw_wait].
  - intros s Hs. cbn. lia.
  - tstep. tstep; [|tgo].
    apply tripleN_sleep_bind; [lia|done|set_solver|set_solver|]. intros n2 Hn2. apply IH; lia.
Qed.

(** The descriptors in use.  [free_chain] frees one in every turn, so that it ends
    whatever the chain is. *)
Definition busy (v : virtio) : nat := length (filter (fun b => b = false) (vd_free v)).

Lemma free_desc_cases s i :
  at_ [LkVdisk] s -> (i < 8)%nat ->
  free_desc i s = Panic "free_desc 2" \/
  exists s', free_desc i s = Ok tt s' /\ at_ [LkVdisk] s' /\ S (busy (vdisk s')) = busy (vdisk s).
Proof.
  intros Hs Hi. pose proof (triple_free_desc i Hi 0%nat ltac:(lia) s Hs) as Hpost.
  destruct (vd_free_at _ i (wf_vdisk _ _ (at_wf _ _ _ _ _ Hs)) Hi) as [b Hb].
  assert (free_desc i s = if b then Panic "free_desc 2" else
    Ok tt (let s := set_vdisk (set_vd_free (<[i := true]> (vd_free (vdisk s)))
                      (set_vd_desc (<[i := MkDesc DmaNull 0 0 0]> (vd_desc (vdisk s))) (vdisk s))) s in
           set_procs (wake_all ChDiskFree (cur s) (procs s)) s)) as E.
  { unfold free_desc. replace (NUM <=? Z.of_nat i) with false by (symmetry; lia). unfold bind. cbn [gets obind].
    rewrite Hb. cbn -[wakeup]. destruct b; [done|]. cbn -[wakeup]. rewrite wakeup_ok; [done| |apply (wf_procs _ _ (at_wf _ _ _ _ _ Hs))].
    intros j Hj. cbn in Hj. rewrite (at_held _ _ _ _ _ Hs) in Hj. set_solver. }
  destruct b; [by left|]. right. rewrite E in *. eexists. split; [reflexivity|]. split; [apply Hpost|]. unfold busy. cbn.
  rewrite (insert_take_drop _ _ true) by (by eapply lookup_lt_Some).
  rewrite <- (take_drop_middle _ _ _ Hb) at 3. rewrite !filter_app, !length_app.
  rewrite filter_cons_False, filter_cons_True by done. cbn. lia.
Qed.

Lemma post_free_chain_loop k n s i :
  at_ [LkVdisk] s -> (i < 8)%nat -> (busy (vdisk s) < k)%nat ->
  post sb0 p cw n (fun _ => True) (fun _ => [LkVdisk]) (free_chain_loop k i s).
Proof.
  revert s i. induction k as [|k IH]; intros s i Hs Hi Hk; [lia|]. cbn [free_chain_loop].
  eapply post_step; [reflexivity|]. pose proof (wf_vdisk _ _ (at_wf _ _ _ _ _ Hs)) as [Hd Hnx].
  destruct (lookup_lt_is_Some_2 (vd_desc (vdisk s)) i) as [d Hdi]; [lia|]. rewrite Hdi. cbn [deref].
  eapply post_step; [reflexivity|]. pose proof (Forall_lookup_1 _ _ _ _ Hnx Hdi) as Hn8. cbn in Hn8.
  destruct (free_desc_cases s i Hs Hi) as [E|(s' & E & Hs' & Hb)].
  - unfold bind. by rewrite E.
  - eapply post_step; [exact E|]. destruct (negb _); [apply IH; [done|lia|lia]|done].
Qed.

Lemma triple_free_chain i : (i < 8)%nat -> keeps_locks [LkVdisk] (free_chain i).
Proof.
  intros Hi n Hn s Hs. apply post_free_chain_loop; [done|done|]. unfold busy.
  pose proof (length_filter (fun b => b = false) (vd_free (vdisk s))).
  destruct (wf_vdisk _ _ (at_wf _ _ _ _ _ Hs)). lia.
Qed.
#[local] Hint Resolve triple_free_chain : typed.

Lemma triple_format_request b w sector x y z :
  (y < 8)%nat -> (z < 8)%nat -> keeps_locks [LkVdisk] (format_request b w sector x y z).
Proof. intros Hy Hz n Hn. unfold format_request. tgo. Qed.
#[local] Hint Resolve triple_format_request : typed.

Lemma triple_disk_rw b w : (b < 30)%nat -> keeps_locks [] (disk_rw b w).
Proof.
  intros Hb n Hn. unfold disk_rw. pose proof (fun n H1 => tripleN_alloc3_wait (S fuel) n H1 (Nat.le_trans _ _ _ H1 (Nat.le_succ_diag_r _))) as Ha.
  pose proof (fun n H1 => tripleN_rw_wait (S fuel) n b H1 (Nat.le_trans _ _ _ H1 (Nat.le_succ_diag_r _)) Hb) as Hr.
  tstep. tstep. eapply tripleN_bind; [lia|exact Ha|]. cbv beta. intros l n2 Hn2 [Hl Hall].
  destruct l as [|x [|y [|z [|]]]]; try discriminate. rewrite !Forall_cons in Hall. destruct_and?. do 5 tstep.
  eapply tripleN_bind; [lia|exact Hr|]. cbv beta. intros. tgo.
Qed.
End TypedDisk.

(** The driver. *)
#[local] Instance driver `{Build} : Disk := {| virtio_disk_rw := disk_rw; disk_idle v := True |}.

#[local] Instance driver_typed `{Build} : DiskTyped.
Proof. intros sb0 p cw i w. apply triple_disk_rw. Qed.
