(* ===== verification/Kernel.v ===== *)
(** * The kernel's system calls as a whole

    What a run of [syscall], with the disk driver of [Virtio.v] below the file
    system, does in every outcome: when it returns, when it panics, and each time
    it gives up the CPU, whatever has changed when it gets it back. *)

From stdpp Require Import gmap strings list.
From S2P Require Import Prelude Layout State Mlfq Sched Bio Log Fs Virtio Proc Sysproc Typed TypedCore TypedLog TypedSys TypedDisk.

(** ** Runs *)

Definition has_cwd (p : nat) (s : kstate) : Prop := exists pr, procs s !! p = Some pr /\ is_Some (p_cwd pr).

(** The states in which process [p], that gave up the CPU in state [s], may get it
    back: any well-typed ones, with [p]'s lock held by the scheduler on its behalf
    and [p]'s current directory, that only [p] changes, still there. *)
Record resumes (sb0 : superblock) (p : nat) (s s' : kstate) : Prop := MkResumes {
  res_wf : wf sb0 s';
  res_cur : cur s' = Some p;
  res_held : held s' = [LkProc p];
  res_cwd : has_cwd p s -> has_cwd p s'
}.

(** The states at the returns and switches of a run are well typed, and its
    undefined behaviour is one of those in [may_ub]. *)
Fixpoint typed_run {A} (sb0 : superblock) (p : nat) (o : outcome kstate A) : Prop :=
  match o with
  | Ok _ s => wf sb0 s /\ cur s = Some p /\ has_cwd p s
  | UB w => may_ub w = true
  | Panic _ | NoFuel => True
  | Switch s k => wf sb0 s /\ forall s', resumes sb0 p s s' -> typed_run sb0 p (k s')
  end.

(** No spinlock is left held, none is taken twice or dropped twice, and the CPU is
    given up with [p]'s own lock and no other held. *)
Fixpoint locks_run {A} (sb0 : superblock) (p : nat) (o : outcome kstate A) : Prop :=
  match o with
  | Ok _ s => held s = []
  | Panic m => lock_panic m = false
  | UB _ | NoFuel => True
  | Switch s k => held s = [LkProc p] /\ forall s', resumes sb0 p s s' -> locks_run sb0 p (k s')
  end.

(** No loop runs out of fuel before [p] has given up the CPU [n] times. *)
Fixpoint ends_run {A} (sb0 : superblock) (p : nat) (n : nat) (o : outcome kstate A) : Prop :=
  match o with
  | NoFuel => n = 0%nat
  | Ok _ _ | Panic _ | UB _ => True
  | Switch s k => forall s', resumes sb0 p s s' -> ends_run sb0 p (pred n) (k s')
  end.

Section Runs.
Context {A : Type} (sb0 : superblock) (p : nat).
Implicit Types (o : outcome kstate A).

Lemma resumes_at cw s s' : at_ sb0 p cw [LkProc p] s -> resumes sb0 p s s' -> at_ sb0 p cw [LkProc p] s'.
Proof. intros Hs []. constructor; try done; [apply Hs|]. intros ->. apply res_cwd0. by apply Hs. Qed.

Lemma post_typed n φ F o : post sb0 p true n φ F o -> typed_run sb0 p o.
Proof.
  revert n. induction o as [a s|m|w| |s k IH]; intros n; cbn [post typed_run]; try done.
  - intros [_ Hs]. destruct Hs as [? ? ? ? Hc]. split_and!; auto. by apply Hc.
  - intros (cw & Hs & Hk). split; [apply Hs|]. intros s' Hr. eapply IH, Hk, resumes_at; done.
Qed.

Lemma post_locks n φ o : post sb0 p true n φ (fun _ => []) o -> locks_run sb0 p o.
Proof.
  revert n. induction o as [a s|m|w| |s k IH]; intros n; cbn [post locks_run]; try done.
  - intros [_ Hs]. apply Hs.
  - intros (cw & Hs & Hk). split; [apply Hs|]. intros s' Hr. eapply IH, Hk, resumes_at; done.
Qed.

Lemma post_ends n φ F o : post sb0 p true n φ F o -> ends_run sb0 p n o.
Proof.
  revert n. induction o as [a s|m|w| |s k IH]; intros n; cbn [post ends_run]; try done.
  intros (cw & Hs & Hk) s' Hr. eapply IH, Hk, resumes_at; done.
Qed.
End Runs.

#[local] Existing Instance driver.
#[local] Existing Instance driver_typed.

Section Syscall.
Context {bld : Build} (sb0 : superblock) (p : nat) (uninit : Z * Z).



(** C21: system calls terminate between switches.  Of the loops of a system call,
    only those that sleep depend on the fuel: until the process has given up the CPU
    as often as there is fuel, no loop runs out of it, whatever the other processes
    did in between, so that every stretch of kernel code ends. *)
Theorem syscall_terminates s :
  at_ sb0 p true [] s -> ends_run sb0 p fuel (syscall uninit s).
Proof. intros Hs. eapply post_ends. by apply (triple_syscall sb0 p uninit fuel). Qed.
End Syscall.

(** ** A well-typed state *)

(** The buffers as [binit] links them. *)
Definition demo_bufs : list buf :=
  (fun i => set_b_next (if decide (i = 30)%nat then 0%nat else S i)
              (set_b_prev (if decide (i = 0)%nat then 30%nat else pred i) zero_buf)) <$> seq 0 31.

(** Process 3 runs, with inode 0 as its current directory, and makes system call
    [num] with 5 as its first argument. *)
Definition demo_kernel (num : Z) : kstate :=
  set_mem (st64 (st64 ∅ TF_A7 num) TF_A0 5) (set_cur (Some 3%nat) (set_initproc (Some 0%nat) (set_bcache demo_bufs
    (set_procs (<[3%nat := set_p_cwd (Some 0%nat) (set_p_pid 4 (set_p_state RUNNING zero_proc))]> (replicate 64 zero_proc))
      boot_state)))).

Lemma zero_proc_ok : proc_ok zero_proc.
Proof. constructor; try done. by apply Forall_replicate. Qed.

Lemma demo_bufs_ok : bcache_ok demo_bufs.
Proof.
  split; [reflexivity|]. split.
  - apply Forall_fmap, Forall_forall. intros i _. unfold compose, buf_ok. cbn -[replicate length]. by rewrite length_replicate.
  - exists (seq 0 30). split; [done|]. split; vm_compute; repeat split.
Qed.

Lemma demo_at num : at_ (MkSuperblock 0 0 0 0 0 0 0 0) 3 true [] (demo_kernel num).
Proof.
  constructor; [|lia|done|done|].
  - constructor.
    + split; [reflexivity|]. apply Forall_insert; [by apply Forall_replicate, zero_proc_ok|].
      destruct zero_proc_ok. constructor; (done || cbn; lia).
    + exists 0%nat. split; [done|lia].
    + split; [reflexivity|]. by apply Forall_replicate.
    + reflexivity.
    + split; [reflexivity|]. apply Forall_replicate. split; [done|]. by intros [|].
    + split; [reflexivity|]. by apply Forall_replicate.
    + exact demo_bufs_ok.
    + reflexivity.
    + split; [reflexivity|]. cbn. lia.
    + repeat split; cbn; lia.
    + repeat split; vm_compute; (reflexivity || discriminate).
    + constructor; try reflexivity. apply Forall_replicate. cbn. lia.
  - intros _. eexists. split; [reflexivity|]. by eexists.
Qed.



Lemma syscall_terminates_witness :
  ends_run (MkSuperblock 0 0 0 0 0 0 0 0) 3 (@fuel (demo_build PBS))
    (@syscall (demo_build PBS) (@driver (demo_build PBS)) (0, 0) (demo_kernel 18)).
Proof. exact (@syscall_terminates (demo_build PBS) _ 3 (0, 0) (demo_kernel 18) (demo_at 18)). Defined.
