(* ===== verification/FsBits.v ===== *)
(** * The bitmap of disk blocks

    What [balloc] does in a transaction, for a file system whose bitmap is one block
    ([FSSIZE] is 1000): it returns a block that was free, marks it and zeroes it, and
    touches nothing else. *)

From stdpp Require Import gmap strings list fin_maps.
From S2P Require Import Prelude Layout State Sched Block Bio Log LogCommit LogTx Fs.

Lemma seq3_ok {St A B C D} (m1 : M St A) (m2 : M St B) (m3 : M St C) (k : M St D) s c s' :
  (m1 ;; m2 ;; m3) s = Ok c s' -> (m1 ;; m2 ;; m3 ;; k) s = k s'.
Proof.
  unfold bind. destruct (m1 s) as [a s1| | | |]; cbn [obind]; try done.
  destruct (m2 s1) as [b s2| | | |]; cbn [obind]; try done. by intros ->.
Qed.

(** ** Bits *)

Lemma bit_free_testbit bi data : bit_free bi data = negb (Z.testbit (bit_byte bi data) (bi mod 8)).
Proof.
  unfold bit_free, bit_mask. pose proof (Z.mod_pos_bound bi 8 ltac:(lia)) as Hm.
  destruct (Z.testbit (bit_byte bi data) (bi mod 8)) eqn:E; cbn.
  - apply Z.eqb_neq. intros Hz. apply (f_equal (fun z => Z.testbit z (bi mod 8))) in Hz.
    rewrite Z.land_spec, E, Z.shiftl_spec, Z.sub_diag, Z.bits_0 in Hz by lia. done.
  - apply Z.eqb_eq. apply Z.bits_inj_iff'. intros n Hn. rewrite Z.land_spec, Z.bits_0, Z.shiftl_spec by lia.
    destruct (decide (n = bi mod 8)) as [->|Hne]; [by rewrite E|].
    destruct (decide (n < bi mod 8)); [rewrite (Z.testbit_neg_r 1) by lia; by rewrite andb_false_r|].
    rewrite (Z.bits_above_log2 1 (n - bi mod 8)) by (cbn; lia). by rewrite andb_false_r.
Qed.

Lemma bit_byte_set bi b data : 0 <= bi -> 0 <= b -> (Z.to_nat (b / 8) < length data)%nat ->
  bit_byte bi (set_bit b data) =
  if decide (bi / 8 = b / 8) then u8 (Z.lor (bit_byte b data) (bit_mask b)) else bit_byte bi data.
Proof.
  intros H1 H2 Hlen. unfold bit_byte at 1, set_bit.
  pose proof (Z.div_pos bi 8 H1 ltac:(lia)). pose proof (Z.div_pos b 8 H2 ltac:(lia)).
  case_decide as E.
  - rewrite E, list_lookup_insert_eq by done. done.
  - rewrite list_lookup_insert_ne by lia. done.
Qed.

Lemma bit_free_set bi b data : 0 <= bi -> 0 <= b -> (Z.to_nat (b / 8) < length data)%nat ->
  bit_free bi (set_bit b data) = if decide (bi = b) then false else bit_free bi data.
Proof.
  intros H1 H2 Hlen. rewrite !bit_free_testbit, bit_byte_set by done.
  pose proof (Z.mod_pos_bound bi 8 ltac:(lia)). pose proof (Z.mod_pos_bound b 8 ltac:(lia)).
  pose proof (Z.div_mod bi 8 ltac:(lia)). pose proof (Z.div_mod b 8 ltac:(lia)).
  case_decide as E; [|rewrite decide_False by congruence; done].
  unfold u8. rewrite Z.mod_pow2_bits_low, Z.lor_spec by lia. unfold bit_mask. rewrite Z.shiftl_spec by lia.
  case_decide as E2.
  - subst. rewrite Z.sub_diag, orb_true_r. done.
  - assert (Z.testbit 1 (bi mod 8 - b mod 8) = false) as ->.
    { destruct (decide (bi mod 8 < b mod 8)); [apply Z.testbit_neg_r; lia|]. apply Z.bits_above_log2; cbn; lia. }
    rewrite orb_false_r. unfold bit_byte. by rewrite E.
Qed.

Lemma length_set_bit b data : length (set_bit b data) = length data.
Proof. apply length_insert. Qed.

(** The scan finds the first free bit. *)
Lemma balloc_bits_some k : forall bi size data b, 0 <= bi -> bi <= b < bi + Z.of_nat k -> b < size -> bit_free b data = true ->
  exists c, balloc_bits k bi 0 size data = Some c /\ bi <= c <= b /\ bit_free c data = true.
Proof.
  induction k as [|k IH]; intros bi size data b H0 Hb Hs Hf; [lia|]. cbn [balloc_bits].
  rewrite (proj2 (Z.ltb_lt (0 + bi) size)) by lia. destruct (bit_free bi data) eqn:E.
  - exists bi. split; [done|]. split; [lia|done].
  - destruct (decide (b = bi)) as [->|]; [congruence|].
    destruct (IH (bi + 1) size data b) as (c & E' & Hc & Hcf); [lia|lia|done|done|]. exists c. split; [done|]. split; [lia|done].
Qed.

Section Tx.
Context {bld : Build} {dsk : Disk} {dok : DiskOk}.
Variables (pr : nat) (p : proc) (ls sz : Z) (sbk : superblock) (ds : Z).

Abbreviation bm := (sb_bmapstart sbk).

(** The file system lies on the disk [V]: the log, then the inodes, then the bitmap,
    then the data from [ds] on. *)
Record layout (V : gmap Z (list Z)) : Prop := {
  la_size : ds <= sb_size sbk <= BPB;
  la_bm : 0 <= bm < ds;
  la_home : forall n, bm <= n < sb_size sbk -> ~ in_log ls sz n;
  la_blocks : forall n, 0 <= n < sb_size sbk -> exists d, V !! n = Some d /\ length d = Z.to_nat BSIZE;
  la_meta : forall n, 0 <= n < ds -> bit_free n (blk V bm) = false
}.

Definition free (V : gmap Z (list Z)) (n : Z) : Prop := ds <= n < sb_size sbk /\ bit_free n (blk V bm) = true.

(** The free blocks. *)
Definition free_list (V : gmap Z (list Z)) : list Z :=
  filter (fun n => bit_free n (blk V bm) = true) (seqZ ds (sb_size sbk - ds)).

Lemma elem_of_free_list V n : n ∈ free_list V <-> free V n.
Proof. unfold free_list, free. rewrite list_elem_of_filter, elem_of_seqZ. split; intros [? ?]; split; try done; lia. Qed.

Lemma layout_bm V : layout V -> exists d, V !! bm = Some d /\ length d = Z.to_nat BSIZE /\ blk V bm = d.
Proof.
  intros Hl. destruct (la_blocks V Hl bm) as (d & E & Hd); [destruct (la_bm V Hl), (la_size V Hl); lia|].
  exists d. split; [done|]. split; [done|]. unfold blk. by rewrite E.
Qed.

(** The disk after block [n] was taken. *)
Definition taken (V : gmap Z (list Z)) (n : Z) : gmap Z (list Z) :=
  <[n := replicate (Z.to_nat BSIZE) 0]> (<[bm := set_bit n (blk V bm)]> V).

Lemma taken_bm V n : free V n -> layout V -> blk (taken V n) bm = set_bit n (blk V bm).
Proof.
  intros [Hn _] Hl. unfold blk, taken. rewrite lookup_insert_ne by (destruct (la_bm V Hl); lia).
  by rewrite lookup_insert_eq.
Qed.

Lemma taken_bit V n b : free V n -> layout V -> 0 <= b < sb_size sbk ->
  bit_free b (blk (taken V n) bm) = if decide (b = n) then false else bit_free b (blk V bm).
Proof.
  intros Hn Hl Hb. rewrite taken_bm by done. destruct (layout_bm V Hl) as (d & _ & Hd & ->).
  destruct Hn as [Hn _]. destruct (la_bm V Hl), (la_size V Hl). apply bit_free_set; [lia|lia|].
  rewrite Hd. apply Z2Nat.inj_lt; [apply Z.div_pos; lia|lia|]. apply Z.div_lt_upper_bound; lia.
Qed.

Lemma taken_free V n : free V n -> layout V -> forall b, free (taken V n) b <-> free V b /\ b <> n.
Proof.
  intros Hn Hl b. unfold free at 1 2. destruct (la_bm V Hl). split.
  - intros [Hb Hf]. rewrite (taken_bit V n b Hn Hl ltac:(lia)) in Hf. case_decide; [done|]. done.
  - intros [[Hb Hf] Hne]. split; [done|]. rewrite (taken_bit V n b Hn Hl ltac:(lia)). by rewrite decide_False.
Qed.

Lemma taken_layout V n : free V n -> layout V -> layout (taken V n).
Proof.
  intros Hn Hl. pose proof Hn as [Hr _]. split; [apply Hl|apply Hl|apply Hl| |].
  - intros m Hm. unfold taken. destruct (decide (m = n)) as [->|]; [rewrite lookup_insert_eq|rewrite lookup_insert_ne by done].
    { eexists. split; [done|]. by rewrite length_replicate. }
    destruct (decide (m = bm)) as [->|]; [rewrite lookup_insert_eq|rewrite lookup_insert_ne by done; by apply Hl].
    eexists. split; [done|]. rewrite length_set_bit. by destruct (layout_bm V Hl) as (d & _ & Hd & ->).
  - intros m Hm. destruct (la_size V Hl). rewrite (taken_bit V n m Hn Hl ltac:(lia)). rewrite decide_False by lia. by apply Hl.
Qed.

Lemma taken_other V n m : m <> n -> m <> bm -> taken V n !! m = V !! m.
Proof. intros. unfold taken. by rewrite !lookup_insert_ne. Qed.

Lemma taken_zero V n : blk (taken V n) n = replicate (Z.to_nat BSIZE) 0.
Proof. unfold blk, taken. by rewrite lookup_insert_eq. Qed.

Lemma taken_count V n : free V n -> layout V -> length (free_list V) = S (length (free_list (taken V n))).
Proof.
  intros Hn Hl. assert (free_list V ≡ₚ n :: free_list (taken V n)) as ->; [|done].
  assert (forall W, NoDup (free_list W)) as Hnd by (intros W; apply NoDup_filter, NoDup_seqZ).
  apply NoDup_Permutation; [apply Hnd| |].
  - constructor; [|apply Hnd]. rewrite elem_of_free_list, (taken_free V n Hn Hl). naive_solver.
  - intros x. rewrite elem_of_cons, !elem_of_free_list, (taken_free V n Hn Hl).
    destruct (decide (x = n)) as [->|]; naive_solver.
Qed.

(** ** [balloc] *)

(** There is room for one more block in the log. *)
Definition room (B : list Z) : Prop := (length B < 29)%nat /\ Z.of_nat (length B) < sz - 1.

Lemma core_sb s s' : core s' = core s -> sb s' = sb s.
Proof. by intros [= ? ? ? ? ? ? ? ? ? ? ? ? ? ?]. Qed.

Lemma tx_sb s s' : tx_frame s s' -> sb s' = sb s.
Proof. intros F. apply core_sb, F. Qed.

(** Change a block that is held, log it and release it. *)
Lemma finish_tx s B H V i n d f :
  intx s pr p ls sz B (n :: H) V -> holds s p i n -> V !! n = Some d -> n ∉ H -> room B ->
  0 <= n < 2 ^ 31 -> ~ in_log ls sz n ->
  exists s', (bdata i f ;; log_write i ;; brelse i) s = Ok tt s' /\ tx_frame s s' /\ itable s' = itable s /\
    intx s' pr p ls sz (add_block n B) H (<[n := f d]> V) /\ (forall j m, j <> i -> holds s p j m -> holds s' p j m).
Proof.
  intros X1 Hh1 Hd Hn [Hr1 Hr2] Hrange Hlog.
  destruct (bset_tx s pr p ls sz B (n :: H) V i n f d X1 Hh1 Hd) as (s2 & E2 & F2 & T2 & X2 & K2).
  destruct (log_write_tx s2 pr p ls sz B (n :: H) _ i n X2 (K2 _ _ Hh1) ltac:(left) Hrange Hlog Hr1 Hr2)
    as (s3 & E3 & F3 & T3 & X3 & K3).
  destruct (brelse_tx s3 pr p ls sz _ H _ i n X3 Hn (K3 _ _ (K2 _ _ Hh1))) as (s4 & E4 & F4 & T4 & X4 & K4).
  { intros []. apply add_block_in. }
  exists s4. split; [unfold bdata; mstep E2; by mstep E3|].
  split; [by eapply tx_frame_trans; [|eapply tx_frame_trans]|]. split; [congruence|]. split; [done|]. auto.
Qed.

(** Change a block and log it. *)
Lemma write_tx s B H V n d f :
  intx s pr p ls sz B H V -> V !! n = Some d -> n ∉ H -> (length B + length H < 30)%nat -> room B ->
  0 <= n < 2 ^ 31 -> ~ in_log ls sz n ->
  exists i s1, bread ROOTDEV n s = Ok i s1 /\ tx_frame s s1 /\ itable s1 = itable s /\
    intx s1 pr p ls sz B (n :: H) V /\ holds s1 p i n /\ (forall j m, holds s p j m -> holds s1 p j m) /\
    exists s2, (bdata i f ;; log_write i ;; brelse i) s1 = Ok tt s2 /\ tx_frame s1 s2 /\ itable s2 = itable s1 /\
      intx s2 pr p ls sz (add_block n B) H (<[n := f d]> V) /\ (forall j m, j <> i -> holds s1 p j m -> holds s2 p j m).
Proof.
  intros Hix Hd Hn Hlen Hr Hrange Hlog.
  destruct (bread_tx s pr p ls sz B H V n d Hix Hd Hn Hlen) as (i & s1 & E1 & F1 & T1 & X1 & Hh1 & K1).
  exists i, s1. repeat (split; [done|]). by eapply finish_tx.
Qed.

Lemma bzero_tx s B H V n d :
  intx s pr p ls sz B H V -> V !! n = Some d -> n ∉ H -> (length B + length H < 30)%nat -> room B ->
  0 <= n < 2 ^ 31 -> ~ in_log ls sz n ->
  exists s', bzero ROOTDEV n s = Ok tt s' /\ tx_frame s s' /\ itable s' = itable s /\
    intx s' pr p ls sz (add_block n B) H (<[n := replicate (Z.to_nat BSIZE) 0]> V) /\
    (forall j m, m <> n -> holds s p j m -> holds s' p j m).
Proof.
  intros Hix Hd Hn Hlen Hr Hrange Hlog.
  destruct (write_tx s B H V n d (fun _ => replicate (Z.to_nat BSIZE) 0) Hix Hd Hn Hlen Hr Hrange Hlog)
    as (i & s1 & E1 & F1 & T1 & X1 & Hh1 & K1 & s2 & E2 & F2 & T2 & X2 & K2).
  exists s2. split; [unfold bzero; rewrite u32_small by lia; by mstep E1|].
  split; [by eapply tx_frame_trans|]. split; [congruence|]. split; [done|].
  intros j m Hm Hj. apply K2; [|by apply K1]. intros ->. destruct Hh1 as (_ & b & Hb & _ & Hbn & _).
  destruct (K1 _ _ Hj) as (_ & b' & Hb' & _ & Hbn' & _). congruence.
Qed.

(** [balloc] takes a free block and zeroes it. *)
Lemma balloc_tx s B H V f :
  intx s pr p ls sz B H V -> sb s = sbk -> layout V -> free V f -> (length H <= 1)%nat ->
  (forall n, n ∈ H -> ~ free V n /\ n <> bm) -> room (add_block bm B) ->
  exists n s', balloc ROOTDEV s = Ok n s' /\ free V n /\ tx_frame s s' /\ itable s' = itable s /\
    intx s' pr p ls sz (add_block n (add_block bm B)) H (taken V n) /\
    (forall j m, m ∈ H -> holds s p j m -> holds s' p j m).
Proof.
  intros Hix Hsb Hl Hf HH Hheld Hroom. pose proof (la_size V Hl) as Hsz. pose proof (la_bm V Hl) as Hbm.
  destruct (layout_bm V Hl) as (d & Ed & Hd & Eb). pose proof Hf as [Hfr Hfree]. rewrite Eb in Hfree.
  pose proof (length_add_block bm B) as Hab. assert (length B <= length (add_block bm B))%nat as Hle.
  { unfold add_block. case_decide; [lia|rewrite length_app; lia]. }
  destruct Hroom as [Hr1 Hr2]. assert (room B) as HrB by (split; lia).
  destruct (balloc_bits_some (Z.to_nat BPB) 0 (sb_size sbk) d f) as (n & En & Hn & Hnf); [lia|lia|lia|done|].
  assert (free V n) as HFn.
  { split; [|by rewrite Eb]. destruct (decide (n < ds)) as [Hlt|]; [|lia].
    pose proof (la_meta V Hl n ltac:(lia)) as Hm. rewrite Eb in Hm. congruence. }
  assert ((bm ∉ H) /\ (n ∉ H)) as [Hb1 Hb2] by (split; intros Hin; destruct (Hheld _ Hin); done).
  destruct (write_tx s B H V bm d (set_bit n) Hix Ed Hb1 ltac:(lia) HrB ltac:(lia) ltac:(apply Hl; lia))
    as (i & s1 & E1 & F1 & T1 & X1 & Hh1 & K1 & s2 & E2 & F2 & T2 & X2 & K2).
  destruct (buf_at_tx s1 pr p ls sz B (bm :: H) V i bm d X1 Hh1 Ed) as (b & Ebuf & Hbd & _).
  destruct (la_blocks V Hl n ltac:(destruct HFn; lia)) as (dn & Edn & _).
  destruct (bzero_tx s2 (add_block bm B) H _ n dn X2) as (s3 & E3 & F3 & T3 & X3 & K3); try done.
  { rewrite lookup_insert_ne; [done|]. destruct HFn. lia. }
  { lia. }
  { destruct HFn. lia. }
  { apply Hl. destruct HFn. lia. }
  exists n, s3. split; [|split; [done|split; [by eapply tx_frame_trans; [|eapply tx_frame_trans]|split; [congruence|split]]]].
  - unfold balloc. erewrite bind_ok by reflexivity. rewrite Hsb.
    destruct (Z.to_nat (sb_size sbk / BPB + 1)) as [|k] eqn:Ek.
    { pose proof (Z.div_pos (sb_size sbk) BPB). lia. }
    cbn [balloc_loop]. erewrite bind_ok by reflexivity. rewrite Hsb, (proj2 (Z.ltb_lt 0 (sb_size sbk))) by lia.
    assert (BBLOCK 0 sbk = bm) as -> by (unfold BBLOCK; rewrite Z.div_0_l, Z.add_0_l by lia; apply u32_small; lia).
    mstep E1. mstep Ebuf. rewrite Hbd, En. rewrite Z.add_0_l.
    rewrite (seq3_ok _ _ _ _ _ _ _ E2). by mstep E3.
  - unfold taken. by rewrite Eb.
  - intros j m Hm Hj. apply K3; [by intros ->|]. apply K2; [|by apply K1].
    intros ->. destruct Hh1 as (_ & b' & Hb' & _ & Hbn & _). destruct (K1 _ _ Hj) as (_ & b'' & Hb'' & _ & Hbn' & _). congruence.
Qed.
End Tx.
