(* ===== verification/FsMap.v ===== *)
(** * The block map of a file

    The blocks of a file are listed in its inode and in its indirect block.  [bmap]
    returns the address of a block of the file, and allocates it, and the indirect
    block, if there is none yet: the other addresses stay, and no block of another file
    is touched. *)

From stdpp Require Import gmap strings list fin_maps.
From S2P Require Import Prelude Layout State Sched Block Bio Log LogCommit LogTx Fs FsBits.

(** ** Addresses *)

Definition addr_of (addrs : list Z) (k : nat) : Z := default 0 (addrs !! k).

(** The address of block [bn] of the file, 0 if it has none. *)
Definition baddr (V : gmap Z (list Z)) (addrs : list Z) (bn : Z) : Z :=
  if bn <? NDIRECT then addr_of addrs (Z.to_nat bn)
  else if addr_of addrs 12 =? 0 then 0
  else get32 (4 * Z.to_nat (bn - NDIRECT)) (blk V (addr_of addrs 12)).

Lemma get32_range off l : all_bytes l -> 0 <= get32 off l < 2 ^ 32.
Proof.
  intros Hl. unfold get32, bytes_at. pose proof (le_val_range (take 4 (drop off l)) (Forall_take _ _ _ (Forall_drop _ _ _ Hl))) as Hr.
  assert (length (take 4 (drop off l)) <= 4)%nat by (rewrite length_take; lia).
  assert (256 ^ Z.of_nat (length (take 4 (drop off l))) <= 256 ^ 4) by (apply Z.pow_le_mono_r; lia). lia.
Qed.

Lemma le_val_zeros k : le_val (replicate k 0) = 0.
Proof. induction k as [|k IH]; cbn; [done|]. rewrite IH. done. Qed.

Lemma get32_zeros off k : get32 off (replicate k 0) = 0.
Proof.
  unfold get32, bytes_at. rewrite drop_replicate, take_replicate. apply le_val_zeros.
Qed.

Lemma addr_of_insert addrs k j a : (j < length addrs)%nat ->
  addr_of (<[j := a]> addrs) k = if decide (k = j) then a else addr_of addrs k.
Proof.
  intros Hj. unfold addr_of. case_decide as E.
  - subst. by rewrite list_lookup_insert_eq.
  - by rewrite list_lookup_insert_ne.
Qed.

Lemma blk_insert V n d : blk (<[n := d]> V) n = d.
Proof. unfold blk. by rewrite lookup_insert_eq. Qed.

Lemma blk_insert_ne V n m d : m <> n -> blk (<[n := d]> V) m = blk V m.
Proof. intros. unfold blk. by rewrite lookup_insert_ne. Qed.

Lemma blk_some V n d : V !! n = Some d -> blk V n = d.
Proof. unfold blk. by intros ->. Qed.

Section Map.
Variables (ls sz : Z) (sbk : superblock) (ds : Z).
Abbreviation bm := (sb_bmapstart sbk).
Abbreviation layout := (layout ls sz sbk ds).
Abbreviation free := (free sbk ds).
Abbreviation taken := (taken sbk).

(** [n] is a data block in use. *)
Definition used (V : gmap Z (list Z)) (n : Z) : Prop := ds <= n < sb_size sbk /\ bit_free n (blk V bm) = false.

(** The map of a file: its blocks are in use and all different. *)
Record mapped (V : gmap Z (list Z)) (addrs : list Z) : Prop := {
  mp_len : length addrs = 13%nat;
  mp_used : forall bn, 0 <= bn < MAXFILE -> baddr V addrs bn = 0 \/ used V (baddr V addrs bn);
  mp_ind : addr_of addrs 12 = 0 \/ used V (addr_of addrs 12);
  mp_inj : forall bn bn', 0 <= bn < MAXFILE -> 0 <= bn' < MAXFILE -> bn <> bn' ->
    baddr V addrs bn <> 0 -> baddr V addrs bn <> baddr V addrs bn';
  mp_inj_ind : forall bn, 0 <= bn < MAXFILE -> baddr V addrs bn <> 0 -> baddr V addrs bn <> addr_of addrs 12
}.

(** The map that results when block [bn] gets address [a], and the rest is as before. *)
Definition extends (V V' : gmap Z (list Z)) (addrs addrs' : list Z) (bn a : Z) : Prop :=
  baddr V' addrs' bn = a /\ forall bn', 0 <= bn' < MAXFILE -> bn' <> bn -> baddr V' addrs' bn' = baddr V addrs bn'.

Lemma used_taken V n m : free V n -> layout V -> used V m -> used (taken V n) m.
Proof.
  intros Hn Hl [Hm Hb]. split; [done|]. destruct (la_bm _ _ _ _ _ Hl). rewrite (taken_bit ls sz sbk ds V n m Hn Hl) by lia.
  by case_decide.
Qed.

Lemma free_used V n : free V n -> layout V -> used (taken V n) n.
Proof.
  intros Hn Hl. pose proof Hn as [Hr _]. split; [done|]. destruct (la_bm _ _ _ _ _ Hl).
  rewrite (taken_bit ls sz sbk ds V n n Hn Hl) by lia. by rewrite decide_True.
Qed.

Lemma free_not_used V n : free V n -> ~ used V n.
Proof. intros [_ Hf] [_ Hu]. congruence. Qed.

Lemma layout_pos V n : layout V -> ds <= n -> n <> 0 /\ n <> bm.
Proof. intros Hl Hn. destruct (la_bm _ _ _ _ _ Hl). lia. Qed.

(** Data blocks in use keep their contents. *)
Lemma blk_taken V n m : layout V -> free V n -> used V m -> blk (taken V n) m = blk V m.
Proof.
  intros Hl Hn Hm. unfold blk. rewrite taken_other; [done| |].
  - intros ->. by apply (free_not_used V n).
  - destruct Hm as [Hm _]. by destruct (layout_pos V m Hl ltac:(lia)).
Qed.

(** Addresses do not change when another block is taken. *)
Lemma baddr_taken V n addrs bn : layout V -> free V n -> mapped V addrs -> baddr (taken V n) addrs bn = baddr V addrs bn.
Proof.
  intros Hl Hn Hm. unfold baddr. destruct (bn <? NDIRECT); [done|].
  destruct (Z.eqb_spec (addr_of addrs 12) 0) as [E|E]; [done|]. destruct (mp_ind V addrs Hm) as [|Hu]; [done|].
  by rewrite (blk_taken V n _ Hl Hn Hu).
Qed.

(** Putting a new address in an empty place of the map. *)
Lemma mapped_extend V V' addrs addrs' bn n :
  layout V -> mapped V addrs -> free V n -> 0 <= bn < MAXFILE -> baddr V addrs bn = 0 ->
  length addrs' = 13%nat -> addr_of addrs' 12 = addr_of addrs 12 -> extends V V' addrs addrs' bn n ->
  (forall m, used V m -> used V' m) -> used V' n -> mapped V' addrs'.
Proof.
  intros Hl Hm Hn Hbn H0 Hlen Hind [E1 E2] Hu Hun.
  assert (forall bn', 0 <= bn' < MAXFILE -> baddr V addrs bn' <> n) as Hfresh.
  { intros bn' Hb' Eb. destruct (mp_used V addrs Hm bn' Hb') as [E|E].
    - destruct Hn as [Hr _]. destruct (layout_pos V n Hl ltac:(lia)). congruence.
    - rewrite Eb in E. by apply (free_not_used V n). }
  assert (addr_of addrs 12 <> n) as Hfi.
  { intros Eb. destruct (mp_ind V addrs Hm) as [E|E].
    - destruct Hn as [Hr _]. destruct (layout_pos V n Hl ltac:(lia)). congruence.
    - rewrite Eb in E. by apply (free_not_used V n). }
  split; [done| | | |].
  - intros b Hb. destruct (decide (b = bn)) as [->|Hne]; [right; by rewrite E1|]. rewrite E2 by done.
    destruct (mp_used V addrs Hm b Hb); [by left|right; auto].
  - rewrite Hind. destruct (mp_ind V addrs Hm); [by left|right; auto].
  - intros b b' Hb Hb' Hne. destruct (decide (b = bn)) as [->|Hn1], (decide (b' = bn)) as [->|Hn2];
      rewrite ?E1, ?(E2 b), ?(E2 b') by done; [done| | |].
    + intros _ Eq. by apply (Hfresh b').
    + intros _. by apply Hfresh.
    + by apply Hm.
  - intros b Hb. rewrite Hind. destruct (decide (b = bn)) as [->|Hn1]; [rewrite E1; congruence|]. rewrite E2 by done. by apply Hm.
Qed.

(** A direct block. *)
Lemma extend_direct V addrs bn n : layout V -> mapped V addrs -> free V n -> 0 <= bn < NDIRECT ->
  extends V (taken V n) addrs (<[Z.to_nat bn := n]> addrs) bn n.
Proof.
  intros Hl Hm Hn Hbn. pose proof (mp_len V addrs Hm) as Hlen. split.
  - unfold baddr. rewrite (proj2 (Z.ltb_lt bn NDIRECT)) by lia. rewrite addr_of_insert by lia. by rewrite decide_True.
  - intros bn' Hb' Hne. rewrite <- (baddr_taken V n addrs bn' Hl Hn Hm). unfold baddr.
    destruct (Z.ltb_spec bn' NDIRECT); rewrite addr_of_insert by lia; rewrite decide_False by lia; done.
Qed.

(** The indirect block. *)
Lemma extend_ind V addrs n : layout V -> mapped V addrs -> free V n -> addr_of addrs 12 = 0 ->
  (forall bn, 0 <= bn < MAXFILE -> baddr (taken V n) (<[12%nat := n]> addrs) bn = baddr V addrs bn) /\
  mapped (taken V n) (<[12%nat := n]> addrs).
Proof.
  intros Hl Hm Hn H0. pose proof (mp_len V addrs Hm) as Hlen. pose proof Hn as [Hr _].
  destruct (layout_pos V n Hl ltac:(lia)) as [Hn0 _].
  assert (forall bn, 0 <= bn < MAXFILE -> baddr (taken V n) (<[12%nat := n]> addrs) bn = baddr V addrs bn) as E.
  { intros bn Hbn. unfold baddr. destruct (Z.ltb_spec bn NDIRECT); rewrite addr_of_insert by lia.
    - by rewrite decide_False by lia.
    - rewrite decide_True by done. rewrite (proj2 (Z.eqb_neq n 0)) by done. rewrite H0, taken_zero. cbn [Z.eqb].
      apply get32_zeros. }
  split; [done|]. assert (forall bn, 0 <= bn < MAXFILE -> baddr V addrs bn <> n) as Hfresh.
  { intros bn Hbn Eb. destruct (mp_used V addrs Hm bn Hbn) as [E'|E']; [congruence|].
    rewrite Eb in E'. by apply (free_not_used V n). }
  split; [by rewrite length_insert| | | |].
  - intros bn Hbn. rewrite E by done. destruct (mp_used V addrs Hm bn Hbn); [by left|right; by apply used_taken].
  - right. rewrite addr_of_insert, decide_True by (done || lia). by apply free_used.
  - intros bn bn' Hb Hb' Hne. rewrite !E by done. by apply Hm.
  - intros bn Hbn. rewrite E, addr_of_insert, decide_True by (done || lia). intros _. by apply Hfresh.
Qed.

(** A block listed in the indirect block. *)
Lemma extend_indirect V addrs bn n d : layout V -> mapped V addrs -> free V n -> NDIRECT <= bn < MAXFILE ->
  addr_of addrs 12 <> 0 -> V !! addr_of addrs 12 = Some d -> length d = Z.to_nat BSIZE ->
  extends V (<[addr_of addrs 12 := put32 (4 * Z.to_nat (bn - NDIRECT)) n d]> (taken V n)) addrs addrs bn n.
Proof.
  intros Hl Hm Hn Hbn Hi Hd Hlen. pose proof Hn as [Hr _]. destruct (la_size _ _ _ _ _ Hl), (la_bm _ _ _ _ _ Hl).
  split.
  - unfold baddr. rewrite (proj2 (Z.ltb_ge bn NDIRECT)) by lia. rewrite (proj2 (Z.eqb_neq _ 0)) by done.
    rewrite blk_insert, get32_put32_eq by lia. apply u32_small. lia.
  - intros bn' Hb' Hne. unfold baddr. destruct (Z.ltb_spec bn' NDIRECT); [done|].
    rewrite (proj2 (Z.eqb_neq _ 0)) by done. rewrite blk_insert, (blk_some _ _ _ Hd). apply get32_put32_ne; lia.
Qed.
(** ** Finding a block of a file *)

Lemma layout_used V m : layout V -> used V m -> exists d, V !! m = Some d /\ length d = Z.to_nat BSIZE /\ 0 <= m < 2 ^ 31 /\ ~ in_log ls sz m /\ m <> bm /\ m <> 0.
Proof.
  intros Hl [Hm _]. destruct (la_size _ _ _ _ _ Hl), (la_bm _ _ _ _ _ Hl).
  destruct (la_blocks _ _ _ _ _ Hl m ltac:(lia)) as (d & E & Hd). exists d. repeat (split; [done || lia|]).
  split; [apply Hl; lia|lia].
Qed.

(** What the other files see of a change to this one. *)
Record others (V V' : gmap Z (list Z)) (addrs : list Z) : Prop := {
  ot_keep : forall m, used V m -> m <> addr_of addrs 12 -> V' !! m = V !! m;
  ot_meta : forall m, ~ (ds <= m < sb_size sbk) -> m <> bm -> V' !! m = V !! m;
  ot_used : forall m, used V m -> used V' m
}.

Lemma others_refl V addrs : others V V addrs.
Proof. by split. Qed.

Lemma others_taken V n addrs : layout V -> free V n -> others V (taken V n) addrs.
Proof.
  intros Hl Hn. pose proof Hn as [Hr _]. split.
  - intros m Hm _. apply taken_other; [intros ->; by apply (free_not_used V n)|].
    destruct Hm as [Hm _]. by destruct (layout_pos V m Hl ltac:(lia)).
  - intros m Hm Hmb. apply taken_other; [intros ->; lia|done].
  - intros m. by apply used_taken.
Qed.

Lemma layout_insert V m d : layout V -> used V m -> length d = Z.to_nat BSIZE -> layout (<[m := d]> V).
Proof.
  intros Hl Hm Hd. destruct (layout_used V m Hl Hm) as (_ & _ & _ & _ & _ & Hmb & _).
  split; [apply Hl|apply Hl|apply Hl| |].
  - intros n Hn. destruct (decide (n = m)) as [->|]; [rewrite lookup_insert_eq; eauto|].
    rewrite lookup_insert_ne by done. by apply Hl.
  - intros n Hn. rewrite blk_insert_ne by done. by apply Hl.
Qed.

Lemma used_insert V m d n : m <> bm -> used (<[m := d]> V) n <-> used V n.
Proof. intros Hm. unfold used. by rewrite blk_insert_ne. Qed.

Lemma free_list_insert V m d : m <> bm -> FsBits.free_list sbk ds (<[m := d]> V) = FsBits.free_list sbk ds V.
Proof. intros Hm. unfold FsBits.free_list. by rewrite blk_insert_ne. Qed.

(** Block [bn] of the file has the address [a] after a change of the disk and of the
    inode's addresses. *)
Record remap (V V' : gmap Z (list Z)) (addrs addrs' : list Z) (bn a : Z) : Prop := {
  rm_layout : layout V';
  rm_mapped : mapped V' addrs';
  rm_ext : extends V V' addrs addrs' bn a;
  rm_nonzero : a <> 0 /\ used V' a;
  rm_new : baddr V addrs bn = 0 -> blk V' a = replicate (Z.to_nat BSIZE) 0 /\ ~ used V a;
  rm_old : baddr V addrs bn <> 0 -> a = baddr V addrs bn;
  rm_ind : addr_of addrs' 12 = addr_of addrs 12 \/ ~ used V (addr_of addrs' 12);
  rm_others : others V V' addrs
}.

Lemma remap_same V addrs bn : layout V -> mapped V addrs -> 0 <= bn < MAXFILE -> baddr V addrs bn <> 0 ->
  remap V V addrs addrs bn (baddr V addrs bn).
Proof.
  intros Hl Hm Hbn Ha. split; try done; [|by left]. split; [done|]. by destruct (mp_used V addrs Hm bn Hbn).
Qed.

Lemma remap_direct V addrs bn n : layout V -> mapped V addrs -> free V n -> 0 <= bn < NDIRECT -> addr_of addrs (Z.to_nat bn) = 0 ->
  remap V (taken V n) addrs (<[Z.to_nat bn := n]> addrs) bn n.
Proof.
  intros Hl Hm Hn Hbn E0. pose proof (mp_len V addrs Hm) as Hlen. pose proof Hn as [Hr _].
  destruct (layout_pos V n Hl ltac:(lia)) as [Hn0 _].
  assert (baddr V addrs bn = 0) as Eb by (unfold baddr; by rewrite (proj2 (Z.ltb_lt bn NDIRECT)) by lia).
  assert (addr_of (<[Z.to_nat bn := n]> addrs) 12 = addr_of addrs 12) as E12 by (rewrite addr_of_insert by lia; by rewrite decide_False by lia).
  pose proof (extend_direct V addrs bn n Hl Hm Hn Hbn) as Hext. pose proof (free_used V n Hn Hl) as Hu.
  split; [by apply taken_layout| |done|done| |done|by left|by apply others_taken].
  - eapply (mapped_extend V _ addrs _ bn n); try done; [lia|by rewrite length_insert|]. intros m. by apply used_taken.
  - intros _. split; [apply taken_zero|by apply free_not_used].
Qed.

Lemma remap_entry V addrs bn n d : layout V -> mapped V addrs -> free V n -> NDIRECT <= bn < MAXFILE ->
  let ind := addr_of addrs 12 in let k := Z.to_nat (bn - NDIRECT) in
  ind <> 0 -> V !! ind = Some d -> get32 (4 * k) d = 0 ->
  remap V (<[ind := put32 (4 * k) n d]> (taken V n)) addrs addrs bn n.
Proof.
  intros Hl Hm Hn Hbn ind k Hi Hd Hz. destruct (mp_ind V addrs Hm) as [|Hui]; [done|]. fold ind in Hui.
  destruct (layout_used V ind Hl Hui) as (d' & Hd' & Hdl & Hrng & Hlog & Hnb & _). assert (d' = d) as -> by congruence.
  pose proof Hn as [Hr _]. destruct (layout_pos V n Hl ltac:(lia)) as [Hn0 _].
  assert (ind <> n) as Hin by (intros E; rewrite E in Hui; by apply (free_not_used V n)).
  pose proof (extend_indirect V addrs bn n d Hl Hm Hn Hbn Hi Hd Hdl) as Hext. fold ind k in Hext.
  assert (baddr V addrs bn = 0) as Hb0.
  { unfold baddr. rewrite (proj2 (Z.ltb_ge bn NDIRECT)) by lia. fold ind. rewrite (proj2 (Z.eqb_neq ind 0)) by done. by rewrite (blk_some V ind d Hd). }
  assert (used (<[ind := put32 (4 * k) n d]> (taken V n)) n) as Hun by (apply used_insert; [done|]; by apply free_used).
  assert (forall m, used V m -> used (<[ind := put32 (4 * k) n d]> (taken V n)) m) as Hum by (intros m Hm'; apply used_insert; [done|]; by apply used_taken).
  split; [| |done|done| |done|by left|].
  - apply layout_insert; [by apply taken_layout|by apply used_taken|]. rewrite length_put32 by (subst k; lia). done.
  - apply (mapped_extend V _ addrs _ bn n); try done; [lia|apply Hm].
  - intros _. rewrite blk_insert_ne by done. split; [apply taken_zero|by apply free_not_used].
  - destruct (others_taken V n addrs Hl Hn) as [O1 O2 O3]. split; [| |done].
    + intros m Hm' Hmi. rewrite lookup_insert_ne by done. by apply O1.
    + intros m Hm' Hmb. destruct Hui as [Hui _]. rewrite lookup_insert_ne by lia. by apply O2.
Qed.

(** The indirect block was allocated first. *)
Lemma remap_new_ind V V' addrs addrs' bn a n : layout V -> mapped V addrs -> free V n -> addr_of addrs 12 = 0 -> 0 <= bn < MAXFILE ->
  remap (taken V n) V' (<[12%nat := n]> addrs) addrs' bn a -> addr_of addrs' 12 = n -> remap V V' addrs addrs' bn a.
Proof.
  intros Hl Hm Hn E0 Hbn [M1 M2 [M5a M5b] M6 M7 M7a M7b [O1 O2 O3]] E12. pose proof (mp_len V addrs Hm) as Hlen.
  destruct (extend_ind V addrs n Hl Hm Hn E0) as [Hsame _]. destruct (others_taken V n addrs Hl Hn) as [P1 P2 P3].
  assert (addr_of (<[12%nat := n]> addrs) 12 = n) as Ei by (rewrite addr_of_insert by lia; by rewrite decide_True).
  split; try done.
  - split; [done|]. intros bn' Hb' Hne. rewrite M5b by done. by apply Hsame.
  - intros Hz. rewrite <- (Hsame bn) in Hz by lia. destruct (M7 Hz) as [Z1 Z2]. split; [done|]. intros Hu. by apply Z2, P3.
  - intros Hz. rewrite <- (Hsame bn) in Hz |- * by lia. by apply M7a.
  - right. rewrite E12. by apply free_not_used.
  - split; [| |auto].
    + intros m Hm' _. assert (m <> n) by (intros ->; by apply (free_not_used V n)).
      rewrite O1 by (auto || congruence). apply P1; [done|]. destruct (layout_used V m Hl Hm'). naive_solver.
    + intros m Hm' Hmb. rewrite O2 by done. by apply P2.
Qed.
End Map.

(** ** What a transaction may still log

    The blocks that are logged, and the bitmap and the indirect block if they are not
    yet: an upper bound that grows by one with each data block. *)

Definition cost (bm : Z) (B : list Z) (addrs : list Z) : nat :=
  length B + (if decide (bm ∈ B) then 0 else 1) +
  (if decide (addr_of addrs 12 <> 0 /\ addr_of addrs 12 ∈ B) then 0 else 1).

Lemma elem_of_add_block n m B : m ∈ add_block n B <-> m = n \/ m ∈ B.
Proof. unfold add_block. case_decide; rewrite ?elem_of_app, ?list_elem_of_singleton; naive_solver. Qed.

Lemma add_block_same n B : n ∈ B -> add_block n B = B.
Proof. intros H. unfold add_block. by rewrite decide_True. Qed.

Lemma cost_length bm B addrs : (length B <= cost bm B addrs)%nat.
Proof. unfold cost. lia. Qed.

Lemma cost_bound bm B addrs : (cost bm B addrs <= length B + 2)%nat.
Proof. unfold cost. repeat case_decide; lia. Qed.

Lemma cost_add bm B addrs n : (cost bm (add_block n B) addrs <= cost bm B addrs + 1)%nat.
Proof.
  unfold cost. pose proof (length_add_block n B).
  repeat case_decide; try lia; exfalso; rewrite elem_of_add_block in *; tauto.
Qed.

Lemma cost_bm bm B addrs : (cost bm (add_block bm B) addrs <= cost bm B addrs)%nat.
Proof.
  destruct (decide (bm ∈ B)) as [Hb|Hb]; [by rewrite (add_block_same _ _ Hb)|].
  unfold cost. pose proof (length_add_block bm B). rewrite (decide_True (P := bm ∈ add_block bm B)) by apply add_block_in.
  repeat case_decide; try lia; exfalso; rewrite elem_of_add_block in *; tauto.
Qed.

Lemma cost_ind bm B addrs : addr_of addrs 12 <> 0 -> (cost bm (add_block (addr_of addrs 12) B) addrs <= cost bm B addrs)%nat.
Proof.
  intros H0. destruct (decide (addr_of addrs 12 ∈ B)) as [Hb|Hb]; [rewrite (add_block_same _ _ Hb); lia|].
  unfold cost. pose proof (length_add_block (addr_of addrs 12) B).
  rewrite (decide_True (P := addr_of addrs 12 <> 0 /\ _)) by (split; [done|apply add_block_in]).
  rewrite (decide_False (P := addr_of addrs 12 <> 0 /\ _)) by tauto.
  repeat case_decide; try lia; exfalso; rewrite elem_of_add_block in *; tauto.
Qed.

(** A new indirect block pays for itself. *)
Lemma cost_new_ind bm B addrs n : length addrs = 13%nat -> addr_of addrs 12 = 0 -> n <> 0 ->
  (cost bm (add_block n (add_block bm B)) (<[12%nat := n]> addrs) <= cost bm B addrs)%nat.
Proof.
  intros Hlen H0 Hn. pose proof (cost_bm bm B addrs) as Hb. pose proof (length_add_block n (add_block bm B)) as Hl.
  revert Hb. unfold cost. assert (addr_of (<[12%nat := n]> addrs) 12 = n) as -> by (rewrite addr_of_insert by lia; by rewrite decide_True).
  rewrite (decide_True (P := n <> 0 /\ _)) by (split; [done|apply add_block_in]).
  rewrite (decide_True (P := bm ∈ add_block n (add_block bm B))) by (apply elem_of_add_block; right; apply add_block_in).
  rewrite (decide_True (P := bm ∈ add_block bm B)) by apply add_block_in. rewrite !(decide_False (P := addr_of addrs 12 <> 0 /\ _)) by tauto.
  case_decide; lia.
Qed.
