(* ===== verification/FsContent.v ===== *)
(** * The contents of files

    What the blocks of a file hold, and how it changes when a block of the file is found,
    a block is written, or a block that is no file's changes. *)

From stdpp Require Import gmap strings list fin_maps.
From S2P Require Import Prelude Layout State Block Bio Log LogCommit LogTx Fs Dinode FsBits FsMap.

(** ** Contents *)

(** Byte [k] of a file. *)
Definition byte_of (V : gmap Z (list Z)) (addrs : list Z) (k : Z) : option Z :=
  blk V (baddr V addrs (k / BSIZE)) !! Z.to_nat (k mod BSIZE).

(** The file's blocks begin with [l]. *)
Definition content (V : gmap Z (list Z)) (addrs : list Z) (l : list Z) : Prop :=
  forall k, (k < length l)%nat ->
    baddr V addrs (Z.of_nat k / BSIZE) <> 0 /\ byte_of V addrs (Z.of_nat k) = l !! k.

(** [splice off data l] also when [data] ends beyond [l]. *)
Lemma length_splice_grow off data l : (off <= length l)%nat -> length (splice off data l) = Nat.max (length l) (off + length data).
Proof. intros. unfold splice. rewrite !length_app, length_take, length_drop. lia. Qed.

Lemma lookup_splice_grow off data l k : (off <= length l)%nat ->
  splice off data l !! k = if decide (off <= k < off + length data)%nat then data !! (k - off)%nat else l !! k.
Proof.
  intros Hoff. unfold splice. destruct (decide (k < off)%nat).
  - rewrite lookup_app_l by (rewrite length_take; lia). rewrite lookup_take_lt by done. by rewrite decide_False by lia.
  - rewrite lookup_app_r by (rewrite length_take; lia). rewrite length_take, Nat.min_l by lia. case_decide.
    + by rewrite lookup_app_l by lia.
    + rewrite lookup_app_r by lia. rewrite lookup_drop. f_equal. lia.
Qed.

(** Writing the first [m] bytes, then the rest. *)
Lemma splice_split off m data l : (off <= length l)%nat -> (m <= length data)%nat ->
  splice (off + m) (drop m data) (splice off (take m data) l) = splice off data l.
Proof.
  intros Hoff Hlen. assert (length (take m data) = m) as L1 by (rewrite length_take; lia).
  assert (length (drop m data) = (length data - m)%nat) as L2 by (rewrite length_drop; lia).
  apply list_eq. intros k. rewrite !lookup_splice_grow; [|done|done|rewrite length_splice_grow by done; lia].
  rewrite L1, L2. repeat case_decide; try lia; try done.
  - rewrite lookup_drop. f_equal. lia.
  - by rewrite lookup_take_lt by lia.
Qed.

(** The number of blocks that [n] bytes from [off] on lie in. *)
Definition nblocks (off n : Z) : nat := if n <=? 0 then 0 else Z.to_nat ((off + n - 1) / BSIZE - off / BSIZE + 1).

Lemma nblocks_step off n : 0 <= off -> 0 < n ->
  let m := Z.min n (BSIZE - off mod BSIZE) in
  0 < m /\ nblocks off n = S (nblocks (off + m) (n - m)).
Proof.
  intros Hoff Hn m. pose proof (Z.mod_pos_bound off BSIZE ltac:(lia)). pose proof (Z.div_mod off BSIZE ltac:(lia)).
  assert (0 < m) as Hm by (unfold m; lia). split; [done|]. unfold nblocks.
  rewrite (proj2 (Z.leb_gt n 0)) by lia. destruct (Z.leb_spec (n - m) 0) as [Hle|Hgt].
  - assert (m = n) as Em by (unfold m in *; lia). assert ((off + n - 1) / BSIZE = off / BSIZE) as ->; [|lia].
    symmetry. apply (Z.div_unique _ _ _ (off mod BSIZE + n - 1)); unfold m in Em; lia.
  - assert (m = BSIZE - off mod BSIZE) as Em by (unfold m in *; lia).
    assert ((off + m) / BSIZE = off / BSIZE + 1) as Ed by (symmetry; apply (Z.div_unique _ _ _ 0); lia).
    replace (off + m + (n - m) - 1) with (off + n - 1) by lia. rewrite Ed.
    assert (off / BSIZE + 1 <= (off + n - 1) / BSIZE) by (apply Z.div_le_lower_bound; lia). lia.
Qed.

Lemma nblocks_bound off n : 0 <= off -> 0 <= n -> (Z.of_nat (nblocks off n) <= n / BSIZE + 2).
Proof.
  intros Hoff Hn. unfold nblocks. pose proof (Z.div_pos n BSIZE Hn ltac:(lia)). destruct (Z.leb_spec n 0); [lia|].
  pose proof (Z.div_mod off BSIZE ltac:(lia)). pose proof (Z.mod_pos_bound off BSIZE ltac:(lia)).
  pose proof (Z.div_mod n BSIZE ltac:(lia)). pose proof (Z.mod_pos_bound n BSIZE ltac:(lia)).
  assert ((off + n - 1) / BSIZE < off / BSIZE + n / BSIZE + 2) by (apply Z.div_lt_upper_bound; lia). lia.
Qed.

Section Content.
Variables (ls sz : Z) (sbk : superblock) (ds : Z).

Abbreviation bm := (sb_bmapstart sbk).
Abbreviation layout := (layout ls sz sbk ds).
Abbreviation used := (used sbk ds).
Abbreviation mapped := (mapped sbk ds).
Abbreviation remap := (remap ls sz sbk ds).

(** A block of another file. *)
Definition foreign (V : gmap Z (list Z)) (addrs : list Z) (m : Z) : Prop :=
  used V m /\ m <> addr_of addrs 12 /\ forall bn, 0 <= bn < MAXFILE -> baddr V addrs bn <> m.

(** ** One block *)

Lemma div_range k : 0 <= k < MAXFILE * BSIZE -> 0 <= k / BSIZE < MAXFILE.
Proof. intros Hk. split; [apply Z.div_pos; lia|]. apply Z.div_lt_upper_bound; lia. Qed.

(** Finding a block keeps the contents and the other files. *)
Lemma remap_content V V' addrs addrs' bn a l : remap V V' addrs addrs' bn a -> mapped V addrs ->
  0 <= bn < MAXFILE -> Z.of_nat (length l) <= MAXFILE * BSIZE -> content V addrs l -> content V' addrs' l.
Proof.
  intros [_ _ [E1 E2] _ _ Hold _ Hot] Hm Hbn Hl Hc k Hk. destruct (Hc k Hk) as [Hz Hb].
  pose proof (div_range (Z.of_nat k) ltac:(lia)) as Hr.
  assert (baddr V' addrs' (Z.of_nat k / BSIZE) = baddr V addrs (Z.of_nat k / BSIZE)) as E.
  { destruct (decide (Z.of_nat k / BSIZE = bn)) as [Eb|Hne]; [|by apply E2]. rewrite Eb in *. rewrite E1. by apply Hold. }
  unfold byte_of in *. rewrite E. split; [done|]. rewrite <- Hb. f_equal. unfold blk. f_equal.
  destruct (mp_used _ _ _ _ Hm _ Hr) as [|Hu]; [done|]. apply (ot_keep _ _ _ _ _ Hot); [done|]. by apply Hm.
Qed.

Lemma remap_foreign V V' addrs addrs' bn a m : remap V V' addrs addrs' bn a -> 0 <= bn < MAXFILE ->
  foreign V addrs m -> foreign V' addrs' m /\ V' !! m = V !! m /\ m <> a.
Proof.
  intros [_ _ [E1 E2] _ Hnew Hold Hind [O1 O2 O3]] Hbn (Hu & Hi & Hf).
  assert (m <> a) as Ha.
  { intros ->. destruct (decide (baddr V addrs bn = 0)) as [Hz|Hz]; [by destruct (Hnew Hz) as [_ ?]|].
    apply (Hf bn Hbn). symmetry. by apply Hold. }
  split; [|split; [by apply O1|done]]. split; [auto|]. split.
  - destruct Hind as [->|Hn]; [done|]. intros ->. done.
  - intros bn' Hb'. destruct (decide (bn' = bn)) as [->|Hne]; [congruence|]. rewrite E2 by done. by apply Hf.
Qed.

(** Writing into a block of the file. *)
Section Update.
Variables (V : gmap Z (list Z)) (addrs : list Z) (bn : Z) (d d' : list Z).
Hypotheses (HV : layout V) (HM : mapped V addrs) (Hbn : 0 <= bn < MAXFILE) (Hnz : baddr V addrs bn <> 0)
  (Hd : V !! baddr V addrs bn = Some d) (Hd' : length d' = Z.to_nat BSIZE).
Abbreviation V' := (<[baddr V addrs bn := d']> V).

Lemma update_used : used V (baddr V addrs bn).
Proof. by destruct (mp_used _ _ _ _ HM bn Hbn). Qed.

Lemma update_bm : baddr V addrs bn <> bm.
Proof. destruct update_used as [Hr _]. by destruct (layout_pos ls sz sbk ds V (baddr V addrs bn) HV ltac:(lia)). Qed.

Lemma update_baddr b : baddr V' addrs b = baddr V addrs b.
Proof.
  unfold baddr at 1 3. destruct (b <? NDIRECT); [done|]. destruct (addr_of addrs 12 =? 0); [done|].
  rewrite blk_insert_ne; [done|]. symmetry. by apply HM.
Qed.

Lemma update_layout : layout V'.
Proof. apply layout_insert; [done|apply update_used|done]. Qed.

Lemma update_mapped : mapped V' addrs.
Proof.
  assert (forall m, used V' m <-> used V m) as Hu by (intros m; apply used_insert, update_bm).
  destruct HM as [M1 M2 M3 M4 M5]. split; [done| | | |].
  - intros b Hb. rewrite update_baddr, Hu. auto.
  - by rewrite Hu.
  - intros b b' Hb Hb'. rewrite !update_baddr. auto.
  - intros b Hb. rewrite update_baddr. auto.
Qed.

Lemma update_foreign m : foreign V addrs m -> foreign V' addrs m /\ V' !! m = V !! m.
Proof.
  intros (F1 & F2 & F3). split; [split; [|split; [done|]]|].
  - by apply used_insert; [apply update_bm|].
  - intros b Hb. rewrite update_baddr. auto.
  - rewrite lookup_insert_ne; [done|]. auto.
Qed.
End Update.

Lemma update_content V addrs off bytes l d :
  mapped V addrs -> (off + length bytes <= Z.to_nat (MAXFILE * BSIZE))%nat -> Z.of_nat (length l) <= MAXFILE * BSIZE ->
  let bn := Z.of_nat off / BSIZE in let o := Z.to_nat (Z.of_nat off mod BSIZE) in
  baddr V addrs bn <> 0 -> V !! baddr V addrs bn = Some d -> length d = Z.to_nat BSIZE ->
  (0 < length bytes)%nat -> (o + length bytes <= Z.to_nat BSIZE)%nat -> (off <= length l)%nat -> content V addrs l ->
  content (<[baddr V addrs bn := splice o bytes d]> V) addrs (splice off bytes l).
Proof.
  intros HM Hmax Hlm bn o Hnz Hd Hlen Hpos Hfit Hoff Hc k Hk. rewrite length_splice_grow in Hk by done.
  pose proof (Z.div_mod (Z.of_nat off) BSIZE ltac:(lia)) as Eo. pose proof (Z.mod_pos_bound (Z.of_nat off) BSIZE ltac:(lia)) as Bo.
  fold bn in Eo. assert (0 <= bn < MAXFILE) as Hbn by (apply div_range; lia).
  set (bk := Z.of_nat k / BSIZE).
  pose proof (Z.div_mod (Z.of_nat k) BSIZE ltac:(lia)) as Ek. pose proof (Z.mod_pos_bound (Z.of_nat k) BSIZE ltac:(lia)) as Bk.
  fold bk in Ek. assert (0 <= bk < MAXFILE) as Hbk by (apply div_range; lia).
  unfold byte_of. rewrite !update_baddr by done. fold bk. rewrite lookup_splice_grow by done.
  destruct (decide (bk = bn)) as [Eb|Hne].
  - rewrite Eb. split; [done|]. rewrite blk_insert, lookup_splice by lia.
    destruct (decide (off <= k < off + length bytes)%nat), (decide (o <= _ < o + length bytes)%nat); try (unfold o in *; lia).
    + f_equal. unfold o. lia.
    + destruct (Hc k ltac:(unfold o in *; lia)) as [_ Hb]. rewrite <- Hb. unfold byte_of. fold bk. rewrite Eb. by rewrite (blk_some _ _ _ Hd).
  - assert (k < length l)%nat as Hkl by (unfold o in *; nia). destruct (Hc k Hkl) as [Hz Hb]. fold bk in Hz. split; [done|].
    rewrite decide_False by (unfold o in *; nia). rewrite <- Hb. unfold byte_of. fold bk.
    rewrite blk_insert_ne; [done|]. by apply HM.
Qed.

Lemma mapped_addrs V addrs : layout V -> mapped V addrs -> Forall (fun a => 0 <= a < 2 ^ 32) addrs.
Proof.
  intros Hl Hm. apply Forall_lookup. intros k a Ha. pose proof (lookup_lt_Some _ _ _ Ha) as Hk. rewrite (mp_len _ _ _ _ Hm) in Hk.
  assert (a = 0 \/ used V a) as [->|Hu]; [|lia|destruct (layout_used _ _ _ _ V a Hl Hu) as (_ & _ & _ & ? & _); lia].
  assert (a = addr_of addrs k) as -> by (unfold addr_of; by rewrite Ha).
  destruct (decide (k = 12%nat)) as [->|Hne]; [apply Hm|].
  pose proof (mp_used _ _ _ _ Hm (Z.of_nat k) ltac:(lia)) as Hb. unfold baddr in Hb.
  rewrite (proj2 (Z.ltb_lt (Z.of_nat k) NDIRECT)), Nat2Z.id in Hb by lia. done.
Qed.

Lemma meta_baddr V n d addrs b : mapped V addrs -> layout V -> n < bm -> baddr (<[n := d]> V) addrs b = baddr V addrs b.
Proof.
  intros Hm Hl Hn. unfold baddr. destruct (b <? NDIRECT); [done|]. destruct (Z.eqb_spec (addr_of addrs 12) 0); [done|].
  rewrite blk_insert_ne; [done|]. pose proof (la_bm _ _ _ _ _ Hl). destruct (mp_ind _ _ _ _ Hm) as [|[? _]]; [done|lia].
Qed.

Lemma meta_mapped V n d addrs : mapped V addrs -> layout V -> n < bm -> mapped (<[n := d]> V) addrs.
Proof.
  intros Hm Hl Hn. assert (forall m, used (<[n := d]> V) m <-> used V m) as Hu by (intros m; apply used_insert; lia).
  assert (forall b, baddr (<[n := d]> V) addrs b = baddr V addrs b) as Hb by (intros b; by apply meta_baddr).
  destruct Hm as [M1 M2 M3 M4 M5]. split; [done| |by rewrite Hu| |]; intros b; rewrite ?Hb, ?Hu; auto.
  intros b'. rewrite Hb. auto.
Qed.

Lemma meta_content V n d addrs l : mapped V addrs -> layout V -> n < bm -> Z.of_nat (length l) <= MAXFILE * BSIZE ->
  content V addrs l -> content (<[n := d]> V) addrs l.
Proof.
  intros Hm Hl Hn Hlen Hc k Hk. unfold byte_of. rewrite !meta_baddr by done. destruct (Hc k Hk) as [Hz Hb]. split; [done|].
  rewrite blk_insert_ne; [done|]. pose proof (la_bm _ _ _ _ _ Hl).
  destruct (mp_used _ _ _ _ Hm (Z.of_nat k / BSIZE) (div_range (Z.of_nat k) ltac:(lia))) as [|[? _]]; [done|lia].
Qed.

Lemma meta_foreign V n d addrs m : mapped V addrs -> layout V -> n < bm -> foreign V addrs m ->
  foreign (<[n := d]> V) addrs m /\ <[n := d]> V !! m = V !! m.
Proof.
  intros Hm Hl Hn (F1 & F2 & F3). pose proof (la_bm _ _ _ _ _ Hl). split; [split; [|split; [done|]]|].
  - apply used_insert; [lia|done].
  - intros b Hb. rewrite meta_baddr by done. auto.
  - rewrite lookup_insert_ne; [done|]. destruct F1. lia.
Qed.
End Content.

(** The file has the bytes [l]. *)
Definition stores (V : gmap Z (list Z)) (ip : inode) (l : list Z) : Prop :=
  content V (i_addrs ip) l /\ i_size ip = Z.of_nat (length l).
