(* ===== verification/FsFile.v ===== *)
(** * Files

    The contents of a file in a transaction: [bmap] finds or allocates its blocks,
    [readi] returns its bytes and [writei] changes them, and the blocks of all other
    files stay as they are.  [writei] logs at most one block for each block of the file
    that it writes, and three more. *)

From stdpp Require Import gmap strings list fin_maps.
From S2P Require Import Prelude Layout State Sched Block Bio Log LogCommit LogTx Fs FsBits FsMap.

Section Tx.
Context {bld : Build} {dsk : Disk} {dok : DiskOk}.
Variables (pr : nat) (p : proc) (ls sz : Z) (sbk : superblock) (ds : Z) (i : nat).

Abbreviation bm := (sb_bmapstart sbk).
Abbreviation layout := (layout ls sz sbk ds).
Abbreviation free := (free sbk ds).
Abbreviation free_list := (free_list sbk ds).
Abbreviation taken := (taken sbk).
Abbreviation used := (used sbk ds).
Abbreviation mapped := (mapped sbk ds).
Abbreviation remap := (remap ls sz sbk ds).
Abbreviation cost := (cost bm).
Abbreviation intx := (fun s B H V => intx s pr p ls sz B H V).

Definition fits (n : nat) : Prop := (n < 29)%nat /\ Z.of_nat n < sz - 1.

(** Inside a transaction, with the inode [ip] in entry [i] of the table. *)
Record fstate (s : kstate) (V : gmap Z (list Z)) (B H : list Z) (ip : inode) : Prop := {
  fs_tx : intx s B H V;
  fs_sb : sb s = sbk;
  fs_layout : layout V;
  fs_ip : itable s !! i = Some ip;
  fs_dev : i_dev ip = ROOTDEV;
  fs_map : mapped V (i_addrs ip)
}.

(** A block is still to be allocated for the addresses. *)
Definition need (addrs : list Z) : nat := if decide (addr_of addrs 12 = 0) then 1 else 0.

(** [bmap] of block [bn] returned [a]. *)
Record mapping (s : kstate) (V : gmap Z (list Z)) (B : list Z) (ip : inode) (bn a : Z)
    (s' : kstate) (V' : gmap Z (list Z)) (B' : list Z) (ip' : inode) : Prop := {
  mt_state : fstate s' V' B' [] ip';
  mt_frame : tx_frame s s';
  mt_itable : itable s' = <[i := ip']> (itable s);
  mt_ip : exists addrs', ip' = set_i_addrs addrs' ip;
  mt_remap : remap V V' (i_addrs ip) (i_addrs ip') bn a;
  mt_cost : (cost (add_block a B') (i_addrs ip') <= cost B (i_addrs ip) + 1)%nat;
  mt_count : (length (free_list V) + need (i_addrs ip') <= length (free_list V') + 1 + need (i_addrs ip))%nat
}.

(** ** Entries of the inode table *)

Lemma iupd_ok f s ip : itable s !! i = Some ip -> iupd i f s = Ok tt (set_itable (<[i := f ip]> (itable s)) s).
Proof. intros E. unfold iupd. rewrite E. by rewrite (alter_is_insert f i (itable s) ip). Qed.

Lemma inode_at_ok s ip : itable s !! i = Some ip -> inode_at i s = Ok ip s.
Proof. intros E. unfold inode_at. by rewrite E. Qed.

Lemma intx_itable s B H V t : intx s B H V -> intx (set_itable t s) B H V.
Proof. intros [[[R1 R2 R3 R4 R5 R6] Hi Hb Hr] Hl Ho]. split; [|done|done]. by split; [split|..]. Qed.

Lemma frame_itable s t : tx_frame s (set_itable t s).
Proof. constructor; auto using woken_refl. Qed.

Lemma addr_lookup addrs k : length addrs = 13%nat -> (k < 13)%nat -> addrs !! k = Some (addr_of addrs k).
Proof. intros Hl Hk. unfold addr_of. destruct (lookup_lt_is_Some_2 addrs k ltac:(lia)) as [a ->]. done. Qed.

Lemma some_free V : (0 < length (free_list V))%nat -> exists f, free V f.
Proof. destruct (free_list V) as [|f l] eqn:E; cbn; [lia|]. intros _. exists f. apply (elem_of_free_list sbk ds). rewrite E. left. Qed.

(** ** [bmap] *)

(** The block is there. *)
Lemma mapping_same s V B ip bn a s' : fstate s V B [] ip -> fstate s' V B [] ip -> tx_frame s s' -> itable s' = itable s ->
  0 <= bn < MAXFILE -> baddr V (i_addrs ip) bn = a -> a <> 0 -> mapping s V B ip bn a s' V B ip.
Proof.
  intros Hs Hs' F T Hbn Ea Ha. split; try done.
  - rewrite T. symmetry. apply list_insert_id, Hs.
  - exists (i_addrs ip). by destruct ip.
  - rewrite <- Ea in Ha |- *. apply remap_same; [apply Hs|apply Hs|done|done].
  - apply cost_add.
  - lia.
Qed.

Lemma bmap_direct s V B ip bn : fstate s V B [] ip -> 0 <= bn < NDIRECT ->
  fits (cost B (i_addrs ip) + 1) -> (0 < length (free_list V))%nat ->
  exists a s' V' B' ip', bmap i bn s = Ok a s' /\ mapping s V B ip bn a s' V' B' ip'.
Proof.
  intros Hs Hbn [Hf1 Hf2] Hfree. pose proof Hs as [Hx Hsb Hl Hip Hdev Hm]. pose proof (mp_len _ _ _ _ Hm) as Hlen.
  unfold bmap. mstep (inode_at_ok s ip Hip). rewrite (proj2 (Z.ltb_lt bn NDIRECT)) by lia.
  rewrite (addr_lookup (i_addrs ip) (Z.to_nat bn)) by (done || lia). erewrite bind_ok by reflexivity.
  assert (baddr V (i_addrs ip) bn = addr_of (i_addrs ip) (Z.to_nat bn)) as Eb
    by (unfold baddr; by rewrite (proj2 (Z.ltb_lt bn NDIRECT)) by lia).
  destruct (Z.eqb_spec (addr_of (i_addrs ip) (Z.to_nat bn)) 0) as [E0|E0].
  2: { eexists _, s, V, B, ip. split; [reflexivity|]. apply mapping_same; try done; [apply tx_frame_refl|lia]. }
  destruct (some_free V Hfree) as [f Hff]. rewrite Hdev.
  pose proof (cost_bm bm B (i_addrs ip)) as Hcb. pose proof (cost_length bm (add_block bm B) (i_addrs ip)) as Hcl.
  destruct (balloc_tx pr p ls sz sbk ds s B [] V f Hx Hsb Hl Hff) as (n & s1 & E1 & Hn & F1 & T1 & X1 & _).
  { cbn. lia. }
  { by intros n ?%elem_of_nil. }
  { split; lia. }
  mstep E1. set (addrs' := <[Z.to_nat bn := n]> (i_addrs ip)).
  assert (itable s1 !! i = Some ip) as Hip1 by congruence.
  erewrite bind_ok by (apply (iupd_ok _ s1 ip Hip1)).
  pose proof (remap_direct ls sz sbk ds V (i_addrs ip) bn n Hl Hm Hn Hbn E0) as Hrm. fold addrs' in Hrm.
  assert (addr_of addrs' 12 = addr_of (i_addrs ip) 12) as E12
    by (unfold addrs'; rewrite addr_of_insert by lia; by rewrite decide_False by lia).
  eexists n, _, (taken V n), _, (set_i_addrs addrs' ip). split; [reflexivity|]. split.
  - split; [by apply intx_itable|cbn; rewrite (tx_sb s s1 F1); done|apply Hrm| |done|apply Hrm].
    cbn. apply list_lookup_insert_eq. by eapply lookup_lt_Some.
  - eapply tx_frame_trans; [exact F1|apply frame_itable].
  - cbn. by rewrite T1.
  - by exists addrs'.
  - exact Hrm.
  - cbn. rewrite add_block_same by apply add_block_in. pose proof (cost_add bm (add_block bm B) (i_addrs ip) n) as Hca.
    unfold FsMap.cost in *. rewrite E12. lia.
  - cbn. unfold need. rewrite E12. rewrite (taken_count ls sz sbk ds V n Hn Hl). lia.
Qed.

(** The lookup in the indirect block [ind]. *)
Definition bmap_entry (ip : inode) (ind : Z) (k : nat) : K Z :=
  let! bp := bread (i_dev ip) ind in
  let! b := buf_at bp in
  let addr := get32 (4 * k) (b_data b) in
  if addr =? 0 then
    let! addr := balloc (i_dev ip) in
    bdata bp (put32 (4 * k) addr) ;;
    log_write bp ;;
    brelse bp ;;
    ret addr
  else
    brelse bp ;;
    ret addr.

(** A new entry in the indirect block. *)
Lemma bmap_entry_new s V B ip bn d bp s1 : fstate s V B [] ip -> NDIRECT <= bn < MAXFILE ->
  let ind := addr_of (i_addrs ip) 12 in let k := Z.to_nat (bn - NDIRECT) in
  ind <> 0 -> V !! ind = Some d -> get32 (4 * k) d = 0 ->
  tx_frame s s1 -> itable s1 = itable s -> intx s1 B [ind] V -> holds s1 p bp ind ->
  fits (cost B (i_addrs ip) + 1) -> (0 < length (free_list V))%nat ->
  exists a s' V' B', (let! addr := balloc ROOTDEV in bdata bp (put32 (4 * k) addr) ;; log_write bp ;; brelse bp ;; ret addr) s1 = Ok a s' /\
    mapping s V B ip bn a s' V' B' ip.
Proof.
  intros Hs Hbn ind k Hi Hd Hz F1 T1 X1 Hh1 [Hf1 Hf2] Hfree. pose proof Hs as [Hx Hsb Hl Hip Hdev Hm].
  destruct (mp_ind _ _ _ _ Hm) as [|Hui]; [done|]. fold ind in Hui.
  destruct (layout_used ls sz sbk ds V ind Hl Hui) as (d' & Hd' & Hdl & Hrng & Hlog & Hnb & _). assert (d' = d) as -> by congruence.
  destruct (some_free V Hfree) as [f Hff].
  pose proof (cost_bm bm B (i_addrs ip)) as Hcb. pose proof (cost_length bm (add_block bm B) (i_addrs ip)) as Hcl.
  destruct (balloc_tx pr p ls sz sbk ds s1 B [ind] V f X1) as (n & s2 & E2 & Hn & F2 & T2 & X2 & K2); try done.
  { by rewrite (tx_sb s s1 F1). }
  { intros m ->%list_elem_of_singleton. split; [|done]. intros Hfr. by apply (free_not_used sbk ds V ind). }
  { split; lia. }
  pose proof Hn as [Hnr _]. destruct (layout_pos ls sz sbk ds V n Hl ltac:(lia)) as [Hn0 Hnb'].
  assert (ind <> n) as Hin by (intros E; rewrite E in Hui; by apply (free_not_used sbk ds V n)).
  pose proof (cost_add bm (add_block bm B) (i_addrs ip) n) as Hca.
  pose proof (cost_length bm (add_block n (add_block bm B)) (i_addrs ip)) as Hcl2.
  destruct (finish_tx pr p ls sz s2 _ [] (taken V n) bp ind d (put32 (4 * k) n) X2) as (s3 & E3 & F3 & T3 & X3 & _); try done.
  { apply K2; [left|done]. }
  { rewrite taken_other by done. done. }
  { apply not_elem_of_nil. }
  { split; lia. }
  pose proof (remap_entry ls sz sbk ds V (i_addrs ip) bn n d Hl Hm Hn Hbn Hi Hd Hz) as Hrm. fold ind k in Hrm.
  exists n, s3, (<[ind := put32 (4 * k) n d]> (taken V n)), (add_block ind (add_block n (add_block bm B))). split.
  { mstep E2. by rewrite (seq3_ok _ _ _ _ _ _ _ E3). }
  assert (fstate s3 (<[ind := put32 (4 * k) n d]> (taken V n)) (add_block ind (add_block n (add_block bm B))) [] ip) as Hs3.
  { split; [done| |apply Hrm|congruence|done|apply Hrm]. by rewrite (tx_sb s2 s3 F3), (tx_sb s1 s2 F2), (tx_sb s s1 F1). }
  split; try done.
  - eapply tx_frame_trans; [exact F1|]. by eapply tx_frame_trans.
  - rewrite T3, T2, T1. symmetry. by apply list_insert_id.
  - exists (i_addrs ip). by destruct ip.
  - rewrite add_block_same by (rewrite !elem_of_add_block; auto).
    pose proof (cost_ind bm (add_block n (add_block bm B)) (i_addrs ip) Hi). fold ind in H. lia.
  - rewrite free_list_insert by done. rewrite (taken_count ls sz sbk ds V n Hn Hl). lia.
Qed.

Lemma bmap_entry_tx s V B ip bn : fstate s V B [] ip -> NDIRECT <= bn < MAXFILE -> addr_of (i_addrs ip) 12 <> 0 ->
  fits (cost B (i_addrs ip) + 1) -> (0 < length (free_list V))%nat ->
  exists a s' V' B', bmap_entry ip (addr_of (i_addrs ip) 12) (Z.to_nat (bn - NDIRECT)) s = Ok a s' /\
    mapping s V B ip bn a s' V' B' ip.
Proof.
  intros Hs Hbn Hi Hfits Hfree. pose proof Hs as [Hx Hsb Hl Hip Hdev Hm]. set (ind := addr_of (i_addrs ip) 12) in *.
  destruct (mp_ind _ _ _ _ Hm) as [|Hui]; [done|]. fold ind in Hui.
  destruct (layout_used ls sz sbk ds V ind Hl Hui) as (d & Hd & Hdl & Hrng & Hlog & Hnb & _).
  pose proof (cost_length bm B (i_addrs ip)) as Hcl. destruct Hfits as [Hf1 Hf2] eqn:Ef.
  destruct (bread_tx s pr p ls sz B [] V ind d Hx Hd) as (bp & s1 & E1 & F1 & T1 & X1 & Hh1 & _);
    [apply not_elem_of_nil|cbn; lia|].
  destruct (buf_at_tx s1 pr p ls sz B [ind] V bp ind d X1 Hh1 Hd) as (b & Eb & Hbd & _).
  unfold bmap_entry. rewrite Hdev. mstep E1. mstep Eb. rewrite Hbd.
  destruct (Z.eqb_spec (get32 (4 * Z.to_nat (bn - NDIRECT)) d) 0) as [Ez|Ez].
  { eapply bmap_entry_new; try done. }
  destruct (brelse_tx s1 pr p ls sz B [] V bp ind X1) as (s2 & E2 & F2 & T2 & X2 & _); [apply not_elem_of_nil|done| |].
  { intros HB. rewrite (tf_disk _ _ F1). apply (intx_idle s pr p ls sz B [] V); [done|done|apply not_elem_of_nil]. }
  mstep E2. eexists _, s2, V, B. split; [reflexivity|]. apply mapping_same; try done; [| |congruence|lia|].
  - split; try done; [by rewrite (tx_sb s1 s2 F2), (tx_sb s s1 F1)|congruence].
  - by eapply tx_frame_trans.
  - unfold baddr. rewrite (proj2 (Z.ltb_ge bn NDIRECT)) by lia. fold ind. rewrite (proj2 (Z.eqb_neq ind 0)) by done.
    by rewrite (blk_some V ind d Hd).
Qed.

(** The state after an indirect block was allocated. *)
Lemma new_indirect s V B ip : fstate s V B [] ip -> addr_of (i_addrs ip) 12 = 0 ->
  fits (cost B (i_addrs ip) + 1) -> (0 < length (free_list V))%nat ->
  exists n s1, balloc ROOTDEV s = Ok n s1 /\ free V n /\ tx_frame s s1 /\ itable s1 = itable s /\
    let ip' := set_i_addrs (<[12%nat := n]> (i_addrs ip)) ip in
    let B' := add_block n (add_block bm B) in
    let s' := set_itable (<[i := ip']> (itable s1)) s1 in
    fstate s' (taken V n) B' [] ip' /\ (cost B' (i_addrs ip') <= cost B (i_addrs ip))%nat.
Proof.
  intros Hs H0 [Hf1 Hf2] Hfree. pose proof Hs as [Hx Hsb Hl Hip Hdev Hm]. pose proof (mp_len _ _ _ _ Hm) as Hlen.
  destruct (some_free V Hfree) as [f Hff].
  pose proof (cost_bm bm B (i_addrs ip)) as Hcb. pose proof (cost_length bm (add_block bm B) (i_addrs ip)) as Hcl.
  destruct (balloc_tx pr p ls sz sbk ds s B [] V f Hx Hsb Hl Hff) as (n & s1 & E1 & Hn & F1 & T1 & X1 & _).
  { cbn. lia. }
  { by intros n ?%elem_of_nil. }
  { split; lia. }
  exists n, s1. repeat (split; [done|]). pose proof Hn as [Hnr _].
  destruct (layout_pos ls sz sbk ds V n Hl ltac:(lia)) as [Hn0 _].
  split; [|by apply cost_new_ind].
  split; [by apply intx_itable|cbn; by rewrite (tx_sb s s1 F1)|by apply (taken_layout ls sz)| |done|].
  - cbn. apply list_lookup_insert_eq. rewrite T1. by eapply lookup_lt_Some.
  - by apply (extend_ind ls sz).
Qed.

Lemma bmap_indirect s V B ip bn : fstate s V B [] ip -> NDIRECT <= bn < MAXFILE ->
  fits (cost B (i_addrs ip) + 1) -> (need (i_addrs ip) < length (free_list V))%nat ->
  exists a s' V' B' ip', bmap i bn s = Ok a s' /\ mapping s V B ip bn a s' V' B' ip'.
Proof.
  intros Hs Hbn Hfits Hfree. pose proof Hs as [Hx Hsb Hl Hip Hdev Hm]. pose proof (mp_len _ _ _ _ Hm) as Hlen.
  assert (bmap i bn s =
    (let! ind := (if addr_of (i_addrs ip) 12 =? 0 then
                    let! addr := balloc (i_dev ip) in
                    iupd i (fun ip => set_i_addrs (<[12%nat := addr]> (i_addrs ip)) ip) ;; ret addr
                  else ret (addr_of (i_addrs ip) 12)) in
     bmap_entry ip ind (Z.to_nat (bn - NDIRECT))) s) as ->.
  { unfold bmap. mstep (inode_at_ok s ip Hip). rewrite (proj2 (Z.ltb_ge bn NDIRECT)) by lia.
    rewrite u32_small by lia. rewrite (proj2 (Z.ltb_lt (bn - NDIRECT) NINDIRECT)) by lia.
    rewrite (addr_lookup (i_addrs ip) 12) by (done || lia). by erewrite bind_ok by reflexivity. }
  destruct (Z.eqb_spec (addr_of (i_addrs ip) 12) 0) as [E0|E0].
  2: { erewrite bind_ok by reflexivity. destruct (bmap_entry_tx s V B ip bn Hs Hbn E0 Hfits) as (a & s' & V' & B' & E & Hmp);
         [lia|]. eauto 10. }
  destruct (new_indirect s V B ip Hs E0 Hfits ltac:(lia)) as (n & s1 & E1 & Hn & F1 & T1 & Hs1 & Hc1).
  set (ip' := set_i_addrs (<[12%nat := n]> (i_addrs ip)) ip) in *. cbn zeta in *.
  set (s2 := set_itable (<[i := ip']> (itable s1)) s1) in *. set (B1 := add_block n (add_block bm B)) in *.
  assert (itable s1 !! i = Some ip) as Hip1 by congruence.
  pose proof Hn as [Hnr _]. destruct (layout_pos ls sz sbk ds V n Hl ltac:(lia)) as [Hn0 _].
  assert (addr_of (i_addrs ip') 12 = n) as E12 by (cbn; rewrite addr_of_insert by lia; by rewrite decide_True).
  pose proof (taken_count ls sz sbk ds V n Hn Hl) as Hcount.
  assert (need (i_addrs ip) = 1%nat) as Hneed by (unfold need; by rewrite decide_True).
  assert (fits (cost B1 (i_addrs ip') + 1)) as Hfits1 by (destruct Hfits; split; lia).
  destruct (bmap_entry_tx s2 (taken V n) B1 ip' bn Hs1 Hbn) as (a & s' & V' & B' & E & Hmp); [congruence|done|lia|].
  erewrite bind_ok.
  2: { rewrite Hdev. mstep E1. erewrite bind_ok by (apply (iupd_ok _ s1 ip Hip1)). reflexivity. }
  fold ip' s2. exists a, s', V', B', ip'. rewrite E12 in E. split; [exact E|].
  destruct Hmp as [M1 M2 M3 M4 M5 M9 M10]. split; try done.
  - eapply tx_frame_trans; [exact F1|]. eapply tx_frame_trans; [apply frame_itable|exact M2].
  - rewrite M3. subst s2. cbn. rewrite T1. apply list_insert_insert_eq.
  - eapply remap_new_ind; try done. lia.
  - lia.
  - revert M10. unfold need. rewrite E12, (decide_False (P := n = 0)) by done. rewrite (decide_True (P := addr_of (i_addrs ip) 12 = 0)) by done. lia.
Qed.

Lemma bmap_tx s V B ip bn : fstate s V B [] ip -> 0 <= bn < MAXFILE ->
  fits (cost B (i_addrs ip) + 1) -> (need (i_addrs ip) < length (free_list V))%nat ->
  exists a s' V' B' ip', bmap i bn s = Ok a s' /\ mapping s V B ip bn a s' V' B' ip'.
Proof.
  intros Hs Hbn Hf Hc. destruct (decide (bn < NDIRECT)); [apply bmap_direct; try done; lia|apply bmap_indirect; try done; lia].
Qed.
End Tx.
