(* ===== verification/FsWrite.v ===== *)
(** * Writing a file

    [writei] in a transaction writes bytes into the contents of the file, extends it if
    they end beyond it, and puts the inode on the disk; no block of another file
    changes, and the number of blocks it logs is bounded. *)

From stdpp Require Import gmap strings list fin_maps.
From S2P Require Import Prelude Layout State Sched Block Bio Log LogCommit LogTx Fs Dinode FsBits FsMap FsContent FsFile.

Section Write.
Context {bld : Build} {dsk : Disk} {dok : DiskOk}.
Variables (pr : nat) (p : proc) (ls sz : Z) (sbk : superblock) (ds : Z) (i : nat).

Abbreviation bm := (sb_bmapstart sbk).
Abbreviation layout := (layout ls sz sbk ds).
Abbreviation free_list := (free_list sbk ds).
Abbreviation used := (used sbk ds).
Abbreviation mapped := (mapped sbk ds).
Abbreviation cost := (cost bm).
Abbreviation fstate := (fstate pr p ls sz sbk ds i).
Abbreviation mapping := (mapping pr p ls sz sbk ds i).
Abbreviation fits := (fits sz).
Abbreviation foreign := (foreign sbk ds).

(** ** The loop of [writei] *)

(** A number [n] of blocks was written. *)
Record written (n : nat) (s : kstate) (V : gmap Z (list Z)) (B : list Z) (ip : inode)
    (s' : kstate) (V' : gmap Z (list Z)) (B' : list Z) (ip' : inode) : Prop := {
  wr_state : fstate s' V' B' [] ip';
  wr_frame : tx_frame s s';
  wr_itable : itable s' = <[i := ip']> (itable s);
  wr_ip : exists addrs', ip' = set_i_addrs addrs' ip;
  wr_meta : forall m, ~ (ds <= m < sb_size sbk) -> m <> bm -> V' !! m = V !! m;
  wr_foreign : forall m, foreign V (i_addrs ip) m -> foreign V' (i_addrs ip') m /\ V' !! m = V !! m;
  wr_cost : (cost B' (i_addrs ip') <= cost B (i_addrs ip) + n)%nat;
  wr_count : (length (free_list V) + need (i_addrs ip') <= length (free_list V') + n + need (i_addrs ip))%nat
}.

Lemma written_refl s V B ip : fstate s V B [] ip -> written 0 s V B ip s V B ip.
Proof.
  intros Hs. split; try done; [apply tx_frame_refl| | |lia|lia].
  - symmetry. apply list_insert_id, Hs.
  - exists (i_addrs ip). by destruct ip.
Qed.

Lemma written_trans n n' s V B ip s1 V1 B1 ip1 s2 V2 B2 ip2 :
  written n s V B ip s1 V1 B1 ip1 -> written n' s1 V1 B1 ip1 s2 V2 B2 ip2 -> written (n + n') s V B ip s2 V2 B2 ip2.
Proof.
  intros [A1 A2 A3 [a1 A4] A5 A6 A7 A8] [C1 C2 C3 [a2 C4] C5 C6 C7 C8]. split; [done| | | | | |lia|lia].
  - by eapply tx_frame_trans.
  - rewrite C3, A3. apply list_insert_insert_eq.
  - exists a2. rewrite C4, A4. by destruct ip.
  - intros m Hm Hb. rewrite C5, A5 by done. done.
  - intros m Hm. destruct (A6 m Hm) as [F1 E1]. destruct (C6 m F1) as [F2 E2]. split; [done|congruence].
Qed.

(** A block found by [bmap] is changed, logged and released. *)
Lemma written_block s V B ip bn a s1 V1 B1 ip1 d f : fstate s V B [] ip -> 0 <= bn < MAXFILE -> fits (cost B (i_addrs ip) + 1) ->
  mapping s V B ip bn a s1 V1 B1 ip1 -> V1 !! a = Some d -> length (f d) = Z.to_nat BSIZE ->
  exists bp s2 s3, bread ROOTDEV a s1 = Ok bp s2 /\ (bdata bp f ;; log_write bp ;; brelse bp) s2 = Ok tt s3 /\
    written 1 s V B ip s3 (<[a := f d]> V1) (add_block a B1) ip1.
Proof.
  intros Hs Hbn [Hf1 Hf2] Hmp Hd Hlen. pose proof Hmp as [[X1 Hsb1 Hl1 Hip1 Hdev1 Hm1] F1 T1 P1 Hrm Hcost Hcnt]. pose proof Hrm as [_ _ [Ea Eb] [Hz Hu] _ _ _ Hot].
  destruct (layout_used _ _ _ _ V1 a Hl1 Hu) as (d' & _ & _ & Hrng & Hlog & Hnb & _).
  pose proof (cost_length bm (add_block a B1) (i_addrs ip1)) as Hcl.
  assert (length B1 <= length (add_block a B1))%nat by (unfold add_block; case_decide; rewrite ?length_app; lia).
  destruct (write_tx pr p ls sz s1 B1 [] V1 a d f X1 Hd) as (bp & s2 & R2 & F2 & T2 & _ & _ & _ & s3 & R3 & F3 & T3 & X3 & _);
    [apply not_elem_of_nil|cbn; lia|split; lia|done|done|].
  exists bp, s2, s3. split; [done|]. split; [done|]. assert (a = baddr V1 (i_addrs ip1) bn) as Eba by done.
  assert (tx_frame s1 s3) as F13 by by eapply tx_frame_trans.
  split; [split; [done| | | |done|]|by eapply tx_frame_trans|by rewrite T3, T2|done| | |lia|].
  - by rewrite (tx_sb s1 s3 F13).
  - by apply layout_insert.
  - by rewrite T3, T2.
  - rewrite Eba. eapply update_mapped; try done; by rewrite <- Eba.
  - intros m Hm Hmb. rewrite lookup_insert_ne by (intros <-; by destruct Hu). by apply (ot_meta _ _ _ _ _ Hot).
  - intros m Hm. destruct (remap_foreign _ _ _ _ _ _ _ _ _ _ m Hrm Hbn Hm) as (Hfm & E1 & Hma). rewrite Eba.
    destruct (update_foreign ls sz sbk ds V1 (i_addrs ip1) bn (f d)) with (m := m) as [U1 U2]; try done; [congruence|]. split; [done|congruence].
  - rewrite free_list_insert by done. lia.
Qed.

Lemma fits_le n m : (m <= n)%nat -> fits n -> fits m.
Proof. unfold FsFile.fits. lia. Qed.

(** One turn of the loop. *)
Lemma writei_turn k s V B ip l off n tot data : fstate s V B [] ip -> content V (i_addrs ip) l ->
  Z.of_nat (length l) <= MAXFILE * BSIZE -> 0 <= off <= Z.of_nat (length l) -> tot < n -> off + (n - tot) <= MAXFILE * BSIZE ->
  Z.of_nat (length data) = n - tot -> fits (cost B (i_addrs ip) + 1) -> (need (i_addrs ip) < length (free_list V))%nat ->
  let m := Z.min (n - tot) (BSIZE - off mod BSIZE) in
  exists s' V' B' ip',
    writei_loop (S k) i (FromLocal data) off n tot s = writei_loop k i (FromLocal (drop (Z.to_nat m) data)) (off + m) n (tot + m) s' /\
    written 1 s V B ip s' V' B' ip' /\ content V' (i_addrs ip') (splice (Z.to_nat off) (take (Z.to_nat m) data) l).
Proof.
  intros Hs Hc Hlm Hoff Htn Hmax Hdata Hf Hfree m. pose proof (Z.mod_pos_bound off BSIZE ltac:(lia)) as Bo.
  assert (0 < m) as Hm by (unfold m; lia). assert (length (take (Z.to_nat m) data) = Z.to_nat m) as Lt by (rewrite length_take; unfold m; lia).
  pose proof (div_range off ltac:(lia)) as Hbn.
  destruct (bmap_tx pr p ls sz sbk ds i s V B ip (off / BSIZE) Hs Hbn Hf Hfree) as (a & s1 & V1 & B1 & ip1 & R1 & Hmp).
  pose proof Hmp as [[X1 Hsb1 Hl1 Hip1 Hdev1 Hm1] _ _ _ Hrm _ _]. pose proof Hrm as [_ _ [Ea Eb] [Hz Hu] _ _ _ _].
  destruct (layout_used _ _ _ _ V1 a Hl1 Hu) as (d & Hd & Hdl & _).
  set (f := splice (Z.to_nat (off mod BSIZE)) (take (Z.to_nat m) data)).
  assert (length (f d) = Z.to_nat BSIZE) as Hfd by (unfold f; rewrite length_splice; [done|]; rewrite Lt; unfold m; lia).
  destruct (written_block s V B ip (off / BSIZE) a s1 V1 B1 ip1 d f Hs Hbn Hf Hmp Hd Hfd) as (bp & s2 & s3 & R2 & R3 & Hw).
  eexists s3, _, _, ip1. split; [|split; [exact Hw|]].
  - cbn [writei_loop]. rewrite (proj2 (Z.ltb_lt tot n)) by done. mstep (inode_at_ok i s ip (fs_ip _ _ _ _ _ _ _ _ _ _ _ _ Hs)).
    mstep R1. rewrite (fs_dev _ _ _ _ _ _ _ _ _ _ _ _ Hs). mstep R2. erewrite bind_ok by reflexivity. cbn [Z.eqb].
    fold m. fold f. rewrite (seq3_ok _ _ _ _ _ _ _ R3). done.
  - pose proof (remap_content _ _ _ _ _ _ _ _ _ _ l Hrm (fs_map _ _ _ _ _ _ _ _ _ _ _ _ Hs) Hbn Hlm Hc) as Hc1. rewrite <- Ea. unfold f.
    pose proof (update_content sbk ds V1 (i_addrs ip1) (Z.to_nat off) (take (Z.to_nat m) data) l d Hm1) as Hup. cbv zeta in Hup.
    rewrite !Z2Nat.id in Hup by lia. apply Hup; rewrite ?Lt; try done; try (by rewrite Ea); unfold m in *; lia.
Qed.

Lemma writei_loop_tx k : forall s V B ip l off n tot data, fstate s V B [] ip -> content V (i_addrs ip) l ->
  Z.of_nat (length l) <= MAXFILE * BSIZE -> 0 <= off <= Z.of_nat (length l) -> tot <= n -> off + (n - tot) <= MAXFILE * BSIZE ->
  Z.of_nat (length data) = n - tot -> let nb := nblocks off (n - tot) in (nb <= k)%nat ->
  fits (cost B (i_addrs ip) + nb) -> (need (i_addrs ip) + nb <= length (free_list V))%nat ->
  exists s' V' B' ip', writei_loop k i (FromLocal data) off n tot s = Ok (n, off + (n - tot)) s' /\
    written nb s V B ip s' V' B' ip' /\ content V' (i_addrs ip') (splice (Z.to_nat off) data l).
Proof.
  induction k as [|k IH]; intros s V B ip l off n tot data Hs Hc Hlm Hoff Htn Hmax Hdata nb Hk Hf Hfree.
  all: destruct (decide (tot = n)) as [->|Hne].
  1,3: exists s, V, B, ip; unfold nb; rewrite Z.sub_diag; split;
    [cbn [writei_loop]; rewrite Z.ltb_irrefl; unfold ret; do 3 f_equal; lia|]; split; [by apply written_refl|];
    destruct data; [|cbn in Hdata; lia]; unfold splice; cbn [length]; rewrite Nat.add_0_r; cbn; rewrite take_drop; done.
  1: pose proof (nblocks_step off (n - tot) ltac:(lia) ltac:(lia)) as [_ E]; unfold nb in Hk; lia.
  pose proof (nblocks_step off (n - tot) ltac:(lia) ltac:(lia)) as [Hm E]. set (m := Z.min (n - tot) (BSIZE - off mod BSIZE)) in *.
  destruct (writei_turn k s V B ip l off n tot data Hs Hc Hlm Hoff ltac:(lia) Hmax Hdata) as (s1 & V1 & B1 & ip1 & R1 & W1 & C1).
  { eapply fits_le; [|exact Hf]. unfold nb. lia. }
  { unfold nb in Hfree. lia. }
  fold m in R1, C1. replace (n - tot - m) with (n - (tot + m)) in E by lia.
  assert (length (take (Z.to_nat m) data) = Z.to_nat m) as Lt by (rewrite length_take; unfold m; lia).
  pose proof (wr_cost _ _ _ _ _ _ _ _ _ W1). pose proof (wr_count _ _ _ _ _ _ _ _ _ W1).
  destruct (IH s1 V1 B1 ip1 (splice (Z.to_nat off) (take (Z.to_nat m) data) l) (off + m) n (tot + m) (drop (Z.to_nat m) data))
    as (s2 & V2 & B2 & ip2 & R2 & W2 & C2); try done; try (rewrite length_splice_grow by lia; rewrite Lt); try (unfold m; lia).
  { apply (wr_state _ _ _ _ _ _ _ _ _ W1). }
  { rewrite length_drop. unfold m. lia. }
  { unfold nb in Hk. lia. }
  { eapply fits_le; [|exact Hf]. unfold nb. lia. }
  { unfold nb in Hfree. lia. }
  exists s2, V2, B2, ip2. split; [rewrite R1, R2; do 2 f_equal; lia|]. unfold nb. rewrite E. split; [by eapply (written_trans 1)|].
  rewrite Z2Nat.inj_add, splice_split in C2 by (unfold m in *; lia). done.
Qed.

(** ** [iupdate] *)

(** The block that has the inode. *)
Abbreviation home ip := (IBLOCK (i_inum ip) sbk).

Definition home_ok (ip : inode) : Prop := 0 <= home ip < bm /\ ~ in_log ls sz (home ip).

(** The inode is on the disk as it is in memory. *)
Definition on_disk (V : gmap Z (list Z)) (ip : inode) : Prop :=
  load_dinode (dinode_off (i_inum ip)) (blk V (home ip)) ip = ip.

(** A block that is neither data nor the bitmap may change. *)
Lemma meta_fstate s V B ip s' n d B' : fstate s V B [] ip -> tx_frame s s' -> itable s' = itable s ->
  intx s' pr p ls sz B' [] (<[n := d]> V) -> 0 <= n < bm -> length d = Z.to_nat BSIZE -> fstate s' (<[n := d]> V) B' [] ip.
Proof.
  intros [X1 X2 X3 X4 X5 X6] F T X Hn Hd. pose proof X3 as [L1 L2 L3 L4 L5]. split; [done|by rewrite (tx_sb s s' F)| |by rewrite T|done|].
  - split; [done|done|done| |].
    + intros m Hm. destruct (decide (m = n)) as [->|]; [rewrite lookup_insert_eq; eauto|]. rewrite lookup_insert_ne by done. auto.
    + rewrite blk_insert_ne by lia. done.
  - eapply meta_mapped; [done|done|lia].
Qed.

Lemma iupdate_tx s V B ip : fstate s V B [] ip -> home_ok ip -> dinode_fits ip -> fits (length B) ->
  let d' := put_dinode (dinode_off (i_inum ip)) ip (blk V (home ip)) in
  exists s', iupdate i s = Ok tt s' /\ tx_frame s s' /\ itable s' = itable s /\
    fstate s' (<[home ip := d']> V) (add_block (home ip) B) [] ip.
Proof.
  intros Hs [Hh Hlog] Hf [Hf1 Hf2] d'. pose proof Hs as [X1 X2 X3 X4 X5 X6]. pose proof X3 as [L1 L2 _ L4 _].
  destruct (L4 (home ip) ltac:(lia)) as (d & Hd & Hdl). pose proof (dinode_off_range (i_inum ip)) as Ho.
  destruct (write_tx pr p ls sz s B [] V (home ip) d (put_dinode (dinode_off (i_inum ip)) ip) X1 Hd)
    as (bp & s1 & R1 & F1 & T1 & _ & _ & _ & s2 & R2 & F2 & T2 & Y2 & _); [apply not_elem_of_nil|cbn; lia|split; lia|lia|done|].
  exists s2. assert (tx_frame s s2) as F by by eapply tx_frame_trans. unfold d'. rewrite (blk_some _ _ _ Hd). split; [|split; [done|]].
  - unfold iupdate. mstep (inode_at_ok i s ip X4). erewrite bind_ok by reflexivity. rewrite X2, X5. mstep R1.
    mstep (inode_at_ok i s1 ip ltac:(congruence)). done.
  - split; [congruence|]. eapply meta_fstate; try done; [congruence|]. rewrite length_put_dinode; [done|done|]. lia.
Qed.

(** ** [writei] *)

(** What changed on the disk besides the blocks of the file. *)
Record only_file (V V' : gmap Z (list Z)) (ip ip' : inode) : Prop := {
  of_foreign : forall m, foreign V (i_addrs ip) m -> foreign V' (i_addrs ip') m /\ V' !! m = V !! m;
  of_meta : forall m, ~ (ds <= m < sb_size sbk) -> m <> bm -> m <> home ip -> V' !! m = V !! m;
  of_inodes : forall j, dinode_off j <> dinode_off (i_inum ip) ->
    bytes_at (dinode_off j) 64 (blk V' (home ip)) = bytes_at (dinode_off j) 64 (blk V (home ip))
}.

(** The end of [writei]: the size grows, and the inode is stored. *)
Lemma writei_end s V B ip off (tot : Z) : fstate s V B [] ip -> home_ok ip -> dinode_fits ip -> fits (length B) -> 0 <= off < 2 ^ 32 ->
  let ip' := set_i_size (Z.max (i_size ip) off) ip in
  let V' := <[home ip := put_dinode (dinode_off (i_inum ip)) ip' (blk V (home ip))]> V in
  exists s', (let! ip := inode_at i in when (i_size ip <? off) (iupd i (set_i_size off)) ;; iupdate i ;; ret tot) s = Ok tot s' /\
    tx_frame s s' /\ itable s' = <[i := ip']> (itable s) /\ fstate s' V' (add_block (home ip) B) [] ip'.
Proof.
  intros Hs Hh Hf Hfit Hoff ip' V'. pose proof Hs as [X1 X2 X3 X4 X5 X6].
  set (s1 := set_itable (<[i := ip']> (itable s)) s).
  assert (fstate s1 V B [] ip') as Hs1.
  { split; [by apply intx_itable|done|done| |done|done]. apply list_lookup_insert_eq. by eapply lookup_lt_Some. }
  destruct (iupdate_tx s1 V B ip' Hs1) as (s2 & R2 & F2 & T2 & Y2); [done| |done|].
  { destruct Hf as [D1 D2 D3 D4 D5 D6 D7]. split; try done. cbn. lia. }
  exists s2. split; [|split; [|done]].
  - mstep (inode_at_ok i s ip X4). assert (when (i_size ip <? off) (iupd i (set_i_size off)) s = Ok tt s1) as R1; [|mstep R1; by mstep R2].
    destruct (Z.ltb_spec (i_size ip) off) as [Hlt|Hge]; cbn [when].
    + rewrite (iupd_ok i _ s ip X4). unfold s1, ip'. by rewrite Z.max_r by lia.
    + unfold ret, s1. f_equal. assert (ip' = ip) as -> by (unfold ip'; rewrite Z.max_l by lia; by destruct ip).
      rewrite (list_insert_id (itable s) i ip X4). by destruct s as [? ? ? ? ? ? ? ? ? ? ? ? ? ? ? ? []].
  - eapply tx_frame_trans; [apply frame_itable|exact F2].
Qed.

Lemma written_dinode n s V B ip s' V' B' ip' : written n s V B ip s' V' B' ip' -> dinode_fits ip -> dinode_fits ip'.
Proof.
  intros [Hs _ _ [a P] _ _ _ _] [D1 D2 D3 D4 D5 _ _]. pose proof (mp_len _ _ _ _ (fs_map _ _ _ _ _ _ _ _ _ _ _ _ Hs)) as Hl.
  pose proof (mapped_addrs ls sz sbk ds V' (i_addrs ip') (fs_layout _ _ _ _ _ _ _ _ _ _ _ _ Hs) (fs_map _ _ _ _ _ _ _ _ _ _ _ _ Hs)) as Ha.
  split; try done; by rewrite P.
Qed.

(** Writing the blocks, then the inode. *)
Lemma written_only n s V B ip s' V' B' ip' x : written n s V B ip s' V' B' ip' -> fstate s V B [] ip -> home_ok ip -> dinode_fits ip' ->
  dinode_fits x -> i_addrs x = i_addrs ip' ->
  only_file V (<[home ip := put_dinode (dinode_off (i_inum ip)) x (blk V' (home ip))]> V') ip x.
Proof.
  intros [Hs F T [a P] Wm Wf _ _] Hs0 [Hh _] Hf Hx Ex. pose proof Hs as [_ _ Hl _ _ Hm]. pose proof (la_bm _ _ _ _ _ Hl) as Hbm.
  pose proof (la_size _ _ _ _ _ Hl) as Hsz. split.
  - intros m Hm'. destruct (Wf m Hm') as [F1 E1]. rewrite Ex.
    destruct (meta_foreign ls sz sbk ds V' (home ip) (put_dinode (dinode_off (i_inum ip)) x (blk V' (home ip))) (i_addrs ip') m Hm Hl ltac:(lia) F1) as [F2 E2].
    split; [done|congruence].
  - intros m H1 H2 H3. rewrite lookup_insert_ne by done. auto.
  - intros j Hj. pose proof (dinode_off_range (i_inum ip)).
    destruct (la_blocks _ _ _ _ _ Hl (home ip) ltac:(lia)) as (d & Hd & Hdl).
    rewrite blk_insert, (blk_some _ _ _ Hd). rewrite bytes_at_put_dinode; [|done|lia|by apply dinode_off_disjoint].
    rewrite Wm in Hd by lia. by rewrite (blk_some _ _ _ Hd).
Qed.

Lemma writei_ok s V B ip l off data :
  fstate s V B [] ip -> stores V ip l -> home_ok ip -> dinode_fits ip ->
  0 <= off <= Z.of_nat (length l) -> Z.of_nat (length l) <= MAXFILE * BSIZE ->
  off + Z.of_nat (length data) <= MAXFILE * BSIZE ->
  let nb := nblocks off (Z.of_nat (length data)) in
  fits (cost B (i_addrs ip) + nb + 1) -> (need (i_addrs ip) + nb <= length (free_list V))%nat ->
  exists s' V' B' ip', writei i (FromLocal data) off (Z.of_nat (length data)) s = Ok (Z.of_nat (length data)) s' /\
    fstate s' V' B' [] ip' /\ tx_frame s s' /\ itable s' = <[i := ip']> (itable s) /\
    stores V' ip' (splice (Z.to_nat off) data l) /\ on_disk V' ip' /\ only_file V V' ip ip' /\
    (length B' <= length B + nb + 3)%nat.
Proof.
  intros Hs [Hc Hsize] Hh Hf Hoff Hlm Hmax nb Hfit Hfree. pose proof Hs as [X1 X2 X3 X4 X5 X6]. set (n := Z.of_nat (length data)) in *.
  destruct (writei_loop_tx (Z.to_nat (n / BSIZE + 2)) s V B ip l off n 0 data) as (s1 & V1 & B1 & ip1 & R1 & W1 & C1); try done; try lia.
  { rewrite Z.sub_0_r. pose proof (nblocks_bound off n ltac:(lia) ltac:(lia)). lia. }
  { rewrite Z.sub_0_r. eapply fits_le; [|exact Hfit]. lia. }
  { rewrite Z.sub_0_r. done. }
  rewrite Z.sub_0_r in R1, W1. fold nb in W1. pose proof W1 as [Hs1 F1 T1 [a1 P1] Wm Wf Wc _].
  assert (home_ok ip1 /\ home ip1 = home ip /\ i_inum ip1 = i_inum ip /\ i_size ip1 = i_size ip) as (Hh1 & Eh & Ei & Ez) by (by rewrite P1).
  pose proof (written_dinode _ _ _ _ _ _ _ _ _ W1 Hf) as Hf1.
  pose proof (cost_length bm B1 (i_addrs ip1)) as Hcl.
  destruct (writei_end s1 V1 B1 ip1 (off + n) n Hs1 Hh1 Hf1) as (s2 & R2 & F2 & T2 & Hs2); [eapply fits_le; [|exact Hfit]; lia|lia|].
  assert (dinode_fits (set_i_size (Z.max (i_size ip1) (off + n)) ip1)) as Hf2 by (destruct Hf1; split; try done; cbn; lia).
  pose proof (la_bm _ _ _ _ _ X3) as Hbm. pose proof Hs1 as [_ _ Hl1 _ _ Hm1]. destruct Hh1 as [Hhr Hhl].
  eexists s2, _, _, _. split; [|split; [exact Hs2|split; [by eapply tx_frame_trans|split; [|split; [|split; [|split]]]]]].
  - unfold writei. mstep (inode_at_ok i s ip X4). rewrite (u32_small (off + n)) by lia.
    destruct (Z.ltb_spec (i_size ip) off), (Z.ltb_spec (off + n) off), (Z.ltb_spec (MAXFILE * BSIZE) (off + n)); try lia. cbn [orb].
    by mstep R1.
  - rewrite T2, T1. apply list_insert_insert_eq.
  - split; [eapply meta_content; try done; [lia|]|]; rewrite ?length_splice_grow by lia; cbn; lia.
  - unfold on_disk. cbn [i_inum set_i_size]. rewrite blk_insert, load_put_dinode; [by rewrite P1; destruct ip| |].
    + done.
    + destruct (la_blocks _ _ _ _ _ Hl1 (home ip1) ltac:(destruct (la_size _ _ _ _ _ Hl1); lia)) as (d & Hd & Hdl).
      rewrite (blk_some _ _ _ Hd), Hdl. pose proof (dinode_off_range (i_inum ip1)). lia.
  - rewrite Eh, Ei. by eapply written_only.
  - pose proof (length_add_block (home ip1) B1). pose proof (cost_bound bm B (i_addrs ip)). lia.
Qed.

(** C5: [writei] at [off] inside the file, inside a transaction with room in the log
    and on the disk, writes all of the data: the file has its old bytes with the data
    put in at [off], it is longer if they end beyond it, the inode is on the disk
    as in memory, no block of another file and no other inode changes, and at most one
    block per block written, and three more, are logged. *)
Theorem writei_spec s V B ip l off data :
  fstate s V B [] ip -> stores V ip l -> home_ok ip -> dinode_fits ip ->
  0 <= off <= Z.of_nat (length l) -> Z.of_nat (length l) <= MAXFILE * BSIZE ->
  off + Z.of_nat (length data) <= MAXFILE * BSIZE ->
  let nb := nblocks off (Z.of_nat (length data)) in
  fits (cost B (i_addrs ip) + nb + 1) -> (need (i_addrs ip) + nb <= length (free_list V))%nat ->
  exists s' V' B' ip', writei i (FromLocal data) off (Z.of_nat (length data)) s = Ok (Z.of_nat (length data)) s' /\
    fstate s' V' B' [] ip' /\ tx_frame s s' /\ itable s' = <[i := ip']> (itable s) /\
    stores V' ip' (splice (Z.to_nat off) data l) /\ on_disk V' ip' /\ only_file V V' ip ip' /\
    (length B' <= length B + nb + 3)%nat.
Proof. apply writei_ok. Qed.
End Write.

(** ** A disk with a file *)

#[local] Existing Instance prompt_disk.
#[local] Existing Instance prompt_disk_ok.
#[local] Instance demo_default : Build := demo_build DEFAULT.

(** Blocks 0 to 34 are in use; block 34 is the data of inode 1, a directory with the entries
    [.] and [..]. *)
Definition demo_bits : list Z := [255; 255; 255; 255; 7] ++ replicate 1019 0.
Definition demo_bytes : list Z := [1; 0; 46] ++ replicate 13 0 ++ [1; 0; 46; 46] ++ replicate 12 0.
Definition demo_block : list Z := demo_bytes ++ replicate 992 0.
Definition demo_files : gmap Z (list Z) := <[34 := demo_block]> (<[33 := demo_bits]> demo_disk).
Definition demo_ip : inode := MkInode ROOTDEV 1 1 (MkSleeplock true 5) true T_DIR 0 0 1 32 (34 :: replicate 12 0).

Lemma demo_files_at n : 0 <= n < 64 -> exists d, demo_files !! n = Some d /\ length d = Z.to_nat BSIZE.
Proof.
  intros Hn. unfold demo_files. destruct (decide (n = 34)) as [->|]; [eexists; by rewrite lookup_insert_eq|].
  rewrite lookup_insert_ne by done. destruct (decide (n = 33)) as [->|]; [eexists; by rewrite lookup_insert_eq|].
  rewrite lookup_insert_ne by done. rewrite demo_disk_at by done. by eexists.
Qed.

Lemma demo_files_range : disk_range demo_files.
Proof.
  intros n [x Hx]. unfold demo_files in Hx. destruct (decide (n = 34)) as [->|]; [lia|]. destruct (decide (n = 33)) as [->|]; [lia|].
  rewrite !lookup_insert_ne in Hx by done. apply demo_disk_range. eauto.
Qed.

Lemma demo_files_bm : blk demo_files 33 = demo_bits.
Proof. done. Qed.

Lemma demo_bits_at n : 0 <= n < 64 -> bit_free n demo_bits = bool_decide (35 <= n).
Proof.
  intros Hn. assert (forallb (fun n => Bool.eqb (bit_free n demo_bits) (bool_decide (35 <= n))) (seqZ 0 64) = true) as H by (vm_compute; done).
  rewrite forallb_forall in H. apply Bool.eqb_prop, H. apply list_elem_of_In, elem_of_seqZ. lia.
Qed.

Lemma demo_layout : layout 2 30 demo_sb 34 demo_files.
Proof.
  split; cbn [sb_size sb_bmapstart demo_sb]; [lia|lia| | |].
  - intros n Hn. unfold in_log. lia.
  - apply demo_files_at.
  - intros n Hn. rewrite demo_files_bm, demo_bits_at by lia. rewrite bool_decide_eq_false_2; [done|lia].
Qed.

Lemma demo_baddr bn : 0 <= bn < MAXFILE -> baddr demo_files (i_addrs demo_ip) bn = if decide (bn = 0) then 34 else 0.
Proof.
  intros Hbn. unfold baddr. destruct (Z.ltb_spec bn NDIRECT) as [Hlt|Hge].
  - assert (forallb (fun n => addr_of (i_addrs demo_ip) n =? (if decide (n = 0)%nat then 34 else 0)) (seq 0 12) = true) as H by (vm_compute; done).
    rewrite forallb_forall in H. specialize (H (Z.to_nat bn)). rewrite (proj1 (Z.eqb_eq _ _) (H ltac:(apply in_seq; lia))).
    repeat case_decide; try done; lia.
  - rewrite decide_False by lia. done.
Qed.

Lemma demo_used : used demo_sb 34 demo_files 34.
Proof. split; [cbn; lia|]. cbn [sb_bmapstart demo_sb]. rewrite demo_files_bm, demo_bits_at by lia. done. Qed.

Lemma demo_mapped : mapped demo_sb 34 demo_files (i_addrs demo_ip).
Proof.
  split; [done| |by left| |].
  - intros bn Hbn. rewrite demo_baddr by done. case_decide; [right; apply demo_used|by left].
  - intros bn bn' H1 H2 Hne. rewrite !demo_baddr by done. repeat case_decide; try done; lia.
  - intros bn H1. rewrite demo_baddr by done. by case_decide.
Qed.

Lemma demo_fstate : exists s, fstate 3 demo_p 2 30 demo_sb 34 0 s demo_files [] [] demo_ip /\ itable s = demo_ip :: replicate 49 zero_inode.
Proof.
  destruct (demo_started_on demo_files demo_files_range) as (s & Hix & _).
  exists (set_sb demo_sb (set_itable (demo_ip :: replicate 49 zero_inode) s)). split; [|done].
  split; [|done|apply demo_layout|done|done|apply demo_mapped].
  destruct Hix as [[[R1 R2 R3 R4 R5 R6] Hi Hb Hr] Hl Ho]. split; [|done|done]. by split; [split|..].
Qed.

Lemma demo_stores : stores demo_files demo_ip demo_bytes.
Proof.
  split; [|done]. intros k Hk. change (length demo_bytes) with 32%nat in Hk. do 32 (destruct k as [|k]; [done|]). lia.
Qed.

Lemma demo_free : length (free_list demo_sb 34 demo_files) = 29%nat.
Proof. vm_compute. done. Qed.

Lemma demo_home : home_ok 2 30 demo_sb demo_ip.
Proof. split; [vm_compute; done|]. change (~ in_log 2 30 32). unfold in_log. lia. Qed.

Lemma demo_dinode : dinode_fits demo_ip.
Proof. split; cbn; try lia. repeat constructor; lia. Qed.

Lemma writei_spec_witness : exists s s' V' ip', writei 0 (FromLocal [9; 8; 7]) 31 3 s = Ok 3 s' /\
  stores V' ip' (take 31 demo_bytes ++ [9; 8; 7]).
Proof.
  destruct demo_fstate as [s [Hs _]].
  destruct (writei_spec 3 demo_p 2 30 demo_sb 34 0 s demo_files [] demo_ip demo_bytes 31 [9; 8; 7] Hs demo_stores demo_home demo_dinode)
    as (s' & V' & B' & ip' & R & _ & _ & _ & Hst & _).
  - cbn. lia.
  - cbn. lia.
  - cbn. lia.
  - vm_compute. split; [lia|done].
  - rewrite demo_free. vm_compute. lia.
  - exists s, s', V', ip'. split; [exact R|exact Hst].
Defined.
