(* ===== verification/FsRead.v ===== *)
(** * Reading a file

    [readi] returns the bytes of the file, inside a transaction or outside one. *)

From stdpp Require Import gmap strings list fin_maps.
From S2P Require Import Prelude Layout State Sched Block Bio Log LogCommit LogTx Fs Dinode FsBits FsMap FsContent FsFile FsWrite.

Section Read.
Context {bld : Build} {dsk : Disk} {dok : DiskOk}.
Variables (pr : nat) (p : proc).

(** Any block can be read without waiting: no block is locked, and a buffer is free. *)
Definition readable (A : gmap Z (Z * bool)) : Prop :=
  (size A < 30)%nat /\ forall n r k, A !! n = Some (r, k) -> k = false /\ 1 <= r < 1000.

Lemma readable_uses B : (length B < 30)%nat -> readable (uses B []).
Proof.
  intros Hl. split; [pose proof (size_uses B []); cbn in *; lia|]. intros n r k. rewrite lookup_uses.
  rewrite decide_False by apply not_elem_of_nil. case_decide; [|done]. intros [= <- <-]. split; [done|lia].
Qed.

(** A state from which files can be read. *)
Record rstate (s : kstate) (A : gmap Z (Z * bool)) (V : gmap Z (list Z)) (i : nat) (ip : inode) : Prop := {
  rs_cache : cache s pr p A V;
  rs_read : readable A;
  rs_ip : itable s !! i = Some ip;
  rs_dev : i_dev ip = ROOTDEV;
  rs_len : length (i_addrs ip) = 13%nat
}.

(** What reading leaves alone. *)
Definition read_frame (s s' : kstate) : Prop := bio_frame s s' /\ disk s' = disk s /\ disk_writes s' = disk_writes s.

Lemma read_frame_refl s : read_frame s s.
Proof. split; [apply bio_frame_refl|done]. Qed.

Lemma read_frame_trans s1 s2 s3 : read_frame s1 s2 -> read_frame s2 s3 -> read_frame s1 s3.
Proof. intros (F1 & D1 & W1) (F2 & D2 & W2). split; [by eapply bio_frame_trans|split; congruence]. Qed.

Lemma readable_get A n : readable A -> can_get A n.
Proof.
  intros [Hsz Hrd]. unfold can_get. destruct (A !! n) as [[r k]|] eqn:E; [|done]. destruct (Hrd n r k E). split; [done|lia].
Qed.

(** The reference that [bread] took is given back. *)
Lemma drop_ref_back A n : readable A -> drop_ref (<[n := (refs A n + 1, true)]> A) n (refs A n + 1) = A.
Proof.
  intros [_ Hrd]. unfold drop_ref, refs. destruct (A !! n) as [[r k]|] eqn:E.
  - destruct (Hrd n r k E) as [-> Hr]. rewrite (proj2 (Z.eqb_neq (r + 1) 1)) by lia. rewrite insert_insert_eq.
    rewrite Z.add_simpl_r. by apply insert_id.
  - rewrite delete_insert_eq. by apply delete_id.
Qed.

Lemma unused_clean s A V n : cache s pr p A V -> readable A -> refs A n + 1 = 1 -> V !! n = disk s !! n.
Proof.
  intros [_ _ [l Hbc] _] [_ Hrd] Hr. apply (bc_idle_block _ _ _ _ _ n Hbc).
  unfold refs in Hr. destruct (A !! n) as [[r k]|] eqn:E; [|done]. destruct (Hrd n r k E). lia.
Qed.

(** A block is read and released. *)
Lemma read_block s A V i ip n d : rstate s A V i ip -> V !! n = Some d ->
  exists bp s1 b s2, bread ROOTDEV n s = Ok bp s1 /\ buf_at bp s1 = Ok b s1 /\ b_data b = d /\
    brelse bp s1 = Ok tt s2 /\ rstate s2 A V i ip /\ read_frame s s2.
Proof.
  intros [Hca Hrd Hip Hdev Hlen] Hd.
  destruct (bread_ok s pr p A V n d Hca Hd (readable_get A n Hrd)) as (bp & s1 & R1 & F1 & C1 & D1 & W1 & H1 & _).
  destruct (buf_at_held s1 pr p _ V bp n d C1 H1 Hd) as (b & Eb & Hb & _).
  destruct (brelse_ok s1 pr p _ V bp n (refs A n + 1) C1 H1) as (s2 & R2 & F2 & C2 & D2 & W2 & _).
  { by rewrite lookup_insert_eq. }
  { rewrite D1. by eapply unused_clean. }
  rewrite (drop_ref_back A n Hrd) in C2. exists bp, s1, b, s2. repeat (split; [done|]). split.
  - split; try done. by rewrite (bf_itable _ _ F2), (bf_itable _ _ F1).
  - split; [by eapply bio_frame_trans|]. split; congruence.
Qed.

(** [bmap] of a block that the file has. *)
Lemma bmap_read s A V i ip bn : rstate s A V i ip -> 0 <= bn < MAXFILE -> baddr V (i_addrs ip) bn <> 0 ->
  exists s', bmap i bn s = Ok (baddr V (i_addrs ip) bn) s' /\ rstate s' A V i ip /\ read_frame s s'.
Proof.
  intros Hs Hbn Hz. pose proof Hs as [_ _ Hip Hdev Hlen]. unfold bmap. mstep (inode_at_ok i s ip Hip). unfold baddr in *.
  destruct (Z.ltb_spec bn NDIRECT).
  - rewrite (addr_lookup (i_addrs ip) (Z.to_nat bn)) by (done || lia). erewrite bind_ok by reflexivity.
    rewrite (proj2 (Z.eqb_neq _ 0) Hz). exists s. split; [done|]. split; [done|apply read_frame_refl].
  - rewrite (u32_small (bn - NDIRECT)) by lia. rewrite (proj2 (Z.ltb_lt (bn - NDIRECT) NINDIRECT)) by lia.
    rewrite (addr_lookup (i_addrs ip) 12) by (done || lia). erewrite bind_ok by reflexivity.
    destruct (Z.eqb_spec (addr_of (i_addrs ip) 12) 0) as [|Hn0]; [done|]. erewrite bind_ok by reflexivity.
    assert (exists d, V !! addr_of (i_addrs ip) 12 = Some d) as [d Hd].
    { unfold blk in Hz. destruct (V !! addr_of (i_addrs ip) 12); [eauto|]. destruct Hz. unfold get32, bytes_at. cbn [default].
      rewrite drop_nil, take_nil. done. }
    destruct (read_block s A V i ip _ d Hs Hd) as (bp & s1 & b & s2 & R1 & Eb & Hb & R2 & Hs2 & F2).
    rewrite Hdev. mstep R1. mstep Eb. rewrite Hb. rewrite (blk_some _ _ _ Hd) in *. rewrite (proj2 (Z.eqb_neq _ 0) Hz). mstep R2.
    exists s2. done.
Qed.

(** ** The loop *)

(** The bytes of one block. *)
Lemma block_bytes V addrs l off m d : content V addrs l -> 0 <= off -> 0 < m -> off + m <= Z.of_nat (length l) ->
  m <= BSIZE - off mod BSIZE -> V !! baddr V addrs (off / BSIZE) = Some d ->
  bytes_at (Z.to_nat (off mod BSIZE)) (Z.to_nat m) d = take (Z.to_nat m) (drop (Z.to_nat off) l).
Proof.
  intros Hc Hoff Hm Hlen Hfit Hd. pose proof (Z.div_mod off BSIZE ltac:(lia)) as Eo. pose proof (Z.mod_pos_bound off BSIZE ltac:(lia)) as Bo.
  apply list_eq. intros k. destruct (decide (k < Z.to_nat m)%nat) as [Hk|Hk].
  2: { unfold bytes_at. by rewrite !lookup_take_ge by lia. }
  rewrite lookup_bytes_at, lookup_take_lt, lookup_drop by done. destruct (Hc (Z.to_nat off + k)%nat ltac:(lia)) as [_ <-]. unfold byte_of.
  assert (Z.of_nat (Z.to_nat off + k) / BSIZE = off / BSIZE) as E1
    by (symmetry; apply (Z.div_unique _ _ _ (off mod BSIZE + Z.of_nat k)); lia).
  assert (Z.of_nat (Z.to_nat off + k) mod BSIZE = off mod BSIZE + Z.of_nat k) as E2
    by (symmetry; apply (Z.mod_unique _ _ (off / BSIZE)); lia).
  rewrite E1, E2, (blk_some _ _ _ Hd). f_equal. lia.
Qed.

Lemma readi_loop_ok k : forall s A V i ip l off n tot, rstate s A V i ip -> content V (i_addrs ip) l ->
  Z.of_nat (length l) <= MAXFILE * BSIZE -> 0 <= off -> tot <= n -> off + (n - tot) <= Z.of_nat (length l) ->
  (nblocks off (n - tot) <= k)%nat ->
  exists s', readi_loop k i ToLocal off n tot s = Ok (n, take (Z.to_nat (n - tot)) (drop (Z.to_nat off) l)) s' /\
    rstate s' A V i ip /\ read_frame s s'.
Proof.
  induction k as [|k IH]; intros s A V i ip l off n tot Hs Hc Hlm Hoff Htn Hlen Hk; destruct (decide (tot = n)) as [->|Hne].
  1,3: exists s; cbn [readi_loop]; rewrite Z.ltb_irrefl, Z.sub_diag, take_0; split; [done|]; split; [done|apply read_frame_refl].
  all: destruct (nblocks_step off (n - tot) ltac:(lia) ltac:(lia)) as [Hm E]; set (m := Z.min (n - tot) (BSIZE - off mod BSIZE)) in *.
  1: lia.
  cbn [readi_loop]. rewrite (proj2 (Z.ltb_lt tot n)) by lia. mstep (inode_at_ok i s ip (rs_ip _ _ _ _ _ Hs)).
  destruct (Hc (Z.to_nat off) ltac:(lia)) as [Hz Hb]. rewrite Z2Nat.id in Hz, Hb by lia.
  destruct (bmap_read s A V i ip (off / BSIZE) Hs (div_range off ltac:(lia)) Hz) as (s1 & R1 & Hs1 & F1). mstep R1.
  assert (exists d, V !! baddr V (i_addrs ip) (off / BSIZE) = Some d) as [d Hd].
  { unfold byte_of, blk in Hb. destruct (V !! _); [eauto|]. symmetry in Hb. apply lookup_ge_None in Hb. lia. }
  destruct (read_block s1 A V i ip _ d Hs1 Hd) as (bp & s2 & b & s3 & R2 & Eb & Hbd & R3 & Hs3 & F3).
  rewrite (rs_dev _ _ _ _ _ Hs). mstep R2. fold m. mstep Eb. erewrite bind_ok by reflexivity. cbn [Z.eqb]. mstep R3. rewrite Hbd.
  rewrite (block_bytes V (i_addrs ip) l off m d Hc Hoff Hm) by (done || (unfold m; lia)).
  destruct (IH s3 A V i ip l (off + m) n (tot + m) Hs3 Hc Hlm) as (s4 & R4 & Hs4 & F4); [lia|lia|lia| |].
  { replace (n - (tot + m)) with (n - tot - m) by lia. lia. }
  cbn [dest_add]. mstep R4. exists s4. split; [|split; [done|by eapply read_frame_trans; [|eapply read_frame_trans]]].
  unfold ret. do 2 f_equal. replace (Z.to_nat (off + m)) with (Z.to_nat off + Z.to_nat m)%nat by lia. rewrite <- drop_drop.
  rewrite take_take_drop. f_equal. lia.
Qed.

(** A transaction with room can read. *)
Lemma fstate_rstate ls sz sbk ds i s V B ip : fstate pr p ls sz sbk ds i s V B [] ip -> (length B < 30)%nat ->
  rstate s (uses B []) V i ip.
Proof. intros [[X _ _] _ _ Hi Hd Hm] Hl. split; [done|by apply readable_uses|done|done|apply Hm]. Qed.

Lemma readi_ok s A V i ip l off n : rstate s A V i ip -> stores V ip l -> Z.of_nat (length l) <= MAXFILE * BSIZE ->
  0 <= off -> 0 <= n -> off + n < 2 ^ 32 ->
  let r := take (Z.to_nat n) (drop (Z.to_nat off) l) in
  exists s', readi i ToLocal off n s = Ok (Z.of_nat (length r), r) s' /\ rstate s' A V i ip /\ read_frame s s'.
Proof.
  intros Hs [Hc Hsz] Hlm Hoff Hn Hov r. unfold readi. mstep (inode_at_ok i s ip (rs_ip _ _ _ _ _ Hs)).
  rewrite (u32_small (off + n)) by lia. rewrite (proj2 (Z.ltb_ge (off + n) off)) by lia. rewrite orb_false_r, Hsz.
  destruct (Z.ltb_spec (Z.of_nat (length l)) off) as [Hlt|Hge].
  { exists s. unfold r. rewrite drop_ge, take_nil by lia. split; [done|]. split; [done|apply read_frame_refl]. }
  set (m := if Z.of_nat (length l) <? off + n then Z.of_nat (length l) - off else n).
  assert (m = Z.min n (Z.of_nat (length l) - off)) as Em by (unfold m; destruct (Z.ltb_spec (Z.of_nat (length l)) (off + n)); lia).
  destruct (readi_loop_ok (Z.to_nat (m / BSIZE + 2)) s A V i ip l off m 0 Hs Hc Hlm) as (s' & R & Hs' & F); try lia.
  { rewrite Z.sub_0_r. pose proof (nblocks_bound off m ltac:(lia) ltac:(lia)). lia. }
  rewrite Z.sub_0_r in R. assert (r = take (Z.to_nat m) (drop (Z.to_nat off) l)) as Er.
  { unfold r. destruct (decide (n <= Z.of_nat (length l) - off)); [f_equal; lia|].
    rewrite !take_ge by (rewrite length_drop; lia). done. }
  exists s'. split; [|done]. rewrite R. do 2 f_equal; [|done]. rewrite Er, length_take, length_drop. lia.
Qed.

(** C23: [readi] returns the bytes of the file from [off] on, [n] of them or as many as
    there are, and their number; nothing on the disk and no inode changes. *)
Theorem readi_spec s A V i ip l off n : rstate s A V i ip -> stores V ip l -> Z.of_nat (length l) <= MAXFILE * BSIZE ->
  0 <= off -> 0 <= n -> off + n < 2 ^ 32 ->
  let r := take (Z.to_nat n) (drop (Z.to_nat off) l) in
  exists s', readi i ToLocal off n s = Ok (Z.of_nat (length r), r) s' /\
    cache s' pr p A V /\ itable s' = itable s /\ disk s' = disk s /\ disk_writes s' = disk_writes s.
Proof.
  intros Hs Hst Hl Ho Hn Hov r. destruct (readi_ok s A V i ip l off n Hs Hst Hl Ho Hn Hov) as (s' & R & Hs' & F & D & W).
  exists s'. split; [done|]. split; [apply Hs'|]. split; [apply F|done].
Qed.
End Read.

#[local] Existing Instance prompt_disk.
#[local] Existing Instance prompt_disk_ok.
#[local] Instance demo_default : Build := demo_build DEFAULT.

Lemma readi_spec_witness : exists s s', readi 0 ToLocal 16 4 s = Ok (4, [1; 0; 46; 46]) s'.
Proof.
  destruct demo_fstate as [s [Hs _]].
  destruct (readi_spec 3 demo_p s (uses [] []) demo_files 0 demo_ip demo_bytes 16 4) as (s' & R & _).
  - apply (fstate_rstate 3 demo_p _ _ _ _ _ _ _ _ _ Hs). cbn. lia.
  - apply demo_stores.
  - cbn. lia.
  - lia.
  - lia.
  - lia.
  - exists s, s'. exact R.
Defined.
