(* ===== verification/FsDir.v ===== *)
(** * Directories

    The inode table has one entry for an inode in use, and [iget] keeps it so.  A
    directory is a finite map from names to inode numbers: [dirlookup] looks a name up
    in it and [dirlink] adds one to it. *)

From stdpp Require Import gmap strings list fin_maps.
From S2P Require Import Prelude Layout State Sched Cstring Block Bio Log LogCommit LogTx Fs Dinode FsBits FsMap FsContent FsFile FsWrite FsRead.

(** ** [iget] *)

Definition is_inode (dev inum : Z) (ip : inode) : Prop := 0 < i_ref ip /\ i_dev ip = dev /\ i_inum ip = inum.

(** The inode table: no inode has two entries. *)
Record icache_ok (t : list inode) : Prop := {
  ic_len : length t = 50%nat;
  ic_ref : forall i ip, t !! i = Some ip -> 0 <= i_ref ip;
  ic_one : forall dev inum i j ip ip', t !! i = Some ip -> t !! j = Some ip' ->
    is_inode dev inum ip -> is_inode dev inum ip' -> i = j
}.

Lemma is_inode_bool dev inum ip : (0 <? i_ref ip) && (i_dev ip =? dev) && (i_inum ip =? inum) = true <-> is_inode dev inum ip.
Proof. unfold is_inode. rewrite !andb_true_iff, Z.ltb_lt, !Z.eqb_eq. tauto. Qed.

(** The first unused entry from [j] on, if none was seen before. *)
Definition unused (t : list inode) (j n : nat) (e e' : option nat) : Prop :=
  match e with
  | Some _ => e' = e
  | None =>
      match e' with
      | Some i => (j <= i < j + n)%nat /\ exists ip, t !! i = Some ip /\ i_ref ip = 0
      | None => forall i ip, (j <= i < j + n)%nat -> t !! i = Some ip -> i_ref ip <> 0
      end
  end.

Lemma iget_loop_ok dev inum n : forall j e s, (j + n <= length (itable s))%nat ->
  exists r, iget_loop (seq j n) dev inum e s = Ok r s /\
    match r with
    | inl i => exists ip, itable s !! i = Some ip /\ is_inode dev inum ip
    | inr e' => (forall i ip, (j <= i < j + n)%nat -> itable s !! i = Some ip -> ~ is_inode dev inum ip) /\ unused (itable s) j n e e'
    end.
Proof.
  induction n as [|n IH]; intros j e s Hl; cbn [seq iget_loop].
  { exists (inr e). split; [done|]. split; [lia|]. destruct e; [done|]. cbn. lia. }
  destruct (lookup_lt_is_Some_2 (itable s) j ltac:(lia)) as [ip Hip]. mstep (inode_at_ok j s ip Hip).
  destruct ((0 <? i_ref ip) && (i_dev ip =? dev) && (i_inum ip =? inum)) eqn:Eb.
  { exists (inl j). split; [done|]. exists ip. by rewrite <- is_inode_bool. }
  assert (~ is_inode dev inum ip) as Hno by (rewrite <- is_inode_bool; congruence).
  destruct (IH (S j) (if bool_decide (e = None) && (i_ref ip =? 0) then Some j else e) s ltac:(lia)) as (r & R & Hr).
  exists r. split; [done|]. destruct r as [i|e']; [done|]. destruct Hr as [Hr1 Hr2]. split.
  { intros i ip' Hi Hip'. destruct (decide (i = j)) as [->|]; [congruence|]. apply (Hr1 i); [lia|done]. }
  destruct e as [e|]; cbn in *; [done|]. destruct (Z.eqb_spec (i_ref ip) 0) as [E0|E0]; cbn in Hr2.
  - subst e'. split; [lia|eauto].
  - destruct e' as [i|].
    + destruct Hr2 as [Hi Hex]. split; [lia|done].
    + intros i ip' Hi Hip'. destruct (decide (i = j)) as [->|]; [congruence|]. apply (Hr2 i); [lia|done].
Qed.

Lemma icache_insert t j ip dev inum : icache_ok t -> (j < length t)%nat -> is_inode dev inum ip ->
  (forall i ip', i <> j -> t !! i = Some ip' -> ~ is_inode dev inum ip') -> icache_ok (<[j := ip]> t).
Proof.
  intros [L R O] Hj Hin Hno. split; [by rewrite length_insert| |].
  - intros i ip'. rewrite list_lookup_insert_Some. intros [(<- & <- & _)|[_ Hi]]; [destruct Hin; lia|eauto].
  - intros dv n i i' x x'. rewrite !list_lookup_insert_Some.
    intros [(<- & <- & _)|[Hi Hx]] [(<- & <- & _)|[Hi' Hx']] H1 H2; [done| | |eauto].
    + destruct Hin as (? & <- & <-), H1 as (? & <- & <-). exfalso. eapply (Hno i'); eauto.
    + destruct Hin as (? & <- & <-), H2 as (? & <- & <-). exfalso. eapply (Hno i); eauto.
Qed.

(** The entry that [iget] leaves: the one in use with one more reference, or a new one
    whose contents are still to be read. *)
Definition got_inode (dev inum : Z) (old new : inode) : Prop :=
  (is_inode dev inum old /\ new = set_i_ref (i_ref old + 1) old) \/
  (i_ref old = 0 /\ new = set_i_valid false (set_i_ref 1 (set_i_inum inum (set_i_dev dev old)))).

Lemma itable_locked s t : held s = [] -> set_held [] (set_itable t (set_held [LkItable] s)) = set_itable t s.
Proof. intros Hh. rewrite <- Hh. by destruct s as [? ? ? ? ? ? ? ? ? ? ? ? ? ? ? ? []]. Qed.

Lemma iget_ok dev inum s : icache_ok (itable s) -> held s = [] ->
  (exists j old new, iget dev inum s = Ok j (set_itable (<[j := new]> (itable s)) s) /\ itable s !! j = Some old /\
    got_inode dev inum old new /\ is_inode dev inum new /\ icache_ok (<[j := new]> (itable s))) \/
  (iget dev inum s = Panic "iget: no inodes" /\
    forall i ip, itable s !! i = Some ip -> i_ref ip <> 0 /\ ~ is_inode dev inum ip).
Proof.
  intros Hok Hh. unfold iget. mstep (acquire_ok LkItable s ltac:(rewrite Hh; apply not_elem_of_nil)). rewrite Hh.
  set (s1 := set_held [LkItable] s). destruct (iget_loop_ok dev inum 50 0 None s1) as (r & R & Hr); [cbn; by rewrite (ic_len _ Hok)|].
  change (seq 0 50) with all_inodes in R. mstep R. change (itable s1) with (itable s) in Hr. destruct r as [j|[j|]].
  - destruct Hr as (old & Ho & Hin). left. exists j, old, (set_i_ref (i_ref old + 1) old). erewrite bind_ok by apply (iupd_ok j _ s1 old Ho).
    mstep (release_ok LkItable (set_itable (<[j := set_i_ref (i_ref old + 1) old]> (itable s1)) s1) [] eq_refl ltac:(apply not_elem_of_nil)).
    unfold ret, s1 at 2. rewrite (itable_locked s _ Hh). split; [done|]. split; [done|]. split; [by left|].
    assert (is_inode dev inum (set_i_ref (i_ref old + 1) old)) as Hnew by (destruct Hin as (? & ? & ?); split; [cbn; lia|done]).
    split; [done|]. eapply icache_insert; [done|by eapply lookup_lt_Some|done|]. intros i ip Hne Hi Hin'. destruct Hne. by eapply (ic_one _ Hok).
  - destruct Hr as (Hno & Hj & old & Ho & H0). left. eexists j, old, _. erewrite bind_ok by apply (iupd_ok j _ s1 old Ho).
    mstep (release_ok LkItable (set_itable (<[j := set_i_valid false (set_i_ref 1 (set_i_inum inum (set_i_dev dev old)))]> (itable s1)) s1) []
      eq_refl ltac:(apply not_elem_of_nil)).
    unfold ret, s1 at 2. rewrite (itable_locked s _ Hh). split; [done|]. split; [done|]. split; [by right|].
    split; [done|]. eapply icache_insert; [done|by eapply lookup_lt_Some|done|]. intros i ip Hne Hi. apply (Hno i); [|done].
    apply lookup_lt_Some in Hi. rewrite (ic_len _ Hok) in Hi. lia.
  - destruct Hr as (Hno & Hun). right. split; [done|]. intros i ip Hi. pose proof (lookup_lt_Some _ _ _ Hi) as Hlt. rewrite (ic_len _ Hok) in Hlt.
    split; [apply (Hun i); [lia|done]|apply (Hno i); [lia|done]].
Qed.

(** ** A directory as a map *)

Definition entries (l : list Z) : list (list Z) := (fun k => bytes_at (16 * k) 16 l) <$> seq 0 (length l / 16).

(** The name in an entry. *)
Definition de_str (de : list Z) : list Z := Cstring.cstr (take 14 (de_name de)).

Definition add_entry (de : list Z) (m : gmap (list Z) Z) : gmap (list Z) Z :=
  if de_inum de =? 0 then m else <[de_str de := de_inum de]> m.

(** Names and inode numbers; of two entries with one name, the first counts. *)
Definition dir_map (l : list Z) : gmap (list Z) Z := foldr add_entry ∅ (entries l).

Definition dir_find (nm : list Z) (es : list (list Z)) : option (nat * list Z) :=
  list_find (fun de => de_inum de <> 0 /\ de_str de = nm) es.

Lemma dir_find_map nm es : foldr add_entry ∅ es !! nm = de_inum ∘ snd <$> dir_find nm es.
Proof.
  unfold dir_find. induction es as [|de es IH]; [done|]. cbn [foldr list_find]. unfold add_entry at 1.
  destruct (Z.eqb_spec (de_inum de) 0) as [E|E].
  - rewrite decide_False by tauto. rewrite IH. by destruct (list_find _ es) as [[]|].
  - destruct (decide (de_str de = nm)) as [<-|Hne].
    + rewrite lookup_insert_eq, decide_True by done. done.
    + rewrite lookup_insert_ne, decide_False, IH by (done || tauto). by destruct (list_find _ es) as [[]|].
Qed.

(** A new name in an empty entry. *)
Lemma dir_map_insert es : forall k de old, es !! k = Some old -> de_inum old = 0 -> de_inum de <> 0 ->
  foldr add_entry ∅ es !! de_str de = None -> foldr add_entry ∅ (<[k := de]> es) = <[de_str de := de_inum de]> (foldr add_entry ∅ es).
Proof.
  induction es as [|e es IH]; intros k de old Hk Ho Hn Hnone; [done|]. destruct k as [|k]; cbn [insert list_insert foldr] in *.
  - injection Hk as ->. unfold add_entry at 1 3. rewrite Ho. by rewrite (proj2 (Z.eqb_neq _ 0) Hn).
  - unfold add_entry at 1 3. unfold add_entry at 1 in Hnone. destruct (Z.eqb_spec (de_inum e) 0) as [E|E]; [by eapply IH|].
    destruct (decide (de_str e = de_str de)) as [Eq|Hne]; [rewrite Eq, lookup_insert_eq in Hnone; done|].
    rewrite lookup_insert_ne in Hnone by done. erewrite IH by done. by rewrite insert_insert_ne.
Qed.

(** A new name at the end. *)
Lemma dir_map_app es de : de_inum de <> 0 -> foldr add_entry ∅ es !! de_str de = None ->
  foldr add_entry ∅ (es ++ [de]) = <[de_str de := de_inum de]> (foldr add_entry ∅ es).
Proof.
  intros Hn. induction es as [|e es IH]; intros Hnone; cbn [app foldr] in *.
  - unfold add_entry. by rewrite (proj2 (Z.eqb_neq _ 0) Hn).
  - unfold add_entry at 1 3. unfold add_entry at 1 in Hnone. destruct (Z.eqb_spec (de_inum e) 0) as [E|E]; [auto|].
    destruct (decide (de_str e = de_str de)) as [Eq|Hne]; [rewrite Eq, lookup_insert_eq in Hnone; done|].
    rewrite lookup_insert_ne in Hnone by done. rewrite IH by done. by rewrite insert_insert_ne.
Qed.

Lemma length_entries l : length (entries l) = (length l / 16)%nat.
Proof. unfold entries. by rewrite length_fmap, length_seq. Qed.

Lemma lookup_entries l k : (k < length l / 16)%nat -> entries l !! k = Some (bytes_at (16 * k) 16 l).
Proof. intros Hk. unfold entries. by rewrite list_lookup_fmap, lookup_seq_lt by done. Qed.

Lemma splice_app k de l : (16 * k = length l)%nat -> splice (16 * k) de l = l ++ de.
Proof. intros E. unfold splice. rewrite E, take_ge, drop_ge by lia. by rewrite app_nil_r. Qed.

(** Entry [k] replaced. *)
Lemma entries_insert l n k de : (length l = 16 * n)%nat -> length de = 16%nat -> (k < n)%nat ->
  entries (splice (16 * k) de l) = <[k := de]> (entries l).
Proof.
  intros Hl Hd Hk. assert (length (splice (16 * k) de l) = length l) as E by (rewrite length_splice; lia).
  assert (length l / 16 = n)%nat as En by (rewrite Hl, Nat.mul_comm; apply Nat.div_mul; lia).
  apply list_eq. intros j. destruct (decide (j < n)%nat) as [Hj|Hj].
  - rewrite lookup_entries by (rewrite E; lia). destruct (decide (j = k)) as [->|Hne].
    + rewrite list_lookup_insert_eq by (rewrite length_entries; lia). f_equal. rewrite <- Hd. apply bytes_at_splice. lia.
    + rewrite list_lookup_insert_ne by done. rewrite lookup_entries by lia. f_equal. apply bytes_at_splice_ne; lia.
  - rewrite !lookup_ge_None_2; [done|rewrite length_insert, length_entries; lia|rewrite length_entries, E; lia].
Qed.

(** An entry added. *)
Lemma entries_app l n de : (length l = 16 * n)%nat -> length de = 16%nat -> entries (l ++ de) = entries l ++ [de].
Proof.
  intros Hl Hd. assert (length l / 16 = n)%nat as En by (rewrite Hl, Nat.mul_comm; apply Nat.div_mul; lia).
  assert (length (l ++ de) / 16 = S n)%nat as En' by (rewrite length_app, Hl, Hd; replace (16 * n + 16)%nat with (S n * 16)%nat by lia; apply Nat.div_mul; lia).
  unfold entries. rewrite En, En', seq_S, fmap_app. cbn [fmap list_fmap Nat.add]. f_equal.
  - apply list_fmap_ext. intros i x Hx%lookup_seq. apply list_eq. intros j. destruct (decide (j < 16)%nat).
    + rewrite !lookup_bytes_at by done. rewrite lookup_app_l by lia. done.
    + unfold bytes_at. by rewrite !lookup_take_ge by lia.
  - unfold bytes_at. rewrite <- Hl, drop_app_length. by rewrite take_ge by lia.
Qed.

(** ** [dirlookup] *)

Section Dir.
Context {bld : Build} {dsk : Disk} {dok : DiskOk}.
Variables (pr : nat) (p : proc).
Abbreviation rstate := (rstate pr p).

(** An open directory with the bytes [l]. *)
Record dir (s : kstate) (A : gmap Z (Z * bool)) (V : gmap Z (list Z)) (dp : nat) (d : inode) (l : list Z) : Prop := {
  dr_state : rstate s A V dp d;
  dr_stores : stores V d l;
  dr_type : i_type d = T_DIR;
  dr_len : exists n, length l = (16 * n)%nat;
  dr_max : Z.of_nat (length l) <= MAXFILE * BSIZE
}.

Lemma read_dirent s A V dp d l k : dir s A V dp d l -> (k < length l / 16)%nat ->
  exists s', readi dp ToLocal (16 * Z.of_nat k) 16 s = Ok (16, bytes_at (16 * k) 16 l) s' /\ dir s' A V dp d l /\ read_frame s s'.
Proof.
  intros [Hs Hst Ht [n Hn] Hm] Hk. assert (length l / 16 = n)%nat as En by (rewrite Hn, Nat.mul_comm; apply Nat.div_mul; lia).
  destruct (readi_ok pr p s A V dp d l (16 * Z.of_nat k) 16 Hs Hst Hm) as (s' & R & Hs' & F); [lia|lia|lia|].
  replace (Z.to_nat (16 * Z.of_nat k)) with (16 * k)%nat in R by lia. change (take (Z.to_nat 16)) with (take (A := Z) 16) in R.
  exists s'. split; [|split; [split; eauto|done]]. rewrite R. do 2 f_equal. rewrite length_take, length_drop. lia.
Qed.

Lemma dirlookup_loop_ok name k : forall j s A V dp d l, dir s A V dp d l -> (14 <= length name)%nat ->
  (length l / 16 - j <= k)%nat -> (j <= length l / 16)%nat ->
  exists s', dirlookup_loop k dp name (16 * Z.of_nat j) s =
    match dir_find (Cstring.cstr (take 14 name)) (drop j (entries l)) with
    | None => Ok None s'
    | Some (n, de) => (let! i := iget ROOTDEV (de_inum de) in ret (Some (i, 16 * Z.of_nat (j + n)))) s'
    end /\ dir s' A V dp d l /\ read_frame s s'.
Proof.
  induction k as [|k IH]; intros j s A V dp d l Hd Hname Hk Hj; cbn [dirlookup_loop];
    pose proof Hd as [Hs [_ Hsz] _ [n Hn] _]; mstep (inode_at_ok dp s d (rs_ip _ _ _ _ _ _ _ Hs)); rewrite Hsz;
    assert (length l / 16 = n)%nat as En by (rewrite Hn, Nat.mul_comm; apply Nat.div_mul; lia);
    destruct (Z.ltb_spec (16 * Z.of_nat j) (Z.of_nat (length l))) as [Hlt|Hge]; try lia.
  1,3: exists s; rewrite drop_ge by (rewrite length_entries; lia); split; [done|]; split; [done|apply read_frame_refl].
  destruct (read_dirent s A V dp d l j Hd ltac:(lia)) as (s1 & R1 & Hd1 & F1). mstep R1. cbn [Z.eqb Pos.eqb negb].
  rewrite (drop_S (entries l) (bytes_at (16 * j) 16 l) j) by (apply lookup_entries; lia).
  set (de := bytes_at (16 * j) 16 l). unfold dir_find. cbn [list_find].
  destruct (IH (S j) s1 A V dp d l Hd1 Hname ltac:(lia) ltac:(lia)) as (s2 & R2 & Hd2 & F2).
  replace (16 * Z.of_nat (S j)) with (16 * Z.of_nat j + 16) in R2 by lia.
  assert (forall (P : Prop) (Hdec : Decision P), ~ P -> exists s', dirlookup_loop k dp name (16 * Z.of_nat j + 16) s1 =
    match (if decide P then Some (0%nat, de) else prod_map S id <$> dir_find (Cstring.cstr (take 14 name)) (drop (S j) (entries l))) with
    | None => Ok None s'
    | Some (n, de) => (let! i := iget ROOTDEV (de_inum de) in ret (Some (i, 16 * Z.of_nat (j + n)))) s'
    end /\ dir s' A V dp d l /\ read_frame s s') as Hskip.
  { intros P Hdec HP. exists s2. rewrite decide_False by done. split; [|split; [done|by eapply read_frame_trans]]. rewrite R2.
    destruct (dir_find _ _) as [[n' de']|]; cbn [fmap option_fmap option_map prod_map fst snd id]; [|done].
    by replace (S j + n')%nat with (j + S n')%nat by lia. }
  destruct (Z.eqb_spec (de_inum de) 0) as [E0|E0]; [apply Hskip; tauto|].
  assert (length (de_name de) = 14)%nat as Lde by (unfold de_name, de; rewrite length_drop, length_bytes_at; lia).
  destruct (strncmp_spec name (de_name de) 14 Hname ltac:(lia)) as (c & Ec & Hc).
  unfold namecmp. rewrite Ec. erewrite bind_ok by reflexivity. destruct (Z.eqb_spec c 0) as [->|Hne].
  - exists s1. rewrite decide_True by (split; [done|]; symmetry; by apply Hc). rewrite Nat.add_0_r.
    split; [by rewrite (rs_dev _ _ _ _ _ _ _ Hs)|done].
  - apply Hskip. intros [_ Eq]. apply Hne, Hc. symmetry. exact Eq.
Qed.

Lemma dir_turns_ok s A V dp d l : dir s A V dp d l -> (length l / 16 - 0 <= dir_turns)%nat.
Proof.
  intros Hd. pose proof (dr_max _ _ _ _ _ _ Hd) as Hm. assert (Z.of_nat dir_turns = 17153) as E by (unfold dir_turns; rewrite Z2Nat.id; done).
  destruct (dr_len _ _ _ _ _ _ Hd) as [n Hn]. rewrite Hn in Hm |- *. rewrite Nat.mul_comm, Nat.div_mul by lia. lia.
Qed.

Lemma dirlookup_ok s A V dp d l name : dir s A V dp d l -> (14 <= length name)%nat ->
  exists s', dirlookup dp name s =
    match dir_find (Cstring.cstr (take 14 name)) (entries l) with
    | None => Ok None s'
    | Some (n, de) => (let! i := iget ROOTDEV (de_inum de) in ret (Some (i, 16 * Z.of_nat n))) s'
    end /\ dir s' A V dp d l /\ read_frame s s'.
Proof.
  intros Hd Hname. pose proof Hd as [Hs _ Ht _ Hm]. unfold dirlookup. mstep (inode_at_ok dp s d (rs_ip _ _ _ _ _ _ _ Hs)).
  rewrite Ht. cbn [Z.eqb Pos.eqb negb]. destruct (dirlookup_loop_ok name dir_turns 0 s A V dp d l Hd Hname) as (s' & R & Hd' & F); [by eapply dir_turns_ok|lia|].
  exists s'. done.
Qed.

Lemma cache_itable s A V t : cache s pr p A V -> cache (set_itable t s) pr p A V.
Proof. intros [[R1 R2 R3 R4 R5 R6] Hi Hb Hr]. by split; [split|..]. Qed.

(** C24: [dirlookup] looks the name up in the map of the directory: with no such name it
    returns 0; otherwise it returns the one entry of the inode table for the inode, and
    takes a reference to it, or panics when no entry is left for it. *)
Theorem dirlookup_spec s A V dp d l name : dir s A V dp d l -> icache_ok (itable s) -> (14 <= length name)%nat ->
  match dir_map l !! Cstring.cstr (take 14 name) with
  | None => exists s', dirlookup dp name s = Ok None s' /\ itable s' = itable s /\ cache s' pr p A V
  | Some inum =>
      (exists s' i off old new, dirlookup dp name s = Ok (Some (i, off)) s' /\ itable s !! i = Some old /\
        itable s' = <[i := new]> (itable s) /\ got_inode ROOTDEV inum old new /\ icache_ok (itable s') /\ cache s' pr p A V) \/
      (dirlookup dp name s = Panic "iget: no inodes" /\
        forall i ip, itable s !! i = Some ip -> i_ref ip <> 0 /\ ~ is_inode ROOTDEV inum ip)
  end.
Proof.
  intros Hd Hic Hname. destruct (dirlookup_ok s A V dp d l name Hd Hname) as (s1 & R & Hd1 & F & _).
  unfold dir_map. rewrite dir_find_map. destruct (dir_find _ _) as [[n de]|]; cbn [fmap option_fmap option_map].
  - pose proof (rs_cache _ _ _ _ _ _ _ (dr_state _ _ _ _ _ _ Hd1)) as Hca. rewrite <- (bf_itable _ _ F) in *.
    destruct (iget_ok ROOTDEV (de_inum de) s1 Hic (run_held _ _ _ (ca_run _ _ _ _ _ Hca))) as [(j & old & new & E & Ho & Hg & _ & Hic')|[E Hall]].
    + left. eexists _, j, _, old, new. rewrite R. split; [by mstep E|]. repeat (split; [done|]). by apply cache_itable.
    + right. split; [|done]. rewrite R. unfold bind. by rewrite E.
  - exists s1. split; [done|]. split; [apply F|apply Hd1].
Qed.

(** ** [dirlink] *)

Lemma dirlink_loop_ok k : forall j s A V dp d l de, dir s A V dp d l -> length de = 16%nat ->
  (length l / 16 - j <= k)%nat -> (j <= length l / 16)%nat ->
  exists s' n de', dirlink_loop k dp de (16 * Z.of_nat j) s = Ok (16 * Z.of_nat n, de') s' /\ length de' = 16%nat /\
    (n <= length l / 16)%nat /\ ((n < length l / 16)%nat -> exists old, entries l !! n = Some old /\ de_inum old = 0) /\
    dir s' A V dp d l /\ read_frame s s'.
Proof.
  induction k as [|k IH]; intros j s A V dp d l de Hd Hde Hk Hj; cbn [dirlink_loop];
    pose proof Hd as [Hs [_ Hsz] _ [n Hn] _]; mstep (inode_at_ok dp s d (rs_ip _ _ _ _ _ _ _ Hs)); rewrite Hsz;
    assert (length l / 16 = n)%nat as En by (rewrite Hn, Nat.mul_comm; apply Nat.div_mul; lia);
    destruct (Z.ltb_spec (16 * Z.of_nat j) (Z.of_nat (length l))) as [Hlt|Hge]; try lia.
  1,3: exists s, j, de; split; [done|]; split; [done|]; split; [lia|]; split; [lia|]; split; [done|apply read_frame_refl].
  destruct (read_dirent s A V dp d l j Hd ltac:(lia)) as (s1 & R1 & Hd1 & F1). mstep R1. cbn [Z.eqb Pos.eqb negb].
  assert (length (bytes_at (16 * j) 16 l) = 16)%nat as L by (apply length_bytes_at; lia).
  destruct (Z.eqb_spec (de_inum (bytes_at (16 * j) 16 l)) 0) as [E0|E0].
  - exists s1, j, (bytes_at (16 * j) 16 l). split; [done|]. split; [done|]. split; [lia|]. split; [|done].
    intros _. exists (bytes_at (16 * j) 16 l). split; [apply lookup_entries; lia|done].
  - destruct (IH (S j) s1 A V dp d l (bytes_at (16 * j) 16 l) Hd1 L ltac:(lia) ltac:(lia)) as (s2 & m & de' & R2 & L2 & Hm & Hf & Hd2 & F2).
    replace (16 * Z.of_nat (S j)) with (16 * Z.of_nat j + 16) in R2 by lia. exists s2, m, de'. repeat (split; [done|]).
    by eapply read_frame_trans.
Qed.

Lemma cstr_take n t : Cstring.cstr (take n t) = take n (Cstring.cstr t).
Proof.
  revert t. induction n as [|n IH]; intros [|c t]; cbn; [done|done|done|]. rewrite IH. by destruct (c =? 0).
Qed.

Lemma cstr_zeros t k : Cstring.cstr (Cstring.cstr t ++ replicate k 0) = Cstring.cstr t.
Proof.
  induction t as [|c t IH]; cbn; [by destruct k|]. destruct (Z.eqb_spec c 0) as [|Hc]; [by destruct k|].
  cbn. rewrite (proj2 (Z.eqb_neq c 0) Hc). by rewrite IH.
Qed.

(** The entry that [dirlink] writes. *)
Lemma new_entry de name inum : length de = 16%nat -> (14 <= length name)%nat -> 0 <= inum < 2 ^ 16 ->
  exists nm, Cstring.strncpy (de_name de) name 14 = Some nm /\
    let de' := put16 0 inum (take 2 de ++ nm) in
    length de' = 16%nat /\ de_inum de' = inum /\ de_str de' = Cstring.cstr (take 14 name).
Proof.
  intros Hde Hname Hi. assert (length (de_name de) = 14)%nat as Ln by (unfold de_name; rewrite length_drop; lia).
  rewrite strncpy_spec by (lia || (right; lia)). rewrite (drop_ge (de_name de)), app_nil_r by lia. eexists. split; [done|].
  rewrite <- cstr_take. set (c := Cstring.cstr (take 14 name)). set (nm := c ++ _).
  assert (length c <= 14)%nat as Lc by (unfold c; rewrite cstr_take, length_take; lia).
  assert (length nm = 14)%nat as Lnm.
  { unfold nm. rewrite length_app, length_replicate. destruct (decide (length (Cstring.cstr name) <= 14)%nat).
    - assert (length c = length (Cstring.cstr name)) by (unfold c; rewrite cstr_take, length_take; lia). lia.
    - assert (length c = 14)%nat by (unfold c; rewrite cstr_take, length_take; lia). lia. }
  assert (length (take 2 de ++ nm) = 16)%nat as L by (rewrite length_app, length_take; lia).
  split; [rewrite length_put16; lia|]. split.
  - unfold de_inum. rewrite get16_put16_eq by lia. apply Z.mod_small. lia.
  - unfold de_str. assert (de_name (put16 0 inum (take 2 de ++ nm)) = nm) as ->; [|rewrite take_ge by lia; apply cstr_zeros].
    unfold de_name, put16, splice. rewrite length_le_bytes. change (take 0 (take 2 de ++ nm)) with (@nil Z). rewrite app_nil_l.
    change (0 + 2)%nat with 2%nat. rewrite drop_app_length' by (by rewrite length_le_bytes).
    by rewrite drop_app_length' by (rewrite length_take; lia).
Qed.

(** Reading changes nothing of the transaction. *)
Lemma fstate_read ls sz sbk ds i s V B ip s' : fstate pr p ls sz sbk ds i s V B [] ip ->
  rstate s' (uses B []) V i ip -> read_frame s s' -> fstate pr p ls sz sbk ds i s' V B [] ip.
Proof.
  intros [[X1 X2 X3] Hsb Hl Hi Hd Hm] [Hc _ Hi' _ _] [F _]. split; try done.
  - split; [done| |]; by rewrite (bf_log _ _ F).
  - rewrite <- Hsb. apply core_sb, F.
Qed.

Lemma dir_fstate ls sz sbk ds i s V B ip l : fstate pr p ls sz sbk ds i s V B [] ip -> (length B < 30)%nat ->
  stores V ip l -> i_type ip = T_DIR -> (exists n, length l = (16 * n)%nat) -> Z.of_nat (length l) <= MAXFILE * BSIZE ->
  dir s (uses B []) V i ip l.
Proof. intros Hs HB. split; try done. by eapply fstate_rstate. Qed.

(** Entry [n] of the directory written. *)
Lemma dir_map_write l n de : (exists m, length l = (16 * m)%nat) -> length de = 16%nat -> (n <= length l / 16)%nat ->
  ((n < length l / 16)%nat -> exists old, entries l !! n = Some old /\ de_inum old = 0) -> de_inum de <> 0 -> dir_map l !! de_str de = None ->
  let l' := splice (16 * n) de l in
  dir_map l' = <[de_str de := de_inum de]> (dir_map l) /\ exists m, length l' = (16 * m)%nat.
Proof.
  intros [m Hm] Hde Hn Hold Hi Hnone l'. assert (length l / 16 = m)%nat as En by (rewrite Hm, Nat.mul_comm; apply Nat.div_mul; lia).
  unfold l', dir_map in *. destruct (decide (n < m)%nat) as [Hlt|Hge].
  - destruct (Hold ltac:(lia)) as (old & Ho & H0). rewrite (entries_insert l m n de Hm Hde Hlt). split; [by eapply dir_map_insert|].
    exists m. rewrite length_splice; lia.
  - assert (n = m) as -> by lia. rewrite splice_app by lia. rewrite (entries_app l m de Hm Hde). split; [by apply dir_map_app|].
    exists (S m). rewrite length_app. lia.
Qed.

(** C11: [dirlink] of a name that the directory does not have, inside a transaction with
    room, adds it to the map of the directory with the inode number; it logs at most four
    blocks, and no other file or inode changes. *)
Theorem dirlink_spec ls sz sbk ds s V B dp d l name inum :
  fstate pr p ls sz sbk ds dp s V B [] d -> stores V d l -> home_ok ls sz sbk d -> dinode_fits d ->
  i_type d = T_DIR -> (exists n, length l = (16 * n)%nat) -> Z.of_nat (length l) + 16 <= MAXFILE * BSIZE ->
  (14 <= length name)%nat -> 0 < inum < 2 ^ 16 -> dir_map l !! Cstring.cstr (take 14 name) = None ->
  fits sz (cost (sb_bmapstart sbk) B (i_addrs d) + 2) -> (need (i_addrs d) < length (free_list sbk ds V))%nat ->
  exists s' V' B' d' l', dirlink dp name inum s = Ok 0 s' /\ fstate pr p ls sz sbk ds dp s' V' B' [] d' /\
    stores V' d' l' /\ dir_map l' = <[Cstring.cstr (take 14 name) := inum]> (dir_map l) /\ (exists n, length l' = (16 * n)%nat) /\
    on_disk sbk V' d' /\ only_file sbk ds V V' d d' /\ (length B' <= length B + 4)%nat.
Proof.
  intros Hs Hst Hh Hf Ht Hlen Hmax Hname Hi Hnone Hfit Hfree. pose proof (cost_length (sb_bmapstart sbk) B (i_addrs d)) as Hcl.
  assert (length B < 30)%nat as HB by (destruct Hfit; lia).
  pose proof (dir_fstate _ _ _ _ _ _ _ _ _ _ Hs HB Hst Ht Hlen ltac:(lia)) as Hd.
  destruct (dirlookup_ok s (uses B []) V dp d l name Hd Hname) as (s1 & R1 & Hd1 & F1).
  assert (dir_find (Cstring.cstr (take 14 name)) (entries l) = None) as Ef.
  { unfold dir_map in Hnone. rewrite dir_find_map in Hnone. by destruct (dir_find _ _). }
  rewrite Ef in R1.
  destruct (dirlink_loop_ok dir_turns 0 s1 (uses B []) V dp d l (replicate 16 0) Hd1 eq_refl) as (s2 & n & de & R2 & Lde & Hn & Hold & Hd2 & F2);
    [by eapply dir_turns_ok|lia|].
  destruct (new_entry de name inum Lde Hname ltac:(lia)) as (nm & Enm & Lde' & Ei & Es). set (de' := put16 0 inum (take 2 de ++ nm)) in *.
  pose proof (fstate_read _ _ _ _ _ _ _ _ _ s2 Hs (dr_state _ _ _ _ _ _ Hd2) (read_frame_trans _ _ _ F1 F2)) as Hs2.
  assert (length l / 16 * 16 = length l)%nat as El by (destruct Hlen as [m ->]; rewrite (Nat.mul_comm 16 m), Nat.div_mul by lia; lia).
  assert (nblocks (16 * Z.of_nat n) 16 = 1%nat) as Enb.
  { unfold nblocks. cbn [Z.leb Z.compare]. replace (16 * Z.of_nat n + 16 - 1) with (15 + 16 * Z.of_nat n) by lia.
    pose proof (Z.div_mod (16 * Z.of_nat n) BSIZE ltac:(lia)). pose proof (Z.mod_pos_bound (16 * Z.of_nat n) BSIZE ltac:(lia)).
    assert ((15 + 16 * Z.of_nat n) / BSIZE = 16 * Z.of_nat n / BSIZE) as ->; [|lia].
    symmetry. apply (Z.div_unique _ _ _ (15 + (16 * Z.of_nat n) mod BSIZE)); lia. }
  destruct (writei_ok pr p ls sz sbk ds dp s2 V B d l (16 * Z.of_nat n) de' Hs2 Hst Hh Hf) as (s3 & V3 & B3 & d3 & R3 & Hs3 & _ & _ & St3 & O3 & F3 & L3);
    rewrite ?Lde'; change (Z.of_nat 16) with 16; rewrite ?Enb; [lia|lia|lia|eapply fits_le; [|exact Hfit]; lia|lia|].
  rewrite Lde' in R3, L3. change (Z.of_nat 16) with 16 in R3, L3. rewrite Enb in L3. replace (Z.to_nat (16 * Z.of_nat n)) with (16 * n)%nat in St3 by lia.
  rewrite <- Es in Hnone. destruct (dir_map_write l n de' Hlen Lde' Hn Hold ltac:(lia) Hnone) as [Hmap Hlen'].
  eexists s3, V3, B3, d3, _. split; [|split; [exact Hs3|split; [exact St3|]]].
  - unfold dirlink. mstep R1. change (16 * Z.of_nat 0) with 0 in R2. mstep R2. rewrite Enm. erewrite bind_ok by reflexivity. by mstep R3.
  - rewrite <- Es, <- Ei. split; [done|]. split; [done|]. split; [done|]. split; [done|lia].
Qed.
End Dir.

#[local] Existing Instance prompt_disk.
#[local] Existing Instance prompt_disk_ok.
#[local] Instance demo_default : Build := demo_build DEFAULT.

Lemma demo_dir : exists s, dir 3 demo_p s (uses [] []) demo_files 0 demo_ip demo_bytes /\ itable s = demo_ip :: replicate 49 zero_inode.
Proof.
  destruct demo_fstate as [s [Hs Ht]]. exists s. split; [|done].
  apply (dir_fstate 3 demo_p _ _ _ _ _ _ _ _ _ _ Hs); [cbn; lia|apply demo_stores|done|by exists 2%nat|cbn; lia].
Qed.

Lemma demo_icache : icache_ok (demo_ip :: replicate 49 zero_inode).
Proof.
  assert (forall i ip, (demo_ip :: replicate 49 zero_inode) !! i = Some ip -> (i = 0%nat /\ ip = demo_ip) \/ ip = zero_inode) as H.
  { intros [|i] ip; [intros [= <-]; by left|]. intros [-> _]%lookup_replicate. by right. }
  split; [done| |].
  - intros i ip [[_ ->]| ->]%H; cbn; lia.
  - intros dev inum i j ip ip' [[-> ->]| ->]%H [[-> ->]| ->]%H [? _] [? _]; cbn in *; lia.
Qed.

(** [..] is found in the entry of the table that is in use. *)
Lemma dirlookup_spec_witness : exists s s' i off,
  dirlookup 0 [46; 46; 0; 0; 0; 0; 0; 0; 0; 0; 0; 0; 0; 0] s = Ok (Some (i, off)) s' /\ exists ip, itable s' !! i = Some ip /\ i_inum ip = 1.
Proof.
  destruct demo_dir as [s [Hd Ht]].
  pose proof (dirlookup_spec 3 demo_p s (uses [] []) demo_files 0 demo_ip demo_bytes [46; 46; 0; 0; 0; 0; 0; 0; 0; 0; 0; 0; 0; 0]
    Hd ltac:(rewrite Ht; apply demo_icache) ltac:(cbn; lia)) as H.
  assert (dir_map demo_bytes !! Cstring.cstr (take 14 [46; 46; 0; 0; 0; 0; 0; 0; 0; 0; 0; 0; 0; 0]) = Some 1) as E by (vm_compute; reflexivity).
  rewrite E in H. destruct H as [(s' & i & off & old & new & R & Ho & T & G & _)|[_ H]].
  - exists s, s', i, off. split; [exact R|]. exists new. rewrite T. split; [apply list_lookup_insert_eq; by eapply lookup_lt_Some|].
    destruct G as [[(_ & _ & Hi) ->]|[_ ->]]; [exact Hi|reflexivity].
  - exfalso. rewrite Ht in H. destruct (H 1%nat zero_inode eq_refl) as [H0 _]. by apply H0.
Defined.

Lemma dirlink_spec_witness : exists s s', dirlink 0 [97; 0; 0; 0; 0; 0; 0; 0; 0; 0; 0; 0; 0; 0] 7 s = Ok 0 s'.
Proof.
  destruct demo_fstate as [s [Hs _]].
  destruct (dirlink_spec 3 demo_p 2 30 demo_sb 34 s demo_files [] 0 demo_ip demo_bytes [97; 0; 0; 0; 0; 0; 0; 0; 0; 0; 0; 0; 0; 0] 7
    Hs demo_stores demo_home demo_dinode) as (s' & V' & B' & d' & l' & R & _).
  - reflexivity.
  - by exists 2%nat.
  - cbn. lia.
  - cbn. lia.
  - lia.
  - vm_compute. reflexivity.
  - vm_compute. split; [lia|done].
  - rewrite demo_free. vm_compute. lia.
  - exists s, s'. exact R.
Defined.
