(* ===== verification/FsPath.v ===== *)
(** * Paths

    [namei] and [nameiparent] against a file system that is a graph of directories: the
    result is the inode that the components of the path lead to, with one more reference and
    no other, and the inode table agrees with the disk before and after. *)

From stdpp Require Import gmap strings list fin_maps.
From S2P Require Import Prelude Layout State Sched Cstring Block Bio Log LogCommit LogTx Fs Dinode FsBits FsMap FsContent FsFile FsWrite FsRead FsDir.

(** ** Components of a path *)

(** The parts of a list between occurrences of [c]. *)
Fixpoint split_on (c : Z) (l : list Z) : list (list Z) :=
  match l with
  | [] => [[]]
  | x :: l =>
      if x =? c then [] :: split_on c l
      else match split_on c l with
           | w :: ws => (x :: w) :: ws
           | [] => [[x]]
           end
  end.

(** The names in a path, of which 14 characters count. *)
Definition components (path : list Z) : list (list Z) :=
  take 14 <$> filter (fun w => w <> []) (split_on chr_slash path).

Lemma split_on_cons c l : exists w ws, split_on c l = w :: ws.
Proof. induction l as [|x l (w & ws & E)]; cbn; [eauto|]. rewrite E. destruct (x =? c); eauto. Qed.

Lemma components_skip path : components (skip_slashes path) = components path.
Proof.
  unfold components. induction path as [|c path IH]; [done|]. cbn [skip_slashes split_on].
  destruct (Z.eqb_spec c chr_slash) as [->|Hc]; [|cbn [split_on]; by rewrite (proj2 (Z.eqb_neq _ _) Hc)].
  rewrite IH. by rewrite filter_cons_False by (intros H; by apply H).
Qed.

Lemma skip_slashes_head path c rest : skip_slashes path = c :: rest -> c <> chr_slash.
Proof.
  induction path as [|x path IH]; [done|]. cbn. destruct (Z.eqb_spec x chr_slash); [done|]. by intros [= <- _].
Qed.

Lemma skip_slashes_suffix path : (length (skip_slashes path) <= length path)%nat.
Proof. induction path as [|x path IH]; [done|]. cbn. destruct (x =? chr_slash); cbn; lia. Qed.

(** [take_elem] finds the first part. *)
Lemma take_elem_split path : let '(w, rest) := take_elem path in
  (length rest + length w = length path)%nat /\ (chr_slash ∉ w) /\ (0 ∉ path -> (0 ∉ w) /\ (0 ∉ rest)) /\
  exists ws, split_on chr_slash path = w :: ws /\ filter (fun w => w <> []) ws = filter (fun w => w <> []) (split_on chr_slash rest).
Proof.
  induction path as [|c path IH]; cbn [take_elem].
  - split; [done|]. split; [apply not_elem_of_nil|]. split; [done|]. by exists [].
  - destruct (Z.eqb_spec c chr_slash) as [->|Hc].
    + split; [done|]. split; [apply not_elem_of_nil|]. split; [intros H; split; [apply not_elem_of_nil|done]|].
      cbn [split_on]. rewrite Z.eqb_refl. eexists. split; [done|]. by rewrite filter_cons_False by (intros H; by apply H).
    + destruct (take_elem path) as [w rest]. destruct IH as (L & Hw & H0 & ws & E & F). cbn [length].
      split; [lia|]. split; [by apply not_elem_of_cons|]. split.
      * intros [N1 N2]%not_elem_of_cons. destruct (H0 N2). split; [by apply not_elem_of_cons|done].
      * cbn [split_on]. rewrite (proj2 (Z.eqb_neq _ _) Hc), E. by exists ws.
Qed.

(** The name in a buffer. *)
Definition name_of (name : list Z) : list Z := Cstring.cstr (take 14 name).

Lemma cstr_no_nul w : 0 ∉ w -> Cstring.cstr w = w.
Proof.
  induction w as [|c w IH]; [done|]. intros [Hc Hw]%not_elem_of_cons. cbn.
  rewrite (proj2 (Z.eqb_neq c 0)) by done. by rewrite IH.
Qed.

Lemma cstr_app_nul w l : 0 ∉ w -> Cstring.cstr (w ++ 0 :: l) = w.
Proof.
  induction w as [|c w IH]; [done|]. intros [Hc Hw]%not_elem_of_cons. cbn.
  rewrite (proj2 (Z.eqb_neq c 0)) by done. by rewrite IH.
Qed.

Lemma skip_slashes_nul path : 0 ∉ path -> 0 ∉ skip_slashes path.
Proof.
  induction path as [|c path IH]; [done|]. intros H0. cbn. destruct (c =? chr_slash); [|done].
  apply IH. by apply not_elem_of_cons in H0 as [_ ?].
Qed.

Lemma components_nil path : skip_slashes path = [] <-> components path = [].
Proof.
  rewrite <- (components_skip path). destruct (skip_slashes path) as [|c q] eqn:E; [done|]. split; [done|].
  apply skip_slashes_head in E. unfold components. cbn [split_on]. rewrite (proj2 (Z.eqb_neq _ _) E).
  destruct (split_on_cons chr_slash q) as (w & ws & ->). by rewrite filter_cons_True by done.
Qed.

Lemma skip_slashes_idem path : skip_slashes (skip_slashes path) = skip_slashes path.
Proof.
  induction path as [|c path IH]; [done|]. cbn. destruct (c =? chr_slash) eqn:E; [done|]. cbn. by rewrite E.
Qed.

(** The buffer after [skipelem]. *)
Lemma name_copied w name : length name = 14%nat -> 0 ∉ w ->
  let name' := if DIRSIZ <=? Z.of_nat (length w) then splice 0 (take 14 w) name else splice 0 (w ++ [0]) name in
  name_of name' = take 14 w /\ length name' = 14%nat.
Proof.
  intros Hl H0. unfold name_of, splice. destruct (Z.leb_spec DIRSIZ (Z.of_nat (length w))) as [Hd|Hd]; change (take 0 name) with (@nil Z); rewrite app_nil_l.
  - rewrite drop_ge, app_nil_r, take_take by (rewrite length_take; lia). rewrite length_take. split; [|lia].
    apply cstr_no_nul. intros Hin. apply H0. rewrite <- (take_drop 14 w). apply elem_of_app. by left.
  - rewrite <- app_assoc. cbn [app]. split; [|rewrite length_app; cbn; rewrite length_drop, length_app; cbn; lia].
    rewrite (take_ge w) by lia. rewrite take_ge; [by apply cstr_app_nul|].
    rewrite length_app. cbn. rewrite length_drop, length_app. cbn. lia.
Qed.

(** [skipelem] takes the first component off. *)
Lemma skipelem_spec path name : length name = 14%nat -> 0 ∉ path ->
  match skipelem path name with
  | None => components path = []
  | Some (name', rest) =>
      components path = name_of name' :: components rest /\ length name' = 14%nat /\ (0 ∉ rest) /\
      (length rest < length path)%nat /\ (rest = [] <-> components rest = [])
  end.
Proof.
  intros Hl H0. unfold skipelem. case_bool_decide as E; [by apply components_nil|].
  pose proof (skip_slashes_suffix path) as Hs. pose proof (skip_slashes_nul path H0) as H0'.
  pose proof (take_elem_split (skip_slashes path)) as Ht. destruct (take_elem (skip_slashes path)) as [w rest] eqn:Et.
  destruct Ht as (Hlen & _ & Hn & ws & Ew & Ef). destruct (Hn H0') as [Hw Hr].
  destruct (name_copied w name Hl Hw) as [En Ln]. set (name' := if DIRSIZ <=? _ then _ else _) in *.
  assert (w <> []) as Hne.
  { intros ->. destruct (skip_slashes path) as [|c q] eqn:Eq; [done|]. pose proof (skip_slashes_head _ _ _ Eq) as Hc.
    cbn [take_elem] in Et. rewrite (proj2 (Z.eqb_neq _ _) Hc) in Et. by destruct (take_elem q). }
  pose proof (skip_slashes_suffix rest) as Hs'. split; [|split; [done|split; [by apply skip_slashes_nul|split]]].
  - rewrite <- components_skip, (components_skip rest), En. unfold components. rewrite Ew, filter_cons_True by done.
    cbn [fmap list_fmap]. by rewrite Ef.
  - destruct w; [done|]. cbn in Hlen. lia.
  - rewrite <- components_nil. by rewrite skip_slashes_idem.
Qed.

(** ** Sums over the inode table *)

Definition tsum (f : inode -> Z) (t : list inode) : Z := foldr (fun ip n => f ip + n) 0 t.

Lemma tsum_insert f t : forall i old new, t !! i = Some old -> tsum f (<[i := new]> t) = tsum f t - f old + f new.
Proof.
  induction t as [|ip t IH]; intros [|i] old new; cbn; [done|done|intros [= ->]; lia|].
  intros Hi. change (f ip + tsum f (<[i := new]> t) = f ip + tsum f t - f old + f new). rewrite (IH i old new Hi). lia.
Qed.

Lemma tsum_zero f t : (forall i ip, t !! i = Some ip -> f ip = 0) -> tsum f t = 0.
Proof.
  induction t as [|ip t IH]; intros Hz; [done|]. cbn. rewrite (Hz 0%nat ip eq_refl).
  change (0 + tsum f t = 0). rewrite IH; [done|]. intros i. apply (Hz (S i)).
Qed.

Lemma tsum_one f t i ip : t !! i = Some ip -> (forall j jp, j <> i -> t !! j = Some jp -> f jp = 0) -> tsum f t = f ip.
Proof.
  revert i. induction t as [|x t IH]; intros [|i] Hi Hz; [done|done| |]; change (tsum f (x :: t)) with (f x + tsum f t).
  - injection Hi as ->. rewrite (tsum_zero f t); [lia|]. intros j jp Hj. by apply (Hz (S j)).
  - rewrite (Hz 0%nat x) by done. rewrite (IH i Hi); [lia|].
    intros j jp Hne. apply (Hz (S j)). lia.
Qed.

Lemma tsum_pos f t : (forall ip, 0 <= f ip) -> 0 < tsum f t -> exists i ip, t !! i = Some ip /\ 0 < f ip.
Proof.
  intros Hf. induction t as [|x t IH]; cbn; [lia|]. intros Hs. destruct (decide (0 < f x)) as [Hx|Hx]; [by exists 0%nat, x|].
  destruct IH as (i & ip & Hi & Hp); [unfold tsum; lia|]. by exists (S i), ip.
Qed.

(** ** The file system as a graph *)

Section Tree.
Variable sbk : superblock.

(** The inode [n] on the disk. *)
Definition node (V : gmap Z (list Z)) (n : Z) : inode := load_dinode (dinode_off n) (blk V (IBLOCK n sbk)) zero_inode.

Record is_dir (V : gmap Z (list Z)) (n : Z) (l : list Z) : Prop := {
  id_type : i_type (node V n) = T_DIR;
  id_stores : stores V (node V n) l;
  id_len : exists k, length l = (16 * k)%nat;
  id_max : Z.of_nat (length l) <= MAXFILE * BSIZE
}.

(** The inodes in [R] are in use and linked, and names in directories lead to inodes in [R]. *)
Record graph_ok (V : gmap Z (list Z)) (R : Z -> Prop) : Prop := {
  gr_block : forall n, R n -> exists d, V !! IBLOCK n sbk = Some d;
  gr_type : forall n, R n -> i_type (node V n) <> 0;
  gr_nlink : forall n, R n -> i_nlink (node V n) <> 0;
  gr_dir : forall n, R n -> i_type (node V n) = T_DIR -> exists l, is_dir V n l /\ forall nm m, dir_map l !! nm = Some m -> R m
}.

(** Where the names [cs] lead from [n]. *)
Inductive resolves (V : gmap Z (list Z)) : Z -> list (list Z) -> option Z -> Prop :=
| rv_here n : resolves V n [] (Some n)
| rv_file n c cs : i_type (node V n) <> T_DIR -> resolves V n (c :: cs) None
| rv_missing n l c cs : is_dir V n l -> dir_map l !! c = None -> resolves V n (c :: cs) None
| rv_step n l c cs m r : is_dir V n l -> dir_map l !! c = Some m -> resolves V m cs r -> resolves V n (c :: cs) r.

Lemma stores_det V ip l l' : stores V ip l -> stores V ip l' -> l = l'.
Proof.
  intros [C S] [C' S']. assert (length l = length l') as El by lia. apply list_eq. intros k.
  destruct (decide (k < length l)%nat) as [Hk|Hk]; [|by rewrite !lookup_ge_None_2 by lia].
  destruct (C k Hk) as [_ <-], (C' k ltac:(lia)) as [_ <-]. done.
Qed.

(** A path leads to one inode at most. *)
Lemma resolves_det V n cs r r' : resolves V n cs r -> resolves V n cs r' -> r = r'.
Proof.
  intros H. revert r'. induction H as [n|n c cs Ht|n l c cs Hd Hc|n l c cs m r Hd Hc _ IH]; intros r' H'; inversion H'; subst; try done.
  - by destruct Ht; eapply id_type.
  - assert (l0 = l) as -> by (eapply stores_det; [by eapply id_stores|by eapply id_stores]). congruence.
  - by destruct Hd.
  - assert (l0 = l) as -> by (eapply stores_det; [by eapply id_stores|by eapply id_stores]). congruence.
  - assert (l0 = l) as -> by (eapply stores_det; [by eapply id_stores|by eapply id_stores]).
    assert (m0 = m) as -> by congruence. by apply IH.
Qed.

(** The directory that the last name is in: [None] if there is no name or no directory. *)
Definition resolves_parent (V : gmap Z (list Z)) (n : Z) (cs : list (list Z)) (r : option (Z * list Z)) : Prop :=
  match r with
  | Some (m, c) => exists cs', cs = cs' ++ [c] /\ resolves V n cs' (Some m) /\ i_type (node V m) = T_DIR
  | None => cs = [] \/ exists cs' c, cs = cs' ++ [c] /\
      (resolves V n cs' None \/ exists m, resolves V n cs' (Some m) /\ i_type (node V m) <> T_DIR)
  end.

Lemma resolves_parent_step V n l c cs m r : is_dir V n l -> dir_map l !! c = Some m -> cs <> [] ->
  resolves_parent V m cs r -> resolves_parent V n (c :: cs) r.
Proof.
  intros Hd Hc Hne. destruct r as [[x d]|]; cbn.
  - intros (cs' & -> & Hr & Ht). exists (c :: cs'). split; [done|]. split; [by eapply rv_step|done].
  - intros [->|(cs' & d & -> & Hr)]; [done|]. right. exists (c :: cs'), d. split; [done|].
    destruct Hr as [Hr|(x & Hr & Ht)]; [left; by eapply rv_step|right; exists x; split; [by eapply rv_step|done]].
Qed.

Lemma resolves_parent_none V n c cs : cs <> [] -> (forall cs', resolves V n (c :: cs') None) -> resolves_parent V n (c :: cs) None.
Proof.
  intros Hne Hr. right. destruct cs as [|y cs _] using rev_ind; [done|]. by exists (c :: cs), y; eauto.
Qed.

(** The fields that [ilock] loads. *)
Lemma on_disk_node V ip : on_disk sbk V ip ->
  i_type ip = i_type (node V (i_inum ip)) /\ i_nlink ip = i_nlink (node V (i_inum ip)) /\
  i_size ip = i_size (node V (i_inum ip)) /\ i_addrs ip = i_addrs (node V (i_inum ip)).
Proof. intros E. unfold on_disk in E. rewrite <- E at 1 3 5 7. done. Qed.

(** ** The inode table and the disk *)

(** Entry [lk], if any, is locked by this process, whose id is [pid]. *)
Record table_ok (pid : Z) (V : gmap Z (list Z)) (lk : option nat) (t : list inode) : Prop := {
  tb_cache : icache_ok t;
  tb_dev : forall i ip, t !! i = Some ip -> 0 < i_ref ip -> i_dev ip = ROOTDEV;
  tb_sync : forall i ip, t !! i = Some ip -> 0 < i_ref ip -> i_valid ip = true -> on_disk sbk V ip;
  tb_lock : forall i ip, t !! i = Some ip -> i_lock ip = if decide (lk = Some i) then MkSleeplock true pid else MkSleeplock false 0
}.

(** References to the inode [n], and unused entries. *)
Definition ref_to (n : Z) (ip : inode) : Z := if (0 <? i_ref ip) && (i_dev ip =? ROOTDEV) && (i_inum ip =? n) then i_ref ip else 0.
Definition refs_to (t : list inode) (n : Z) : Z := tsum (ref_to n) t.
Definition spare (t : list inode) : Z := tsum (fun ip => if i_ref ip =? 0 then 1 else 0) t.

Lemma ref_to_is n ip : is_inode ROOTDEV n ip -> ref_to n ip = i_ref ip.
Proof. intros Hi. unfold ref_to. by rewrite (proj2 (is_inode_bool _ _ _) Hi). Qed.

Lemma ref_to_not n ip : ~ is_inode ROOTDEV n ip -> ref_to n ip = 0.
Proof. intros Hi. unfold ref_to. rewrite <- is_inode_bool in Hi. by destruct ((_ && _) && _). Qed.

Lemma refs_entry t i ip n : icache_ok t -> t !! i = Some ip -> is_inode ROOTDEV n ip -> refs_to t n = i_ref ip.
Proof.
  intros Hc Hi Hn. unfold refs_to. rewrite (tsum_one _ t i ip Hi); [by apply ref_to_is|].
  intros j jp Hne Hj. apply ref_to_not. intros Hn'. apply Hne. by eapply (ic_one _ Hc).
Qed.

Lemma refs_none t n : (forall i ip, t !! i = Some ip -> ~ is_inode ROOTDEV n ip) -> refs_to t n = 0.
Proof. intros Hno. apply tsum_zero. intros i ip Hi. apply ref_to_not. by eapply Hno. Qed.

(** An entry changes and stays the entry of its inode. *)
Lemma refs_update t i old new n : t !! i = Some old -> is_inode ROOTDEV n old -> is_inode ROOTDEV n new ->
  forall m, refs_to (<[i := new]> t) m = refs_to t m + (if decide (m = n) then i_ref new - i_ref old else 0).
Proof.
  intros Hi Ho Hn m. unfold refs_to. rewrite (tsum_insert _ t i old new Hi). case_decide as E.
  - subst m. rewrite !ref_to_is by done. lia.
  - rewrite !ref_to_not; [lia|..]; intros (_ & _ & ?); destruct Ho as (_ & _ & ?), Hn as (_ & _ & ?); congruence.
Qed.

Lemma spare_update t i old new : t !! i = Some old ->
  spare (<[i := new]> t) = spare t - (if i_ref old =? 0 then 1 else 0) + (if i_ref new =? 0 then 1 else 0).
Proof. intros Hi. unfold spare. by rewrite (tsum_insert _ t i old new Hi). Qed.
End Tree.

Section Ops.
Context {bld : Build} {dsk : Disk} {dok : DiskOk}.
Variables (pr : nat) (p : proc) (sbk : superblock) (A : gmap Z (Z * bool)) (V : gmap Z (list Z)).
Abbreviation table_ok := (table_ok sbk (p_pid p) V).
Abbreviation node := (node sbk V).
Abbreviation on_disk := (on_disk sbk V).

(** A running process, blocks that can be read, and an inode table that agrees with the disk. *)
Record wstate (lk : option nat) (s : kstate) : Prop := {
  ws_cache : cache s pr p A V;
  ws_read : readable A;
  ws_table : table_ok lk (itable s);
  ws_sb : sb s = sbk
}.

(** What looking a path up leaves alone. *)
Record path_frame (s s' : kstate) : Prop := {
  pf_core : core s' = core s;
  pf_log : klogst s' = klogst s;
  pf_disk : disk s' = disk s;
  pf_writes : disk_writes s' = disk_writes s;
  pf_procs : woken (cur s) (procs s) (procs s')
}.

Lemma path_frame_refl s : path_frame s s.
Proof. constructor; auto using woken_refl. Qed.

Lemma path_frame_trans s1 s2 s3 : path_frame s1 s2 -> path_frame s2 s3 -> path_frame s1 s3.
Proof.
  intros [C1 L1 D1 W1 P1] [C2 L2 D2 W2 P2]. constructor; try congruence. rewrite (core_cur _ _ C1) in P2. eauto using woken_trans.
Qed.

Lemma path_frame_read s s' : read_frame s s' -> path_frame s s'.
Proof. intros ([C L _ P _] & D & W). by constructor. Qed.

Lemma path_frame_itable s t : path_frame s (set_itable t s).
Proof. constructor; auto using woken_refl. Qed.

Definition at_inode (t : list inode) (i : nat) (n : Z) : Prop := exists ip, t !! i = Some ip /\ is_inode ROOTDEV n ip.

Lemma wstate_itable lk lk' s t : wstate lk s -> table_ok lk' t -> wstate lk' (set_itable t s).
Proof. intros [Hc Hr _ Hs] Ht. split; [by apply cache_itable|done|done|done]. Qed.

Lemma table_insert lk lk' t j old new : table_ok lk t -> t !! j = Some old -> icache_ok (<[j := new]> t) ->
  (0 < i_ref new -> i_dev new = ROOTDEV) -> (0 < i_ref new -> i_valid new = true -> on_disk new) ->
  i_lock new = (if decide (lk' = Some j) then MkSleeplock true (p_pid p) else MkSleeplock false 0) ->
  (forall i, i <> j -> lk = Some i <-> lk' = Some i) -> table_ok lk' (<[j := new]> t).
Proof.
  intros [T1 T2 T3 T4] Hj Hc Hd Hs Hl Hlk. split; [done|..]; intros i ip;
    rewrite list_lookup_insert_Some; intros [(<- & <- & _)|[Hne Hi]]; eauto.
  rewrite (T4 i ip Hi). destruct (Hlk i ltac:(done)). by repeat case_decide; tauto.
Qed.

(** Entries that differ in references and lock only. *)
Lemma on_disk_fields ip r v : on_disk ip -> on_disk (set_i_ref r (set_i_lock v ip)).
Proof.
  unfold FsWrite.on_disk. intros E.
  trans (set_i_ref r (set_i_lock v (load_dinode (dinode_off (i_inum ip)) (blk V (IBLOCK (i_inum ip) sbk)) ip))); [done|by rewrite E].
Qed.

Lemma icache_same t i old new n : icache_ok t -> t !! i = Some old -> is_inode ROOTDEV n old -> is_inode ROOTDEV n new ->
  icache_ok (<[i := new]> t).
Proof.
  intros Hc Hi Ho Hn. eapply icache_insert; [done|by eapply lookup_lt_Some|done|].
  intros j jp Hne Hj Hin. apply Hne. by eapply (ic_one _ Hc).
Qed.

Lemma iget_w lk s n : wstate lk s -> 1 <= spare (itable s) ->
  exists j s', iget ROOTDEV n s = Ok j s' /\ wstate lk s' /\ path_frame s s' /\ at_inode (itable s') j n /\
    (forall i m, at_inode (itable s) i m -> at_inode (itable s') i m) /\
    (forall m, refs_to (itable s') m = refs_to (itable s) m + (if decide (m = n) then 1 else 0)) /\
    spare (itable s') = spare (itable s) - (if decide (refs_to (itable s) n = 0) then 1 else 0).
Proof.
  intros Hw Hsp. pose proof Hw as [Hca Hrd Ht Hsb]. pose proof Ht as [Hic Hdv Hsy Hlk].
  destruct (iget_ok ROOTDEV n s Hic (run_held _ _ _ (ca_run _ _ _ _ _ Hca))) as [(j & old & new & E & Ho & Hg & Hin & Hic')|[_ Hall]].
  2: { exfalso. destruct (tsum_pos (fun ip => if i_ref ip =? 0 then 1 else 0) (itable s)) as (i & ip & Hi & Hp); [intros; by destruct (_ =? 0)|unfold spare in Hsp; lia|].
    destruct (Z.eqb_spec (i_ref ip) 0); [|lia]. by destruct (Hall i ip Hi). }
  exists j, (set_itable (<[j := new]> (itable s)) s). split; [done|]. assert (at_inode (<[j := new]> (itable s)) j n) as Hat.
  { exists new. split; [apply list_lookup_insert_eq; by eapply lookup_lt_Some|done]. }
  split; [|split; [apply path_frame_itable|split; [exact Hat|]]].
  - eapply wstate_itable; [done|]. destruct Hg as [[Hio ->]|[H0 ->]].
    + eapply table_insert; try done; [intros _; apply (proj1 (proj2 Hio))| |by apply (Hlk j old)].
      intros _ Hv. change (set_i_ref (i_ref old + 1) old) with (set_i_ref (i_ref old + 1) (set_i_lock (i_lock old) old)).
      apply on_disk_fields. eapply Hsy; [done|by destruct Hio|done].
    + eapply table_insert; try done. by apply (Hlk j old).
  - cbn [itable set_itable]. destruct Hg as [[Hio ->]|[H0 ->]].
    + split; [|split].
      * intros i m (ip & Hi & Hm). destruct (decide (i = j)) as [->|Hne].
        { exists (set_i_ref (i_ref old + 1) old). split; [apply list_lookup_insert_eq; by eapply lookup_lt_Some|].
          rewrite Ho in Hi. injection Hi as <-. destruct Hm as (? & ? & ?). split; [cbn; lia|done]. }
        exists ip. by rewrite list_lookup_insert_ne.
      * intros m. rewrite (refs_update (itable s) j old _ n Ho Hio Hin). cbn. case_decide; lia.
      * rewrite (spare_update (itable s) j old _ Ho), (refs_entry _ _ _ _ Hic Ho Hio). cbn.
        destruct Hio as (Hp & _). rewrite (proj2 (Z.eqb_neq _ 0)), (proj2 (Z.eqb_neq _ 0)), decide_False by lia. lia.
    + assert (forall i ip, itable s !! i = Some ip -> ~ is_inode ROOTDEV n ip) as Hno.
      { intros i ip Hi Hn. destruct (decide (i = j)) as [->|Hne]; [rewrite Ho in Hi; injection Hi as <-; destruct Hn; lia|].
        apply Hne. eapply (ic_one _ Hic' ROOTDEV n); [by rewrite list_lookup_insert_ne|apply list_lookup_insert_eq; by eapply lookup_lt_Some|done|done]. }
      split; [|split].
      * intros i m (ip & Hi & Hm). destruct (decide (i = j)) as [->|Hne]; [rewrite Ho in Hi; injection Hi as <-; destruct Hm; lia|].
        exists ip. by rewrite list_lookup_insert_ne.
      * intros m. unfold refs_to. rewrite (tsum_insert _ (itable s) j old _ Ho).
        rewrite (ref_to_not m old) by (intros (? & _); lia). case_decide as E'.
        { subst m. rewrite ref_to_is by done. cbn. lia. }
        rewrite ref_to_not by (intros (_ & _ & ?); cbn in *; congruence). lia.
      * rewrite (spare_update (itable s) j old _ Ho), (refs_none _ _ Hno), H0, decide_True by done. cbn. lia.
Qed.

(** Two tables with the same references. *)
Definition same_use (t t' : list inode) : Prop := (forall m, refs_to t' m = refs_to t m) /\ spare t' = spare t.

Lemma same_use_insert t i old new n : t !! i = Some old -> is_inode ROOTDEV n old -> is_inode ROOTDEV n new -> i_ref new = i_ref old ->
  same_use t (<[i := new]> t).
Proof.
  intros Hi Ho Hn E. split.
  - intros m. rewrite (refs_update t i old new n Hi Ho Hn). case_decide; lia.
  - rewrite (spare_update t i old new Hi), E. lia.
Qed.

Lemma insert_twice_lookup (t : list inode) i old x : t !! i = Some old -> <[i := x]> t !! i = Some x.
Proof. intros Hi. apply list_lookup_insert_eq. by eapply lookup_lt_Some. Qed.

(** The locked entry. *)
Record locked_at (s : kstate) (i : nat) (n : Z) (ip : inode) : Prop := {
  lk_at : itable s !! i = Some ip;
  lk_is : is_inode ROOTDEV n ip;
  lk_disk : on_disk ip;
  lk_valid : i_valid ip = true
}.

(** An entry whose contents are read from the block [d]. *)
Lemma ilock_load s i ip n d :
  wstate (Some i) s -> itable s !! i = Some ip -> is_inode ROOTDEV n ip -> V !! IBLOCK n sbk = Some d -> i_type (node n) <> 0 ->
  exists s' ip', (let! sb := gets sb in
      let! bp := bread (i_dev ip) (IBLOCK (i_inum ip) sb) in
      let! b := buf_at bp in
      iupd i (load_dinode (dinode_off (i_inum ip)) (b_data b)) ;;
      brelse bp ;;
      iupd i (set_i_valid true) ;;
      let! ip := inode_at i in
      if i_type ip =? 0 then panic "ilock: no type" else ret tt) s = Ok tt s' /\
    wstate (Some i) s' /\ path_frame s s' /\ same_use (itable s) (itable s') /\ locked_at s' i n ip'.
Proof.
  intros Hw Hi Hn Hd Hty. pose proof Hw as [Hca Hrd Ht Hsb]. pose proof Hn as (Hpos & Hdev & Hinum).
  erewrite bind_ok by reflexivity. rewrite Hsb, Hdev, Hinum.
  destruct (bread_ok s pr p A V _ d Hca Hd (readable_get A _ Hrd)) as (bp & s1 & R1 & F1 & C1 & D1 & W1 & H1 & _).
  destruct (buf_at_held s1 pr p _ V bp _ d C1 H1 Hd) as (b & Eb & Hb & _). mstep R1. mstep Eb. rewrite Hb.
  assert (itable s1 !! i = Some ip) as Hi1 by (by rewrite (bf_itable _ _ F1)).
  erewrite bind_ok by apply (iupd_ok i _ s1 ip Hi1). set (ip1 := load_dinode (dinode_off n) d ip).
  set (s2 := set_itable (<[i := ip1]> (itable s1)) s1).
  assert (cache s2 pr p (<[IBLOCK n sbk := (refs A (IBLOCK n sbk) + 1, true)]> A) V) as C2 by (by apply cache_itable).
  destruct (brelse_ok s2 pr p _ V bp _ (refs A (IBLOCK n sbk) + 1) C2 H1) as (s3 & R3 & F3 & C3 & D3 & W3 & _).
  { by rewrite lookup_insert_eq. }
  { change (disk s2) with (disk s1). rewrite D1. by eapply unused_clean. }
  rewrite (drop_ref_back A _ Hrd) in C3. mstep R3.
  assert (itable s3 = <[i := ip1]> (itable s)) as Et by (by rewrite (bf_itable _ _ F3); cbn; rewrite (bf_itable _ _ F1)).
  assert (itable s3 !! i = Some ip1) as Hi3 by (rewrite Et; by eapply insert_twice_lookup).
  erewrite bind_ok by apply (iupd_ok i _ s3 ip1 Hi3). set (ip2 := set_i_valid true ip1).
  set (s4 := set_itable (<[i := ip2]> (itable s3)) s3).
  assert (itable s4 = <[i := ip2]> (itable s)) as Et4 by (cbn; rewrite Et; apply list_insert_insert_eq).
  assert (itable s4 !! i = Some ip2) as Hi4 by (rewrite Et4; by eapply insert_twice_lookup).
  mstep (inode_at_ok i s4 ip2 Hi4). assert (blk V (IBLOCK n sbk) = d) as Ebk by (by apply blk_some).
  assert (i_type ip2 = i_type (node n)) as Ety by (unfold FsPath.node; by rewrite Ebk).
  rewrite Ety, (proj2 (Z.eqb_neq _ 0) Hty). assert (is_inode ROOTDEV n ip2) as Hn2 by (by repeat split).
  assert (on_disk ip2) as Hdk by (unfold FsWrite.on_disk; cbn [i_inum]; change (i_inum ip2) with (i_inum ip); by rewrite Hinum, Ebk).
  exists s4, ip2. split; [done|]. split; [|split; [|split; [rewrite Et4; by eapply same_use_insert|by split]]].
  - split; [by apply cache_itable|done| |].
    + rewrite Et4. eapply table_insert; try done; [by eapply icache_same; [apply Ht|..]|by apply (tb_lock _ _ _ _ _ Ht i ip)].
    + rewrite <- Hsb. trans (sb s3); [done|]. rewrite (core_sb _ _ (bf_core _ _ F3)). cbn. by rewrite (core_sb _ _ (bf_core _ _ F1)).
  - eapply path_frame_trans; [by apply path_frame_read; split; [exact F1|]|]. eapply path_frame_trans; [apply path_frame_itable|].
    eapply path_frame_trans; [by apply path_frame_read; split; [exact F3|]|]. apply path_frame_itable.
Qed.

Lemma ilock_w s i n d : wstate None s -> at_inode (itable s) i n -> V !! IBLOCK n sbk = Some d -> i_type (node n) <> 0 ->
  exists s' ip, ilock (Some i) s = Ok tt s' /\ wstate (Some i) s' /\ path_frame s s' /\ same_use (itable s) (itable s') /\ locked_at s' i n ip.
Proof.
  intros Hw (ip & Hi & Hn) Hd Hty. pose proof Hw as [Hca Hrd Ht Hsb]. pose proof Hn as (Hpos & Hdev & Hinum).
  pose proof (ca_run _ _ _ _ _ Hca) as [R1 (q & Hq & Eq) R3 R4 R5 R6].
  unfold ilock. mstep (inode_at_ok i s ip Hi). rewrite (proj2 (Z.ltb_ge (i_ref ip) 1)) by lia.
  pose proof (tb_lock _ _ _ _ _ Ht i ip Hi) as Hl. rewrite decide_False in Hl by done.
  mstep (acquiresleep_free (SlInode i) (MkSleeplock false 0) pr q s ltac:(rewrite R4; apply not_elem_of_nil)
    ltac:(simpl; by rewrite Hi, <- Hl) eq_refl R1 Hq).
  cbn [slset]. rewrite (alter_is_insert _ _ _ _ Hi), <- (same_proc_pid _ _ Eq). set (ip1 := set_i_lock _ ip).
  set (s1 := set_itable _ s). assert (itable s1 !! i = Some ip1) as Hi1 by (by eapply insert_twice_lookup).
  assert (is_inode ROOTDEV n ip1) as Hn1 by done.
  assert (forall v, on_disk ip -> on_disk (set_i_lock v ip)) as Hod.
  { intros v Ho. exact (on_disk_fields ip (i_ref ip) v Ho). }
  assert (wstate (Some i) s1) as Hw1.
  { eapply wstate_itable; [done|]. eapply table_insert; try done; [by eapply icache_same; [apply Ht|..]| | |].
    - intros _ Hv. by eapply Hod, (tb_sync _ _ _ _ _ Ht).
    - by rewrite decide_True.
    - intros j Hne. split; [done|]. intros [= ->]. done. }
  assert (same_use (itable s) (itable s1)) as Hu1 by (by eapply same_use_insert).
  mstep (inode_at_ok i s1 ip1 Hi1). destruct (i_valid ip1) eqn:Ev.
  - exists s1, ip1. split; [done|]. split; [done|]. split; [apply path_frame_itable|]. split; [done|]. split; [done|done| |done].
    by apply Hod, (tb_sync _ _ _ _ _ Ht i).
  - destruct (ilock_load s1 i ip1 n d Hw1 Hi1 Hn1 Hd Hty) as (s2 & ip2 & E2 & Hw2 & F2 & [U1 U2] & L2).
    exists s2, ip2. split; [exact E2|]. split; [done|]. split; [eapply path_frame_trans; [apply path_frame_itable|done]|].
    split; [|done]. destruct Hu1 as [U3 U4]. split; [intros m; by rewrite U1|by rewrite U2].
Qed.

(** The directory that the locked entry is. *)
Lemma locked_dir s i n ip l : wstate (Some i) s -> locked_at s i n ip -> is_dir sbk V n l -> dir pr p s A V i ip l.
Proof.
  intros [Hca Hrd Ht Hsb] [Hi (Hpos & Hdev & Hinum) Ho _] [D1 D2 D3 D4]. destruct (on_disk_node sbk V ip Ho) as (E1 & _ & E3 & E4).
  rewrite Hinum in *. split; [split; try done| | |done|done].
  - by rewrite E4.
  - destruct D2 as [Hc Hs]. split; [by rewrite E4|by rewrite E3].
  - by rewrite E1.
Qed.

Lemma wstate_frame lk s s' : wstate lk s -> cache s' pr p A V -> read_frame s s' -> wstate lk s'.
Proof.
  intros [Hca Hrd Ht Hsb] Hca' [F _]. split; [done|done|by rewrite (bf_itable _ _ F)|]. rewrite <- Hsb. apply core_sb, F.
Qed.

Lemma dirlookup_w s i n ip l name : wstate (Some i) s -> locked_at s i n ip -> is_dir sbk V n l -> length name = 14%nat ->
  1 <= spare (itable s) ->
  match dir_map l !! name_of name with
  | None => exists s', dirlookup i name s = Ok None s' /\ wstate (Some i) s' /\ path_frame s s' /\ itable s' = itable s
  | Some m => exists s' j off, dirlookup i name s = Ok (Some (j, off)) s' /\ wstate (Some i) s' /\ path_frame s s' /\
      at_inode (itable s') j m /\ at_inode (itable s') i n /\
      (forall x, refs_to (itable s') x = refs_to (itable s) x + (if decide (x = m) then 1 else 0)) /\
      spare (itable s') = spare (itable s) - (if decide (refs_to (itable s) m = 0) then 1 else 0)
  end.
Proof.
  intros Hw Hl Hd Hname Hsp. pose proof (locked_dir s i n ip l Hw Hl Hd) as Hdir.
  destruct (dirlookup_ok pr p s A V i ip l name Hdir ltac:(lia)) as (s1 & E & Hd1 & F).
  assert (wstate (Some i) s1) as Hw1 by (eapply wstate_frame; [done|apply Hd1|done]). pose proof (bf_itable _ _ (proj1 F)) as Et.
  unfold dir_map, name_of. rewrite dir_find_map. destruct (dir_find _ _) as [[k de]|]; cbn [fmap option_fmap option_map].
  - destruct (iget_w (Some i) s1 (de_inum de) Hw1 ltac:(by rewrite Et)) as (j & s2 & E2 & Hw2 & F2 & Hj & Hat & Hr & Hs). rewrite Et in *.
    exists s2, j, (16 * Z.of_nat k). split; [rewrite E; by mstep E2|]. split; [done|].
    split; [eapply path_frame_trans; [by apply path_frame_read|done]|]. split; [done|]. split; [|done].
    apply Hat. exists ip. split; apply Hl.
  - exists s1. split; [done|]. split; [done|]. split; [by apply path_frame_read|done].
Qed.

Lemma iunlock_w s i n : wstate (Some i) s -> at_inode (itable s) i n ->
  exists s', iunlock (Some i) s = Ok tt s' /\ wstate None s' /\ path_frame s s' /\ same_use (itable s) (itable s') /\
    forall j m, at_inode (itable s) j m -> at_inode (itable s') j m.
Proof.
  intros Hw (ip & Hi & Hn). pose proof Hw as [Hca Hrd Ht Hsb]. pose proof Hn as (Hpos & Hdev & Hinum).
  pose proof (ca_run _ _ _ _ _ Hca) as [R1 (q & Hq & Eq) R3 R4 R5 R6].
  pose proof (tb_lock _ _ _ _ _ Ht i ip Hi) as Hl. rewrite decide_True in Hl by done.
  assert (slv (SlInode i) s = Some (MkSleeplock true (p_pid p))) as Hv by (simpl; by rewrite Hi, <- Hl).
  assert (sl_lk (SlInode i) ∉ held s) as Hh by (rewrite R4; apply not_elem_of_nil).
  unfold iunlock. mstep (holdingsleep_ok (SlInode i) _ pr q s Hh Hv R1 Hq). cbn [sl_locked sl_pid andb].
  rewrite <- (same_proc_pid _ _ Eq), Z.eqb_refl. cbn [negb]. mstep (inode_at_ok i s ip Hi). rewrite (proj2 (Z.ltb_ge (i_ref ip) 1)) by lia.
  rewrite (releasesleep_ok (SlInode i) _ s Hh Hv); [|intros j; rewrite R4; apply not_elem_of_nil|done].
  cbn [slset sl_chan]. rewrite (alter_is_insert _ _ _ _ Hi). set (ip1 := set_i_lock _ ip). set (t1 := <[i := ip1]> (itable s)).
  assert (is_inode ROOTDEV n ip1) as Hn1 by done.
  eexists. split; [reflexivity|]. set (s1 := set_procs _ _). assert (path_frame s s1) as F.
  { constructor; try done. cbn. apply woken_wake_all. }
  split; [|split; [done|split; [by eapply same_use_insert|]]].
  - destruct Hca as [Hr Hid Hbc Hdr]. split; [split; try done; eapply woken_running; [apply F|apply F|done]|done| |done].
    change (itable s1) with t1. eapply table_insert; try done; [by eapply icache_same; [apply Ht|..]| |].
    + intros _ Hval. apply (on_disk_fields ip (i_ref ip)). by eapply (tb_sync _ _ _ _ _ Ht).
    + intros j Hne. split; [|done]. intros [= ->]. done.
  - intros j m (jp & Hj & Hm). change (itable s1) with t1. destruct (decide (j = i)) as [->|Hne].
    + rewrite Hi in Hj. injection Hj as <-. exists ip1. split; [by eapply insert_twice_lookup|done].
    + exists jp. unfold t1. by rewrite list_lookup_insert_ne.
Qed.

Lemma iput_w s i n : wstate None s -> at_inode (itable s) i n -> i_nlink (node n) <> 0 ->
  exists s', iput i s = Ok tt s' /\ wstate None s' /\ path_frame s s' /\
    (forall m, refs_to (itable s') m = refs_to (itable s) m - (if decide (m = n) then 1 else 0)) /\
    spare (itable s') = spare (itable s) + (if decide (refs_to (itable s) n = 1) then 1 else 0) /\
    forall j m, at_inode (itable s) j m -> (m = n -> 1 < refs_to (itable s) n) -> at_inode (itable s') j m.
Proof.
  intros Hw (ip & Hi & Hn) Hnl. pose proof Hw as [Hca Hrd Ht Hsb]. pose proof Hn as (Hpos & Hdev & Hinum). pose proof (tb_cache _ _ _ _ _ Ht) as Hic.
  pose proof (run_held _ _ _ (ca_run _ _ _ _ _ Hca)) as R4. pose proof (refs_entry _ _ _ _ Hic Hi Hn) as Hre.
  unfold iput. mstep (acquire_ok LkItable s ltac:(rewrite R4; apply not_elem_of_nil)). rewrite R4. set (s1 := set_held [LkItable] s).
  mstep (inode_at_ok i s1 ip Hi).
  assert ((i_ref ip =? 1) && i_valid ip && (i_nlink ip =? 0) = false) as ->.
  { destruct (i_valid ip) eqn:Ev; [|by rewrite andb_false_r]. destruct (on_disk_node sbk V ip) as (_ & E & _); [by eapply (tb_sync _ _ _ _ _ Ht)|].
    rewrite E, Hinum, (proj2 (Z.eqb_neq _ 0) Hnl). apply andb_false_r. }
  erewrite bind_ok by reflexivity. erewrite bind_ok by apply (iupd_ok i _ s1 ip Hi). set (ip1 := set_i_ref (i_ref ip - 1) ip).
  rewrite (release_ok LkItable (set_itable (<[i := ip1]> (itable s1)) s1) [] eq_refl ltac:(apply not_elem_of_nil)).
  eexists. split; [reflexivity|]. change (itable s1) with (itable s). unfold s1. rewrite (itable_locked s _ R4). set (t1 := <[i := ip1]> (itable s)).
  assert (icache_ok t1) as Hic1.
  { split; [unfold t1; rewrite length_insert; apply Hic|..].
    - intros j jp. unfold t1. rewrite list_lookup_insert_Some. intros [(<- & <- & _)|[_ Hj]]; [cbn; lia|by eapply Hic].
    - intros dv x j k jp kp. unfold t1. rewrite !list_lookup_insert_Some. destruct Hic as [_ _ Hone].
      intros [(<- & <- & _)|[Hne Hj]] [(<- & <- & _)|[Hne' Hk]] Hx Hy; [done| | |eauto].
      + apply (Hone dv x i k ip kp Hi Hk); [destruct Hx as (? & ? & ?); split; [lia|done]|done].
      + apply (Hone dv x j i jp ip Hj Hi); [done|destruct Hy as (? & ? & ?); split; [lia|done]]. }
  split; [|split; [apply path_frame_itable|split; [|split]]].
  - eapply wstate_itable; [done|]. eapply table_insert; try done.
    + intros _ Hv. exact (on_disk_fields ip (i_ref ip - 1) (i_lock ip) (tb_sync _ _ _ _ _ Ht i ip Hi Hpos Hv)).
    + by apply (tb_lock _ _ _ _ _ Ht i ip).
  - intros m. change (itable (set_itable t1 s)) with t1. unfold refs_to, t1. rewrite (tsum_insert _ (itable s) i ip _ Hi). unfold ref_to.
    change (i_ref ip1) with (i_ref ip - 1). change (i_dev ip1) with (i_dev ip). change (i_inum ip1) with (i_inum ip).
    rewrite Hdev, Hinum, Z.eqb_refl, (proj2 (Z.ltb_lt 0 (i_ref ip)) Hpos), !andb_true_r. cbn [andb].
    case_decide as E; [subst m; rewrite Z.eqb_refl, !andb_true_r; destruct (Z.ltb_spec 0 (i_ref ip - 1)); lia|].
    rewrite (proj2 (Z.eqb_neq n m)) by done. rewrite !andb_false_r. lia.
  - change (itable (set_itable t1 s)) with t1. unfold t1. rewrite (spare_update (itable s) i ip _ Hi), Hre. unfold ip1. cbn. rewrite (proj2 (Z.eqb_neq (i_ref ip) 0)) by lia.
    destruct (Z.eqb_spec (i_ref ip - 1) 0), (decide (i_ref ip = 1)); lia.
  - intros j m (jp & Hj & Hm) Hmn. cbn. unfold t1. destruct (decide (j = i)) as [->|Hne]; [|exists jp; by rewrite list_lookup_insert_ne].
    rewrite Hi in Hj. injection Hj as <-. exists ip1. split; [by eapply insert_twice_lookup|]. destruct Hm as (_ & ? & <-).
    split; [|done]. cbn. rewrite <- Hre. specialize (Hmn ltac:(congruence)). lia.
Qed.

Lemma iunlockput_w s i n : wstate (Some i) s -> at_inode (itable s) i n -> i_nlink (node n) <> 0 ->
  exists s', iunlockput i s = Ok tt s' /\ wstate None s' /\ path_frame s s' /\
    (forall m, refs_to (itable s') m = refs_to (itable s) m - (if decide (m = n) then 1 else 0)) /\
    spare (itable s') = spare (itable s) + (if decide (refs_to (itable s) n = 1) then 1 else 0) /\
    forall j m, at_inode (itable s) j m -> (m = n -> 1 < refs_to (itable s) n) -> at_inode (itable s') j m.
Proof.
  intros Hw Hi Hnl. destruct (iunlock_w s i n Hw Hi) as (s1 & E1 & Hw1 & F1 & [U1 U2] & Hat1).
  destruct (iput_w s1 i n Hw1 (Hat1 _ _ Hi) Hnl) as (s2 & E2 & Hw2 & F2 & Hr2 & Hs2 & Hat2).
  exists s2. split; [unfold iunlockput; by mstep E1|]. split; [done|]. split; [by eapply path_frame_trans|].
  rewrite U1 in Hs2. rewrite U1 in Hat2. split; [intros m; by rewrite Hr2, U1|]. split; [lia|]. eauto.
Qed.

(** ** The loop of [namex] *)

(** What is asked for: the inode, or the directory of the last name. *)
Definition walks (parent : bool) (n : Z) (cs : list (list Z)) (o : option Z) (name : list Z) : Prop :=
  if parent then resolves_parent sbk V n cs ((fun m => (m, name_of name)) <$> o) else resolves sbk V n cs o.

(** The result has a reference instead of [n]. *)
Record handed (t t' : list inode) (n : Z) (o : option Z) (r : option nat) : Prop := {
  hd_refs : forall x, refs_to t' x = refs_to t x - (if decide (x = n) then 1 else 0) + (if decide (o = Some x) then 1 else 0);
  hd_at : match o, r with
          | Some m, Some j => at_inode t' j m
          | None, None => True
          | _, _ => False
          end
}.

Lemma handed_none t t' n : (forall x, refs_to t' x = refs_to t x - (if decide (x = n) then 1 else 0)) -> handed t t' n None None.
Proof. intros Hr. split; [|done]. intros x. rewrite Hr, (decide_False (P := None = Some x)) by done. lia. Qed.

Lemma handed_same t t' n j : (forall x, refs_to t' x = refs_to t x) -> at_inode t' j n -> handed t t' n (Some n) (Some j).
Proof.
  intros Hr Hj. split; [|done]. intros x. rewrite Hr.
  destruct (decide (x = n)) as [->|]; [rewrite decide_True by done; lia|rewrite decide_False by congruence; lia].
Qed.

Lemma walks_file parent n c cs name : i_type (node n) <> T_DIR -> walks parent n (c :: cs) None name.
Proof.
  intros Ht. destruct parent; cbn; [|by apply rv_file]. destruct cs as [|c' cs].
  - right. exists [], c. split; [done|]. right. exists n. split; [constructor|done].
  - apply resolves_parent_none; [done|]. intros. by apply rv_file.
Qed.

Lemma at_refs lk s i n : wstate lk s -> at_inode (itable s) i n -> 1 <= refs_to (itable s) n.
Proof.
  intros [_ _ Ht _] (ip & Hi & Hn). rewrite (refs_entry _ _ _ _ (tb_cache _ _ _ _ _ Ht) Hi Hn). destruct Hn. lia.
Qed.

Section Graph.
Variable R : Z -> Prop.
Hypothesis graph : graph_ok sbk V R.

Lemma namex_loop_ok parent k : forall s i n path name,
  wstate None s -> at_inode (itable s) i n -> R n -> length name = 14%nat -> 0 ∉ path -> (length path <= k)%nat ->
  2 <= spare (itable s) + (if decide (refs_to (itable s) n = 1) then 1 else 0) ->
  exists s' o r name', namex_loop k parent i path name s = Ok (r, name') s' /\ wstate None s' /\ path_frame s s' /\
    walks parent n (components path) o name' /\ handed (itable s) (itable s') n o r.
Proof.
  induction k as [|k IH]; intros s i n path name Hw Hi HR Hname H0 Hk Hsp;
    pose proof (skipelem_spec path name Hname H0) as Hel; cbn [namex_loop];
    destruct (skipelem path name) as [[name1 rest]|]; try (destruct Hel as (Ec & Hname1 & H01 & Hlt & Hnil); lia).
  1,3: rewrite Hel; destruct parent.
  1,3: destruct (iput_w s i n Hw Hi (gr_nlink _ _ _ graph n HR)) as (s1 & E1 & Hw1 & F1 & Hr1 & _); mstep E1;
    exists s1, None, None, name; (split; [done|]; split; [done|]; split; [done|]; split; [by left|by apply handed_none]).
  1,2: exists s, (Some n), (Some i), name; (split; [done|]; split; [done|]; split; [apply path_frame_refl|]; split; [constructor|by apply handed_same]).
  destruct Hel as (Ec & Hname1 & H01 & Hlt & Hnil). rewrite Ec.
  destruct (gr_block _ _ _ graph n HR) as [d Hd]. pose proof (at_refs _ _ _ _ Hw Hi) as Hpos.
  destruct (ilock_w s i n d Hw Hi Hd (gr_type _ _ _ graph n HR)) as (s1 & ip & E1 & Hw1 & F1 & [U1 U2] & Hl1). mstep E1.
  mstep (inode_at_ok i s1 ip (lk_at _ _ _ _ Hl1)).
  assert (i_type ip = i_type (node n)) as Et.
  { destruct (on_disk_node sbk V ip (lk_disk _ _ _ _ Hl1)) as [-> _]. by destruct (lk_is _ _ _ _ Hl1) as (_ & _ & ->). }
  assert (at_inode (itable s1) i n) as Hi1 by (exists ip; split; apply Hl1).
  rewrite Et. destruct (Z.eqb_spec (i_type (node n)) T_DIR) as [Ed|Ed]; cbn [negb].
  2: { destruct (iunlockput_w s1 i n Hw1 Hi1 (gr_nlink _ _ _ graph n HR)) as (s2 & E2 & Hw2 & F2 & Hr2 & _). mstep E2.
    exists s2, None, None, name1. split; [done|]. split; [done|]. split; [by eapply path_frame_trans|]. split; [by apply walks_file|].
    apply handed_none. intros x. by rewrite Hr2, U1. }
  destruct (parent && bool_decide (rest = [])) eqn:Ep.
  { apply andb_true_iff in Ep as [-> Er%bool_decide_eq_true]. rewrite (proj1 Hnil Er).
    destruct (iunlock_w s1 i n Hw1 Hi1) as (s2 & E2 & Hw2 & F2 & [U3 U4] & Hat2). mstep E2.
    exists s2, (Some n), (Some i), name1. split; [done|]. split; [done|]. split; [by eapply path_frame_trans|]. split.
    - exists []. split; [done|]. split; [constructor|done].
    - apply handed_same; [|by apply Hat2]. intros x. by rewrite U3, U1. }
  destruct (gr_dir _ _ _ graph n HR Ed) as (l & Hdir & Hclosed).
  pose proof (dirlookup_w s1 i n ip l name1 Hw1 Hl1 Hdir Hname1 ltac:(rewrite U2; case_decide; lia)) as Hlook.
  assert (parent = true -> components rest <> []) as Hmore.
  { intros -> Hc. rewrite bool_decide_eq_true_2 in Ep; [done|by apply Hnil]. }
  destruct (dir_map l !! name_of name1) as [m|] eqn:Em.
  - destruct Hlook as (s2 & j & off & E2 & Hw2 & F2 & Hj & Hi2 & Hr2 & Hs2). mstep E2. rewrite !U1, U2 in *.
    destruct (iunlockput_w s2 i n Hw2 Hi2 (gr_nlink _ _ _ graph n HR)) as (s3 & E3 & Hw3 & F3 & Hr3 & Hs3 & Hat3). mstep E3.
    assert (at_inode (itable s3) j m) as Hj3.
    { apply Hat3; [done|]. intros ->. rewrite Hr2, U1, decide_True by done. lia. }
    destruct (IH s3 j m rest name1 Hw3 Hj3 (Hclosed _ _ Em) Hname1 H01 ltac:(lia)) as (s4 & o & r & name' & E4 & Hw4 & F4 & Hwk & [Hh1 Hh2]).
    { rewrite Hs3, Hr3, Hs2, !Hr2, !U1. destruct (decide (m = n)) as [->|Hne]; repeat case_decide; lia. }
    exists s4, o, r, name'. split; [done|]. split; [done|]. split; [eauto using path_frame_trans|]. split.
    + unfold walks in *. destruct parent; [by eapply resolves_parent_step; [..|apply Hmore|]|by eapply rv_step].
    + split; [|done]. intros x. rewrite Hh1, Hr3, Hr2, U1. lia.
  - destruct Hlook as (s2 & E2 & Hw2 & F2 & Et2). mstep E2.
    destruct (iunlockput_w s2 i n Hw2 ltac:(by rewrite Et2) (gr_nlink _ _ _ graph n HR)) as (s3 & E3 & Hw3 & F3 & Hr3 & _). mstep E3.
    exists s3, None, None, name1. split; [done|]. split; [done|]. split; [eauto using path_frame_trans|]. split.
    + unfold walks. destruct parent; [|by eapply rv_missing]. apply resolves_parent_none; [by apply Hmore|]. intros. by eapply rv_missing.
    + apply handed_none. intros x. by rewrite Hr3, Et2, U1.
Qed.

(** ** [namex] *)

(** Where the path starts: at the root, or at the directory of the process. *)
Definition starts (s : kstate) (path : list Z) (n : Z) : Prop :=
  if decide (head path = Some chr_slash) then n = ROOTINO else exists c, p_cwd p = Some c /\ at_inode (itable s) c n.

Lemma idup_w s c n : wstate None s -> at_inode (itable s) c n ->
  exists s', idup c s = Ok c s' /\ wstate None s' /\ path_frame s s' /\ at_inode (itable s') c n /\
    (forall m, refs_to (itable s') m = refs_to (itable s) m + (if decide (m = n) then 1 else 0)) /\ spare (itable s') = spare (itable s).
Proof.
  intros Hw (ip & Hi & Hn). pose proof Hw as [Hca Hrd Ht Hsb]. pose proof Hn as (Hpos & Hdev & Hinum).
  pose proof (run_held _ _ _ (ca_run _ _ _ _ _ Hca)) as R4.
  unfold idup. mstep (acquire_ok LkItable s ltac:(rewrite R4; apply not_elem_of_nil)). rewrite R4. set (s1 := set_held [LkItable] s).
  erewrite bind_ok by apply (iupd_ok c _ s1 ip Hi). set (ip1 := set_i_ref (i_ref ip + 1) ip).
  mstep (release_ok LkItable (set_itable (<[c := ip1]> (itable s1)) s1) [] eq_refl ltac:(apply not_elem_of_nil)).
  change (itable s1) with (itable s). unfold s1. rewrite (itable_locked s _ R4). set (t1 := <[c := ip1]> (itable s)).
  assert (is_inode ROOTDEV n ip1) as Hn1 by (split; [cbn; lia|done]).
  exists (set_itable t1 s). split; [done|]. change (itable (set_itable t1 s)) with t1.
  split; [|split; [apply path_frame_itable|split; [exists ip1; split; [by eapply insert_twice_lookup|done]|split]]].
  - eapply wstate_itable; [done|]. eapply table_insert; try done; [by eapply icache_same; [apply Ht|..]| |by apply (tb_lock _ _ _ _ _ Ht c ip)].
    intros _ Hv. exact (on_disk_fields ip (i_ref ip + 1) (i_lock ip) (tb_sync _ _ _ _ _ Ht c ip Hi Hpos Hv)).
  - intros m. unfold t1. rewrite (refs_update (itable s) c ip ip1 n Hi Hn Hn1). unfold ip1. cbn. case_decide; lia.
  - unfold t1. rewrite (spare_update (itable s) c ip ip1 Hi). unfold ip1. cbn.
    rewrite !(proj2 (Z.eqb_neq _ 0)) by lia. lia.
Qed.

Lemma namex_ok parent s path name n : wstate None s -> starts s path n -> R n -> length name = 14%nat -> 0 ∉ path -> 2 <= spare (itable s) ->
  exists s' o r name', namex path parent name s = Ok (r, name') s' /\ wstate None s' /\ path_frame s s' /\
    walks parent n (components path) o name' /\
    (forall x, refs_to (itable s') x = refs_to (itable s) x + (if decide (o = Some x) then 1 else 0)) /\
    match o, r with Some m, Some j => at_inode (itable s') j m | None, None => True | _, _ => False end.
Proof.
  intros Hw Hst HR Hname H0 Hsp.
  assert (exists i s1, (if bool_decide (head path = Some chr_slash) then iget ROOTDEV ROOTINO
     else let! p := curproc in let! pr := pget p in let! cwd := deref "cwd" (p_cwd pr) in idup cwd) s = Ok i s1 /\
     wstate None s1 /\ path_frame s s1 /\ at_inode (itable s1) i n /\
     (forall m, refs_to (itable s1) m = refs_to (itable s) m + (if decide (m = n) then 1 else 0)) /\
     2 <= spare (itable s1) + (if decide (refs_to (itable s1) n = 1) then 1 else 0)) as (i & s1 & E1 & Hw1 & F1 & Hi1 & Hr1 & Hs1).
  { unfold starts in Hst. case_decide as Eh.
    - subst n. rewrite bool_decide_eq_true_2 by done.
      destruct (iget_w None s ROOTINO Hw ltac:(lia)) as (j & s1 & E1 & Hw1 & F1 & Hj & _ & Hr & Hs). exists j, s1.
      repeat (split; [done|]). rewrite Hs, Hr, (decide_True (P := ROOTINO = ROOTINO)) by done. repeat case_decide; lia.
    - rewrite bool_decide_eq_false_2 by done. destruct Hst as (c & Hcwd & Hc). pose proof (ws_cache _ _ Hw) as Hca.
      pose proof (ca_run _ _ _ _ _ Hca) as [R1 (q & Hq & Eq) _ _ _ _]. mstep (curproc_ok pr s R1). mstep (pget_ok pr q s Hq).
      assert (p_cwd q = Some c) as -> by (rewrite <- Hcwd; symmetry; exact (f_equal p_cwd Eq)). erewrite bind_ok by reflexivity.
      destruct (idup_w s c n Hw Hc) as (s1 & E1 & Hw1 & F1 & Hc1 & Hr1 & Hs1). exists c, s1. repeat (split; [done|]). case_decide; lia. }
  destruct (namex_loop_ok parent (length path) s1 i n path name Hw1 Hi1 HR Hname H0 ltac:(done) Hs1)
    as (s2 & o & r & name' & E2 & Hw2 & F2 & Hwk & [Hh1 Hh2]).
  exists s2, o, r, name'. split; [unfold namex; by mstep E1|]. split; [done|]. split; [by eapply path_frame_trans|]. split; [done|].
  split; [|done]. intros x. rewrite Hh1, Hr1. lia.
Qed.

(** C14: [namei] follows the names of the path from the root or from the process's directory: it
    returns the entry of the inode table for the inode that they lead to, and 0 if a name is
    missing or is not in a directory.  It takes one reference to the result and gives back every
    other, the inode table still agrees with the disk, no inode is left locked and nothing is
    written. *)
Theorem namei_spec s path n : wstate None s -> starts s path n -> R n -> 0 ∉ path -> 2 <= spare (itable s) ->
  exists s' o r, namei path s = Ok r s' /\ resolves sbk V n (components path) o /\
    match o, r with Some m, Some j => at_inode (itable s') j m | None, None => True | _, _ => False end /\
    (forall x, refs_to (itable s') x = refs_to (itable s) x + (if decide (o = Some x) then 1 else 0)) /\
    wstate None s' /\ path_frame s s'.
Proof.
  intros Hw Hst HR H0 Hsp. destruct (namex_ok false s path (replicate 14 0) n Hw Hst HR eq_refl H0 Hsp)
    as (s' & o & r & name' & E & Hw' & F & Hwk & Hr & Hat). exists s', o, r. split; [unfold namei; by mstep E|done].
Qed.

(** [nameiparent] finds the directory of the last name, and the name. *)
Theorem nameiparent_spec s path name n : wstate None s -> starts s path n -> R n -> length name = 14%nat -> 0 ∉ path -> 2 <= spare (itable s) ->
  exists s' o r name', nameiparent path name s = Ok (r, name') s' /\
    resolves_parent sbk V n (components path) ((fun m => (m, name_of name')) <$> o) /\
    match o, r with Some m, Some j => at_inode (itable s') j m | None, None => True | _, _ => False end /\
    (forall x, refs_to (itable s') x = refs_to (itable s) x + (if decide (o = Some x) then 1 else 0)) /\
    wstate None s' /\ path_frame s s'.
Proof.
  intros Hw Hst HR Hname H0 Hsp. destruct (namex_ok true s path name n Hw Hst HR Hname H0 Hsp)
    as (s' & o & r & name' & E & Hw' & F & Hwk & Hr & Hat). exists s', o, r, name'. done.
Qed.
End Graph.
End Ops.

#[local] Existing Instance prompt_disk.
#[local] Existing Instance prompt_disk_ok.
#[local] Instance demo_default : Build := demo_build DEFAULT.

(** The demonstration disk with its root inode in block 32. *)
Definition demo_tree : gmap Z (list Z) := <[32 := put_dinode 64 demo_ip (replicate 1024 0)]> demo_files.

Lemma demo_tree_range : disk_range demo_tree.
Proof. apply disk_range_insert; [apply demo_files_range|]. destruct (demo_files_at 32 ltac:(lia)) as (d & -> & _). eauto. Qed.

Lemma demo_node : node demo_sb demo_tree 1 = MkInode 0 0 0 (MkSleeplock false 0) false T_DIR 0 0 1 32 (34 :: replicate 12 0).
Proof. vm_compute. reflexivity. Qed.

Lemma demo_is_dir : is_dir demo_sb demo_tree 1 demo_bytes.
Proof.
  split; rewrite ?demo_node; [done| |by exists 2%nat|cbn; lia]. split; [|done]. intros k Hk. change (length demo_bytes) with 32%nat in Hk.
  do 32 (destruct k as [|k]; [done|]). lia.
Qed.

Lemma demo_graph : graph_ok demo_sb demo_tree (fun n => n = 1).
Proof.
  split; intros n ->; rewrite ?demo_node; [|done|done|].
  - eexists. change (IBLOCK 1 demo_sb) with 32. apply lookup_insert_eq.
  - intros _. exists demo_bytes. split; [apply demo_is_dir|]. intros nm m.
    assert (dir_map demo_bytes = <[[46] := 1]> (<[[46; 46] := 1]> ∅)) as -> by (vm_compute; reflexivity).
    rewrite !lookup_insert_Some, lookup_empty. intros [[_ ->]|[_ [[_ ->]|[_ [=]]]]]; done.
Qed.

Lemma demo_wstate : exists s, wstate 3 demo_p demo_sb ∅ demo_tree None s /\ itable s = replicate 50 zero_inode.
Proof.
  destruct (demo_cache demo_tree demo_tree_range) as (s & Hca & _). exists (set_sb demo_sb (set_itable (replicate 50 zero_inode) s)). split; [|done].
  assert (forall i ip, replicate 50 zero_inode !! i = Some ip -> ip = zero_inode) as Hz by (intros i ip [-> _]%lookup_replicate; done).
  split; [| | |done].
  - destruct Hca as [[R1 R2 R3 R4 R5 R6] Hi Hb Hr]. by split; [split|..].
  - split; [rewrite map_size_empty; lia|]. intros n r k. by rewrite lookup_empty.
  - split; [split; [done|..]|..]; cbn [itable set_sb set_itable].
    + intros i ip ->%Hz. done.
    + intros dev inum i j ip ip' ->%Hz ->%Hz [? _]. cbn in *. lia.
    + intros i ip ->%Hz. cbn. lia.
    + intros i ip ->%Hz. cbn. lia.
    + intros i ip ->%Hz. done.
Qed.

(** [/./..] is the root directory. *)
Lemma namei_spec_witness : exists s s' r, namei [47; 46; 47; 46; 46] s = Ok r s' /\ refs_to (itable s') 1 = 1.
Proof.
  destruct demo_wstate as [s [Hw Ht]].
  destruct (namei_spec 3 demo_p demo_sb ∅ demo_tree (fun n => n = 1) demo_graph s [47; 46; 47; 46; 46] 1 Hw) as (s' & o & r & E & Hv & Hr & Hrf & _).
  - reflexivity.
  - reflexivity.
  - by apply (bool_decide_unpack _).
  - rewrite Ht. vm_compute. discriminate.
  - exists s, s', r. split; [exact E|]. rewrite Hrf, Ht.
    assert (o = Some 1) as ->; [|rewrite decide_True by done; vm_compute; reflexivity].
    eapply resolves_det; [exact Hv|]. change (components [47; 46; 47; 46; 46]) with [[46]; [46; 46]].
    eapply rv_step; [apply demo_is_dir|vm_compute; reflexivity|]. eapply rv_step; [apply demo_is_dir|vm_compute; reflexivity|]. constructor.
Defined.
