(* ===== verification/FsTrunc.v ===== *)
(** * Truncating a file

    [itrunc] in a transaction gives every block of the file back to the bitmap: the
    direct blocks, those of the indirect block, and the indirect block itself.  The
    inode is empty in memory and on the disk, nothing of another file changes, and no
    more than the bitmap block and the block of the inode are logged, however long the
    file was. *)

From stdpp Require Import gmap strings list fin_maps.
From S2P Require Import Prelude Layout State Sched Block Bio Log LogCommit LogTx Fs Dinode FsBits FsMap FsContent FsFile FsWrite.

(** ** Bits *)

Lemma bit_byte_clear bi b data : 0 <= bi -> 0 <= b -> (Z.to_nat (b / 8) < length data)%nat ->
  bit_byte bi (clear_bit b data) =
  if decide (bi / 8 = b / 8) then u8 (Z.land (bit_byte b data) (Z.lnot (bit_mask b))) else bit_byte bi data.
Proof.
  intros H1 H2 Hlen. unfold bit_byte at 1, clear_bit.
  pose proof (Z.div_pos bi 8 H1 ltac:(lia)). pose proof (Z.div_pos b 8 H2 ltac:(lia)).
  case_decide as E.
  - rewrite E, list_lookup_insert_eq by done. done.
  - rewrite list_lookup_insert_ne by lia. done.
Qed.

Lemma bit_free_clear bi b data : 0 <= bi -> 0 <= b -> (Z.to_nat (b / 8) < length data)%nat ->
  bit_free bi (clear_bit b data) = if decide (bi = b) then true else bit_free bi data.
Proof.
  intros H1 H2 Hlen. rewrite !bit_free_testbit, bit_byte_clear by done.
  pose proof (Z.mod_pos_bound bi 8 ltac:(lia)). pose proof (Z.mod_pos_bound b 8 ltac:(lia)).
  pose proof (Z.div_mod bi 8 ltac:(lia)). pose proof (Z.div_mod b 8 ltac:(lia)).
  case_decide as E; [|rewrite decide_False by congruence; done].
  unfold u8. rewrite Z.mod_pow2_bits_low, Z.land_spec, Z.lnot_spec by lia. unfold bit_mask. rewrite Z.shiftl_spec by lia.
  case_decide as E2.
  - subst. rewrite Z.sub_diag, andb_false_r. done.
  - assert (Z.testbit 1 (bi mod 8 - b mod 8) = false) as ->.
    { destruct (decide (bi mod 8 < b mod 8)); [apply Z.testbit_neg_r; lia|]. apply Z.bits_above_log2; cbn; lia. }
    rewrite andb_true_r. unfold bit_byte. by rewrite E.
Qed.

Section Trunc.
Context {bld : Build} {dsk : Disk} {dok : DiskOk}.
Variables (pr : nat) (p : proc) (ls sz : Z) (sbk : superblock) (ds : Z) (i : nat).

Abbreviation bm := (sb_bmapstart sbk).
Abbreviation layout := (layout ls sz sbk ds).
Abbreviation free := (free sbk ds).
Abbreviation used := (used sbk ds).
Abbreviation mapped := (mapped sbk ds).
Abbreviation fstate := (fstate pr p ls sz sbk ds i).
Abbreviation fits := (fits sz).
Abbreviation foreign := (foreign sbk ds).
Abbreviation home ip := (IBLOCK (i_inum ip) sbk).

Lemma used_not_free V m : used V m <-> ds <= m < sb_size sbk /\ ~ free V m.
Proof.
  unfold FsMap.used, FsBits.free. destruct (bit_free m (blk V bm)); naive_solver.
Qed.

(** The disk after block [n] was freed. *)
Definition cleared (V : gmap Z (list Z)) (n : Z) : gmap Z (list Z) := <[bm := clear_bit n (blk V bm)]> V.

Lemma cleared_bit V n b : used V n -> layout V -> 0 <= b < sb_size sbk ->
  bit_free b (blk (cleared V n) bm) = if decide (b = n) then true else bit_free b (blk V bm).
Proof.
  intros [Hn _] Hl Hb. unfold cleared. rewrite blk_insert. destruct (layout_bm _ _ _ _ V Hl) as (d & _ & Hd & ->).
  destruct (la_bm _ _ _ _ V Hl), (la_size _ _ _ _ V Hl). apply bit_free_clear; [lia|lia|].
  rewrite Hd. apply Z2Nat.inj_lt; [apply Z.div_pos; lia|lia|]. apply Z.div_lt_upper_bound; lia.
Qed.

Lemma cleared_free V n : used V n -> layout V -> forall b, free (cleared V n) b <-> free V b \/ b = n.
Proof.
  intros Hn Hl b. pose proof Hn as [Hr _]. unfold FsBits.free. destruct (la_bm _ _ _ _ V Hl). split.
  - intros [Hb Hf]. rewrite (cleared_bit V n b Hn Hl ltac:(lia)) in Hf. case_decide; [by right|by left].
  - intros [[Hb Hf]| ->]; (split; [done|]); rewrite (cleared_bit V n _ Hn Hl) by lia; by case_decide.
Qed.

Lemma cleared_layout V n : used V n -> layout V -> layout (cleared V n).
Proof.
  intros Hn Hl. pose proof Hn as [Hr _]. split; [apply Hl|apply Hl|apply Hl| |].
  - intros m Hm. unfold cleared. destruct (decide (m = bm)) as [->|]; [rewrite lookup_insert_eq|rewrite lookup_insert_ne by done; by apply Hl].
    eexists. split; [done|]. unfold clear_bit. rewrite length_insert. by destruct (layout_bm _ _ _ _ V Hl) as (d & _ & Hd & ->).
  - intros m Hm. destruct (la_size _ _ _ _ V Hl). rewrite (cleared_bit V n m Hn Hl ltac:(lia)). rewrite decide_False by lia. by apply Hl.
Qed.

(** ** [bfree] *)

Lemma bfree_tx s B H V n :
  intx s pr p ls sz B H V -> sb s = sbk -> layout V -> used V n -> (bm ∉ H) -> (length H <= 1)%nat -> room sz B ->
  exists s', bfree ROOTDEV n s = Ok tt s' /\ tx_frame s s' /\ itable s' = itable s /\
    intx s' pr p ls sz (add_block bm B) H (cleared V n) /\ (forall j m, m ∈ H -> holds s p j m -> holds s' p j m).
Proof.
  intros Hix Hsb Hl Hu Hbm HH Hr. pose proof (la_size _ _ _ _ V Hl) as Hsz. pose proof (la_bm _ _ _ _ V Hl) as Hb.
  destruct (layout_bm _ _ _ _ V Hl) as (d & Ed & Hd & Eb). pose proof Hu as [Hn Hf]. rewrite Eb in Hf. pose proof Hr as [Hr1 _].
  destruct (write_tx pr p ls sz s B H V bm d (clear_bit n) Hix Ed Hbm ltac:(lia) Hr ltac:(lia) ltac:(apply Hl; lia))
    as (k & s1 & E1 & F1 & T1 & X1 & Hh1 & K1 & s2 & E2 & F2 & T2 & X2 & K2).
  destruct (buf_at_tx s1 pr p ls sz B (bm :: H) V k bm d X1 Hh1 Ed) as (b & Ebuf & Hbd & _).
  exists s2. split; [|split; [by eapply tx_frame_trans|split; [congruence|split]]].
  - unfold bfree. erewrite bind_ok by reflexivity. rewrite Hsb.
    assert (BBLOCK n sbk = bm) as -> by (unfold BBLOCK; rewrite Z.div_small, Z.add_0_l by lia; apply u32_small; lia).
    mstep E1. mstep Ebuf. rewrite Z.mod_small by lia. by rewrite Hbd, Hf, E2.
  - unfold cleared. by rewrite Eb.
  - intros j m Hm Hj. apply K2; [|by apply K1]. intros ->. destruct Hh1 as (_ & b' & Hb' & _ & Hbn & _).
    destruct (K1 _ _ Hj) as (_ & b'' & Hb'' & _ & Hbn' & _). congruence.
Qed.

(** The blocks in [l] that are not 0 were freed. *)
Record freed (H l : list Z) (s : kstate) (V : gmap Z (list Z)) (B : list Z) (s' : kstate) (V' : gmap Z (list Z)) (B' : list Z) : Prop := {
  fr_tx : intx s' pr p ls sz B' H V';
  fr_frame : tx_frame s s';
  fr_layout : layout V';
  fr_other : forall m, m <> bm -> V' !! m = V !! m;
  fr_free : forall b, free V' b <-> free V b \/ (b ∈ l /\ b <> 0);
  fr_log : B' = B \/ B' = add_block bm B;
  fr_holds : forall j m, m ∈ H -> holds s p j m -> holds s' p j m
}.

Lemma freed_refl H l s V B : intx s pr p ls sz B H V -> layout V -> (forall a, a ∈ l -> a = 0) -> freed H l s V B s V B.
Proof. intros. split; try done; [apply tx_frame_refl| |by left]. naive_solver. Qed.

Lemma freed_trans H l l' s V B s1 V1 B1 s2 V2 B2 :
  freed H l s V B s1 V1 B1 -> freed H l' s1 V1 B1 s2 V2 B2 -> freed H (l ++ l') s V B s2 V2 B2.
Proof.
  intros [A1 A2 A3 A4 A5 A6 A7] [C1 C2 C3 C4 C5 C6 C7]. split; [done|by eapply tx_frame_trans|done| | | |auto].
  - intros m Hm. rewrite C4, A4; done.
  - intros b. rewrite C5, A5, elem_of_app. naive_solver.
  - destruct A6 as [->| ->], C6 as [->| ->]; auto. right. apply add_block_same, add_block_in.
Qed.

Lemma freed_used H l s V B s' V' B' m : freed H l s V B s' V' B' -> (m ∉ l) -> used V m -> used V' m.
Proof. intros F Hm. rewrite !used_not_free, (fr_free _ _ _ _ _ _ _ _ F). naive_solver. Qed.

Lemma freed_room H l s V B s' V' B' : freed H l s V B s' V' B' -> room sz (add_block bm B) -> room sz (add_block bm B').
Proof. intros F Hr. destruct (fr_log _ _ _ _ _ _ _ _ F) as [->| ->]; [done|]. rewrite add_block_same; [done|apply add_block_in]. Qed.

Lemma room_bm B : room sz (add_block bm B) -> room sz B.
Proof.
  intros [H1 H2]. assert (length B <= length (add_block bm B))%nat; [|split; lia].
  unfold add_block. case_decide; [lia|rewrite length_app; lia].
Qed.

(** One block, if it is there. *)
Lemma bfree_freed H s V B a :
  intx s pr p ls sz B H V -> sb s = sbk -> layout V -> (a <> 0 -> used V a) -> (bm ∉ H) -> (length H <= 1)%nat ->
  room sz (add_block bm B) ->
  exists s' V' B', when (negb (a =? 0)) (bfree ROOTDEV a) s = Ok tt s' /\ itable s' = itable s /\ freed H [a] s V B s' V' B'.
Proof.
  intros X Hsb Hl Hu Hb HH Hr. destruct (Z.eqb_spec a 0) as [->|Ha]; cbn [negb when].
  - exists s, V, B. split; [done|]. split; [done|]. apply freed_refl; [done|done|set_solver].
  - destruct (bfree_tx s B H V a X Hsb Hl (Hu Ha) Hb HH (room_bm _ Hr)) as (s' & E & F & T & X' & K).
    exists s', (cleared V a), (add_block bm B). split; [done|]. split; [done|]. split; try done; [apply cleared_layout; auto| | |by right].
    + intros m Hm. unfold cleared. by rewrite lookup_insert_ne.
    + intros b. rewrite (cleared_free V a (Hu Ha) Hl b). set_solver.
Qed.

(** All different, but for zeros. *)
Definition distinct (l : list Z) : Prop := NoDup (filter (fun a => a <> 0) l).

Lemma distinct_cons a l : distinct (a :: l) -> distinct l /\ (forall x, x <> 0 -> x ∈ l -> x <> a).
Proof.
  unfold distinct. rewrite filter_cons. case_decide as Ha; [|naive_solver].
  rewrite NoDup_cons, list_elem_of_filter. naive_solver.
Qed.

Lemma distinct_fmap {A} (f : A -> Z) ks : NoDup ks ->
  (forall k k', k ∈ ks -> k' ∈ ks -> k <> k' -> f k <> 0 -> f k <> f k') -> distinct (f <$> ks).
Proof.
  unfold distinct. induction 1 as [|k ks Hk Hnd IH]; intros Hf; [constructor|]. rewrite fmap_cons, filter_cons.
  case_decide; [constructor|]; [|apply IH; set_solver|apply IH; set_solver].
  rewrite list_elem_of_filter, list_elem_of_fmap. intros [_ (k' & E & Hk')]. eapply (Hf k k'); try done; set_solver.
Qed.

Lemma free_blocks_tx H : (bm ∉ H) -> (length H <= 1)%nat -> forall l s V B,
  intx s pr p ls sz B H V -> sb s = sbk -> layout V -> (forall a, a ∈ l -> a <> 0 -> used V a) -> distinct l ->
  room sz (add_block bm B) ->
  exists s' V' B', free_blocks ROOTDEV l s = Ok tt s' /\ itable s' = itable s /\ freed H l s V B s' V' B'.
Proof.
  intros Hb HH. induction l as [|a l IH]; intros s V B X Hsb Hl Hu Hd Hr.
  { exists s, V, B. split; [done|]. split; [done|]. apply freed_refl; set_solver. }
  destruct (distinct_cons _ _ Hd) as [Hd' Hne].
  destruct (bfree_freed H s V B a X Hsb Hl) as (s1 & V1 & B1 & E1 & T1 & F1); try done; [apply Hu; left|].
  destruct (IH s1 V1 B1) as (s2 & V2 & B2 & E2 & T2 & F2); try apply F1; try done.
  { by rewrite (tx_sb s s1) by apply F1. }
  { intros x Hx H0. eapply freed_used; [exact F1| |by apply Hu; [right|]]. rewrite list_elem_of_singleton. by apply Hne. }
  { by eapply freed_room. }
  exists s2, V2, B2. cbn [free_blocks]. split; [by mstep E1|]. split; [congruence|]. by apply (freed_trans H [a] l s V B s1 V1 B1).
Qed.

(** ** The direct blocks *)

Fixpoint zeroed (ks : list nat) (addrs : list Z) : list Z :=
  match ks with [] => addrs | k :: ks => zeroed ks (<[k := 0]> addrs) end.

Lemma zeroed_direct addrs : length addrs = 13%nat -> zeroed (seq 0 12) addrs = replicate 12 0 ++ [addr_of addrs 12].
Proof. do 13 (destruct addrs as [|? addrs]; [done|]). by destruct addrs. Qed.

(** One turn of the loop. *)
Lemma trunc_turn s V B ip k :
  intx s pr p ls sz B [] V -> sb s = sbk -> layout V -> itable s !! i = Some ip -> i_dev ip = ROOTDEV ->
  length (i_addrs ip) = 13%nat -> (k < 13)%nat -> (addr_of (i_addrs ip) k <> 0 -> used V (addr_of (i_addrs ip) k)) ->
  room sz (add_block bm B) ->
  exists s' V' B', (forall l, trunc_direct i (k :: l) s = trunc_direct i l s') /\
    itable s' = <[i := set_i_addrs (<[k := 0]> (i_addrs ip)) ip]> (itable s) /\
    freed [] [addr_of (i_addrs ip) k] s V B s' V' B'.
Proof.
  intros X Hsb Hl Hip Hdev Hlen Hk Hu Hr. set (a := addr_of (i_addrs ip) k) in *.
  destruct (bfree_freed [] s V B a X Hsb Hl) as (s1 & V1 & B1 & E1 & T1 & F1); try done; [set_solver|cbn; lia|].
  set (ip' := set_i_addrs (<[k := 0]> (i_addrs ip)) ip). exists (set_itable (<[i := ip']> (itable s1)) s1), V1, B1.
  split; [|split; [by rewrite <- T1|]].
  - intros l. cbn [trunc_direct]. mstep (inode_at_ok i s ip Hip). rewrite (addr_lookup (i_addrs ip) k) by done.
    erewrite bind_ok by reflexivity. fold a. destruct (Z.eqb_spec a 0) as [E0|E0]; cbn [negb when] in E1 |- *.
    + injection E1 as <-. erewrite bind_ok by reflexivity. do 2 f_equal.
      assert (ip' = ip) as -> by (unfold ip'; rewrite list_insert_id by (rewrite <- E0; by apply addr_lookup); by destruct ip).
      rewrite (list_insert_id (itable s) i ip Hip). by destruct s as [? ? ? ? ? ? ? ? ? ? ? ? ? ? ? ? []].
    + rewrite Hdev. unfold bind at 1. rewrite (bind_ok _ _ _ _ _ E1). by rewrite (iupd_ok i _ s1 ip) by congruence.
  - destruct F1 as [A1 A2 A3 A4 A5 A6 A7]. split; try done; [by apply intx_itable|].
    eapply tx_frame_trans; [exact A2|apply frame_itable].
Qed.

Lemma trunc_direct_tx ks : NoDup ks -> (forall k, k ∈ ks -> (k < 13)%nat) -> forall s V B ip,
  intx s pr p ls sz B [] V -> sb s = sbk -> layout V -> itable s !! i = Some ip -> i_dev ip = ROOTDEV ->
  length (i_addrs ip) = 13%nat -> (forall k, k ∈ ks -> addr_of (i_addrs ip) k <> 0 -> used V (addr_of (i_addrs ip) k)) ->
  distinct (addr_of (i_addrs ip) <$> ks) -> room sz (add_block bm B) ->
  exists s' V' B', trunc_direct i ks s = Ok tt s' /\
    itable s' = <[i := set_i_addrs (zeroed ks (i_addrs ip)) ip]> (itable s) /\
    freed [] (addr_of (i_addrs ip) <$> ks) s V B s' V' B'.
Proof.
  induction 1 as [|k ks Hk Hnd IH]; intros Hks s V B ip X Hsb Hl Hip Hdev Hlen Hu Hd Hr.
  { exists s, V, B. split; [done|]. split; [|apply freed_refl; set_solver]. cbn [zeroed].
    rewrite list_insert_id; [done|]. rewrite Hip. by destruct ip. }
  destruct (distinct_cons _ _ Hd) as [Hd' Hne].
  destruct (trunc_turn s V B ip k X Hsb Hl Hip Hdev Hlen) as (s1 & V1 & B1 & E1 & T1 & F1); [set_solver..|done|].
  set (ip1 := set_i_addrs (<[k := 0]> (i_addrs ip)) ip) in *.
  assert (forall k', k' ∈ ks -> addr_of (i_addrs ip1) k' = addr_of (i_addrs ip) k') as Ha.
  { intros k' Hk'. unfold addr_of, ip1. cbn. rewrite list_lookup_insert_ne; [done|set_solver]. }
  assert (addr_of (i_addrs ip1) <$> ks = addr_of (i_addrs ip) <$> ks) as Hmap by (apply list_fmap_ext; intros; apply Ha; by eapply list_elem_of_lookup_2).
  destruct (IH ltac:(set_solver) s1 V1 B1 ip1) as (s2 & V2 & B2 & E2 & T2 & F2); try apply F1; try done.
  { by rewrite (tx_sb s s1) by apply F1. }
  { rewrite T1. apply list_lookup_insert_eq. by eapply lookup_lt_Some. }
  { cbn. by rewrite length_insert. }
  { intros k' Hk'. rewrite Ha by done. intros H0. eapply freed_used; [exact F1| |apply Hu; [by right|done]].
    rewrite list_elem_of_singleton. apply Hne; [done|]. apply list_elem_of_fmap. eauto. }
  { by rewrite Hmap. }
  { by eapply freed_room. }
  exists s2, V2, B2. rewrite E1. split; [done|]. split; [rewrite T2, T1, list_insert_insert_eq; by destruct ip|].
  rewrite Hmap in F2. by apply (freed_trans [] [_] _ s V B s1 V1 B1).
Qed.

(** ** The blocks of a file *)

Definition owned (V : gmap Z (list Z)) (addrs : list Z) (b : Z) : Prop :=
  b <> 0 /\ (b = addr_of addrs 12 \/ exists bn, 0 <= bn < MAXFILE /\ baddr V addrs bn = b).

Definition entries (V : gmap Z (list Z)) (addrs : list Z) : list Z :=
  (fun j => get32 (4 * j) (blk V (addr_of addrs 12))) <$> seq 0 256.

Definition indirects (V : gmap Z (list Z)) (addrs : list Z) : list Z :=
  if addr_of addrs 12 =? 0 then [] else entries V addrs ++ [addr_of addrs 12].

Lemma baddr_direct V addrs k : (k < 12)%nat -> baddr V addrs (Z.of_nat k) = addr_of addrs k.
Proof. intros Hk. unfold baddr. rewrite (proj2 (Z.ltb_lt _ _)) by lia. by rewrite Nat2Z.id. Qed.

Lemma baddr_entry V addrs j : addr_of addrs 12 <> 0 ->
  baddr V addrs (NDIRECT + Z.of_nat j) = get32 (4 * j) (blk V (addr_of addrs 12)).
Proof.
  intros H0. unfold baddr. rewrite (proj2 (Z.ltb_ge _ _)) by lia. rewrite (proj2 (Z.eqb_neq _ _)) by done.
  by replace (Z.to_nat (NDIRECT + Z.of_nat j - NDIRECT)) with j by lia.
Qed.

Lemma elem_of_entries V addrs b : addr_of addrs 12 <> 0 ->
  b ∈ entries V addrs <-> exists bn, NDIRECT <= bn < MAXFILE /\ baddr V addrs bn = b.
Proof.
  intros H0. unfold entries. rewrite list_elem_of_fmap. split.
  - intros (j & -> & Hj%elem_of_seq). exists (NDIRECT + Z.of_nat j). rewrite baddr_entry by done. split; [lia|done].
  - intros (bn & Hbn & <-). exists (Z.to_nat (bn - NDIRECT)). rewrite elem_of_seq, <- baddr_entry by done.
    split; [f_equal; lia|lia].
Qed.

Lemma elem_of_directs V addrs b : b ∈ addr_of addrs <$> seq 0 12 <-> exists bn, 0 <= bn < NDIRECT /\ baddr V addrs bn = b.
Proof.
  rewrite list_elem_of_fmap. split.
  - intros (k & -> & Hk%elem_of_seq). exists (Z.of_nat k). rewrite baddr_direct by lia. split; [lia|done].
  - intros (bn & Hbn & <-). exists (Z.to_nat bn). rewrite elem_of_seq, <- (baddr_direct V) by lia. split; [f_equal; lia|lia].
Qed.

Lemma elem_of_blocks V addrs b : b <> 0 -> b ∈ (addr_of addrs <$> seq 0 12) ++ indirects V addrs <-> owned V addrs b.
Proof.
  intros Hb. rewrite elem_of_app, (elem_of_directs V). unfold indirects, owned. destruct (Z.eqb_spec (addr_of addrs 12) 0) as [E|E].
  - split; [intros [(bn & ? & ?)|?%elem_of_nil]; [|done]; split; [done|]; right; exists bn; split; [lia|done]|].
    intros [_ [?|(bn & Hbn & Eb)]]; [congruence|]. left. exists bn. split; [|done]. destruct (decide (bn < NDIRECT)); [lia|].
    unfold baddr in Eb. rewrite (proj2 (Z.ltb_ge _ _)), (proj2 (Z.eqb_eq _ _) E) in Eb by lia. congruence.
  - rewrite elem_of_app, list_elem_of_singleton, elem_of_entries by done. split.
    + intros [(bn & ? & ?)|[(bn & ? & ?)|?]]; split; try done; [right|right|by left]; exists bn; (split; [lia|done]).
    + intros [_ [?|(bn & Hbn & Eb)]]; [by right; right|]. destruct (decide (bn < NDIRECT)); [left|right; left]; exists bn; (split; [lia|done]).
Qed.

Lemma baddr_zero V bn : baddr V (replicate 13 0) bn = 0.
Proof.
  unfold baddr. change (addr_of (replicate 13 0) 12 =? 0) with true. destruct (bn <? NDIRECT); [|done].
  unfold addr_of. destruct (replicate 13 0 !! Z.to_nat bn) eqn:E; [|done]. by apply lookup_replicate in E as [-> _].
Qed.

Lemma mapped_zero V : mapped V (replicate 13 0).
Proof. split; [done|by left; rewrite baddr_zero|by left| |]; intros bn; rewrite baddr_zero; done. Qed.

(** ** The indirect block *)

Lemma intx_unlogged s V B n : intx s pr p ls sz B [] V -> n ∉ B -> V !! n = disk s !! n.
Proof. intros X Hn. by apply (intx_idle s pr p ls sz B [] V n X Hn), not_elem_of_nil. Qed.

Lemma trunc_entries s V B addrs :
  let ind := addr_of addrs 12 in
  intx s pr p ls sz B [] V -> sb s = sbk -> layout V -> used V ind -> distinct (entries V addrs) ->
  (forall a, a ∈ entries V addrs -> a <> 0 -> used V a) -> room sz (add_block bm B) ->
  exists s' V' B', itable s' = itable s /\ freed [] (entries V addrs) s V B s' V' B' /\
    forall (k : K unit), (let! bp := bread ROOTDEV ind in
      let! b := buf_at bp in
      free_blocks ROOTDEV ((fun j => get32 (4 * j) (b_data b)) <$> seq 0 256) ;;
      brelse bp ;; k) s = k s'.
Proof.
  intros ind X Hsb Hl Hu Hd Hus Hr. destruct (layout_used ls sz sbk ds V ind Hl Hu) as (d & Ed & _ & _ & _ & Hnb & _).
  pose proof (room_bm _ Hr) as [Hr1 _].
  destruct (bread_tx s pr p ls sz B [] V ind d X Ed) as (bp & s1 & E1 & F1 & T1 & X1 & Hh1 & _); [apply not_elem_of_nil|cbn; lia|].
  destruct (buf_at_tx s1 pr p ls sz B [ind] V bp ind d X1 Hh1 Ed) as (b & Eb & Hbd & _).
  destruct (free_blocks_tx [ind] ltac:(set_solver) ltac:(cbn; lia) (entries V addrs) s1 V B X1) as (s2 & V2 & B2 & E2 & T2 & G2); try done.
  { by rewrite (tx_sb s s1 F1). }
  pose proof G2 as [A1 A2 A3 A4 A5 A6 A7].
  destruct (brelse_tx s2 pr p ls sz B2 [] V2 bp ind A1) as (s3 & E3 & F3 & T3 & X3 & _);
    [apply not_elem_of_nil|by apply A7; [left|]| |].
  { intros Hn. rewrite A4, (tf_disk _ _ A2), (tf_disk _ _ F1) by done. eapply intx_unlogged; [exact X|].
    destruct A6 as [->| ->]; [done|]. intros HB. apply Hn, elem_of_add_block. by right. }
  exists s3, V2, B2. split; [congruence|]. split.
  - split; try done; [by eapply tx_frame_trans; [|eapply tx_frame_trans]|]. by intros j m ?%elem_of_nil.
  - intros k. mstep E1. mstep Eb. rewrite Hbd. unfold entries in E2. fold ind in E2. rewrite (blk_some _ _ _ Ed) in E2. mstep E2. by mstep E3.
Qed.

Lemma trunc_indirect s V B addrs :
  let ind := addr_of addrs 12 in
  intx s pr p ls sz B [] V -> sb s = sbk -> layout V -> (ind <> 0 -> used V ind /\ distinct (entries V addrs) /\
    (ind ∉ entries V addrs) /\ (forall a, a ∈ entries V addrs -> a <> 0 -> used V a)) -> room sz (add_block bm B) ->
  exists s' V' B', itable s' = itable s /\ freed [] (indirects V addrs) s V B s' V' B' /\
    forall (k : K unit), when (negb (ind =? 0)) (let! bp := bread ROOTDEV ind in
      let! b := buf_at bp in
      free_blocks ROOTDEV ((fun j => get32 (4 * j) (b_data b)) <$> seq 0 256) ;;
      brelse bp ;; bfree ROOTDEV ind ;; k) s = when (negb (ind =? 0)) k s'.
Proof.
  intros ind X Hsb Hl Hi Hr. unfold indirects. fold ind. destruct (Z.eqb_spec ind 0) as [E0|E0]; cbn [negb when].
  { exists s, V, B. split; [done|]. split; [|done]. apply freed_refl; set_solver. }
  destruct (Hi E0) as (Hu & Hd & Hni & Hus).
  destruct (trunc_entries s V B addrs X Hsb Hl Hu Hd Hus Hr) as (s1 & V1 & B1 & T1 & F1 & E1). fold ind in E1.
  destruct (bfree_freed [] s1 V1 B1 ind) as (s2 & V2 & B2 & E2 & T2 & F2); try apply F1; [by rewrite (tx_sb s s1) by apply F1| | | |by eapply freed_room|].
  { intros _. by eapply freed_used. }
  { apply not_elem_of_nil. }
  { cbn. lia. }
  exists s2, V2, B2. split; [congruence|]. split; [by eapply freed_trans|]. intros k. rewrite E1.
  rewrite (proj2 (Z.eqb_neq ind 0)) in E2 by done. cbn [negb when] in E2. by mstep E2.
Qed.

(** ** [itrunc] *)

Lemma mapped_directs V addrs : mapped V addrs ->
  (forall k, k ∈ seq 0 12 -> addr_of addrs k <> 0 -> used V (addr_of addrs k)) /\ distinct (addr_of addrs <$> seq 0 12).
Proof.
  intros Hm. split.
  - intros k Hk%elem_of_seq. rewrite <- (baddr_direct V) by lia. intros H0.
    destruct (mp_used _ _ _ _ Hm (Z.of_nat k) ltac:(lia)); [done|done].
  - apply distinct_fmap; [apply NoDup_seq|]. intros k k' Hk%elem_of_seq Hk'%elem_of_seq Hne.
    rewrite <- !(baddr_direct V) by lia. apply (mp_inj _ _ _ _ Hm); lia.
Qed.

Lemma mapped_entries V addrs : mapped V addrs -> addr_of addrs 12 <> 0 ->
  distinct (entries V addrs) /\ (addr_of addrs 12 ∉ entries V addrs) /\ (forall a, a ∈ entries V addrs -> a <> 0 -> used V a).
Proof.
  intros Hm H0. split; [|split].
  - apply distinct_fmap; [apply NoDup_seq|]. intros k k' Hk%elem_of_seq Hk'%elem_of_seq Hne.
    rewrite <- !(baddr_entry V) by done. apply (mp_inj _ _ _ _ Hm); lia.
  - rewrite elem_of_entries by done. intros (bn & Hbn & E). apply (mp_inj_ind _ _ _ _ Hm bn); [lia|congruence|done].
  - intros a. rewrite elem_of_entries by done. intros (bn & Hbn & <-) Ha. destruct (mp_used _ _ _ _ Hm bn ltac:(lia)); [done|done].
Qed.

(** A block of the first part is not in the second. *)
Lemma mapped_apart V addrs a : mapped V addrs -> a <> 0 -> a ∈ addr_of addrs <$> seq 0 12 -> a ∉ indirects V addrs.
Proof.
  intros Hm Ha. rewrite (elem_of_directs V). intros (bn & Hbn & <-). unfold indirects. destruct (Z.eqb_spec (addr_of addrs 12) 0); [apply not_elem_of_nil|].
  rewrite elem_of_app, list_elem_of_singleton, elem_of_entries by done. intros [(bn' & Hbn' & E)|E].
  - apply (mp_inj _ _ _ _ Hm bn bn'); [lia..|done|done].
  - by apply (mp_inj_ind _ _ _ _ Hm bn); [lia|..].
Qed.

(** Both parts. *)
Lemma trunc_blocks s V B ip : fstate s V B [] ip -> room sz (add_block bm B) ->
  exists s' V' B', itrunc i s = (iupd i (set_i_size 0) ;; iupdate i) s' /\
    itable s' = <[i := set_i_addrs (replicate 13 0) ip]> (itable s) /\
    freed [] ((addr_of (i_addrs ip) <$> seq 0 12) ++ indirects V (i_addrs ip)) s V B s' V' B'.
Proof.
  intros [X Hsb Hl Hip Hdev Hm] Hr. pose proof (mp_len _ _ _ _ Hm) as Hlen. destruct (mapped_directs _ _ Hm) as [Hu Hd].
  set (addrs := i_addrs ip) in *.
  destruct (trunc_direct_tx (seq 0 12) ltac:(apply NoDup_seq) ltac:(intros k Hk%elem_of_seq; lia) s V B ip X Hsb Hl Hip Hdev Hlen Hu Hd Hr)
    as (s1 & V1 & B1 & E1 & T1 & F1). fold addrs in E1, T1, F1. rewrite zeroed_direct in T1 by done.
  assert (forall m, used V m -> blk V1 m = blk V m) as Hblk.
  { intros m Hu'. unfold blk. rewrite (fr_other _ _ _ _ _ _ _ _ F1); [done|]. by destruct (layout_used ls sz sbk ds V m Hl Hu') as (_ & _ & _ & _ & _ & ? & _). }
  assert (addr_of addrs 12 <> 0 -> entries V1 addrs = entries V addrs) as Hent.
  { intros H0. unfold entries. rewrite Hblk; [done|]. by destruct (mp_ind _ _ _ _ Hm). }
  assert (indirects V1 addrs = indirects V addrs) as Hin.
  { unfold indirects. destruct (Z.eqb_spec (addr_of addrs 12) 0); [done|]. by rewrite Hent. }
  destruct (trunc_indirect s1 V1 B1 addrs) as (s2 & V2 & B2 & T2 & F2 & E2); try apply F1; [by rewrite (tx_sb s s1) by apply F1| |by eapply freed_room|].
  { intros H0. rewrite Hent by done. destruct (mapped_entries _ _ Hm H0) as (D1 & D2 & D3).
    assert (forall a, a <> 0 -> a ∈ indirects V addrs -> used V a -> used V1 a) as Hk.
    { intros a Ha0 Ha Hua. eapply freed_used; [exact F1| |done]. intros Hc. by apply (mapped_apart V addrs a). }
    assert (forall a, a ∈ entries V addrs \/ a = addr_of addrs 12 -> a ∈ indirects V addrs) as Hsub.
    { intros a. unfold indirects. rewrite (proj2 (Z.eqb_neq _ _)) by done. by rewrite elem_of_app, list_elem_of_singleton. }
    split; [apply Hk; [done|apply Hsub; by right|by destruct (mp_ind _ _ _ _ Hm)]|]. split; [done|]. split; [done|]. auto. }
  set (ip1 := set_i_addrs (replicate 12 0 ++ [addr_of addrs 12]) ip) in *.
  set (ip2 := set_i_addrs (replicate 13 0) ip).
  assert (itable s1 !! i = Some ip1) as Hip1 by (rewrite T1; apply list_lookup_insert_eq; by eapply lookup_lt_Some).
  exists (set_itable (<[i := ip2]> (itable s2)) s2), V2, B2. split; [|split].
  - unfold itrunc. mstep E1. mstep (inode_at_ok i s1 ip1 Hip1). erewrite bind_ok by reflexivity.
    change (i_dev ip1) with (i_dev ip). rewrite Hdev. unfold bind at 1. rewrite E2. cbn [obind].
    destruct (Z.eqb_spec (addr_of addrs 12) 0) as [E0|E0]; cbn [negb when].
    + cbn [ret obind]. assert (ip2 = ip1) as -> by (unfold ip2, ip1; by rewrite E0).
      by rewrite list_insert_id by congruence.
    + rewrite (iupd_ok i _ s2 ip1) by congruence. by destruct ip.
  - cbn. rewrite T2, T1. apply list_insert_insert_eq.
  - rewrite Hin in F2. pose proof (freed_trans _ _ _ _ _ _ _ _ _ _ _ _ F1 F2) as [A1 A2 A3 A4 A5 A6 A7]. split; try done; [by apply intx_itable|].
    eapply tx_frame_trans; [exact A2|apply frame_itable].
Qed.

Lemma freed_foreign H l s V B s' V' B' addrs m : freed H l s V B s' V' B' -> layout V -> m <> 0 ->
  (forall b, b <> 0 -> b ∈ l <-> owned V addrs b) -> foreign V addrs m -> used V' m /\ V' !! m = V !! m.
Proof.
  intros F Hl H0 Hb (F1 & F2 & F3). split.
  - eapply freed_used; [exact F| |done]. rewrite (Hb m H0). intros [_ [?|(bn & Hbn & E)]]; [done|]. by apply (F3 bn).
  - apply (fr_other _ _ _ _ _ _ _ _ F). by destruct (layout_used ls sz sbk ds V m Hl F1) as (_ & _ & _ & _ & _ & ? & _).
Qed.

(** The freed blocks, and the inode stored. *)
Lemma trunc_only s V B ip s' V' B' x : fstate s V B [] ip -> home_ok ls sz sbk ip -> dinode_fits x -> i_addrs x = replicate 13 0 ->
  freed [] ((addr_of (i_addrs ip) <$> seq 0 12) ++ indirects V (i_addrs ip)) s V B s' V' B' ->
  let V'' := <[home ip := put_dinode (dinode_off (i_inum ip)) x (blk V' (home ip))]> V' in
  only_file sbk ds V V'' ip x /\ forall b, free V'' b <-> free V b \/ owned V (i_addrs ip) b.
Proof.
  intros [_ _ Hl _ _ Hm] [Hh _] Hx Ex F V''. pose proof (la_bm _ _ _ _ _ Hl) as Hbm. pose proof (la_size _ _ _ _ _ Hl) as Hsz.
  assert (forall m, bit_free m (blk V'' bm) = bit_free m (blk V' bm)) as Hbit by (intros m; unfold V''; by rewrite blk_insert_ne by lia).
  split; [split|].
  - intros m Hf. pose proof Hf as [[Hr _] _]. assert (m <> 0) as Hm0 by lia.
    destruct (freed_foreign _ _ _ _ _ _ _ _ _ m F Hl Hm0 (fun b Hb => elem_of_blocks V (i_addrs ip) b Hb) Hf) as [U E].
    unfold V''. rewrite lookup_insert_ne by lia. split; [|done]. rewrite Ex. split; [|split; [done|]].
    + destruct U as [U1 U2]. split; [done|]. by rewrite Hbit.
    + intros bn Hbn. rewrite (baddr_zero _ bn). done.
  - intros m H1 H2 H3. unfold V''. rewrite lookup_insert_ne by done. by apply (fr_other _ _ _ _ _ _ _ _ F).
  - intros j Hj. pose proof (dinode_off_range (i_inum ip)). destruct (la_blocks _ _ _ _ _ Hl (home ip) ltac:(lia)) as (d & Hd & Hdl).
    pose proof (fr_other _ _ _ _ _ _ _ _ F (home ip) ltac:(lia)) as E. rewrite Hd in E.
    unfold V''. rewrite blk_insert, (blk_some _ _ _ E), (blk_some _ _ _ Hd). apply bytes_at_put_dinode; [done|lia|by apply dinode_off_disjoint].
  - intros b. unfold FsBits.free at 1. rewrite Hbit. change (free V' b <-> free V b \/ owned V (i_addrs ip) b). rewrite (fr_free _ _ _ _ _ _ _ _ F).
    destruct (decide (b = 0)) as [->|Hb]; [|rewrite elem_of_blocks by done; unfold owned; naive_solver]. unfold owned. naive_solver.
Qed.

(** C15: [itrunc] in a transaction makes the file empty: the inode has no blocks and the size
    0, in memory and on the disk; exactly the blocks of the file, its indirect block
    included, become free; no block of another file and no other inode changes; and at
    most the bitmap block and the block of the inode are logged. *)
Theorem itrunc_spec s V B ip :
  fstate s V B [] ip -> home_ok ls sz sbk ip -> dinode_fits ip -> fits (length (add_block bm B)) ->
  let ip' := set_i_size 0 (set_i_addrs (replicate 13 0) ip) in
  exists s' V' B', itrunc i s = Ok tt s' /\ fstate s' V' B' [] ip' /\ tx_frame s s' /\
    itable s' = <[i := ip']> (itable s) /\ on_disk sbk V' ip' /\ only_file sbk ds V V' ip ip' /\
    (forall b, free V' b <-> free V b \/ owned V (i_addrs ip) b) /\
    (B' = add_block (home ip) B \/ B' = add_block (home ip) (add_block bm B)).
Proof.
  intros Hs Hh Hf Hfit ip'. pose proof Hs as [X1 X2 X3 X4 X5 X6].
  destruct (trunc_blocks s V B ip Hs Hfit) as (s1 & V1 & B1 & E1 & T1 & F1). pose proof F1 as [A1 A2 A3 A4 A5 A6 _].
  set (s2 := set_itable (<[i := ip']> (itable s1)) s1).
  assert (dinode_fits ip') as Hf' by (destruct Hf; split; try done; cbn; repeat constructor; lia).
  assert (fstate s2 V1 B1 [] ip') as Hs2.
  { split; [by apply intx_itable|cbn; by rewrite (tx_sb s s1 A2)|done| |done|apply mapped_zero].
    apply list_lookup_insert_eq. rewrite T1, length_insert. by eapply lookup_lt_Some. }
  destruct (iupdate_tx pr p ls sz sbk ds i s2 V1 B1 ip' Hs2) as (s3 & E3 & F3 & T3 & Hs3); [done|done| |].
  { destruct A6 as [->| ->]; [|done]. by apply room_bm. }
  destruct (trunc_only s V B ip s1 V1 B1 ip' Hs Hh Hf' eq_refl F1) as [Ho Hfr].
  eexists s3, _, _. split; [|split; [exact Hs3|split; [|split; [|split; [|split; [exact Ho|split; [exact Hfr|]]]]]]].
  - rewrite E1. erewrite bind_ok by (apply (iupd_ok i _ s1); rewrite T1; apply list_lookup_insert_eq; by eapply lookup_lt_Some). exact E3.
  - eapply tx_frame_trans; [exact A2|]. eapply tx_frame_trans; [apply frame_itable|exact F3].
  - rewrite T3. cbn. rewrite T1. apply list_insert_insert_eq.
  - unfold on_disk. change (i_inum ip') with (i_inum ip). rewrite blk_insert, load_put_dinode; [by destruct ip|done|].
    destruct Hh as [Hr _]. pose proof (la_bm _ _ _ _ _ A3). pose proof (la_size _ _ _ _ _ A3).
    destruct (la_blocks _ _ _ _ _ A3 (home ip) ltac:(lia)) as (d & Hd & Hdl).
    rewrite (blk_some _ _ _ Hd), Hdl. pose proof (dinode_off_range (i_inum ip)). lia.
  - change (home ip') with (home ip). destruct A6 as [->| ->]; auto.
Qed.
End Trunc.

#[local] Existing Instance prompt_disk.
#[local] Existing Instance prompt_disk_ok.
#[local] Instance trunc_default : Build := demo_build DEFAULT.

Lemma itrunc_spec_witness : exists s s' V', itrunc 0 s = Ok tt s' /\ free demo_sb 34 V' 34 /\ ~ free demo_sb 34 demo_files 34.
Proof.
  destruct demo_fstate as [s [Hs _]].
  destruct (itrunc_spec 3 demo_p 2 30 demo_sb 34 0 s demo_files [] demo_ip Hs demo_home demo_dinode)
    as (s' & V' & B' & R & _ & _ & _ & _ & _ & Hfr & _); [vm_compute; split; [lia|done]|].
  exists s, s', V'. split; [exact R|]. split; [|intros [_ Hf]; pose proof demo_used as [_ Hu]; congruence].
  apply Hfr. right. split; [done|]. right. exists 0. split; [lia|done].
Defined.
