(* ===== verification/Mkfs.v ===== *)
(** * [mkfs]

    The program [mkfs/mkfs.c], which builds the disk image on the host: it writes the
    superblock, puts the files that it is given into a root directory and marks the
    blocks that it used in the bitmap.

    The image is a map from sector numbers to sectors.  What the host does is a
    parameter: whether the image can be made and a sector written, and what the
    successive calls of [read] on a file return.  The host is little-endian, as
    [fs.img] is.  A failed assertion and [die] stop the program. *)

From stdpp Require Import gmap strings list.
From S2P Require Import Prelude Layout State Block Fs.

Class Host := {
  (** [open(name, O_RDWR|O_CREAT|O_TRUNC, 0666) >= 0] *)
  host_create : list Z -> bool;
  (** [lseek] and [write] of a sector succeed. *)
  host_write : Z -> bool;
  (** [open(name, 0)]: what [read(fd, buf, BSIZE)] returns, until it returns 0. *)
  host_open : list Z -> option (list (list Z))
}.

(** ** The globals *)

Definition NINODES : Z := 200.
Definition nbitmap : Z := FSSIZE / (BSIZE * 8) + 1.
Definition ninodeblocks : Z := NINODES / IPB + 1.
Definition nlog : Z := LOGSIZE.

Record mkstate : Type := MkMkstate {
  (** The sectors of the file [fsfd]. *)
  image : gmap Z (list Z);
  mk_sb : superblock;
  freeinode : Z;
  freeblock : Z
}.

Definition zeroes : list Z := replicate (Z.to_nat BSIZE) 0.

Definition die {A} (msg : string) : M mkstate A := panic msg.
Definition assert_ (b : bool) : M mkstate unit := when (negb b) (panic "assert").

(** The value of [y] whose bytes are written one by one. *)
Definition xshort (x : Z) : Z := le_val [u8 x; u8 (Z.shiftr x 8)].
Definition xint (x : Z) : Z := le_val [u8 x; u8 (Z.shiftr x 8); u8 (Z.shiftr x 16); u8 (Z.shiftr x 24)].

(** ** Sectors *)

Section Mkfs.
Context `{Host}.

Definition wsect (sec : Z) (buf : list Z) : M mkstate unit :=
  if host_write sec then modify (fun s => MkMkstate (<[sec := buf]> (image s)) (mk_sb s) (freeinode s) (freeblock s))
  else die "write".

Definition rsect (sec : Z) : M mkstate (list Z) :=
  let! img := gets image in
  match img !! sec with Some buf => ret buf | None => die "read" end.

(** [struct dinode] is the part of an inode that is on the disk. *)
Definition winode (inum : Z) (din : inode) : M mkstate unit :=
  let! sb := gets mk_sb in
  let bn := IBLOCK inum sb in
  let! buf := rsect bn in
  wsect bn (put_dinode (dinode_off inum) din buf).

Definition rinode (inum : Z) : M mkstate inode :=
  let! sb := gets mk_sb in
  let bn := IBLOCK inum sb in
  let! buf := rsect bn in
  ret (load_dinode (dinode_off inum) buf zero_inode).

(** [freeblock++] *)
Definition next_block : M mkstate Z :=
  let! b := gets freeblock in
  modify (fun s => MkMkstate (image s) (mk_sb s) (freeinode s) (u32 (b + 1))) ;;
  ret b.

Definition ialloc (type : Z) : M mkstate Z :=
  let! inum := gets freeinode in
  modify (fun s => MkMkstate (image s) (mk_sb s) (u32 (inum + 1)) (freeblock s)) ;;
  winode inum (set_i_size (xint 0) (set_i_nlink (s16 (xshort 1)) (set_i_type (s16 (xshort type)) zero_inode))) ;;
  ret inum.

(** The loop of [balloc]. *)
Definition used_bits (used : nat) : list Z :=
  foldl (fun buf i => set_bit (Z.of_nat i) buf) zeroes (seq 0 used).

Definition balloc (used : Z) : M mkstate unit :=
  assert_ (used <? BSIZE * 8) ;;
  let! sb := gets mk_sb in
  wsect (sb_bmapstart sb) (used_bits (Z.to_nat used)).

(** ** [iappend] *)

(** The address of block [fbn] in the indirect block, which gets one if it has none. *)
Definition indirect_of (fbn : Z) (din : inode) : M mkstate Z :=
  let! a := deref "din.addrs" (i_addrs din !! 12%nat) in
  let! indirect := rsect (xint a) in
  let k := (4 * Z.to_nat (fbn - NDIRECT))%nat in
  let! indirect :=
    (if get32 k indirect =? 0 then
       let! b := next_block in
       let indirect := put32 k (xint b) indirect in
       wsect (xint a) indirect ;;
       ret indirect
     else ret indirect) in
  ret (xint (get32 k indirect)).

(** [din.addrs[k]], a new block if it is 0: the inode with the address. *)
Definition addr_at (k : nat) (din : inode) : M mkstate inode :=
  let! a := deref "din.addrs" (i_addrs din !! k) in
  if xint a =? 0 then
    let! b := next_block in
    ret (set_i_addrs (<[k := xint b]> (i_addrs din)) din)
  else ret din.

(** The address of block [fbn], and the inode. *)
Definition block_of (fbn : Z) (din : inode) : M mkstate (inode * Z) :=
  if fbn <? NDIRECT then
    let! din := addr_at (Z.to_nat fbn) din in
    let! a := deref "din.addrs" (i_addrs din !! Z.to_nat fbn) in
    ret (din, xint a)
  else
    let! din := addr_at 12 din in
    let! x := indirect_of fbn din in
    ret (din, x).

(** The loop with [k] turns left: the inode and the offset. *)
Fixpoint iappend_loop (k : nat) (din : inode) (off : Z) (p : list Z) : M mkstate (inode * Z) :=
  if 0 <? Z.of_nat (length p) then
    match k with
    | O => no_fuel
    | S k =>
        let fbn := off / BSIZE in
        assert_ (fbn <? MAXFILE) ;;
        let! (din, x) := block_of fbn din in
        let n1 := Z.min (Z.of_nat (length p)) ((fbn + 1) * BSIZE - off) in
        let! buf := rsect x in
        wsect x (splice (Z.to_nat (off - fbn * BSIZE)) (take (Z.to_nat n1) p) buf) ;;
        iappend_loop k din (off + n1) (drop (Z.to_nat n1) p)
    end
  else ret (din, off).

Definition iappend (inum : Z) (p : list Z) : M mkstate unit :=
  let! din := rinode inum in
  let! (din, off) := iappend_loop (length p / Z.to_nat BSIZE + 2) din (xint (i_size din)) p in
  winode inum (set_i_size (xint off) din).

(** ** [main] *)

(** [struct dirent]: the name cut to [DIRSIZ] characters and filled with zeros. *)
Definition dirent (inum : Z) (name : list Z) : list Z :=
  put16 0 (xshort inum) (replicate 2 0 ++ take 14 name ++ replicate (14 - length name) 0).

Definition chr_dot : Z := 46.
Definition user_prefix : list Z := [117; 115; 101; 114; 47].

(** The name without [user/]. *)
Definition shortname (arg : list Z) : list Z :=
  if bool_decide (take 5 arg = user_prefix) then drop 5 arg else arg.

(** The name without a leading underscore. *)
Definition skip_underscore (name : list Z) : list Z :=
  match name with c :: name' => if c =? 95 then name' else name | [] => [] end.

(** One turn of the loop over the arguments. *)
Definition add_file (rootino : Z) (arg : list Z) : M mkstate unit :=
  let name := shortname arg in
  assert_ (bool_decide (chr_slash ∉ name)) ;;
  match host_open arg with
  | None => die "open"
  | Some reads =>
      let name := skip_underscore name in
      let! inum := ialloc T_FILE in
      iappend rootino (dirent inum name) ;;
      for_each reads (iappend inum)
  end.

(** The superblock of the image. *)
Definition nmeta : Z := 2 + nlog + ninodeblocks + nbitmap.
Definition mkfs_sb : superblock :=
  MkSuperblock FSMAGIC (xint FSSIZE) (xint (FSSIZE - nmeta)) (xint NINODES) (xint nlog) (xint 2) (xint (2 + nlog))
    (xint (2 + nlog + ninodeblocks)).

(** [memset(buf, 0, sizeof(buf)); memmove(buf, &sb, sizeof(sb))] *)
Definition sb_block (sb : superblock) : list Z :=
  splice 0 (concat (le_bytes 4 <$> [sb_magic sb; sb_size sb; sb_nblocks sb; sb_ninodes sb; sb_nlog sb; sb_logstart sb;
    sb_inodestart sb; sb_bmapstart sb])) zeroes.

(** The files, the size of the root directory and the bitmap. *)
Definition populate (files : list (list Z)) (rootino : Z) : M mkstate unit :=
  for_each files (add_file rootino) ;;
  let! din := rinode rootino in
  let off := xint (i_size din) in
  let off := (off / BSIZE + 1) * BSIZE in
  winode rootino (set_i_size (xint off) din) ;;
  let! fb := gets freeblock in
  balloc fb.

Definition mkfs_main (argv : list (list Z)) : M mkstate unit :=
  match argv with
  | _ :: img :: files =>
      if negb (host_create img) then die "open" else
      modify (fun s => MkMkstate ∅ mkfs_sb (freeinode s) nmeta) ;;
      for_each (seqZ 0 FSSIZE) (fun i => wsect i zeroes) ;;
      wsect 1 (sb_block mkfs_sb) ;;
      let! rootino := ialloc T_DIR in
      assert_ (rootino =? ROOTINO) ;;
      iappend rootino (dirent rootino [chr_dot]) ;;
      iappend rootino (dirent rootino [chr_dot; chr_dot]) ;;
      populate files rootino
  | _ => die "Usage: mkfs fs.img files..."
  end.
End Mkfs.

(** The program starts with [freeinode] 1. *)
Definition mk_start : mkstate := MkMkstate ∅ (MkSuperblock 0 0 0 0 0 0 0 0) 1 0.
