(* ===== verification/MkfsImage.v ===== *)
(** * The image of [mkfs]

    The image has the files that [mkfs] was given, as the kernel's file system reads
    them: the superblock, an inode and the bytes of each file, a root directory with
    their names, and a bitmap in which the blocks in use are marked. *)

From stdpp Require Import gmap strings list fin_maps.
From S2P Require Import Prelude Layout State Block Bio Log LogCommit LogTx Fs Dinode FsBits FsMap FsContent Mkfs.

Lemma xint_id x : 0 <= x < 2 ^ 32 -> xint x = x.
Proof.
  intros Hx. unfold xint. rewrite <- (u32_small x) at 5 by done. rewrite !Z.shiftr_div_pow2 by lia. cbn [le_val].
  unfold u8, u32. pose proof (Z.div_mod x 256 ltac:(lia)). pose proof (Z.div_mod (x / 256) 256 ltac:(lia)).
  pose proof (Z.div_mod (x / 256 / 256) 256 ltac:(lia)). rewrite !Zdiv.Zdiv_Zdiv in * by lia.
  change (2 ^ 8) with 256. change (2 ^ 16) with (256 * 256). change (2 ^ 24) with (256 * 256 * 256).
  pose proof (Z.div_lt_upper_bound x (256 * 256 * 256) 256 ltac:(lia) ltac:(lia)). pose proof (Z.div_pos x (256 * 256 * 256) ltac:(lia) ltac:(lia)).
  rewrite (Z.mod_small (x / (256 * 256 * 256)) 256) by lia. rewrite (Z.mod_small x (2 ^ 32)) by lia. lia.
Qed.

Lemma xshort_id x : 0 <= x < 2 ^ 16 -> xshort x = x.
Proof.
  intros Hx. unfold xshort. rewrite Z.shiftr_div_pow2 by lia. cbn [le_val]. unfold u8. change (2 ^ 8) with 256.
  pose proof (Z.div_mod x 256 ltac:(lia)). pose proof (Z.div_lt_upper_bound x 256 256 ltac:(lia) ltac:(lia)).
  pose proof (Z.div_pos x 256 ltac:(lia) ltac:(lia)). rewrite (Z.mod_small (x / 256) 256) by lia. lia.
Qed.

(** The superblock that [main] makes. *)
Lemma mkfs_sb_is : mkfs_sb = MkSuperblock FSMAGIC 1000 954 200 30 2 32 45.
Proof. vm_compute. done. Qed.

(** ** The bitmap *)

Lemma used_bits_S k : used_bits (S k) = set_bit (Z.of_nat k) (used_bits k).
Proof. unfold used_bits. rewrite seq_S, foldl_app. done. Qed.

Lemma length_used_bits k : length (used_bits k) = Z.to_nat BSIZE.
Proof. induction k as [|k IH]; [done|]. by rewrite used_bits_S, length_set_bit. Qed.

Lemma bit_free_used k : forall n, 0 <= n < 8192 -> Z.of_nat k <= 8192 -> bit_free n (used_bits k) = bool_decide (Z.of_nat k <= n).
Proof.
  induction k as [|k IH]; intros n Hn Hk.
  - rewrite bool_decide_eq_true_2 by lia. unfold used_bits. cbn [seq foldl]. unfold bit_free, bit_byte, zeroes.
    destruct (replicate (Z.to_nat BSIZE) 0 !! Z.to_nat (n / 8)) eqn:E; [|done]. apply lookup_replicate in E as [-> _]. done.
  - assert (Z.to_nat (Z.of_nat k / 8) < length (used_bits k))%nat as Hlt.
    { rewrite length_used_bits. apply Nat2Z.inj_lt. pose proof (Z.div_pos (Z.of_nat k) 8 ltac:(lia) ltac:(lia)).
      pose proof (Z.div_lt_upper_bound (Z.of_nat k) 8 1024 ltac:(lia) ltac:(lia)). lia. }
    rewrite used_bits_S, bit_free_set, IH by (done || lia). repeat case_bool_decide; try case_decide; try done; lia.
Qed.

(** The image with the bitmap that [balloc] will write. *)
Definition view (V : gmap Z (list Z)) (fb : Z) : gmap Z (list Z) := <[45 := used_bits (Z.to_nat fb)]> V.

Abbreviation layout := (layout 2 30 mkfs_sb 46).
Abbreviation used := (used mkfs_sb 46).
Abbreviation free := (free mkfs_sb 46).
Abbreviation taken := (taken mkfs_sb).
Abbreviation mapped := (mapped mkfs_sb 46).
Abbreviation remap := (remap 2 30 mkfs_sb 46).
Abbreviation foreign := (foreign mkfs_sb 46).

(** Blocks from [fb] on have not been used. *)
Record disk_ok (V : gmap Z (list Z)) (fb : Z) : Prop := {
  dk_len : forall n, 0 <= n < 1000 -> exists d, V !! n = Some d /\ length d = Z.to_nat BSIZE;
  dk_zero : forall n, fb <= n < 1000 -> V !! n = Some zeroes;
  dk_fb : 46 <= fb <= 1000
}.

Lemma blk_view V fb : blk (view V fb) 45 = used_bits (Z.to_nat fb).
Proof. apply blk_insert. Qed.

Lemma view_ne V fb n : n <> 45 -> view V fb !! n = V !! n.
Proof. intros Hn. unfold view. by rewrite lookup_insert_ne. Qed.

Lemma view_insert V fb n d : n <> 45 -> view (<[n := d]> V) fb = <[n := d]> (view V fb).
Proof. intros Hn. unfold view. by rewrite insert_insert_ne. Qed.

Lemma view_bit V fb n : disk_ok V fb -> 0 <= n < 1000 -> bit_free n (blk (view V fb) 45) = bool_decide (fb <= n).
Proof.
  intros Hd Hn. pose proof (dk_fb _ _ Hd). rewrite blk_view, bit_free_used by lia. by rewrite Z2Nat.id by lia.
Qed.

Lemma disk_layout V fb : disk_ok V fb -> layout (view V fb).
Proof.
  intros Hd. pose proof (dk_fb _ _ Hd) as Hfb. rewrite mkfs_sb_is. split; cbn [sb_size sb_bmapstart]; [lia|lia| | |].
  - intros n Hn. unfold in_log. lia.
  - intros n Hn. destruct (decide (n = 45)) as [->|]; [exists (used_bits (Z.to_nat fb)); unfold view; rewrite lookup_insert_eq; split; [done|apply length_used_bits]|].
    rewrite view_ne by done. by apply Hd.
  - intros n Hn. rewrite (view_bit V fb n Hd) by lia. apply bool_decide_eq_false_2. lia.
Qed.

Lemma used_view V fb n : disk_ok V fb -> used (view V fb) n <-> 46 <= n < fb.
Proof.
  intros Hd. pose proof (dk_fb _ _ Hd). unfold FsMap.used. rewrite mkfs_sb_is. cbn [sb_size sb_bmapstart]. split.
  - intros [Hn Hb]. rewrite (view_bit V fb n Hd) in Hb by lia. apply bool_decide_eq_false in Hb. lia.
  - intros Hn. split; [lia|]. rewrite (view_bit V fb n Hd) by lia. apply bool_decide_eq_false_2. lia.
Qed.

(** The next block. *)
Lemma take_next V fb : disk_ok V fb -> fb < 1000 ->
  free (view V fb) fb /\ taken (view V fb) fb = view V (fb + 1) /\ disk_ok V (fb + 1).
Proof.
  intros Hd Hlt. pose proof (dk_fb _ _ Hd) as Hfb. pose proof (dk_zero _ _ Hd fb ltac:(lia)) as Hz. split_and!.
  - unfold FsBits.free. rewrite mkfs_sb_is. cbn [sb_size sb_bmapstart]. split; [lia|]. rewrite (view_bit V fb fb Hd) by lia. by apply bool_decide_eq_true_2.
  - unfold FsBits.taken. rewrite mkfs_sb_is. cbn [sb_bmapstart]. rewrite blk_view. unfold view. rewrite insert_insert_eq.
    replace (Z.to_nat (fb + 1)) with (S (Z.to_nat fb)) by lia. rewrite used_bits_S, Z2Nat.id by lia.
    rewrite insert_insert_ne by lia. by rewrite (insert_id V fb).
  - split; [apply Hd| |lia]. intros n Hn. apply Hd. lia.
Qed.

(** ** The blocks of a file *)

Definition owns (W : gmap Z (list Z)) (addrs : list Z) (m : Z) : Prop :=
  m <> 0 /\ (m = addr_of addrs 12 \/ exists bn, 0 <= bn < MAXFILE /\ baddr W addrs bn = m).

(** The bytes of a file, and zeros to the end of the last block. *)
Definition padded (l : list Z) : list Z := l ++ replicate (Z.to_nat (- Z.of_nat (length l) mod BSIZE)) 0.

(** A file with the bytes [l]: it has exactly the blocks that they need. *)
Record good (W : gmap Z (list Z)) (addrs : list Z) (l : list Z) : Prop := {
  gd_mapped : mapped W addrs;
  gd_content : content W addrs (padded l);
  gd_dense : forall bn, 0 <= bn < MAXFILE -> baddr W addrs bn <> 0 <-> bn * BSIZE < Z.of_nat (length l);
  gd_ind : addr_of addrs 12 <> 0 <-> NDIRECT * BSIZE < Z.of_nat (length l);
  gd_max : Z.of_nat (length l) <= MAXFILE * BSIZE
}.

Lemma length_padded l : exists q, Z.of_nat (length (padded l)) = q * BSIZE /\ Z.of_nat (length l) <= q * BSIZE < Z.of_nat (length l) + BSIZE.
Proof.
  unfold padded. rewrite length_app, length_replicate. set (n := Z.of_nat (length l)).
  pose proof (Z.mod_pos_bound (- n) BSIZE ltac:(lia)). pose proof (Z.div_mod (- n) BSIZE ltac:(lia)). exists (- (- n / BSIZE)). lia.
Qed.

Lemma padded_max l : Z.of_nat (length l) <= MAXFILE * BSIZE -> Z.of_nat (length (padded l)) <= MAXFILE * BSIZE.
Proof. intros Hl. destruct (length_padded l) as (q & E & Hq). lia. Qed.

(** What a change to one file does to the rest. *)
Record appends (W W' : gmap Z (list Z)) (addrs addrs' : list Z) : Prop := {
  gr_foreign : forall m, foreign W addrs m -> foreign W' addrs' m /\ W' !! m = W !! m;
  gr_owns : forall m, owns W' addrs' m -> owns W addrs m \/ ~ used W m;
  gr_used : forall m, used W m -> used W' m;
  gr_meta : forall m, 0 <= m < 45 -> W' !! m = W !! m
}.

Lemma appends_refl W addrs : appends W W addrs addrs.
Proof. split; try done. intros m Hm. by left. Qed.

Lemma appends_trans W1 W2 W3 a1 a2 a3 : appends W1 W2 a1 a2 -> appends W2 W3 a2 a3 -> appends W1 W3 a1 a3.
Proof.
  intros [A1 A2 A3 A4] [B1 B2 B3 B4]. split.
  - intros m Hm. destruct (A1 m Hm) as [F1 E1], (B1 m) as [F2 E2]; [by apply A1|]. split; [done|congruence].
  - intros m Hm. destruct (B2 m Hm) as [Ho|Hu]; [by apply A2|]. right. auto.
  - auto.
  - intros m Hm. rewrite B4, A4 by done. done.
Qed.

Lemma remap_appends W W' addrs addrs' bn a : remap W W' addrs addrs' bn a -> 0 <= bn < MAXFILE -> appends W W' addrs addrs'.
Proof.
  intros Hrm Hbn. pose proof Hrm as [_ _ [E1 E2] _ Hnew Hold Hind [O1 O2 O3]]. split; [| |done|].
  - intros m Hm. destruct (remap_foreign _ _ _ _ _ _ _ _ _ _ m Hrm Hbn Hm) as (? & ? & _). done.
  - intros m [Hm [Ei|(bn' & Hb' & Eb)]].
    + destruct Hind as [Es|Hn]; [left; split; [done|left; congruence]|right; congruence].
    + destruct (decide (bn' = bn)) as [->|Hne].
      * rewrite E1 in Eb. subst m. destruct (decide (baddr W addrs bn = 0)) as [Hz|Hz]; [right; by apply Hnew|].
        left. split; [done|]. right. exists bn. split; [done|]. symmetry. by apply Hold.
      * left. split; [done|]. right. exists bn'. split; [done|]. by rewrite <- E2.
  - intros m Hm. apply O2; rewrite mkfs_sb_is; cbn [sb_size sb_bmapstart]; lia.
Qed.

Lemma update_appends W addrs bn d d' : layout W -> mapped W addrs -> 0 <= bn < MAXFILE -> baddr W addrs bn <> 0 ->
  W !! baddr W addrs bn = Some d -> length d' = Z.to_nat BSIZE -> appends W (<[baddr W addrs bn := d']> W) addrs addrs.
Proof.
  intros Hl Hm Hbn Hz Hd Hd'. pose proof (update_used _ _ _ _ bn Hm Hbn Hz) as Hu. pose proof (update_bm _ _ _ _ _ _ bn d' Hl Hm Hbn Hz Hd') as Hb. split.
  - intros m Hf. by apply (update_foreign 2 30).
  - intros m [H0 [Hi|(bn' & Hb' & Eb)]]; left; (split; [done|]); [by left|right]. exists bn'. split; [done|].
    rewrite <- Eb. symmetry. by eapply update_baddr.
  - intros m Hmu. by apply used_insert.
  - intros m Hm'. rewrite lookup_insert_ne; [done|]. destruct Hu. lia.
Qed.

(** ** [block_of] *)

Section Run.
Context `{Host}.
Hypothesis Hwrite : forall n, 0 <= n < 1000 -> host_write n = true.
Variable fi : Z.

Abbreviation st V fb := (MkMkstate V mkfs_sb fi fb).

Lemma wsect_ok V fb n d : 0 <= n < 1000 -> wsect n d (st V fb) = Ok tt (st (<[n := d]> V) fb).
Proof. intros Hn. unfold wsect. by rewrite Hwrite. Qed.

Lemma rsect_ok V fb n d : V !! n = Some d -> rsect n (st V fb) = Ok d (st V fb).
Proof. intros Hd. unfold rsect. erewrite bind_ok by reflexivity. cbn [image]. by rewrite Hd. Qed.

Lemma next_block_ok V fb : 0 <= fb <= 1000 -> next_block (st V fb) = Ok fb (st V (fb + 1)).
Proof. intros Hfb. unfold next_block. erewrite !bind_ok by reflexivity. cbn [freeblock]. by rewrite u32_small by lia. Qed.

Lemma addr_at_ok V fb k din : length (i_addrs din) = 13%nat -> (k < 13)%nat -> 0 <= addr_of (i_addrs din) k < 2 ^ 32 -> 0 <= fb <= 1000 ->
  addr_at k din (st V fb) =
    if addr_of (i_addrs din) k =? 0 then Ok (set_i_addrs (<[k := fb]> (i_addrs din)) din) (st V (fb + 1)) else Ok din (st V fb).
Proof.
  intros Hl Hk Ha Hfb. unfold addr_at, addr_of in *. destruct (lookup_lt_is_Some_2 (i_addrs din) k ltac:(lia)) as [a E]. rewrite E in Ha |- *. cbn [from_option id] in Ha |- *.
  erewrite bind_ok by reflexivity. rewrite xint_id by lia. destruct (a =? 0); [|done]. mstep (next_block_ok V fb Hfb). by rewrite xint_id by lia.
Qed.

Lemma addr_range W addrs k : layout W -> mapped W addrs -> (k < 13)%nat -> 0 <= addr_of addrs k < 2 ^ 32.
Proof.
  intros Hl Hm Hk. pose proof (mapped_addrs 2 30 mkfs_sb 46 W addrs Hl Hm) as Ha. unfold addr_of.
  destruct (lookup_lt_is_Some_2 addrs k) as [a E]; [by rewrite (mp_len _ _ _ _ Hm)|]. rewrite E. by apply (Forall_lookup_1 _ _ _ _ Ha E).
Qed.

(** The entry of the indirect block. *)
Lemma indirect_of_ok V fb bn din : disk_ok V fb -> mapped (view V fb) (i_addrs din) -> NDIRECT <= bn < MAXFILE ->
  addr_of (i_addrs din) 12 <> 0 -> let a := baddr (view V fb) (i_addrs din) bn in
  let fb' := if a =? 0 then fb + 1 else fb in fb' <= 1000 ->
  exists V' x, indirect_of bn din (st V fb) = Ok x (st V' fb') /\ disk_ok V' fb' /\
    remap (view V fb) (view V' fb') (i_addrs din) (i_addrs din) bn x.
Proof.
  intros Hd Hm Hbn Hi a fb' Hfb'. pose proof (disk_layout V fb Hd) as Hl. pose proof (dk_fb _ _ Hd) as Hfb.
  pose proof (mp_len _ _ _ _ Hm) as Hlen. set (ind := addr_of (i_addrs din) 12) in *.
  destruct (mp_ind _ _ _ _ Hm) as [|Hui]; [done|]. fold ind in Hui.
  pose proof (proj1 (used_view V fb ind Hd) Hui) as Hir.
  destruct (layout_used _ _ _ _ _ ind Hl Hui) as (d & Ed & Hdl & _). rewrite view_ne in Ed by lia.
  set (k := (4 * Z.to_nat (bn - NDIRECT))%nat). assert (a = get32 k d) as Ea.
  { unfold a, baddr. rewrite (proj2 (Z.ltb_ge bn NDIRECT)) by lia. fold ind. rewrite (proj2 (Z.eqb_neq ind 0) Hi).
    by rewrite (blk_some _ ind d) by (by rewrite view_ne by lia). }
  unfold indirect_of. assert (i_addrs din !! 12%nat = Some ind) as ->.
  { unfold ind, addr_of. destruct (lookup_lt_is_Some_2 (i_addrs din) 12 ltac:(lia)) as [x ->]. done. }
  erewrite bind_ok by reflexivity. rewrite xint_id by lia. mstep (rsect_ok V fb ind d Ed). fold k. rewrite <- Ea.
  unfold fb' in *. destruct (Z.eqb_spec a 0) as [E0|E0].
  - destruct (take_next V fb Hd ltac:(lia)) as (Hfr & Ht & Hd1). exists (<[ind := put32 k fb d]> V), fb.
    erewrite bind_ok.
    2: { mstep (next_block_ok V fb ltac:(lia)). rewrite xint_id by lia. mstep (wsect_ok V (fb + 1) ind (put32 k fb d) ltac:(lia)). reflexivity. }
    rewrite get32_put32_eq by (unfold k; lia). rewrite u32_small, xint_id by lia. split; [done|].
    assert (length (put32 k fb d) = Z.to_nat BSIZE) as Hpl by (rewrite length_put32; [done|unfold k; lia]). split.
    + split; [| |lia].
      * intros n Hn. destruct (decide (n = ind)) as [->|]; [rewrite lookup_insert_eq; eauto|]. rewrite lookup_insert_ne by done. by apply Hd.
      * intros n Hn. rewrite lookup_insert_ne by lia. apply Hd. lia.
    + rewrite view_insert by lia. rewrite <- Ht. apply (remap_entry 2 30); try done; [by rewrite view_ne by lia|]. fold k. congruence.
  - exists V, (xint a). erewrite bind_ok by reflexivity. rewrite <- Ea. split; [done|]. split; [done|].
    destruct (mp_used _ _ _ _ Hm bn ltac:(lia)) as [|Hua]; [done|]. fold a in Hua. apply (used_view V fb a Hd) in Hua.
    rewrite xint_id by lia. apply remap_same; try done. lia.
Qed.

(** The blocks that are taken when the file has [len] bytes and appends. *)
Definition new_blocks (len : Z) : Z :=
  (if len mod BSIZE =? 0 then 1 else 0) + (if len =? NDIRECT * BSIZE then 1 else 0).

Lemma block_of_ok V fb din l : disk_ok V fb -> good (view V fb) (i_addrs din) l -> Z.of_nat (length l) < MAXFILE * BSIZE ->
  let bn := Z.of_nat (length l) / BSIZE in let fb' := fb + new_blocks (Z.of_nat (length l)) in fb' <= 1000 ->
  exists V' addrs' a, block_of bn din (st V fb) = Ok (set_i_addrs addrs' din, a) (st V' fb') /\ disk_ok V' fb' /\
    remap (view V fb) (view V' fb') (i_addrs din) addrs' bn a /\ (addr_of addrs' 12 <> 0 <-> NDIRECT <= bn).
Proof.
  intros Hd Hg Hlt bn fb' Hfb'. pose proof (disk_layout V fb Hd) as Hl. pose proof (dk_fb _ _ Hd) as Hfb.
  pose proof Hg as [Hm Hc Hden Hind Hmax]. pose proof (mp_len _ _ _ _ Hm) as Hlen. set (n := Z.of_nat (length l)) in *.
  pose proof (Z.div_mod n BSIZE ltac:(lia)) as En. pose proof (Z.mod_pos_bound n BSIZE ltac:(lia)) as Bn. fold bn in En.
  assert (0 <= bn < MAXFILE) as Hbn by (unfold n in *; lia). pose proof (Hden bn Hbn) as Hb.
  unfold block_of. destruct (Z.ltb_spec bn NDIRECT) as [Hdir|Hge].
  - pose proof (addr_range _ _ (Z.to_nat bn) Hl Hm ltac:(lia)) as Ha. assert (baddr (view V fb) (i_addrs din) bn = addr_of (i_addrs din) (Z.to_nat bn)) as Eb
      by (unfold baddr; by rewrite (proj2 (Z.ltb_lt bn NDIRECT)) by lia).
    assert (fb' = fb + if n mod BSIZE =? 0 then 1 else 0) as Efb by (unfold fb', new_blocks; rewrite (proj2 (Z.eqb_neq n (NDIRECT * BSIZE))) by lia; lia).
    pose proof (addr_at_ok V fb (Z.to_nat bn) din Hlen ltac:(lia) Ha ltac:(lia)) as R. rewrite <- Eb in R.
    destruct (Z.eqb_spec (n mod BSIZE) 0) as [E0|E0].
    + assert (baddr (view V fb) (i_addrs din) bn = 0) as Z0 by (destruct (decide (baddr (view V fb) (i_addrs din) bn = 0)); [done|]; lia).
      rewrite Z0 in R. cbn [Z.eqb] in R. mstep R. destruct (take_next V fb Hd ltac:(lia)) as (Hfr & Ht & Hd1).
      exists V, (<[Z.to_nat bn := fb]> (i_addrs din)), fb. cbn [i_addrs set_i_addrs]. rewrite list_lookup_insert_eq by lia. erewrite bind_ok by reflexivity.
      rewrite xint_id, Efb by lia. split; [done|]. split; [done|]. rewrite <- Ht. split; [apply remap_direct; try done; [lia|congruence]|].
      rewrite addr_of_insert, decide_False by lia. lia.
    + assert (baddr (view V fb) (i_addrs din) bn <> 0) as Z0 by (apply Hb; lia).
      rewrite (proj2 (Z.eqb_neq _ 0) Z0) in R. mstep R. exists V, (i_addrs din), (baddr (view V fb) (i_addrs din) bn).
      assert (i_addrs din !! Z.to_nat bn = Some (baddr (view V fb) (i_addrs din) bn)) as ->.
      { rewrite Eb. unfold addr_of. by destruct (lookup_lt_is_Some_2 (i_addrs din) (Z.to_nat bn) ltac:(lia)) as [x ->]. }
      erewrite bind_ok by reflexivity. rewrite xint_id, Efb, Z.add_0_r by lia. split; [by destruct din|]. split; [done|].
      split; [by apply remap_same|lia].
  - pose proof (addr_range _ _ 12 Hl Hm ltac:(lia)) as Ha. pose proof (addr_at_ok V fb 12 din Hlen ltac:(lia) Ha ltac:(lia)) as R.
    destruct (Z.eqb_spec (addr_of (i_addrs din) 12) 0) as [E0|E0].
    + assert (n = NDIRECT * BSIZE) as En' by lia. assert (fb' = fb + 2) as Efb by (unfold fb', new_blocks; rewrite En'; done).
      mstep R. destruct (take_next V fb Hd ltac:(lia)) as (Hfr & Ht & Hd1). set (addrs1 := <[12%nat := fb]> (i_addrs din)) in *.
      destruct (extend_ind 2 30 mkfs_sb 46 (view V fb) (i_addrs din) fb Hl Hm Hfr E0) as [Hsame Hm1]. rewrite Ht in Hsame, Hm1. fold addrs1 in Hsame, Hm1.
      assert (addr_of addrs1 12 = fb) as E12 by (unfold addrs1; rewrite addr_of_insert by lia; by rewrite decide_True).
      assert (baddr (view V (fb + 1)) addrs1 bn = 0) as Z0 by (rewrite Hsame by done; destruct (decide (baddr (view V fb) (i_addrs din) bn = 0)); [done|lia]).
      destruct (indirect_of_ok V (fb + 1) bn (set_i_addrs addrs1 din) Hd1 Hm1) as (V' & x & R2 & Hd2 & Hrm); [lia|cbn; lia|cbn [i_addrs set_i_addrs]; rewrite Z0; cbn; lia|].
      cbn [i_addrs set_i_addrs] in *. rewrite Z0 in *. cbn [Z.eqb] in *. replace (fb + 1 + 1) with fb' in * by lia.
      exists V', addrs1, x. split; [by mstep R2|]. split; [done|]. split; [|lia]. eapply (remap_new_ind 2 30); try done. by rewrite Ht.
    + mstep R. pose proof (proj1 Hind E0) as Hgt.
      assert (fb' = if baddr (view V fb) (i_addrs din) bn =? 0 then fb + 1 else fb) as Efb.
      { unfold fb', new_blocks. rewrite (proj2 (Z.eqb_neq n (NDIRECT * BSIZE))) by lia. destruct (Z.eqb_spec (n mod BSIZE) 0), (Z.eqb_spec (baddr (view V fb) (i_addrs din) bn) 0); lia. }
      destruct (indirect_of_ok V fb bn din Hd Hm) as (V' & x & R2 & Hd2 & Hrm); [lia|done|rewrite <- Efb; lia|]. rewrite <- Efb in *.
      exists V', (i_addrs din), x. split; [mstep R2; by destruct din|]. split; [done|]. split; [done|lia].
Qed.

(** ** [iappend] *)

(** The blocks that a file with [n] bytes has. *)
Definition blocks (n : Z) : Z := (n + BSIZE - 1) / BSIZE + (if NDIRECT * BSIZE <? n then 1 else 0).

Lemma blocks_step n m : 0 <= n -> 0 < m <= BSIZE - n mod BSIZE -> blocks (n + m) = blocks n + new_blocks n.
Proof.
  intros Hn Hm. unfold blocks, new_blocks. pose proof (Z.div_mod n BSIZE ltac:(lia)) as En. pose proof (Z.mod_pos_bound n BSIZE ltac:(lia)) as Bn.
  set (q := n / BSIZE) in *. assert ((n + m + BSIZE - 1) / BSIZE = q + 1) as -> by (symmetry; apply (Z.div_unique _ _ _ (n mod BSIZE + m - 1)); lia).
  destruct (Z.eqb_spec (n mod BSIZE) 0) as [E0|E0].
  - assert ((n + BSIZE - 1) / BSIZE = q) as -> by (symmetry; apply (Z.div_unique _ _ _ (BSIZE - 1)); lia).
    destruct (Z.ltb_spec (NDIRECT * BSIZE) (n + m)), (Z.ltb_spec (NDIRECT * BSIZE) n), (Z.eqb_spec n (NDIRECT * BSIZE)); lia.
  - assert ((n + BSIZE - 1) / BSIZE = q + 1) as -> by (symmetry; apply (Z.div_unique _ _ _ (n mod BSIZE - 1)); lia).
    destruct (Z.ltb_spec (NDIRECT * BSIZE) (n + m)), (Z.ltb_spec (NDIRECT * BSIZE) n), (Z.eqb_spec n (NDIRECT * BSIZE)); lia.
Qed.

Lemma blocks_mono n m : 0 <= n <= m -> blocks n <= blocks m.
Proof.
  intros Hn. unfold blocks. pose proof (Z.div_le_mono (n + BSIZE - 1) (m + BSIZE - 1) BSIZE ltac:(lia) ltac:(lia)).
  destruct (Z.ltb_spec (NDIRECT * BSIZE) n), (Z.ltb_spec (NDIRECT * BSIZE) m); lia.
Qed.

(** The contents of the block that was found, up to its end. *)
Lemma remap_padded W W' addrs addrs' l a : good W addrs l -> let n := Z.of_nat (length l) in let bn := n / BSIZE in n < MAXFILE * BSIZE ->
  remap W W' addrs addrs' bn a -> content W' addrs' (l ++ replicate (Z.to_nat ((bn + 1) * BSIZE - n)) 0).
Proof.
  intros Hg n bn Hlt Hrm. pose proof Hg as [Hm Hc Hden _ Hmax]. pose proof Hrm as [_ _ [Ea _] [Hz _] Hnew _ _ _].
  pose proof (Z.div_mod n BSIZE ltac:(lia)) as En. pose proof (Z.mod_pos_bound n BSIZE ltac:(lia)) as Bn. fold bn in En.
  assert (0 <= bn < MAXFILE) as Hbn by (unfold n in *; lia).
  pose proof (remap_content _ _ _ _ _ _ _ _ _ _ _ Hrm Hm Hbn (padded_max l Hmax) Hc) as Hc'. destruct (decide (n mod BSIZE = 0)) as [E0|E0].
  - assert (padded l = l) as Ep by (unfold padded; fold n; rewrite Z.mod_opp_l_z by lia; by rewrite app_nil_r). rewrite Ep in Hc'.
    assert (baddr W addrs bn = 0) as Z0 by (pose proof (Hden bn Hbn); destruct (decide (baddr W addrs bn = 0)); [done|lia]).
    intros k Hk. rewrite length_app, length_replicate in Hk. destruct (decide (k < length l)%nat) as [Hkl|Hkl].
    + rewrite lookup_app_l by done. by apply Hc'.
    + assert (Z.of_nat k / BSIZE = bn) as Ek by (symmetry; apply (Z.div_unique _ _ _ (Z.of_nat k - bn * BSIZE)); lia).
      rewrite lookup_app_r by lia. unfold byte_of. rewrite Ek, Ea. split; [done|]. destruct (Hnew Z0) as [-> _].
      rewrite !lookup_replicate_2; [done|lia|]. pose proof (Z.mod_pos_bound (Z.of_nat k) BSIZE ltac:(lia)). lia.
  - assert (- n mod BSIZE = (bn + 1) * BSIZE - n) as E by (rewrite Z.mod_opp_l_nz by lia; lia). unfold padded in Hc'. fold n in Hc'. by rewrite E in Hc'.
Qed.

Lemma append_content V fb W addrs addrs' a l bytes d : disk_ok V fb -> good W addrs l ->
  let n := Z.of_nat (length l) in let bn := n / BSIZE in let W' := view V fb in
  remap W W' addrs addrs' bn a -> baddr W' addrs' bn = a -> mapped W' addrs' -> W' !! a = Some d -> length d = Z.to_nat BSIZE ->
  (0 < length bytes)%nat -> Z.of_nat (length bytes) <= BSIZE - n mod BSIZE -> n + Z.of_nat (length bytes) <= MAXFILE * BSIZE ->
  content (<[baddr W' addrs' bn := splice (Z.to_nat (n mod BSIZE)) bytes d]> W') addrs' (padded (l ++ bytes)).
Proof.
  intros Hd Hg n bn W' Hrm Ea Hm' Ew Hdl Hpos Hfit Hmax. pose proof (Z.div_mod n BSIZE ltac:(lia)) as En. pose proof (Z.mod_pos_bound n BSIZE ltac:(lia)) as Bn. fold bn in En.
  pose proof (remap_padded _ _ _ _ l a Hg ltac:(lia) Hrm) as Hc. fold n in Hc. fold bn in Hc. set (z := Z.to_nat ((bn + 1) * BSIZE - n)) in *.
  pose proof (update_content mkfs_sb 46 W' addrs' (length l) bytes (l ++ replicate z 0) d Hm') as Hup. cbv zeta in Hup. fold n bn in Hup.
  assert (splice (length l) bytes (l ++ replicate z 0) = padded (l ++ bytes)) as Es.
  { unfold splice, padded. rewrite take_app_length, <- app_assoc. do 2 f_equal. rewrite drop_app_ge by lia. rewrite drop_replicate. f_equal. rewrite length_app.
    assert (- Z.of_nat (length l + length bytes) mod BSIZE = (bn + 1) * BSIZE - n - Z.of_nat (length bytes)) as ->; [|unfold z; lia].
    symmetry. apply (Z.mod_unique _ _ (- (bn + 1))); unfold n in *; lia. }
  rewrite Es in Hup. rewrite length_app, length_replicate in Hup. apply Hup; try (rewrite Ea); try done; try lia. apply Hrm.
Qed.

(** The data is put in the block. *)
Lemma good_append V fb W addrs addrs' a l bytes d : disk_ok V fb -> good W addrs l ->
  let n := Z.of_nat (length l) in let bn := n / BSIZE in let W' := view V fb in
  remap W W' addrs addrs' bn a -> (addr_of addrs' 12 <> 0 <-> NDIRECT <= bn) -> V !! a = Some d ->
  (0 < length bytes)%nat -> Z.of_nat (length bytes) <= BSIZE - n mod BSIZE -> n + Z.of_nat (length bytes) <= MAXFILE * BSIZE ->
  let V' := <[a := splice (Z.to_nat (n mod BSIZE)) bytes d]> V in
  0 <= a < 1000 /\ disk_ok V' fb /\ good (view V' fb) addrs' (l ++ bytes) /\ appends W (view V' fb) addrs addrs'.
Proof.
  intros Hd Hg n bn W' Hrm Hi12 Ed Hpos Hfit Hmax V'. pose proof Hg as [Hm Hc Hden Hind _].
  pose proof Hrm as [Hl' Hm' [Ea Eb] [Hz Hu] _ _ _ _]. pose proof (proj1 (used_view V fb a Hd) Hu) as Har. pose proof (dk_fb _ _ Hd) as Hfb.
  pose proof (Z.div_mod n BSIZE ltac:(lia)) as En. pose proof (Z.mod_pos_bound n BSIZE ltac:(lia)) as Bn. fold bn in En.
  assert (0 <= bn < MAXFILE) as Hbn by (unfold n in *; lia).
  destruct (dk_len _ _ Hd a ltac:(lia)) as (d' & Ed' & Hdl). assert (d' = d) as -> by congruence.
  assert (W' !! a = Some d) as Ew by (unfold W'; by rewrite view_ne by lia).
  set (x := splice (Z.to_nat (n mod BSIZE)) bytes d). assert (length x = Z.to_nat BSIZE) as Hx by (unfold x; rewrite length_splice; lia).
  assert (view V' fb = <[baddr W' addrs' bn := x]> W') as EV by (unfold V'; rewrite view_insert by lia; by rewrite Ea).
  split; [lia|]. split; [|rewrite EV; split].
  - split; [| |done].
    + intros m Hm1. unfold V'. destruct (decide (m = a)) as [->|]; [rewrite lookup_insert_eq; eauto|]. rewrite lookup_insert_ne by done. by apply Hd.
    + intros m Hm1. unfold V'. rewrite lookup_insert_ne by lia. apply Hd. lia.
  - assert (forall b, baddr (<[baddr W' addrs' bn := x]> W') addrs' b = baddr W' addrs' b) as Eup by (intros b; eapply update_baddr; try done; by rewrite Ea).
    split.
    + eapply update_mapped; try done. by rewrite Ea.
    + by eapply append_content.
    + intros b Hb. rewrite Eup, length_app. destruct (decide (b = bn)) as [->|Hne]; [rewrite Ea; split; [lia|done]|].
      rewrite Eb, (Hden b Hb) by done. fold n. lia.
    + rewrite Hi12, length_app. lia.
    + rewrite length_app. lia.
  - eapply appends_trans; [by eapply remap_appends|]. eapply update_appends; try done; by rewrite Ea.
Qed.

Lemma iappend_turn k V fb din l p : disk_ok V fb -> good (view V fb) (i_addrs din) l -> p <> [] ->
  let n := Z.of_nat (length l) in let m := Z.min (Z.of_nat (length p)) (BSIZE - n mod BSIZE) in
  n + m <= MAXFILE * BSIZE -> fb + new_blocks n <= 1000 ->
  exists V' addrs', let fb' := fb + new_blocks n in
    iappend_loop (S k) din n p (st V fb) = iappend_loop k (set_i_addrs addrs' din) (n + m) (drop (Z.to_nat m) p) (st V' fb') /\
    disk_ok V' fb' /\ good (view V' fb') addrs' (l ++ take (Z.to_nat m) p) /\ appends (view V fb) (view V' fb') (i_addrs din) addrs'.
Proof.
  intros Hd Hg Hp n m Hmax Hfb. assert (0 < length p)%nat as Hlp by (destruct p; [done|cbn; lia]).
  pose proof (Z.div_mod n BSIZE ltac:(lia)) as En. pose proof (Z.mod_pos_bound n BSIZE ltac:(lia)) as Bn.
  assert (0 < m) as Hm by (unfold m; lia). assert (length (take (Z.to_nat m) p) = Z.to_nat m) as Lt by (rewrite length_take; unfold m; lia).
  destruct (block_of_ok V fb din l Hd Hg) as (V1 & addrs1 & a & R1 & Hd1 & Hrm & Hi12); [fold n; lia|fold n; lia|]. fold n in R1, Hd1, Hrm, Hi12.
  pose proof (proj1 (used_view _ _ a Hd1) (proj2 (rm_nonzero _ _ _ _ _ _ _ _ _ _ Hrm))) as Har. pose proof (dk_fb _ _ Hd1) as Hfb1.
  destruct (dk_len _ _ Hd1 a ltac:(lia)) as (d & Ed & Hdl).
  destruct (good_append V1 _ _ _ addrs1 a l (take (Z.to_nat m) p) d Hd1 Hg Hrm Hi12 Ed) as (_ & Hd2 & Hg2 & Hgr); try (rewrite Lt); fold n; try lia.
  exists (<[a := splice (Z.to_nat (n mod BSIZE)) (take (Z.to_nat m) p) d]> V1), addrs1. cbv zeta. split; [|done].
  cbn [iappend_loop]. rewrite (proj2 (Z.ltb_lt 0 (Z.of_nat (length p)))) by lia. unfold assert_.
  rewrite (proj2 (Z.ltb_lt (n / BSIZE) MAXFILE)) by (apply Z.div_lt_upper_bound; lia). cbn [negb when]. erewrite bind_ok by reflexivity.
  mstep R1. assert (Z.min (Z.of_nat (length p)) ((n / BSIZE + 1) * BSIZE - n) = m) as -> by (unfold m; f_equal; lia).
  mstep (rsect_ok V1 (fb + new_blocks n) a d Ed). replace (n - n / BSIZE * BSIZE) with (n mod BSIZE) by lia.
  by mstep (wsect_ok V1 (fb + new_blocks n) a (splice (Z.to_nat (n mod BSIZE)) (take (Z.to_nat m) p) d) ltac:(lia)).
Qed.

Lemma iappend_loop_ok k : forall V fb din l p, disk_ok V fb -> good (view V fb) (i_addrs din) l ->
  let n := Z.of_nat (length l) in let n' := n + Z.of_nat (length p) in
  n' <= MAXFILE * BSIZE -> fb + (blocks n' - blocks n) <= 1000 -> (nblocks n (Z.of_nat (length p)) <= k)%nat ->
  exists V' addrs', let fb' := fb + (blocks n' - blocks n) in
    iappend_loop k din n p (st V fb) = Ok (set_i_addrs addrs' din, n') (st V' fb') /\
    disk_ok V' fb' /\ good (view V' fb') addrs' (l ++ p) /\ appends (view V fb) (view V' fb') (i_addrs din) addrs'.
Proof.
  induction k as [|k IH]; intros V fb din l p Hd Hg n n' Hmax Hfb Hk; destruct (decide (p = [])) as [->|Hp].
  1,3: exists V, (i_addrs din); cbv zeta; unfold n'; cbn [length]; rewrite Z.add_0_r, Z.sub_diag, Z.add_0_r, app_nil_r; cbn [iappend_loop length];
    cbn [Z.of_nat Z.ltb Z.compare]; split; [by destruct din|]; split; [done|]; split; [done|apply appends_refl].
  all: assert (0 < length p)%nat as Hlp by (destruct p; [done|cbn; lia]).
  all: destruct (nblocks_step n (Z.of_nat (length p)) ltac:(lia) ltac:(lia)) as [Hm Enb]; [idtac|lia..].
  1: lia.
  set (m := Z.min (Z.of_nat (length p)) (BSIZE - n mod BSIZE)) in *.
  pose proof (blocks_step n m ltac:(lia) ltac:(unfold m; lia)) as Eb. pose proof (blocks_mono (n + m) n' ltac:(unfold m, n'; lia)) as Hb.
  destruct (iappend_turn k V fb din l p Hd Hg Hp) as (V1 & addrs1 & R1 & Hd1 & Hg1 & Gr1); [fold n m; lia|fold n; lia|]. fold n m in R1, Hd1, Hg1, Gr1.
  assert (length (take (Z.to_nat m) p) = Z.to_nat m) as Lt by (rewrite length_take; unfold m; lia).
  destruct (IH V1 (fb + new_blocks n) (set_i_addrs addrs1 din) (l ++ take (Z.to_nat m) p) (drop (Z.to_nat m) p) Hd1 Hg1) as (V2 & addrs2 & R2 & Hd2 & Hg2 & Gr2).
  { rewrite length_app, Lt, length_drop. lia. }
  { rewrite length_app, Lt, length_drop. replace (Z.of_nat (length l + Z.to_nat m)) with (n + m) by lia.
    replace (n + m + Z.of_nat (length p - Z.to_nat m)) with n' by (unfold n', m; lia). lia. }
  { rewrite length_app, Lt, length_drop. replace (Z.of_nat (length l + Z.to_nat m)) with (n + m) by lia.
    replace (Z.of_nat (length p - Z.to_nat m)) with (Z.of_nat (length p) - m) by (unfold m; lia). lia. }
  rewrite length_app, Lt, length_drop in *. replace (Z.of_nat (length l + Z.to_nat m)) with (n + m) in * by lia.
  replace (n + m + Z.of_nat (length p - Z.to_nat m)) with n' in * by (unfold n', m; lia).
  replace (fb + new_blocks n + (blocks n' - blocks (n + m))) with (fb + (blocks n' - blocks n)) in * by lia.
  exists V2, addrs2. cbv zeta. rewrite R1, R2. split; [by destruct din|]. split; [done|]. rewrite <- app_assoc, take_drop in Hg2. split; [done|].
  by eapply appends_trans.
Qed.
End Run.

(** ** The files of the image *)

(** An inode with the bytes of its file. *)
Abbreviation ifile := (inode * list Z)%type.

Abbreviation home k := (IBLOCK (Z.of_nat k + 1) mkfs_sb).
Abbreviation slot k := (dinode_off (Z.of_nat k + 1)).

Definition total (F : list ifile) : Z := foldr (fun x n => blocks (Z.of_nat (length x.2)) + n) 0 F.

(** Inode [k + 1] is [ip]. *)
Definition has_inode (V : gmap Z (list Z)) (k : nat) (ip : inode) : Prop :=
  dinode_fits ip /\ load_dinode (slot k) (blk V (home k)) zero_inode = ip.

Record fsinv (V : gmap Z (list Z)) (fb : Z) (F : list ifile) : Prop := {
  fv_disk : disk_ok V fb;
  fv_sb : V !! 1 = Some (sb_block mkfs_sb);
  fv_count : Z.of_nat (length F) <= 199;
  fv_fb : fb = 46 + total F;
  fv_good : forall k ip l, F !! k = Some (ip, l) -> good (view V fb) (i_addrs ip) l /\ i_size ip = Z.of_nat (length l) /\ has_inode V k ip;
  fv_apart : forall k k' ip l ip' l' m, F !! k = Some (ip, l) -> F !! k' = Some (ip', l') -> k <> k' ->
    owns (view V fb) (i_addrs ip) m -> foreign (view V fb) (i_addrs ip') m
}.

Lemma home_range k : (k < 200)%nat -> 32 <= home k < 45 /\ home k = (Z.of_nat k + 1) / 16 + 32.
Proof.
  intros Hk. assert (home k = (Z.of_nat k + 1) / 16 + 32) as E.
  { unfold IBLOCK. rewrite mkfs_sb_is. cbn [sb_inodestart]. apply u32_small.
    pose proof (Z.div_pos (Z.of_nat k + 1) 16 ltac:(lia) ltac:(lia)). pose proof (Z.div_lt_upper_bound (Z.of_nat k + 1) 16 13 ltac:(lia) ltac:(lia)). lia. }
  split; [|done]. rewrite E. pose proof (Z.div_pos (Z.of_nat k + 1) 16 ltac:(lia) ltac:(lia)).
  pose proof (Z.div_lt_upper_bound (Z.of_nat k + 1) 16 13 ltac:(lia) ltac:(lia)). lia.
Qed.

(** Two inodes are in different blocks or in different slots. *)
Lemma slot_inj k k' : (k < 200)%nat -> (k' < 200)%nat -> k <> k' -> home k = home k' -> slot k <> slot k'.
Proof.
  intros Hk Hk' Hne E. destruct (home_range k Hk) as [_ E1], (home_range k' Hk') as [_ E2]. unfold dinode_off.
  pose proof (Z.div_mod (Z.of_nat k + 1) 16 ltac:(lia)). pose proof (Z.div_mod (Z.of_nat k' + 1) 16 ltac:(lia)).
  pose proof (Z.mod_pos_bound (Z.of_nat k + 1) 16 ltac:(lia)). pose proof (Z.mod_pos_bound (Z.of_nat k' + 1) 16 ltac:(lia)). lia.
Qed.

(** Storing an inode. *)
Definition put_inode (V : gmap Z (list Z)) (k : nat) (ip : inode) : gmap Z (list Z) :=
  <[home k := put_dinode (slot k) ip (blk V (home k))]> V.

Lemma home_block V fb k : disk_ok V fb -> (k < 200)%nat -> exists d, V !! home k = Some d /\ blk V (home k) = d /\ length d = Z.to_nat BSIZE /\ (slot k + 64 <= length d)%nat.
Proof.
  intros Hd Hk. destruct (home_range k Hk) as [Hh _]. destruct (dk_len _ _ Hd (home k) ltac:(lia)) as (d & Ed & Hl). exists d.
  split; [done|]. split; [by apply blk_some|]. split; [done|]. pose proof (dinode_off_range (Z.of_nat k + 1)). lia.
Qed.

Lemma put_inode_disk V fb k ip : disk_ok V fb -> (k < 200)%nat -> dinode_fits ip -> disk_ok (put_inode V k ip) fb.
Proof.
  intros Hd Hk Hf. destruct (home_block V fb k Hd Hk) as (d & Ed & Eb & Hl & Hs). destruct (home_range k Hk) as [Hh _].
  pose proof (dk_fb _ _ Hd). unfold put_inode. rewrite Eb. split; [| |done].
  - intros n Hn. destruct (decide (n = home k)) as [->|]; [rewrite lookup_insert_eq; eexists; split; [done|by rewrite length_put_dinode]|].
    rewrite lookup_insert_ne by done. by apply Hd.
  - intros n Hn. rewrite lookup_insert_ne by lia. by apply Hd.
Qed.

Lemma put_inode_same V fb k ip : disk_ok V fb -> (k < 200)%nat -> dinode_fits ip ->
  i_dev ip = 0 -> i_inum ip = 0 -> i_ref ip = 0 -> i_lock ip = zero_sleeplock -> i_valid ip = false -> has_inode (put_inode V k ip) k ip.
Proof.
  intros Hd Hk Hf E1 E2 E3 E4 E5. destruct (home_block V fb k Hd Hk) as (d & Ed & Eb & Hl & Hs). split; [done|].
  unfold put_inode. rewrite Eb, blk_insert, load_put_dinode by done. destruct ip. cbn in *. by subst.
Qed.

Lemma put_inode_ne V fb k k' ip ip' : disk_ok V fb -> (k < 200)%nat -> (k' < 200)%nat -> k <> k' -> dinode_fits ip ->
  has_inode V k' ip' -> has_inode (put_inode V k ip) k' ip'.
Proof.
  intros Hd Hk Hk' Hne Hf [Hf' Hl']. destruct (home_block V fb k Hd Hk) as (d & Ed & Eb & Hl & Hs). split; [done|]. rewrite <- Hl'.
  unfold put_inode. rewrite Eb. destruct (decide (home k' = home k)) as [E|E].
  - rewrite E, blk_insert, Eb. apply load_dinode_ext, bytes_at_put_dinode; [done|done|]. apply dinode_off_disjoint. by apply slot_inj.
  - by rewrite blk_insert_ne.
Qed.

(** Storing an inode changes no file. *)
Lemma put_inode_good V fb k ip addrs l : disk_ok V fb -> (k < 200)%nat -> good (view V fb) addrs l -> good (view (put_inode V k ip) fb) addrs l.
Proof.
  intros Hd Hk [Hm Hc Hden Hind Hmax]. destruct (home_range k Hk) as [Hh _]. pose proof (disk_layout V fb Hd) as Hl.
  unfold put_inode. rewrite view_insert by lia. assert (home k < sb_bmapstart mkfs_sb) as Hb by (rewrite mkfs_sb_is at 2; cbn; lia).
  split; try done.
  - by eapply meta_mapped.
  - eapply meta_content; try done. by apply padded_max.
  - intros b Hbn. erewrite meta_baddr by done. by apply Hden.
Qed.

Lemma put_inode_owns V fb k ip addrs m : disk_ok V fb -> (k < 200)%nat -> mapped (view V fb) addrs ->
  owns (view (put_inode V k ip) fb) addrs m <-> owns (view V fb) addrs m.
Proof.
  intros Hd Hk Hm. destruct (home_range k Hk) as [Hh _]. pose proof (disk_layout V fb Hd) as Hl. unfold put_inode, owns. rewrite view_insert by lia.
  assert (home k < sb_bmapstart mkfs_sb) as Hb by (rewrite mkfs_sb_is at 2; cbn; lia).
  split; intros [H0 [Hi|(bn & Hbn & E)]]; (split; [done|]); [by left|right; exists bn|by left|right; exists bn]; (split; [done|]);
    rewrite <- E; [symmetry|]; by eapply meta_baddr.
Qed.

Lemma put_inode_foreign V fb k ip addrs m : disk_ok V fb -> (k < 200)%nat -> mapped (view V fb) addrs ->
  foreign (view V fb) addrs m -> foreign (view (put_inode V k ip) fb) addrs m.
Proof.
  intros Hd Hk Hm Hf. destruct (home_range k Hk) as [Hh _]. pose proof (disk_layout V fb Hd) as Hl. unfold put_inode. rewrite view_insert by lia.
  assert (home k < sb_bmapstart mkfs_sb) as Hb by (rewrite mkfs_sb_is at 2; cbn; lia). by eapply meta_foreign.
Qed.

(** A file that others grow next to. *)
Lemma appends_good W W' addrs addrs' x l : appends W W' addrs addrs' -> good W x l -> (forall m, owns W x m -> foreign W addrs m) ->
  good W' x l /\ (forall m, owns W' x m <-> owns W x m).
Proof.
  intros [G1 G2 G3 G4] [Hm Hc Hden Hind Hmax] Hap.
  assert (forall m, owns W x m -> W' !! m = W !! m) as Hsame by (intros m Ho; by apply G1, Hap).
  assert (forall bn, baddr W' x bn = baddr W x bn) as Eb.
  { intros bn. unfold baddr. destruct (bn <? NDIRECT); [done|]. destruct (Z.eqb_spec (addr_of x 12) 0) as [|Hz]; [done|].
    unfold blk. rewrite Hsame; [done|]. split; [done|by left]. }
  assert (forall m, owns W' x m <-> owns W x m) as Ho by (intros m; unfold owns; setoid_rewrite Eb; done).
  split; [|done]. split; [| | |done|done].
  - destruct Hm as [M1 M2 M3 M4 M5]. split; [done| | | |].
    + intros bn Hbn. rewrite Eb. destruct (M2 bn Hbn); [by left|right; auto].
    + destruct M3; [by left|right; auto].
    + intros bn bn'. rewrite !Eb. auto.
    + intros bn. rewrite Eb. auto.
  - intros k Hk. destruct (Hc k Hk) as [Hz Hb]. unfold byte_of in *. rewrite Eb. split; [done|]. rewrite <- Hb. f_equal. unfold blk.
    rewrite Hsame; [done|]. split; [done|]. right. eexists. split; [|done]. apply div_range. pose proof (padded_max l Hmax). lia.
  - intros bn Hbn. rewrite Eb. auto.
Qed.

(** New blocks of a file are not those of another. *)
Lemma appends_apart W W' addrs addrs' x m : appends W W' addrs addrs' -> mapped W' addrs' -> mapped W x ->
  (forall m, owns W x m -> foreign W addrs m) -> (forall m, owns W addrs m -> foreign W x m) -> (forall m, owns W' x m <-> owns W x m) ->
  (owns W' addrs' m -> foreign W' x m) /\ (owns W' x m -> foreign W' addrs' m).
Proof.
  intros [G1 G2 G3 G4] Hm' Hmx Hap1 Hap2 Ho.
  assert (forall W x m, mapped W x -> owns W x m -> used W m) as Hou.
  { intros W0 x0 m0 Hmp [H0 [->|(bn & Hbn & <-)]]; [by destruct (mp_ind _ _ _ _ Hmp)|by destruct (mp_used _ _ _ _ Hmp bn Hbn)]. }
  split; [|intros Hox; by apply G1, Hap1, Ho].
  intros Hown. pose proof (Hou _ _ _ Hm' Hown) as Hu. destruct Hown as [H0 Hw]. split; [done|].
  assert (~ owns W' x m) as Hno.
  { intros Hox%Ho. destruct (G2 m) as [Hown|Hnu]; [by split| |].
    - destruct (Hap2 m Hown) as (_ & F2 & F3). destruct Hox as [_ [->|(bn & Hbn & E)]]; [done|by apply (F3 bn)].
    - apply Hnu. by eapply Hou. }
  split; [intros ->; apply Hno; split; [done|by left]|]. intros bn Hbn E. apply Hno. split; [done|]. right. eauto.
Qed.
