(* ===== verification/MkfsBuild.v ===== *)
(** * Building the image

    The steps of [mkfs] keep the files of the image: [ialloc] adds an empty file,
    [iappend] adds bytes to one. *)

From stdpp Require Import gmap strings list fin_maps.
From S2P Require Import Prelude Layout State Cstring Block Bio Log LogCommit LogTx Fs Dinode FsBits FsMap FsContent FsFile FsWrite FsRead FsDir Mkfs MkfsImage.

Lemma total_cons x F : total (x :: F) = blocks (Z.of_nat (length x.2)) + total F.
Proof. done. Qed.

Lemma total_insert F k x y : F !! k = Some x -> total (<[k := y]> F) = total F + blocks (Z.of_nat (length y.2)) - blocks (Z.of_nat (length x.2)).
Proof.
  revert k. induction F as [|z F IH]; intros k Hk; [done|]. destruct k as [|k].
  - injection Hk as ->. change (<[0%nat := y]> (x :: F)) with (y :: F). rewrite !total_cons. lia.
  - change (<[S k := y]> (z :: F)) with (z :: <[k := y]> F). rewrite !total_cons, (IH k Hk). lia.
Qed.

Lemma total_app F G : total (F ++ G) = total F + total G.
Proof. induction F as [|x F IH]; [done|]. cbn [app]. rewrite !total_cons, IH. lia. Qed.

Lemma has_inode_zero V k ip : has_inode V k ip ->
  i_dev ip = 0 /\ i_inum ip = 0 /\ i_ref ip = 0 /\ i_lock ip = zero_sleeplock /\ i_valid ip = false.
Proof. intros [_ <-]. done. Qed.

(** A change of the data that leaves the inodes alone. *)
Lemma has_inode_meta V V' k ip : (k < 200)%nat -> (forall n, 0 <= n < 45 -> V' !! n = V !! n) -> has_inode V k ip -> has_inode V' k ip.
Proof.
  intros Hk E [Hf Hl]. destruct (home_range k Hk) as [Hh _]. split; [done|]. unfold blk in *. by rewrite E by lia.
Qed.

Lemma put_inode_sb V k ip : (k < 200)%nat -> put_inode V k ip !! 1 = V !! 1.
Proof. intros Hk. destruct (home_range k Hk) as [Hh _]. unfold put_inode. by rewrite lookup_insert_ne by lia. Qed.

Section Build.
Context `{Host}.
Hypothesis Hwrite : forall n, 0 <= n < 1000 -> host_write n = true.

Abbreviation st V fb F := (MkMkstate V mkfs_sb (1 + Z.of_nat (length F)) fb).

Lemma rinode_ok fi V fb k ip : disk_ok V fb -> (k < 200)%nat -> has_inode V k ip ->
  rinode (Z.of_nat k + 1) (MkMkstate V mkfs_sb fi fb) = Ok ip (MkMkstate V mkfs_sb fi fb).
Proof.
  intros Hd Hk [_ Hl]. destruct (home_block V fb k Hd Hk) as (d & Ed & Eb & _). unfold rinode. erewrite bind_ok by reflexivity. cbn [mk_sb].
  mstep (rsect_ok fi V fb (home k) d Ed). unfold ret. by rewrite <- Eb, Hl.
Qed.

Lemma winode_ok fi V fb k ip : disk_ok V fb -> (k < 200)%nat ->
  winode (Z.of_nat k + 1) ip (MkMkstate V mkfs_sb fi fb) = Ok tt (MkMkstate (put_inode V k ip) mkfs_sb fi fb).
Proof.
  intros Hd Hk. destruct (home_block V fb k Hd Hk) as (d & Ed & Eb & _). destruct (home_range k Hk) as [Hh _].
  unfold winode. erewrite bind_ok by reflexivity. cbn [mk_sb]. mstep (rsect_ok fi V fb (home k) d Ed).
  rewrite (wsect_ok Hwrite) by lia. unfold put_inode. by rewrite Eb.
Qed.

(** The inode of file [k] and its blocks changed. *)
Lemma fsinv_update V fb F k ip l V' fb' ip' l' : fsinv V fb F -> F !! k = Some (ip, l) ->
  disk_ok V' fb' -> good (view V' fb') (i_addrs ip') l' -> appends (view V fb) (view V' fb') (i_addrs ip) (i_addrs ip') ->
  dinode_fits ip' -> i_size ip' = Z.of_nat (length l') -> fb' = fb + (blocks (Z.of_nat (length l')) - blocks (Z.of_nat (length l))) ->
  i_dev ip' = 0 -> i_inum ip' = 0 -> i_ref ip' = 0 -> i_lock ip' = zero_sleeplock -> i_valid ip' = false ->
  fsinv (put_inode V' k ip') fb' (<[k := (ip', l')]> F).
Proof.
  intros [D1 Dsb D2 D3 D4 D5] Hk Hd' Hg' Hgr Hf' Hsz Efb Z1 Z2 Z3 Z4 Z5. pose proof (lookup_lt_Some _ _ _ Hk) as Hkl.
  assert (k < 200)%nat as Hk2 by lia. pose proof (gd_mapped _ _ _ Hg') as Hm'.
  assert (forall j x y, F !! j = Some (x, y) -> j <> k -> good (view V' fb') (i_addrs x) y /\
    (forall m, owns (view V' fb') (i_addrs x) m <-> owns (view V fb) (i_addrs x) m)) as Hother.
  { intros j x y Hj Hne. destruct (D4 j x y Hj) as [Hg _]. eapply appends_good; [done|done|]. intros m Ho. by eapply (D5 j k). }
  assert (forall n, 0 <= n < 45 -> V' !! n = V !! n) as Hmeta.
  { intros n Hn. pose proof (gr_meta _ _ _ _ Hgr n Hn) as E. rewrite !view_ne in E by lia. done. }
  split; [by apply put_inode_disk|rewrite put_inode_sb by done; rewrite Hmeta by lia; done|by rewrite length_insert|by erewrite total_insert by done; cbn [snd]; lia| |].
  - intros j x y. rewrite list_lookup_insert_Some. intros [(<- & [= <- <-] & _)|[Hne Hj]].
    + split; [by apply put_inode_good|]. split; [done|]. by eapply put_inode_same.
    + destruct (Hother j x y Hj ltac:(done)) as [Hg _]. destruct (D4 j x y Hj) as (_ & Hs & Hi). split; [by apply put_inode_good|]. split; [done|].
      pose proof (lookup_lt_Some _ _ _ Hj). eapply put_inode_ne; try done; [lia|]. eapply has_inode_meta; [lia|exact Hmeta|done].
  - intros j j' x y x' y' m. rewrite !list_lookup_insert_Some.
    assert (forall j x y, F !! j = Some (x, y) -> j <> k -> (owns (view V' fb') (i_addrs ip') m -> foreign (view V' fb') (i_addrs x) m) /\
      (owns (view V' fb') (i_addrs x) m -> foreign (view V' fb') (i_addrs ip') m)) as Hap.
    { intros j0 x0 y0 Hj0 Hne0. destruct (Hother j0 x0 y0 Hj0 Hne0) as [Hg0 Ho0]. destruct (D4 j0 x0 y0 Hj0) as [Hg1 _].
      eapply appends_apart; [done|done|apply Hg1| | |done]; intros m0 Hm0; [by eapply (D5 j0 k)|by eapply (D5 k j0)]. }
    intros [(<- & [= <- <-] & _)|[Hne Hj]] [(<- & [= <- <-] & _)|[Hne' Hj']] Hjj Ho; [done| | |].
    + destruct (Hother j' x' y' Hj' ltac:(done)) as [Hg0 _]. apply put_inode_foreign; try done; [apply Hg0|].
      apply (put_inode_owns _ _ _ _ _ m Hd' Hk2 Hm') in Ho. by apply (Hap j' x' y').
    + destruct (Hother j x y Hj ltac:(done)) as [Hg0 _]. apply put_inode_foreign; try done.
      apply (put_inode_owns _ _ _ _ _ m Hd' Hk2 (gd_mapped _ _ _ Hg0)) in Ho. by apply (Hap j x y).
    + destruct (Hother j x y Hj ltac:(done)) as [Hg0 Ho0], (Hother j' x' y' Hj' ltac:(done)) as [Hg1 Ho1]. apply put_inode_foreign; try done; [apply Hg1|].
      apply (put_inode_owns _ _ _ _ _ m Hd' Hk2 (gd_mapped _ _ _ Hg0)) in Ho. apply Ho0 in Ho.
      destruct (D5 j j' x y x' y' m Hj Hj' Hjj Ho) as (F1 & F2 & F3). split; [by apply (gr_used _ _ _ _ Hgr)|]. split; [done|].
      intros bn Hbn E. assert (m <> 0) as Hm0 by apply Ho. assert (owns (view V' fb') (i_addrs x') m) as [_ [E1|(b & Hb & E1)]]%Ho1
        by (split; [done|]; right; eauto); [done|by apply (F3 b)].
Qed.

Lemma iappend_ok V fb F k ip l p : fsinv V fb F -> F !! k = Some (ip, l) ->
  let n' := Z.of_nat (length l + length p) in let fb' := fb + (blocks n' - blocks (Z.of_nat (length l))) in
  n' <= MAXFILE * BSIZE -> fb' <= 1000 ->
  exists V' ip', let F' := <[k := (ip', l ++ p)]> F in
    iappend (Z.of_nat k + 1) p (st V fb F) = Ok tt (st V' fb' F') /\ fsinv V' fb' F' /\ i_type ip' = i_type ip /\ i_nlink ip' = i_nlink ip.
Proof.
  intros Hinv Hk n' fb' Hmax Hfb. pose proof Hinv as [D1 Dsb D2 D3 D4 D5]. destruct (D4 k ip l Hk) as (Hg & Hsz & Hi). pose proof (lookup_lt_Some _ _ _ Hk) as Hkl.
  assert (k < 200)%nat as Hk2 by lia. destruct (has_inode_zero V k ip Hi) as (Z1 & Z2 & Z3 & Z4 & Z5).
  destruct (iappend_loop_ok Hwrite (1 + Z.of_nat (length F)) (length p / Z.to_nat BSIZE + 2) V fb ip l p D1 Hg) as (V1 & addrs1 & R1 & Hd1 & Hg1 & Gr1).
  { lia. }
  { unfold fb', n' in Hfb. rewrite Nat2Z.inj_add in Hfb. done. }
  { pose proof (nblocks_bound (Z.of_nat (length l)) (Z.of_nat (length p)) ltac:(lia) ltac:(lia)) as Hnb.
    apply Nat2Z.inj_le. rewrite Nat2Z.inj_add, Nat2Z.inj_div, Z2Nat.id by lia. lia. }
  cbv zeta in *. rewrite <- Nat2Z.inj_add in *. fold n' in R1, Hd1, Hg1, Gr1. fold fb' in R1, Hd1, Hg1, Gr1.
  set (ip' := set_i_size n' (set_i_addrs addrs1 ip)). exists (put_inode V1 k ip'), ip'. cbv zeta. rewrite length_insert.
  assert (dinode_fits ip') as Hf'.
  { destruct Hi as [[E1 E2 E3 E4 E5 E6 E7] _]. split; try done; cbn [i_size i_addrs set_i_size set_i_addrs ip'].
    - lia.
    - apply (gd_mapped _ _ _ Hg1).
    - by eapply (mapped_addrs 2 30 mkfs_sb 46); [apply disk_layout|apply (gd_mapped _ _ _ Hg1)]. }
  split; [|split; [|done]].
  - unfold iappend. mstep (rinode_ok (1 + Z.of_nat (length F)) V fb k ip D1 Hk2 Hi). rewrite Hsz. pose proof (gd_max _ _ _ Hg).
    rewrite xint_id by lia. mstep R1. rewrite xint_id by lia. fold ip'. by rewrite winode_ok.
  - eapply fsinv_update; try done; cbn [i_size set_i_size ip']; rewrite length_app; done.
Qed.

(** ** [ialloc] *)

Definition empty_inode (type : Z) : inode := set_i_size 0 (set_i_nlink 1 (set_i_type type zero_inode)).

Lemma no_blocks W bn : 0 <= bn < MAXFILE -> baddr W (replicate 13 0) bn = 0.
Proof.
  intros Hbn. unfold baddr, addr_of. destruct (Z.ltb_spec bn NDIRECT) as [Hlt|Hge]; [|done].
  by rewrite lookup_replicate_2 by lia.
Qed.

Lemma empty_good W : good W (replicate 13 0) [].
Proof.
  split.
  - split; [done| |by left| |].
    + intros bn Hbn. left. by apply no_blocks.
    + intros bn bn' Hbn _ _. by rewrite no_blocks.
    + intros bn Hbn. by rewrite no_blocks.
  - intros k Hk. assert (length (padded []) = 0)%nat as E by (vm_compute; done). lia.
  - intros bn Hbn. rewrite no_blocks by done. cbn. lia.
  - cbn. lia.
  - cbn. lia.
Qed.

Lemma empty_owns W m : ~ owns W (replicate 13 0) m.
Proof. intros [H0 [Hi|(bn & Hbn & E)]]; [done|]. rewrite no_blocks in E by done. congruence. Qed.

Lemma empty_foreign W m : used W m -> m <> 0 -> foreign W (replicate 13 0) m.
Proof. intros Hu H0. split; [done|]. split; [done|]. intros bn Hbn. by rewrite no_blocks. Qed.

Lemma owns_used W addrs m : mapped W addrs -> owns W addrs m -> used W m.
Proof. intros Hmp [H0 [->|(bn & Hbn & <-)]]; [by destruct (mp_ind _ _ _ _ Hmp)|by destruct (mp_used _ _ _ _ Hmp bn Hbn)]. Qed.

Lemma ialloc_ok V fb F type : fsinv V fb F -> Z.of_nat (length F) < 199 -> 0 <= type < 2 ^ 15 ->
  exists V', let F' := F ++ [(empty_inode type, [])] in
    ialloc type (st V fb F) = Ok (Z.of_nat (length F) + 1) (st V' fb F') /\ fsinv V' fb F'.
Proof.
  intros [D1 Dsb D2 D3 D4 D5] Hlt Ht. set (k := length F) in *. assert (k < 200)%nat as Hk by lia.
  assert (dinode_fits (empty_inode type)) as Hf by (split; cbn; try lia; repeat constructor; lia).
  exists (put_inode V k (empty_inode type)). cbv zeta. rewrite length_app. fold k. split.
  - unfold ialloc. erewrite bind_ok by reflexivity. erewrite bind_ok by reflexivity. cbn [freeinode image mk_sb freeblock].
    rewrite (xshort_id 1), (xshort_id type), (xint_id 0), (u32_small (1 + Z.of_nat k + 1)) by lia. assert (s16 1 = 1 /\ s16 type = type) as [-> ->].
    { unfold s16. split; [done|]. rewrite Z.mod_small by lia. lia. }
    fold (empty_inode type). rewrite (Z.add_comm 1 (Z.of_nat k)). mstep (winode_ok (Z.of_nat k + 1 + 1) V fb k (empty_inode type) D1 Hk).
    unfold ret. do 2 f_equal. cbn [length]. lia.
  - assert (forall j x y, (F ++ [(empty_inode type, [])]) !! j = Some (x, y) -> F !! j = Some (x, y) \/ j = k /\ x = empty_inode type /\ y = []) as Hcase.
    { intros j x y. destruct (decide (j < k)%nat) as [Hj|Hj]; [rewrite lookup_app_l by done; by left|]. rewrite lookup_app_r by (fold k; lia). fold k.
      destruct (j - k)%nat as [|j'] eqn:E; [|done]. intros [= <- <-]. right. split; [lia|done]. }
    split; [by apply put_inode_disk|by rewrite put_inode_sb|rewrite length_app; fold k; cbn; lia|rewrite total_app; change (total [(empty_inode type, [])]) with 0; lia| |].
    + intros j x y [Hj|(-> & -> & ->)]%Hcase.
      * destruct (D4 j x y Hj) as (Hg & Hs & Hi). split; [by apply put_inode_good|]. split; [done|]. pose proof (lookup_lt_Some _ _ _ Hj) as Hjl. fold k in Hjl.
        eapply put_inode_ne; try done; lia.
      * split; [apply empty_good|]. split; [done|]. by eapply put_inode_same.
    + intros j j' x y x' y' m [Hj|(-> & -> & ->)]%Hcase [Hj'|(-> & -> & ->)]%Hcase Hne Ho; [| |by apply empty_owns in Ho|done].
      * destruct (D4 j x y Hj) as (Hg & _), (D4 j' x' y' Hj') as (Hg' & _). apply put_inode_foreign; try done; [apply Hg'|].
        apply put_inode_owns in Ho; try done; [|apply Hg]. by eapply (D5 j j').
      * destruct (D4 j x y Hj) as (Hg & _). apply put_inode_foreign; try done; [apply empty_good|].
        apply put_inode_owns in Ho; try done; [|apply Hg]. apply empty_foreign; [by eapply owns_used; [apply Hg|]|apply Ho].
Qed.

(** ** Files *)

(** The reads of a file. *)
Lemma reads_ok k reads : forall V fb F ip l, fsinv V fb F -> F !! k = Some (ip, l) ->
  let n' := Z.of_nat (length l + length (concat reads)) in let fb' := fb + (blocks n' - blocks (Z.of_nat (length l))) in
  n' <= MAXFILE * BSIZE -> fb' <= 1000 ->
  exists V' ip', let F' := <[k := (ip', l ++ concat reads)]> F in
    for_each reads (iappend (Z.of_nat k + 1)) (st V fb F) = Ok tt (st V' fb' F') /\ fsinv V' fb' F' /\ i_type ip' = i_type ip /\ i_nlink ip' = i_nlink ip.
Proof.
  induction reads as [|r reads IH]; intros V fb F ip l Hinv Hk n' fb' Hmax Hfb.
  - exists V, ip. cbv zeta. unfold fb', n'. cbn [concat length]. rewrite Nat.add_0_r, Z.sub_diag, Z.add_0_r, app_nil_r. rewrite (list_insert_id F k) by done. done.
  - cbn [for_each concat] in *. unfold fb', n' in *. clear fb' n'. rewrite length_app, Nat.add_assoc in Hmax, Hfb |- *.
    pose proof (blocks_mono (Z.of_nat (length l + length r)) (Z.of_nat (length l + length r + length (concat reads))) ltac:(lia)) as Hb.
    destruct (iappend_ok V fb F k ip l r Hinv Hk) as (V1 & ip1 & R1 & Hinv1 & T1 & N1); [lia|lia|]. cbv zeta in *.
    assert (<[k := (ip1, l ++ r)]> F !! k = Some (ip1, l ++ r)) as Hk1 by (apply list_lookup_insert_eq; by eapply lookup_lt_Some).
    destruct (IH _ _ _ ip1 (l ++ r) Hinv1 Hk1) as (V2 & ip2 & R2 & Hinv2 & T2 & N2); rewrite length_app in *; [lia|lia|].
    exists V2, ip2. cbv zeta in *. mstep R1. rewrite R2.
    set (n1 := Z.of_nat (length l + length r)) in *. set (n2 := Z.of_nat (length l + length r + length (concat reads))) in *.
    replace (fb + (blocks n1 - blocks (Z.of_nat (length l))) + (blocks n2 - blocks n1)) with (fb + (blocks n2 - blocks (Z.of_nat (length l)))) in * by lia.
    rewrite list_insert_insert_eq, <- app_assoc in *. split; [done|]. split; [done|]. split; congruence.
Qed.

(** ** Files and their names *)

(** The bytes of the root directory with the files [fs]. *)
Definition dir_bytes (fs : list (list Z * list Z)) : list Z :=
  dirent 1 [chr_dot] ++ dirent 1 [chr_dot; chr_dot] ++ concat (imap (fun i x => dirent (Z.of_nat i + 2) x.1) fs).

Lemma length_dirent inum name : length (dirent inum name) = 16%nat.
Proof.
  unfold dirent. rewrite length_put16; rewrite !length_app, !length_replicate, length_take; lia.
Qed.

Lemma dir_bytes_app fs name data : dir_bytes (fs ++ [(name, data)]) = dir_bytes fs ++ dirent (Z.of_nat (length fs) + 2) name.
Proof. unfold dir_bytes. rewrite imap_app, concat_app, <- !app_assoc. do 3 f_equal. cbn [imap concat fst]. by rewrite app_nil_r, Nat.add_0_r. Qed.

Lemma length_dir_bytes fs : length (dir_bytes fs) = (16 * (2 + length fs))%nat.
Proof.
  induction fs as [|[name data] fs IH] using rev_ind; [vm_compute; done|]. rewrite dir_bytes_app, !length_app, IH, length_dirent. cbn. lia.
Qed.

Definition kind (x : ifile) : Z * Z := (i_type x.1, i_nlink x.1).

(** [F] is the root directory and the files [fs]. *)
Definition built (F : list ifile) (fs : list (list Z * list Z)) : Prop :=
  snd <$> F = dir_bytes fs :: (snd <$> fs) /\ kind <$> F = (T_DIR, 1) :: ((fun _ => (T_FILE, 1)) <$> fs).

(** The blocks that they take. *)
Definition capacity (fs : list (list Z * list Z)) : Z :=
  blocks (16 * (2 + Z.of_nat (length fs))) + foldr (fun l n => blocks (Z.of_nat (length l)) + n) 0 (snd <$> fs).

Lemma total_snd F : total F = foldr (fun l n => blocks (Z.of_nat (length l)) + n) 0 (snd <$> F).
Proof. induction F as [|x F IH]; [done|]. rewrite total_cons, IH. done. Qed.

Lemma built_total F fs : built F fs -> total F = capacity fs.
Proof.
  intros [E _]. rewrite total_snd, E. cbn [foldr]. unfold capacity. rewrite length_dir_bytes. f_equal. f_equal. lia.
Qed.

Lemma built_length F fs : built F fs -> length F = S (length fs).
Proof. intros [E _]. rewrite <- (length_fmap snd F), E. cbn. by rewrite length_fmap. Qed.

Lemma blocks_pos n : 0 <= n -> 0 <= blocks n.
Proof. intros Hn. pose proof (blocks_mono 0 n ltac:(lia)) as Hm. change (blocks 0) with 0 in Hm. done. Qed.

Lemma capacity_app fs name data : capacity (fs ++ [(name, data)]) =
  capacity fs + (blocks (16 * (3 + Z.of_nat (length fs))) - blocks (16 * (2 + Z.of_nat (length fs)))) + blocks (Z.of_nat (length data)).
Proof.
  unfold capacity. rewrite length_app, fmap_app. cbn [length fmap list_fmap snd]. replace (2 + Z.of_nat (length fs + 1)) with (3 + Z.of_nat (length fs)) by lia.
  assert (forall l a, foldr (fun (l : list Z) n => blocks (Z.of_nat (length l)) + n) a l = foldr (fun l n => blocks (Z.of_nat (length l)) + n) 0 l + a) as E
    by (induction l as [|y l IH]; intros a; cbn; [lia|rewrite IH; lia]).
  rewrite foldr_app. cbn [foldr]. rewrite E. lia.
Qed.

Lemma add_file_ok V fb F fs arg reads : fsinv V fb F -> built F fs -> host_open arg = Some reads -> chr_slash ∉ shortname arg ->
  Z.of_nat (length fs) < 198 -> let x := (skip_underscore (shortname arg), concat reads) in
  Z.of_nat (length (concat reads)) <= MAXFILE * BSIZE -> 46 + capacity (fs ++ [x]) <= 1000 ->
  exists V' fb' F', add_file 1 arg (st V fb F) = Ok tt (st V' fb' F') /\ fsinv V' fb' F' /\ built F' (fs ++ [x]).
Proof.
  intros Hinv Hb Hop Hsl Hlen x Hmax Hcap. pose proof (built_length F fs Hb) as HF. pose proof (built_total F fs Hb) as Ht. pose proof (fv_fb _ _ _ Hinv) as Efb.
  unfold x in Hcap. rewrite capacity_app in Hcap. pose proof (blocks_pos (Z.of_nat (length (concat reads))) ltac:(lia)) as Hp.
  destruct (ialloc_ok V fb F T_FILE Hinv ltac:(lia) ltac:(lia)) as (V1 & R1 & Hinv1). cbv zeta in *. set (F1 := F ++ [(empty_inode T_FILE, [])]) in *.
  destruct F as [|[root dl] G]; [done|]. destruct Hb as [Es Ek]. cbn [fmap list_fmap snd kind fst] in Es, Ek. injection Es as -> Es. injection Ek as Ek1 Ek2 Ek3.
  pose proof (length_dir_bytes fs) as Ldb. set (inum := Z.of_nat (length ((root, dir_bytes fs) :: G)) + 1) in *.
  assert (inum = Z.of_nat (length fs) + 2) as Ei by (unfold inum; rewrite HF; lia). set (name := skip_underscore (shortname arg)) in *.
  assert (F1 !! 0%nat = Some (root, dir_bytes fs)) as H0 by done.
  destruct (iappend_ok V1 fb F1 0 root (dir_bytes fs) (dirent inum name) Hinv1 H0) as (V2 & root2 & R2 & Hinv2 & T2 & N2);
    rewrite ?Ldb, ?length_dirent; [lia| |]; replace (Z.of_nat (16 * (2 + length fs) + 16)) with (16 * (3 + Z.of_nat (length fs))) by lia;
    replace (Z.of_nat (16 * (2 + length fs))) with (16 * (2 + Z.of_nat (length fs))) by lia; [lia|].
  cbv zeta in *. rewrite Ldb, length_dirent in *. replace (Z.of_nat (16 * (2 + length fs) + 16)) with (16 * (3 + Z.of_nat (length fs))) in * by lia.
  replace (Z.of_nat (16 * (2 + length fs))) with (16 * (2 + Z.of_nat (length fs))) in * by lia.
  set (fb2 := fb + _) in *. set (F2 := <[0%nat := _]> F1) in *. set (k := length ((root, dir_bytes fs) :: G)).
  assert (F2 !! k = Some (empty_inode T_FILE, [])) as Hk.
  { unfold F2. rewrite list_lookup_insert_ne by done. unfold F1, k. rewrite lookup_app_r, Nat.sub_diag by lia. done. }
  destruct (reads_ok k reads V2 fb2 F2 (empty_inode T_FILE) [] Hinv2 Hk) as (V3 & ip3 & R3 & Hinv3 & T3 & N3); cbn [length Nat.add]; [lia|unfold fb2; change (blocks (Z.of_nat 0)) with 0; lia|].
  cbv zeta in *. cbn [length Nat.add app] in R3, Hinv3. eexists V3, _, _. split; [|split; [exact Hinv3|]].
  - unfold add_file, assert_. rewrite bool_decide_true by done. cbn [negb when]. erewrite bind_ok by reflexivity. rewrite Hop. fold name.
    mstep R1. fold inum. change (Z.of_nat 0 + 1) with 1 in R2. mstep R2. fold F2. exact R3.
  - assert (<[k := (ip3, concat reads)]> F2 = (root2, dir_bytes fs ++ dirent inum name) :: G ++ [(ip3, concat reads)]) as ->.
    { unfold F2, F1, k. cbn [app length]. change (<[0%nat := (root2, dir_bytes fs ++ dirent inum name)]> ((root, dir_bytes fs) :: G ++ [(empty_inode T_FILE, [])]))
        with ((root2, dir_bytes fs ++ dirent inum name) :: G ++ [(empty_inode T_FILE, [] : list Z)]).
      change (<[S (length G) := (ip3, concat reads)]> ((root2, dir_bytes fs ++ dirent inum name) :: G ++ [(empty_inode T_FILE, [] : list Z)]))
        with ((root2, dir_bytes fs ++ dirent inum name) :: <[length G := (ip3, concat reads)]> (G ++ [(empty_inode T_FILE, [] : list Z)])).
      f_equal. rewrite insert_app_r_alt by lia. rewrite Nat.sub_diag. done. }
    unfold built. unfold x. rewrite dir_bytes_app, !fmap_cons, !fmap_app, Es, Ek3. rewrite <- Ei. split; [done|]. unfold kind at 1. cbn [fst]. rewrite T2, N2, Ek1, Ek2.
    do 2 f_equal. cbn [fmap list_fmap]. unfold kind. cbn [fst]. by rewrite T3, N3.
Qed.
End Build.
