(* ===== verification/MkfsMain.v ===== *)
(** * The file system that [mkfs] makes *)

From stdpp Require Import gmap strings list fin_maps.
From S2P Require Import Prelude Layout State Cstring Block Bio Log LogCommit LogTx Fs Dinode FsBits FsMap FsContent FsFile FsWrite FsRead FsDir Mkfs MkfsImage MkfsBuild.

(** ** The root directory *)

(** The names with the inode numbers; of two files with one name the first counts. *)
Definition names (fs : list (list Z * list Z)) : gmap (list Z) Z :=
  list_to_map (([chr_dot], 1) :: ([chr_dot; chr_dot], 1) :: imap (fun i x => (Cstring.cstr (take 14 x.1), Z.of_nat i + 2)) fs).

Lemma entries_concat des : Forall (fun de => length de = 16%nat) des -> entries (concat des) = des /\ length (concat des) = (16 * length des)%nat.
Proof.
  induction des as [|de des IH] using rev_ind; [done|]. intros [H1 H2]%Forall_app. rewrite Forall_singleton in H2. destruct (IH H1) as [E L].
  rewrite concat_app. cbn [concat]. rewrite app_nil_r, (entries_app (concat des) (length des) de L H2), E, !length_app, L, H2. cbn [length]. split; [done|lia].
Qed.

Lemma dir_entries fs : entries (dir_bytes fs) =
  dirent 1 [chr_dot] :: dirent 1 [chr_dot; chr_dot] :: imap (fun i x => dirent (Z.of_nat i + 2) x.1) fs.
Proof.
  apply (entries_concat (_ :: _ :: _)). repeat (constructor; [apply length_dirent|]). apply Forall_lookup. intros i de Hi.
  rewrite list_lookup_imap in Hi. destruct (fs !! i); [|done]. injection Hi as <-. apply length_dirent.
Qed.

Lemma dirent_fields inum name : 0 < inum < 2 ^ 16 -> de_inum (dirent inum name) = inum /\ de_str (dirent inum name) = Cstring.cstr (take 14 name).
Proof.
  intros Hi. unfold dirent. rewrite xshort_id by lia. set (b := take 14 name ++ replicate (14 - length name) 0).
  assert (length b = 14%nat) as Lb by (unfold b; rewrite length_app, length_replicate, length_take; lia). split.
  - unfold de_inum. rewrite get16_put16_eq by (rewrite length_app, Lb; cbn; lia). apply Z.mod_small. lia.
  - unfold de_str. assert (de_name (put16 0 inum (replicate 2 0 ++ b)) = b) as ->.
    { unfold de_name, put16, splice. rewrite length_le_bytes. change (take 0 (replicate 2 0 ++ b)) with (@nil Z). rewrite app_nil_l.
      change (0 + 2)%nat with 2%nat. rewrite drop_app_length' by (by rewrite length_le_bytes). by rewrite drop_app_length'. }
    rewrite take_ge by lia. unfold b. destruct (decide (14 <= length name)%nat) as [Hl|Hl].
    + replace (14 - length name)%nat with 0%nat by lia. by rewrite app_nil_r.
    + rewrite take_ge by lia. generalize (14 - length name)%nat. intros k. clear. induction name as [|c name IH]; cbn; [by destruct k|].
      by rewrite IH.
Qed.

Lemma dir_map_bytes fs : Z.of_nat (length fs) < 200 -> dir_map (dir_bytes fs) = names fs.
Proof.
  intros Hlen. unfold dir_map, names. rewrite dir_entries. cbn [foldr list_to_map].
  assert (forall inum name m, 0 < inum < 2 ^ 16 -> add_entry (dirent inum name) m = <[Cstring.cstr (take 14 name) := inum]> m) as Ha.
  { intros inum name m Hi. unfold add_entry. destruct (dirent_fields inum name Hi) as [-> ->]. by rewrite (proj2 (Z.eqb_neq inum 0)) by lia. }
  rewrite !Ha by lia. do 2 f_equal.
  assert (forall j, Z.of_nat (j + length fs) < 200 -> foldr add_entry ∅ (imap (fun i x => dirent (Z.of_nat (j + i) + 2) x.1) fs) =
    list_to_map (imap (fun i x => (Cstring.cstr (take 14 x.1), Z.of_nat (j + i) + 2)) fs)) as E.
  { clear Hlen. induction fs as [|x fs IH]; intros j Hj; [done|]. cbn [length] in Hj. rewrite !imap_cons. cbn [foldr list_to_map fst snd]. rewrite Ha by lia. f_equal.
    specialize (IH (S j) ltac:(lia)). etrans; [|etrans; [exact IH|]]; f_equal; apply imap_ext; intros i y _; unfold compose; by replace (j + S i)%nat with (S j + i)%nat by lia. }
  apply (E 0%nat). done.
Qed.

(** Zeros after the last entry are no names. *)
Lemma dir_map_zeros l n k : length l = (16 * n)%nat -> dir_map (l ++ replicate (16 * k) 0) = dir_map l.
Proof.
  intros Hl. induction k as [|k IH]; [by rewrite app_nil_r|].
  replace (16 * S k)%nat with (16 * k + 16)%nat by lia. rewrite replicate_add, app_assoc. unfold dir_map in *.
  rewrite (entries_app _ (n + k)); [|rewrite length_app, length_replicate; lia|done]. rewrite foldr_app. cbn [foldr].
  change (add_entry (replicate 16 0) ∅) with (∅ : gmap (list Z) Z). exact IH.
Qed.

Section Main.
Context `{Host}.
Hypothesis Hwrite : forall n, 0 <= n < 1000 -> host_write n = true.

Abbreviation st V fb F := (MkMkstate V mkfs_sb (1 + Z.of_nat (length F)) fb).

(** The files that the arguments name. *)
Definition given (args : list (list Z)) (fs : list (list Z * list Z)) : Prop :=
  Forall2 (fun arg x => (chr_slash ∉ shortname arg) /\
    exists reads, host_open arg = Some reads /\ x = (skip_underscore (shortname arg), concat reads)) args fs.

Lemma capacity_prefix fs gs : capacity fs <= capacity (fs ++ gs).
Proof.
  induction gs as [|[name data] gs IH] using rev_ind; [rewrite app_nil_r; lia|]. rewrite app_assoc, capacity_app.
  pose proof (blocks_mono (16 * (2 + Z.of_nat (length (fs ++ gs)))) (16 * (3 + Z.of_nat (length (fs ++ gs)))) ltac:(lia)).
  pose proof (blocks_pos (Z.of_nat (length data)) ltac:(lia)). lia.
Qed.

Lemma files_ok args : forall gs V fb F fs, given args gs -> fsinv V fb F -> built F fs ->
  Z.of_nat (length fs + length gs) <= 198 -> Forall (fun x => Z.of_nat (length x.2) <= MAXFILE * BSIZE) gs -> 46 + capacity (fs ++ gs) <= 1000 ->
  exists V' fb' F', for_each args (add_file 1) (st V fb F) = Ok tt (st V' fb' F') /\ fsinv V' fb' F' /\ built F' (fs ++ gs).
Proof.
  induction args as [|arg args IH]; intros gs V fb F fs Hgiven Hinv Hb Hlen Hmax Hcap.
  - apply Forall2_nil_inv_l in Hgiven as ->. exists V, fb, F. rewrite app_nil_r. done.
  - apply Forall2_cons_inv_l in Hgiven as (x & gs' & (Hsl & reads & Hop & Ex) & Hrest & ->). apply Forall_cons in Hmax as [Hx Hmax].
    rewrite (app_assoc fs [x] gs' : fs ++ x :: gs' = _) in *. pose proof (capacity_prefix (fs ++ [x]) gs') as Hpre. cbn [length] in Hlen.
    destruct (add_file_ok Hwrite V fb F fs arg reads Hinv Hb Hop Hsl ltac:(lia)) as (V1 & fb1 & F1 & R1 & Hinv1 & Hb1);
      [subst x; exact Hx|rewrite <- Ex; lia|]. rewrite <- Ex in Hb1.
    destruct (IH gs' V1 fb1 F1 (fs ++ [x]) Hrest Hinv1 Hb1) as (V2 & fb2 & F2 & R2 & Hinv2 & Hb2); [rewrite length_app; cbn; lia|done|done|].
    exists V2, fb2, F2. cbn [for_each]. mstep R1. done.
Qed.

(** The image is zeros. *)
Lemma zero_image s0 : mk_sb s0 = mkfs_sb -> freeinode s0 = 1 -> freeblock s0 = 46 ->
  exists V, for_each (seqZ 0 FSSIZE) (fun i => wsect i zeroes) s0 = Ok tt (MkMkstate V mkfs_sb 1 46) /\ forall n, 0 <= n < 1000 -> V !! n = Some zeroes.
Proof.
  intros E1 E2 E3.
  destruct (for_each_inv (fun l s => exists V, s = MkMkstate V mkfs_sb 1 46 /\ forall n, n ∈ l -> V !! n = Some zeroes) (seqZ 0 FSSIZE)
    (fun i => wsect i zeroes) [] s0) as (s' & R & V & -> & HV).
  - exists (image s0). destruct s0. cbn in *. subst. split; [done|]. by intros n ?%elem_of_nil.
  - intros pre a post s El (V & -> & HV). assert (0 <= a < 1000) as Ha.
    { assert (a ∈ seqZ 0 FSSIZE) as Hin by (rewrite El; apply elem_of_app; right; left). apply elem_of_seqZ in Hin. lia. }
    rewrite (wsect_ok Hwrite) by done. eexists. split; [reflexivity|]. eexists. split; [reflexivity|]. intros n. cbn [app]. rewrite elem_of_app, list_elem_of_singleton.
    intros Hn. destruct (decide (n = a)) as [->|Hne]; [by rewrite lookup_insert_eq|]. rewrite lookup_insert_ne by done. apply HV. destruct Hn as [Hn|Hn]; done.
  - exists V. split; [exact R|]. intros n Hn. apply HV. cbn [app]. apply elem_of_seqZ. lia.
Qed.

Lemma length_sb_block : length (sb_block mkfs_sb) = Z.to_nat BSIZE.
Proof. vm_compute. done. Qed.

(** The image with the superblock and the root directory. *)
Lemma start_ok (k : Z -> M mkstate unit) V : (forall n, 0 <= n < 1000 -> V !! n = Some zeroes) ->
  exists V' fb' F', (wsect 1 (sb_block mkfs_sb) ;;
      let! rootino := ialloc T_DIR in
      assert_ (rootino =? ROOTINO) ;;
      iappend rootino (dirent rootino [chr_dot]) ;;
      iappend rootino (dirent rootino [chr_dot; chr_dot]) ;;
      k rootino) (MkMkstate V mkfs_sb 1 46) = k 1 (st V' fb' F') /\ fsinv V' fb' F' /\ built F' [].
Proof.
  intros HV. assert (fsinv (<[1 := sb_block mkfs_sb]> V) 46 []) as Hinv.
  { split; [split; [| |lia]|by rewrite lookup_insert_eq|cbn; lia|done|done|done].
    - intros n Hn. destruct (decide (n = 1)) as [->|]; [rewrite lookup_insert_eq; eexists; split; [done|apply length_sb_block]|].
      rewrite lookup_insert_ne by done. rewrite HV by done. by eexists.
    - intros n Hn. rewrite lookup_insert_ne by lia. apply HV. lia. }
  destruct (ialloc_ok Hwrite _ 46 [] T_DIR Hinv) as (V1 & R1 & Hinv1); [cbn; lia|lia|]. cbv zeta in *. cbn [app] in *.
  set (F1 := [(empty_inode T_DIR, [])]) in *.
  destruct (iappend_ok Hwrite V1 46 F1 0 (empty_inode T_DIR) [] (dirent 1 [chr_dot]) Hinv1 eq_refl) as (V2 & ip2 & R2 & Hinv2 & T2 & N2);
    rewrite ?length_dirent; [cbn; lia|vm_compute; done|]. cbv zeta in *. rewrite ?length_dirent in *. cbn [app] in *.
  set (F2 := <[0%nat := (ip2, dirent 1 [chr_dot])]> F1) in *. change (46 + (blocks (Z.of_nat (length [] + 16)) - blocks (Z.of_nat (length [])))) with 47 in *.
  destruct (iappend_ok Hwrite V2 47 F2 0 ip2 (dirent 1 [chr_dot]) (dirent 1 [chr_dot; chr_dot]) Hinv2 eq_refl) as (V3 & ip3 & R3 & Hinv3 & T3 & N3);
    rewrite ?length_dirent; [cbn; lia|vm_compute; done|]. cbv zeta in *. rewrite ?length_dirent in *.
  eexists V3, _, _. split; [|split; [exact Hinv3|]].
  - mstep (wsect_ok Hwrite 1 V 46 1 (sb_block mkfs_sb) ltac:(lia)). change (1 + Z.of_nat (length ([] : list ifile))) with 1 in R1. mstep R1.
    change (Z.of_nat (length ([] : list ifile)) + 1) with 1. erewrite bind_ok by reflexivity. change (Z.of_nat 0 + 1) with 1 in R2, R3. mstep R2. by mstep R3.
  - split.
    + cbn [fmap list_fmap insert list_insert F2 F1 snd]. unfold dir_bytes. cbn [imap concat]. by rewrite app_nil_r.
    + cbn [fmap list_fmap insert list_insert F2 F1]. unfold kind. cbn [fst]. rewrite T3, N3, T2, N2. done.
Qed.

(** Inode [inum] of the image, as [ilock] loads it. *)
Definition disk_inode (V : gmap Z (list Z)) (inum : Z) : inode :=
  load_dinode (dinode_off inum) (blk V (IBLOCK inum mkfs_sb)) zero_inode.

(** A file of the image. *)
Definition has_file (V : gmap Z (list Z)) (inum type : Z) (l : list Z) : Prop :=
  let ip := disk_inode V inum in i_type ip = type /\ i_nlink ip = 1 /\ mapped V (i_addrs ip) /\ stores V ip l.

Lemma content_prefix V addrs l l' : content V addrs (l ++ l') -> content V addrs l.
Proof.
  intros Hc k Hk. destruct (Hc k) as [Hz Hb]; [rewrite length_app; lia|]. by rewrite lookup_app_l in Hb.
Qed.

Lemma disk_inode_view V fb k ip : (k < 200)%nat -> has_inode V k ip -> disk_inode (view V fb) (Z.of_nat k + 1) = ip.
Proof.
  intros Hk [_ Hl]. destruct (home_range k Hk) as [Hh _]. unfold disk_inode, blk in *. rewrite view_ne by lia. done.
Qed.

Section Finish.
Variables (V : gmap Z (list Z)) (fb : Z) (F : list ifile) (fs : list (list Z * list Z)) (root : inode) (sz : Z).
Hypotheses (Hsz : 0 <= sz < 2 ^ 32) (Hinv : fsinv V fb F) (Hb : built F fs) (HF : F !! 0%nat = Some (root, dir_bytes fs)).

Abbreviation root' := (set_i_size sz root).
Abbreviation V' := (view (put_inode V 0 root') fb).

Lemma root_fits : dinode_fits root'.
Proof.
  destruct (fv_good _ _ _ Hinv 0%nat root _ HF) as (Hg & _ & Hi). by destruct Hi as [[E1 E2 E3 E4 E5 E6 E7] _].
Qed.

Lemma root_inode : has_inode (put_inode V 0 root') 0 root'.
Proof.
  destruct (fv_good _ _ _ Hinv 0%nat root _ HF) as (Hg & _ & Hi). destruct (has_inode_zero V 0 root Hi) as (Z1 & Z2 & Z3 & Z4 & Z5).
  eapply put_inode_same; try done; [apply Hinv|lia|apply root_fits].
Qed.

Lemma root_file : sz = Z.of_nat (length (padded (dir_bytes fs))) -> has_file V' 1 T_DIR (padded (dir_bytes fs)).
Proof.
  intros Esz. destruct (fv_good _ _ _ Hinv 0%nat root _ HF) as (Hg & _ & Hi). destruct Hb as [_ Ek].
  pose proof (f_equal (fun x => x !! 0%nat) Ek) as E. rewrite list_lookup_fmap, HF in E. injection E as Ek1 Ek2.
  unfold has_file. rewrite (disk_inode_view _ fb 0 root' ltac:(lia) root_inode : disk_inode V' 1 = root'). split; [done|]. split; [done|].
  pose proof (put_inode_good V fb 0 root' _ _ (fv_disk _ _ _ Hinv) ltac:(lia) Hg) as [Hm Hc _ _ _]. split; [done|]. split; [done|done].
Qed.

Lemma other_file k ip l : F !! S k = Some (ip, l) -> has_file V' (Z.of_nat k + 2) T_FILE l /\ disk_inode V' (Z.of_nat k + 2) = ip.
Proof.
  intros Hk. pose proof (lookup_lt_Some _ _ _ Hk) as Hlt. pose proof (fv_count _ _ _ Hinv) as Hcnt.
  destruct (fv_good _ _ _ Hinv (S k) ip l Hk) as (Hg & Hs & Hi).
  assert (i_type ip = T_FILE /\ i_nlink ip = 1) as [Ht Hn].
  { destruct Hb as [_ Ek]. assert ((kind <$> F) !! S k = ((fun _ => (T_FILE, 1)) <$> fs) !! k) as E by by rewrite Ek.
    rewrite !list_lookup_fmap, Hk in E. destruct (fs !! k); [|done]. by injection E as -> ->. }
  pose proof (put_inode_ne V fb 0 (S k) root' ip (fv_disk _ _ _ Hinv) ltac:(lia) ltac:(lia) ltac:(done) root_fits Hi) as Hi'.
  pose proof (disk_inode_view _ fb (S k) ip ltac:(lia) Hi') as Ei. replace (Z.of_nat (S k) + 1) with (Z.of_nat k + 2) in Ei by lia.
  unfold has_file. rewrite Ei. split; [|done]. split; [done|]. split; [done|].
  pose proof (put_inode_good V fb 0 root' _ _ (fv_disk _ _ _ Hinv) ltac:(lia) Hg) as [Hm Hc _ _ _]. split; [done|]. split; [by eapply content_prefix|done].
Qed.

(** Two files share no block. *)
Lemma files_apart i j m : (i <= length fs)%nat -> (j <= length fs)%nat -> i <> j ->
  owns V' (i_addrs (disk_inode V' (Z.of_nat i + 1))) m -> foreign V' (i_addrs (disk_inode V' (Z.of_nat j + 1))) m.
Proof.
  intros Hi Hj Hne. pose proof (built_length F fs Hb) as HFl. pose proof (fv_count _ _ _ Hinv) as Hcnt.
  assert (forall k, (k <= length fs)%nat -> exists ip l, F !! k = Some (ip, l) /\ i_addrs (disk_inode V' (Z.of_nat k + 1)) = i_addrs ip) as Ha.
  { intros k Hk. destruct k as [|k].
    - exists root, (dir_bytes fs). split; [done|]. by rewrite (disk_inode_view _ fb 0 root' ltac:(lia) root_inode).
    - destruct (lookup_lt_is_Some_2 F (S k) ltac:(lia)) as [[ip l] Hk']. exists ip, l. split; [done|].
      destruct (other_file k ip l Hk') as (_ & E). replace (Z.of_nat (S k) + 1) with (Z.of_nat k + 2) by lia. by rewrite E. }
  destruct (Ha i Hi) as (ip & l & Hip & ->), (Ha j Hj) as (ip' & l' & Hip' & ->). intros Ho.
  destruct (fv_good _ _ _ Hinv i ip l Hip) as (Hg & _), (fv_good _ _ _ Hinv j ip' l' Hip') as (Hg' & _).
  apply put_inode_foreign; [apply Hinv|lia|apply Hg'|]. apply put_inode_owns in Ho; [|apply Hinv|lia|apply Hg]. by eapply (fv_apart _ _ _ Hinv i j).
Qed.
End Finish.

Lemma dir_map_padded fs : Z.of_nat (length fs) < 200 -> dir_map (padded (dir_bytes fs)) = names fs.
Proof.
  intros Hlen. rewrite <- dir_map_bytes by done. unfold padded. rewrite length_dir_bytes.
  replace (- Z.of_nat (16 * (2 + length fs)) mod BSIZE) with (16 * (- Z.of_nat (2 + length fs) mod 64)) by (rewrite <- Z.mul_mod_distr_l by lia; f_equal; lia).
  replace (Z.to_nat (16 * (- Z.of_nat (2 + length fs) mod 64))) with (16 * Z.to_nat (- Z.of_nat (2 + length fs) mod 64))%nat.
  - apply (dir_map_zeros _ (2 + length fs)). apply length_dir_bytes.
  - pose proof (Z.mod_pos_bound (- Z.of_nat (2 + length fs)) 64 ltac:(lia)). lia.
Qed.

(** The size that [main] gives the root directory ends the last block, unless the
    directory ends there already. *)
Lemma root_size fs : (2 + Z.of_nat (length fs)) mod 64 <> 0 ->
  (Z.of_nat (length (dir_bytes fs)) / BSIZE + 1) * BSIZE = Z.of_nat (length (padded (dir_bytes fs))).
Proof.
  intros Hm. unfold padded. rewrite length_app, length_replicate, length_dir_bytes. set (n := Z.of_nat (16 * (2 + length fs))).
  assert (n mod BSIZE <> 0) as Hn.
  { unfold n. replace (Z.of_nat (16 * (2 + length fs))) with (16 * (2 + Z.of_nat (length fs))) by lia. change BSIZE with (16 * 64). rewrite Z.mul_mod_distr_l by lia. lia. }
  rewrite Nat2Z.inj_add, Z2Nat.id by (pose proof (Z.mod_pos_bound (- n) BSIZE ltac:(lia)); lia). fold n. rewrite Z.mod_opp_l_nz by lia.
  pose proof (Z.div_mod n BSIZE ltac:(lia)). lia.
Qed.

Lemma root_sz_range fs : Z.of_nat (length (dir_bytes fs)) <= MAXFILE * BSIZE -> 0 <= (Z.of_nat (length (dir_bytes fs)) / BSIZE + 1) * BSIZE < 2 ^ 32.
Proof.
  intros Hm. pose proof (Z.div_mod (Z.of_nat (length (dir_bytes fs))) BSIZE ltac:(lia)).
  pose proof (Z.mod_pos_bound (Z.of_nat (length (dir_bytes fs))) BSIZE ltac:(lia)). lia.
Qed.

Lemma populate_ok args fs V fb F : given args fs -> fsinv V fb F -> built F [] -> Z.of_nat (length fs) <= 198 ->
  Forall (fun x => Z.of_nat (length x.2) <= MAXFILE * BSIZE) fs -> 46 + capacity fs <= 1000 ->
  exists V' fb' F' root, let root' := set_i_size ((Z.of_nat (length (dir_bytes fs)) / BSIZE + 1) * BSIZE) root in
    populate args 1 (st V fb F) = Ok tt (st (view (put_inode V' 0 root') fb') fb' F') /\
    fsinv V' fb' F' /\ built F' fs /\ F' !! 0%nat = Some (root, dir_bytes fs).
Proof.
  intros Hg Hinv Hb Hlen Hmax Hcap. destruct (files_ok args fs V fb F [] Hg Hinv Hb Hlen Hmax Hcap) as (V1 & fb1 & F1 & R1 & Hinv1 & Hb1).
  cbn [app] in Hb1. assert (exists root, F1 !! 0%nat = Some (root, dir_bytes fs)) as [root H0].
  { destruct Hb1 as [Es _]. destruct F1 as [|[root l] G]; [done|]. injection Es as ->. by exists root. }
  exists V1, fb1, F1, root. cbv zeta. split; [|done]. unfold populate. mstep R1. destruct (fv_good _ _ _ Hinv1 0%nat root _ H0) as (Hgd & Hs & Hi).
  pose proof (fv_disk _ _ _ Hinv1) as Hd. mstep (rinode_ok (1 + Z.of_nat (length F1)) V1 fb1 0 root Hd ltac:(lia) Hi). rewrite Hs.
  pose proof (gd_max _ _ _ Hgd) as Hm. pose proof (root_sz_range fs Hm) as Hm'. rewrite (xint_id (Z.of_nat (length (dir_bytes fs)))), xint_id by lia.
  mstep (winode_ok Hwrite (1 + Z.of_nat (length F1)) V1 fb1 0 (set_i_size ((Z.of_nat (length (dir_bytes fs)) / BSIZE + 1) * BSIZE) root) Hd ltac:(lia)).
  erewrite bind_ok by reflexivity. cbn [freeblock]. pose proof (dk_fb _ _ Hd) as Hfb. unfold balloc, assert_. rewrite (proj2 (Z.ltb_lt fb1 (BSIZE * 8))) by lia.
  cbn [negb when]. erewrite bind_ok by reflexivity. erewrite bind_ok by reflexivity. cbn [mk_sb]. change (sb_bmapstart mkfs_sb) with 45.
  by rewrite (wsect_ok Hwrite) by lia.
Qed.


(** When the entries of the root directory fill its last block, [main] gives the
    directory one block more than it has: the size is a block too large, and the last
    block of the directory has no address. *)
Theorem mkfs_root_hole a0 img args fs : host_create img = true -> given args fs -> Z.of_nat (length fs) <= 198 ->
  Forall (fun x => Z.of_nat (length x.2) <= MAXFILE * BSIZE) fs -> 46 + capacity fs <= 1000 -> (2 + Z.of_nat (length fs)) mod 64 = 0 ->
  exists s, mkfs_main (a0 :: img :: args) mk_start = Ok tt s /\ let root := disk_inode (image s) ROOTINO in
    i_size root = 16 * (2 + Z.of_nat (length fs)) + BSIZE /\ baddr (image s) (i_addrs root) (i_size root / BSIZE - 1) = 0.
Proof.
  intros Hcr Hg Hlen Hmax Hcap Hmod.
  destruct (zero_image (MkMkstate ∅ mkfs_sb 1 nmeta) eq_refl eq_refl eq_refl) as (V0 & R0 & HV0).
  destruct (start_ok (populate args) V0 HV0) as (V1 & fb1 & F1 & R1 & Hinv1 & Hb1).
  destruct (populate_ok args fs V1 fb1 F1 Hg Hinv1 Hb1 Hlen Hmax Hcap) as (V2 & fb2 & F2 & root & R2 & Hinv2 & Hb2 & HF2).
  eexists. split.
  { unfold mkfs_main. rewrite Hcr. cbn [negb]. erewrite bind_ok by reflexivity. mstep R0. rewrite R1. exact R2. }
  cbv zeta. cbn [image]. destruct (fv_good _ _ _ Hinv2 0%nat root _ HF2) as (Hgr & _). pose proof (root_sz_range fs (gd_max _ _ _ Hgr)) as Hsz.
  assert (exists q, Z.of_nat (length (dir_bytes fs)) = q * BSIZE) as [q Eq].
  { rewrite length_dir_bytes. pose proof (Z.div_mod (2 + Z.of_nat (length fs)) 64 ltac:(lia)). exists ((2 + Z.of_nat (length fs)) / 64). lia. }
  rewrite Eq, Z.div_mul in * by lia.
  rewrite (disk_inode_view _ fb2 0 _ ltac:(lia) (root_inode V2 fb2 F2 fs root ((q + 1) * BSIZE) Hsz Hinv2 HF2) : disk_inode _ 1 = _).
  cbn [i_size i_addrs set_i_size]. rewrite Z.div_mul by lia. rewrite length_dir_bytes in Eq. split; [lia|].
  pose proof (put_inode_good V2 fb2 0 (set_i_size ((q + 1) * BSIZE) root) _ _ (fv_disk _ _ _ Hinv2) ltac:(lia) Hgr) as [_ _ Hden _ _].
  destruct (decide (baddr (view (put_inode V2 0 (set_i_size ((q + 1) * BSIZE) root)) fb2) (i_addrs root) (q + 1 - 1) = 0)) as [|Hne]; [done|].
  apply Hden in Hne; rewrite ?length_dir_bytes in *; lia.
Qed.
End Main.

(** A host whose files all have the bytes 1, 2, 3. *)
#[local] Instance demo_host : Host := { host_create _ := true; host_write _ := true; host_open _ := Some [[1; 2; 3]] }.

