(* ===== verification/User.v ===== *)
(** * User programs

    A user program is a tree of system calls ([user/user.h]): what it does next
    depends on the answer to each.  [run] interprets one against a kernel, given as
    a function on states; [Stdio] is what programs rely on about [read] and [write]
    of a stream, whatever the sizes of the pieces in which the data comes. *)

From stdpp Require Import gmap strings list.
From S2P Require Import Prelude Layout.

(** ** Programs *)

(** An argument of a call that a program passes as it pleases: an integer, a string, a pointer to
    anywhere, or an array of pointers with a null one at its end. *)
Inductive uarg : Type :=
| UInt (v : Z)
| UStr (bytes : list Z)
| UPtr (addr : Z)
| UVec (args : list uarg).

(** Strings are passed without their terminator.  [Raw] is a call with arguments that need not be
    valid; [Load] and [Store] are accesses to a byte of memory, which are calls because the
    kernel ends a program that has no such memory. *)
Inductive call : Type :=
| Fork
| Wait
| Waitx
| Pipe
| Read (fd n : Z)
| Write (fd : Z) (bytes : list Z)
| Close (fd : Z)
| Kill (pid : Z)
| Exec (path : list Z) (argv : list (list Z))
| Open (path : list Z) (mode : Z)
| Mknod (path : list Z) (major minor : Z)
| Unlink (path : list Z)
| Fstat (fd : Z)
| Link (old new : list Z)
| Mkdir (path : list Z)
| Chdir (path : list Z)
| Dup (fd : Z)
| Getpid
| Sbrk (n : Z)
| Sleep (n : Z)
| Uptime
| Strace (mask : Z)
| Set_priority (priority pid : Z)
| Raw (name : string) (args : list uarg)
| Load (addr : Z)
| Store (addr v : Z).

(** The value of a call and what it stored for the caller: the bytes read, the two
    descriptors of [pipe], the [struct stat], the status of [wait], the two times of [waitx]. *)
Record answer : Type := MkAnswer { a_ret : Z; a_data : list Z }.

Inductive prog (A : Type) : Type :=
| Done (a : A)
| Call (c : call) (k : answer -> prog A)
| Exit (status : Z)
| Undef (what : string)
| Unfinished.
Arguments Done {A} a.
Arguments Call {A} c k.
Arguments Exit {A} status.
Arguments Undef {A} what.
Arguments Unfinished {A}.

#[global] Instance prog_ret : MRet prog := fun A a => Done a.
#[global] Instance prog_bind : MBind prog :=
  fix prog_bind A B (f : A -> prog B) (p : prog A) {struct p} : prog B :=
    match p with
    | Done a => f a
    | Call c k => Call c (fun x => prog_bind A B f (k x))
    | Exit n => Exit n
    | Undef w => Undef w
    | Unfinished => Unfinished
    end.

(** A call whose value is all that matters. *)
Definition sys (c : call) : prog Z := Call c (fun x => Done (a_ret x)).
Definition sys_data (c : call) : prog (Z * list Z) := Call c (fun x => Done (a_ret x, a_data x)).
Definition exit {A} (status : Z) : prog A := Exit status.

Fixpoint for_all {A} (l : list A) (f : A -> prog unit) : prog unit :=
  match l with
  | [] => mret tt
  | a :: l => _ ← f a; for_all l f
  end.

(** ** Runs *)

Inductive result (A : Type) : Type :=
| Returned (a : A)
| Exited (status : Z)
| Wrong (what : string)
| Timeout.
Arguments Returned {A} a.
Arguments Exited {A} status.
Arguments Wrong {A} what.
Arguments Timeout {A}.

Section Run.
Context {St : Type} (kernel : call -> St -> answer * St).

Fixpoint run {A} (p : prog A) (s : St) : result A * St :=
  match p with
  | Done a => (Returned a, s)
  | Call c k => let '(x, s') := kernel c s in run (k x) s'
  | Exit n => (Exited n, s)
  | Undef w => (Wrong w, s)
  | Unfinished => (Timeout, s)
  end.

Lemma run_bind {A B} (p : prog A) (f : A -> prog B) s :
  run (p ≫= f) s =
    match run p s with
    | (Returned a, s') => run (f a) s'
    | (Exited n, s') => (Exited n, s')
    | (Wrong w, s') => (Wrong w, s')
    | (Timeout, s') => (Timeout, s')
    end.
Proof.
  revert s. induction p as [a|c k IH|n|w|]; intros s; try done.
  cbn. destruct (kernel c s) as [x s']. apply IH.
Qed.

Lemma run_returned {A B} (p : prog A) (f : A -> prog B) s a s' :
  run p s = (Returned a, s') -> run (p ≫= f) s = run (f a) s'.
Proof. rewrite run_bind. by intros ->. Qed.

Lemma run_exited {A B} (p : prog A) (f : A -> prog B) s n s' :
  run p s = (Exited n, s') -> run (p ≫= f) s = (Exited n, s').
Proof. rewrite run_bind. by intros ->. Qed.

(** ** Streams *)

(** [input s fd] is what is still to be read of descriptor [fd], [output s fd] what
    has been written to it.  [read] yields some of the bytes that are left, and none
    only at the end; [write] takes them all.  The two do not touch other
    descriptors' bytes. *)
Class Stdio (input output : St -> Z -> list Z) : Prop := {
  read_some : forall s fd n, 0 < n -> exists l s',
    kernel (Read fd n) s = (MkAnswer (Z.of_nat (length l)) l, s') /\
    input s fd = l ++ input s' fd /\ Z.of_nat (length l) <= n /\ (l = [] -> input s fd = []) /\
    (forall fd', fd' <> fd -> input s' fd' = input s fd') /\ output s' = output s;
  write_all : forall s fd l, exists s',
    kernel (Write fd l) s = (MkAnswer (Z.of_nat (length l)) [], s') /\
    output s' fd = output s fd ++ l /\ (forall fd', fd' <> fd -> output s' fd' = output s fd') /\
    input s' = input s
}.
End Run.

(** ** A kernel for evaluating programs *)

(** Descriptor [fd] has [files fd] left; each read yields at most [piece] bytes. *)
Record streams : Type := MkStreams {
  piece : nat;
  files : Z -> list Z;
  written : Z -> list Z
}.

Definition upd_stream (f : Z -> list Z) (fd : Z) (l : list Z) : Z -> list Z := fun x => if x =? fd then l else f x.

Definition demo_kernel_calls (c : call) (s : streams) : answer * streams :=
  match c with
  | Read fd n =>
      let k := Nat.min (S (piece s)) (Z.to_nat n) in
      let l := take k (files s fd) in
      (MkAnswer (Z.of_nat (length l)) l, MkStreams (piece s) (upd_stream (files s) fd (drop k (files s fd))) (written s))
  | Write fd l =>
      (MkAnswer (Z.of_nat (length l)) [], MkStreams (piece s) (files s) (upd_stream (written s) fd (written s fd ++ l)))
  | _ => (MkAnswer (-1) [], s)
  end.

Lemma demo_stdio : Stdio demo_kernel_calls files written.
Proof.
  constructor.
  - intros s fd n Hn. eexists _, _. split; [reflexivity|]. cbn -[Nat.min]. unfold upd_stream at 1. rewrite Z.eqb_refl.
    split; [by rewrite take_drop|]. split; [rewrite length_take; lia|]. split; [|split; [|done]].
    + intros Hl. destruct (files s fd); [done|]. destruct (Z.to_nat n) eqn:En; [lia|]. discriminate Hl.
    + intros fd' Hfd. unfold upd_stream. by destruct (Z.eqb_spec fd' fd).
  - intros s fd l. eexists. split; [reflexivity|]. cbn. unfold upd_stream. rewrite Z.eqb_refl.
    split; [done|]. split; [|done]. intros fd' Hfd. by destruct (Z.eqb_spec fd' fd).
Qed.
