(* ===== verification/Ulib.v ===== *)
(** * The user library

    [user/ulib.c].  [memset] and [memmove] work on the bytes of memory; the string
    routines work on arrays of characters as lists, and return [None] when the C code
    would run past the end of one. *)

From stdpp Require Import gmap strings list.
From S2P Require Import Prelude Layout Cstring User.

(** The characters before the first NUL. *)
Fixpoint cstr (l : list Z) : list Z :=
  match l with
  | [] => []
  | c :: l => if c =? 0 then [] else c :: cstr l
  end.

Fixpoint strcpy (s t : list Z) {struct t} : option (list Z) :=
  match s, t with
  | _ :: s, c :: t => if c =? 0 then Some (0 :: s) else (c ::.) <$> strcpy s t
  | _, _ => None
  end.

Fixpoint strcmp (p q : list Z) {struct p} : option Z :=
  match p, q with
  | a :: p, b :: q => if negb (a =? 0) && (a =? b) then strcmp p q else Some (a - b)
  | _, _ => None
  end.

Fixpoint strlen (s : list Z) : option Z :=
  match s with
  | [] => None
  | c :: s => if c =? 0 then Some 0 else Z.add 1 <$> strlen s
  end.

Definition memset (m : gmap Z Z) (dst c n : Z) : gmap Z Z := memset_loop m dst c (Z.to_nat n).

(** The index of the character found, if any. *)
Fixpoint strchr (s : list Z) (c : Z) : option (option nat) :=
  match s with
  | [] => None
  | x :: s =>
      if x =? 0 then Some None
      else if x =? c then Some (Some 0%nat)
      else (fun o : option nat => S <$> o) <$> strchr s c
  end.

(** The loop of [gets], with [k] characters of room left; [max] is at least 1, so the
    loop ends by itself. *)
Fixpoint gets_loop (k : nat) : prog (list Z) :=
  match k with
  | O => mret []
  | S k =>
      x ← sys_data (Read 0 1);
      match x with
      | (cc, c :: _) =>
          if cc <? 1 then mret []
          else if (c =? 10) || (c =? 13) then mret [c]
          else l ← gets_loop k; mret (c :: l)
      | (cc, []) => if cc <? 1 then mret [] else Undef "c"
      end
  end.

(** The string that [gets] stores, without its terminator. *)
Definition gets (max : Z) : prog (list Z) := gets_loop (Z.to_nat (max - 1)).

(** The value, and the [struct stat]. *)
Definition stat (n : list Z) : prog (Z * list Z) :=
  fd ← sys (Open n O_RDONLY);
  if fd <? 0 then mret (-1, [])
  else
    r ← sys_data (Fstat fd);
    _ ← sys (Close fd);
    mret r.

Definition is_digit (c : Z) : bool := (48 <=? c) && (c <=? 57).

Fixpoint atoi_loop (s : list Z) (n : Z) : option Z :=
  match s with
  | [] => None
  | c :: s => if is_digit c then atoi_loop s (s32 (n * 10 + c - 48)) else Some n
  end.

Definition atoi (s : list Z) : option Z := atoi_loop s 0.

Definition memmove (m : gmap Z Z) (dst src n : Z) : gmap Z Z :=
  if dst <? src then move_up m dst src (Z.to_nat n) else move_down m (dst + n) (src + n) (Z.to_nat n).

Fixpoint memcmp (s1 s2 : list Z) (n : nat) {struct n} : option Z :=
  match n with
  | O => Some 0
  | S n =>
      match s1, s2 with
      | a :: s1, b :: s2 => if negb (a =? b) then Some (a - b) else memcmp s1 s2 n
      | _, _ => None
      end
  end.

Definition memcpy (m : gmap Z Z) (dst src n : Z) : gmap Z Z := memmove m dst src n.

(** ** Facts *)

(** [strchr] on a string: its first occurrence, before the terminator. *)
Lemma strchr_app_0 s c : 0 ∉ s -> c <> 0 ->
  strchr (s ++ [0]) c = Some (fst <$> list_find (fun x => x = c) s).
Proof.
  intros Hs Hc. induction s as [|x s IH]; cbn; [done|]. rewrite elem_of_cons in Hs.
  destruct (Z.eqb_spec x 0); [subst; naive_solver|]. destruct (Z.eqb_spec x c).
  - by rewrite decide_True.
  - rewrite decide_False by done. rewrite IH by naive_solver. by destruct (list_find _ s) as [[? ?]|].
Qed.

(** [strchr] as a test of membership. *)
Lemma strchr_mem s c : 0 ∉ s -> c <> 0 -> exists o, strchr (s ++ [0]) c = Some o /\ (is_Some o <-> c ∈ s).
Proof.
  intros Hs Hc. rewrite strchr_app_0 by done. eexists. split; [done|]. split.
  - intros [n Hn]. apply fmap_Some in Hn as ([i x] & (Hx & -> & _)%list_find_Some & _).
    by eapply list_elem_of_lookup_2.
  - intros [i Hi]%list_elem_of_lookup_1. destruct (list_find (fun x => x = c) s) as [[j x]|] eqn:E; [by eexists|].
    apply list_find_None in E. rewrite Forall_lookup in E. by specialize (E _ _ Hi).
Qed.

(** The user's [memmove] copies like the kernel's: as if through a buffer. *)
Lemma ldb_user_memmove m dst src n x :
  ldb (memmove m dst src n) x = if decide (dst <= x < dst + n) then ldb m (src + (x - dst)) else ldb m x.
Proof.
  unfold memmove. destruct (Z.ltb_spec dst src).
  - rewrite ldb_move_up by lia. repeat case_decide; try lia; done.
  - destruct (decide (0 <= n)) as [Hn|Hn].
    + rewrite ldb_move_down by lia. rewrite Z2Nat.id by done. repeat case_decide; try lia; try done. f_equal. lia.
    + replace (Z.to_nat n) with 0%nat by lia. cbn. by rewrite decide_False by lia.
Qed.
