(* ===== verification/Uprintf.v ===== *)
(** * Formatted output of user programs

    [user/printf.c].  The variable arguments are a list of numbers and strings; using one
    as the other, or more than there are, is undefined. *)

From stdpp Require Import gmap strings list.
From S2P Require Import Prelude Layout User Ulib.

(** The characters of a string literal. *)
Definition lit (s : string) : list Z := (fun a => Z.of_nat (Ascii.nat_of_ascii a)) <$> String.list_ascii_of_string s.

(** A newline, for the formats. *)
Definition nl : string := String (Ascii.ascii_of_nat 10) EmptyString.

Definition digits : list Z := lit "0123456789ABCDEF".
Definition digit (d : Z) : Z := default 0 (digits !! Z.to_nat d).

Definition putc (fd c : Z) : prog unit := _ ← sys (Write fd [u8 c]); mret tt.

(** The [do]-[while] loop of [printint]: the digits of [x], the last one first. *)
Fixpoint digit_loop (k : nat) (base x : Z) : list Z :=
  match k with
  | O => []
  | S k => digit (x mod base) :: (if x / base =? 0 then [] else digit_loop k base (x / base))
  end.

(** [buf], which [printint] sends from its end; the argument is an [int], and 32 bits
    have at most 32 digits. *)
Definition int_buf (xx base : Z) (sgn : bool) : list Z :=
  let neg := sgn && (s32 xx <? 0) in
  let x := if neg then u32 (- s32 xx) else u32 xx in
  digit_loop 32 base x ++ (if neg then [45] else []).

Definition printint (fd xx base : Z) (sgn : bool) : prog unit := for_all (reverse (int_buf xx base sgn)) (putc fd).

Fixpoint ptr_loop (k : nat) (x : Z) : list Z :=
  match k with
  | O => []
  | S k => digit (Z.shiftr x 60) :: ptr_loop k (u64 (Z.shiftl x 4))
  end.

Definition printptr (fd x : Z) : prog unit := for_all ([48; 120] ++ ptr_loop 16 x) (putc fd).

Inductive arg : Type :=
| AInt (v : Z)                  (** [int], [uint] *)
| ALong (v : Z)                 (** [uint64] *)
| AStr (v : option (list Z)).   (** [char*], up to its NUL *)

(** The next argument, if there is one of the kind that is asked for; each has a slot of
    64 bits, of which an [int] is the low half. *)
Definition arg_int (ap : list arg) (k : Z -> list arg -> prog unit) : prog unit :=
  match ap with AInt v :: ap | ALong v :: ap => k v ap | _ => Undef "va_arg" end.
Definition arg_long (ap : list arg) (k : Z -> list arg -> prog unit) : prog unit :=
  match ap with ALong v :: ap => k v ap | _ => Undef "va_arg" end.
Definition arg_str (ap : list arg) (k : option (list Z) -> list arg -> prog unit) : prog unit :=
  match ap with AStr v :: ap => k v ap | _ => Undef "va_arg" end.

(** [state] is whether a [%] has been read. *)
Fixpoint vprintf_loop (fd : Z) (fmt : list Z) (state : bool) (ap : list arg) : prog unit :=
  match fmt with
  | [] => mret tt
  | c :: fmt =>
      if negb state then
        if c =? 37 then vprintf_loop fd fmt true ap
        else _ ← putc fd c; vprintf_loop fd fmt false ap
      else if c =? 100 then
        arg_int ap (fun v ap => _ ← printint fd v 10 true; vprintf_loop fd fmt false ap)
      else if c =? 108 then
        arg_long ap (fun v ap => _ ← printint fd v 10 false; vprintf_loop fd fmt false ap)
      else if c =? 120 then
        arg_int ap (fun v ap => _ ← printint fd v 16 false; vprintf_loop fd fmt false ap)
      else if c =? 112 then
        arg_long ap (fun v ap => _ ← printptr fd v; vprintf_loop fd fmt false ap)
      else if c =? 115 then
        arg_str ap (fun v ap => _ ← for_all (default (lit "(null)") v) (putc fd); vprintf_loop fd fmt false ap)
      else if c =? 99 then
        arg_int ap (fun v ap => _ ← putc fd v; vprintf_loop fd fmt false ap)
      else if c =? 37 then _ ← putc fd c; vprintf_loop fd fmt false ap
      else _ ← putc fd 37; _ ← putc fd c; vprintf_loop fd fmt false ap
  end.

Definition vprintf (fd : Z) (fmt : list Z) (ap : list arg) : prog unit := vprintf_loop fd fmt false ap.
Definition fprintf (fd : Z) (fmt : string) (ap : list arg) : prog unit := vprintf fd (lit fmt) ap.
Definition printf (fmt : string) (ap : list arg) : prog unit := vprintf 1 (lit fmt) ap.

(** ** Numbers *)

(** The digits fit: [printint] never overruns its sixteen characters. *)
Lemma digit_loop_length k base x n :
  10 <= base -> 0 <= x < 10 ^ Z.of_nat n -> (0 < n)%nat -> (length (digit_loop k base x) <= n)%nat.
Proof.
  intros Hb. revert x n. induction k as [|k IH]; intros x n Hx Hn; cbn; [lia|].
  destruct (Z.eqb_spec (x / base) 0) as [E|E]; cbn; [lia|]. destruct n as [|n]; [lia|].
  assert (10 <= x) by (destruct (decide (x < base)); [by rewrite Z.div_small in E by lia|lia]).
  destruct n as [|n]; [cbn in Hx; lia|]. apply le_n_S, IH; [|lia]. split; [apply Z.div_pos; lia|].
  apply Z.div_lt_upper_bound; [lia|].
  rewrite (Nat2Z.inj_succ (S n)), Z.pow_succ_r in Hx by lia. nia.
Qed.

Lemma int_buf_fits xx base sgn : 10 <= base -> (length (int_buf xx base sgn) <= 16)%nat.
Proof.
  intros Hb. unfold int_buf. rewrite length_app. match goal with |- context [digit_loop 32 base ?y] => set (x := y) end.
  assert (0 <= x < 10 ^ Z.of_nat 10) as Hx by (subst x; destruct (_ && _); match goal with |- context [u32 ?y] => pose proof (u32_range y) end; lia).
  pose proof (digit_loop_length 32 base x 10 Hb Hx ltac:(lia)). destruct (_ && _); cbn [length]; lia.
Qed.

(** [atoi] reads back what [%d] printed. *)
Lemma digit_dec d : 0 <= d < 10 -> digit d = 48 + d.
Proof.
  intros Hd. assert (d ∈ seqZ 0 10) as Hin by (apply elem_of_seqZ; lia). cbn in Hin.
  repeat (apply elem_of_cons in Hin as [->|Hin]; [reflexivity|]). by apply elem_of_nil in Hin.
Qed.

Lemma atoi_digit x rest :
  0 <= x < 2 ^ 31 -> atoi_loop (digit (x mod 10) :: rest) (x / 10) = atoi_loop rest x.
Proof.
  intros Hx. pose proof (Z.mod_pos_bound x 10 ltac:(lia)). rewrite digit_dec by done. cbn [atoi_loop].
  unfold is_digit. rewrite (proj2 (Z.leb_le 48 _)), (proj2 (Z.leb_le _ 57)) by lia. cbn [andb].
  f_equal. rewrite s32_small; [|]; pose proof (Z.div_mod x 10); lia.
Qed.

Lemma atoi_digits k x rest :
  0 <= x < 2 ^ 31 -> (0 < k)%nat -> x < 10 ^ Z.of_nat k ->
  atoi_loop (reverse (digit_loop k 10 x) ++ rest) 0 = atoi_loop rest x.
Proof.
  revert x rest. induction k as [|k IH]; intros x rest Hx Hk Hlt; [lia|]. cbn [digit_loop].
  rewrite reverse_cons, <- app_assoc. cbn [app]. destruct (Z.eqb_spec (x / 10) 0) as [E|E].
  - cbn [reverse app]. rewrite <- (atoi_digit x rest), E by done. done.
  - destruct k as [|k]; [by rewrite Z.div_small in E by (cbn in Hlt; lia)|].
    rewrite IH; [by apply atoi_digit| |lia|].
    + split; [apply Z.div_pos; lia|]. apply Z.div_lt_upper_bound; lia.
    + apply Z.div_lt_upper_bound; [lia|]. rewrite <- Z.pow_succ_r, <- Nat2Z.inj_succ by lia. done.
Qed.

Lemma atoi_printed v c rest :
  0 <= v < 2 ^ 31 -> is_digit c = false -> atoi (reverse (int_buf v 10 true) ++ c :: rest) = Some v.
Proof.
  intros Hv Hc. unfold int_buf. rewrite s32_small by lia. rewrite (proj2 (Z.ltb_ge v 0)) by lia. cbn [andb].
  rewrite app_nil_r, u32_small by lia. unfold atoi. rewrite atoi_digits; [|lia..]. cbn. by rewrite Hc.
Qed.

(** ** What is written *)

(** The characters of a format with its arguments. *)
Fixpoint expand (fmt : list Z) (state : bool) (ap : list arg) : option (list Z) :=
  match fmt with
  | [] => Some []
  | c :: fmt =>
      if negb state then if c =? 37 then expand fmt true ap else (u8 c ::.) <$> expand fmt false ap
      else if c =? 100 then
        match ap with AInt v :: ap | ALong v :: ap => (reverse (int_buf v 10 true) ++.) <$> expand fmt false ap | _ => None end
      else if c =? 108 then
        match ap with ALong v :: ap => (reverse (int_buf v 10 false) ++.) <$> expand fmt false ap | _ => None end
      else if c =? 120 then
        match ap with AInt v :: ap | ALong v :: ap => (reverse (int_buf v 16 false) ++.) <$> expand fmt false ap | _ => None end
      else if c =? 112 then
        match ap with ALong v :: ap => (([48; 120] ++ ptr_loop 16 v) ++.) <$> expand fmt false ap | _ => None end
      else if c =? 115 then
        match ap with
        | AStr v :: ap => ((u8 <$> default (lit "(null)") v) ++.) <$> expand fmt false ap
        | _ => None
        end
      else if c =? 99 then
        match ap with AInt v :: ap | ALong v :: ap => (u8 v ::.) <$> expand fmt false ap | _ => None end
      else if c =? 37 then (u8 c ::.) <$> expand fmt false ap
      else (fun l => 37 :: u8 c :: l) <$> expand fmt false ap
  end.

Lemma digit_range d : 0 <= digit d < 256.
Proof.
  unfold digit. destruct (digits !! Z.to_nat d) as [c|] eqn:E; cbn; [|lia].
  assert (Forall (fun c => 0 <= c < 256) digits) as H by (repeat constructor; cbn; lia).
  exact (Forall_lookup_1 _ _ _ _ H E).
Qed.

Lemma digit_loop_range k base x : Forall (fun c => 0 <= c < 256) (digit_loop k base x).
Proof.
  revert x. induction k as [|k IH]; intros x; cbn; [done|]. constructor; [apply digit_range|].
  by destruct (_ =? 0).
Qed.

Lemma u8_bytes l : Forall (fun c => 0 <= c < 256) l -> u8 <$> l = l.
Proof. induction 1 as [|c l Hc _ IH]; [done|]. rewrite fmap_cons, IH, u8_small by done. done. Qed.

Lemma int_buf_bytes xx base sgn : u8 <$> reverse (int_buf xx base sgn) = reverse (int_buf xx base sgn).
Proof.
  apply u8_bytes, Forall_reverse. unfold int_buf. apply Forall_app. split; [apply digit_loop_range|].
  destruct (_ && _); repeat constructor; lia.
Qed.

Lemma ptr_bytes x : u8 <$> ([48; 120] ++ ptr_loop 16 x) = [48; 120] ++ ptr_loop 16 x.
Proof.
  apply u8_bytes. repeat (constructor; [lia|]). generalize 16%nat. intros k. revert x.
  induction k; intros x; cbn; [done|]. constructor; [apply digit_range|done].
Qed.

Section Written.
Context {St : Type} {kernel : call -> St -> answer * St} {input output : St -> Z -> list Z} `{!Stdio kernel input output}.

(** [s'] is [s] after [l] was written to [fd]. *)
Definition wrote (fd : Z) (l : list Z) (s s' : St) : Prop :=
  output s' fd = output s fd ++ l /\ (forall fd', fd' <> fd -> output s' fd' = output s fd') /\ input s' = input s.

Lemma wrote_nil fd s : wrote fd [] s s.
Proof. split; [by rewrite app_nil_r|done]. Qed.

Lemma wrote_trans fd l l' s s' s'' : wrote fd l s s' -> wrote fd l' s' s'' -> wrote fd (l ++ l') s s''.
Proof.
  intros (H1 & H2 & H3) (H4 & H5 & H6). split; [by rewrite H4, H1, app_assoc|]. split; [|congruence].
  intros fd' Hfd. by rewrite H5, H2.
Qed.

(** [p] returns, having written [l] to [fd]. *)
Definition writes (fd : Z) (l : list Z) (p : prog unit) : Prop :=
  forall s, exists s', run kernel p s = (Returned tt, s') /\ wrote fd l s s'.

Lemma writes_ret fd : writes fd [] (mret tt).
Proof. intros s. exists s. split; [done|apply wrote_nil]. Qed.

Lemma writes_bind fd l l' p q : writes fd l p -> writes fd l' q -> writes fd (l ++ l') (_ ← p; q).
Proof.
  intros Hp Hq s. destruct (Hp s) as (s1 & E1 & W1). destruct (Hq s1) as (s2 & E2 & W2).
  exists s2. split; [by rewrite (run_returned _ _ _ _ _ _ E1)|]. by eapply wrote_trans.
Qed.

Lemma writes_sys fd l : writes fd l (_ ← sys (Write fd l); mret tt).
Proof.
  intros s. destruct (write_all kernel s fd l) as (s' & E & H1 & H2 & H3). exists s'. split; [|done].
  cbn. by rewrite E.
Qed.

Lemma writes_putc fd c : writes fd [u8 c] (putc fd c).
Proof. apply writes_sys. Qed.

Lemma writes_chars fd l : writes fd (u8 <$> l) (for_all l (putc fd)).
Proof.
  induction l as [|c l IH]; [apply writes_ret|].
  exact (writes_bind fd [u8 c] (u8 <$> l) _ _ (writes_putc fd c) IH).
Qed.

Lemma writes_int fd xx base sgn : writes fd (reverse (int_buf xx base sgn)) (printint fd xx base sgn).
Proof. rewrite <- int_buf_bytes. apply writes_chars. Qed.

Lemma writes_ptr fd x : writes fd ([48; 120] ++ ptr_loop 16 x) (printptr fd x).
Proof. rewrite <- ptr_bytes. apply writes_chars. Qed.

Lemma writes_vprintf_loop fd fmt : forall state ap l,
  expand fmt state ap = Some l -> writes fd l (vprintf_loop fd fmt state ap).
Proof.
  induction fmt as [|c fmt IH]; intros state ap l; cbn [expand vprintf_loop]; [intros [= <-]; apply writes_ret|].
  repeat match goal with
         | |- context [if ?b then _ else _] => destruct b
         end; unfold arg_int, arg_long, arg_str; try (destruct ap as [|[v|v|v] ap]; try discriminate);
    try (intros (l' & E & ->)%fmap_Some_1).
  all: try (apply IH).
  all: try (apply writes_bind; [first [apply writes_int|apply writes_ptr|apply writes_chars]|by apply IH]).
  all: try (apply (writes_bind fd [_] l'); [apply writes_putc|by apply IH]).
  all: apply (writes_bind fd [37] (_ :: l')); [apply (writes_putc fd 37)|].
  all: apply (writes_bind fd [_] l'); [apply writes_putc|by apply IH].
Qed.

(** [fprintf] writes its format with the arguments put in. *)
Lemma writes_fprintf fd fmt ap l : expand (lit fmt) false ap = Some l -> writes fd l (fprintf fd fmt ap).
Proof. apply writes_vprintf_loop. Qed.
End Written.

(** Descriptor 0 has a text, read at most [n + 1] bytes at a time. *)
Definition demo_input (text : string) (n : nat) : streams :=
  MkStreams n (upd_stream (fun _ => []) 0 (lit text)) (fun _ => []).
