(* ===== verification/Grep.v ===== *)
(** * grep

    [user/grep.c]: Kernighan and Pike's matcher, and the loop that reads a stream
    through a buffer of 1024 bytes.  The matcher is shown to decide a language that is
    defined without it, and the loop to print exactly the lines that match, however
    the input is cut into reads. *)

From stdpp Require Import gmap strings list.
From S2P Require Import Prelude Layout User Ulib Uprintf.

(** ** The matcher *)

(** Strings are lists of characters up to the terminator; the [do] loop of [matchstar]
    looks at every suffix that is reached by skipping characters that [c] accepts. *)
Fixpoint matchstar_loop (here : list Z -> bool) (c : Z) (text : list Z) {struct text} : bool :=
  if here text then true
  else match text with
       | [] => false
       | x :: text => if (x =? c) || (c =? 46) then matchstar_loop here c text else false
       end.

Fixpoint matchhere (re text : list Z) {struct re} : bool :=
  match re with
  | [] => true
  | c :: re1 =>
      let plain :=
        if (c =? 36) && match re1 with [] => true | _ => false end
        then match text with [] => true | _ => false end
        else match text with
             | [] => false
             | x :: text => if (c =? 46) || (c =? x) then matchhere re1 text else false
             end in
      match re1 with
      | [] => plain
      | c1 :: re2 => if c1 =? 42 then matchstar_loop (matchhere re2) c text else plain
      end
  end.

Definition matchstar (c : Z) (re text : list Z) : bool := matchstar_loop (matchhere re) c text.

Fixpoint match_loop (re text : list Z) {struct text} : bool :=
  if matchhere re text then true
  else match text with
       | [] => false
       | _ :: text => match_loop re text
       end.

Definition match_re (re text : list Z) : bool :=
  match re with
  | c :: re' => if c =? 94 then matchhere re' text else match_loop re text
  | [] => match_loop re text
  end.

(** ** The language of a pattern *)

Inductive atom : Type := AnyChar | Char (c : Z).
Inductive piece : Type := One (a : atom) | Many (a : atom).

Definition accepts (a : atom) (x : Z) : Prop :=
  match a with AnyChar => True | Char c => x = c end.

(** A word of a sequence of pieces: one character for each plain one, any number for
    each starred one. *)
Inductive word : list piece -> list Z -> Prop :=
| word_nil : word [] []
| word_one a ps x l : accepts a x -> word ps l -> word (One a :: ps) (x :: l)
| word_many a ps l1 l2 : Forall (accepts a) l1 -> word ps l2 -> word (Many a :: ps) (l1 ++ l2).

Definition atom_of (c : Z) : atom := if c =? 46 then AnyChar else Char c.

(** The pieces of a pattern, and whether it ends in the anchor [$]. *)
Fixpoint pieces (re : list Z) : list piece * bool :=
  match re with
  | [] => ([], false)
  | c :: re1 =>
      match re1 with
      | [] => if c =? 36 then ([], true) else ([One (atom_of c)], false)
      | c1 :: re2 =>
          if c1 =? 42 then let '(ps, e) := pieces re2 in (Many (atom_of c) :: ps, e)
          else let '(ps, e) := pieces re1 in (One (atom_of c) :: ps, e)
      end
  end.

(** [text] begins with a word of [re], and ends there if [re] says so. *)
Definition begins (re text : list Z) : Prop :=
  exists t1 t2, text = t1 ++ t2 /\ word (pieces re).1 t1 /\ ((pieces re).2 = true -> t2 = []).

(** [text] has a word of [re] in it: at its start, if [re] begins with the anchor [^]. *)
Definition contains (re text : list Z) : Prop :=
  (exists re', re = 94 :: re' /\ begins re' text) \/
  ((forall re', re <> 94 :: re') /\ exists t0 t, text = t0 ++ t /\ begins re t).

Lemma atom_of_accepts c x : (c =? 46) || (c =? x) = true <-> accepts (atom_of c) x.
Proof.
  unfold atom_of. destruct (Z.eqb_spec c 46); cbn; [done|]. rewrite Z.eqb_eq. by split.
Qed.

Lemma begins_nil text : begins [] text.
Proof. exists [], text. split; [done|]. split; [constructor|done]. Qed.

Lemma begins_dollar text : begins [36] text <-> text = [].
Proof.
  split; [|intros ->; exists [], []; repeat split; constructor].
  intros (t1 & t2 & -> & Hw & He). cbn in *. inversion Hw; subst. by rewrite He.
Qed.

(** A plain character in front of a pattern that does not start with a star. *)
Lemma begins_one c re text :
  (forall c1 re', re = c1 :: re' -> c1 <> 42) -> (c = 36 -> re <> []) ->
  begins (c :: re) text <-> exists x text', text = x :: text' /\ accepts (atom_of c) x /\ begins re text'.
Proof.
  intros Hstar Hdollar.
  assert (pieces (c :: re) = (One (atom_of c) :: (pieces re).1, (pieces re).2)) as E.
  { cbn. destruct re as [|c1 re].
    - destruct (Z.eqb_spec c 36); [naive_solver|done].
    - destruct (Z.eqb_spec c1 42); [by destruct (Hstar c1 re)|]. by destruct (pieces (c1 :: re)). }
  unfold begins. rewrite E. cbn. split.
  - intros (t1 & t2 & -> & Hw & He). inversion Hw; subst. naive_solver.
  - intros (x & text' & -> & Ha & t1 & t2 & -> & Hw & He). exists (x :: t1), t2.
    split; [done|]. split; [by constructor|done].
Qed.

Lemma begins_many c re text :
  begins (c :: 42 :: re) text <->
  exists l text', text = l ++ text' /\ Forall (accepts (atom_of c)) l /\ begins re text'.
Proof.
  assert (pieces (c :: 42 :: re) = (Many (atom_of c) :: (pieces re).1, (pieces re).2)) as E.
  { cbn. by destruct (pieces re). }
  unfold begins. rewrite E. cbn. split.
  - intros (t1 & t2 & -> & Hw & He). inversion Hw as [| |? ? l1 l2 Hl Hw']; subst.
    exists l1, (l2 ++ t2). rewrite <- app_assoc. split; [done|]. split; [done|]. by exists l2, t2.
  - intros (l & text' & -> & Ha & t1 & t2 & -> & Hw & He). exists (l ++ t1), t2.
    rewrite <- app_assoc. split; [done|]. split; [by constructor|done].
Qed.

Lemma matchstar_loop_spec (here : list Z -> bool) (P : list Z -> Prop) c text :
  (forall t, here t = true <-> P t) ->
  matchstar_loop here c text = true <->
  exists l text', text = l ++ text' /\ Forall (accepts (atom_of c)) l /\ P text'.
Proof.
  intros Hp. induction text as [|x text IH]; cbn.
  - destruct (here []) eqn:E.
    + split; [|done]. intros _. exists [], []. split; [done|]. split; [constructor|by apply Hp].
    + split; [done|]. intros (l & t & Hn & _ & Ht). symmetry in Hn. apply app_eq_nil in Hn as [-> ->].
      apply Hp in Ht. congruence.
  - destruct (here (x :: text)) eqn:E.
    { split; [|done]. intros _. exists [], (x :: text). split; [done|]. split; [constructor|by apply Hp]. }
    rewrite (Z.eqb_sym x c), orb_comm. destruct ((c =? 46) || (c =? x)) eqn:Ea.
    + rewrite IH. apply atom_of_accepts in Ea. split.
      * intros (l & t & -> & Hl & Ht). exists (x :: l), t. split; [done|]. split; [by constructor|done].
      * intros ([|y l] & t & Hn & Hl & Ht); cbn in Hn; subst.
        { apply Hp in Ht. congruence. }
        injection Hn as -> ->. inversion Hl; subst. by exists l, t.
    + split; [done|]. intros ([|y l] & t & Hn & Hl & Ht); cbn in Hn; subst.
      { apply Hp in Ht. congruence. }
      injection Hn as -> ->. inversion Hl as [|? ? Hy]; subst. apply atom_of_accepts in Hy. congruence.
Qed.

Lemma matchhere_star c re text : matchhere (c :: 42 :: re) text = matchstar c re text.
Proof. reflexivity. Qed.

Lemma matchhere_plain c re text :
  (forall c1 re', re = c1 :: re' -> c1 <> 42) -> (c = 36 -> re <> []) ->
  matchhere (c :: re) text = true <->
  exists x text', text = x :: text' /\ accepts (atom_of c) x /\ matchhere re text' = true.
Proof.
  intros Hstar Hdollar.
  assert (matchhere (c :: re) text =
          match text with [] => false | x :: t => if (c =? 46) || (c =? x) then matchhere re t else false end) as ->.
  { cbn. destruct re as [|c1 re]; [|destruct (Z.eqb_spec c1 42); [by destruct (Hstar c1 re)|]].
    - destruct (Z.eqb_spec c 36); [naive_solver|done].
    - by rewrite andb_false_r. }
  destruct text as [|x text]; [split; [done|naive_solver]|].
  destruct ((c =? 46) || (c =? x)) eqn:E.
  - apply atom_of_accepts in E. split; [intros H; by exists x, text|]. by intros (? & ? & [= <- <-] & _ & H).
  - split; [done|]. intros (? & ? & [= <- <-] & Ha & _). apply atom_of_accepts in Ha. congruence.
Qed.

(** The four cases of a pattern. *)
Lemma pattern_cases (re : list Z) :
  re = [] \/ re = [36] \/ (exists c re', re = c :: 42 :: re') \/
  (exists c re', re = c :: re' /\ (forall c1 r, re' = c1 :: r -> c1 <> 42) /\ (c = 36 -> re' <> [])).
Proof.
  destruct re as [|c [|c1 re]]; [by left| |].
  - right. destruct (decide (c = 36)) as [->|Hc]; [by left|]. right. right. exists c, []. naive_solver.
  - right. right. destruct (decide (c1 = 42)) as [->|Hc]; [left; naive_solver|]. right. exists c, (c1 :: re). naive_solver.
Qed.

Lemma matchhere_spec re text : matchhere re text = true <-> begins re text.
Proof.
  revert text. induction re as [re IH] using (well_founded_induction (well_founded_ltof _ (@length Z))). intros text.
  destruct (pattern_cases re) as [->|[->|[(c & re' & ->)|(c & re' & -> & Hs & Hd)]]].
  - split; [intros _; apply begins_nil|done].
  - rewrite begins_dollar. cbn. by destruct text.
  - rewrite begins_many, matchhere_star. apply matchstar_loop_spec. intros t. apply IH. unfold ltof. cbn. lia.
  - rewrite begins_one, matchhere_plain by done.
    assert (forall t, matchhere re' t = true <-> begins re' t) as E by (intros t; apply IH; unfold ltof; cbn; lia).
    by setoid_rewrite E.
Qed.

Lemma match_loop_spec re text :
  match_loop re text = true <-> exists t0 t, text = t0 ++ t /\ begins re t.
Proof.
  induction text as [|x text IH]; cbn [match_loop].
  - destruct (matchhere re []) eqn:E.
    + split; [|done]. intros _. exists [], []. split; [done|]. by apply matchhere_spec.
    + split; [done|]. intros (t0 & t & Hn & Ht). symmetry in Hn. apply app_eq_nil in Hn as [-> ->].
      apply matchhere_spec in Ht. congruence.
  - destruct (matchhere re (x :: text)) eqn:E.
    + split; [|done]. intros _. exists [], (x :: text). split; [done|]. by apply matchhere_spec.
    + rewrite IH. split; [intros (t0 & t & -> & Ht); by exists (x :: t0), t|].
      intros ([|y t0] & t & Hn & Ht); cbn in Hn; subst.
      * apply matchhere_spec in Ht. congruence.
      * injection Hn as -> ->. by exists t0, t.
Qed.

(** C22: grep's matcher decides the language of its pattern: [match] answers 1 exactly when
    the text contains a word of the sequence of plain and starred characters that the pattern
    denotes, placed at the start if the pattern begins with [^] and at the end if it ends in [$]. *)
Theorem match_contains re text : match_re re text = true <-> contains re text.
Proof.
  unfold contains. destruct re as [|c re]; cbn [match_re]; [rewrite match_loop_spec; naive_solver|].
  destruct (Z.eqb_spec c 94) as [->|Hc]; [rewrite matchhere_spec|rewrite match_loop_spec]; naive_solver.
Qed.

(** ** The loop over a stream *)

Definition bufsize : nat := 1024.

(** The lines of the bytes in the buffer, which end in a NUL; what is left of them. *)
Fixpoint lines_loop (k : nat) (pattern p : list Z) : prog (list Z) :=
  match k with
  | O => Unfinished
  | S k =>
      match strchr (p ++ [0]) 10 with
      | Some (Some i) =>
          _ ← (if match_re pattern (take i p) then _ ← sys (Write 1 (take (S i) p)); mret tt else mret tt);
          lines_loop k pattern (drop (S i) p)
      | _ => mret p
      end
  end.

(** [b] is the [m] bytes at the start of [buf]. *)
Fixpoint grep_loop (k : nat) (pattern : list Z) (fd : Z) (b : list Z) : prog unit :=
  match k with
  | O => Unfinished
  | S k =>
      x ← sys_data (Read fd (s32 (Z.of_nat bufsize - Z.of_nat (length b) - 1)));
      let '(n, l) := x in
      if 0 <? n then
        let b := b ++ take (Z.to_nat n) l in
        if (bufsize <=? length b)%nat then Undef "buf"
        else b ← lines_loop (S (length b)) pattern b; grep_loop k pattern fd b
      else mret tt
  end.

Definition grep (k : nat) (pattern : list Z) (fd : Z) : prog unit := grep_loop k pattern fd [].

Fixpoint grep_files (k : nat) (pattern : list Z) (argv : list (list Z)) : prog unit :=
  match argv with
  | [] => exit 0
  | f :: argv =>
      fd ← sys (Open f 0);
      if fd <? 0 then _ ← printf ("grep: cannot open %s" +:+ nl) [AStr (Some f)]; exit 1
      else _ ← grep k pattern fd; _ ← sys (Close fd); grep_files k pattern argv
  end.

Definition grep_main (k : nat) (argv : list (list Z)) : prog unit :=
  match argv with
  | _ :: pattern :: [] => _ ← grep k pattern 0; exit 0
  | _ :: pattern :: files => grep_files k pattern files
  | _ => _ ← fprintf 2 ("usage: grep pattern [file ...]" +:+ nl) []; exit 1
  end.

(** ** What the loop prints *)

Definition unlines (ls : list (list Z)) : list Z := concat ((fun l => l ++ [10]) <$> ls).

Lemma unlines_cons l ls : unlines (l :: ls) = l ++ 10 :: unlines ls.
Proof. unfold unlines. cbn. by rewrite <- app_assoc. Qed.

Lemma unlines_app ls ls' : unlines (ls ++ ls') = unlines ls ++ unlines ls'.
Proof. unfold unlines. by rewrite fmap_app, concat_app. Qed.

(** Neither a newline nor a NUL, and short enough for the buffer. *)
Definition good_line (l : list Z) : Prop := (10 ∉ l) /\ (0 ∉ l) /\ (length l < 1023)%nat.

Lemma first_newline (l t : list Z) : 10 ∉ l -> 0 ∉ l -> strchr (l ++ 10 :: t) 10 = Some (Some (length l)).
Proof.
  induction l as [|x l IH]; intros H1 H2; cbn; [done|]. rewrite elem_of_cons in H1, H2.
  destruct (Z.eqb_spec x 0); [naive_solver|]. destruct (Z.eqb_spec x 10); [naive_solver|].
  rewrite IH by naive_solver. done.
Qed.

Lemma no_newline (l : list Z) : 10 ∉ l -> strchr (l ++ [0]) 10 = Some None.
Proof.
  induction l as [|x l IH]; intros H; cbn; [done|]. rewrite elem_of_cons in H.
  destruct (Z.eqb_spec x 0); [done|]. destruct (Z.eqb_spec x 10); [naive_solver|].
  rewrite IH by naive_solver. done.
Qed.

(** A buffer that is a prefix of a text either has the whole first line or no newline. *)
Lemma prefix_lines p rest ls tail :
  p ++ rest = unlines ls ++ tail -> Forall (fun l => 10 ∉ l) ls -> 10 ∉ tail ->
  (10 ∉ p) \/ (exists l ls' p', ls = l :: ls' /\ p = l ++ (10 :: p') /\ p' ++ rest = unlines ls' ++ tail).
Proof.
  destruct ls as [|l ls]; intros E Hl Ht.
  - left. cbn in E. intros Hp. apply Ht. rewrite <- E. apply elem_of_app. by left.
  - apply Forall_cons in Hl as [Hl Hls]. rewrite unlines_cons, <- app_assoc in E. cbn in E.
    apply app_eq_inv in E as [(k & -> & E2)|(k & -> & E2)].
    + destruct k as [|x k]; cbn in E2.
      * left. by rewrite app_nil_r.
      * injection E2 as <- E2. right. by exists l, ls, k.
    + left. intros Hp. apply Hl, elem_of_app. by left.
Qed.

Section Loop.
Context {St : Type} {kernel : call -> St -> answer * St} {input output : St -> Z -> list Z} `{!Stdio kernel input output}.
Variable pattern : list Z.

Definition selected (ls : list (list Z)) : list Z := unlines (filter (fun l => match_re pattern l = true) ls).

Lemma selected_cons l ls :
  selected (l :: ls) = (if match_re pattern l then l ++ [10] else []) ++ selected ls.
Proof.
  unfold selected. rewrite filter_cons. destruct (match_re pattern l).
  - rewrite decide_True by done. rewrite unlines_cons, <- app_assoc. done.
  - by rewrite decide_False.
Qed.

(** The lines of the buffer are printed, and what follows the last newline is kept. *)
Lemma lines_loop_spec k : forall p rest ls tail s,
  (length p < k)%nat -> p ++ rest = unlines ls ++ tail -> Forall good_line ls -> 10 ∉ tail ->
  exists ls1 ls2 b s', run kernel (lines_loop k pattern p) s = (Returned b, s') /\
    ls = ls1 ++ ls2 /\ b ++ rest = unlines ls2 ++ tail /\ (10 ∉ b) /\ wrote (input := input) (output := output) 1 (selected ls1) s s'.
Proof.
  induction k as [|k IH]; intros p rest ls tail s Hk E Hls Ht; [lia|].
  assert (Forall (fun l => 10 ∉ l) ls) as Hn by (eapply Forall_impl; [done|]; by intros l [? _]).
  destruct (prefix_lines p rest ls tail E Hn Ht) as [Hp|(l & ls' & p' & -> & -> & E')].
  - exists [], ls, p, s. cbn [lines_loop]. rewrite no_newline by done.
    split; [done|]. split; [done|]. split; [done|]. split; [done|]. apply wrote_nil.
  - apply Forall_cons in Hls as [(Hl & H0 & Hlen) Hls]. cbn [lines_loop]. rewrite <- app_assoc. cbn [app].
    rewrite first_newline by done. rewrite take_app_length.
    replace (take (S (length l)) (l ++ 10 :: p')) with (l ++ [10])
      by (rewrite (cons_middle 10 l p'), app_assoc, take_app_length'; [done|rewrite length_app; cbn; lia]).
    replace (drop (S (length l)) (l ++ 10 :: p')) with p'
      by (rewrite (cons_middle 10 l p'), app_assoc, drop_app_length'; [done|rewrite length_app; cbn; lia]).
    assert (writes (kernel := kernel) (input := input) (output := output) 1 (if match_re pattern l then l ++ [10] else [])
              (if match_re pattern l then _ ← sys (Write 1 (l ++ [10])); mret tt else mret tt)) as Hw
      by (destruct (match_re pattern l); [apply writes_sys|apply writes_ret]).
    destruct (Hw s) as (s1 & E1 & W1). rewrite (run_returned _ _ _ _ _ _ E1).
    destruct (IH p' rest ls' tail s1) as (ls1 & ls2 & b & s2 & E2 & -> & Hb & Hnb & W2);
      [rewrite length_app in Hk; cbn in Hk; lia|done..|].
    exists (l :: ls1), ls2, b, s2. split; [done|]. split; [done|]. split; [done|]. split; [done|].
    rewrite selected_cons. by eapply wrote_trans.
Qed.

(** What is kept is a prefix of a line, so that there is room to read more. *)
Lemma kept_short b rest ls tail :
  b ++ rest = unlines ls ++ tail -> 10 ∉ b -> Forall good_line ls -> good_line tail -> (length b < 1023)%nat.
Proof.
  intros E Hb Hls (_ & _ & Ht). destruct ls as [|l ls].
  - apply (f_equal length) in E. rewrite length_app in E. cbn in E. lia.
  - apply Forall_cons in Hls as [(_ & _ & Hl) _]. rewrite unlines_cons, <- app_assoc in E.
    apply app_eq_inv in E as [(k & -> & E2)|(k & -> & E2)]; [|rewrite length_app in Hl; lia].
    destruct k as [|x k]; [by rewrite app_nil_r|]. injection E2 as <- _. exfalso. apply Hb.
    apply elem_of_app. right. by left.
Qed.

Lemma unlines_no_newline ls tail : 10 ∉ unlines ls ++ tail -> ls = [].
Proof.
  destruct ls as [|l ls]; [done|]. intros []. rewrite unlines_cons. apply elem_of_app. left.
  apply elem_of_app. right. by left.
Qed.

Lemma grep_loop_spec k : forall fd b ls tail s,
  b ++ input s fd = unlines ls ++ tail -> 10 ∉ b -> Forall good_line ls -> good_line tail ->
  (length (input s fd) < k)%nat ->
  exists s', run kernel (grep_loop k pattern fd b) s = (Returned tt, s') /\ output s' 1 = output s 1 ++ selected ls.
Proof.
  induction k as [|k IH]; intros fd b ls tail s E Hb Hls Ht Hk; [lia|].
  pose proof (kept_short _ _ _ _ E Hb Hls Ht) as Hlen. cbn [grep_loop].
  rewrite s32_small by (unfold bufsize; lia).
  destruct (read_some kernel s fd (Z.of_nat bufsize - Z.of_nat (length b) - 1)) as (l & s1 & E1 & Hin & Hl & He & _ & Ho);
    [unfold bufsize; lia|].
  cbn -[Nat.leb lines_loop bufsize]. rewrite E1. cbn -[Nat.leb lines_loop bufsize]. destruct (Z.ltb_spec 0 (Z.of_nat (length l))) as [Hpos|Hz].
  2: { assert (l = []) as -> by (by apply length_zero_iff_nil; lia). exists s1. split; [done|].
       rewrite (He eq_refl), app_nil_r in E. rewrite E in Hb. apply unlines_no_newline in Hb as ->.
       rewrite Ho. unfold selected. cbn. by rewrite app_nil_r. }
  rewrite Nat2Z.id, firstn_all.
  assert (length (b ++ l) < bufsize)%nat as Hfit by (rewrite length_app; unfold bufsize in *; lia).
  rewrite (proj2 (Nat.leb_gt _ _)) by done.
  rewrite Hin, app_assoc in E.
  destruct (lines_loop_spec (S (length (b ++ l))) (b ++ l) (input s1 fd) ls tail s1)
    as (ls1 & ls2 & b' & s2 & E2 & -> & E3 & Hb' & W1 & W2 & W3); [lia|done|done|apply Ht|].
  rewrite (run_returned _ _ _ _ _ _ E2). apply Forall_app in Hls as [_ Hls]. rewrite <- W3 in E3.
  destruct (IH fd b' ls2 tail s2 E3 Hb' Hls Ht) as (s3 & E4 & Ho3).
  { rewrite W3. rewrite Hin, length_app in Hk. lia. }
  exists s3. split; [done|]. rewrite Ho3, W1, Ho, <- app_assoc. f_equal.
  unfold selected. by rewrite filter_app, unlines_app.
Qed.
End Loop.

(** C31: grep reads a stream to its end and prints the lines of it that match, each once and
    in order, whatever the sizes of the pieces that [read] returns, if no line has 1023
    characters or a NUL; the characters after the last newline are not searched. *)
Theorem grep_prints {St} (kernel : call -> St -> answer * St) input output `{!Stdio kernel input output}
    pattern fd ls tail s k :
  input s fd = unlines ls ++ tail -> Forall good_line ls -> good_line tail -> (length (input s fd) < k)%nat ->
  exists s', run kernel (grep k pattern fd) s = (Returned tt, s') /\
    output s' 1 = output s 1 ++ unlines (filter (fun l => match_re pattern l = true) ls).
Proof. intros E Hls Ht Hk. eapply grep_loop_spec; try done. set_solver. Qed.

(** Two lines of three match; the last one is not searched. *)
Lemma grep_prints_witness :
  exists s', run demo_kernel_calls (grep 100 (lit "a.*c$") 0)
               (demo_input ("abc" +:+ nl +:+ "acd" +:+ nl +:+ "xaxcc" +:+ nl +:+ "abc") 1) = (Returned tt, s') /\
    written s' 1 = [] ++ unlines [lit "abc"; lit "xaxcc"].
Proof.
  apply (grep_prints demo_kernel_calls files written (Stdio0 := demo_stdio) (lit "a.*c$") 0
           [lit "abc"; lit "acd"; lit "xaxcc"] (lit "abc")); [reflexivity| | |vm_compute; lia];
    repeat constructor; first [by apply (bool_decide_unpack _)|vm_compute; lia].
Defined.

(** A line that fills the buffer ends the search, without a word: the next read has no
    room.  The second line matches and is not printed. *)
Lemma grep_long_line :
  let r := run demo_kernel_calls (grep 100 (lit "b") 0)
             (MkStreams 2000 (upd_stream (fun _ => []) 0 (unlines [replicate 1023 97; lit "b"])) (fun _ => [])) in
  r.1 = Returned tt /\ written r.2 1 = [].
Proof. vm_compute. by split. Qed.
