(* ===== verification/Uprogs.v ===== *)
(** * The small user programs

    [cat], [echo], [wc], [kill], [ln], [mkdir], [rm] and [ls], each the tree of its
    system calls.  Arguments are strings without their terminator.  The filters are
    shown to copy and to count what they read, whatever the sizes of the reads. *)

From stdpp Require Import gmap strings list.
From S2P Require Import Prelude Layout User Ulib Uprintf.

(** The value of a library routine on a string, which ends. *)
Definition deref_str {A} (o : option A) : prog A :=
  match o with Some a => mret a | None => Undef "past the end" end.

Definition arg_atoi (s : list Z) : prog Z := deref_str (atoi (s ++ [0])).

(** The first character of a string. *)
Definition char0 (s : list Z) : Z := default 0 (head s).

(** ** cat *)

Fixpoint cat (k : nat) (fd : Z) : prog unit :=
  match k with
  | O => Unfinished
  | S k =>
      x ← sys_data (Read fd 512);
      let '(n, buf) := x in
      if 0 <? n then
        w ← sys (Write 1 (take (Z.to_nat n) buf));
        if negb (w =? n) then _ ← fprintf 2 ("cat: write error" +:+ nl) []; exit 1
        else cat k fd
      else if n <? 0 then _ ← fprintf 2 ("cat: read error" +:+ nl) []; exit 1
      else mret tt
  end.

Fixpoint cat_files (k : nat) (argv : list (list Z)) : prog unit :=
  match argv with
  | [] => exit 0
  | f :: argv =>
      fd ← sys (Open f 0);
      if fd <? 0 then _ ← fprintf 2 ("cat: cannot open %s" +:+ nl) [AStr (Some f)]; exit 1
      else _ ← cat k fd; _ ← sys (Close fd); cat_files k argv
  end.

Definition cat_main (k : nat) (argv : list (list Z)) : prog unit :=
  if (length argv <=? 1)%nat then _ ← cat k 0; exit 0 else cat_files k (tail argv).

(** ** echo *)

Fixpoint echo_loop (args : list (list Z)) : prog unit :=
  match args with
  | [] => exit 0
  | a :: args =>
      _ ← sys (Write 1 a);
      _ ← (if (0 <? length args)%nat then sys (Write 1 [32]) else sys (Write 1 [10]));
      echo_loop args
  end.

Definition echo_main (argv : list (list Z)) : prog unit := echo_loop (tail argv).

(** ** wc *)

Record counts : Type := MkCounts { wc_l : Z; wc_w : Z; wc_c : Z; inword : bool }.

Definition wc_spaces : list Z := [32; 13; 9; 10; 11].

(** The body of the loop over the buffer. *)
Definition wc_char (t : counts) (b : Z) : counts :=
  let c := s32 (wc_c t + 1) in
  let l := if b =? 10 then s32 (wc_l t + 1) else wc_l t in
  match strchr (wc_spaces ++ [0]) b with
  | Some (Some _) => MkCounts l (wc_w t) c false
  | _ => if negb (inword t) then MkCounts l (s32 (wc_w t + 1)) c true else MkCounts l (wc_w t) c (inword t)
  end.

Fixpoint wc_loop (k : nat) (fd : Z) (t : counts) : prog counts :=
  match k with
  | O => Unfinished
  | S k =>
      x ← sys_data (Read fd 512);
      let '(n, buf) := x in
      if 0 <? n then wc_loop k fd (foldl wc_char t (take (Z.to_nat n) buf))
      else if n <? 0 then _ ← printf ("wc: read error" +:+ nl) []; exit 1
      else mret t
  end.

Definition wc (k : nat) (fd : Z) (name : list Z) : prog unit :=
  t ← wc_loop k fd (MkCounts 0 0 0 false);
  printf ("%d %d %d %s" +:+ nl) [AInt (wc_l t); AInt (wc_w t); AInt (wc_c t); AStr (Some name)].

Fixpoint wc_files (k : nat) (argv : list (list Z)) : prog unit :=
  match argv with
  | [] => exit 0
  | f :: argv =>
      fd ← sys (Open f 0);
      if fd <? 0 then _ ← printf ("wc: cannot open %s" +:+ nl) [AStr (Some f)]; exit 1
      else _ ← wc k fd f; _ ← sys (Close fd); wc_files k argv
  end.

Definition wc_main (k : nat) (argv : list (list Z)) : prog unit :=
  if (length argv <=? 1)%nat then _ ← wc k 0 []; exit 0 else wc_files k (tail argv).

(** ** kill, ln, mkdir, rm *)

Definition kill_main (argv : list (list Z)) : prog unit :=
  if (length argv <? 2)%nat then _ ← fprintf 2 ("usage: kill pid..." +:+ nl) []; exit 1
  else _ ← for_all (tail argv) (fun a => pid ← arg_atoi a; _ ← sys (Kill pid); mret tt); exit 0.

Definition ln_main (argv : list (list Z)) : prog unit :=
  match argv with
  | [_; old; new] =>
      r ← sys (Link old new);
      _ ← (if r <? 0 then fprintf 2 ("link %s %s: failed" +:+ nl) [AStr (Some old); AStr (Some new)] else mret tt);
      exit 0
  | _ => _ ← fprintf 2 ("Usage: ln old new" +:+ nl) []; exit 1
  end.

Fixpoint mkdir_loop (args : list (list Z)) : prog unit :=
  match args with
  | [] => exit 0
  | a :: args =>
      r ← sys (Mkdir a);
      if r <? 0 then _ ← fprintf 2 ("mkdir: %s failed to create" +:+ nl) [AStr (Some a)]; exit 0
      else mkdir_loop args
  end.

Definition mkdir_main (argv : list (list Z)) : prog unit :=
  if (length argv <? 2)%nat then _ ← fprintf 2 ("Usage: mkdir files..." +:+ nl) []; exit 1
  else mkdir_loop (tail argv).

Fixpoint rm_loop (args : list (list Z)) : prog unit :=
  match args with
  | [] => exit 0
  | a :: args =>
      r ← sys (Unlink a);
      if r <? 0 then _ ← fprintf 2 ("rm: %s failed to delete" +:+ nl) [AStr (Some a)]; exit 0
      else rm_loop args
  end.

Definition rm_main (argv : list (list Z)) : prog unit :=
  if (length argv <? 2)%nat then _ ← fprintf 2 ("Usage: rm files..." +:+ nl) []; exit 1
  else rm_loop (tail argv).

(** ** ls *)

(** The loop that looks for the last slash, from index [k] down. *)
Fixpoint after_slash (path : list Z) (k : nat) : nat :=
  match k with
  | O => 0
  | S k' => if default 0 (path !! k') =? 47 then k else after_slash path k'
  end.

Definition fmtname (path : list Z) : list Z :=
  let p := drop (after_slash path (length path)) path in
  if Z.of_nat (length p) >=? DIRSIZ then p else p ++ replicate (Z.to_nat DIRSIZ - length p) 32.

(** The fields of a [struct stat]. *)
Definition stat_ino (st : list Z) : Z := le_val (take 4 (drop 4 st)).
Definition stat_type (st : list Z) : Z := s16 (le_val (take 2 (drop 8 st))).
Definition stat_size (st : list Z) : Z := le_val (take 8 (drop 16 st)).

Fixpoint ls_loop (k : nat) (fd : Z) (path : list Z) : prog unit :=
  match k with
  | O => Unfinished
  | S k =>
      x ← sys_data (Read fd 16);
      let '(n, de) := x in
      if n =? 16 then
        if le_val (take 2 de) =? 0 then ls_loop k fd path
        else
          let buf := path ++ 47 :: cstr (take 14 (drop 2 de)) in
          y ← stat buf;
          let '(r, st) := y in
          _ ← (if r <? 0 then printf ("ls: cannot stat %s" +:+ nl) [AStr (Some buf)]
               else printf ("%s %d %d %d" +:+ nl)
                      [AStr (Some (fmtname buf)); AInt (stat_type st); AInt (stat_ino st); ALong (stat_size st)]);
          ls_loop k fd path
      else mret tt
  end.

Definition ls (k : nat) (path : list Z) : prog unit :=
  fd ← sys (Open path 0);
  if fd <? 0 then fprintf 2 ("ls: cannot open %s" +:+ nl) [AStr (Some path)]
  else
    x ← sys_data (Fstat fd);
    let '(r, st) := x in
    if r <? 0 then
      _ ← fprintf 2 ("ls: cannot stat %s" +:+ nl) [AStr (Some path)];
      _ ← sys (Close fd); mret tt
    else
      _ ← (if stat_type st =? T_FILE then
             printf ("%s %d %d %l" +:+ nl)
               [AStr (Some (fmtname path)); AInt (stat_type st); AInt (stat_ino st); ALong (stat_size st)]
           else if stat_type st =? T_DIR then
             if Z.of_nat (length path) + 1 + DIRSIZ + 1 >? 512 then printf ("ls: path too long" +:+ nl) []
             else ls_loop k fd path
           else mret tt);
      _ ← sys (Close fd); mret tt.

Definition ls_main (k : nat) (argv : list (list Z)) : prog unit :=
  _ ← (if (length argv <? 2)%nat then ls k (lit ".") else for_all (tail argv) (ls k));
  exit 0.

(** ** Names *)

(** [fmtname] is what follows the last slash, with blanks up to the length of a name. *)
Lemma after_slash_app path k n :
  (forall i, (k <= i < k + n)%nat -> path !! i <> Some 47) -> (k = 0%nat \/ path !! (k - 1)%nat = Some 47) ->
  (k + n <= length path)%nat -> after_slash path (k + n) = k.
Proof.
  intros Hn Hk Hlen. induction n as [|n IH].
  - rewrite Nat.add_0_r. destruct k as [|k]; [done|]. destruct Hk as [|Hk]; [done|]. cbn in *.
    rewrite Nat.sub_0_r in Hk. by rewrite Hk.
  - rewrite <- plus_n_Sm. cbn [after_slash]. destruct (lookup_lt_is_Some_2 path (k + n)) as [c Hc]; [lia|].
    rewrite Hc. cbn. destruct (Z.eqb_spec c 47) as [->|]; [by destruct (Hn (k + n)%nat); [lia|]|].
    apply IH; [|lia]. intros i Hi. apply Hn. lia.
Qed.

Lemma fmtname_last dir name : 47 ∉ name ->
  fmtname (dir ++ 47 :: name) = name ++ replicate (14 - length name) 32.
Proof.
  intros Hn. unfold fmtname.
  assert (after_slash (dir ++ 47 :: name) (length (dir ++ 47 :: name)) = S (length dir)) as ->.
  { rewrite length_app. cbn [length]. replace (length dir + S (length name))%nat with (S (length dir) + length name)%nat by lia.
    apply after_slash_app; [|right|rewrite length_app; cbn; lia].
    - intros i Hi Hl. rewrite lookup_app_r in Hl by lia. replace (i - length dir)%nat with (S (i - S (length dir))) in Hl by lia.
      apply Hn. by eapply list_elem_of_lookup_2.
    - rewrite Nat.sub_succ, Nat.sub_0_r. by rewrite list_lookup_middle. }
  rewrite (cons_middle 47 dir name), app_assoc, drop_app_length' by (rewrite length_app; cbn; lia).
  destruct (Z.geb_spec (Z.of_nat (length name)) DIRSIZ); [|done].
  replace (14 - length name)%nat with 0%nat by lia. by rewrite app_nil_r.
Qed.

(** ** What the filters write *)

(** The reference counts: newlines, characters, and characters of words that follow a
    space or the start. *)
Definition is_space (b : Z) : bool := bool_decide (b ∈ wc_spaces).

Definition line_count (l : list Z) : Z := Z.of_nat (length (filter (fun b => b = 10) l)).

Fixpoint word_starts (prev_space : bool) (l : list Z) : Z :=
  match l with
  | [] => 0
  | b :: l => (if prev_space && negb (is_space b) then 1 else 0) + word_starts (is_space b) l
  end.

Definition word_count (l : list Z) : Z := word_starts true l.

Lemma wc_space b : match strchr (wc_spaces ++ [0]) b with Some (Some _) => true | _ => false end = is_space b.
Proof.
  unfold is_space. destruct (decide (b = 0)) as [->|Hb]; [done|].
  destruct (strchr_mem wc_spaces b) as (o & -> & Ho); [by apply (bool_decide_unpack _)|done|].
  destruct o; cbn; symmetry; [apply bool_decide_eq_true_2|apply bool_decide_eq_false_2]; rewrite <- Ho;
    [by eexists|by intros []].
Qed.

Lemma wc_char_spec l w c inw b :
  wc_char (MkCounts l w c inw) b =
  MkCounts (if b =? 10 then s32 (l + 1) else l) (if negb inw && negb (is_space b) then s32 (w + 1) else w)
    (s32 (c + 1)) (negb (is_space b)).
Proof.
  unfold wc_char. rewrite <- wc_space. cbn [wc_l wc_w wc_c inword]. by destruct (strchr _ b) as [[]|], inw.
Qed.

Lemma line_count_cons b l : line_count (b :: l) = (if b =? 10 then 1 else 0) + line_count l.
Proof.
  unfold line_count. rewrite filter_cons. destruct (Z.eqb_spec b 10).
  - rewrite decide_True by done. cbn [length]. lia.
  - by rewrite decide_False.
Qed.

Lemma word_starts_bound p l : 0 <= word_starts p l <= Z.of_nat (length l).
Proof.
  revert p. induction l as [|b l IH]; intros p; cbn [word_starts length]; [lia|]. specialize (IH (is_space b)).
  destruct (_ && _); lia.
Qed.

(** The loop over the buffers counts as the reference does. *)
Lemma wc_fold l : forall nls nw nc inw,
  0 <= nls <= nc -> 0 <= nw <= nc -> 0 <= nc -> nc + Z.of_nat (length l) < 2 ^ 31 ->
  foldl wc_char (MkCounts nls nw nc inw) l =
  MkCounts (nls + line_count l) (nw + word_starts (negb inw) l) (nc + Z.of_nat (length l))
    (match last l with Some b => negb (is_space b) | None => inw end).
Proof.
  induction l as [|b l IH]; intros nls nw nc inw H1 H2 H3 H4; [unfold line_count; rewrite filter_nil; cbn [foldl length word_starts last]; f_equal; lia|].
  cbn [foldl]. rewrite wc_char_spec. cbn [length] in H4.
  assert ((if b =? 10 then s32 (nls + 1) else nls) = nls + (if b =? 10 then 1 else 0)) as ->
    by (destruct (b =? 10); [rewrite s32_small|]; lia).
  assert ((if negb inw && negb (is_space b) then s32 (nw + 1) else nw) =
          nw + (if negb inw && negb (is_space b) then 1 else 0)) as -> by (destruct (_ && _); [rewrite s32_small|]; lia).
  rewrite s32_small by lia. rewrite IH; [|destruct (b =? 10); lia|destruct (_ && _); lia|lia|lia].
  rewrite negb_involutive, line_count_cons. cbn [word_starts length]. f_equal; [lia|lia|lia|].
  rewrite last_cons. by destruct (last l).
Qed.

Section Filters.
Context {St : Type} {kernel : call -> St -> answer * St} {input output : St -> Z -> list Z} `{!Stdio kernel input output}.

Lemma cat_spec k : forall fd s, (length (input s fd) < k)%nat ->
  exists s', run kernel (cat k fd) s = (Returned tt, s') /\ output s' 1 = output s 1 ++ input s fd /\ input s' fd = [].
Proof.
  induction k as [|k IH]; intros fd s Hk; [lia|].
  destruct (read_some kernel s fd 512) as (l & s1 & E1 & Hin & Hl & He & _ & Ho); [lia|].
  cbn -[fprintf]. rewrite E1. cbn -[fprintf]. destruct (Z.ltb_spec 0 (Z.of_nat (length l))) as [Hpos|Hz].
  - rewrite Nat2Z.id, firstn_all. destruct (write_all kernel s1 1 l) as (s2 & E2 & Ho2 & _ & Hi2).
    cbn -[fprintf]. rewrite E2. cbn -[fprintf]. rewrite Z.eqb_refl. cbn -[fprintf].
    destruct (IH fd s2) as (s3 & E3 & Ho3 & Hi3); [rewrite Hi2, Hin, length_app in *; lia|].
    exists s3. split; [done|]. split; [|done]. by rewrite Ho3, Ho2, Hi2, Ho, Hin, app_assoc.
  - rewrite (proj2 (Z.ltb_ge _ 0)) by lia. exists s1. split; [done|].
    assert (l = []) as -> by (apply length_zero_iff_nil; lia). rewrite (He eq_refl) in *. rewrite Ho, app_nil_r.
    by split.
Qed.

Lemma wc_loop_spec k : forall fd t s, (length (input s fd) < k)%nat ->
  exists s', run kernel (wc_loop k fd t) s = (Returned (foldl wc_char t (input s fd)), s') /\ output s' = output s.
Proof.
  induction k as [|k IH]; intros fd t s Hk; [lia|].
  destruct (read_some kernel s fd 512) as (l & s1 & E1 & Hin & Hl & He & _ & Ho); [lia|].
  cbn -[printf]. rewrite E1. cbn -[printf]. destruct (Z.ltb_spec 0 (Z.of_nat (length l))) as [Hpos|Hz].
  - rewrite Nat2Z.id, firstn_all.
    destruct (IH fd (foldl wc_char t l) s1) as (s3 & E3 & Ho3); [rewrite Hin, length_app in Hk; lia|].
    exists s3. rewrite E3, Hin, foldl_app, Ho3. by split.
  - rewrite (proj2 (Z.ltb_ge _ 0)) by lia. exists s1. split; [|done].
    assert (l = []) as -> by (apply length_zero_iff_nil; lia). by rewrite (He eq_refl).
Qed.
End Filters.

(** Wc reads a stream of less than 2^31 bytes to its end and prints the numbers of its
    newlines, of its words and of its characters, and the name, whatever the sizes of the pieces
    that [read] returns, also where a word is cut by a read. *)
Theorem wc_counts {St} (kernel : call -> St -> answer * St) input output `{!Stdio kernel input output} fd name s k :
  Z.of_nat (length (input s fd)) < 2 ^ 31 -> (length (input s fd) < k)%nat ->
  let text := input s fd in
  exists s', run kernel (wc k fd name) s = (Returned tt, s') /\
    output s' 1 = output s 1 ++
      reverse (int_buf (line_count text) 10 true) ++ [32] ++ reverse (int_buf (word_count text) 10 true) ++ [32] ++
      reverse (int_buf (Z.of_nat (length text)) 10 true) ++ [32] ++ (u8 <$> name) ++ [10].
Proof.
  intros Hlt Hk text. unfold wc.
  destruct (wc_loop_spec k fd (MkCounts 0 0 0 false) s Hk) as (s1 & E1 & Ho1).
  rewrite (run_returned _ _ _ _ _ _ E1). rewrite wc_fold by lia.
  cbn [wc_l wc_w wc_c]. rewrite !Z.add_0_l.
  edestruct (writes_vprintf_loop (kernel := kernel) 1) as (s2 & E2 & W & _); [|exists s2; split; [exact E2|]].
  - reflexivity.
  - rewrite W, Ho1. done.
Qed.
