(* ===== verification/Uproc.v ===== *)
(** * User programs about processes

    [strace], [setpriority], [time], [zombie], [init], [forktest], [stressfs] and
    [schedulertest], as trees of system calls: a [fork] goes on as the child where the
    answer is 0, and [exec] answers only when it fails.  Busy loops are left out. *)

From stdpp Require Import gmap strings list.
From S2P Require Import Prelude Layout State User Ulib Uprintf Uprogs.

Definition strace_main (argv : list (list Z)) : prog unit :=
  match argv with
  | _ :: mask :: cmd :: args =>
      if negb (is_digit (char0 mask))
      then _ ← fprintf 2 "strace: incorrect usage, use as: strace [mask] [command]" []; exit 1
      else
        m ← arg_atoi mask;
        _ ← sys (Strace m);
        _ ← sys (Exec cmd (cmd :: args));
        exit 0
  | _ => _ ← fprintf 2 "strace: incorrect usage, use as: strace [mask] [command]" []; exit 1
  end.

Definition setpriority_usage : prog unit :=
  _ ← fprintf 2 ("setpriority: incorrect usage, use as: setpriority [priority] [pid]" +:+ nl) []; exit 1.

Definition setpriority_main (argv : list (list Z)) : prog unit :=
  match argv with
  | _ :: priority :: pid :: _ =>
      if negb (is_digit (char0 priority)) || negb (is_digit (char0 pid)) then setpriority_usage
      else
        a ← arg_atoi priority;
        b ← arg_atoi pid;
        _ ← sys (Set_priority a b);
        exit 0
  | _ => setpriority_usage
  end.

(** The two [int]s that [waitx] stored through its second and third arguments. *)
Definition waitx : prog (Z * Z * Z) :=
  x ← sys_data Waitx;
  match x with
  | (ret, [t1; t2]) => mret (ret, t1, t2)
  | _ => Undef "waitx"
  end.

Definition time_main (argv : list (list Z)) : prog unit :=
  pid ← sys Fork;
  if pid <? 0 then _ ← printf ("fork(): failed" +:+ nl) []; exit 1
  else if pid =? 0 then
    match argv with
    | [] | [_] => _ ← sys (Sleep 10); exit 0
    | _ :: cmd :: args =>
        _ ← sys (Exec cmd (cmd :: args));
        _ ← printf ("exec(): failed" +:+ nl) [];
        exit 1
    end
  else
    x ← waitx;
    let '(_, wtime, rtime) := x in
    _ ← printf (nl +:+ "waiting:%d" +:+ nl +:+ "running:%d" +:+ nl) [AInt wtime; AInt rtime];
    exit 0.

Definition zombie_main : prog unit :=
  pid ← sys Fork;
  _ ← (if 0 <? pid then _ ← sys (Sleep 5); mret tt else mret tt);
  exit 0.

(** ** init *)

Definition esc : string := String (Ascii.ascii_of_nat 27) EmptyString.

Definition banner : string := esc +:+ "[32;1m
    
 ▄         ▄  ▄▄▄▄▄▄▄▄▄▄▄  ▄       ▄  ▄               ▄  ▄▄▄▄▄▄▄▄▄▄▄ 
▐░▌       ▐░▌▐░░░░░░░░░░░▌▐░▌     ▐░▌▐░▌             ▐░▌▐░░░░░░░░░░░▌
▐░▌       ▐░▌▐░█▀▀▀▀▀▀▀▀▀  ▐░▌   ▐░▌  ▐░▌           ▐░▌ ▐░█▀▀▀▀▀▀▀▀▀ 
▐░▌       ▐░▌▐░▌            ▐░▌ ▐░▌    ▐░▌         ▐░▌  ▐░▌          
▐░█▄▄▄▄▄▄▄█░▌▐░█▄▄▄▄▄▄▄▄▄    ▐░▐░▌      ▐░▌       ▐░▌   ▐░█▄▄▄▄▄▄▄▄▄ 
▐░░░░░░░░░░░▌▐░░░░░░░░░░░▌    ▐░▌        ▐░▌     ▐░▌    ▐░░░░░░░░░░░▌
▐░█▀▀▀▀▀▀▀█░▌▐░█▀▀▀▀▀▀▀▀▀    ▐░▌░▌        ▐░▌   ▐░▌     ▐░█▀▀▀▀▀▀▀█░▌
▐░▌       ▐░▌▐░▌            ▐░▌ ▐░▌        ▐░▌ ▐░▌      ▐░▌       ▐░▌
▐░▌       ▐░▌▐░█▄▄▄▄▄▄▄▄▄  ▐░▌   ▐░▌        ▐░▐░▌       ▐░█▄▄▄▄▄▄▄█░▌
▐░▌       ▐░▌▐░░░░░░░░░░░▌▐░▌     ▐░▌        ▐░▌        ▐░░░░░░░░░░░▌
 ▀         ▀  ▀▀▀▀▀▀▀▀▀▀▀  ▀       ▀          ▀          ▀▀▀▀▀▀▀▀▀▀▀ 
  
  
  Weclome to Hrishi's Extension of XV6
  © Hrishi Narayanan 2021
  " +:+ esc +:+ "[0;0m" +:+ nl.

Definition policy_line (pol : policy) : string :=
  esc +:+ "[31;1mScheduling Policy: " +:+
  match pol with
  | DEFAULT => "Round Robin (DEFAULT)"
  | FCFS => "First Come First Serve (FCFS)"
  | PBS => "Priority Based Scheduling (PBS)"
  | MLFQ => "Multi-Level Feedback Queue (MLFQ)"
  end +:+ esc +:+ "[0;0m" +:+ nl +:+ nl.

(** Wait for the shell [pid], and for the orphans that end before it. *)
Fixpoint init_wait (k : nat) (pid : Z) : prog unit :=
  match k with
  | O => Unfinished
  | S k =>
      wpid ← sys Wait;
      if wpid =? pid then mret tt
      else if wpid <? 0 then _ ← printf ("init: wait returned an error" +:+ nl) []; exit 1
      else init_wait k pid
  end.

Fixpoint init_loop (k : nat) (pol : policy) : prog unit :=
  match k with
  | O => Unfinished
  | S k =>
      _ ← printf ("init: starting sh" +:+ nl) [];
      _ ← printf (esc +:+ "[1;1H" +:+ esc +:+ "[2J") [];
      _ ← printf banner [];
      _ ← printf (policy_line pol) [];
      pid ← sys Fork;
      if pid <? 0 then _ ← printf ("init: fork failed" +:+ nl) []; exit 1
      else if pid =? 0 then
        _ ← sys (Exec (lit "sh") [lit "sh"]);
        _ ← printf ("init: exec sh failed" +:+ nl) [];
        exit 1
      else _ ← init_wait k pid; init_loop k pol
  end.

Definition init_main (k : nat) (pol : policy) : prog unit :=
  fd ← sys (Open (lit "console") O_RDWR);
  _ ← (if fd <? 0 then
         _ ← sys (Mknod (lit "console") 1 0);
         _ ← sys (Open (lit "console") O_RDWR); mret tt
       else mret tt);
  _ ← sys (Dup 0);
  _ ← sys (Dup 0);
  init_loop k pol.

(** ** forktest *)

Definition print (s : list Z) : prog unit := _ ← sys (Write 1 s); mret tt.

(** The number of children, at most [k]. *)
Fixpoint fork_loop (k : nat) (n : nat) : prog nat :=
  match k with
  | O => mret n
  | S k =>
      pid ← sys Fork;
      if pid <? 0 then mret n
      else if pid =? 0 then exit 0
      else fork_loop k (S n)
  end.

Fixpoint reap_loop (n : nat) : prog unit :=
  match n with
  | O => mret tt
  | S n =>
      r ← sys Wait;
      if r <? 0 then _ ← print (lit ("wait stopped early" +:+ nl)); exit 1 else reap_loop n
  end.

Definition forktest : prog unit :=
  _ ← print (lit ("fork test" +:+ nl));
  n ← fork_loop 1000 0;
  if (n =? 1000)%nat then _ ← print (lit ("fork claimed to work N times!" +:+ nl)); exit 1
  else
    _ ← reap_loop n;
    r ← sys Wait;
    if negb (r =? -1) then _ ← print (lit ("wait got too many" +:+ nl)); exit 1
    else print (lit ("fork test OK" +:+ nl)).

Definition forktest_main : prog unit := _ ← forktest; exit 0.

(** ** stressfs *)

(** The number of the process among the five. *)
Fixpoint stress_fork (k : nat) (i : Z) : prog Z :=
  match k with
  | O => mret i
  | S k => pid ← sys Fork; if 0 <? pid then mret i else stress_fork k (i + 1)
  end.

Definition stressfs_main : prog unit :=
  let data := replicate 512 97 in
  _ ← printf ("stressfs starting" +:+ nl) [];
  i ← stress_fork 4 0;
  _ ← printf ("write %d" +:+ nl) [AInt i];
  let path := lit "stressfs" ++ [u8 (48 + i)] in
  fd ← sys (Open path (Z.lor O_CREATE O_RDWR));
  _ ← for_all (seq 0 20) (fun _ => _ ← sys (Write fd data); mret tt);
  _ ← sys (Close fd);
  _ ← printf ("read" +:+ nl) [];
  fd ← sys (Open path O_RDONLY);
  _ ← for_all (seq 0 20) (fun _ => _ ← sys (Read fd 512); mret tt);
  _ ← sys (Close fd);
  _ ← sys Wait;
  exit 0.

(** ** schedulertest *)

(** The loop that forks ten processes, [k] of them still to come. *)
Fixpoint sched_fork (pol : policy) (k : nat) (n : Z) : prog Z :=
  match k with
  | O => mret n
  | S k =>
      pid ← sys Fork;
      if pid <? 0 then mret n
      else if pid =? 0 then
        _ ← (if negb (bool_decide (pol = FCFS)) && (n <? 5) then _ ← sys (Sleep 200); mret tt else mret tt);
        _ ← printf ("Process %d finished" +:+ nl) [AInt n];
        exit 0
      else
        _ ← (if bool_decide (pol = PBS) then _ ← sys (Set_priority 80 pid); mret tt else mret tt);
        sched_fork pol k (n + 1)
  end.

(** [waitx(0, &rtime, &wtime)]: the sums of what it stored in the two. *)
Fixpoint sched_reap (n : nat) (trtime twtime : Z) : prog (Z * Z) :=
  match n with
  | O => mret (trtime, twtime)
  | S n =>
      x ← waitx;
      let '(r, rtime, wtime) := x in
      if 0 <=? r then sched_reap n (s32 (trtime + rtime)) (s32 (twtime + wtime)) else sched_reap n trtime twtime
  end.

Definition schedulertest_main (pol : policy) : prog unit :=
  n ← sched_fork pol 10 0;
  x ← sched_reap (Z.to_nat n) 0 0;
  let '(trtime, twtime) := x in
  _ ← printf ("Average rtime %d,  wtime %d" +:+ nl) [AInt (Z.quot trtime 10); AInt (Z.quot twtime 10)];
  exit 0.
