(* ===== verification/Umalloc.v ===== *)
(** * The user allocator

    [user/umalloc.c]: Kernighan and Ritchie's [malloc] and [free], in the bytes of the
    process.  A [Header] is 16 bytes: the pointer at offset 0, the size in units of 16
    bytes at offset 8.  An access outside the memory below the break is [UB].  What is
    shown: whatever a client does with the blocks it holds, they never overlap each
    other or the free list, and [malloc] and [free] never touch what is in them. *)

From stdpp Require Import gmap strings list.
From S2P Require Import Prelude Layout.

Record heap : Type := MkHeap { h_mem : gmap Z Z; freep : Z; h_brk : Z }.

Class Process : Type := {
  base : Z;                          (** address of the static [base] *)
  grant : heap -> Z -> bool          (** whether the kernel has memory for a larger break *)
}.

Section Code.
Context `{Process}.

(** ** Access to headers *)

Definition access (a n : Z) : M heap unit :=
  fun s => if (0 <=? a) && (a + n <=? h_brk s) then Ok tt s else UB "access".

Definition set_mem (f : gmap Z Z -> gmap Z Z) : M heap unit :=
  modify (fun s => MkHeap (f (h_mem s)) (freep s) (h_brk s)).

Definition get_ptr (p : Z) : M heap Z := access p 8 ;; gets (fun s => ld64 (h_mem s) p).
Definition get_size (p : Z) : M heap Z := access (p + 8) 4 ;; gets (fun s => ld32 (h_mem s) (p + 8)).
Definition set_ptr (p v : Z) : M heap unit := access p 8 ;; set_mem (fun m => st64 m p v).
Definition set_size (p v : Z) : M heap unit := access (p + 8) 4 ;; set_mem (fun m => st32 m (p + 8) v).
Definition set_freep (p : Z) : M heap unit := modify (fun s => MkHeap (h_mem s) p (h_brk s)).

(** Pointer arithmetic on [Header*]. *)
Definition hadd (p n : Z) : Z := u64 (p + 16 * n).

(** What [sbrk] does to a process of the size [h_brk]: [growproc] computes the new size
    as a [uint], and neither grows to a smaller size nor shrinks to a larger one. *)
Definition sbrk (n : Z) : M heap Z :=
  let! s := gets id in
  let old := h_brk s in
  let newsz := u32 (old + n) in
  if 0 <? n then
    if newsz <? old then ret old
    else if grant s n then modify (fun s => MkHeap (h_mem s) (freep s) newsz) ;; ret old
    else ret (u64 (-1))
  else if newsz >=? old then ret old
  else modify (fun s => MkHeap (h_mem s) (freep s) newsz) ;; ret old.

(** ** free *)

(** The bound on the number of free blocks that loops over the ring are given. *)
Definition ring_fuel (s : heap) : nat := Z.to_nat (h_brk s / 16) + 2.

Fixpoint free_loop (k : nat) (bp p : Z) : M heap Z :=
  match k with
  | O => no_fuel
  | S k =>
      let! q := get_ptr p in
      if (p <? bp) && (bp <? q) then ret p
      else if (q <=? p) && ((p <? bp) || (bp <? q)) then ret p
      else free_loop k bp q
  end.

(** Join [bp] to the block after it, or link it there. *)
Definition join_next (bp p : Z) : M heap unit :=
  let! n := get_size bp in
  let! q := get_ptr p in
  if hadd bp n =? q then
    let! qn := get_size q in
    set_size bp (u32 (n + qn)) ;;
    let! r := get_ptr q in
    set_ptr bp r
  else set_ptr bp q.

(** Join it to the block before. *)
Definition join_prev (bp p : Z) : M heap unit :=
  let! pn := get_size p in
  if hadd p pn =? bp then
    let! n := get_size bp in
    set_size p (u32 (pn + n)) ;;
    let! r := get_ptr bp in
    set_ptr p r
  else set_ptr p bp.

Definition free (ap : Z) : M heap unit :=
  let bp := hadd ap (-1) in
  let! s := gets id in
  let! p := free_loop (ring_fuel s) bp (freep s) in
  join_next bp p ;;
  join_prev bp p ;;
  set_freep p.

(** ** malloc *)

Definition morecore (nu : Z) : M heap Z :=
  let nu := if nu <? 4096 then 4096 else nu in
  let! p := sbrk (s32 (nu * 16)) in
  if p =? u64 (-1) then ret 0
  else
    set_size p nu ;;
    free (hadd p 1) ;;
    gets freep.

(** Take [nunits] of the block [p], which [prevp] points to. *)
Definition take_block (nunits prevp p : Z) : M heap Z :=
  let! n := get_size p in
  let! p' := (if n =? nunits then let! q := get_ptr p in set_ptr prevp q ;; ret p
              else
                set_size p (u32 (n - nunits)) ;;
                let! n := get_size p in
                let p := hadd p n in
                set_size p nunits ;; ret p) in
  set_freep prevp ;;
  ret (hadd p' 1).

Fixpoint malloc_loop (k : nat) (nunits prevp p : Z) : M heap Z :=
  match k with
  | O => no_fuel
  | S k =>
      let! n := get_size p in
      if n >=? nunits then take_block nunits prevp p
      else
        let! s := gets id in
        if p =? freep s then
          let! p := morecore nunits in
          if p =? 0 then ret 0
          else let! q := get_ptr p in malloc_loop k nunits p q
        else let! q := get_ptr p in malloc_loop k nunits p q
  end.

Definition units (nbytes : Z) : Z := u32 ((nbytes + 16 - 1) / 16 + 1).

Definition malloc (nbytes : Z) : M heap Z :=
  let! s := gets id in
  (if freep s =? 0 then set_ptr base base ;; set_freep base ;; set_size base 0 else ret tt) ;;
  let! s := gets id in
  let prevp := freep s in
  let! p := get_ptr prevp in
  malloc_loop (2 * ring_fuel s + 2) (units nbytes) prevp p.

End Code.

(** ** Lists of blocks *)

Abbreviation block := (Z * Z)%type.

Definition hd_addr (l : list block) (e : Z) : Z := match l with [] => e | (a, _) :: _ => a end.

(** The headers of [l] are linked, the last one to [e]. *)
Fixpoint chain (m : gmap Z Z) (l : list block) (e : Z) : Prop :=
  match l with
  | [] => True
  | (a, n) :: l => ld64 m a = hd_addr l e /\ ld32 m (a + 8) = n /\ chain m l e
  end.

(** The blocks of [l] lie in order between [lo] and [hi], and no two of them touch. *)
Fixpoint gaps (lo : Z) (l : list block) (hi : Z) : Prop :=
  match l with
  | [] => lo <= hi
  | (a, n) :: l => lo < a /\ 0 <= n /\ gaps (a + 16 * n) l hi
  end.

Lemma hd_addr_app l1 l2 e : hd_addr (l1 ++ l2) e = hd_addr l1 (hd_addr l2 e).
Proof. by destruct l1 as [|[]]. Qed.

Lemma chain_app m l1 l2 e : chain m (l1 ++ l2) e <-> chain m l1 (hd_addr l2 e) /\ chain m l2 e.
Proof.
  induction l1 as [|[a n] l1 IH]; cbn; [tauto|]. rewrite hd_addr_app, IH. tauto.
Qed.

Lemma chain_frame m m' l e :
  chain m l e -> (forall a n, (a, n) ∈ l -> ld64 m' a = ld64 m a /\ ld32 m' (a + 8) = ld32 m (a + 8)) -> chain m' l e.
Proof.
  induction l as [|[a n] l IH]; cbn; [done|]. intros (H1 & H2 & H3) Hf.
  destruct (Hf a n) as [-> ->]; [by left|]. split; [done|]. split; [done|]. apply IH; [done|].
  intros b k Hb. apply (Hf b k). by right.
Qed.

Definition clear_of (x : Z) (l : list block) : Prop := forall a n, (a, n) ∈ l -> a + 16 <= x \/ x + 16 <= a.

Lemma chain_st64 m l e x v : chain m l e -> clear_of x l -> chain (st64 m x v) l e.
Proof.
  intros Hc Hx. eapply chain_frame; [done|]. intros a n Ha. specialize (Hx a n Ha).
  rewrite ld64_st64_ne, ld32_st64_ne by lia. done.
Qed.

Lemma chain_st32 m l e x v : chain m l e -> clear_of x l -> chain (st32 m (x + 8) v) l e.
Proof.
  intros Hc Hx. eapply chain_frame; [done|]. intros a n Ha. specialize (Hx a n Ha).
  rewrite ld64_st32_ne, ld32_st32_ne by lia. done.
Qed.

Lemma gaps_weaken lo l hi hi' : gaps lo l hi -> hi <= hi' -> gaps lo l hi'.
Proof. revert lo. induction l as [|[a n] l IH]; cbn; [lia|]. intros lo (? & ? & ?) ?. naive_solver. Qed.

Lemma gaps_app lo l1 a n l2 hi :
  gaps lo (l1 ++ (a, n) :: l2) hi <-> gaps lo l1 (a - 1) /\ 0 <= n /\ gaps (a + 16 * n) l2 hi.
Proof.
  revert lo. induction l1 as [|[b k] l1 IH]; intros lo; cbn; [split; intros (? & ? & ?); repeat split; try done; lia|].
  rewrite IH. tauto.
Qed.

Lemma gaps_elem lo l hi a n : gaps lo l hi -> (a, n) ∈ l -> lo < a /\ 0 <= n /\ a + 16 * n <= hi.
Proof.
  revert lo. induction l as [|[b k] l IH]; intros lo; cbn; [by intros _ ?%elem_of_nil|].
  intros (H1 & H2 & H3) [[= <- <-]|Hin]%elem_of_cons.
  - split; [done|]. split; [done|]. clear IH. revert H3. generalize (a + 16 * n). intros z.
    revert z. induction l as [|[c j] l IHl]; cbn; [done|]. intros z (? & ? & Hg). apply IHl in Hg. lia.
  - destruct (IH _ H3 Hin). lia.
Qed.

Lemma gaps_before lo l1 a n l2 hi b k : gaps lo (l1 ++ (a, n) :: l2) hi -> (b, k) ∈ l1 -> 0 <= k /\ b + 16 * k < a.
Proof. intros (H & _ & _)%gaps_app Hin. destruct (gaps_elem _ _ _ _ _ H Hin). lia. Qed.

Lemma gaps_after lo l1 a n l2 hi b k : gaps lo (l1 ++ (a, n) :: l2) hi -> (b, k) ∈ l2 -> a + 16 * n < b.
Proof. intros (_ & _ & H)%gaps_app Hin. destruct (gaps_elem _ _ _ _ _ H Hin). lia. Qed.

Lemma gaps_next lo x a n mid p pn post hi :
  gaps lo (x ++ (a, n) :: mid ++ (p, pn) :: post) hi -> a < hd_addr mid p <= p.
Proof.
  intros (_ & Hn & Hg)%gaps_app. destruct mid as [|[b j] mid]; cbn [hd_addr].
  - destruct Hg as (? & _). lia.
  - destruct (gaps_before _ ((b, j) :: mid) _ _ _ _ b j Hg) as [? ?]; [left|]. destruct Hg as (? & _). lia.
Qed.

Lemma gaps_length lo l hi : gaps lo l hi -> Forall (fun b => 1 <= b.2) l -> 16 * Z.of_nat (length l) <= hi - lo.
Proof.
  revert lo. induction l as [|[a n] l IH]; intros lo; cbn; [lia|]. intros (? & ? & H) [? Hl]%Forall_cons. cbn in *.
  specialize (IH _ H Hl). lia.
Qed.

(** The place of an address that is none of the blocks'. *)
Lemma gaps_split lo l hi bp :
  gaps lo l hi -> (forall a n, (a, n) ∈ l -> a <> bp) ->
  exists l1 l2, l = l1 ++ l2 /\ (forall a n, (a, n) ∈ l1 -> a < bp) /\ (forall a n, (a, n) ∈ l2 -> bp < a).
Proof.
  revert lo. induction l as [|[a n] l IH]; intros lo Hg Hne.
  { exists [], []. split; [done|]. split; by intros ? ? ?%elem_of_nil. }
  destruct (decide (bp < a)) as [Hlt|Hge].
  - exists [], ((a, n) :: l). split; [done|]. split; [by intros ? ? ?%elem_of_nil|].
    intros b k [[= -> ->]|Hin]%elem_of_cons; [done|].
    pose proof (gaps_after lo [] a n l hi b k Hg Hin). destruct Hg as (_ & Hn & _). lia.
  - destruct Hg as (_ & _ & Hg). destruct (IH _ Hg) as (l1 & l2 & -> & H1 & H2).
    { intros b k Hin. apply (Hne b k). by right. }
    exists ((a, n) :: l1), l2. split; [done|]. split; [|done].
    intros b k [[= -> ->]|Hin]%elem_of_cons; [|by eapply H1]. assert (a <> bp) by (apply (Hne a n); by left). lia.
Qed.

(** ** Access to memory *)

Lemma get_ptr_ok p s : 0 <= p -> p + 8 <= h_brk s -> get_ptr p s = Ok (ld64 (h_mem s) p) s.
Proof. intros H1 H2. unfold get_ptr, access, bind. apply Z.leb_le in H1, H2. by rewrite H1, H2. Qed.
Lemma get_size_ok p s : 0 <= p -> p + 12 <= h_brk s -> get_size p s = Ok (ld32 (h_mem s) (p + 8)) s.
Proof.
  intros H1 H2. unfold get_size, access, bind.
  rewrite (proj2 (Z.leb_le 0 (p + 8))), (proj2 (Z.leb_le (p + 8 + 4) _)) by lia. done.
Qed.
Lemma set_ptr_ok p v s : 0 <= p -> p + 8 <= h_brk s ->
  set_ptr p v s = Ok tt (MkHeap (st64 (h_mem s) p v) (freep s) (h_brk s)).
Proof. intros H1 H2. unfold set_ptr, access, bind. apply Z.leb_le in H1, H2. by rewrite H1, H2. Qed.
Lemma set_size_ok p v s : 0 <= p -> p + 12 <= h_brk s ->
  set_size p v s = Ok tt (MkHeap (st32 (h_mem s) (p + 8) v) (freep s) (h_brk s)).
Proof.
  intros H1 H2. unfold set_size, access, bind.
  rewrite (proj2 (Z.leb_le 0 (p + 8))), (proj2 (Z.leb_le (p + 8 + 4) _)) by lia. done.
Qed.

(** [hstep] runs an access to a header in memory. *)
Ltac hstep :=
  (first [erewrite bind_ok by (apply get_ptr_ok; cbn [h_brk]; lia)
         |erewrite bind_ok by (apply get_size_ok; cbn [h_brk]; lia)
         |erewrite bind_ok by (apply set_ptr_ok; cbn [h_brk]; lia)
         |erewrite bind_ok by (apply set_size_ok; cbn [h_brk]; lia)
         |rewrite set_ptr_ok by (cbn [h_brk]; lia)
         |rewrite set_size_ok by (cbn [h_brk]; lia)]);
  cbn [h_mem h_brk freep].

(** ** The ring of free blocks *)

Section Facts.
Context `{Process}.

(** The free list: [base] with size 0, then the free blocks by address. *)
Record ring (m : gmap Z Z) (brk : Z) (fl : list block) : Prop := {
  r_chain : chain m fl base;
  r_gaps : gaps (base - 1) fl brk;
  r_base : exists bl, fl = (base, 0) :: bl /\ Forall (fun b => base + 16 <= b.1 /\ 1 <= b.2) bl;
  r_room : 0 < base /\ base + 16 <= brk <= 2 ^ 27
}.

Lemma ring_elem m brk fl a n : ring m brk fl -> (a, n) ∈ fl ->
  0 <= a /\ base <= a /\ 0 <= n /\ a + 16 <= brk /\ a + 16 * n <= brk /\ (a = base /\ n = 0 \/ base + 16 <= a /\ 1 <= n).
Proof.
  intros [Hc Hg (bl & -> & Hb) Hr] Hin. destruct (gaps_elem _ _ _ _ _ Hg Hin) as (H1 & H2 & H3).
  apply elem_of_cons in Hin as [[= -> ->]|Hin]; [lia|].
  rewrite Forall_forall in Hb. destruct (Hb _ Hin). cbn in *. lia.
Qed.

Lemma ring_clear m brk l1 a n l2 : ring m brk (l1 ++ (a, n) :: l2) -> clear_of a l1 /\ clear_of a l2.
Proof.
  intros Hr. assert ((a, n) ∈ l1 ++ (a, n) :: l2) as Hin by (apply elem_of_app; right; left).
  pose proof (ring_elem _ _ _ _ _ Hr Hin). split; intros b k Hb.
  - pose proof (gaps_before _ _ _ _ _ _ _ _ (r_gaps _ _ _ Hr) Hb).
    assert ((b, k) ∈ l1 ++ (a, n) :: l2) as Hb' by (apply elem_of_app; by left).
    pose proof (ring_elem _ _ _ _ _ Hr Hb'). lia.
  - pose proof (gaps_after _ _ _ _ _ _ _ _ (r_gaps _ _ _ Hr) Hb).
    assert ((b, k) ∈ l1 ++ (a, n) :: l2) as Hb' by (apply elem_of_app; right; by right).
    pose proof (ring_elem _ _ _ _ _ Hr Hb'). lia.
Qed.

Lemma ring_length m brk fl s : ring m brk fl -> h_brk s = brk -> (length fl < ring_fuel s)%nat.
Proof.
  intros [_ Hg (bl & -> & Hb) Hr] <-. unfold ring_fuel. cbn [length].
  assert (Forall (fun b => 1 <= b.2) bl) as Hb' by (eapply Forall_impl; [done|]; by intros ? [_ ?]).
  cbn in Hg. pose proof (gaps_length _ _ _ (proj2 (proj2 Hg)) Hb').
  assert (Z.of_nat (length bl) <= h_brk s / 16) by (apply Z.div_le_lower_bound; lia). lia.
Qed.

Lemma ring_link m brk l1 a n l2 : ring m brk (l1 ++ (a, n) :: l2) -> ld64 m a = hd_addr l2 base /\ ld32 m (a + 8) = n.
Proof. intros [Hc _ _ _]. apply chain_app in Hc as [_ (? & ? & _)]. done. Qed.

(** ** The search of [free] *)

(** [p] is the last block below [bp]. *)
Definition place (fl : list block) (bp : Z) (pre : list block) (p pn : Z) (post : list block) : Prop :=
  fl = pre ++ (p, pn) :: post /\ p < bp /\ (forall a n, (a, n) ∈ post -> bp < a).

Lemma place_exists m brk fl bp : ring m brk fl -> base + 16 <= bp -> (forall a n, (a, n) ∈ fl -> a <> bp) ->
  exists pre p pn post, place fl bp pre p pn post.
Proof.
  intros Hr Hbp Hne. destruct (gaps_split _ _ _ bp (r_gaps _ _ _ Hr) Hne) as (l1 & l2 & -> & H1 & H2).
  destruct l1 as [|[p pn] pre _] using rev_ind.
  - destruct (r_base _ _ _ Hr) as (bl & E & _). cbn in E. subst. pose proof (H2 base 0 ltac:(left)). lia.
  - exists pre, p, pn, l2. split; [by rewrite <- app_assoc|]. split; [|done]. apply (H1 p pn). apply elem_of_app. right. left.
Qed.

(** One turn of the loop at a block that is not the place. *)
Lemma free_turn k bp x s q :
  get_ptr x s = Ok q s -> (x < q -> q <= bp \/ bp <= x) -> (q <= x -> bp <= x /\ q <= bp) ->
  free_loop (S k) bp x s = free_loop k bp q s.
Proof.
  intros Hq H1 H2. cbn [free_loop]. mstep Hq.
  destruct (Z.ltb_spec x bp), (Z.ltb_spec bp q), (Z.leb_spec q x); cbn; try done; lia.
Qed.

Lemma free_walk_up k bp s fl pre p pn post : forall mid x,
  ring (h_mem s) (h_brk s) fl -> place fl bp pre p pn post -> fl = (x ++ mid) ++ (p, pn) :: post ->
  (length mid < k)%nat -> free_loop k bp (hd_addr mid p) s = Ok p s.
Proof.
  revert k. intros k mid. revert k. induction mid as [|[a n] mid IH]; intros k x Hr Hp Hfl Hk; (destruct k as [|k]; [cbn in *; lia|]).
  - destruct Hp as (E & Hlt & Hpost). rewrite app_nil_r in Hfl.
    assert ((p, pn) ∈ fl) as Hin by (rewrite E; apply elem_of_app; right; left).
    pose proof (ring_elem _ _ _ _ _ Hr Hin). cbn [hd_addr free_loop]. hstep.
    rewrite E in Hr. destruct (ring_link _ _ _ _ _ _ Hr) as [-> _]. rewrite (proj2 (Z.ltb_lt p bp)) by done.
    destruct post as [|[q qn] post]; cbn.
    + rewrite (proj2 (Z.ltb_ge bp base)), (proj2 (Z.leb_le base p)) by lia. done.
    + rewrite (proj2 (Z.ltb_lt bp q)); [done|]. apply (Hpost q qn). left.
  - assert (fl = x ++ (a, n) :: (mid ++ (p, pn) :: post)) as E by (by rewrite Hfl, <- !app_assoc).
    assert ((a, n) ∈ fl) as Hin by (rewrite E; apply elem_of_app; right; left).
    pose proof (ring_elem _ _ _ _ _ Hr Hin) as Ha. cbn [hd_addr].
    assert (get_ptr a s = Ok (hd_addr mid p) s) as Hq.
    { rewrite get_ptr_ok by lia. f_equal. rewrite E in Hr. destruct (ring_link _ _ _ _ _ _ Hr) as [-> _].
      by rewrite hd_addr_app. }
    assert (a < hd_addr mid p <= p) as Hlt.
    { rewrite E in Hr. exact (gaps_next _ _ _ _ _ _ _ _ _ (r_gaps _ _ _ Hr)). }
    pose proof (proj1 (proj2 Hp)) as Hbp.
    rewrite (free_turn k bp a s _ Hq) by lia.
    apply (IH k (x ++ [(a, n)])); [done|done|by rewrite Hfl, <- !app_assoc|cbn in Hk; lia].
Qed.

Lemma free_walk_down k bp s fl pre p pn post : forall rest y,
  ring (h_mem s) (h_brk s) fl -> base < bp -> place fl bp pre p pn post -> post = y ++ rest ->
  (length rest + length pre < k)%nat -> free_loop k bp (hd_addr rest base) s = Ok p s.
Proof.
  intros rest. revert k. induction rest as [|[a n] rest IH]; intros k y Hr Hb Hp Hpost Hk.
  - cbn. assert (hd_addr pre p = base) as <-.
    { destruct (r_base _ _ _ Hr) as (bl & Hfl & _). destruct Hp as (-> & _). by destruct pre as [|[]]; injection Hfl. }
    apply (free_walk_up k bp s fl pre p pn post pre []); [done|done|apply Hp|cbn in Hk; lia].
  - destruct k as [|k]; [lia|]. cbn [hd_addr].
    assert (fl = (pre ++ (p, pn) :: y) ++ (a, n) :: rest) as E
      by (destruct Hp as (-> & _); by rewrite Hpost, <- app_assoc).
    assert ((a, n) ∈ fl) as Hin by (rewrite E; apply elem_of_app; right; left).
    pose proof (ring_elem _ _ _ _ _ Hr Hin) as Ha.
    assert (bp < a) by (apply (proj2 (proj2 Hp) a n); rewrite Hpost; apply elem_of_app; right; left).
    assert (get_ptr a s = Ok (hd_addr rest base) s) as Hq.
    { rewrite get_ptr_ok by lia. f_equal. rewrite E in Hr. by destruct (ring_link _ _ _ _ _ _ Hr) as [-> _]. }
    assert (rest = [] \/ a < hd_addr rest base) as Hn.
    { destruct rest as [|[b j] rest]; [by left|right]. rewrite E in Hr. cbn.
      pose proof (gaps_after _ _ _ _ _ _ b j (r_gaps _ _ _ Hr) ltac:(left)). lia. }
    rewrite (free_turn k bp a s _ Hq) by (destruct Hn as [->|]; cbn in *; lia).
    apply (IH k (y ++ [(a, n)])); try done; [by rewrite Hpost, <- app_assoc|cbn in Hk; lia].
Qed.

Lemma free_loop_spec bp s fl pre p pn post fn :
  ring (h_mem s) (h_brk s) fl -> base < bp -> place fl bp pre p pn post -> (freep s, fn) ∈ fl ->
  free_loop (ring_fuel s) bp (freep s) s = Ok p s.
Proof.
  intros Hr Hb Hp Hin. pose proof (ring_length _ _ _ s Hr eq_refl) as Hlen. pose proof Hp as (E & _).
  rewrite E, length_app in Hlen. cbn in Hlen. rewrite E in Hin.
  apply elem_of_app in Hin as [Hin|Hin].
  - apply list_elem_of_split in Hin as (x & mid & ->).
    apply (free_walk_up _ bp s fl (x ++ (freep s, fn) :: mid) p pn post ((freep s, fn) :: mid) x); try done.
    rewrite length_app in Hlen. cbn in *. lia.
  - apply elem_of_cons in Hin as [[= Ef En]|Hin].
    + rewrite Ef. apply (free_walk_up _ bp s fl pre p pn post [] pre); try done; [by rewrite app_nil_r|cbn; lia].
    + apply list_elem_of_split in Hin as (y & rest & ->).
      apply (free_walk_down _ bp s fl pre p pn (y ++ (freep s, fn) :: rest) ((freep s, fn) :: rest) y); try done.
      rewrite length_app in Hlen. cbn in *. lia.
Qed.

(** ** What [free] leaves *)

Definition join_right (bp n : Z) (post : list block) : Z * list block :=
  match post with
  | (q, qn) :: post' => if bp + 16 * n =? q then (n + qn, post') else (n, post)
  | [] => (n, [])
  end.

(** The bytes outside the headers of [l] are the same. *)
Definition same_outside (l : list block) (m m' : gmap Z Z) : Prop :=
  forall x, (forall a n, (a, n) ∈ l -> x < a \/ a + 16 <= x) -> ldb m' x = ldb m x.

(** [(bp, n)] is a block in memory, apart from the free ones. *)
Definition new_block (m : gmap Z Z) (brk : Z) (fl : list block) (bp n : Z) : Prop :=
  base + 16 <= bp /\ 1 <= n /\ bp + 16 * n <= brk /\ ld32 m (bp + 8) = n /\
  forall a k, (a, k) ∈ fl -> a + 16 * k <= bp \/ bp + 16 * n <= a.

Lemma hadd_small a n : 0 <= a -> 0 <= n -> a + 16 * n < 2 ^ 64 -> hadd a n = a + 16 * n.
Proof. intros. unfold hadd. apply u64_small. lia. Qed.

Lemma new_block_clear m brk fl bp n : ring m brk fl -> new_block m brk fl bp n -> clear_of bp fl.
Proof.
  intros Hr (H1 & H2 & H3 & _ & H4) a k Hin. pose proof (ring_elem _ _ _ _ _ Hr Hin). specialize (H4 a k Hin). lia.
Qed.

Lemma clear_of_app x l1 l2 : clear_of x (l1 ++ l2) <-> clear_of x l1 /\ clear_of x l2.
Proof. unfold clear_of. setoid_rewrite elem_of_app. naive_solver. Qed.

Lemma clear_of_cons x a n l : clear_of x ((a, n) :: l) <-> (a + 16 <= x \/ x + 16 <= a) /\ clear_of x l.
Proof. unfold clear_of. setoid_rewrite elem_of_cons. naive_solver. Qed.

(** The header of a block after its two fields are set. *)
Lemma link_header m a q n l e :
  chain m l e -> clear_of a l -> q = hd_addr l e -> 0 <= q < 2 ^ 64 -> 0 <= n < 2 ^ 32 ->
  chain (st64 (st32 m (a + 8) n) a q) ((a, n) :: l) e.
Proof.
  intros Hc Hcl -> Hq Hn. cbn. rewrite ld64_st64_eq, u64_small by done.
  rewrite ld32_st64_ne, ld32_st32_eq, u32_small by lia. split; [done|]. split; [done|].
  by apply chain_st64, Hcl; apply chain_st32.
Qed.

Lemma link_ptr m a q n l e :
  chain m l e -> clear_of a l -> q = hd_addr l e -> 0 <= q < 2 ^ 64 -> ld32 m (a + 8) = n ->
  chain (st64 m a q) ((a, n) :: l) e.
Proof.
  intros Hc Hcl -> Hq Hn. cbn. rewrite ld64_st64_eq, u64_small by done.
  rewrite ld32_st64_ne by lia. split; [done|]. split; [done|]. by apply chain_st64.
Qed.

Lemma same_header m a q n l k : (a, k) ∈ l -> same_outside l m (st64 (st32 m (a + 8) n) a q).
Proof. intros Hin x Hx. specialize (Hx a k Hin). rewrite ldb_st64_ne, ldb_st32_ne by lia. done. Qed.

Lemma same_ptr m a q l k : (a, k) ∈ l -> same_outside l m (st64 m a q).
Proof. intros Hin x Hx. specialize (Hx a k Hin). rewrite ldb_st64_ne by lia. done. Qed.

Lemma hd_addr_range m brk l1 a n l2 : ring m brk (l1 ++ (a, n) :: l2) -> 0 <= hd_addr l2 base < 2 ^ 64.
Proof.
  intros Hr. pose proof (r_room _ _ _ Hr). destruct l2 as [|[b k] l2]; cbn; [lia|].
  assert ((b, k) ∈ l1 ++ (a, n) :: (b, k) :: l2) as Hin by (apply elem_of_app; right; right; left).
  pose proof (ring_elem _ _ _ _ _ Hr Hin). lia.
Qed.

(** The block is linked to what follows it, or joined with it. *)
Lemma join_next_spec s pre p pn post bp n :
  ring (h_mem s) (h_brk s) (pre ++ (p, pn) :: post) -> place (pre ++ (p, pn) :: post) bp pre p pn post ->
  new_block (h_mem s) (h_brk s) (pre ++ (p, pn) :: post) bp n ->
  let '(n1, post1) := join_right bp n post in
  exists m1, join_next bp p s = Ok tt (MkHeap m1 (freep s) (h_brk s)) /\
    chain m1 pre p /\ ld32 m1 (p + 8) = pn /\ chain m1 ((bp, n1) :: post1) base /\
    n <= n1 /\ gaps (bp + 16 * n1) post1 (h_brk s) /\ same_outside [(bp, n)] (h_mem s) m1.
Proof.
  intros Hr Hp Hn. pose proof (new_block_clear _ _ _ _ _ Hr Hn) as Hcl. pose proof (r_room _ _ _ Hr) as Hroom.
  apply clear_of_app in Hcl as [Hc1 [Hc2 Hc3]%clear_of_cons].
  destruct Hn as (Hb & Hn & Hbrk & Hsz & Hap). pose proof (r_chain _ _ _ Hr) as [Hch1 (Hlk & Hpn & Hch2)]%chain_app.
  assert ((p, pn) ∈ pre ++ (p, pn) :: post) as Hin by (apply elem_of_app; right; left).
  pose proof (ring_elem _ _ _ _ _ Hr Hin) as He. pose proof (hd_addr_range _ _ _ _ _ _ Hr) as Hq.
  pose proof (r_gaps _ _ _ Hr) as (_ & _ & Hg)%gaps_app. cbn [hd_addr] in Hch1.
  unfold join_next. hstep. rewrite Hsz.
  hstep. rewrite Hlk.
  rewrite hadd_small by lia. destruct post as [|[q qn] post]; cbn [join_right hd_addr] in *.
  - rewrite (proj2 (Z.eqb_neq (bp + 16 * n) base)) by lia. hstep.
    eexists. split; [reflexivity|]. split; [by apply chain_st64|]. rewrite ld32_st64_ne by lia. split; [done|].
    split; [by apply link_ptr|]. split; [lia|]. split; [cbn; lia|]. eapply same_ptr. left.
  - apply clear_of_cons in Hc3 as [Hc3 Hc4].
    assert ((q, qn) ∈ pre ++ (p, pn) :: (q, qn) :: post) as Hinq by (apply elem_of_app; right; right; left).
    pose proof (ring_elem _ _ _ _ _ Hr Hinq) as Heq. destruct Hch2 as (Hlq & Hqn & Hch2). destruct Hg as (_ & Hqn0 & Hg).
    pose proof (proj2 (proj2 Hp) q qn ltac:(left)) as Hlt. specialize (Hap q qn Hinq).
    destruct (Z.eqb_spec (bp + 16 * n) q) as [E|E].
    + hstep. rewrite Hqn, u32_small by lia.
      hstep.
      hstep.
      rewrite ld64_st32_ne, Hlq by lia. hstep.
      assert (0 <= hd_addr post base < 2 ^ 64).
      { apply (hd_addr_range (h_mem s) (h_brk s) (pre ++ [(p, pn)]) q qn post). by rewrite <- app_assoc. }
      eexists. split; [reflexivity|]. split; [by apply chain_st64, Hc1; apply chain_st32|].
      rewrite ld32_st64_ne, ld32_st32_ne by lia. split; [done|]. split; [apply link_header; try done; lia|].
      split; [lia|]. split; [|eapply same_header; left]. by replace (bp + 16 * (n + qn)) with (q + 16 * qn) by lia.
    + hstep. eexists. split; [reflexivity|]. split; [by apply chain_st64|].
      rewrite ld32_st64_ne by lia. split; [done|].
      split; [by apply link_ptr; [|apply clear_of_cons| | |]|].
      split; [lia|]. split; [|eapply same_ptr; left]. cbn. split; [lia|]. by split.
Qed.

Definition joined (pre : list block) (p pn bp n : Z) (post : list block) : list block :=
  let '(n1, post1) := join_right bp n post in
  if p + 16 * pn =? bp then pre ++ (p, pn + n1) :: post1 else pre ++ (p, pn) :: (bp, n1) :: post1.

(** Then the block before is linked to it, or grows over it. *)
Lemma join_prev_spec s pre p pn bp n1 post1 :
  0 <= p -> p + 16 <= h_brk s <= 2 ^ 27 -> bp + 16 <= h_brk s -> p + 16 <= bp -> 0 <= pn -> 0 <= n1 -> bp + 16 * n1 <= h_brk s ->
  p + 16 * pn <= bp -> clear_of p pre -> clear_of p post1 -> 0 <= hd_addr post1 base < 2 ^ 64 ->
  chain (h_mem s) pre p -> ld32 (h_mem s) (p + 8) = pn -> chain (h_mem s) ((bp, n1) :: post1) base ->
  exists m1, join_prev bp p s = Ok tt (MkHeap m1 (freep s) (h_brk s)) /\
    chain m1 (if p + 16 * pn =? bp then pre ++ (p, pn + n1) :: post1 else pre ++ (p, pn) :: (bp, n1) :: post1) base /\
    same_outside [(p, pn)] (h_mem s) m1.
Proof.
  intros H0 H1 H2 H3 H4 H5 H6 H7 Hc1 Hc2 Hq Hpre Hpn (Hlb & Hn1 & Hpost).
  unfold join_prev. hstep. rewrite Hpn, hadd_small by lia. destruct (Z.eqb_spec (p + 16 * pn) bp) as [E|E].
  - hstep. rewrite Hn1, u32_small by lia. hstep. hstep. rewrite ld64_st32_ne, Hlb by lia. hstep.
    eexists. split; [reflexivity|]. split; [|eapply same_header; left]. apply chain_app. cbn [hd_addr].
    split; [by apply chain_st64, Hc1; apply chain_st32|]. apply link_header; try done; lia.
  - hstep. eexists. split; [reflexivity|]. split; [|eapply same_ptr; left]. apply chain_app. cbn [hd_addr].
    split; [by apply chain_st64|]. apply link_ptr; try done; [apply clear_of_cons; split; [lia|done]|cbn; lia].
Qed.

Definition apart (b k : Z) (l : list block) : Prop := forall a n, (a, n) ∈ l -> a + 16 * n <= b \/ b + 16 * k <= a.

Lemma apart_cons b k a n l : apart b k ((a, n) :: l) <-> (a + 16 * n <= b \/ b + 16 * k <= a) /\ apart b k l.
Proof. unfold apart. setoid_rewrite elem_of_cons. naive_solver. Qed.
Lemma apart_app b k l1 l2 : apart b k (l1 ++ l2) <-> apart b k l1 /\ apart b k l2.
Proof. unfold apart. setoid_rewrite elem_of_app. naive_solver. Qed.

Lemma joined_apart b k pre p pn bp n post : 1 <= k -> 0 <= pn -> 1 <= n -> Forall (fun x => 0 <= x.2) post ->
  apart b k ((bp, n) :: pre ++ (p, pn) :: post) -> apart b k (joined pre p pn bp n post).
Proof.
  intros Hk Hpn Hn Hpost (H1 & (H2 & (H3 & H4)%apart_cons)%apart_app)%apart_cons. unfold joined, join_right.
  destruct post as [|[q qn] post]; [|apply apart_cons in H4 as [H4 H5]; apply Forall_cons in Hpost as [Hqn _]; cbn in Hqn;
    destruct (Z.eqb_spec (bp + 16 * n) q)];
    (destruct (Z.eqb_spec (p + 16 * pn) bp); rewrite apart_app, !apart_cons; repeat (split; [done||lia|]); done || lia).
Qed.

Definition free_shape (brk : Z) (fl : list block) : Prop :=
  gaps (base - 1) fl brk /\ exists bl, fl = (base, 0) :: bl /\ Forall (fun b => base + 16 <= b.1 /\ 1 <= b.2) bl.

(** After the base, every block of a ring has a place and a size. *)
Lemma ring_tail m brk l1 a n l2 : ring m brk (l1 ++ (a, n) :: l2) -> Forall (fun b => base + 16 <= b.1 /\ 1 <= b.2) l2.
Proof.
  intros [_ _ (bl & E & Hb) _]. destruct l1 as [|x l1]; cbn in E; simplify_eq; [done|].
  apply Forall_app in Hb as [_ [_ Hb]%Forall_cons]. done.
Qed.

Lemma join_right_spec m brk l1 p pn post bp n :
  ring m brk (l1 ++ (p, pn) :: post) -> p < bp -> new_block m brk (l1 ++ (p, pn) :: post) bp n ->
  let '(n1, post1) := join_right bp n post in
  n <= n1 /\ bp + 16 * n1 <= brk /\ Forall (fun b => base + 16 <= b.1 /\ 1 <= b.2) post1 /\ post1 `suffix_of` post.
Proof.
  intros Hr Hp (Hb & Hn & Hbrk & _ & Hap). pose proof (ring_tail _ _ _ _ _ _ Hr) as Ht.
  destruct post as [|[q qn] post]; cbn; [by repeat split|].
  destruct (Z.eqb_spec (bp + 16 * n) q) as [E|E]; [|by repeat split; try lia].
  assert ((q, qn) ∈ l1 ++ (p, pn) :: (q, qn) :: post) as Hin by (apply elem_of_app; right; right; left).
  pose proof (ring_elem _ _ _ _ _ Hr Hin). apply Forall_cons in Ht as [Hq Ht]. cbn in Hq.
  split; [lia|]. split; [lia|]. split; [done|]. by apply suffix_cons_r.
Qed.

Lemma joined_shape m brk pre p pn post bp n :
  ring m brk (pre ++ (p, pn) :: post) -> p < bp -> new_block m brk (pre ++ (p, pn) :: post) bp n ->
  (let '(n1, post1) := join_right bp n post in gaps (bp + 16 * n1) post1 brk) ->
  free_shape brk (joined pre p pn bp n post).
Proof.
  intros Hr Hlt Hn Hg. pose proof (join_right_spec _ _ _ _ _ _ _ _ Hr Hlt Hn) as Hj. unfold joined.
  destruct (join_right bp n post) as [n1 post1]. destruct Hj as (Hn1 & Hb1 & Ht & _).
  destruct Hn as (Hb & Hn0 & _ & _ & Hap).
  assert ((p, pn) ∈ pre ++ (p, pn) :: post) as Hin by (apply elem_of_app; right; left).
  pose proof (ring_elem _ _ _ _ _ Hr Hin) as He. specialize (Hap p pn Hin).
  pose proof (r_gaps _ _ _ Hr) as (Hg1 & Hpn & _)%gaps_app. destruct (r_base _ _ _ Hr) as (bl & E & Hbl).
  split.
  - destruct (Z.eqb_spec (p + 16 * pn) bp) as [E'|E']; apply gaps_app.
    + split; [done|]. split; [lia|]. by replace (p + 16 * (pn + n1)) with (bp + 16 * n1) by lia.
    + split; [done|]. split; [done|]. cbn. repeat split; [lia|lia|done].
  - destruct pre as [|x pre]; cbn in E; simplify_eq.
    + rewrite (proj2 (Z.eqb_neq (base + 16 * 0) bp)) by lia. eexists. split; [reflexivity|].
      constructor; [cbn; lia|done].
    + apply Forall_app in Hbl as [Hpre [Hp _]%Forall_cons]. cbn in Hp.
      destruct (p + 16 * pn =? bp); eexists; (split; [reflexivity|]); apply Forall_app; (split; [done|]);
        repeat constructor; cbn; try lia; done.
Qed.

Lemma new_place m brk fl bp n : ring m brk fl -> new_block m brk fl bp n ->
  exists pre p pn post, place fl bp pre p pn post.
Proof.
  intros Hr Hn. pose proof (new_block_clear _ _ _ _ _ Hr Hn) as Hcl. eapply place_exists; [done|apply Hn|].
  intros a k Hin ->. specialize (Hcl bp k Hin). lia.
Qed.

(** [free] puts a block on the list: the list is again well formed, it covers what it did
    and the block, and only headers were written. *)
Lemma free_spec s fl fn bp n :
  ring (h_mem s) (h_brk s) fl -> (freep s, fn) ∈ fl -> new_block (h_mem s) (h_brk s) fl bp n ->
  exists fl' m' p, free (bp + 16) s = Ok tt (MkHeap m' p (h_brk s)) /\ ring m' (h_brk s) fl' /\
    (length fl' <= S (length fl))%nat /\ (exists k, (p, k) ∈ fl') /\ same_outside ((bp, n) :: fl) (h_mem s) m' /\
    (exists a k, (a, k) ∈ fl' /\ n <= k) /\ (forall b k, 1 <= k -> apart b k ((bp, n) :: fl) -> apart b k fl').
Proof.
  intros Hr Hf Hn. pose proof (r_room _ _ _ Hr) as Hroom. destruct (new_place _ _ _ _ _ Hr Hn) as (pre & p & pn & post & Hp).
  pose proof Hp as (E & Hlt & _). pose proof (free_loop_spec bp s fl pre p pn post fn Hr ltac:(destruct Hn; lia) Hp Hf) as Hloop.
  subst fl. pose proof (join_next_spec s pre p pn post bp n Hr Hp Hn) as Hnx.
  pose proof (join_right_spec _ _ _ _ _ _ _ _ Hr Hlt Hn) as Hj.
  pose proof (joined_shape _ _ _ _ _ _ _ _ Hr Hlt Hn) as Hsh.
  assert ((p, pn) ∈ pre ++ (p, pn) :: post) as Hin by (apply elem_of_app; right; left).
  pose proof (ring_elem _ _ _ _ _ Hr Hin) as He. pose proof (ring_clear _ _ _ _ _ _ Hr) as [Hc1 Hc2].
  pose proof (new_block_clear _ _ _ _ _ Hr Hn _ _ Hin) as Hbp. pose proof (ring_tail _ _ _ _ _ _ Hr) as Htail.
  pose proof Hn as (Hb & Hn0 & Hbrk & _ & Hap).
  unfold joined in Hsh.
  destruct (join_right bp n post) as [n1 post1] eqn:Ejr.
  destruct Hnx as (m1 & E1 & Hch1 & Hpn & Hch2 & Hle & Hg1 & Hs1). destruct Hj as (_ & Hb1 & Ht1 & Hsuf).
  specialize (Hap p pn Hin).
  edestruct (join_prev_spec (MkHeap m1 (freep s) (h_brk s)) pre p pn bp n1 post1) as (m2 & E2 & Hch & Hs2);
    cbn [h_brk h_mem]; try done; try lia.
  { intros a k Hak. apply (Hc2 a k). destruct Hsuf as [x ->]. apply elem_of_app. by right. }
  { destruct post1 as [|[a k] post1]; cbn; [lia|]. apply Forall_cons in Ht1 as [Ha _]. cbn in Ha.
    destruct (gaps_elem _ _ _ a k Hg1 ltac:(left)). lia. }
  specialize (Hsh Hg1).
  eexists (joined pre p pn bp n post), m2, p. split.
  { unfold free. replace (hadd (bp + 16) (-1)) with bp by (unfold hadd; rewrite u64_small; lia).
    erewrite bind_ok by reflexivity. unfold id. mstep Hloop. mstep E1. mstep E2. reflexivity. }
  assert (joined pre p pn bp n post = if p + 16 * pn =? bp then pre ++ (p, pn + n1) :: post1 else pre ++ (p, pn) :: (bp, n1) :: post1) as Ej
    by (unfold joined; by rewrite Ejr).
  split; [rewrite Ej; split; [done|apply Hsh|apply Hsh|lia]|]. split; [|split; [|split; [|split]]].
  - rewrite Ej. apply suffix_length in Hsuf. destruct (_ =? _); rewrite !length_app; cbn; lia.
  - rewrite Ej. destruct (_ =? _); eexists; apply elem_of_app; right; left.
  - intros x Hx. etrans; [apply Hs2|apply Hs1]; intros a k [= -> ->]%list_elem_of_singleton;
      [apply (Hx p pn); by right|apply (Hx bp n); left].
  - rewrite Ej. destruct (_ =? _); [exists p, (pn + n1)|exists bp, n1]; (split; [|lia]); apply elem_of_app; right;
      [left|right; left].
  - intros b k Hk Hap'. apply joined_apart; try done; [lia|]. eapply Forall_impl; [done|]. cbn. lia.
Qed.
End Facts.
