(* ===== verification/UmallocInv.v ===== *)
(** * The user allocator: malloc and its clients

    What [malloc] returns, and the invariant of a heap whose blocks are allocated,
    freed, written and surrounded by other uses of [sbrk]. *)

From stdpp Require Import gmap strings list.
From S2P Require Import Prelude Layout Umalloc.

(** What the allocator relies on: the kernel has at most 128 MiB for a process. *)
Class ProcessOk `{Process} : Prop := {
  base_low : 0 < base;
  grant_limit : forall s n, grant s n = true -> h_brk s + n <= 2 ^ 27
}.

Section Malloc.
Context `{Process}.
Context `{!ProcessOk}.

(** ** More memory *)

Lemma sbrk_grow s n : 0 < n < 2 ^ 31 -> 0 <= h_brk s <= 2 ^ 27 ->
  sbrk n s = Ok (u64 (-1)) s \/ sbrk n s = Ok (h_brk s) (MkHeap (h_mem s) (freep s) (h_brk s + n)) /\ h_brk s + n <= 2 ^ 27.
Proof.
  intros Hn Hb. unfold sbrk. erewrite bind_ok by reflexivity. unfold id. rewrite u32_small by lia.
  rewrite (proj2 (Z.ltb_lt 0 n)), (proj2 (Z.ltb_ge (h_brk s + n) (h_brk s))) by lia.
  destruct (grant s n) eqn:E; [right|by left]. split; [done|]. by apply grant_limit.
Qed.

(** Memory beyond the break is not in the ring. *)
Lemma ring_grow m brk fl brk' v : ring m brk fl -> brk <= brk' <= 2 ^ 27 -> ring (st32 m (brk + 8) v) brk' fl.
Proof.
  intros Hr Hb. split; [|by eapply gaps_weaken; [apply Hr|lia]|apply Hr|destruct (r_room _ _ _ Hr); lia].
  apply chain_st32; [apply Hr|]. intros a n Hin. pose proof (ring_elem _ _ _ _ _ Hr Hin). lia.
Qed.

Lemma morecore_spec s fl fn nu :
  ring (h_mem s) (h_brk s) fl -> (freep s, fn) ∈ fl -> 0 <= nu -> nu * 16 < 2 ^ 31 ->
  morecore nu s = Ok 0 s \/
  exists fl' m' p brk', morecore nu s = Ok p (MkHeap m' p brk') /\ ring m' brk' fl' /\ h_brk s <= brk' /\
    (length fl' <= S (length fl))%nat /\ (exists k, (p, k) ∈ fl') /\ same_outside ((h_brk s, 1) :: fl) (h_mem s) m' /\
    (exists a k, (a, k) ∈ fl' /\ nu <= k) /\
    (forall b k, 1 <= k -> b + 16 * k <= h_brk s -> apart b k fl -> apart b k fl').
Proof.
  intros Hr Hf Hnu Hlt. pose proof (r_room _ _ _ Hr) as Hroom. unfold morecore.
  set (n := if nu <? 4096 then 4096 else nu).
  assert (1 <= n /\ nu <= n /\ n * 16 < 2 ^ 31) as (Hn & Hle & Hlt') by (subst n; destruct (Z.ltb_spec nu 4096); lia).
  rewrite s32_small by lia. destruct (sbrk_grow s (n * 16)) as [E|[E Hmax]]; [lia|lia| |].
  { left. mstep E. done. }
  right. mstep E. rewrite (proj2 (Z.eqb_neq (h_brk s) (u64 (-1)))) by (replace (u64 (-1)) with (2 ^ 64 - 1) by reflexivity; lia).
  hstep.
  set (s1 := MkHeap (st32 (h_mem s) (h_brk s + 8) n) (freep s) (h_brk s + n * 16)).
  assert (ring (h_mem s1) (h_brk s1) fl) as Hr1 by (apply ring_grow; [done|cbn; lia]).
  assert (new_block (h_mem s1) (h_brk s1) fl (h_brk s) n) as Hnb.
  { repeat split; cbn [s1 h_mem h_brk]; [lia|lia|lia|rewrite ld32_st32_eq; apply u32_small; lia|].
    intros a k Hin. pose proof (ring_elem _ _ _ _ _ Hr Hin). lia. }
  destruct (free_spec s1 fl fn (h_brk s) n Hr1 Hf Hnb) as (fl' & m' & p & E2 & Hr' & Hlen & Hp & Hs & Hfit & Hap).
  unfold hadd. rewrite Z.mul_1_r, u64_small by lia. mstep E2.
  exists fl', m', p, (h_brk s1). split; [done|]. split; [done|]. split; [cbn; lia|]. split; [done|]. split; [done|].
  split; [|split].
  - intros x Hx. rewrite Hs.
    + cbn. apply ldb_st32_ne. specialize (Hx (h_brk s) 1 ltac:(left)). lia.
    + intros a k [[= -> ->]|Ha]%elem_of_cons; [apply (Hx (h_brk s) 1); left|apply (Hx a k); by right].
  - destruct Hfit as (a & k & ? & ?). exists a, k. split; [done|lia].
  - intros b k Hk Hb Ha. apply Hap; [done|]. apply apart_cons. split; [lia|done].
Qed.

(** ** The search of [malloc] *)

Fixpoint first_fit (nunits prevp : Z) (l : list block) : option (Z * Z * Z) :=
  match l with
  | [] => None
  | (a, n) :: l => if n >=? nunits then Some (prevp, a, n) else first_fit nunits a l
  end.

Lemma first_fit_some m nunits l e : forall prevp y x xn,
  chain m l e -> ld64 m prevp = hd_addr l e -> first_fit nunits prevp l = Some (y, x, xn) ->
  ld64 m y = x /\ (x, xn) ∈ l /\ nunits <= xn /\ (y = prevp \/ exists yn, (y, yn) ∈ l).
Proof.
  induction l as [|[a n] l IH]; intros prevp y x xn Hc Hp; cbn; [done|]. destruct Hc as (H1 & _ & H3).
  destruct (Z.geb_spec n nunits).
  - intros [= <- <- <-]. split; [done|]. split; [left|]. split; [lia|by left].
  - intros Hf. destruct (IH a y x xn H3 H1 Hf) as (E & Hin & Hle & [->|(yn & Hy)]).
    + split; [done|]. split; [by right|]. split; [done|]. right. exists n. left.
    + split; [done|]. split; [by right|]. split; [done|]. right. exists yn. by right.
Qed.

Lemma first_fit_none nunits l : forall prevp a n, first_fit nunits prevp l = None -> (a, n) ∈ l -> n < nunits.
Proof.
  induction l as [|[b k] l IH]; intros prevp a n; cbn; [by intros _ ?%elem_of_nil|].
  destruct (Z.geb_spec k nunits); [done|]. intros Hf [[= -> ->]|Hin]%elem_of_cons; [lia|]. by eapply IH.
Qed.

(** A round of the ring ends in a block that is large enough, or at [freep]. *)
Lemma malloc_walk nunits fl e k s fn : ring (h_mem s) (h_brk s) fl -> forall t prevp,
  let todo := t ++ [(freep s, fn)] in
  (forall x, x ∈ todo -> x ∈ fl) -> (forall n, (freep s, n) ∉ t) -> chain (h_mem s) todo e ->
  malloc_loop (length todo + k) nunits prevp (hd_addr todo e) s =
  match first_fit nunits prevp todo with
  | Some (y, x, _) => take_block nunits y x s
  | None => (let! p := morecore nunits in if p =? 0 then ret 0 else let! q := get_ptr p in malloc_loop k nunits p q) s
  end.
Proof.
  intros Hr t. induction t as [|[a n] t IH]; intros prevp todo Hin Hnf Hc.
  - subst todo. cbn in *. pose proof (ring_elem _ _ _ _ _ Hr (Hin _ ltac:(left))). destruct Hc as (_ & Hn & _).
    hstep. rewrite Hn.
    destruct (fn >=? nunits); [done|]. erewrite bind_ok by reflexivity. unfold id. by rewrite Z.eqb_refl.
  - subst todo. cbn [app length Nat.add hd_addr first_fit malloc_loop].
    pose proof (ring_elem _ _ _ _ _ Hr (Hin (a, n) ltac:(left))). destruct Hc as (Hl & Hn & Hc).
    hstep. rewrite Hn.
    destruct (n >=? nunits); [done|]. erewrite bind_ok by reflexivity. unfold id.
    rewrite (proj2 (Z.eqb_neq a (freep s))) by (intros ->; apply (Hnf n); left).
    hstep. rewrite Hl.
    apply (IH a); [intros x Hx; apply Hin; by right|intros j Hj; apply (Hnf j); by right|done].
Qed.

(** The ring from the block after [freep] to [freep] itself. *)
Lemma ring_round m brk fl f fn : ring m brk fl -> (f, fn) ∈ fl ->
  exists t e, let todo := t ++ [(f, fn)] in
    (forall x, x ∈ todo <-> x ∈ fl) /\ (forall n, (f, n) ∉ t) /\ chain m todo e /\ ld64 m f = hd_addr todo e /\
    length todo = length fl.
Proof.
  intros Hr (l1 & l2 & ->)%list_elem_of_split. exists (l2 ++ l1), (hd_addr l2 base). cbn zeta.
  pose proof (ring_clear _ _ _ _ _ _ Hr) as [Hc1 Hc2]. pose proof (ring_link _ _ _ _ _ _ Hr) as [Hl Hn].
  pose proof (r_chain _ _ _ Hr) as [Hch1 (_ & _ & Hch2)]%chain_app. cbn in Hch1.
  assert (forall d, hd_addr (l1 ++ [(f, fn)]) d = base) as Hhd.
  { destruct (r_base _ _ _ Hr) as (bl & E & _). destruct l1 as [|[a n] l1]; cbn in *; by simplify_eq. }
  split; [|split; [|split; [|split]]].
  - intros x. rewrite !elem_of_app, !elem_of_cons, elem_of_nil. tauto.
  - intros n [Hin|Hin]%elem_of_app; [specialize (Hc2 f n Hin)|specialize (Hc1 f n Hin)]; lia.
  - rewrite <- app_assoc. apply chain_app. rewrite Hhd. split; [done|]. apply chain_app. by cbn.
  - rewrite <- app_assoc, hd_addr_app, Hhd. done.
  - rewrite !length_app. cbn. lia.
Qed.

(** [y] points to [x]: they are neighbours in the list. *)
Lemma ring_neighbours m brk fl y yn x xn : ring m brk fl -> (y, yn) ∈ fl -> (x, xn) ∈ fl -> ld64 m y = x -> 1 <= xn ->
  exists l1 l2, fl = l1 ++ (y, yn) :: (x, xn) :: l2.
Proof.
  intros Hr (l1 & l2 & ->)%list_elem_of_split Hx E Hxn. pose proof (ring_elem _ _ _ _ _ Hr Hx) as Hxe.
  destruct (ring_link _ _ _ _ _ _ Hr) as [Hl _]. destruct l2 as [|[a n] l2]; cbn in Hl; [lia|].
  assert (a = x) as -> by congruence. exists l1, l2. assert (n = xn) as ->; [|done].
  assert (l1 ++ (y, yn) :: (x, n) :: l2 = (l1 ++ [(y, yn)]) ++ (x, n) :: l2) as E2 by (by rewrite <- app_assoc).
  rewrite E2 in Hr, Hx. destruct (ring_link _ _ _ _ _ _ Hr) as [_ <-].
  apply list_elem_of_split in Hx as (k1 & k2 & Ek). rewrite Ek in Hr. by destruct (ring_link _ _ _ _ _ _ Hr) as [_ <-].
Qed.

(** The list up to [y] with other blocks after it. *)
Lemma ring_base_tail m brk l1 y yn l2 l2' : ring m brk (l1 ++ (y, yn) :: l2) ->
  Forall (fun b => base + 16 <= b.1 /\ 1 <= b.2) l2' ->
  exists bl, l1 ++ (y, yn) :: l2' = (base, 0) :: bl /\ Forall (fun b => base + 16 <= b.1 /\ 1 <= b.2) bl.
Proof.
  intros [_ _ (bl & E & Hb) _] Hl. destruct l1 as [|z l1]; cbn in E; simplify_eq.
  - by exists l2'.
  - eexists. split; [reflexivity|]. apply Forall_app in Hb as [Hb1 [Hb2 _]%Forall_cons].
    apply Forall_app. split; [done|]. by constructor.
Qed.

(** ** Taking a block *)

Definition taken (s : heap) (fl : list block) (nunits y x' : Z) (m' : gmap Z Z) (fl' : list block) : Prop :=
  ring m' (h_brk s) fl' /\ (exists k, (y, k) ∈ fl') /\ ld32 m' (x' + 8) = nunits /\ base + 16 <= x' /\
  x' + 16 * nunits <= h_brk s /\ apart x' nunits fl' /\ same_outside ((x', nunits) :: fl) (h_mem s) m' /\
  (forall b k, 1 <= k -> apart b k fl -> apart b k fl' /\ (b + 16 * k <= x' \/ x' + 16 * nunits <= b)).

Lemma take_exact s l1 y yn x xn l2 :
  let fl := l1 ++ (y, yn) :: (x, xn) :: l2 in
  ring (h_mem s) (h_brk s) fl -> 1 <= xn ->
  taken s fl xn y x (st64 (h_mem s) y (ld64 (h_mem s) x)) (l1 ++ (y, yn) :: l2).
Proof.
  intros fl Hr Hxn. assert ((x, xn) ∈ fl /\ (y, yn) ∈ fl) as [Hx Hy]
    by (subst fl; split; apply elem_of_app; right; [right; left|left]).
  pose proof (ring_elem _ _ _ _ _ Hr Hx) as Hxe. pose proof (ring_elem _ _ _ _ _ Hr Hy) as Hye.
  pose proof (ring_clear _ _ _ _ _ _ Hr) as [Hc1 [Hxy Hc2]%clear_of_cons].
  pose proof (r_chain _ _ _ Hr) as [Hch1 (_ & Hyn & (Hlx & Hxs & Hch2))]%chain_app. cbn [hd_addr] in Hch1.
  pose proof (r_gaps _ _ _ Hr) as (Hg1 & Hg2 & Hg3)%gaps_app. destruct Hg3 as (Hg3 & _ & Hg4).
  assert (0 <= hd_addr l2 base < 2 ^ 64) as Hq
    by (apply (hd_addr_range (h_mem s) (h_brk s) (l1 ++ [(y, yn)]) x xn l2); rewrite <- app_assoc; exact Hr).
  assert (gaps (y + 16 * yn) l2 (h_brk s)) as Hg.
  { destruct l2 as [|[a n] l2]; cbn in Hg4 |- *; [lia|]. destruct Hg4 as (? & ? & ?). repeat split; [lia|done|done]. }
  assert (forall b k, apart b k fl -> apart b k (l1 ++ (y, yn) :: l2)) as Hsub.
  { intros b k. unfold fl. rewrite !apart_app, !apart_cons. tauto. }
  split.
  { split; [|apply gaps_app; by repeat split| |apply Hr].
    - apply chain_app. split; [by apply chain_st64|]. rewrite Hlx. by apply link_ptr.
    - eapply ring_base_tail; [apply Hr|]. by apply ring_tail, Forall_cons in Hr as [_ Hr]. }
  split; [exists yn; apply elem_of_app; right; left|]. rewrite ld32_st64_ne by lia. split; [done|]. split; [lia|].
  split; [lia|]. split; [|split].
  - intros a n [Ha|[[= -> ->]|Ha]%elem_of_cons]%elem_of_app; [|lia|].
    + assert (a + 16 * n < y) by (eapply gaps_before; [apply (r_gaps _ _ _ Hr)|done]). lia.
    + right. destruct (gaps_elem _ _ _ _ _ Hg4 Ha). lia.
  - eapply same_ptr. right. exact Hy.
  - intros b k Hk Hap. split; [by apply Hsub|]. specialize (Hap x xn Hx). lia.
Qed.

Lemma take_split s l1 x xn l2 y yn nunits :
  let fl := l1 ++ (x, xn) :: l2 in
  let r := xn - nunits in let x' := x + 16 * r in
  ring (h_mem s) (h_brk s) fl -> (y, yn) ∈ l1 -> 1 <= nunits < xn ->
  taken s fl nunits y x' (st32 (st32 (h_mem s) (x + 8) r) (x' + 8) nunits) (l1 ++ (x, r) :: l2).
Proof.
  intros fl r x' Hr Hy Hn. assert ((x, xn) ∈ fl) as Hx by (subst fl; apply elem_of_app; right; left).
  pose proof (ring_elem _ _ _ _ _ Hr Hx) as Hxe. pose proof (ring_clear _ _ _ _ _ _ Hr) as [Hc1 Hc2].
  pose proof (r_chain _ _ _ Hr) as [Hch1 (Hlx & Hxs & Hch2)]%chain_app. cbn [hd_addr] in Hch1.
  pose proof (r_gaps _ _ _ Hr) as (Hg1 & Hg2 & Hg3)%gaps_app. pose proof (r_room _ _ _ Hr) as Hroom.
  assert (clear_of x' l1 /\ clear_of x' l2) as [Hc1' Hc2'].
  { split; intros a n Ha.
    - specialize (Hc1 a n Ha). pose proof (gaps_before _ _ _ _ _ _ _ _ (r_gaps _ _ _ Hr) Ha). lia.
    - pose proof (gaps_after _ _ _ _ _ _ _ _ (r_gaps _ _ _ Hr) Ha). lia. }
  split.
  { split; [|apply gaps_app; repeat split; [done|lia|]| |done].
    - apply chain_app. cbn [hd_addr chain]. split; [by apply chain_st32, Hc1'; apply chain_st32|].
      rewrite !ld64_st32_ne by lia. split; [done|]. rewrite ld32_st32_ne, ld32_st32_eq, u32_small by lia.
      split; [done|]. by apply chain_st32, Hc2'; apply chain_st32.
    - destruct l2 as [|[a n] l2]; cbn in Hg3 |- *; [lia|]. destruct Hg3 as (? & ? & ?). repeat split; [lia|done|done].
    - destruct l1 as [|z l1 _] using rev_ind; [by apply elem_of_nil in Hy|]. destruct z as [z zn].
      subst fl. rewrite <- app_assoc in Hr |- *. eapply ring_base_tail; [exact Hr|].
      apply ring_tail, Forall_cons in Hr as [Hrx Hrt]. constructor; [cbn in *; lia|done]. }
  split; [exists yn; apply elem_of_app; by left|]. rewrite ld32_st32_eq, u32_small by lia.
  split; [done|]. split; [lia|]. split; [lia|]. split; [|split].
  - intros a n [Ha|[[= -> ->]|Ha]%elem_of_cons]%elem_of_app; [|lia|].
    + pose proof (gaps_before _ _ _ _ _ _ _ _ (r_gaps _ _ _ Hr) Ha). lia.
    + pose proof (gaps_after _ _ _ _ _ _ _ _ (r_gaps _ _ _ Hr) Ha). lia.
  - intros z Hz. pose proof (Hz x' nunits ltac:(left)). pose proof (Hz x xn ltac:(right; exact Hx)).
    rewrite !ldb_st32_ne by lia. done.
  - intros b k Hk Hap. pose proof (Hap x xn Hx). split; [|lia]. revert Hap. unfold fl.
    rewrite !apart_app, !apart_cons. intros (? & ? & ?). repeat split; [done|lia|done].
Qed.

Lemma take_block_spec s fl nunits y yn x xn :
  ring (h_mem s) (h_brk s) fl -> (y, yn) ∈ fl -> (x, xn) ∈ fl -> ld64 (h_mem s) y = x -> 1 <= nunits <= xn ->
  exists x' m' fl', take_block nunits y x s = Ok (x' + 16) (MkHeap m' y (h_brk s)) /\ taken s fl nunits y x' m' fl'.
Proof.
  intros Hr Hy Hx E Hn. pose proof (r_room _ _ _ Hr) as Hroom.
  pose proof (ring_elem _ _ _ _ _ Hr Hx) as Hxe. pose proof (ring_elem _ _ _ _ _ Hr Hy) as Hye.
  destruct (ring_neighbours _ _ _ _ _ _ _ Hr Hy Hx E ltac:(lia)) as (l1 & l2 & Hfl).
  assert (fl = (l1 ++ [(y, yn)]) ++ (x, xn) :: l2) as Hfl2 by (by rewrite Hfl, <- app_assoc).
  rewrite Hfl2 in Hr. destruct (ring_link _ _ _ _ _ _ Hr) as [_ Hxs].
  unfold take_block. hstep. rewrite Hxs. destruct (Z.eqb_spec xn nunits) as [<-|Hne].
  - exists x. eexists _, _. split; [|rewrite <- Hfl2, Hfl in Hr; rewrite Hfl; apply take_exact; [exact Hr|lia]].
    erewrite bind_ok by (hstep; hstep; reflexivity). erewrite bind_ok by reflexivity.
    unfold ret. rewrite hadd_small by lia. by rewrite Z.mul_1_r.
  - exists (x + 16 * (xn - nunits)). eexists _, _. split.
    2: { rewrite Hfl2. apply (take_split s (l1 ++ [(y, yn)]) x xn l2 y yn); [done|apply elem_of_app; right; left|lia]. }
    rewrite u32_small by lia. erewrite bind_ok.
    2: { hstep. hstep. rewrite ld32_st32_eq, u32_small, hadd_small by lia. hstep. reflexivity. }
    erewrite bind_ok by reflexivity. unfold ret. rewrite hadd_small by lia. by rewrite Z.mul_1_r.
Qed.

(** ** malloc *)

(** The blocks that a client can hold while [fl] is free keep their bytes. *)
Definition keeps (s : heap) (fl : list block) (m' : gmap Z Z) : Prop :=
  forall b k z, 1 <= k -> base + 16 <= b -> b + 16 * k <= h_brk s -> apart b k fl -> b <= z < b + 16 * k ->
  ldb m' z = ldb (h_mem s) z.

(** What a call that found a block did. *)
Definition allocated (s : heap) (fl : list block) (nunits x : Z) (s' : heap) (fl' : list block) : Prop :=
  ring (h_mem s') (h_brk s') fl' /\ (exists k, (freep s', k) ∈ fl') /\ h_brk s <= h_brk s' /\
  ld32 (h_mem s') (x + 8) = nunits /\ base + 16 <= x /\ x + 16 * nunits <= h_brk s' /\ apart x nunits fl' /\
  keeps s fl (h_mem s') /\
  (forall b k, 1 <= k -> b + 16 * k <= h_brk s -> apart b k fl -> apart b k fl' /\ (b + 16 * k <= x \/ x + 16 * nunits <= b)).

(** Headers of free blocks are not in a client's block. *)
Lemma outside_headers m brk fl b k z : ring m brk fl -> base + 16 <= b -> 1 <= k -> apart b k fl -> b <= z < b + 16 * k ->
  forall a n, (a, n) ∈ fl -> z < a \/ a + 16 <= z.
Proof.
  intros Hr Hb Hk Hap Hz a n Hin. specialize (Hap a n Hin). pose proof (ring_elem _ _ _ _ _ Hr Hin). lia.
Qed.

Lemma taken_allocated s fl nunits y x m' fl' :
  1 <= nunits -> ring (h_mem s) (h_brk s) fl -> taken s fl nunits y x m' fl' ->
  allocated s fl nunits x (MkHeap m' y (h_brk s)) fl'.
Proof.
  intros Hn Hr (H1 & H2 & H3 & H4 & H5 & H6 & H7 & H8). repeat (split; [done||cbn; lia|]). split.
  - intros b k z Hk Hb Hlt Hap Hz. apply H7. intros a n [[= -> ->]|Hin]%elem_of_cons.
    + destruct (H8 b k Hk Hap) as [_ ?]. lia.
    + by eapply (outside_headers _ _ fl b k).
  - intros b k Hk _ Hap. by apply H8.
Qed.

(** One round of the ring. *)
Lemma malloc_round s fl fn nunits k :
  ring (h_mem s) (h_brk s) fl -> (freep s, fn) ∈ fl -> 1 <= nunits ->
  (exists x s' fl', (let! p := get_ptr (freep s) in malloc_loop (length fl + k) nunits (freep s) p) s = Ok (x + 16) s' /\
     allocated s fl nunits x s' fl') \/
  ((forall a n, (a, n) ∈ fl -> n < nunits) /\
   (let! p := get_ptr (freep s) in malloc_loop (length fl + k) nunits (freep s) p) s =
   (let! p := morecore nunits in if p =? 0 then ret 0 else let! q := get_ptr p in malloc_loop k nunits p q) s).
Proof.
  intros Hr Hf Hn. destruct (ring_round _ _ _ _ _ Hr Hf) as (t & e & Hin & Hnf & Hc & Hl & Hlen).
  pose proof (ring_elem _ _ _ _ _ Hr Hf). hstep. rewrite Hl, <- Hlen.
  rewrite (malloc_walk nunits fl e k s fn Hr t (freep s) (fun x => proj1 (Hin x)) Hnf Hc).
  destruct (first_fit nunits (freep s) _) as [[[y x] xn]|] eqn:E.
  - left. destruct (first_fit_some _ _ _ _ _ _ _ _ Hc Hl E) as (Ey & Hx & Hle & Hy).
    assert (exists yn, (y, yn) ∈ fl) as [yn Hyf] by (destruct Hy as [->|[yn Hy]]; [by exists fn|exists yn; by apply Hin]).
    apply Hin in Hx. destruct (take_block_spec s fl nunits y yn x xn Hr Hyf Hx Ey ltac:(lia)) as (x' & m' & fl' & Et & Ht).
    exists x', (MkHeap m' y (h_brk s)), fl'. split; [done|]. by apply taken_allocated.
  - right. split; [|done]. intros a n Ha. apply Hin in Ha. by eapply first_fit_none.
Qed.

(** [malloc] on a heap in use: a block, or 0 and no change. *)
Lemma malloc_ring s fl fn nunits k :
  ring (h_mem s) (h_brk s) fl -> (freep s, fn) ∈ fl -> 1 <= nunits -> nunits * 16 < 2 ^ 31 -> (2 * length fl + 1 <= k)%nat ->
  let o := (let! p := get_ptr (freep s) in malloc_loop k nunits (freep s) p) s in
  o = Ok 0 s \/ exists x s' fl', o = Ok (x + 16) s' /\ allocated s fl nunits x s' fl'.
Proof.
  intros Hr Hf Hn Hlt Hk o. subst o. replace k with (length fl + (k - length fl))%nat by lia.
  destruct (malloc_round s fl fn nunits (k - length fl) Hr Hf Hn) as [Hok|[Hsmall ->]]; [by right|].
  destruct (morecore_spec s fl fn nunits Hr Hf ltac:(lia) Hlt)
    as [E|(fl1 & m1 & p & brk1 & E & Hr1 & Hb1 & Hlen1 & (pk & Hp) & Hs1 & (a & n & Hfit & Hle) & Hap1)].
  { left. mstep E. done. }
  right. mstep E. pose proof (ring_elem _ _ _ _ _ Hr1 Hp) as Hpe. pose proof (r_room _ _ _ Hr1) as Hroom.
  rewrite (proj2 (Z.eqb_neq p 0)) by lia.
  replace (k - length fl)%nat with (length fl1 + (k - length fl - length fl1))%nat by lia.
  destruct (malloc_round (MkHeap m1 p brk1) fl1 pk nunits (k - length fl - length fl1) Hr1 Hp Hn)
    as [(x & s' & fl' & E' & H1 & H2 & H3 & H4 & H5 & H6 & H7 & H8 & H9)|[Hsm _]].
  2: { specialize (Hsm a n Hfit). lia. }
  exists x, s', fl'. split; [exact E'|]. cbn [h_brk] in *. repeat (split; [done||lia|]). split.
  - intros b j z Hj Hb Hbrk Hap Hz. rewrite (H8 b j z); cbn [h_mem h_brk]; try done; [|lia|by apply Hap1].
    apply Hs1. intros c i [[= -> ->]|Hc]%elem_of_cons; [lia|]. by eapply (outside_headers _ _ fl b j).
  - intros b j Hj Hbrk Hap. apply H9; [done|lia|by apply Hap1].
Qed.

(** ** A heap and its clients *)

(** [live] has the blocks that are allocated, by the address of their header, with
    their units. *)
Record heap_inv (s : heap) (live : gmap Z Z) : Prop := {
  hi_live : forall a n, live !! a = Some n ->
    1 <= n /\ base + 16 <= a /\ a + 16 * n <= h_brk s /\ ld32 (h_mem s) (a + 8) = n;
  hi_disj : forall a b n k, live !! a = Some n -> live !! b = Some k -> a <> b -> a + 16 * n <= b \/ b + 16 * k <= a;
  hi_room : base + 16 <= h_brk s <= 2 ^ 27;
  hi_free : (freep s = 0 /\ live = ∅) \/
    exists fl, ring (h_mem s) (h_brk s) fl /\ (exists fn, (freep s, fn) ∈ fl) /\
      forall a n, live !! a = Some n -> apart a n fl
}.

(** The bytes of the blocks in [live]. *)
Definition same_live (live : gmap Z Z) (s s' : heap) : Prop :=
  forall a n z, live !! a = Some n -> a <= z < a + 16 * n -> ldb (h_mem s') z = ldb (h_mem s) z.

Lemma same_live_size live s s' a n : same_live live s s' -> live !! a = Some n -> 1 <= n ->
  ld32 (h_mem s') (a + 8) = ld32 (h_mem s) (a + 8).
Proof. intros Hs Ha Hn. apply ld32_ext. intros x Hx. apply (Hs a n x Ha). lia. Qed.

Lemma units_bounds n : 0 <= n < 2 ^ 31 - 32 -> 1 <= units n /\ n <= 16 * units n - 16 /\ units n * 16 < 2 ^ 31.
Proof. intros Hn. unfold units. rewrite u32_small; Z.div_mod_to_equations; lia. Qed.

(** The first call makes the ring of [base] alone. *)
Lemma first_ring s : base + 16 <= h_brk s <= 2 ^ 27 ->
  exists m', (set_ptr base base ;; set_freep base ;; set_size base 0) s = Ok tt (MkHeap m' base (h_brk s)) /\
    ring m' (h_brk s) [(base, 0)].
Proof.
  intros Hb. pose proof base_low. hstep. erewrite bind_ok by reflexivity. rewrite set_size_ok by (cbn; lia).
  eexists. split; [reflexivity|]. cbn [h_mem freep h_brk]. split; [|cbn; lia|by exists []|lia].
  cbn. rewrite ld64_st32_ne, ld64_st64_eq, u64_small, ld32_st32_eq by lia. done.
Qed.

(** Either way a call of [malloc] searches a ring that is apart from the client's blocks. *)
Lemma malloc_start s live nbytes : heap_inv s live ->
  exists s1 fl fn, malloc nbytes s = (let! p := get_ptr (freep s1) in malloc_loop (2 * ring_fuel s1 + 2) (units nbytes) (freep s1) p) s1 /\
    h_brk s1 = h_brk s /\ same_live live s s1 /\ ring (h_mem s1) (h_brk s1) fl /\ (freep s1, fn) ∈ fl /\
    (forall a n, live !! a = Some n -> apart a n fl).
Proof.
  intros [Hl Hd Hr [[Hf ->]|(fl & Hring & [fn Hfn] & Hap)]].
  - destruct (first_ring s Hr) as (m' & E & Hring). exists (MkHeap m' base (h_brk s)), [(base, 0)], 0.
    split; [|split; [done|split; [by intros a n z ?%lookup_empty_Some|split; [done|split; [left|by intros a n ?%lookup_empty_Some]]]]].
    unfold malloc. erewrite bind_ok by reflexivity. unfold id. rewrite Hf. cbn [Z.eqb]. mstep E. done.
  - exists s, fl, fn. split; [|done]. unfold malloc. erewrite bind_ok by reflexivity. unfold id.
    pose proof (ring_elem _ _ _ _ _ Hring Hfn). pose proof (r_room _ _ _ Hring).
    rewrite (proj2 (Z.eqb_neq (freep s) 0)) by lia. done.
Qed.

(** The header of a block that was just allocated is none of the live ones. *)
Definition fresh_block (s : heap) (live : gmap Z Z) (a n : Z) : Prop :=
  live !! a = None /\ base + 16 <= a /\ a + 16 * n <= h_brk s /\
  forall b k, live !! b = Some k -> b + 16 * k <= a \/ a + 16 * n <= b.

Lemma inv_change s live s' : heap_inv s live -> same_live live s s' -> h_brk s <= h_brk s' <= 2 ^ 27 ->
  ((freep s' = 0 /\ live = ∅) \/ exists fl, ring (h_mem s') (h_brk s') fl /\ (exists fn, (freep s', fn) ∈ fl) /\
      forall a n, live !! a = Some n -> apart a n fl) -> heap_inv s' live.
Proof.
  intros [Hl Hd Hr _] Hs Hb Hf. split; [|done|lia|done]. intros a n Ha. destruct (Hl a n Ha) as (H1 & H2 & H3 & H4).
  rewrite (same_live_size live s s' a n) by done. repeat split; try done; lia.
Qed.

Lemma malloc_inv s live nbytes : heap_inv s live -> 0 <= nbytes < 2 ^ 31 - 32 ->
  exists p s', malloc nbytes s = Ok p s' /\ same_live live s s' /\
    (p = 0 /\ heap_inv s' live \/
     fresh_block s' live (p - 16) (units nbytes) /\ heap_inv s' (<[p - 16 := units nbytes]> live) /\ p <> 0).
Proof.
  intros Hi Hn. destruct (units_bounds nbytes Hn) as (Hu1 & Hu2 & Hu3).
  destruct (malloc_start s live nbytes Hi) as (s1 & fl & fn & -> & Hb & Hs1 & Hr & Hf & Hap).
  pose proof (hi_room _ _ Hi) as Hroom. pose proof (ring_length _ _ _ s1 Hr eq_refl) as Hlen.
  assert (heap_inv s1 live) as Hi1 by (apply (inv_change s); [done|done|lia|right; exists fl; by eauto]).
  destruct (malloc_ring s1 fl fn (units nbytes) (2 * ring_fuel s1 + 2) Hr Hf Hu1 Hu3 ltac:(lia))
    as [E|(x & s' & fl' & E & Hr' & Hf' & Hb' & Hsz & Hx1 & Hx2 & Hxap & Hk & Hap')].
  { exists 0, s1. split; [done|]. split; [done|]. left. by split. }
  assert (same_live live s1 s') as Hs2.
  { intros a n z Ha Hz. destruct (hi_live _ _ Hi1 a n Ha) as (? & ? & ? & _). apply (Hk a n z); try done. by apply Hap. }
  pose proof (r_room _ _ _ Hr') as Hroom'.
  assert (forall a n, live !! a = Some n -> apart a n fl' /\ (a + 16 * n <= x \/ x + 16 * units nbytes <= a)) as Hlive.
  { intros a n Ha. destruct (hi_live _ _ Hi1 a n Ha) as (? & ? & ? & _). apply Hap'; try done. by apply Hap. }
  exists (x + 16), s'. split; [done|]. split; [by intros a n z Ha Hz; rewrite (Hs2 a n z), (Hs1 a n z)|]. right.
  replace (x + 16 - 16) with x by lia. split; [|split; [|lia]].
  - split; [|split; [done|split; [done|intros b k Hbk; by apply Hlive]]].
    apply eq_None_not_Some. intros [n Hxn]. destruct (Hlive x n Hxn) as [_ ?]. destruct (hi_live _ _ Hi1 x n Hxn). lia.
  - assert (heap_inv s' live) as [Hl2 Hd2 _ _]
      by (apply (inv_change s1); [done|done|lia|right; exists fl'; split; [done|split; [done|]]; intros a n Ha; by apply Hlive]).
    split; [| |lia|right; exists fl'; split; [done|split; [done|]]].
    + intros a n [[<- <-]|[_ Ha]]%lookup_insert_Some; [done|by apply Hl2].
    + intros a b n k [[<- <-]|[_ Ha]]%lookup_insert_Some [[<- <-]|[_ Hbk]]%lookup_insert_Some Hne;
        [done|destruct (Hlive b k Hbk); lia|destruct (Hlive a n Ha); lia|by apply Hd2].
    + intros a n [[<- <-]|[_ Ha]]%lookup_insert_Some; [done|by apply Hlive].
Qed.

Lemma free_inv s live a n : heap_inv s live -> live !! a = Some n ->
  exists s', free (a + 16) s = Ok tt s' /\ same_live (delete a live) s s' /\ heap_inv s' (delete a live).
Proof.
  intros Hi Ha. destruct (hi_live _ _ Hi a n Ha) as (Hn & Hb & Hbrk & Hsz).
  destruct (hi_free _ _ Hi) as [[_ ->]|(fl & Hr & [fn Hf] & Hap)]; [by apply lookup_empty_Some in Ha|].
  assert (new_block (h_mem s) (h_brk s) fl a n) as Hnb.
  { repeat split; try done. intros b k Hbk. destruct (Hap a n Ha b k Hbk); lia. }
  destruct (free_spec s fl fn a n Hr Hf Hnb) as (fl' & m' & p & E & Hr' & _ & Hp & Hs & _ & Hap').
  assert (forall b k, delete a live !! b = Some k -> apart b k ((a, n) :: fl)) as Hlive.
  { intros b k [Hne Hbk]%lookup_delete_Some. apply apart_cons. split; [by apply (hi_disj _ _ Hi)|by apply Hap]. }
  assert (same_live (delete a live) s (MkHeap m' p (h_brk s))) as Hsl.
  { intros b k z Hbk Hz. pose proof (Hlive b k Hbk) as [Hab Hbf]%apart_cons.
    apply lookup_delete_Some in Hbk as [Hne Hbk]. destruct (hi_live _ _ Hi b k Hbk) as (? & ? & _).
    apply Hs. intros c j [[= -> ->]|Hc]%elem_of_cons; [lia|]. by eapply (outside_headers _ _ fl b k). }
  exists (MkHeap m' p (h_brk s)). split; [done|]. split; [done|].
  apply (inv_change s).
  - split; [| |apply Hi|]; [intros b k [_ Hbk]%lookup_delete_Some; by apply Hi| |].
    + intros b c k j [_ Hbk]%lookup_delete_Some [_ Hcj]%lookup_delete_Some. by apply Hi.
    + right. exists fl. split; [done|]. split; [by exists fn|]. intros b k [_ Hbk]%lookup_delete_Some. by apply Hap.
  - done.
  - cbn. destruct (hi_room _ _ Hi). lia.
  - right. exists fl'. split; [done|]. split; [done|]. intros b k Hbk. apply Hap'; [|by apply Hlive].
    apply lookup_delete_Some in Hbk as [_ Hbk]. by apply Hi in Hbk as [? _].
Qed.

(** A byte stored in the part of a block that is the client's. *)
Lemma store_inv s live a n x v : heap_inv s live -> live !! a = Some n -> a + 16 <= x < a + 16 * n ->
  heap_inv (MkHeap (stb (h_mem s) x v) (freep s) (h_brk s)) live.
Proof.
  intros Hi Ha Hx. pose proof (hi_live _ _ Hi a n Ha) as (_ & Hb & Hbrk & _).
  assert (forall b k, live !! b = Some k -> b <> a -> b + 16 * k <= x \/ x < b) as Hout.
  { intros b k Hbk Hne. destruct (hi_disj _ _ Hi a b n k Ha Hbk ltac:(congruence)); lia. }
  assert (forall c y, (forall z, c <= z < c + y -> z <> x) -> forall z, c <= z < c + y -> ldb (stb (h_mem s) x v) z = ldb (h_mem s) z) as Hld.
  { intros c y Hc z Hz. rewrite ldb_stb, decide_False by (by apply Hc). done. }
  split; cbn [h_mem h_brk freep]; [|apply Hi|apply Hi|].
  - intros b k Hbk. destruct (hi_live _ _ Hi b k Hbk) as (H1 & H2 & H3 & H4). repeat split; try done.
    rewrite <- H4. apply ld32_ext, Hld. intros z Hz ->. destruct (decide (b = a)) as [->|Hne]; [lia|].
    destruct (Hout b k Hbk Hne); lia.
  - destruct (hi_free _ _ Hi) as [Hf|(fl & Hr & Hf & Hap)]; [by left|]. right. exists fl. split; [|done].
    split; [|apply Hr|apply Hr|apply Hr]. eapply chain_frame; [apply Hr|]. intros c j Hc.
    pose proof (ring_elem _ _ _ _ _ Hr Hc) as Hce. specialize (Hap a n Ha c j Hc).
    split; [apply ld64_ext|apply ld32_ext]; apply Hld; intros z Hz ->; lia.
Qed.

Lemma sbrk_inv s live n : heap_inv s live -> 0 < n < 2 ^ 31 -> exists r s', sbrk n s = Ok r s' /\ heap_inv s' live.
Proof.
  intros Hi Hn. pose proof (hi_room _ _ Hi) as Hroom. pose proof base_low.
  destruct (sbrk_grow s n Hn ltac:(lia)) as [E|[E Hmax]]; eexists _, _; (split; [exact E|]); [done|].
  apply (inv_change s); [done|done|cbn; lia|]. destruct (hi_free _ _ Hi) as [Hf|(fl & Hr & Hf & Hap)]; [by left|].
  right. exists fl. split; [|done]. split; [apply Hr|eapply gaps_weaken; [apply Hr|cbn; lia]|apply Hr|cbn; lia].
Qed.

(** What a client does: it asks for blocks, frees blocks it holds, writes in them, and
    grows the process for its own use. *)
Inductive client_step : heap * gmap Z Z -> heap * gmap Z Z -> Prop :=
| step_malloc s live nbytes p s' :
    0 <= nbytes < 2 ^ 31 - 32 -> malloc nbytes s = Ok p s' ->
    client_step (s, live) (s', if p =? 0 then live else <[p - 16 := units nbytes]> live)
| step_free s live a n s' :
    live !! a = Some n -> free (a + 16) s = Ok tt s' -> client_step (s, live) (s', delete a live)
| step_store s live a n x v :
    live !! a = Some n -> a + 16 <= x < a + 16 * n ->
    client_step (s, live) (MkHeap (stb (h_mem s) x v) (freep s) (h_brk s), live)
| step_sbrk s live n r s' :
    0 < n < 2 ^ 31 -> sbrk n s = Ok r s' -> client_step (s, live) (s', live).

Lemma client_inv x y : client_step x y -> heap_inv x.1 x.2 -> heap_inv y.1 y.2.
Proof.
  intros Hst. destruct Hst as [s live nbytes p s' Hn E|s live a n s' Ha E|s live a n x v Ha Hx|s live n r s' Hn E]; cbn; intros Hi.
  - destruct (malloc_inv s live nbytes Hi Hn) as (q & s1 & E' & _ & [[-> Hi']|(_ & Hi' & Hne)]);
      rewrite E in E'; simplify_eq; [done|]. by rewrite (proj2 (Z.eqb_neq q 0)).
  - destruct (free_inv s live a n Hi Ha) as (s1 & E' & _ & Hi'). rewrite E in E'. by simplify_eq.
  - by eapply store_inv.
  - destruct (sbrk_inv s live n Hi Hn) as (r' & s1 & E' & Hi'). rewrite E in E'. by simplify_eq.
Qed.

Definition client_run := rtc client_step.

Lemma client_run_inv x y : client_run x y -> heap_inv x.1 x.2 -> heap_inv y.1 y.2.
Proof. induction 1; eauto using client_inv. Qed.

Lemma fresh_inv m brk : base + 16 <= brk <= 2 ^ 27 -> heap_inv (MkHeap m 0 brk) ∅.
Proof.
  intros Hb. split; cbn; [by intros a n ?%lookup_empty_Some|by intros a b n k ?%lookup_empty_Some|done|by left].
Qed.
End Malloc.

(** C7: whatever a client of [malloc] and [free] does with the blocks it holds, starting with
    an unused allocator, the blocks lie in memory and no two overlap; every request of less than
    2^31 - 32 bytes returns, with 0 or with a block that is large enough, lies in memory and
    overlaps none; every block held can be freed; and neither call changes a byte of another block. *)
Theorem allocator_safe `{Process} `{!ProcessOk} m brk s live :
  base + 16 <= brk <= 2 ^ 27 -> client_run (MkHeap m 0 brk, ∅) (s, live) ->
  (forall a n, live !! a = Some n -> base + 16 <= a /\ a + 16 * n <= h_brk s) /\
  (forall a b n k, live !! a = Some n -> live !! b = Some k -> a <> b -> a + 16 * n <= b \/ b + 16 * k <= a) /\
  (forall nbytes, 0 <= nbytes < 2 ^ 31 - 32 -> exists p s', malloc nbytes s = Ok p s' /\ same_live live s s' /\
     (p = 0 \/ exists n, nbytes <= 16 * n - 16 /\ fresh_block s' live (p - 16) n)) /\
  (forall a n, live !! a = Some n -> exists s', free (a + 16) s = Ok tt s' /\ same_live (delete a live) s s').
Proof.
  intros Hb Hrun. assert (heap_inv s live) as Hi by exact (client_run_inv _ _ Hrun (fresh_inv m brk Hb)).
  split; [|split; [|split]].
  - intros a n Ha. by destruct (hi_live _ _ Hi a n Ha) as (_ & ? & ? & _).
  - apply Hi.
  - intros nbytes Hn. destruct (malloc_inv s live nbytes Hi Hn) as (p & s' & E & Hs & Hp).
    exists p, s'. split; [done|]. split; [done|]. destruct (units_bounds nbytes Hn) as (_ & ? & _).
    destruct Hp as [[-> _]|(Hf & _)]; [by left|right]. by exists (units nbytes).
  - intros a n Ha. destruct (free_inv s live a n Hi Ha) as (s' & E & Hs & _). by exists s'.
Qed.

(** ** A run *)

(** A process of 64 KiB with [base] at 0x1000, which can grow to 128 MiB. *)
Definition demo_process : Process := {| base := 0x1000; grant s n := h_brk s + n <=? 2 ^ 27 |}.

Lemma demo_process_ok : @ProcessOk demo_process.
Proof. constructor; [done|]. cbn. intros s n Hg. by apply Z.leb_le. Qed.

Definition demo_heap : heap := MkHeap ∅ 0 0x4000.
Definition heap_of {A} (o : outcome heap A) : heap := match o with Ok _ s => s | _ => demo_heap end.
Definition ptr_of (o : outcome heap Z) : Z := match o with Ok p _ => p | _ => 0 end.

(** Two blocks are allocated and one is freed. *)
Definition demo_s1 : heap := heap_of (@malloc demo_process 100 demo_heap).
Definition demo_s2 : heap := heap_of (@malloc demo_process 20 demo_s1).
Definition demo_s3 : heap := heap_of (free 0x13f90 demo_s2).

Lemma allocator_safe_witness :
  exists live s', @client_run demo_process (demo_heap, ∅) (demo_s3, live) /\ live !! 0x13f50 = Some 3 /\
    free (0x13f50 + 16) demo_s3 = Ok tt s'.
Proof.
  assert (@client_run demo_process (demo_heap, ∅)
            (demo_s3, delete 0x13f80 (<[0x13f50 := 3]> (<[0x13f80 := 8]> ∅)))) as Hrun.
  { eapply rtc_l; [apply (@step_malloc demo_process _ _ 100 0x13f90 demo_s1); [lia|vm_compute; reflexivity]|].
    eapply rtc_l; [apply (@step_malloc demo_process _ _ 20 0x13f60 demo_s2); [lia|vm_compute; reflexivity]|].
    apply rtc_once. apply (@step_free demo_process _ _ 0x13f80 8 demo_s3); [reflexivity|vm_compute; reflexivity]. }
  destruct (allocator_safe (H := demo_process) (H0 := demo_process_ok) ∅ 0x4000 _ _ ltac:(cbn; lia) Hrun)
    as (_ & _ & _ & Hfree).
  destruct (Hfree 0x13f50 3 eq_refl) as (s' & E & _). eexists _, s'. split; [exact Hrun|]. split; [reflexivity|exact E].
Defined.

(** A request for 4 GiB gets a pointer: the number of bytes that [morecore] asks for wraps
    to 16, and the block that it puts on the list ends far beyond the break. *)
Lemma malloc_huge :
  exists s', @malloc demo_process (2 ^ 32 - 1) demo_heap = Ok 0x4010 s' /\ h_brk s' = 0x4010.
Proof. eexists. vm_compute. split; reflexivity. Qed.
