(* ===== verification/Grind.v ===== *)
(** * grind

    [user/grind.c], a program that makes random system calls, as a tree of system calls, and the
    generator of its random numbers, which is the one of Park and Miller. *)

From stdpp Require Import gmap strings list.
From Stdlib Require Import Znumtheory.
From S2P Require Import Prelude Layout User Ulib Uprintf Uprogs.

(** ** Calls that store for the caller *)

(** [pipe(fds)]: the value, and the descriptors when it is 0. *)
Definition pipe_call (k : Z -> Z -> Z -> prog unit) : prog unit :=
  x ← sys_data Pipe;
  if x.1 <? 0 then k x.1 0 0
  else match x.2 with [p0; p1] => k x.1 p0 p1 | _ => Undef "pipe" end.

(** [wait(&st)]: the value, and what is in [st], which was [st] before. *)
Definition wait_into (st : option Z) : prog (Z * option Z) :=
  x ← sys_data Wait;
  match x.2 with
  | [v] => mret (x.1, if x.1 <? 0 then st else Some v)
  | _ => mret (x.1, st)
  end.

(** The value of a variable that should have been set. *)
Definition initialised (o : option Z) : prog Z := match o with Some v => mret v | None => Undef "uninitialised" end.

(** [n] bytes read into [buf] at offset [off]: the value, and the array. *)
Definition read_into (fd n : Z) (off : nat) (buf : list Z) : prog (Z * list Z) :=
  x ← sys_data (Read fd n);
  mret (x.1, take off buf ++ take (length buf - off) x.2 ++ drop (off + length x.2) buf).

Definition invoke (c : call) : prog unit := _ ← sys c; mret tt.

(** [printf(msg); exit(1);] *)
Definition fail {A} (msg : string) : prog A := _ ← printf (msg +:+ nl) []; exit 1.

(** ** The generator *)

(** The [int] returned, which is also the new state. *)
Definition do_rand (ctx : Z) : Z :=
  let x := ctx mod 0x7ffffffe + 1 in
  let hi := Z.quot x 127773 in
  let lo := Z.rem x 127773 in
  let x := 16807 * lo - 2836 * hi in
  let x := if x <? 0 then x + 0x7fffffff else x in
  x - 1.

(** ** go *)

(** The variables of [go] that the turns of its loop share, and [rand_next]. *)
Record grind : Type := MkGrind { g_fd : Z; g_buf : list Z; g_rand : Z; g_iters : Z }.

Definition O_CR : Z := Z.lor O_CREATE O_RDWR.

(** [close(open(path, O_CREATE|O_RDWR))] *)
Definition touch (path : string) : prog unit := fd ← sys (Open (lit path) O_CR); invoke (Close fd).

(** [pid = fork(); if(pid == 0){ child; } else if(pid < 0){ ... exit(1); } wait(0);] *)
Definition fork_wait (child : prog unit) : prog unit :=
  pid ← sys Fork;
  if pid =? 0 then child
  else if pid <? 0 then fail "grind: fork failed"
  else invoke Wait.

(** Cases 1 to 12: files. *)
Definition go_files (what : Z) (fd : Z) (buf : list Z) : prog (Z * list Z) :=
  if what =? 1 then _ ← touch "grindir/../a"; mret (fd, buf)
  else if what =? 2 then _ ← touch "grindir/../grindir/../b"; mret (fd, buf)
  else if what =? 3 then _ ← invoke (Unlink (lit "grindir/../a")); mret (fd, buf)
  else if what =? 4 then
    r ← sys (Chdir (lit "grindir"));
    if negb (r =? 0) then fail "grind: chdir grindir failed"
    else
      _ ← invoke (Unlink (lit "../b"));
      _ ← invoke (Chdir (lit "/"));
      mret (fd, buf)
  else if what =? 5 then
    _ ← invoke (Close fd);
    fd ← sys (Open (lit "/grindir/../a") O_CR);
    mret (fd, buf)
  else if what =? 6 then
    _ ← invoke (Close fd);
    fd ← sys (Open (lit "/./grindir/./../b") O_CR);
    mret (fd, buf)
  else if what =? 7 then _ ← invoke (Write fd buf); mret (fd, buf)
  else if what =? 8 then x ← read_into fd 999 0 buf; mret (fd, x.2)
  else if what =? 9 then
    _ ← invoke (Mkdir (lit "grindir/../a"));
    _ ← touch "a/../a/./a";
    _ ← invoke (Unlink (lit "a/a"));
    mret (fd, buf)
  else if what =? 10 then
    _ ← invoke (Mkdir (lit "/../b"));
    _ ← touch "grindir/../b/b";
    _ ← invoke (Unlink (lit "b/b"));
    mret (fd, buf)
  else if what =? 11 then
    _ ← invoke (Unlink (lit "b"));
    _ ← invoke (Link (lit "../grindir/./../a") (lit "../b"));
    mret (fd, buf)
  else
    _ ← invoke (Unlink (lit "../grindir/../a"));
    _ ← invoke (Link (lit ".././b") (lit "/grindir/../a"));
    mret (fd, buf).

(** Cases 13 to 20: processes. *)
Definition go_procs (what break0 : Z) : prog unit :=
  if what =? 13 then fork_wait (exit 0)
  else if what =? 14 then fork_wait (_ ← invoke Fork; _ ← invoke Fork; exit 0)
  else if what =? 15 then invoke (Sbrk 6011)
  else if what =? 16 then
    brk ← sys (Sbrk 0);
    if break0 <? brk then brk ← sys (Sbrk 0); invoke (Sbrk (s32 (- (brk - break0)))) else mret tt
  else if what =? 17 then
    pid ← sys Fork;
    if pid =? 0 then _ ← touch "a"; exit 0
    else if pid <? 0 then fail "grind: fork failed"
    else
      r ← sys (Chdir (lit "../grindir/.."));
      if negb (r =? 0) then fail "grind: chdir failed"
      else _ ← invoke (Kill pid); invoke Wait
  else if what =? 18 then fork_wait (pid ← sys Getpid; _ ← invoke (Kill pid); exit 0)
  else if what =? 19 then
    pipe_call (fun r fds0 fds1 =>
      if r <? 0 then fail "grind: pipe failed"
      else
        pid ← sys Fork;
        if pid =? 0 then
          _ ← invoke Fork;
          _ ← invoke Fork;
          r ← sys (Write fds1 (lit "x"));
          _ ← (if negb (r =? 1) then printf ("grind: pipe write failed" +:+ nl) [] else mret tt);
          r ← sys (Read fds0 1);
          _ ← (if negb (r =? 1) then printf ("grind: pipe read failed" +:+ nl) [] else mret tt);
          exit 0
        else if pid <? 0 then fail "grind: fork failed"
        else
          _ ← invoke (Close fds0);
          _ ← invoke (Close fds1);
          invoke Wait)
  else
    fork_wait
      (_ ← invoke (Unlink (lit "a"));
       _ ← invoke (Mkdir (lit "a"));
       _ ← invoke (Chdir (lit "a"));
       _ ← invoke (Unlink (lit "../a"));
       _ ← sys (Open (lit "x") O_CR);
       _ ← invoke (Unlink (lit "x"));
       exit 0).

(** Case 21: create, write and check a file. *)
Definition go_file : prog unit :=
  _ ← invoke (Unlink (lit "c"));
  fd1 ← sys (Open (lit "c") O_CR);
  if fd1 <? 0 then fail "grind: create c failed" else
  r ← sys (Write fd1 (lit "x"));
  if negb (r =? 1) then fail "grind: write c failed" else
  st ← sys_data (Fstat fd1);
  if negb (st.1 =? 0) then fail "grind: fstat failed" else
  let size := stat_size st.2 in
  if negb (size =? 1) then _ ← printf ("grind: fstat reports wrong size %d" +:+ nl) [AInt (s32 size)]; exit 1 else
  let ino := stat_ino st.2 in
  if 200 <? ino then _ ← printf ("grind: fstat reports crazy i-number %d" +:+ nl) [AInt ino]; exit 1 else
  _ ← invoke (Close fd1);
  invoke (Unlink (lit "c")).

(** [fprintf(2, msg); exit(status);] *)
Definition die2 {A} (msg : string) (status : Z) : prog A := _ ← fprintf 2 (msg +:+ nl) []; exit status.

(** Case 22: echo hi | cat. *)
Definition go_pipeline : prog unit :=
  pipe_call (fun r aa0 aa1 =>
  if r <? 0 then die2 "grind: pipe failed" 1 else
  pipe_call (fun r bb0 bb1 =>
  if r <? 0 then die2 "grind: pipe failed" 1 else
  pid1 ← sys Fork;
  if pid1 =? 0 then
    _ ← invoke (Close bb0); _ ← invoke (Close bb1); _ ← invoke (Close aa0); _ ← invoke (Close 1);
    r ← sys (Dup aa1);
    if negb (r =? 1) then die2 "grind: dup failed" 1 else
    _ ← invoke (Close aa1);
    _ ← invoke (Exec (lit "grindir/../echo") [lit "echo"; lit "hi"]);
    die2 "grind: echo: not found" 2
  else if pid1 <? 0 then die2 "grind: fork failed" 3 else
  pid2 ← sys Fork;
  if pid2 =? 0 then
    _ ← invoke (Close aa1); _ ← invoke (Close bb0); _ ← invoke (Close 0);
    r ← sys (Dup aa0);
    if negb (r =? 0) then die2 "grind: dup failed" 4 else
    _ ← invoke (Close aa0); _ ← invoke (Close 1);
    r ← sys (Dup bb1);
    if negb (r =? 1) then die2 "grind: dup failed" 5 else
    _ ← invoke (Close bb1);
    _ ← invoke (Exec (lit "/cat") [lit "cat"]);
    die2 "grind: cat: not found" 6
  else if pid2 <? 0 then die2 "grind: fork failed" 7 else
  _ ← invoke (Close aa0); _ ← invoke (Close aa1); _ ← invoke (Close bb1);
  x ← read_into bb0 1 0 [0; 0; 0; 0];
  x ← read_into bb0 1 1 x.2;
  x ← read_into bb0 1 2 x.2;
  let buf := x.2 in
  _ ← invoke (Close bb0);
  w1 ← wait_into None;
  w2 ← wait_into None;
  st1 ← initialised w1.2;
  st2 ← initialised w2.2;
  if negb (st1 =? 0) || negb (st2 =? 0) || negb (bool_decide (strcmp buf (lit ("hi" +:+ nl) ++ [0]) = Some 0)) then
    _ ← printf ("grind: exec pipeline failed %d %d " +:+ String (Ascii.ascii_of_nat 34) EmptyString +:+ "%s" +:+
                String (Ascii.ascii_of_nat 34) EmptyString +:+ nl) [AInt st1; AInt st2; AStr (Some (cstr buf))];
    exit 1
  else mret tt)).

(** The loop, for [k] turns. *)
Fixpoint go_loop (k : nat) (which_child break0 : Z) (g : grind) : prog unit :=
  match k with
  | O => Unfinished
  | S k =>
      let iters := u64 (g_iters g + 1) in
      _ ← (if iters mod 500 =? 0 then invoke (Write 1 (if which_child =? 0 then lit "A" else lit "B")) else mret tt);
      let r := do_rand (g_rand g) in
      let what := Z.rem r 23 in
      x ← (if (1 <=? what) && (what <=? 12) then go_files what (g_fd g) (g_buf g)
           else
             _ ← (if (13 <=? what) && (what <=? 20) then go_procs what break0
                  else if what =? 21 then go_file
                  else if what =? 22 then go_pipeline
                  else mret tt);
             mret (g_fd g, g_buf g));
      go_loop k which_child break0 (MkGrind x.1 x.2 r iters)
  end.

Definition go (k : nat) (rand_next which_child : Z) : prog unit :=
  break0 ← sys (Sbrk 0);
  _ ← invoke (Mkdir (lit "grindir"));
  r ← sys (Chdir (lit "grindir"));
  if negb (r =? 0) then fail "grind: chdir grindir failed"
  else
    _ ← invoke (Chdir (lit "/"));
    go_loop k which_child break0 (MkGrind (-1) (replicate 999 0) rand_next 0).

Definition iter (k : nat) : prog unit :=
  _ ← invoke (Unlink (lit "a"));
  _ ← invoke (Unlink (lit "b"));
  pid1 ← sys Fork;
  if pid1 <? 0 then fail "grind: fork failed"
  else if pid1 =? 0 then _ ← go k 31 0; exit 0
  else
    pid2 ← sys Fork;
    if pid2 <? 0 then fail "grind: fork failed"
    else if pid2 =? 0 then _ ← go k 7177 1; exit 0
    else
      w1 ← wait_into (Some (-1));
      st1 ← initialised w1.2;
      _ ← (if negb (st1 =? 0) then _ ← invoke (Kill pid1); invoke (Kill pid2) else mret tt);
      _ ← wait_into (Some (-1));
      exit 0.

Fixpoint grind_main (k : nat) : prog unit :=
  match k with
  | O => Unfinished
  | S k =>
      pid ← sys Fork;
      if pid =? 0 then _ ← iter k; exit 0
      else
        _ ← (if 0 <? pid then invoke Wait else mret tt);
        _ ← invoke (Sleep 20);
        grind_main k
  end.

(** ** The generator is that of Park and Miller *)

(** Schrage's method of computing [16807 * x] modulo the prime [2^31 - 1]. *)
Lemma schrage x : 0 < x < 0x7fffffff ->
  let r := 16807 * (x mod 127773) - 2836 * (x / 127773) in
  (if r <? 0 then r + 0x7fffffff else r) = (16807 * x) mod 0x7fffffff.
Proof.
  intros Hx r. assert (r = 16807 * x - 0x7fffffff * (x / 127773)) as Er.
  { unfold r. pose proof (Z.div_mod x 127773 ltac:(lia)). lia. }
  pose proof (Z.mod_pos_bound x 127773 ltac:(lia)). assert (0 <= x / 127773 <= 16807) by (split; [apply Z.div_pos; lia|apply Z.lt_succ_r, Z.div_lt_upper_bound; lia]).
  assert (- 0x7fffffff < r < 0x7fffffff) as Hr by (unfold r; lia). destruct (Z.ltb_spec r 0).
  - apply Z.mod_unique with (q := x / 127773 - 1); lia.
  - apply Z.mod_unique with (q := x / 127773); lia.
Qed.

Lemma multiple_nonzero x : 0 < x < 0x7fffffff -> (16807 * x) mod 0x7fffffff <> 0.
Proof.
  intros Hx H0. apply Z.mod_divide in H0; [|lia]. apply Z.gauss in H0; [|by vm_compute].
  destruct H0 as [q Hq]. nia.
Qed.

(** The random numbers of [grind] are those of the minimal standard generator: from
    state [s] the next number is [16807 * x mod (2^31 - 1) - 1] where [x] is the state brought
    into the generator's range from 1 to [2^31 - 2], computed by Schrage's method, in
    which no intermediate value leaves 32 bits; it is in [0 .. 2^31 - 3], the range of states. *)
Theorem do_rand_minimal_standard ctx :
  let x := ctx mod 0x7ffffffe + 1 in
  do_rand ctx = (16807 * x) mod 0x7fffffff - 1 /\ 0 <= do_rand ctx < 0x7ffffffe /\
  - 2 ^ 31 <= 16807 * Z.rem x 127773 < 2 ^ 31 /\ - 2 ^ 31 <= 2836 * Z.quot x 127773 < 2 ^ 31 /\
  - 2 ^ 31 <= 16807 * Z.rem x 127773 - 2836 * Z.quot x 127773 < 2 ^ 31.
Proof.
  intros x. assert (0 < x < 0x7fffffff) as Hx by (unfold x; pose proof (Z.mod_pos_bound ctx 0x7ffffffe ltac:(lia)); lia).
  assert (do_rand ctx = (16807 * x) mod 0x7fffffff - 1) as E.
  { unfold do_rand. fold x. rewrite Z.quot_div_nonneg, Z.rem_mod_nonneg by lia. by rewrite schrage. }
  rewrite Z.quot_div_nonneg, Z.rem_mod_nonneg by lia. pose proof (multiple_nonzero x Hx). pose proof (Z.mod_pos_bound (16807 * x) 0x7fffffff ltac:(lia)).
  pose proof (Z.mod_pos_bound x 127773 ltac:(lia)). assert (0 <= x / 127773 <= 16807) by (split; [apply Z.div_pos; lia|apply Z.lt_succ_r, Z.div_lt_upper_bound; lia]).
  split; [done|]. rewrite E. lia.
Qed.
