(* ===== verification/UtMem.v ===== *)
(** * usertests: memory

    The tests of [user/usertests.c] that pass bad pointers to system calls, grow and shrink the
    process, or read and write memory that is not theirs, as trees of system calls. *)

From stdpp Require Import gmap strings list.
From S2P Require Import Prelude Layout Umalloc User Ulib Uprintf Uprogs Grind.

(** ** What the tests share *)

Abbreviation BUFSZ := 12288.

(** [buf]; every test starts in a process of its own, with [buf] as it was loaded. *)
Definition buf0 : list Z := replicate 12288 0.

(** [printf("%s: msg\n", s); exit(1);] *)
Definition oops {A} (s : list Z) (msg : string) : prog A :=
  _ ← printf ("%s: " +:+ msg +:+ nl) [AStr (Some s)]; exit 1.

(** The same with more to print. *)
Definition oopsf {A} (s : list Z) (fmt : string) (args : list arg) : prog A :=
  _ ← printf ("%s: " +:+ fmt) (AStr (Some s) :: args); exit 1.

(** A call that must not return a value that is [bad]. *)
Definition must (c : User.call) (bad : Z -> bool) (s : list Z) (msg : string) : prog Z :=
  r ← sys c; if bad r then oops s msg else mret r.
Definition must' (c : User.call) (bad : Z -> bool) (msg : string) : prog Z :=
  r ← sys c; if bad r then fail msg else mret r.

Definition neg (r : Z) : bool := r <? 0.
Definition nonneg (r : Z) : bool := 0 <=? r.
Definition nonzero (r : Z) : bool := negb (r =? 0).
Definition zero (r : Z) : bool := r =? 0.
Definition not_minus1 (r : Z) : bool := negb (r =? -1).

(** [fork], with the child and the parent. *)
Definition fork2 {A} (err : prog A) (child : prog A) (parent : Z -> prog A) : prog A :=
  pid ← sys Fork; if pid <? 0 then err else if pid =? 0 then child else parent pid.

(** [wait(&xstatus)] with an [xstatus] that is not initialised, and its value afterwards. *)
Definition wait_status : prog Z := w ← wait_into None; initialised w.2.

(** The pointer that [sbrk] returns. *)
Definition sbrk (n : Z) : prog Z := r ← sys (Sbrk (s32 n)); mret (u64 r).
Abbreviation BAD := 0xffffffffffffffff.

Definition load (a : Z) : prog Z := x ← sys_data (Load (u64 a)); match x.2 with [v] => mret v | _ => Undef "load" end.
Definition store (a v : Z) : prog unit := invoke (Store (u64 a) v).

Definition raw (name : string) (args : list uarg) : User.call := Raw name args.
Definition O_CW : Z := Z.lor O_CREATE O_WRONLY.

(** ** Bad pointers *)

Definition bad_addrs : list Z := [0x80000000; 0xffffffffffffffff].

(** [printf("call(what, %p, 8192) returned %d, msg\n", addr, n); exit(1);] *)
Definition returned {A} (what : string) (addr n : Z) (msg : string) : prog A :=
  _ ← printf (what +:+ " returned %d, " +:+ msg +:+ nl) [ALong addr; AInt n]; exit 1.

Definition copyin : prog unit :=
  for_all bad_addrs (fun addr =>
    fd ← must' (Open (lit "copyin1") O_CW) neg "open(copyin1) failed";
    n ← sys (raw "write" [UInt fd; UPtr addr; UInt 8192]);
    if 0 <=? n then returned "write(fd, %p, 8192)" addr n "not -1" else
    _ ← invoke (Close fd);
    _ ← invoke (Unlink (lit "copyin1"));
    n ← sys (raw "write" [UInt 1; UPtr addr; UInt 8192]);
    if 0 <? n then returned "write(1, %p, 8192)" addr n "not -1 or 0" else
    pipe_call (fun r fds0 fds1 =>
    if r <? 0 then fail "pipe() failed" else
    n ← sys (raw "write" [UInt fds1; UPtr addr; UInt 8192]);
    if 0 <? n then returned "write(pipe, %p, 8192)" addr n "not -1 or 0" else
    _ ← invoke (Close fds0);
    invoke (Close fds1))).

Definition copyout : prog unit :=
  for_all bad_addrs (fun addr =>
    fd ← must' (Open (lit "README") 0) neg "open(README) failed";
    n ← sys (raw "read" [UInt fd; UPtr addr; UInt 8192]);
    if 0 <? n then returned "read(fd, %p, 8192)" addr n "not -1 or 0" else
    _ ← invoke (Close fd);
    pipe_call (fun r fds0 fds1 =>
    if r <? 0 then fail "pipe() failed" else
    _ ← must' (Write fds1 (lit "x")) (fun n => negb (n =? 1)) "pipe write failed";
    n ← sys (raw "read" [UInt fds0; UPtr addr; UInt 8192]);
    if 0 <? n then returned "read(pipe, %p, 8192)" addr n "not -1 or 0" else
    _ ← invoke (Close fds0);
    invoke (Close fds1))).

Definition copyinstr1 : prog unit :=
  for_all bad_addrs (fun addr =>
    fd ← sys (raw "open" [UPtr addr; UInt O_CW]);
    if 0 <=? fd then returned "open(%p)" addr fd "not -1" else mret tt).

(** [unlink], [open], [link] and [exec] of the string [b], and how [printf] prints it; the value of
    [open]. *)
Definition refuses (b : uarg) (put : prog unit) : prog Z :=
  ret ← sys (raw "unlink" [b]);
  if not_minus1 ret then _ ← printf "unlink(" []; _ ← put; _ ← printf (") returned %d, not -1" +:+ nl) [AInt ret]; exit 1 else
  fd ← sys (raw "open" [b; UInt O_CW]);
  if not_minus1 fd then _ ← printf "open(" []; _ ← put; _ ← printf (") returned %d, not -1" +:+ nl) [AInt fd]; exit 1 else
  ret ← sys (raw "link" [b; b]);
  if not_minus1 ret then
    _ ← printf "link(" []; _ ← put; _ ← printf ", " []; _ ← put; _ ← printf (") returned %d, not -1" +:+ nl) [AInt ret]; exit 1
  else
  ret ← sys (raw "exec" [b; UVec [UStr (lit "xx")]]);
  if not_minus1 ret then _ ← printf "exec(" []; _ ← put; _ ← printf (") returned %d, not -1" +:+ nl) [AInt fd]; exit 1
  else mret fd.

Definition copyinstr2 : prog unit :=
  let b := replicate 128 120 in
  fd ← refuses (UStr b) (printf "%s" [AStr (Some b)]);
  fork2 (fail "fork failed")
    (let big := replicate 4096 120 in
     ret ← sys (Exec (lit "echo") [big; big; big]);
     if not_minus1 ret then _ ← printf ("exec(echo, BIG) returned %d, not -1" +:+ nl) [AInt fd]; exit 1 else exit 747)
    (fun _ =>
     w ← wait_into (Some 0);
     st ← initialised w.2;
     if negb (st =? 747) then fail "exec(echo, BIG) succeeded, should have failed" else mret tt).

(** The string at address [a], of at most [k] characters, printed as it is read. *)
Fixpoint put_mem (k : nat) (a : Z) : prog unit :=
  match k with
  | O => Unfinished
  | S k => c ← load a; if c =? 0 then mret tt else _ ← putc 1 c; put_mem k (a + 1)
  end.

Definition copyinstr3 (k : nat) : prog unit :=
  _ ← sbrk 8192;
  top ← sbrk 0;
  _ ← (if nonzero (top mod PGSIZE) then _ ← sbrk (PGSIZE - top mod PGSIZE); mret tt else mret tt);
  top ← sbrk 0;
  if nonzero (top mod PGSIZE) then fail "oops" else
  let b := u64 (top - 1) in
  _ ← store b 120;
  _ ← refuses (UPtr b) (put_mem k b);
  mret tt.

Definition rwsbrk : prog unit :=
  a ← sbrk 8192;
  if a =? BAD then fail "sbrk(rwsbrk) failed" else
  r ← sbrk (-8192);
  if r =? BAD then fail "sbrk(rwsbrk) shrink failed" else
  fd ← must' (Open (lit "rwsbrk") O_CW) neg "open(rwsbrk) failed";
  n ← sys (raw "write" [UInt fd; UPtr (u64 (a + 4096)); UInt 1024]);
  if 0 <=? n then returned "write(fd, %p, 1024)" (u64 (a + 4096)) n "not -1" else
  _ ← invoke (Close fd);
  _ ← invoke (Unlink (lit "rwsbrk"));
  fd ← must' (Open (lit "README") O_RDONLY) neg "open(rwsbrk) failed";
  n ← sys (raw "read" [UInt fd; UPtr (u64 (a + 4096)); UInt 10]);
  if 0 <=? n then returned "read(fd, %p, 10)" (u64 (a + 4096)) n "not -1" else
  _ ← invoke (Close fd);
  exit 0.

Definition validatetest (s : list Z) : prog unit :=
  for_all (seq 0 276) (fun i =>
    _ ← must (raw "link" [UStr (lit "nosuchfile"); UPtr (Z.of_nat i * PGSIZE)]) not_minus1 s "link should not succeed"; mret tt).

Definition argptest (s : list Z) : prog unit :=
  fd ← must (Open (lit "init") O_RDONLY) neg s "open failed";
  top ← sbrk 0;
  _ ← invoke (raw "read" [UInt fd; UPtr (u64 (top - 1)); UInt (-1)]);
  invoke (Close fd).

Definition pgbug : prog unit :=
  _ ← invoke (raw "exec" [UPtr 0xeaeb0b5b00002f5e; UVec []]);
  _ ← invoke (raw "pipe" [UPtr 0xeaeb0b5b00002f5e]);
  exit 0.

Definition badwrite : prog unit :=
  _ ← invoke (Unlink (lit "junk"));
  _ ← for_all (seq 0 600) (fun _ =>
    fd ← must' (Open (lit "junk") O_CW) neg "open junk failed";
    _ ← invoke (raw "write" [UInt fd; UPtr 0xffffffffff; UInt 1]);
    _ ← invoke (Close fd);
    invoke (Unlink (lit "junk")));
  fd ← must' (Open (lit "junk") O_CW) neg "open junk failed";
  _ ← must' (Write fd (lit "x")) (fun n => negb (n =? 1)) "write failed";
  _ ← invoke (Close fd);
  _ ← invoke (Unlink (lit "junk"));
  exit 0.

Definition badarg : prog unit :=
  _ ← for_all (seqZ 0 50000) (fun _ => invoke (raw "exec" [UStr (lit "echo"); UVec [UPtr 0xffffffff]]));
  exit 0.

(** ** Growing and shrinking *)

(** [for(b = a; b < e; b += 4096) *b = v;], at most [k] times. *)
Fixpoint touch_pages (k : nat) (b e v : Z) : prog unit :=
  match k with
  | O => if b <? e then Unfinished else mret tt
  | S k => if b <? e then _ ← store b v; touch_pages k (u64 (b + 4096)) e v else mret tt
  end.

Abbreviation TOOMUCH := 0x40000000.
Abbreviation BIG := 104857600.

(** [sbrk] of single bytes: the break after [k] more. *)
Fixpoint sbrk_bytes (k : nat) (i a : Z) (s : list Z) : prog Z :=
  match k with
  | O => mret a
  | S k =>
      b ← sbrk 1;
      if negb (b =? a) then _ ← printf ("%s: sbrk test failed %d %x %x" +:+ nl) [AStr (Some s); AInt i; ALong a; ALong b]; exit 1
      else _ ← store b 1; sbrk_bytes k (i + 1) (u64 (b + 1)) s
  end.

Definition sbrkbasic (s : list Z) : prog unit :=
  fork2 (fail "fork failed in sbrkbasic")
    (a ← sbrk TOOMUCH;
     if a =? BAD then exit 0 else
     _ ← touch_pages (Z.to_nat (TOOMUCH / 4096)) a (u64 (a + TOOMUCH)) 99;
     exit 1)
    (fun _ =>
     xstatus ← wait_status;
     if xstatus =? 1 then oops s "too much memory allocated!" else
     a ← sbrk 0;
     a ← sbrk_bytes 5000 0 a s;
     pid ← sys Fork;
     if pid <? 0 then oops s "sbrk test fork failed" else
     _ ← sbrk 1;
     c ← sbrk 1;
     if negb (c =? u64 (a + 1)) then oops s "sbrk test failed post-fork" else
     if pid =? 0 then exit 0 else
     w ← wait_into (Some xstatus);
     xstatus ← initialised w.2;
     exit xstatus).

(** [printf("%s: msg, a %x c %x\n", s, a, c); exit(1);] *)
Definition oops_at {A} (s : list Z) (msg : string) (a c : Z) : prog A :=
  _ ← printf ("%s: " +:+ msg +:+ ", a %x c %x" +:+ nl) [AStr (Some s); ALong a; ALong c]; exit 1.

Definition sbrkmuch (s : list Z) : prog unit :=
  oldbrk ← sbrk 0;
  a ← sbrk 0;
  p ← sbrk (u64 (BIG - a));
  if negb (p =? a) then oops s "sbrk test failed to grow big address space; enough phys mem?" else
  eee ← sbrk 0;
  _ ← touch_pages (Z.to_nat (BIG / 4096 + 1)) a eee 1;
  let lastaddr := BIG - 1 in
  _ ← store lastaddr 99;
  a ← sbrk 0;
  c ← sbrk (- PGSIZE);
  if c =? BAD then oops s "sbrk could not deallocate" else
  c ← sbrk 0;
  if negb (c =? u64 (a - PGSIZE)) then oops_at s "sbrk deallocation produced wrong address" a c else
  a ← sbrk 0;
  c ← sbrk PGSIZE;
  wrong ← (if negb (c =? a) then mret true else top ← sbrk 0; mret (negb (top =? u64 (a + PGSIZE))));
  if wrong : bool then oops_at s "sbrk re-allocation failed" a c else
  v ← load lastaddr;
  if v =? 99 then oops s "sbrk de-allocation didn't really deallocate" else
  a ← sbrk 0;
  top ← sbrk 0;
  c ← sbrk (- (top - oldbrk));
  if negb (c =? a) then oops_at s "sbrk downsize failed" a c else mret tt.

Definition kernmem (s : list Z) : prog unit :=
  for_all (seq 0 40) (fun i =>
    let a := KERNBASE + 50000 * Z.of_nat i in
    fork2 (oops s "fork failed")
      (v ← load a; _ ← printf ("%s: oops could read %x = %x" +:+ nl) [AStr (Some s); ALong a; AInt v]; exit 1)
      (fun _ => xstatus ← wait_status; if not_minus1 xstatus then exit 1 else mret tt)).

(** [MAXVA << i], up to the last that is not 0. *)
Definition MAXVAplus (s : list Z) : prog unit :=
  for_all (seq 0 26) (fun i =>
    let a := Z.shiftl MAXVA (Z.of_nat i) in
    fork2 (oops s "fork failed")
      (_ ← store a 99; _ ← printf ("%s: oops wrote %x" +:+ nl) [AStr (Some s); ALong a]; exit 1)
      (fun _ => xstatus ← wait_status; if not_minus1 xstatus then exit 1 else mret tt)).

(** [for(;;) sleep(1000);] *)
Fixpoint sleep_forever (k : nat) : prog unit :=
  match k with O => Unfinished | S k => _ ← invoke (Sleep 1000); sleep_forever k end.

(** The children that take memory, [n] of them: their process ids. *)
Fixpoint sbrkfail_fork (n k : nat) (fds0 fds1 : Z) : prog (list Z) :=
  match n with
  | O => mret []
  | S n =>
      pid ← sys Fork;
      _ ← (if pid =? 0 then
             top ← sbrk 0;
             _ ← sbrk (u64 (BIG - top));
             _ ← invoke (Write fds1 (lit "x"));
             sleep_forever k
           else mret tt);
      _ ← (if not_minus1 pid then invoke (Read fds0 1) else mret tt);
      pids ← sbrkfail_fork n k fds0 fds1;
      mret (pid :: pids)
  end.

(** [for(i = 0; i < 10*BIG; i += PGSIZE) n += *(a+i);], where [10*BIG] fits an [int]; [pages] are left. *)
Fixpoint sum_pages (pages : nat) (a n : Z) : prog Z :=
  match pages with
  | O => mret n
  | S pages => v ← load a; sum_pages pages (u64 (a + PGSIZE)) (s32 (n + v))
  end.

Definition sbrkfail (k : nat) (s : list Z) : prog unit :=
  pipe_call (fun r fds0 fds1 =>
  if nonzero r then oops s "pipe() failed" else
  pids ← sbrkfail_fork 10 k fds0 fds1;
  c ← sbrk PGSIZE;
  _ ← for_all pids (fun pid => if pid =? -1 then mret tt else _ ← invoke (Kill pid); invoke Wait);
  if c =? BAD then oops s "failed sbrk leaked memory" else
  fork2 (oops s "fork failed")
    (a ← sbrk 0;
     _ ← sbrk (10 * BIG);
     n ← sum_pages (Z.to_nat (10 * BIG / PGSIZE)) a 0;
     _ ← printf ("%s: allocate a lot of memory succeeded %d" +:+ nl) [AStr (Some s); AInt n];
     exit 1)
    (fun _ =>
     xstatus ← wait_status;
     if not_minus1 xstatus && negb (xstatus =? 2) then exit 1 else mret tt)).

Definition sbrkarg (s : list Z) : prog unit :=
  a ← sbrk PGSIZE;
  fd ← sys (Open (lit "sbrk") O_CW);
  _ ← invoke (Unlink (lit "sbrk"));
  if fd <? 0 then oops s "open sbrk failed" else
  n ← sys (raw "write" [UInt fd; UPtr a; UInt PGSIZE]);
  if n <? 0 then oops s "write sbrk failed" else
  _ ← invoke (Close fd);
  a ← sbrk PGSIZE;
  r ← sys (raw "pipe" [UPtr a]);
  if nonzero r then oops s "pipe() failed" else mret tt.

(** [uninit], as it was loaded. *)
Definition bsstest (uninit : list Z) (s : list Z) : prog unit :=
  for_all uninit (fun c => if nonzero c then oops s "bss test failed" else mret tt).

(** [sp]: the stack pointer that [r_sp] reads. *)
Definition stacktest (sp : Z) (s : list Z) : prog unit :=
  pid ← sys Fork;
  if pid =? 0 then
    v ← load (sp - PGSIZE);
    _ ← printf ("%s: stacktest: read below stack %p" +:+ nl) [AStr (Some s); ALong v];
    exit 1
  else if pid <? 0 then oops s "fork failed" else
  xstatus ← wait_status;
  if xstatus =? -1 then exit 0 else exit xstatus.

(** One of the three parts of [sbrkbugs]. *)
Definition sbrkbug (child : prog unit) : prog unit :=
  fork2 (fail "fork failed") child (fun _ => invoke Wait).

Definition sbrkbugs : prog unit :=
  _ ← sbrkbug (sz ← sbrk 0; _ ← sbrk (- s32 sz); exit 0);
  _ ← sbrkbug (sz ← sbrk 0; _ ← sbrk (- (s32 sz - 3500)); exit 0);
  _ ← sbrkbug (top ← sbrk 0; _ ← sbrk (10 * 4096 + 2048 - top); _ ← sbrk (-10); exit 0);
  exit 0.

Definition sbrklast : prog unit :=
  top ← sbrk 0;
  _ ← (if nonzero (top mod 4096) then _ ← sbrk (4096 - top mod 4096); mret tt else mret tt);
  _ ← sbrk 4096;
  _ ← sbrk 10;
  _ ← sbrk (-20);
  top ← sbrk 0;
  let p := u64 (top - 64) in
  _ ← store p 120;
  _ ← store (p + 1) 0;
  fd ← sys (raw "open" [UPtr p; UInt O_CR]);
  _ ← invoke (raw "write" [UInt fd; UPtr p; UInt 1]);
  _ ← invoke (Close fd);
  fd ← sys (raw "open" [UPtr p; UInt O_RDWR]);
  _ ← store p 0;
  _ ← invoke (raw "read" [UInt fd; UPtr p; UInt 1]);
  v ← load p;
  if negb (v =? 120) then exit 1 else mret tt.

Definition sbrk8000 : prog unit :=
  _ ← sbrk 0x80000004;
  top ← sbrk 0;
  v ← load (top - 1);
  store (top - 1) (u8 (v + 1)).

(** Take all memory, a page at a time, and report each page with [report]; at most [k] pages. *)
Fixpoint take_all (k : nat) (report : prog unit) : prog unit :=
  match k with
  | O => Unfinished
  | S k =>
      a ← sbrk 4096;
      if a =? BAD then mret tt
      else _ ← store (a + 4096 - 1) 1; _ ← report; take_all k report
  end.

Definition execout (k : nat) : prog unit :=
  _ ← for_all (seq 0 15) (fun avail =>
    fork2 (fail "fork failed")
      (_ ← take_all k (mret tt);
       _ ← for_all (seq 0 avail) (fun _ => _ ← sbrk (-4096); mret tt);
       _ ← invoke (Close 1);
       _ ← invoke (Exec (lit "echo") [lit "echo"; lit "x"]);
       exit 0)
      (fun _ => invoke Wait));
  exit 0.

(** The number of bytes that can be read of [fd], one by one. *)
Fixpoint count_bytes (k : nat) (fd n : Z) : prog Z :=
  match k with
  | O => Unfinished
  | S k =>
      cc ← sys (Read fd 1);
      if cc <? 0 then fail "read() failed in countfree()"
      else if cc =? 0 then mret n
      else count_bytes k fd (n + 1)
  end.

Definition countfree (k : nat) : prog Z :=
  x ← sys_data Pipe;
  if x.1 <? 0 then fail "pipe() failed in countfree()" else
  match x.2 with
  | [fds0; fds1] =>
      fork2 (fail "fork failed in countfree()")
        (_ ← invoke (Close fds0);
         _ ← take_all k (_ ← must' (Write fds1 (lit "x")) (fun n => negb (n =? 1)) "write() failed in countfree()"; mret tt);
         exit 0)
        (fun _ =>
         _ ← invoke (Close fds1);
         n ← count_bytes k fds0 0;
         _ ← invoke (Close fds0);
         _ ← invoke Wait;
         mret n)
  | _ => Undef "pipe"
  end.

(** ** malloc *)

(** The child of [mem] runs in its own memory, with [malloc] and [free] of [user/umalloc.c]; the
    blocks are linked through their first word. *)
Section Mem.
Context `{Process}.

Fixpoint mem_fill (k : nat) (m1 : Z) : M heap Z :=
  match k with
  | O => no_fuel
  | S k =>
      let! m2 := malloc 10001 in
      if m2 =? 0 then ret m1
      else set_ptr m2 m1 ;; mem_fill k m2
  end.

Fixpoint mem_drain (k : nat) (m1 : Z) : M heap unit :=
  if m1 =? 0 then ret tt
  else
    match k with
    | O => no_fuel
    | S k => let! m2 := get_ptr m1 in free m1 ;; mem_drain k m2
    end.

(** Whether the last allocation succeeds. *)
Definition mem_child (k : nat) : M heap bool :=
  let! m1 := mem_fill k 0 in
  mem_drain k m1 ;;
  let! m1 := malloc (1024 * 20) in
  if m1 =? 0 then ret false else free m1 ;; ret true.

(** [h] is the memory with which the child starts. *)
Definition mem (k : nat) (h : heap) : prog unit :=
  pid ← sys Fork;
  if pid =? 0 then
    match mem_child k h with
    | Ok true _ => exit 0
    | Ok false _ => fail "couldn't allocate mem?!!"
    | NoFuel => Unfinished
    | _ => Undef "mem"
    end
  else
    xstatus ← wait_status;
    if xstatus =? -1 then exit 0 else exit xstatus.
End Mem.
