(* ===== verification/UtFile.v ===== *)
(** * usertests: files

    The tests of [user/usertests.c] that create, write, read, link and unlink files and
    directories, as trees of system calls. *)

From stdpp Require Import gmap strings list.
From S2P Require Import Prelude Layout User Ulib Uprintf Uprogs Grind UtMem.

(** ** What the tests share *)

Definition O_CWT : Z := Z.lor (Z.lor O_CREATE O_WRONLY) O_TRUNC.

(** [write(fd, bytes, sizeof bytes)], whose value has to be the number of the bytes. *)
Definition wrote_all (bytes : list Z) (n : Z) : bool := negb (n =? Z.of_nat (length bytes)).
Definition is_not (v n : Z) : bool := negb (n =? v).

(** [((int* )buf)[0] = i] and [((int* )buf)[0]]. *)
Definition put_int (i : Z) (buf : list Z) : list Z := le_bytes 4 i ++ drop 4 buf.
Definition get_int (buf : list Z) : Z := s32 (le_val (take 4 buf)).

Definition char_at (buf : list Z) (i : nat) : Z := default 0 (buf !! i).

(** [memset(buf, c, n)] *)
Definition fill_buf (c : Z) (n : nat) (buf : list Z) : list Z := replicate n (u8 c) ++ drop n buf.

(** A name of two characters. *)
Definition name2 (a b : Z) : list Z := [u8 a; u8 b].

(** [n] calls of [wait(&st)], with the same [st]; [f] is done with [st] after each. *)
Fixpoint wait_each (n : nat) (st : option Z) (f : Z -> prog unit) : prog unit :=
  match n with
  | O => mret tt
  | S n => w ← wait_into st; v ← initialised w.2; _ ← f v; wait_each n (Some v) f
  end.

(** [close(open(path, mode))] *)
Definition close_open (path : list Z) (mode : Z) : prog unit := fd ← sys (Open path mode); invoke (Close fd).

(** ** Truncation *)

(** [n = read(fd, buf, 32); if(n != want){ ... }] *)
Definition read_wants (s : list Z) (fd want : Z) (first : prog unit) : prog unit :=
  n ← sys (Read fd 32);
  if is_not want n then _ ← first; oopsf s ("read %d bytes, wanted %d" +:+ nl) [AInt n; AInt want] else mret tt.

Definition truncate1 (s : list Z) : prog unit :=
  _ ← invoke (Unlink (lit "truncfile"));
  fd1 ← sys (Open (lit "truncfile") O_CWT);
  _ ← invoke (Write fd1 (lit "abcd"));
  _ ← invoke (Close fd1);
  fd2 ← sys (Open (lit "truncfile") O_RDONLY);
  _ ← read_wants s fd2 4 (mret tt);
  fd1 ← sys (Open (lit "truncfile") (Z.lor O_WRONLY O_TRUNC));
  fd3 ← sys (Open (lit "truncfile") O_RDONLY);
  _ ← read_wants s fd3 0 (printf ("aaa fd3=%d" +:+ nl) [AInt fd3]);
  _ ← read_wants s fd2 0 (printf ("bbb fd2=%d" +:+ nl) [AInt fd2]);
  _ ← invoke (Write fd1 (lit "abcdef"));
  _ ← read_wants s fd3 6 (mret tt);
  _ ← read_wants s fd2 2 (mret tt);
  _ ← invoke (Unlink (lit "truncfile"));
  _ ← invoke (Close fd1);
  _ ← invoke (Close fd2);
  invoke (Close fd3).

Definition truncate2 (s : list Z) : prog unit :=
  _ ← invoke (Unlink (lit "truncfile"));
  fd1 ← sys (Open (lit "truncfile") O_CWT);
  _ ← invoke (Write fd1 (lit "abcd"));
  fd2 ← sys (Open (lit "truncfile") (Z.lor O_TRUNC O_WRONLY));
  n ← sys (Write fd1 (lit "x"));
  if not_minus1 n then oopsf s ("write returned %d, expected -1" +:+ nl) [AInt n] else
  _ ← invoke (Unlink (lit "truncfile"));
  _ ← invoke (Close fd1);
  invoke (Close fd2).

(** Open, write [bytes], and close. *)
Definition trunc_write (s : list Z) (mode : Z) (bytes : list Z) : prog unit :=
  fd ← must (Open (lit "truncfile") mode) neg s "open failed";
  n ← sys (Write fd bytes);
  if wrote_all bytes n then
    oopsf s ("write got %d, expected %d" +:+ nl) [AInt n; AInt (Z.of_nat (length bytes))]
  else invoke (Close fd).

Definition truncate3 (s : list Z) : prog unit :=
  _ ← close_open (lit "truncfile") O_CWT;
  fork2 (oops s "fork failed")
    (_ ← for_all (seq 0 100) (fun _ =>
       _ ← trunc_write s O_WRONLY (lit "1234567890");
       fd ← sys (Open (lit "truncfile") O_RDONLY);
       _ ← invoke (Read fd 32);
       invoke (Close fd));
     exit 0)
    (fun _ =>
     _ ← for_all (seq 0 150) (fun _ => trunc_write s O_CWT (lit "xxx"));
     w ← wait_into None;
     _ ← invoke (Unlink (lit "truncfile"));
     xstatus ← initialised w.2;
     exit xstatus).

(** ** Inodes that are used for the last time *)

Definition iputtest (s : list Z) : prog unit :=
  _ ← must (Mkdir (lit "iputdir")) neg s "mkdir failed";
  _ ← must (Chdir (lit "iputdir")) neg s "chdir iputdir failed";
  _ ← must (Unlink (lit "../iputdir")) neg s "unlink ../iputdir failed";
  _ ← must (Chdir (lit "/")) neg s "chdir / failed";
  mret tt.

Definition exitiputtest (s : list Z) : prog unit :=
  fork2 (oops s "fork failed")
    (_ ← must (Mkdir (lit "iputdir")) neg s "mkdir failed";
     _ ← must (Chdir (lit "iputdir")) neg s "child chdir failed";
     _ ← must (Unlink (lit "../iputdir")) neg s "unlink ../iputdir failed";
     exit 0)
    (fun _ => xstatus ← wait_status; exit xstatus).

Definition openiputtest (s : list Z) : prog unit :=
  _ ← must (Mkdir (lit "oidir")) neg s "mkdir oidir failed";
  fork2 (oops s "fork failed")
    (_ ← must (Open (lit "oidir") O_RDWR) nonneg s "open directory for write succeeded";
     exit 0)
    (fun _ =>
     _ ← invoke (Sleep 1);
     _ ← must (Unlink (lit "oidir")) nonzero s "unlink failed";
     xstatus ← wait_status;
     exit xstatus).

(** ** Reading and writing *)

Definition opentest (s : list Z) : prog unit :=
  fd ← must (Open (lit "echo") 0) neg s "open echo failed!";
  _ ← invoke (Close fd);
  _ ← must (Open (lit "doesnotexist") 0) nonneg s "open doesnotexist succeeded!";
  mret tt.

Definition writetest (s : list Z) : prog unit :=
  fd ← must (Open (lit "small") O_CR) neg s "error: creat small failed!";
  _ ← for_all (seqZ 0 100) (fun i =>
    n ← sys (Write fd (lit "aaaaaaaaaa"));
    if is_not 10 n then oopsf s ("error: write aa %d new file failed" +:+ nl) [AInt i] else
    n ← sys (Write fd (lit "bbbbbbbbbb"));
    if is_not 10 n then oopsf s ("error: write bb %d new file failed" +:+ nl) [AInt i] else mret tt);
  _ ← invoke (Close fd);
  fd ← must (Open (lit "small") O_RDONLY) neg s "error: open small failed!";
  _ ← must (Read fd 2000) (is_not 2000) s "read failed";
  _ ← invoke (Close fd);
  _ ← must (Unlink (lit "small")) neg s "unlink small failed";
  mret tt.

(** The loop of [writebig] that reads the blocks back. *)
Fixpoint readbig (k : nat) (s : list Z) (fd n : Z) (buf : list Z) : prog unit :=
  match k with
  | O => Unfinished
  | S k =>
      x ← read_into fd BSIZE 0 buf;
      let i := x.1 in
      let buf := x.2 in
      if i =? 0 then
        if n =? MAXFILE - 1 then oopsf s "read only %d blocks from big" [AInt n] else mret tt
      else if is_not BSIZE i then oopsf s ("read failed %d" +:+ nl) [AInt i]
      else if is_not n (get_int buf) then
        oopsf s ("read content of block %d is %d" +:+ nl) [AInt n; AInt (get_int buf)]
      else readbig k s fd (n + 1) buf
  end.

Definition writebig (k : nat) (s : list Z) : prog unit :=
  fd ← must (Open (lit "big") O_CR) neg s "error: creat big failed!";
  _ ← for_all (seqZ 0 MAXFILE) (fun i =>
    _ ← must (Write fd (take 1024 (put_int i buf0))) (is_not BSIZE) s "error: write big file failed"; mret tt);
  _ ← invoke (Close fd);
  fd ← must (Open (lit "big") O_RDONLY) neg s "error: open big failed!";
  _ ← readbig k s fd 0 (put_int (MAXFILE - 1) buf0);
  _ ← invoke (Close fd);
  _ ← must (Unlink (lit "big")) neg s "unlink big failed";
  mret tt.

Definition createtest : prog unit :=
  _ ← for_all (seqZ 0 52) (fun i => close_open (name2 97 (48 + i)) O_CR);
  for_all (seqZ 0 52) (fun i => invoke (Unlink (name2 97 (48 + i)))).

Definition dirtest (s : list Z) : prog unit :=
  _ ← must (Mkdir (lit "dir0")) neg s "mkdir failed";
  _ ← must (Chdir (lit "dir0")) neg s "chdir dir0 failed";
  _ ← must (Chdir (lit "..")) neg s "chdir .. failed";
  _ ← must (Unlink (lit "dir0")) neg s "unlink dir0 failed";
  mret tt.

Definition exectest (s : list Z) : prog unit :=
  _ ← invoke (Unlink (lit "echo-ok"));
  pid ← sys Fork;
  if pid <? 0 then oops s "fork failed" else
  _ ← (if pid =? 0 then
         _ ← invoke (Close 1);
         fd ← must (Open (lit "echo-ok") O_CW) neg s "create failed";
         if is_not 1 fd then oops s "wrong fd" else
         _ ← must (Exec (lit "echo") [lit "echo"; lit "OK"]) neg s "exec echo failed";
         mret tt
       else mret tt);
  w ← wait_into None;
  _ ← (if is_not pid w.1 then printf ("%s: wait failed!" +:+ nl) [AStr (Some s)] else mret tt);
  xstatus ← initialised w.2;
  if nonzero xstatus then exit xstatus else
  fd ← must (Open (lit "echo-ok") O_RDONLY) neg s "open failed";
  x ← read_into fd 2 0 [0; 0; 0];
  if is_not 2 x.1 then oops s "read failed" else
  _ ← invoke (Unlink (lit "echo-ok"));
  if (char_at x.2 0 =? 79) && (char_at x.2 1 =? 75) then exit 0 else oops s "wrong output".

(** ** Several processes, one or more files *)

(** [while((n = read(fd, buf, sizeof(buf))) > 0)] of [sharedfd]: the numbers of the letters. *)
Fixpoint count_letters (k : nat) (fd : Z) (buf : list Z) (nc np : Z) : prog (Z * Z) :=
  match k with
  | O => Unfinished
  | S k =>
      x ← read_into fd 10 0 buf;
      if 0 <? x.1 then
        let count c := Z.of_nat (length (filter (fun b => b = c) x.2)) in
        count_letters k fd x.2 (nc + count 99) (np + count 112)
      else mret (nc, np)
  end.

Definition sharedfd (k : nat) (s : list Z) : prog unit :=
  _ ← invoke (Unlink (lit "sharedfd"));
  fd ← sys (Open (lit "sharedfd") O_CR);
  if fd <? 0 then oopsf s "cannot open sharedfd for writing" [] else
  pid ← sys Fork;
  let buf := replicate 10 (if pid =? 0 then 99 else 112) in
  _ ← for_all (seq 0 1000) (fun _ => _ ← must (Write fd buf) (is_not 10) s "write sharedfd failed"; mret tt);
  if pid =? 0 then exit 0 else
  xstatus ← wait_status;
  if nonzero xstatus then exit xstatus else
  _ ← invoke (Close fd);
  fd ← must (Open (lit "sharedfd") 0) neg s "cannot open sharedfd for reading";
  n ← count_letters k fd buf 0 0;
  _ ← invoke (Close fd);
  _ ← invoke (Unlink (lit "sharedfd"));
  if (n.1 =? 10000) && (n.2 =? 10000) then exit 0 else oops s "nc/np test fails".

(** The characters of a file of [fourfiles]: their number, when they are all [c], and [buf]. *)
Fixpoint read_same (k : nat) (fd c total : Z) (buf : list Z) : prog (Z * list Z) :=
  match k with
  | O => Unfinished
  | S k =>
      x ← read_into fd BUFSZ 0 buf;
      if 0 <? x.1 then
        if forallb (fun b => b =? c) (take (Z.to_nat x.1) x.2) then read_same k fd c (total + x.1) x.2
        else fail "wrong char"
      else mret (total, x.2)
  end.

(** The loop that reads the files back. *)
Fixpoint fourfiles_read (k : nat) (names : list (list Z)) (i : Z) (buf : list Z) : prog unit :=
  match names with
  | [] => mret tt
  | fname :: names =>
      fd ← sys (Open fname 0);
      x ← read_same k fd (48 + i) 0 buf;
      _ ← invoke (Close fd);
      if is_not 6000 x.1 then _ ← printf ("wrong length %d" +:+ nl) [AInt x.1]; exit 1 else
      _ ← invoke (Unlink fname);
      fourfiles_read k names (i + 1) x.2
  end.

(** What the child with number [pi] does. *)
Definition fourfiles_child (fname : list Z) (pi : Z) : prog unit :=
  fd ← must' (Open fname O_CR) neg "create failed";
  _ ← for_all (seq 0 12) (fun _ =>
    n ← sys (Write fd (replicate 500 (48 + pi)));
    if is_not 500 n then _ ← printf ("write failed %d" +:+ nl) [AInt n]; exit 1 else mret tt);
  exit 0.

Definition fourfiles (k : nat) : prog unit :=
  let names := [lit "f0"; lit "f1"; lit "f2"; lit "f3"] in
  _ ← for_all (imap pair names) (fun p =>
    _ ← invoke (Unlink p.2);
    fork2 (fail "fork failed") (fourfiles_child p.2 (Z.of_nat p.1)) (fun _ => mret tt));
  _ ← wait_each 4 None (fun xstatus => if nonzero xstatus then exit xstatus else mret tt);
  fourfiles_read k names 0 buf0.

(** What the child with number [pi] does. *)
Definition createdelete_child (s : list Z) (pi : Z) : prog unit :=
  _ ← for_all (seqZ 0 20) (fun i =>
    fd ← must (Open (name2 (112 + pi) (48 + i)) O_CR) neg s "create failed";
    _ ← invoke (Close fd);
    if (0 <? i) && (i mod 2 =? 0) then
      _ ← must (Unlink (name2 (112 + pi) (48 + i / 2))) neg s "unlink failed"; mret tt
    else mret tt);
  exit 0.

Definition createdelete (s : list Z) : prog unit :=
  _ ← for_all (seqZ 0 4) (fun pi => fork2 (fail "fork failed") (createdelete_child s pi) (fun _ => mret tt));
  _ ← wait_each 4 None (fun xstatus => if nonzero xstatus then exit 1 else mret tt);
  _ ← for_all (seqZ 0 20) (fun i => for_all (seqZ 0 4) (fun pi =>
    let name := name2 (112 + pi) (48 + i) in
    fd ← sys (Open name 0);
    if ((i =? 0) || (10 <=? i)) && (fd <? 0) then
      oopsf s ("oops createdelete %s didn't exist" +:+ nl) [AStr (Some name)]
    else if ((1 <=? i) && (i <? 10)) && (0 <=? fd) then
      oopsf s ("oops createdelete %s did exist" +:+ nl) [AStr (Some name)]
    else if 0 <=? fd then invoke (Close fd) else mret tt));
  for_all (seqZ 0 20) (fun i => for_all (seqZ 0 4) (fun _ => invoke (Unlink (name2 (112 + i) (48 + i))))).

Definition unlinkread (s : list Z) : prog unit :=
  fd ← must (Open (lit "unlinkread") O_CR) neg s "create unlinkread failed";
  _ ← invoke (Write fd (lit "hello"));
  _ ← invoke (Close fd);
  fd ← must (Open (lit "unlinkread") O_RDWR) neg s "open unlinkread failed";
  _ ← must (Unlink (lit "unlinkread")) nonzero s "unlink unlinkread failed";
  fd1 ← sys (Open (lit "unlinkread") O_CR);
  _ ← invoke (Write fd1 (lit "yyy"));
  _ ← invoke (Close fd1);
  x ← read_into fd BUFSZ 0 buf0;
  if is_not 5 x.1 then oopsf s "unlinkread read failed" [] else
  if is_not 104 (char_at x.2 0) then oops s "unlinkread wrong data" else
  _ ← must (Write fd (take 10 x.2)) (is_not 10) s "unlinkread write failed";
  _ ← invoke (Close fd);
  invoke (Unlink (lit "unlinkread")).

(** ** Links and directories *)

Definition linktest (s : list Z) : prog unit :=
  _ ← invoke (Unlink (lit "lf1"));
  _ ← invoke (Unlink (lit "lf2"));
  fd ← must (Open (lit "lf1") O_CR) neg s "create lf1 failed";
  _ ← must (Write fd (lit "hello")) (is_not 5) s "write lf1 failed";
  _ ← invoke (Close fd);
  _ ← must (Link (lit "lf1") (lit "lf2")) neg s "link lf1 lf2 failed";
  _ ← invoke (Unlink (lit "lf1"));
  _ ← must (Open (lit "lf1") 0) nonneg s "unlinked lf1 but it is still there!";
  fd ← must (Open (lit "lf2") 0) neg s "open lf2 failed";
  _ ← must (Read fd BUFSZ) (is_not 5) s "read lf2 failed";
  _ ← invoke (Close fd);
  _ ← must (Link (lit "lf2") (lit "lf2")) nonneg s "link lf2 lf2 succeeded! oops";
  _ ← invoke (Unlink (lit "lf2"));
  _ ← must (Link (lit "lf2") (lit "lf1")) nonneg s "link non-existent succeeded! oops";
  _ ← must (Link (lit ".") (lit "lf1")) nonneg s "link . lf1 succeeded! oops";
  mret tt.

(** The name of file [i] of [concreate]. *)
Definition cfile (i : Z) : list Z := name2 67 (48 + i).

(** One turn of the first loop of [concreate]. *)
Definition concreate_make (i : Z) : prog unit :=
  _ ← invoke (Unlink (cfile i));
  pid ← sys Fork;
  _ ← (if nonzero pid && (i mod 3 =? 1) then invoke (Link (lit "C0") (cfile i))
       else if (pid =? 0) && (i mod 5 =? 1) then invoke (Link (lit "C0") (cfile i))
       else
         fd ← sys (Open (cfile i) O_CR);
         if fd <? 0 then _ ← printf ("concreate create %s failed" +:+ nl) [AStr (Some (cfile i))]; exit 1
         else invoke (Close fd));
  if pid =? 0 then exit 0 else
  xstatus ← wait_status;
  if nonzero xstatus then exit 1 else mret tt.

(** The loop that reads the directory: [de] is the entry, whose bytes are not initialised at first,
    and [fa] tells the files that were found, [n] in number. *)
Fixpoint concreate_scan (k : nat) (s : list Z) (fd : Z) (de : list (option Z)) (fa : list bool) (n : Z) : prog Z :=
  match k with
  | O => Unfinished
  | S k =>
      x ← sys_data (Read fd 16);
      if 0 <? x.1 then
        let de := (Some <$> take 16 x.2) ++ drop (length x.2) de in
        let char i := initialised (default None (de !! i)) in
        inum0 ← char 0%nat;
        inum1 ← char 1%nat;
        if inum0 + 256 * inum1 =? 0 then concreate_scan k s fd de fa n else
        name0 ← char 2%nat;
        if is_not 67 name0 then concreate_scan k s fd de fa n else
        name2 ← char 4%nat;
        if nonzero name2 then concreate_scan k s fd de fa n else
        name1 ← char 3%nat;
        let name := name0 :: (if name1 =? 0 then [] else [name1]) in
        let i := name1 - 48 in
        if (i <? 0) || (40 <=? i) then oopsf s ("concreate weird file %s" +:+ nl) [AStr (Some name)]
        else if default false (fa !! Z.to_nat i) then oopsf s ("concreate duplicate file %s" +:+ nl) [AStr (Some name)]
        else concreate_scan k s fd de (<[Z.to_nat i := true]> fa) (n + 1)
      else mret n
  end.

(** One turn of the last loop of [concreate]. *)
Definition concreate_drop (s : list Z) (i : Z) : prog unit :=
  pid ← sys Fork;
  if pid <? 0 then oops s "fork failed" else
  _ ← (if ((i mod 3 =? 0) && (pid =? 0)) || ((i mod 3 =? 1) && nonzero pid)
       then for_all (seq 0 6) (fun _ => close_open (cfile i) 0)
       else for_all (seq 0 6) (fun _ => invoke (Unlink (cfile i))));
  if pid =? 0 then exit 0 else invoke Wait.

Definition concreate (k : nat) (s : list Z) : prog unit :=
  _ ← for_all (seqZ 0 40) concreate_make;
  fd ← sys (Open (lit ".") 0);
  n ← concreate_scan k s fd (replicate 16 None) (replicate 40 false) 0;
  _ ← invoke (Close fd);
  if is_not 40 n then oops s "concreate not enough files in directory listing" else
  for_all (seqZ 0 40) (concreate_drop s).

(** The loop of [linkunlink]. *)
Fixpoint linkunlink_loop (n : nat) (x : Z) : prog unit :=
  match n with
  | O => mret tt
  | S n =>
      let x := u32 (x * 1103515245 + 12345) in
      _ ← (if x mod 3 =? 0 then close_open (lit "x") O_CR
           else if x mod 3 =? 1 then invoke (Link (lit "cat") (lit "x"))
           else invoke (Unlink (lit "x")));
      linkunlink_loop n x
  end.

Definition linkunlink (s : list Z) : prog unit :=
  _ ← invoke (Unlink (lit "x"));
  pid ← sys Fork;
  if pid <? 0 then oops s "fork failed" else
  _ ← linkunlink_loop 100 (if nonzero pid then 1 else 97);
  if nonzero pid then invoke Wait else exit 0.

Definition bigdir (s : list Z) : prog unit :=
  let name i := [120; u8 (48 + i / 64); u8 (48 + i mod 64)] in
  _ ← invoke (Unlink (lit "bd"));
  fd ← must (Open (lit "bd") O_CREATE) neg s "bigdir create failed";
  _ ← invoke (Close fd);
  _ ← for_all (seqZ 0 500) (fun i =>
    r ← sys (Link (lit "bd") (name i));
    if nonzero r then oopsf s ("bigdir link(bd, %s) failed" +:+ nl) [AStr (Some (name i))] else mret tt);
  _ ← invoke (Unlink (lit "bd"));
  for_all (seqZ 0 500) (fun i =>
    r ← sys (Unlink (name i));
    if nonzero r then oopsf s "bigdir unlink failed" [] else mret tt).

(** The first part of [subdir]: the directories and the files of which the rest makes use. *)
Definition subdir_make (s : list Z) : prog unit :=
  _ ← invoke (Unlink (lit "ff"));
  _ ← must (Mkdir (lit "dd")) nonzero s "mkdir dd failed";
  fd ← must (Open (lit "dd/ff") O_CR) neg s "create dd/ff failed";
  _ ← invoke (Write fd (lit "ff"));
  _ ← invoke (Close fd);
  _ ← must (Unlink (lit "dd")) nonneg s "unlink dd (non-empty dir) succeeded!";
  _ ← must' (Mkdir (lit "/dd/dd")) nonzero "subdir mkdir dd/dd failed";
  fd ← must (Open (lit "dd/dd/ff") O_CR) neg s "create dd/dd/ff failed";
  _ ← invoke (Write fd (lit "FF"));
  _ ← invoke (Close fd);
  fd ← must (Open (lit "dd/dd/../ff") 0) neg s "open dd/dd/../ff failed";
  x ← read_into fd BUFSZ 0 buf0;
  if is_not 2 x.1 || is_not 102 (char_at x.2 0) then oops s "dd/dd/../ff wrong content" else
  _ ← invoke (Close fd);
  _ ← must' (Link (lit "dd/dd/ff") (lit "dd/dd/ffff")) nonzero "link dd/dd/ff dd/dd/ffff failed";
  _ ← must (Unlink (lit "dd/dd/ff")) nonzero s "unlink dd/dd/ff failed";
  _ ← must (Open (lit "dd/dd/ff") O_RDONLY) nonneg s "open (unlinked) dd/dd/ff succeeded";
  mret tt.

(** The part that goes through the directories. *)
Definition subdir_walk (s : list Z) : prog unit :=
  _ ← must (Chdir (lit "dd")) nonzero s "chdir dd failed";
  _ ← must (Chdir (lit "dd/../../dd")) nonzero s "chdir dd/../../dd failed";
  _ ← must' (Chdir (lit "dd/../../../dd")) nonzero "chdir dd/../../dd failed";
  _ ← must (Chdir (lit "./..")) nonzero s "chdir ./.. failed";
  fd ← must (Open (lit "dd/dd/ffff") 0) neg s "open dd/dd/ffff failed";
  _ ← must (Read fd BUFSZ) (is_not 2) s "read dd/dd/ffff wrong len";
  invoke (Close fd).

(** What must not work. *)
Definition subdir_refused (s : list Z) : prog unit :=
  _ ← must (Open (lit "dd/dd/ff") O_RDONLY) nonneg s "open (unlinked) dd/dd/ff succeeded!";
  _ ← must (Open (lit "dd/ff/ff") O_CR) nonneg s "create dd/ff/ff succeeded!";
  _ ← must (Open (lit "dd/xx/ff") O_CR) nonneg s "create dd/xx/ff succeeded!";
  _ ← must (Open (lit "dd") O_CREATE) nonneg s "create dd succeeded!";
  _ ← must (Open (lit "dd") O_RDWR) nonneg s "open dd rdwr succeeded!";
  _ ← must (Open (lit "dd") O_WRONLY) nonneg s "open dd wronly succeeded!";
  _ ← must (Link (lit "dd/ff/ff") (lit "dd/dd/xx")) zero s "link dd/ff/ff dd/dd/xx succeeded!";
  _ ← must (Link (lit "dd/xx/ff") (lit "dd/dd/xx")) zero s "link dd/xx/ff dd/dd/xx succeeded!";
  _ ← must (Link (lit "dd/ff") (lit "dd/dd/ffff")) zero s "link dd/ff dd/dd/ffff succeeded!";
  _ ← must (Mkdir (lit "dd/ff/ff")) zero s "mkdir dd/ff/ff succeeded!";
  _ ← must (Mkdir (lit "dd/xx/ff")) zero s "mkdir dd/xx/ff succeeded!";
  _ ← must (Mkdir (lit "dd/dd/ffff")) zero s "mkdir dd/dd/ffff succeeded!";
  _ ← must (Unlink (lit "dd/xx/ff")) zero s "unlink dd/xx/ff succeeded!";
  _ ← must (Unlink (lit "dd/ff/ff")) zero s "unlink dd/ff/ff succeeded!";
  _ ← must (Chdir (lit "dd/ff")) zero s "chdir dd/ff succeeded!";
  _ ← must (Chdir (lit "dd/xx")) zero s "chdir dd/xx succeeded!";
  mret tt.

(** The part that removes everything. *)
Definition subdir_clean (s : list Z) : prog unit :=
  _ ← must (Unlink (lit "dd/dd/ffff")) nonzero s "unlink dd/dd/ff failed";
  _ ← must (Unlink (lit "dd/ff")) nonzero s "unlink dd/ff failed";
  _ ← must (Unlink (lit "dd")) zero s "unlink non-empty dd succeeded!";
  _ ← must (Unlink (lit "dd/dd")) neg s "unlink dd/dd failed";
  _ ← must (Unlink (lit "dd")) neg s "unlink dd failed";
  mret tt.

Definition subdir (s : list Z) : prog unit :=
  _ ← subdir_make s;
  _ ← subdir_walk s;
  _ ← subdir_refused s;
  subdir_clean s.

(** ** Large files *)

(** [sz = 499, 970, ..., 12274], the sizes below [BUFSZ]. *)
Definition bigwrite_sizes : list nat := (fun i => 499 + 471 * i)%nat <$> seq 0 26.

Definition bigwrite (s : list Z) : prog unit :=
  _ ← invoke (Unlink (lit "bigwrite"));
  for_all bigwrite_sizes (fun sz =>
    fd ← must (Open (lit "bigwrite") O_CR) neg s "cannot create bigwrite";
    _ ← for_all (seq 0 2) (fun _ =>
      cc ← sys (Write fd (take sz buf0));
      if is_not (Z.of_nat sz) cc then oopsf s ("write(%d) ret %d" +:+ nl) [AInt (Z.of_nat sz); AInt cc] else mret tt);
    _ ← invoke (Close fd);
    invoke (Unlink (lit "bigwrite"))).

(** What the child with number [ci] does. *)
Definition manywrites_child (s : list Z) (ci : nat) : prog unit :=
  let name := name2 98 (97 + Z.of_nat ci) in
  _ ← invoke (Unlink name);
  _ ← for_all (seq 0 30) (fun _ =>
    _ ← for_all (seq 0 (ci + 1)) (fun _ =>
      fd ← sys (Open name O_CR);
      if fd <? 0 then oopsf s ("cannot create %s" +:+ nl) [AStr (Some name)] else
      cc ← sys (Write fd buf0);
      if is_not BUFSZ cc then oopsf s ("write(%d) ret %d" +:+ nl) [AInt BUFSZ; AInt cc] else
      invoke (Close fd));
    invoke (Unlink name));
  _ ← invoke (Unlink name);
  exit 0.

Definition manywrites (s : list Z) : prog unit :=
  _ ← for_all (seq 0 4) (fun ci => fork2 (fail "fork failed") (manywrites_child s ci) (fun _ => mret tt));
  _ ← for_all (seq 0 4) (fun _ =>
    w ← wait_into (Some 0);
    st ← initialised w.2;
    if nonzero st then exit st else mret tt);
  exit 0.

(** The loop of [bigfile] that reads the file back. *)
Fixpoint bigfile_read (k : nat) (s : list Z) (fd i total : Z) (buf : list Z) : prog Z :=
  match k with
  | O => Unfinished
  | S k =>
      x ← read_into fd 300 0 buf;
      let cc := x.1 in
      if cc <? 0 then oops s "read bigfile failed"
      else if cc =? 0 then mret total
      else if is_not 300 cc then oops s "short read bigfile"
      else if is_not (i / 2) (char_at x.2 0) || is_not (i / 2) (char_at x.2 299) then oops s "read bigfile wrong data"
      else bigfile_read k s fd (i + 1) (total + cc) x.2
  end.

Definition bigfile (k : nat) (s : list Z) : prog unit :=
  _ ← invoke (Unlink (lit "bigfile.dat"));
  fd ← sys (Open (lit "bigfile.dat") O_CR);
  if fd <? 0 then oopsf s "cannot create bigfile" [] else
  _ ← for_all (seqZ 0 20) (fun i =>
    _ ← must (Write fd (replicate 600 i)) (is_not 600) s "write bigfile failed"; mret tt);
  _ ← invoke (Close fd);
  fd ← must (Open (lit "bigfile.dat") 0) neg s "cannot open bigfile";
  total ← bigfile_read k s fd 0 0 (fill_buf 19 600 buf0);
  _ ← invoke (Close fd);
  if is_not 12000 total then oops s "read bigfile wrong total" else
  invoke (Unlink (lit "bigfile.dat")).

(** ** Names *)

Definition fourteen (s : list Z) : prog unit :=
  _ ← must (Mkdir (lit "12345678901234")) nonzero s "mkdir 12345678901234 failed";
  _ ← must (Mkdir (lit "12345678901234/123456789012345")) nonzero s "mkdir 12345678901234/123456789012345 failed";
  fd ← must (Open (lit "123456789012345/123456789012345/123456789012345") O_CREATE) neg s
         "create 123456789012345/123456789012345/123456789012345 failed";
  _ ← invoke (Close fd);
  fd ← must (Open (lit "12345678901234/12345678901234/12345678901234") 0) neg s
         "open 12345678901234/12345678901234/12345678901234 failed";
  _ ← invoke (Close fd);
  _ ← must (Mkdir (lit "12345678901234/12345678901234")) zero s "mkdir 12345678901234/12345678901234 succeeded!";
  _ ← must (Mkdir (lit "123456789012345/12345678901234")) zero s "mkdir 12345678901234/123456789012345 succeeded!";
  _ ← invoke (Unlink (lit "123456789012345/12345678901234"));
  _ ← invoke (Unlink (lit "12345678901234/12345678901234"));
  _ ← invoke (Unlink (lit "12345678901234/12345678901234/12345678901234"));
  _ ← invoke (Unlink (lit "123456789012345/123456789012345/123456789012345"));
  _ ← invoke (Unlink (lit "12345678901234/123456789012345"));
  invoke (Unlink (lit "12345678901234")).

Definition rmdot (s : list Z) : prog unit :=
  _ ← must (Mkdir (lit "dots")) nonzero s "mkdir dots failed";
  _ ← must (Chdir (lit "dots")) nonzero s "chdir dots failed";
  _ ← must (Unlink (lit ".")) zero s "rm . worked!";
  _ ← must (Unlink (lit "..")) zero s "rm .. worked!";
  _ ← must (Chdir (lit "/")) nonzero s "chdir / failed";
  _ ← must (Unlink (lit "dots/.")) zero s "unlink dots/. worked!";
  _ ← must (Unlink (lit "dots/..")) zero s "unlink dots/.. worked!";
  _ ← must (Unlink (lit "dots")) nonzero s "unlink dots failed!";
  mret tt.

Definition dirfile (s : list Z) : prog unit :=
  fd ← must (Open (lit "dirfile") O_CREATE) neg s "create dirfile failed";
  _ ← invoke (Close fd);
  _ ← must (Chdir (lit "dirfile")) zero s "chdir dirfile succeeded!";
  _ ← must (Open (lit "dirfile/xx") 0) nonneg s "create dirfile/xx succeeded!";
  _ ← must (Open (lit "dirfile/xx") O_CREATE) nonneg s "create dirfile/xx succeeded!";
  _ ← must (Mkdir (lit "dirfile/xx")) zero s "mkdir dirfile/xx succeeded!";
  _ ← must (Unlink (lit "dirfile/xx")) zero s "unlink dirfile/xx succeeded!";
  _ ← must (Link (lit "README") (lit "dirfile/xx")) zero s "link to dirfile/xx succeeded!";
  _ ← must (Unlink (lit "dirfile")) nonzero s "unlink dirfile failed!";
  _ ← must (Open (lit ".") O_RDWR) nonneg s "open . for writing succeeded!";
  fd ← sys (Open (lit ".") 0);
  _ ← must (Write fd (lit "x")) (Z.ltb 0) s "write . succeeded!";
  invoke (Close fd).

Definition iref (s : list Z) : prog unit :=
  _ ← for_all (seqZ 0 (NINODE + 1)) (fun _ =>
    _ ← must (Mkdir (lit "irefd")) nonzero s "mkdir irefd failed";
    _ ← must (Chdir (lit "irefd")) nonzero s "chdir irefd failed";
    _ ← invoke (Mkdir []);
    _ ← invoke (Link (lit "README") []);
    fd ← sys (Open [] O_CREATE);
    _ ← (if 0 <=? fd then invoke (Close fd) else mret tt);
    fd ← sys (Open (lit "xx") O_CREATE);
    _ ← (if 0 <=? fd then invoke (Close fd) else mret tt);
    invoke (Unlink (lit "xx")));
  _ ← for_all (seqZ 0 (NINODE + 1)) (fun _ =>
    _ ← invoke (Chdir (lit ".."));
    invoke (Unlink (lit "irefd")));
  invoke (Chdir (lit "/")).

(** The argument that [bigargtest] passes 31 times. *)
Definition bigarg : list Z := lit ("bigargs test: failed" +:+ nl) ++ replicate 199 32.

Definition bigargtest (s : list Z) : prog unit :=
  _ ← invoke (Unlink (lit "bigarg-ok"));
  pid ← sys Fork;
  if pid =? 0 then
    _ ← invoke (Exec (lit "echo") (replicate 31 bigarg));
    fd ← sys (Open (lit "bigarg-ok") O_CREATE);
    _ ← invoke (Close fd);
    exit 0
  else if pid <? 0 then oops s "bigargtest: fork failed" else
  xstatus ← wait_status;
  if nonzero xstatus then exit xstatus else
  fd ← must (Open (lit "bigarg-ok") 0) neg s "bigarg test failed!";
  invoke (Close fd).

(** ** A disk that is full *)

Definition fsfull_name (n : Z) : list Z :=
  [102; u8 (48 + n / 1000); u8 (48 + n mod 1000 / 100); u8 (48 + n mod 100 / 10); u8 (48 + n mod 10)].

(** [while(1){ cc = write(fd, buf, BSIZE); ... }]: the number of bytes written. *)
Fixpoint fsfull_write (k : nat) (fd total : Z) : prog Z :=
  match k with
  | O => Unfinished
  | S k =>
      cc ← sys (Write fd (take 1024 buf0));
      if cc <? BSIZE then mret total else fsfull_write k fd (total + cc)
  end.

(** The first loop: the number of the last file. *)
Fixpoint fsfull_fill (k kw : nat) (nfiles : Z) : prog Z :=
  match k with
  | O => Unfinished
  | S k =>
      let name := fsfull_name nfiles in
      _ ← printf ("writing %s" +:+ nl) [AStr (Some name)];
      fd ← sys (Open name O_CR);
      if fd <? 0 then _ ← printf ("open %s failed" +:+ nl) [AStr (Some name)]; mret nfiles else
      total ← fsfull_write kw fd 0;
      _ ← printf ("wrote %d bytes" +:+ nl) [AInt total];
      _ ← invoke (Close fd);
      if total =? 0 then mret nfiles else fsfull_fill k kw (nfiles + 1)
  end.

Definition fsfull (k kw : nat) : prog unit :=
  _ ← printf ("fsfull test" +:+ nl) [];
  nfiles ← fsfull_fill k kw 0;
  _ ← for_all (seqZ 0 (nfiles + 1)) (fun i => invoke (Unlink (fsfull_name (nfiles - i))));
  printf ("fsfull test finished" +:+ nl) [].
