(* ===== verification/UtProc.v ===== *)
(** * usertests: processes, and the tests in their order

    The tests of [user/usertests.c] that fork, wait and kill, and its [main], which runs every
    test in a process of its own: it reports success only when each of them ended with status 0
    and no page of memory was lost. *)

From stdpp Require Import gmap strings list.
From S2P Require Import Prelude Layout Umalloc User Ulib Uprintf Uprogs Grind UtMem UtFile.

(** ** Tests *)

(** The characters [seq], [seq+1], ... *)
Definition count_up (n : nat) (seq : Z) : list Z := (fun i => u8 (seq + i)) <$> seqZ 0 (Z.of_nat n).

(** The loop of the reader of [pipe1]: the number of bytes, or [None] when one is wrong. *)
Fixpoint pipe1_read (k : nat) (s : list Z) (fd cc seq total : Z) (buf : list Z) : prog (option Z) :=
  match k with
  | O => Unfinished
  | S k =>
      x ← read_into fd cc 0 buf;
      let n := x.1 in
      if 0 <? n then
        if bool_decide (take (Z.to_nat n) x.2 = count_up (Z.to_nat n) seq) then
          let cc := if BUFSZ <? cc * 2 then BUFSZ else cc * 2 in
          pipe1_read k s fd cc (seq + n) (total + n) x.2
        else _ ← printf ("%s: pipe1 oops 2" +:+ nl) [AStr (Some s)]; mret None
      else mret (Some total)
  end.

Definition pipe1 (k : nat) (s : list Z) : prog unit :=
  pipe_call (fun r fds0 fds1 =>
  if nonzero r then oops s "pipe() failed" else
  pid ← sys Fork;
  if pid =? 0 then
    _ ← invoke (Close fds0);
    _ ← for_all (seqZ 0 5) (fun n =>
      _ ← must (Write fds1 (count_up 1033 (1033 * n))) (is_not 1033) s "pipe1 oops 1"; mret tt);
    exit 0
  else if 0 <? pid then
    _ ← invoke (Close fds1);
    r ← pipe1_read k s fds0 1 0 0 buf0;
    match r with
    | None => mret tt
    | Some total =>
        if is_not (5 * 1033) total then _ ← printf ("%s: pipe1 oops 3 total %d" +:+ nl) [AInt total]; exit 1 else
        _ ← invoke (Close fds0);
        xstatus ← wait_status;
        exit xstatus
    end
  else oops s "fork() failed").

(** [while(1) getpid();] *)
Fixpoint getpid_forever (k : nat) : prog unit :=
  match k with O => Unfinished | S k => _ ← invoke Getpid; getpid_forever k end.

(** The turns of [killstatus] that are left; [xst] is the variable they share. *)
Fixpoint killstatus_loop (n k : nat) (s : list Z) (xst : option Z) : prog unit :=
  match n with
  | O => mret tt
  | S n =>
      pid1 ← sys Fork;
      if pid1 <? 0 then oops s "fork failed" else
      if pid1 =? 0 then getpid_forever k else
      _ ← invoke (Sleep 1);
      _ ← invoke (Kill pid1);
      w ← wait_into xst;
      xst ← initialised w.2;
      if not_minus1 xst then oops s "status should be -1" else killstatus_loop n k s (Some xst)
  end.

Definition killstatus (k : nat) (s : list Z) : prog unit :=
  _ ← killstatus_loop 100 k s None;
  exit 0.

(** A child that loops, [for(;;) ;], makes no more calls. *)
Definition preempt (s : list Z) : prog unit :=
  pid1 ← sys Fork;
  if pid1 <? 0 then oopsf s "fork failed" [] else
  if pid1 =? 0 then Unfinished else
  pid2 ← sys Fork;
  if pid2 <? 0 then oops s "fork failed" else
  if pid2 =? 0 then Unfinished else
  x ← sys_data Pipe;
  let pfds (i : nat) := initialised (if x.1 <? 0 then None else x.2 !! i) in
  pid3 ← sys Fork;
  if pid3 <? 0 then oops s "fork failed" else
  pfds0 ← pfds 0%nat;
  pfds1 ← pfds 1%nat;
  if pid3 =? 0 then
    _ ← invoke (Close pfds0);
    n ← sys (Write pfds1 (lit "x"));
    _ ← (if is_not 1 n then printf "%s: preempt write error" [AStr (Some s)] else mret tt);
    _ ← invoke (Close pfds1);
    Unfinished
  else
  _ ← invoke (Close pfds1);
  n ← sys (Read pfds0 BUFSZ);
  if is_not 1 n then printf "%s: preempt read error" [AStr (Some s)] else
  _ ← invoke (Close pfds0);
  _ ← printf "kill... " [];
  _ ← invoke (Kill pid1);
  _ ← invoke (Kill pid2);
  _ ← invoke (Kill pid3);
  _ ← printf "wait... " [];
  _ ← invoke Wait;
  _ ← invoke Wait;
  invoke Wait.

Definition exitwait (s : list Z) : prog unit :=
  for_all (seqZ 0 100) (fun i =>
    pid ← sys Fork;
    if pid <? 0 then oops s "fork failed" else
    if nonzero pid then
      w ← wait_into None;
      if is_not pid w.1 then oops s "wait wrong pid" else
      xstate ← initialised w.2;
      if is_not i xstate then oops s "wait wrong exit status" else mret tt
    else exit i).

Definition reparent (s : list Z) : prog unit :=
  master_pid ← sys Getpid;
  _ ← for_all (seq 0 200) (fun _ =>
    pid ← sys Fork;
    if pid <? 0 then oops s "fork failed" else
    if nonzero pid then _ ← must Wait (is_not pid) s "wait wrong pid"; mret tt else
    pid2 ← sys Fork;
    if pid2 <? 0 then _ ← invoke (Kill master_pid); exit 1 else exit 0);
  exit 0.

Definition twochildren (s : list Z) : prog unit :=
  for_all (seq 0 1000) (fun _ =>
    fork2 (oops s "fork failed") (exit 0) (fun _ =>
    fork2 (oops s "fork failed") (exit 0) (fun _ =>
    _ ← invoke Wait;
    invoke Wait))).

Definition forkfork (s : list Z) : prog unit :=
  _ ← for_all (seq 0 2) (fun _ =>
    fork2 (oopsf s "fork failed" [])
      (_ ← for_all (seq 0 200) (fun _ => fork2 (exit 1) (exit 0) (fun _ => invoke Wait));
       exit 0)
      (fun _ => mret tt));
  wait_each 2 None (fun xstatus => if nonzero xstatus then oopsf s "fork in child failed" [] else mret tt).

(** The loop that every process of [forkforkfork] but the first is in. *)
Fixpoint fork_more (k : nat) : prog unit :=
  match k with
  | O => Unfinished
  | S k =>
      fd ← sys (Open (lit "stopforking") 0);
      if 0 <=? fd then exit 0 else
      r ← sys Fork;
      _ ← (if r <? 0 then close_open (lit "stopforking") O_CR else mret tt);
      fork_more k
  end.

Definition forkforkfork (k : nat) (s : list Z) : prog unit :=
  _ ← invoke (Unlink (lit "stopforking"));
  fork2 (oopsf s "fork failed" []) (fork_more k) (fun _ =>
  _ ← invoke (Sleep 20);
  _ ← close_open (lit "stopforking") O_CR;
  _ ← invoke Wait;
  invoke (Sleep 10)).

Definition reparent2 : prog unit :=
  _ ← for_all (seq 0 800) (fun _ =>
    fork2 (fail "fork failed")
      (_ ← invoke Fork; _ ← invoke Fork; exit 0)
      (fun _ => invoke Wait));
  exit 0.

(** [for(n=0; n<N; n++)] with [k] turns left: the [n] after it. *)
Fixpoint fork_until (k : nat) (n : Z) : prog Z :=
  match k with
  | O => mret n
  | S k =>
      pid ← sys Fork;
      if pid <? 0 then mret n
      else if pid =? 0 then exit 0
      else fork_until k (n + 1)
  end.

Definition forktest (s : list Z) : prog unit :=
  n ← fork_until 1000 0;
  if n =? 0 then oops s "no fork at all!" else
  if n =? 1000 then oops s "fork claimed to work 1000 times!" else
  _ ← for_all (seqZ 0 n) (fun _ => _ ← must Wait neg s "wait stopped early"; mret tt);
  _ ← must Wait not_minus1 s "wait got too many";
  mret tt.

(** ** The driver *)

(** [run], with [f] a test of name [s]: whether it ended with status 0. *)
Definition run_test (f : list Z -> prog unit) (s : list Z) : prog bool :=
  _ ← printf "test %s: " [AStr (Some s)];
  pid ← sys Fork;
  if pid <? 0 then fail "runtest: fork error" else
  if pid =? 0 then _ ← f s; exit 0 else
  xstatus ← wait_status;
  _ ← (if nonzero xstatus then printf ("FAILED" +:+ nl) [] else printf ("OK" +:+ nl) []);
  mret (xstatus =? 0).

Definition test : Type := (list Z -> prog unit) * string.

(** [strcmp(p, q) == 0] *)
Definition same_str (p q : list Z) : prog bool := v ← deref_str (strcmp (p ++ [0]) (q ++ [0])); mret (v =? 0).

Section Driver.
(** [free] counts the pages that are free; [k] bounds the rounds of [-c] and [-C]. *)
Variables (free : prog Z) (k : nat) (tests : list test).

(** The tests up to the first that fails: whether one did. *)
Fixpoint run_until (l : list test) : prog bool :=
  match l with
  | [] => mret false
  | t :: l => ok ← run_test t.1 (lit t.2); if ok : bool then run_until l else mret true
  end.

(** One round: all tests, and then whether pages were lost. *)
Definition round (continuous : Z) : prog unit :=
  free0 ← free;
  failed ← run_until tests;
  _ ← (if failed : bool then
         _ ← printf ("SOME TESTS FAILED" +:+ nl) [];
         if is_not 2 continuous then exit 1 else mret tt
       else mret tt);
  free1 ← free;
  if free1 <? free0 then
    _ ← printf ("FAILED -- lost %d free pages" +:+ nl) [AInt (free0 - free1)];
    if is_not 2 continuous then exit 1 else mret tt
  else mret tt.

Fixpoint rounds (n : nat) (continuous : Z) : prog unit :=
  match n with O => Unfinished | S n => _ ← round continuous; rounds n continuous end.

(** The tests that [justone] selects: whether one failed, or [failed] was set. *)
Fixpoint run_all (justone : option (list Z)) (l : list test) (failed : bool) : prog bool :=
  match l with
  | [] => mret failed
  | t :: l =>
      sel ← match justone with None => mret true | Some name => same_str (lit t.2) name end;
      if sel : bool then
        ok ← run_test t.1 (lit t.2);
        run_all justone l (failed || negb ok)
      else run_all justone l failed
  end.

Definition run_once (justone : option (list Z)) : prog unit :=
  _ ← printf ("usertests starting" +:+ nl) [];
  free0 ← free;
  failed ← run_all justone tests false;
  if failed : bool then _ ← printf ("SOME TESTS FAILED" +:+ nl) []; exit 1 else
  free1 ← free;
  if free1 <? free0 then
    _ ← printf ("FAILED -- lost some free pages %d (out of %d)" +:+ nl) [AInt free1; AInt free0]; exit 1
  else
    _ ← printf ("ALL TESTS PASSED" +:+ nl) []; exit 0.

Definition usertests_main (argv : list (list Z)) : prog unit :=
  match argv with
  | [_; a] =>
      c ← same_str a (lit "-c");
      if c : bool then _ ← printf ("continuous usertests starting" +:+ nl) []; rounds k 1 else
      c ← same_str a (lit "-C");
      if c : bool then _ ← printf ("continuous usertests starting" +:+ nl) []; rounds k 2 else
      if negb (char0 a =? 45) then run_once (Some a) else fail "Usage: usertests [-c] [testname]"
  | _ :: _ :: _ => fail "Usage: usertests [-c] [testname]"
  | _ => run_once None
  end.
End Driver.

(** The table; [k] bounds the loops of the tests, [uninit] is the array of that name, [sp] the stack
    pointer, and [h] the memory of the process. *)
Definition tests `{Umalloc.Process} (k : nat) (uninit : list Z) (sp : Z) (h : Umalloc.heap) : list test :=
  [ (MAXVAplus, "MAXVAplus");
    (manywrites, "manywrites");
    (fun _ => execout k, "execout");
    (fun _ => copyin, "copyin");
    (fun _ => copyout, "copyout");
    (fun _ => copyinstr1, "copyinstr1");
    (fun _ => copyinstr2, "copyinstr2");
    (fun _ => copyinstr3 k, "copyinstr3");
    (fun _ => rwsbrk, "rwsbrk");
    (truncate1, "truncate1");
    (truncate2, "truncate2");
    (truncate3, "truncate3");
    (fun _ => reparent2, "reparent2");
    (fun _ => pgbug, "pgbug");
    (fun _ => sbrkbugs, "sbrkbugs");
    (fun _ => badarg, "badarg");
    (reparent, "reparent");
    (twochildren, "twochildren");
    (forkfork, "forkfork");
    (forkforkfork k, "forkforkfork");
    (argptest, "argptest");
    (createdelete, "createdelete");
    (linkunlink, "linkunlink");
    (linktest, "linktest");
    (unlinkread, "unlinkread");
    (concreate k, "concreate");
    (subdir, "subdir");
    (fun _ => fourfiles k, "fourfiles");
    (sharedfd k, "sharedfd");
    (dirtest, "dirtest");
    (exectest, "exectest");
    (bigargtest, "bigargtest");
    (bigwrite, "bigwrite");
    (bsstest uninit, "bsstest");
    (sbrkbasic, "sbrkbasic");
    (sbrkmuch, "sbrkmuch");
    (kernmem, "kernmem");
    (sbrkfail k, "sbrkfail");
    (sbrkarg, "sbrkarg");
    (fun _ => sbrklast, "sbrklast");
    (fun _ => sbrk8000, "sbrk8000");
    (validatetest, "validatetest");
    (stacktest sp, "stacktest");
    (opentest, "opentest");
    (writetest, "writetest");
    (writebig k, "writebig");
    (fun _ => createtest, "createtest");
    (openiputtest, "openiput");
    (exitiputtest, "exitiput");
    (iputtest, "iput");
    (fun _ => mem k h, "mem");
    (pipe1 k, "pipe1");
    (killstatus k, "killstatus");
    (preempt, "preempt");
    (exitwait, "exitwait");
    (rmdot, "rmdot");
    (fourteen, "fourteen");
    (bigfile k, "bigfile");
    (dirfile, "dirfile");
    (iref, "iref");
    (forktest, "forktest");
    (bigdir, "bigdir") ]%string.

(** ** The verdict *)

Section Verdict.
Context {St : Type} (kernel : User.call -> St -> answer * St).

(** The tests of [l] in turn, each of them with success. *)
Fixpoint all_ok (l : list test) (s s' : St) : Prop :=
  match l with
  | [] => s' = s
  | t :: l => exists s1, run kernel (run_test t.1 (lit t.2)) s = (Returned true, s1) /\ all_ok l s1 s'
  end.

(** [p] does not end with status 0. *)
Definition no_success {A} (p : prog A) : Prop := forall s s', run kernel p s <> (Exited 0, s').

Lemma no_success_bind {A B} (p : prog A) (f : A -> prog B) :
  no_success p -> (forall a, no_success (f a)) -> no_success (p ≫= f).
Proof.
  intros Hp Hf s s'. rewrite run_bind. destruct (run kernel p s) as [[a|n|w|] s1] eqn:E; try done.
  - apply Hf.
  - intros [= -> ->]. by apply (Hp s s').
Qed.

Lemma no_success_call {A} c (f : answer -> prog A) : (forall x, no_success (f x)) -> no_success (Call c f).
Proof. intros Hf s s'. cbn. destruct (kernel c s) as [x s1]. apply Hf. Qed.

Lemma no_success_exit {A} n : n <> 0 -> no_success (A := A) (exit n).
Proof. intros Hn s s' [=]. done. Qed.

Lemma no_success_for_all {A} (l : list A) f : (forall a, no_success (f a)) -> no_success (for_all l f).
Proof. intros Hf. induction l as [|a l IH]; [done|]. by apply no_success_bind. Qed.

Lemma no_success_putc fd c : no_success (putc fd c).
Proof. by apply no_success_call. Qed.

Lemma no_success_vprintf fd fmt b ap : no_success (vprintf_loop fd fmt b ap).
Proof.
  revert b ap. induction fmt as [|c fmt IH]; intros b ap; [done|]. cbn [vprintf_loop].
  unfold arg_int, arg_long, arg_str, printint, printptr.
  repeat match goal with
  | |- no_success (if ?b then _ else _) => destruct b
  | |- no_success (match ?ap with [] => _ | _ :: _ => _ end) => destruct ap as [|[] ?]
  | |- no_success (Undef _) => done
  | |- no_success (vprintf_loop _ _ _ _) => apply IH
  | |- no_success (putc _ _) => apply no_success_putc
  | |- no_success (for_all _ _) => apply no_success_for_all; intros
  | |- no_success (_ ≫= _) => apply no_success_bind; [|intros]
  end.
Qed.

Lemma no_success_printf fmt ap : no_success (printf fmt ap).
Proof. apply no_success_vprintf. Qed.

Lemma no_success_fail {A} msg : no_success (A := A) (fail msg).
Proof. apply no_success_bind; [apply no_success_printf|]. intros _. by apply no_success_exit. Qed.

Lemma fail_ends {A} msg s (a : A) s' : run kernel (fail msg) s <> (Returned a, s').
Proof. unfold fail. rewrite run_bind. by destruct (run kernel _ s) as [[]]. Qed.

Lemma no_success_wait : no_success wait_status.
Proof.
  apply no_success_bind; [|intros [? []]; done]. apply no_success_call. intros [r [|v [|? ?]]]; done.
Qed.

(** From here on, the kernel answers the parent. *)
Context (Hparent : forall s, a_ret (kernel Fork s).1 <> 0).

Lemma no_success_fork2 {A} (err child : prog A) parent :
  no_success err -> (forall pid, no_success (parent pid)) -> no_success (fork2 err child parent).
Proof.
  intros He Hp s s'. unfold fork2. cbn. pose proof (Hparent s) as H0. destruct (kernel Fork s) as [[r d] s1].
  cbn in *. destruct (r <? 0); [apply He|]. rewrite (proj2 (Z.eqb_neq r 0)) by done. apply Hp.
Qed.

Lemma no_success_count k fd n : no_success (count_bytes k fd n).
Proof.
  revert n. induction k as [|k IH]; intros n; [done|]. apply no_success_call. intros x. cbn.
  destruct (_ <? 0); [apply no_success_fail|]. destruct (_ =? 0); [done|]. apply IH.
Qed.

Lemma no_success_countfree k : no_success (countfree k).
Proof.
  unfold countfree. apply no_success_bind; [by apply no_success_call|]. intros [r d]. cbn [fst snd].
  destruct (r <? 0); [apply no_success_fail|]. destruct d as [|a [|b [|? ?]]]; try done. apply no_success_fork2; [apply no_success_fail|]. intros _.
  apply no_success_bind; [by apply no_success_call|]. intros _. apply no_success_bind; [apply no_success_count|].
  intros n. apply no_success_bind; [by apply no_success_call|]. intros _. apply no_success_bind; [by apply no_success_call|done].
Qed.

Lemma no_success_run_test f name : no_success (run_test f name).
Proof.
  apply no_success_bind; [apply no_success_printf|]. intros _ s s'. cbn. pose proof (Hparent s) as H0.
  destruct (kernel Fork s) as [[r d] s1]. cbn in *. destruct (r <? 0); [apply no_success_fail|].
  rewrite (proj2 (Z.eqb_neq r 0)) by done. revert s1 s'. change (no_success (xstatus ← wait_status; _ ← (if nonzero xstatus then printf ("FAILED" +:+ nl) [] else printf ("OK" +:+ nl) []); mret (xstatus =? 0))).
  apply no_success_bind; [apply no_success_wait|]. intros st. apply no_success_bind; [|done].
  destruct (nonzero st); apply no_success_printf.
Qed.

(** [run_all] answers [false] only when all tests succeeded, and does not end the program with
    status 0. *)
Lemma run_all_ok l failed s b s' :
  run kernel (run_all None l failed) s = (Returned b, s') -> b = false -> failed = false /\ all_ok l s s'.
Proof.
  revert failed s. induction l as [|t l IH]; intros failed s; cbn [run_all].
  { cbn. by intros [= -> ->] ->. }
  rewrite run_bind. change (run kernel (mret true) s) with (Returned (A := bool) true, s). cbv beta iota. rewrite run_bind. destruct (run kernel _ s) as [[ok|n|w|] s1] eqn:E; try done.
  intros H Hb. destruct (IH _ _ H Hb) as [[Hf Hok]%orb_false_iff Ha]. apply negb_false_iff in Hok as ->.
  split; [done|]. by exists s1.
Qed.

Lemma no_success_run_all l failed : no_success (run_all None l failed).
Proof.
  revert failed. induction l as [|t l IH]; intros failed; [done|]. cbn [run_all]. apply no_success_bind; [done|].
  intros []; [|apply IH]. apply no_success_bind; [apply no_success_run_test|]. intros ok. apply IH.
Qed.

(** ** [usertests] without arguments ends with status 0 only if every test did, and then as many
    pages are free as before. *)
Lemma run_returns {A B} (p : prog A) (f : A -> prog B) s s' :
  no_success p -> run kernel (p ≫= f) s = (Exited 0, s') ->
  exists a s1, run kernel p s = (Returned a, s1) /\ run kernel (f a) s1 = (Exited 0, s').
Proof.
  intros Hp. rewrite run_bind. destruct (run kernel p s) as [[a|n|w|] s1] eqn:E; try done; [by exists a, s1|].
  intros [= -> ->]. by destruct (Hp s s').
Qed.

#[local] Opaque printf countfree run_all fail.

Lemma usertests_passed k n l prog_name s s' :
  run kernel (usertests_main (countfree k) n l [prog_name]) s = (Exited 0, s') ->
  exists free0 free1 s0 s1 s2 s3,
    run kernel (countfree k) s0 = (Returned free0, s1) /\ all_ok l s1 s2 /\
    run kernel (countfree k) s2 = (Returned free1, s3) /\ free0 <= free1.
Proof.
  intros H. cbn [usertests_main] in H. unfold run_once in H.
  apply run_returns in H as ([] & s0 & _ & H); [|apply no_success_printf].
  apply run_returns in H as (free0 & s1 & H0 & H); [|apply no_success_countfree].
  apply run_returns in H as (b & s2 & Hall & H); [|apply no_success_run_all].
  destruct b. { exfalso. revert H. apply no_success_bind; [apply no_success_printf|]. intros _. by apply no_success_exit. }
  apply run_returns in H as (free1 & s3 & H1 & H); [|apply no_success_countfree].
  exists free0, free1, s0, s1, s2, s3. destruct (run_all_ok _ _ _ _ _ Hall eq_refl) as [_ Ha].
  split; [done|]. split; [done|]. split; [done|]. destruct (Z.ltb_spec free1 free0); [|lia].
  exfalso. revert H. apply no_success_bind; [apply no_success_printf|]. intros _. by apply no_success_exit.
Qed.

(** A test that [run_test] reports as passed was waited for and had status 0. *)
Lemma run_test_status f name s s' :
  run kernel (run_test f name) s = (Returned true, s') ->
  exists s1 pid s2, kernel Wait s1 = (MkAnswer pid [0], s2) /\ 0 <= pid.
Proof.
  unfold run_test. rewrite run_bind. destruct (run kernel _ s) as [[[]|?|?|] s0]; try done. cbn.
  pose proof (Hparent s0) as H0. destruct (kernel Fork s0) as [[r d] s1]. cbn in *.
  destruct (r <? 0); [intros H; by destruct (fail_ends _ _ _ _ H)|].
  rewrite (proj2 (Z.eqb_neq r 0)) by done. destruct (kernel Wait s1) as [[pid st] s2] eqn:Ew. cbn. rewrite Ew. cbn.
  destruct st as [|v [|? ?]]; cbn; try done. destruct (Z.ltb_spec pid 0); cbn; [done|].
  change (run kernel (_ ← (if nonzero v then printf ("FAILED" +:+ nl) [] else printf ("OK" +:+ nl) []); mret (v =? 0)) s2 = (Returned true, s') -> exists s3 pid' s4, kernel Wait s3 = (MkAnswer pid' [0], s4) /\ 0 <= pid').
  rewrite run_bind. destruct (run kernel _ s2) as [[[]|?|?|] s3]; try done. cbn. intros [= Hv%Z.eqb_eq _]. subst v.
  by exists s1, pid, s2.
Qed.
End Verdict.
