(* ===== verification/Sh.v ===== *)
(** * The shell

    [user/sh.c].  A pointer into the command line is the part of the line from there
    to its end [es], so that [s < es] is that the part is not empty and [*s] its first
    character, or the terminator.  The parser is a state monad over that pointer, whose
    failures are the messages of [panic]; [malloc] is taken to succeed.  Executing a
    command is the tree of system calls of one process: a [fork] goes on as the child
    where the answer is 0. *)

From stdpp Require Import gmap strings list.
From S2P Require Import Prelude Layout User Ulib Uprintf.

(** ** Commands *)

(** A string in the line: where it starts and where it ends. *)
Abbreviation slice := (list Z * list Z)%type.

Record redir : Type := MkRedir { r_file : slice; r_mode : Z; r_fd : Z }.

(** [struct cmd]; the argument list of [execcmd] is as long as the entries before the null. *)
Inductive cmd : Type :=
| ExecCmd (argv : list slice)
| RedirCmd (c : cmd) (r : redir)
| PipeCmd (l r : cmd)
| ListCmd (l r : cmd)
| BackCmd (c : cmd).

(** ** The parser's monad *)

Inductive pres (A : Type) : Type :=
| POk (a : A) (s : list Z)
| PPanic (msg : string)
| PFuel.
Arguments POk {A} a s.
Arguments PPanic {A} msg.
Arguments PFuel {A}.

Definition parser (A : Type) : Type := list Z -> pres A.
#[global] Instance parser_ret : MRet parser := fun A a s => POk a s.
#[global] Instance parser_bind : MBind parser := fun A B f m s =>
  match m s with
  | POk a s => f a s
  | PPanic msg => PPanic msg
  | PFuel => PFuel
  end.
Definition ppanic {A} (msg : string) : parser A := fun _ => PPanic msg.
Definition pfuel {A} : parser A := fun _ => PFuel.

(** ** Tokens *)

Definition whitespace : list Z := [32; 9; 13; 10; 11].
Definition symbols : list Z := lit "<|>&;()".

Definition in_str (toks : list Z) (c : Z) : bool :=
  match strchr (toks ++ [0]) c with Some (Some _) => true | _ => false end.

Fixpoint skip_ws (s : list Z) : list Z :=
  match s with
  | [] => []
  | c :: s' => if in_str whitespace c then skip_ws s' else s
  end.

Fixpoint skip_word (s : list Z) : list Z :=
  match s with
  | [] => []
  | c :: s' => if negb (in_str whitespace c) && negb (in_str symbols c) then skip_word s' else s
  end.

(** The token at [s], and where it ends. *)
Definition token_at (s : list Z) : Z * list Z :=
  match s with
  | [] => (0, s)
  | c :: s1 =>
      if c =? 0 then (0, s)
      else if in_str (lit "|();&<") c then (c, s1)
      else if c =? 62 then
        match s1 with
        | c1 :: s2 => if c1 =? 62 then (43, s2) else (c, s1)
        | [] => (c, s1)
        end
      else (97, skip_word s)
  end.

(** The token, [q] and [eq]. *)
Definition gettoken : parser (Z * slice) := fun s =>
  let q := skip_ws s in
  let '(ret, eq) := token_at q in
  POk (ret, (q, eq)) (skip_ws eq).

Definition peek (toks : list Z) : parser bool := fun s =>
  let s := skip_ws s in
  POk (match s with [] => false | c :: _ => negb (c =? 0) && in_str toks c end) s.

(** ** Parsing *)

Definition redir_of (tok : Z) (f : slice) : list redir :=
  if tok =? 60 then [MkRedir f O_RDONLY 0]
  else if tok =? 62 then [MkRedir f (Z.lor (Z.lor O_WRONLY O_CREATE) O_TRUNC) 1]
  else if tok =? 43 then [MkRedir f (Z.lor O_WRONLY O_CREATE) 1]
  else [].

(** The redirections found, the first one first; each wraps the command that is there. *)
Fixpoint parseredirs (k : nat) : parser (list redir) :=
  match k with
  | O => pfuel
  | S k =>
      b ← peek (lit "<>");
      if b : bool then
        t ← gettoken;
        f ← gettoken;
        if negb (f.1 =? 97) then ppanic "missing file for redirection"
        else rs ← parseredirs k; mret (redir_of t.1 f.2 ++ rs)
      else mret []
  end.

Definition wrap (c : cmd) (rs : list redir) : cmd := foldl RedirCmd c rs.

Definition MAXARGS : nat := 10.

(** The arguments after the first [argc], and the redirections among them. *)
Fixpoint parseargs (k : nat) (argc : nat) : parser (list slice * list redir) :=
  match k with
  | O => pfuel
  | S k =>
      b ← peek (lit "|)&;");
      if b : bool then mret ([], [])
      else
        t ← gettoken;
        if t.1 =? 0 then mret ([], [])
        else if negb (t.1 =? 97) then ppanic "syntax"
        else if (MAXARGS <=? S argc)%nat then ppanic "too many args"
        else
          rs ← parseredirs k;
          x ← parseargs k (S argc);
          mret (t.2 :: x.1, rs ++ x.2)
  end.

Fixpoint parseback (k : nat) (c : cmd) : parser cmd :=
  match k with
  | O => pfuel
  | S k => b ← peek (lit "&"); if b : bool then _ ← gettoken; parseback k (BackCmd c) else mret c
  end.

Fixpoint parseline (k : nat) : parser cmd :=
  match k with
  | O => pfuel
  | S k =>
      c ← parsepipe k;
      c ← parseback k c;
      b ← peek (lit ";");
      if b : bool then _ ← gettoken; r ← parseline k; mret (ListCmd c r) else mret c
  end
with parsepipe (k : nat) : parser cmd :=
  match k with
  | O => pfuel
  | S k =>
      c ← parseexec k;
      b ← peek (lit "|");
      if b : bool then _ ← gettoken; r ← parsepipe k; mret (PipeCmd c r) else mret c
  end
with parseexec (k : nat) : parser cmd :=
  match k with
  | O => pfuel
  | S k =>
      b ← peek (lit "(");
      if b : bool then parseblock k
      else
        rs ← parseredirs k;
        x ← parseargs k 0;
        mret (wrap (ExecCmd x.1) (rs ++ x.2))
  end
with parseblock (k : nat) : parser cmd :=
  match k with
  | O => pfuel
  | S k =>
      b ← peek (lit "(");
      if negb b then ppanic "parseblock"
      else
        _ ← gettoken;
        c ← parseline k;
        b ← peek (lit ")");
        if negb b then ppanic "syntax - missing )"
        else _ ← gettoken; rs ← parseredirs k; mret (wrap c rs)
  end.

(** Enough for a line of that length. *)
Definition parse_fuel (s : list Z) : nat := 4 * length s + 8.

(** ** Terminating the strings *)

(** [*e = 0], in a line whose end is the terminator. *)
Definition terminate (buf : list Z) (e : list Z) : list Z := <[(length buf - 1 - length e)%nat := 0]> buf.

Fixpoint nulterminate (c : cmd) (buf : list Z) : list Z :=
  match c with
  | ExecCmd argv => foldl (fun b a => terminate b a.2) buf argv
  | RedirCmd c r => terminate (nulterminate c buf) (r_file r).2
  | PipeCmd l r | ListCmd l r => nulterminate r (nulterminate l buf)
  | BackCmd c => nulterminate c buf
  end.

(** The command with the strings that its pointers now denote. *)
Inductive scmd : Type :=
| SExec (argv : list (list Z))
| SRedir (c : scmd) (file : list Z) (mode fd : Z)
| SPipe (l r : scmd)
| SList (l r : scmd)
| SBack (c : scmd).

Definition string_at (buf : list Z) (q : list Z) : list Z := cstr (drop (length buf - 1 - length q) buf).

Fixpoint strings (buf : list Z) (c : cmd) : scmd :=
  match c with
  | ExecCmd argv => SExec ((fun a : slice => string_at buf a.1) <$> argv)
  | RedirCmd c r => SRedir (strings buf c) (string_at buf (r_file r).1) (r_mode r) (r_fd r)
  | PipeCmd l r => SPipe (strings buf l) (strings buf r)
  | ListCmd l r => SList (strings buf l) (strings buf r)
  | BackCmd c => SBack (strings buf c)
  end.

Inductive parsed : Type :=
| Parsed (c : scmd)
| Leftovers (s : list Z)
| Bad (msg : string)
| NoEnd.

Definition parsecmd (s : list Z) : parsed :=
  match parseline (parse_fuel s) s with
  | POk c s' =>
      match skip_ws s' with
      | [] => Parsed (strings (nulterminate c (s ++ [0])) c)
      | rest => Leftovers rest
      end
  | PPanic msg => Bad msg
  | PFuel => NoEnd
  end.

(** ** Execution *)

Definition sh_panic {A} (s : string) : prog A := _ ← fprintf 2 ("%s" +:+ nl) [AStr (Some (lit s))]; exit 1.

Definition fork1 : prog Z := pid ← sys Fork; if pid =? -1 then sh_panic "fork" else mret pid.

(** The two descriptors of a pipe. *)
Definition pipe : prog (Z * Z) :=
  x ← sys_data Pipe;
  if x.1 <? 0 then sh_panic "pipe"
  else match x.2 with [p0; p1] => mret (p0, p1) | _ => Undef "pipe" end.

Fixpoint runcmd (c : scmd) : prog unit :=
  match c with
  | SExec argv =>
      match argv with
      | [] => exit 1
      | a :: _ =>
          _ ← sys (Exec a argv);
          _ ← fprintf 2 ("exec %s failed" +:+ nl) [AStr (Some a)];
          exit 0
      end
  | SRedir c file mode fd =>
      _ ← sys (Close fd);
      r ← sys (Open file mode);
      if r <? 0 then _ ← fprintf 2 ("open %s failed" +:+ nl) [AStr (Some file)]; exit 1
      else runcmd c
  | SList l r =>
      pid ← fork1;
      if pid =? 0 then runcmd l else _ ← sys Wait; runcmd r
  | SPipe l r =>
      p ← pipe;
      pid ← fork1;
      if pid =? 0 then
        _ ← sys (Close 1); _ ← sys (Dup p.2); _ ← sys (Close p.1); _ ← sys (Close p.2);
        runcmd l
      else
        pid ← fork1;
        if pid =? 0 then
          _ ← sys (Close 0); _ ← sys (Dup p.1); _ ← sys (Close p.1); _ ← sys (Close p.2);
          runcmd r
        else
          _ ← sys (Close p.1); _ ← sys (Close p.2); _ ← sys Wait; _ ← sys Wait;
          exit 0
  | SBack c =>
      pid ← fork1;
      if pid =? 0 then runcmd c else exit 0
  end.

(** [runcmd(parsecmd(buf))]. *)
Definition run_line (buf : list Z) : prog unit :=
  match parsecmd buf with
  | Parsed c => runcmd c
  | Leftovers s => _ ← fprintf 2 ("leftovers: %s" +:+ nl) [AStr (Some s)]; sh_panic "syntax"
  | Bad msg => sh_panic msg
  | NoEnd => Unfinished
  end.

(** The line read, if it is not the end. *)
Definition getcmd (nbuf : Z) : prog (option (list Z)) :=
  _ ← fprintf 2 "$ " [];
  buf ← gets nbuf;
  let buf := cstr buf in
  mret (match buf with [] => None | _ => Some buf end).

Fixpoint open_console (k : nat) : prog unit :=
  match k with
  | O => Unfinished
  | S k =>
      fd ← sys (Open (lit "console") O_RDWR);
      if 0 <=? fd then if 3 <=? fd then _ ← sys (Close fd); mret tt else open_console k
      else mret tt
  end.

Fixpoint sh_loop (k : nat) : prog unit :=
  match k with
  | O => Unfinished
  | S k =>
      o ← getcmd 100;
      match o with
      | None => exit 0
      | Some buf =>
          if bool_decide (take 3 buf = lit "cd ") then
            let dir := drop 3 (take (length buf - 1) buf) in
            r ← sys (Chdir dir);
            _ ← (if r <? 0 then fprintf 2 ("cannot cd %s" +:+ nl) [AStr (Some dir)] else mret tt);
            sh_loop k
          else
            pid ← fork1;
            if pid =? 0 then run_line buf else _ ← sys Wait; sh_loop k
      end
  end.

Definition sh_main (k : nat) : prog unit := _ ← open_console k; sh_loop k.
