(* ===== verification/ShParse.v ===== *)
(** * The shell's parser against its grammar

    The command line is a list of tokens, and a grammar says which lists are which
    commands.  The parser, which works on pointers into the line, returns exactly the
    command that the grammar gives, with the strings that its pointers denote after
    [nulterminate]; it panics if there is none. *)

From stdpp Require Import gmap strings list.
From S2P Require Import Prelude Layout User Ulib Uprintf Sh.

(** ** Tokens *)

(** A word, or a symbol; [>>] is 43. *)
Inductive tok : Type := TWord (w : list Z) | TSym (c : Z).

(** The characters between two pointers. *)
Definition text (q e : list Z) : list Z := take (length q - length e) q.

Definition tok_of (t : Z) (q e : list Z) : tok := if t =? 97 then TWord (text q e) else TSym t.

Fixpoint lexk (k : nat) (s : list Z) : list tok :=
  match k with
  | O => []
  | S k =>
      match skip_ws s with
      | [] => []
      | q => let '(t, e) := token_at q in tok_of t q e :: lexk k e
      end
  end.

Definition lex (s : list Z) : list tok := lexk (S (length s)) s.

(** A word is a longest run of characters that are neither blank nor a symbol. *)
Definition word_char (c : Z) : Prop := (c ∉ whitespace) /\ (c ∉ symbols).
Definition word_ends (s : list Z) : Prop := forall c s', s = c :: s' -> ~ word_char c.

(** The tokens of a line, without the scanner. *)
Inductive lexes : list Z -> list tok -> Prop :=
| lx_nil : lexes [] []
| lx_blank c s ts : c ∈ whitespace -> lexes s ts -> lexes (c :: s) ts
| lx_sym c s ts : c ∈ symbols -> c <> 62 -> lexes s ts -> lexes (c :: s) (TSym c :: ts)
| lx_append s ts : lexes s ts -> lexes (62 :: 62 :: s) (TSym 43 :: ts)
| lx_gt s ts : head s <> Some 62 -> lexes s ts -> lexes (62 :: s) (TSym 62 :: ts)
| lx_word w s ts : w <> [] -> Forall word_char w -> word_ends s -> lexes s ts -> lexes (w ++ s) (TWord w :: ts).

(** ** The grammar *)

Definition redir_sym (c : Z) : option (Z * Z) :=
  if c =? 60 then Some (O_RDONLY, 0)
  else if c =? 62 then Some (Z.lor (Z.lor O_WRONLY O_CREATE) O_TRUNC, 1)
  else if c =? 43 then Some (Z.lor O_WRONLY O_CREATE, 1)
  else None.

Abbreviation sredir := (list Z * (Z * Z))%type.

Inductive g_redirs : list tok -> list sredir -> Prop :=
| gr_nil : g_redirs [] []
| gr_cons c w m ts rs : redir_sym c = Some m -> g_redirs ts rs -> g_redirs (TSym c :: TWord w :: ts) ((w, m) :: rs).

Inductive g_args : list tok -> list (list Z) -> list sredir -> Prop :=
| ga_nil : g_args [] [] []
| ga_cons w rts rs ts ws rs' : g_redirs rts rs -> g_args ts ws rs' -> g_args (TWord w :: rts ++ ts) (w :: ws) (rs ++ rs').

(** The first redirection is the innermost. *)
Definition swrap (c : scmd) (rs : list sredir) : scmd := foldl (fun c r => SRedir c r.1 r.2.1 r.2.2) c rs.

Definition sback (n : nat) (c : scmd) : scmd := Nat.iter n SBack c.

Inductive g_line : list tok -> scmd -> Prop :=
| gl_last ts c n : g_pipe ts c -> g_line (ts ++ replicate n (TSym 38)) (sback n c)
| gl_list ts c n ts' c' : g_pipe ts c -> g_line ts' c' ->
    g_line (ts ++ replicate n (TSym 38) ++ TSym 59 :: ts') (SList (sback n c) c')
with g_pipe : list tok -> scmd -> Prop :=
| gp_last ts c : g_exec ts c -> g_pipe ts c
| gp_pipe ts c ts' c' : g_exec ts c -> g_pipe ts' c' -> g_pipe (ts ++ TSym 124 :: ts') (SPipe c c')
with g_exec : list tok -> scmd -> Prop :=
| ge_args rts rs ts ws rs' : g_redirs rts rs -> g_args ts ws rs' -> (length ws < MAXARGS)%nat ->
    g_exec (rts ++ ts) (swrap (SExec ws) (rs ++ rs'))
| ge_block ts c rts rs : g_line ts c -> g_redirs rts rs ->
    g_exec (TSym 40 :: ts ++ TSym 41 :: rts) (swrap c rs).

Scheme g_line_ind' := Induction for g_line Sort Prop
  with g_pipe_ind' := Induction for g_pipe Sort Prop
  with g_exec_ind' := Induction for g_exec Sort Prop.
Combined Scheme grammar_ind from g_line_ind', g_pipe_ind', g_exec_ind'.

(** ** The lexer *)

(** Characters that end a word. *)
Definition delim (c : Z) : bool := in_str whitespace c || in_str symbols c.

Lemma skip_ws_suffix s : skip_ws s `suffix_of` s.
Proof. induction s as [|c s IH]; cbn [skip_ws]; [done|]. destruct (in_str _ _); [by apply suffix_cons_r|done]. Qed.

Lemma skip_ws_idem s : skip_ws (skip_ws s) = skip_ws s.
Proof. induction s as [|c s IH]; cbn [skip_ws]; [done|]. destruct (in_str whitespace c) eqn:E; [done|]. cbn [skip_ws]. by rewrite E. Qed.

Lemma skip_ws_head s c s' : skip_ws s = c :: s' -> in_str whitespace c = false.
Proof. induction s as [|x s IH]; cbn [skip_ws]; [done|]. destruct (in_str whitespace x) eqn:E; [done|]. by intros [= -> _]. Qed.

Lemma skip_word_spec s : exists w, s = w ++ skip_word s /\ Forall (fun c => delim c = false) w /\
  (forall c s', skip_word s = c :: s' -> delim c = true).
Proof.
  induction s as [|c s (w & E & Hw & Hh)]; cbn [skip_word]; [by exists []|].
  destruct (negb _ && negb _) eqn:Ed.
  - exists (c :: w). cbn [app]. rewrite <- E. split; [done|]. split; [|done]. constructor; [|done].
    unfold delim. by destruct (in_str whitespace c), (in_str symbols c).
  - exists []. split; [done|]. split; [done|]. intros ? ? [= <- <-]. unfold delim.
    by destruct (in_str whitespace c), (in_str symbols c).
Qed.

Lemma in_str_mem toks c : 0 ∉ toks -> c <> 0 -> in_str toks c = bool_decide (c ∈ toks).
Proof.
  intros Ht Hc. unfold in_str. destruct (strchr_mem toks c Ht Hc) as (o & -> & Ho).
  destruct o; symmetry; [apply bool_decide_eq_true_2|apply bool_decide_eq_false_2]; rewrite <- Ho; [by eexists|by intros []].
Qed.

Lemma symbols_split c : c <> 0 -> in_str symbols c = in_str (lit "|();&<") c || (c =? 62).
Proof.
  intros Hc. rewrite !in_str_mem; [|by apply (bool_decide_unpack _)|done|by apply (bool_decide_unpack _)|done].
  apply eq_true_iff_eq. rewrite orb_true_iff, !bool_decide_eq_true, Z.eqb_eq. cbn.
  rewrite !elem_of_cons, elem_of_nil. tauto.
Qed.

Lemma in_syms_cases c : in_str (lit "|();&<") c = true -> c <> 97 /\ c <> 43 /\ c <> 62.
Proof.
  intros Hc. destruct (decide (c = 0)) as [->|H0]; [done|].
  rewrite in_str_mem, bool_decide_eq_true in Hc; [|by apply (bool_decide_unpack _)|done].
  change (lit "|();&<") with [124; 40; 41; 59; 38; 60] in Hc. rewrite !elem_of_cons, elem_of_nil in Hc. lia.
Qed.

(** The character that a symbol starts with. *)
Definition first_char (t : Z) : Z := if t =? 43 then 62 else t.

Lemma token_at_spec c s1 t e :
  c <> 0 -> in_str whitespace c = false -> token_at (c :: s1) = (t, e) ->
  exists w, c :: s1 = w ++ e /\ w <> [] /\ t <> 0 /\
    (t = 97 /\ in_str symbols c = false /\ Forall (fun c => delim c = false) w /\ (forall x e', e = x :: e' -> delim x = true) \/
     t <> 97 /\ c = first_char t /\ in_str symbols c = true).
Proof.
  intros Hc Hw. pose proof (symbols_split c Hc) as Hs. cbn [token_at].
  rewrite (proj2 (Z.eqb_neq c 0)) by done. destruct (in_str (lit "|();&<") c) eqn:E.
  { intros [= <- <-]. apply in_syms_cases in E as (? & ? & ?). exists [c]. repeat split; try done. right.
    unfold first_char. rewrite (proj2 (Z.eqb_neq c 43)) by done. done. }
  destruct (Z.eqb_spec c 62) as [->|Hne].
  { destruct s1 as [|c1 s2]; [intros [= <- <-]; exists [62]; repeat split; try done; by right|].
    destruct (c1 =? 62) eqn:E1; intros [= <- <-]; [|exists [62]; repeat split; try done; by right].
    exists [62; c1]. repeat split; try done. by right. }
  intros [= <- <-]. destruct (skip_word_spec (c :: s1)) as (w & Ew & Hd & Hh). exists w.
  split; [done|]. split; [|split; [done|left; by repeat split]].
  intros ->. cbn in Ew. specialize (Hh c s1 (eq_sym Ew)). unfold delim in Hh. by rewrite Hw, Hs in Hh.
Qed.

Lemma suffix_no_nul (s s0 : list Z) : s `suffix_of` s0 -> 0 ∉ s0 -> 0 ∉ s.
Proof. intros [x ->] H Hin. apply H, elem_of_app. by right. Qed.

Lemma lexk_fuel k : forall k' s, 0 ∉ s -> (length s < k)%nat -> (length s < k')%nat -> lexk k s = lexk k' s.
Proof.
  induction k as [|k IH]; intros k' s H0 Hk Hk'; [lia|]. destruct k' as [|k']; [lia|]. cbn [lexk].
  pose proof (skip_ws_suffix s) as Hsuf. destruct (skip_ws s) as [|c q] eqn:E; [done|].
  destruct (token_at (c :: q)) as [t e] eqn:Et. f_equal.
  pose proof (suffix_no_nul _ _ Hsuf H0) as Hq. apply suffix_length in Hsuf as Hlen.
  destruct (token_at_spec c q t e) as (w & Ew & Hne & _); [intros ->; apply Hq; left|by eapply skip_ws_head|done|].
  assert (length e < length (c :: q))%nat by (rewrite Ew, length_app; destruct w; [done|cbn; lia]).
  apply IH; [|lia|lia]. intros Hin. apply Hq. rewrite Ew. apply elem_of_app. by right.
Qed.

Lemma lex_nil s : skip_ws s = [] -> lex s = [].
Proof. intros E. unfold lex. cbn [lexk]. by rewrite E. Qed.

Lemma lex_cons s c q t e : 0 ∉ s -> skip_ws s = c :: q -> token_at (c :: q) = (t, e) -> lex s = tok_of t (c :: q) e :: lex e.
Proof.
  intros H0 E Et. pose proof (skip_ws_suffix s) as Hsuf. rewrite E in Hsuf.
  pose proof (suffix_no_nul _ _ Hsuf H0) as Hq. apply suffix_length in Hsuf as Hlen.
  destruct (token_at_spec c q t e) as (w & Ew & Hne & _); [intros ->; apply Hq; left|by eapply skip_ws_head|done|].
  assert (length e < length (c :: q))%nat by (rewrite Ew, length_app; destruct w; [done|cbn; lia]).
  unfold lex at 1. cbn [lexk]. rewrite E, Et. f_equal. apply lexk_fuel; [|lia|lia].
  intros Hin. apply Hq. rewrite Ew. apply elem_of_app. by right.
Qed.

Lemma lex_skip s : 0 ∉ s -> lex (skip_ws s) = lex s.
Proof.
  intros H0. unfold lex. rewrite (lexk_fuel (S (length (skip_ws s))) (S (length s))).
  - cbn [lexk]. by rewrite skip_ws_idem.
  - by eapply suffix_no_nul, H0; apply skip_ws_suffix.
  - lia.
  - pose proof (suffix_length _ _ (skip_ws_suffix s)). lia.
Qed.

Lemma in_whitespace c : c <> 0 -> in_str whitespace c = true <-> c ∈ whitespace.
Proof. intros Hc. rewrite in_str_mem; [apply bool_decide_eq_true|by apply (bool_decide_unpack _)|done]. Qed.

Lemma in_symbols c : c <> 0 -> in_str symbols c = true <-> c ∈ symbols.
Proof. intros Hc. rewrite in_str_mem; [apply bool_decide_eq_true|by apply (bool_decide_unpack _)|done]. Qed.

Lemma delim_word_char c : c <> 0 -> delim c = false <-> word_char c.
Proof.
  intros Hc. unfold delim, word_char. rewrite orb_false_iff, <- !not_true_iff_false.
  by rewrite in_whitespace, in_symbols.
Qed.

Lemma symbol_not_blank c : c ∈ symbols -> c ∉ whitespace.
Proof. revert c. apply Forall_forall. by apply (bool_decide_unpack _). Qed.

Lemma text_app w e : text (w ++ e) e = w.
Proof. unfold text. rewrite length_app. replace (length w + length e - length e)%nat with (length w) by lia. apply take_app_length. Qed.

Lemma skip_word_app w s : 0 ∉ w ++ s -> Forall word_char w -> word_ends s -> skip_word (w ++ s) = s.
Proof.
  intros H0 Hw Hs. induction Hw as [|c w Hc _ IH]; cbn [app skip_word] in *.
  - destruct s as [|c s]; [done|]. cbn [skip_word]. apply not_elem_of_cons in H0 as [H0 _].
    specialize (Hs c s eq_refl). rewrite <- delim_word_char in Hs by done. unfold delim in Hs.
    by destruct (in_str whitespace c), (in_str symbols c).
  - apply not_elem_of_cons in H0 as [H0 H0']. apply delim_word_char in Hc; [|done]. unfold delim in Hc.
    apply orb_false_iff in Hc as [-> ->]. by apply IH.
Qed.

(** The scanner finds the tokens of the line, and no other list is its tokens. *)
Lemma lex_blank c s : 0 ∉ c :: s -> c ∈ whitespace -> lex (c :: s) = lex s.
Proof.
  intros H0 Hc. rewrite <- (lex_skip (c :: s)) by done. apply not_elem_of_cons in H0 as [Hn H0].
  cbn [skip_ws]. rewrite (proj2 (in_whitespace c ltac:(done))) by done. by apply lex_skip.
Qed.

Lemma lex_token c s t e :
  0 ∉ c :: s -> c ∉ whitespace -> token_at (c :: s) = (t, e) -> lex (c :: s) = tok_of t (c :: s) e :: lex e.
Proof.
  intros H0 Hc. apply lex_cons; [done|]. cbn [skip_ws]. apply not_elem_of_cons in H0 as [Hn _].
  by rewrite <- in_whitespace, not_true_iff_false in Hc by done; rewrite Hc.
Qed.

Lemma lexes_lex s ts : lexes s ts -> 0 ∉ s -> lex s = ts.
Proof.
  induction 1 as [|c s ts Hc _ IH|c s ts Hc Hg _ IH|s ts _ IH|s ts Hg _ IH|w s ts Hne Hw Hs _ IH]; intros H0; [done|..].
  - rewrite lex_blank by done. apply IH. by apply not_elem_of_cons in H0 as [_ H0].
  - pose proof H0 as [Hn H0']%not_elem_of_cons. pose proof (symbols_split c ltac:(done)) as E.
    rewrite (proj2 (in_symbols c ltac:(done))), (proj2 (Z.eqb_neq c 62)), orb_false_r in E by done. symmetry in E.
    rewrite (lex_token c s c s); [|done|by apply symbol_not_blank|cbn [token_at]; by rewrite (proj2 (Z.eqb_neq c 0)), E by done].
    apply in_syms_cases in E as (? & _). unfold tok_of. rewrite (proj2 (Z.eqb_neq c 97)) by done. by rewrite IH.
  - rewrite (lex_token 62 (62 :: s) 43 s); [|done|by apply (bool_decide_unpack _)|done]. cbn [tok_of Z.eqb Pos.eqb]. rewrite IH; [done|].
    by apply not_elem_of_cons in H0 as [_ [_ H0]%not_elem_of_cons].
  - rewrite (lex_token 62 s 62 s); [|done|by apply (bool_decide_unpack _)|].
    + cbn [tok_of Z.eqb Pos.eqb]. rewrite IH; [done|]. by apply not_elem_of_cons in H0 as [_ H0].
    + destruct s as [|x s]; [done|]. cbn [token_at]. cbn in Hg. by rewrite (proj2 (Z.eqb_neq x 62)) by congruence.
  - pose proof (skip_word_app w s H0 Hw Hs) as Esk. pose proof (text_app w s) as Etx. destruct w as [|c w]; [done|]. cbn [app] in *.
    pose proof H0 as [Hn H0']%not_elem_of_cons. apply Forall_cons in Hw as [[Hb Hy] _].
    pose proof (symbols_split c ltac:(done)) as E. rewrite <- in_symbols, not_true_iff_false in Hy by done.
    rewrite Hy in E. symmetry in E. apply orb_false_iff in E as [E1 E2].
    rewrite (lex_token c (w ++ s) 97 s); [|done|done|cbn [token_at]; rewrite (proj2 (Z.eqb_neq c 0)), E1, E2 by done; by rewrite Esk].
    unfold tok_of. rewrite Etx. cbn [Z.eqb Pos.eqb]. rewrite IH; [done|]. intros Hin. apply H0'. apply elem_of_app. by right.
Qed.

Lemma token_lexes c s t e ts : 0 ∉ c :: s -> c ∉ whitespace -> token_at (c :: s) = (t, e) ->
  (length e <= length s)%nat /\ (0 ∉ e) /\ (lexes e ts -> lexes (c :: s) (tok_of t (c :: s) e :: ts)).
Proof.
  intros H0 Hb. pose proof H0 as [Hn H0']%not_elem_of_cons. pose proof (symbols_split c ltac:(done)) as Hs. cbn [token_at].
  rewrite (proj2 (Z.eqb_neq c 0)) by done. destruct (in_str (lit "|();&<") c) eqn:E.
  { intros [= <- <-]. pose proof (in_syms_cases c E) as (H97 & _ & H62). split; [lia|]. split; [done|]. intros H.
    unfold tok_of. rewrite (proj2 (Z.eqb_neq c 97)) by done. apply lx_sym; [by apply in_symbols|done|done]. }
  destruct (Z.eqb_spec c 62) as [->|Hne].
  { destruct s as [|c1 s2]; [intros [= <- <-]; split; [lia|]; split; [done|]; by apply lx_gt|].
    destruct (Z.eqb_spec c1 62) as [->|E1]; intros [= <- <-]; cbn [length].
    - split; [lia|]. split; [by apply not_elem_of_cons in H0' as [_ ?]|]. by apply lx_append.
    - split; [lia|]. split; [done|]. apply lx_gt. cbn. congruence. }
  intros [<- He]%pair_eq. destruct (skip_word_spec (c :: s)) as (w & Ew & Hd & Hh).
  assert (w <> []) as Hw. { intros ->. cbn [app] in Ew. specialize (Hh c s (eq_sym Ew)). unfold delim in Hh.
    rewrite <- in_whitespace, not_true_iff_false in Hb by done. by rewrite Hb, Hs in Hh. }
  rewrite He in Ew, Hh. clear He. rewrite Ew in H0 |- *.
  apply not_elem_of_app in H0 as [Hw0 He0]. split; [|split; [done|]].
  { apply (f_equal length) in Ew. rewrite length_app in Ew. cbn in Ew. destruct w; [done|]. cbn in Ew. lia. }
  intros H. unfold tok_of. cbn. rewrite text_app. apply lx_word; [done| |intros x e' ->|done].
  - rewrite Forall_forall in Hd |- *. intros x Hx. apply delim_word_char; [by intros ->|]. by apply Hd.
  - rewrite <- delim_word_char, (Hh x e'); [done|done|]. by apply not_elem_of_cons in He0 as [? _].
Qed.

Lemma lex_lexes s : 0 ∉ s -> lexes s (lex s).
Proof.
  induction s as [s IH] using (induction_ltof1 _ length). unfold ltof in IH. destruct s as [|c s]; [constructor|]. intros H0.
  destruct (decide (c ∈ whitespace)) as [Hb|Hb].
  - rewrite lex_blank by done. apply lx_blank; [done|]. apply IH; [cbn; lia|]. by apply not_elem_of_cons in H0 as [_ ?].
  - destruct (token_at (c :: s)) as [t e] eqn:Et. rewrite (lex_token c s t e) by done.
    destruct (token_lexes c s t e (lex e) H0 Hb Et) as (Hl & He & H). apply H, IH; [cbn; lia|done].
Qed.

Lemma lexes_unique s ts : 0 ∉ s -> lexes s ts <-> ts = lex s.
Proof. intros H0. split; [intros H; symmetry; by apply lexes_lex|intros ->; by apply lex_lexes]. Qed.

(** ** The parser's primitives on tokens *)

Definition code (t : tok) : Z := match t with TWord _ => 97 | TSym c => c end.

(** Whether the first token starts with one of [toks]. *)
Definition starts (toks : list Z) (ts : list tok) : bool :=
  match ts with TSym t :: _ => in_str toks (first_char t) | _ => false end.

Definition all_symbols (toks : list Z) : Prop := forall c, in_str toks c = true -> in_str symbols c = true.

Lemma in_str_nul toks : in_str toks 0 = false.
Proof.
  unfold in_str. generalize (toks ++ [0]). intros l. induction l as [|x l IH]; cbn; [done|].
  destruct (Z.eqb_spec x 0); [done|]. destruct (strchr l 0) as [[]|]; cbn; done.
Qed.

Lemma all_symbols_dec toks : 0 ∉ toks -> Forall (fun c => c ∈ symbols) toks -> all_symbols toks.
Proof.
  intros H0 Hf c Hc. destruct (decide (c = 0)) as [->|Hne]; [by rewrite in_str_nul in Hc|].
  rewrite in_str_mem, bool_decide_eq_true in Hc by done. rewrite Forall_forall in Hf. specialize (Hf _ Hc).
  rewrite in_str_mem; [by apply bool_decide_eq_true_2|by apply (bool_decide_unpack _)|done].
Qed.

Section Line.
Variable s0 : list Z.
Hypothesis s0_string : 0 ∉ s0.

Definition inside (s : list Z) : Prop := s `suffix_of` s0.

(** The pointers of a word in the line. *)
Definition word_at (w : list Z) (a : slice) : Prop :=
  a.1 = w ++ a.2 /\ w <> [] /\ Forall (fun c => delim c = false) w /\
  (forall x e, a.2 = x :: e -> delim x = true) /\ inside a.1.

Lemma inside_nul s : inside s -> 0 ∉ s.
Proof. intros H. by eapply suffix_no_nul. Qed.

Lemma inside_skip s : inside s -> inside (skip_ws s).
Proof. unfold inside. intros H. etrans; [apply skip_ws_suffix|done]. Qed.

Lemma peek_spec toks s : all_symbols toks -> inside s ->
  peek toks s = POk (starts toks (lex s)) (skip_ws s) /\ lex (skip_ws s) = lex s /\ inside (skip_ws s).
Proof.
  intros Ht Hs. pose proof (inside_nul s Hs) as H0. split; [|split; [by apply lex_skip|by apply inside_skip]].
  unfold peek. f_equal. destruct (skip_ws s) as [|c q] eqn:E; [by rewrite lex_nil|].
  destruct (token_at (c :: q)) as [t e] eqn:Et. rewrite (lex_cons s c q t e) by done.
  assert (c <> 0) as Hc by (intros ->; apply (inside_nul _ (inside_skip s Hs)); rewrite E; left).
  destruct (token_at_spec c q t e Hc (skip_ws_head _ _ _ E) Et) as (w & _ & _ & _ & [(-> & Hn & _)|(Hne & Hf & _)]).
  - cbn. rewrite (proj2 (Z.eqb_neq c 0)) by done. cbn. destruct (in_str toks c) eqn:Ec; [|done].
    apply Ht in Ec. congruence.
  - unfold tok_of. rewrite (proj2 (Z.eqb_neq t 97)) by done. cbn. rewrite <- Hf, (proj2 (Z.eqb_neq c 0)) by done. done.
Qed.

Lemma gettoken_end s : inside s -> lex s = [] -> gettoken s = POk (0, ([], [])) [].
Proof.
  intros Hs Hl. unfold gettoken. destruct (skip_ws s) as [|c q] eqn:E; [done|].
  destruct (token_at (c :: q)) as [t e] eqn:Et. by rewrite (lex_cons s c q t e (inside_nul s Hs) E Et) in Hl.
Qed.

Lemma gettoken_tok s t ts : inside s -> lex s = t :: ts ->
  exists a s', gettoken s = POk (code t, a) s' /\ lex s' = ts /\ inside s' /\ (length s' < length s)%nat /\
    code t <> 0 /\ match t with TWord w => word_at w a | TSym c => c <> 97 end.
Proof.
  intros Hs Hl. pose proof (inside_nul s Hs) as H0. destruct (skip_ws s) as [|c q] eqn:E; [by rewrite lex_nil in Hl|].
  destruct (token_at (c :: q)) as [n e] eqn:Et. rewrite (lex_cons s c q n e) in Hl by done.
  pose proof (inside_skip s Hs) as Hq. rewrite E in Hq.
  assert (c <> 0) as Hc by (intros ->; apply (inside_nul _ Hq); left).
  destruct (token_at_spec c q n e Hc (skip_ws_head _ _ _ E) Et) as (w & Ew & Hne & Hn0 & Hcase).
  assert (inside e) as He by (unfold inside in *; etrans; [|exact Hq]; rewrite Ew; by exists w).
  assert (length e < length s)%nat as Hlen.
  { pose proof (suffix_length _ _ (skip_ws_suffix s)) as Hl1. rewrite E, Ew, length_app in Hl1. destruct w; [done|]. cbn in Hl1. lia. }
  exists (c :: q, e), (skip_ws e). injection Hl as <- <-. split; [|split; [by apply lex_skip, inside_nul|split; [by apply inside_skip|split]]].
  - unfold gettoken. rewrite E, Et. unfold tok_of. destruct (Z.eqb_spec n 97) as [->|]; done.
  - pose proof (suffix_length _ _ (skip_ws_suffix e)). lia.
  - unfold tok_of. destruct (Z.eqb_spec n 97) as [->|Hn97]; [|done]. split; [done|].
    destruct Hcase as [(_ & _ & Hw & Hd)|(Hx & _)]; [|done].
    assert (text (c :: q) e = w) as ->.
    { unfold text. rewrite Ew, length_app. replace (length w + length e - length e)%nat with (length w) by lia. apply take_app_length. }
    by repeat split.
Qed.

(** ** Triples

    What a parser returns from [s] satisfies [P]; with [b], it does not panic. *)

Definition spec {A} (b : bool) (m : parser A) (s : list Z) (P : A -> list tok -> Prop) : Prop :=
  match m s with
  | POk a s' => inside s' /\ P a (lex s')
  | PPanic _ => b = false
  | PFuel => True
  end.

Lemma spec_bind {A B} b (m : parser A) (f : A -> parser B) s P Q :
  spec b m s P -> (forall a s', inside s' -> P a (lex s') -> spec b (f a) s' Q) -> spec b (m ≫= f) s Q.
Proof. unfold spec, mbind, parser_bind. destruct (m s) as [a s'| |]; [|done..]. intros [Hs Hp] H. by apply H. Qed.

Lemma spec_ext {A} b (m m' : parser A) s P : m s = m' s -> spec b m' s P -> spec b m s P.
Proof. unfold spec. by intros ->. Qed.

Lemma spec_weaken {A} b (m : parser A) s (P Q : A -> list tok -> Prop) :
  spec b m s P -> (forall a l, P a l -> Q a l) -> spec b m s Q.
Proof. unfold spec. destruct (m s); naive_solver. Qed.

Lemma spec_ret {A} b (a : A) s (P : A -> list tok -> Prop) : inside s -> P a (lex s) -> spec b (mret a) s P.
Proof. by split. Qed.

Lemma spec_panic {A} msg s (P : A -> list tok -> Prop) : spec false (ppanic msg) s P.
Proof. done. Qed.

Lemma spec_peek {B} b toks (f : bool -> parser B) s Q :
  all_symbols toks -> inside s ->
  (forall s', inside s' -> lex s' = lex s -> spec b (f (starts toks (lex s))) s' Q) -> spec b (peek toks ≫= f) s Q.
Proof.
  intros Ht Hs H. destruct (peek_spec toks s Ht Hs) as (E & Hl & Hi). specialize (H _ Hi Hl).
  unfold spec, mbind, parser_bind in *. by rewrite E.
Qed.

Lemma spec_get {B} b (f : Z * slice -> parser B) s Q :
  inside s ->
  (lex s = [] -> spec b (f (0, ([], []))) [] Q) ->
  (forall t ts a s', lex s = t :: ts -> inside s' -> lex s' = ts -> code t <> 0 ->
     match t with TWord w => word_at w a | TSym c => c <> 97 end -> spec b (f (code t, a)) s' Q) ->
  spec b (gettoken ≫= f) s Q.
Proof.
  intros Hs H1 H2. unfold spec, mbind, parser_bind in *. destruct (lex s) as [|t ts] eqn:E.
  - rewrite gettoken_end by done. by apply H1.
  - destruct (gettoken_tok s t ts Hs E) as (a & s' & Eg & Hl & Hi & _ & Hc & Ht). rewrite Eg. by apply (H2 t ts a s').
Qed.

(** ** What the commands denote *)

Definition redir_at (x : sredir) (r : redir) : Prop := word_at x.1 (r_file r) /\ r_mode r = x.2.1 /\ r_fd r = x.2.2.

Inductive denotes : cmd -> scmd -> Prop :=
| den_exec ws argv : Forall2 word_at ws argv -> denotes (ExecCmd argv) (SExec ws)
| den_redir c sc w r : denotes c sc -> word_at w (r_file r) -> denotes (RedirCmd c r) (SRedir sc w (r_mode r) (r_fd r))
| den_pipe l r sl sr : denotes l sl -> denotes r sr -> denotes (PipeCmd l r) (SPipe sl sr)
| den_list l r sl sr : denotes l sl -> denotes r sr -> denotes (ListCmd l r) (SList sl sr)
| den_back c sc : denotes c sc -> denotes (BackCmd c) (SBack sc).

Lemma denotes_wrap srs rs : Forall2 redir_at srs rs -> forall c sc, denotes c sc -> denotes (wrap c rs) (swrap sc srs).
Proof.
  induction 1 as [|[w [m fd]] r srs rs (Hw & Hm & Hf) _ IH]; intros c sc Hc; [done|]. cbn in *. apply IH.
  rewrite <- Hm, <- Hf. by constructor.
Qed.

(** ** Soundness *)

Lemma starts_redir ts : starts (lit "<>") ts = true -> exists c m ts', ts = TSym c :: ts' /\ redir_sym c = Some m.
Proof.
  destruct ts as [|[w|c] ts]; cbn [starts]; try done. intros Hc. exists c.
  assert (first_char c <> 0) as H0 by (intros E; by rewrite E, in_str_nul in Hc).
  rewrite in_str_mem, bool_decide_eq_true in Hc; [|by apply (bool_decide_unpack _)|done].
  change (lit "<>") with [60; 62] in Hc. rewrite !elem_of_cons, elem_of_nil in Hc.
  assert (is_Some (redir_sym c)) as [m Hm]; [|by exists m, ts].
  unfold first_char in Hc. unfold redir_sym. destruct (Z.eqb_spec c 43) as [->|]; [by eexists|].
  destruct Hc as [->|[->|[]]]; by eexists.
Qed.

Lemma redir_of_sym c m f : redir_sym c = Some m -> redir_of c f = [MkRedir f m.1 m.2].
Proof.
  unfold redir_sym, redir_of. destruct (c =? 60); [by intros [= <-]|]. destruct (c =? 62); [by intros [= <-]|].
  destruct (c =? 43); [by intros [= <-]|done].
Qed.

(** Sets of symbols are written as literals. *)
Ltac syms := by apply all_symbols_dec; apply (bool_decide_unpack _).

Lemma parseredirs_sound k : forall s, inside s ->
  spec false (parseredirs k) s (fun rs l => exists ts srs, lex s = ts ++ l /\ g_redirs ts srs /\ Forall2 redir_at srs rs).
Proof.
  induction k as [|k IH]; intros s Hs; [done|]. cbn [parseredirs].
  apply spec_peek; [syms|done|]. intros s1 Hs1 E1. destruct (starts (lit "<>") (lex s)) eqn:Est.
  2: { apply spec_ret; [done|]. exists [], []. rewrite E1. split; [done|]. split; constructor. }
  apply starts_redir in Est as (c & m & ts & E & Hm). rewrite E in E1.
  apply spec_get; [done|congruence|]. intros t ts1 a s2 E2 Hs2 E3 Hc Ht. rewrite E1 in E2. simplify_eq. cbn in Hc, Ht.
  apply spec_get; [done|by intros _; apply spec_panic|]. intros t ts1 a1 s3 E4 Hs3 E5 Hc1 Ht1. destruct t as [w|c1].
  2: { cbn [fst code]. rewrite (proj2 (Z.eqb_neq c1 97)) by done. apply spec_panic. }
  cbn [fst snd code]. cbn [Z.eqb Pos.eqb negb]. eapply spec_bind; [by apply IH|]. intros rs s4 Hs4 (ts2 & srs & E6 & Hg & Hf).
  apply spec_ret; [done|]. exists (TSym c :: TWord w :: ts2), ((w, m) :: srs).
  rewrite E, E4, <- E5, E6. split; [done|]. split; [by constructor|]. rewrite (redir_of_sym c m) by done.
  by constructor.
Qed.

Lemma parseargs_sound k : forall n s, inside s ->
  spec false (parseargs k n) s (fun x l => exists ts ws srs,
    lex s = ts ++ l /\ g_args ts ws srs /\ Forall2 word_at ws x.1 /\ Forall2 redir_at srs x.2 /\ (ws = [] \/ n + length ws < MAXARGS)%nat).
Proof.
  induction k as [|k IH]; intros n s Hs; [done|]. cbn [parseargs].
  assert (forall s1, inside s1 -> lex s1 = lex s -> spec false (mret ([], [])) s1 (fun (x : list slice * list redir) l => exists ts ws srs,
    lex s = ts ++ l /\ g_args ts ws srs /\ Forall2 word_at ws x.1 /\ Forall2 redir_at srs x.2 /\ (ws = [] \/ n + length ws < MAXARGS)%nat)) as Hnil.
  { intros s1 Hs1 E. apply spec_ret; [done|]. exists [], [], []. rewrite E. split; [done|]. split; [constructor|].
    split; [constructor|]. split; [constructor|by left]. }
  apply spec_peek; [syms|done|]. intros s1 Hs1 E1. destruct (starts (lit "|)&;") (lex s)); [by apply Hnil|].
  apply spec_get; [done| |].
  { intros E. cbn. apply Hnil; [apply suffix_nil|]. by rewrite <- E1, E. }
  intros t ts a s2 E2 Hs2 E3 Hc Ht. rewrite E1 in E2. cbn [fst snd].
  rewrite (proj2 (Z.eqb_neq (code t) 0)) by done. destruct t as [w|c].
  2: { cbn [code]. rewrite (proj2 (Z.eqb_neq c 97)) by done. apply spec_panic. }
  cbn [code]. cbn [Z.eqb Pos.eqb negb]. destruct (Nat.leb_spec MAXARGS (S n)); [apply spec_panic|].
  eapply spec_bind; [by apply parseredirs_sound|]. intros rs s3 Hs3 (rts & srs & E4 & Hg & Hf).
  eapply spec_bind; [by apply IH|]. intros [argv rs'] s4 Hs4 (ts' & ws & srs' & E5 & Hg' & Hw & Hf' & Hlen).
  apply spec_ret; [done|]. exists (TWord w :: rts ++ ts'), (w :: ws), (srs ++ srs').
  rewrite E2, <- E3, E4, E5. split; [cbn; by rewrite <- app_assoc|]. split; [by constructor|].
  split; [by constructor|]. split; [by apply Forall2_app|]. right. destruct Hlen as [->|]; cbn in *; lia.
Qed.

(** A single symbol other than [>]. *)
Lemma starts_one c ts : c <> 0 -> c <> 62 -> starts [c] ts = true -> exists ts', ts = TSym c :: ts'.
Proof.
  intros H0 H62. destruct ts as [|[w|d] ts]; cbn [starts]; try done. intros Hc.
  assert (first_char d <> 0) as Hd by (intros E; by rewrite E, in_str_nul in Hc).
  rewrite in_str_mem, bool_decide_eq_true, list_elem_of_singleton in Hc; [|intros E%list_elem_of_singleton; lia|done].
  exists ts. unfold first_char in Hc. destruct (Z.eqb_spec d 43); [lia|by subst].
Qed.

(** Read the token that [peek] has seen. *)
Lemma spec_get_sym {B} b c (f : Z * slice -> parser B) s ts Q :
  inside s -> lex s = TSym c :: ts ->
  (forall a s', inside s' -> lex s' = ts -> spec b (f (c, a)) s' Q) -> spec b (gettoken ≫= f) s Q.
Proof.
  intros Hs E H. apply spec_get; [done|congruence|]. intros t ts' a s' E' Hs' El _ _. rewrite E in E'. simplify_eq.
  by apply H.
Qed.

Lemma parseback_sound k : forall s c sc, inside s -> denotes c sc ->
  spec false (parseback k c) s (fun c' l => exists n, lex s = replicate n (TSym 38) ++ l /\ denotes c' (sback n sc)).
Proof.
  induction k as [|k IH]; intros s c sc Hs Hc; [done|]. cbn [parseback].
  apply spec_peek; [syms|done|]. intros s1 Hs1 E1. destruct (starts (lit "&") (lex s)) eqn:Est.
  - apply (starts_one 38) in Est as [ts E]; [|done..]. rewrite E in E1.
    eapply spec_get_sym; [done..|]. intros a s2 Hs2 E2.
    eapply spec_weaken; [by apply (IH s2 (BackCmd c) (SBack sc)); [|constructor]|].
    intros c' l (n & En & Hd). exists (S n). rewrite E, <- E2, En. split; [done|].
    unfold sback in *. by rewrite Nat.iter_succ_r.
  - apply spec_ret; [done|]. exists 0%nat. by rewrite E1.
Qed.

Definition line_sound (k : nat) : Prop := forall s, inside s ->
  spec false (parseline k) s (fun c l => exists ts sc, lex s = ts ++ l /\ g_line ts sc /\ denotes c sc).
Definition pipe_sound (k : nat) : Prop := forall s, inside s ->
  spec false (parsepipe k) s (fun c l => exists ts sc, lex s = ts ++ l /\ g_pipe ts sc /\ denotes c sc).
Definition exec_sound (k : nat) : Prop := forall s, inside s ->
  spec false (parseexec k) s (fun c l => exists ts sc, lex s = ts ++ l /\ g_exec ts sc /\ denotes c sc).
Definition block_sound (k : nat) : Prop := forall s, inside s ->
  spec false (parseblock k) s (fun c l => exists ts sc, lex s = ts ++ l /\ g_exec ts sc /\ denotes c sc).

Lemma line_step k : pipe_sound k -> line_sound k -> line_sound (S k).
Proof.
  intros Hp Hl s Hs. cbn [parseline]. eapply spec_bind; [by apply Hp|]. intros c s1 Hs1 (ts & sc & E1 & Hg & Hd).
  eapply spec_bind; [by apply parseback_sound|]. intros c1 s2 Hs2 (n & E2 & Hd1).
  apply spec_peek; [syms|done|]. intros s3 Hs3 E3. destruct (starts (lit ";") (lex s2)) eqn:Est.
  - apply (starts_one 59) in Est as [ts1 E]; [|done..]. rewrite E in E3.
    eapply spec_get_sym; [done..|]. intros a s4 Hs4 E4.
    eapply spec_bind; [by apply Hl|]. intros r s5 Hs5 (ts2 & sr & E5 & Hg2 & Hd2).
    apply spec_ret; [done|]. exists (ts ++ replicate n (TSym 38) ++ TSym 59 :: ts2), (SList (sback n sc) sr).
    rewrite E1, E2, E, <- E4, E5, <- !app_assoc. cbn. split; [done|]. split; by constructor.
  - apply spec_ret; [done|]. exists (ts ++ replicate n (TSym 38)), (sback n sc).
    rewrite E1, E2, E3, <- app_assoc. split; [done|]. split; [by constructor|done].
Qed.

Lemma pipe_step k : exec_sound k -> pipe_sound k -> pipe_sound (S k).
Proof.
  intros He Hp s Hs. cbn [parsepipe]. eapply spec_bind; [by apply He|]. intros c s1 Hs1 (ts & sc & E1 & Hg & Hd).
  apply spec_peek; [syms|done|]. intros s3 Hs3 E3. destruct (starts (lit "|") (lex s1)) eqn:Est.
  - apply (starts_one 124) in Est as [ts1 E]; [|done..]. rewrite E in E3.
    eapply spec_get_sym; [done..|]. intros a s4 Hs4 E4.
    eapply spec_bind; [by apply Hp|]. intros r s5 Hs5 (ts2 & sr & E5 & Hg2 & Hd2).
    apply spec_ret; [done|]. exists (ts ++ TSym 124 :: ts2), (SPipe sc sr).
    rewrite E1, E, <- E4, E5, <- !app_assoc. cbn. split; [done|]. split; by constructor.
  - apply spec_ret; [done|]. exists ts, sc. rewrite E1, E3. split; [done|]. split; [by constructor|done].
Qed.

Lemma exec_step k : block_sound k -> exec_sound (S k).
Proof.
  intros Hb s Hs. cbn [parseexec]. apply spec_peek; [syms|done|]. intros s1 Hs1 E1.
  destruct (starts (lit "(") (lex s)); [rewrite <- E1; by apply Hb|].
  eapply spec_bind; [by apply parseredirs_sound|]. intros rs s2 Hs2 (rts & srs & E2 & Hg & Hf).
  eapply spec_bind; [by apply parseargs_sound|]. intros [argv rs'] s3 Hs3 (ts & ws & srs' & E3 & Hg' & Hw & Hf' & Hlen).
  apply spec_ret; [done|]. exists (rts ++ ts), (swrap (SExec ws) (srs ++ srs')).
  rewrite <- E1, E2, E3, <- app_assoc. split; [done|]. split.
  - constructor; [done|done|]. destruct Hlen as [->|]; cbn; [unfold MAXARGS; lia|lia].
  - apply denotes_wrap; [by apply Forall2_app|by constructor].
Qed.

Lemma block_step k : line_sound k -> block_sound (S k).
Proof.
  intros Hl s Hs. cbn [parseblock]. apply spec_peek; [syms|done|]. intros s1 Hs1 E1.
  destruct (starts (lit "(") (lex s)) eqn:Est; [|apply spec_panic]. cbn [negb].
  apply (starts_one 40) in Est as [ts E]; [|done..]. rewrite E in E1. eapply spec_get_sym; [done..|]. intros a s2 Hs2 E2.
  eapply spec_bind; [by apply Hl|]. intros c s3 Hs3 (ts1 & sc & E3 & Hg & Hd).
  apply spec_peek; [syms|done|]. intros s4 Hs4 E4. destruct (starts (lit ")") (lex s3)) eqn:Est; [|apply spec_panic]. cbn [negb].
  apply (starts_one 41) in Est as [ts2 E5]; [|done..]. rewrite E5 in E4. eapply spec_get_sym; [done..|]. intros a1 s5 Hs5 E6.
  eapply spec_bind; [by apply parseredirs_sound|]. intros rs s6 Hs6 (rts & srs & E7 & Hg' & Hf).
  apply spec_ret; [done|]. exists (TSym 40 :: ts1 ++ TSym 41 :: rts), (swrap sc srs).
  rewrite E, <- E2, E3, E5, <- E6, E7. split; [cbn; rewrite <- app_assoc; done|].
  split; [by constructor|]. by apply denotes_wrap.
Qed.

Lemma parse_sound k : line_sound k /\ pipe_sound k /\ exec_sound k /\ block_sound k.
Proof.
  induction k as [|k (H1 & H2 & H3 & H4)]; [by repeat split|].
  split; [by apply line_step|]. split; [by apply pipe_step|]. split; [by apply exec_step|by apply block_step].
Qed.

(** ** Completeness *)

(** What can follow: nothing, or one of some symbols. *)
Definition follow (toks : list Z) (rest : list tok) : Prop :=
  rest = [] \/ exists c ts, rest = TSym c :: ts /\ c ∈ toks.

Lemma follow_starts toks X rest :
  follow toks rest -> Forall (fun c => in_str X (first_char c) = false) toks -> starts X rest = false.
Proof. intros [->|(c & ts & -> & Hc)] Hf; [done|]. cbn. by eapply Forall_forall in Hf. Qed.

Lemma follow_weaken toks toks' rest : follow toks rest -> toks ⊆ toks' -> follow toks' rest.
Proof. intros [->|(c & ts & -> & Hc)] Hs; [by left|right]. exists c, ts. split; [done|]. by apply Hs. Qed.

Ltac no_start := eapply follow_starts; [eassumption|repeat constructor].

Lemma redir_sym_first c m : redir_sym c = Some m -> in_str (lit "<>") (first_char c) = true /\ in_str (lit "(") (first_char c) = false.
Proof.
  unfold redir_sym. destruct (Z.eqb_spec c 60) as [->|]; [done|]. destruct (Z.eqb_spec c 62) as [->|]; [done|].
  by destruct (Z.eqb_spec c 43) as [->|].
Qed.

Lemma parseredirs_complete ts srs : g_redirs ts srs -> forall k s rest, inside s -> lex s = ts ++ rest ->
  starts (lit "<>") rest = false ->
  spec true (parseredirs k) s (fun rs l => l = rest /\ Forall2 redir_at srs rs).
Proof.
  induction 1 as [|c w m ts srs Hm _ IH]; intros k s rest Hs E Hr; (destruct k as [|k]; [done|]); cbn [parseredirs];
    (apply spec_peek; [syms|done|]; intros s1 Hs1 E1; rewrite E in *; cbn [app] in *).
  - rewrite Hr. apply spec_ret; [done|]. rewrite E1. split; [done|constructor].
  - cbn [starts]. destruct (redir_sym_first c m Hm) as [-> _]. eapply spec_get_sym; [done..|]. intros a s2 Hs2 E2.
    apply spec_get; [done|by rewrite E2|]. intros t ts1 a1 s3 E3 Hs3 E4 Hc Ht. rewrite E2 in E3. simplify_eq.
    cbn [fst snd code Z.eqb Pos.eqb negb]. eapply spec_bind; [by apply (IH k s3 rest)|]. intros rs s4 Hs4 [E5 Hf].
    apply spec_ret; [done|]. split; [done|]. rewrite (redir_of_sym c m) by done. by constructor.
Qed.

Definition stop : list Z := [124; 41; 38; 59].

Lemma args_follow ts ws srs rest : g_args ts ws srs -> follow stop rest -> forall X,
  Forall (fun c => in_str X (first_char c) = false) stop -> starts X (ts ++ rest) = false.
Proof. intros [|w rts rs ts' ws' rs' _ _] Hf X HX; [by eapply follow_starts|done]. Qed.

Lemma parseargs_complete ts ws srs : g_args ts ws srs -> forall k n s rest, inside s -> lex s = ts ++ rest ->
  follow stop rest -> (ws = [] \/ n + length ws < MAXARGS)%nat ->
  spec true (parseargs k n) s (fun x l => l = rest /\ Forall2 word_at ws x.1 /\ Forall2 redir_at srs x.2).
Proof.
  induction 1 as [|w rts rs ts ws rs' Hg Hg' IH]; intros k n s rest Hs E Hr Hn; (destruct k as [|k]; [done|]); cbn [parseargs];
    (apply spec_peek; [syms|done|]; intros s1 Hs1 E1; rewrite E in *; cbn [app] in *).
  - destruct Hr as [->|(c & ts & -> & Hc)].
    + cbn [starts]. apply spec_get; [done| |by rewrite E1]. intros _. split; [apply suffix_nil|]. by repeat split.
    + assert (starts (lit "|)&;") (TSym c :: ts) = true) as ->.
      { unfold stop in Hc. rewrite !elem_of_cons, elem_of_nil in Hc. by destruct Hc as [->|[->|[->|[->|[]]]]]. }
      apply spec_ret; [done|]. rewrite E1. by repeat split.
  - cbn [starts]. apply spec_get; [done|by rewrite E1|]. intros t ts1 a s2 E2 Hs2 E3 Hc Ht. rewrite E1 in E2. injection E2 as <- <-.
    cbn [fst snd code Z.eqb Pos.eqb negb]. destruct Hn as [|Hn]; [done|]. cbn [length] in Hn.
    rewrite (proj2 (Nat.leb_gt MAXARGS (S n))) by lia.
    eapply spec_bind; [eapply (parseredirs_complete _ _ Hg k s2 (ts ++ rest)); [done|by rewrite E3, <- app_assoc|]|].
    { apply (args_follow ts ws rs' rest); [done|done|repeat constructor]. }
    intros rs1 s3 Hs3 [E4 Hf]. eapply spec_bind; [apply (IH k (S n) s3 rest); [done..|]|].
    { destruct ws; [by left|right; cbn in *; lia]. }
    intros [argv rs2] s4 Hs4 (E5 & Hw & Hf2). cbn [fst snd] in *. apply spec_ret; [done|].
    split; [done|]. split; [by constructor|by apply Forall2_app].
Qed.

Lemma parseback_complete n : forall k c sc s rest, inside s -> denotes c sc -> lex s = replicate n (TSym 38) ++ rest ->
  starts (lit "&") rest = false -> spec true (parseback k c) s (fun c' l => l = rest /\ denotes c' (sback n sc)).
Proof.
  induction n as [|n IH]; intros k c sc s rest Hs Hd E Hr; (destruct k as [|k]; [done|]); cbn [parseback];
    (apply spec_peek; [syms|done|]; intros s1 Hs1 E1; rewrite E in *; cbn [app replicate] in *).
  - rewrite Hr. apply spec_ret; [done|]. by rewrite E1.
  - change (starts (lit "&") (TSym 38 :: _)) with true. eapply spec_get_sym; [done..|]. intros a s2 Hs2 E2.
    unfold sback. rewrite Nat.iter_succ_r. apply (IH k (BackCmd c) (SBack sc) s2 rest); [done|by constructor|done|done].
Qed.

Definition line_complete (ts : list tok) (sc : scmd) : Prop := forall k s rest, inside s -> lex s = ts ++ rest ->
  follow [41] rest -> spec true (parseline k) s (fun c l => l = rest /\ denotes c sc).
Definition pipe_complete (ts : list tok) (sc : scmd) : Prop := forall k s rest, inside s -> lex s = ts ++ rest ->
  follow [41; 38; 59] rest -> spec true (parsepipe k) s (fun c l => l = rest /\ denotes c sc).
Definition exec_complete (ts : list tok) (sc : scmd) : Prop := forall k s rest, inside s -> lex s = ts ++ rest ->
  follow stop rest -> spec true (parseexec k) s (fun c l => l = rest /\ denotes c sc).

Lemma exec_args_complete rts rs ts ws rs' : g_redirs rts rs -> g_args ts ws rs' -> (length ws < MAXARGS)%nat ->
  exec_complete (rts ++ ts) (swrap (SExec ws) (rs ++ rs')).
Proof.
  intros Hg Hg' Hlen k s rest Hs E Hr. destruct k as [|k]; [done|]. cbn [parseexec].
  apply spec_peek; [syms|done|]. intros s1 Hs1 E1. rewrite E, <- app_assoc in *.
  assert (starts (lit "(") (rts ++ ts ++ rest) = false) as ->.
  { destruct Hg as [|c w m rts rs Hm _]; [apply (args_follow ts ws rs' rest); [done|done|repeat constructor]|].
    cbn [starts app]. by apply redir_sym_first in Hm as [_ ->]. }
  eapply spec_bind; [eapply (parseredirs_complete _ _ Hg k s1 (ts ++ rest)); [done..|]|].
  { apply (args_follow ts ws rs' rest); [done|done|repeat constructor]. }
  intros rs1 s2 Hs2 [E2 Hf]. eapply spec_bind; [apply (parseargs_complete _ _ _ Hg' k 0 s2 rest); [done..|by right]|].
  intros [argv rs2] s3 Hs3 (E3 & Hw & Hf2). apply spec_ret; [done|]. split; [done|].
  apply denotes_wrap; [by apply Forall2_app|by constructor].
Qed.

Lemma exec_block_complete ts c rts rs : line_complete ts c -> g_redirs rts rs ->
  exec_complete (TSym 40 :: ts ++ TSym 41 :: rts) (swrap c rs).
Proof.
  intros Hl Hg k s rest Hs E Hr. destruct k as [|k]; [done|]. cbn [parseexec].
  apply spec_peek; [syms|done|]. intros s1 Hs1 E1. rewrite E in *. cbn [app] in *. rewrite <- app_assoc in *. cbn [app] in *.
  change (starts (lit "(") (TSym 40 :: _)) with true. destruct k as [|k]; [done|]. cbn [parseblock].
  apply spec_peek; [syms|done|]. intros s2 Hs2 E2. rewrite E1 in *. change (starts (lit "(") (TSym 40 :: _)) with true. cbn [negb].
  eapply spec_get_sym; [done..|]. intros a s3 Hs3 E3.
  eapply spec_bind; [apply (Hl k s3 (TSym 41 :: rts ++ rest)); [done|done|right; eexists _, _; split; [done|left]]|].
  intros c1 s4 Hs4 [E4 Hd]. apply spec_peek; [syms|done|]. intros s5 Hs5 E5. rewrite E4 in *.
  change (starts (lit ")") (TSym 41 :: _)) with true. cbn [negb]. eapply spec_get_sym; [done..|]. intros a1 s6 Hs6 E6.
  eapply spec_bind; [apply (parseredirs_complete _ _ Hg k s6 rest); [done|done|no_start]|].
  intros rs1 s7 Hs7 [E7 Hf]. apply spec_ret; [done|]. split; [done|]. by apply denotes_wrap.
Qed.

Lemma pipe_cons_complete ts c ts' c' : exec_complete ts c -> pipe_complete ts' c' -> pipe_complete (ts ++ TSym 124 :: ts') (SPipe c c').
Proof.
  intros He Hp k s rest Hs E Hr. destruct k as [|k]; [done|]. cbn [parsepipe]. rewrite <- app_assoc in E. cbn [app] in E.
  eapply spec_bind; [apply (He k s _ Hs E); right; eexists _, _; split; [done|left]|]. intros c1 s1 Hs1 [E1 Hd].
  apply spec_peek; [syms|done|]. intros s2 Hs2 E2. rewrite E1 in *. change (starts (lit "|") (TSym 124 :: _)) with true.
  eapply spec_get_sym; [done..|]. intros a s3 Hs3 E3. eapply spec_bind; [by apply (Hp k s3 rest)|].
  intros r s4 Hs4 [E4 Hd2]. apply spec_ret; [done|]. split; [done|by constructor].
Qed.

Lemma pipe_last_complete ts c : exec_complete ts c -> pipe_complete ts c.
Proof.
  intros He k s rest Hs E Hr. destruct k as [|k]; [done|]. cbn [parsepipe].
  eapply spec_bind; [apply (He k s _ Hs E); eapply follow_weaken; [done|set_solver]|]. intros c1 s1 Hs1 [E1 Hd].
  apply spec_peek; [syms|done|]. intros s2 Hs2 E2. rewrite E1 in *.
  assert (starts (lit "|") rest = false) as -> by no_start. apply spec_ret; [done|]. by rewrite E2.
Qed.

(** The pipeline of a line, and the [&]s after it. *)
Lemma line_head_complete ts c n k s rest : pipe_complete ts c -> inside s -> lex s = ts ++ replicate n (TSym 38) ++ rest ->
  follow [41; 59] rest ->
  spec true (c ← parsepipe k; parseback k c) s (fun c' l => l = rest /\ denotes c' (sback n c)).
Proof.
  intros Hp Hs E Hr. eapply spec_bind; [apply (Hp k s _ Hs E)|].
  - destruct n as [|n]; [eapply follow_weaken; [done|set_solver]|right]. eexists _, _. split; [done|right; left].
  - intros c1 s1 Hs1 [E1 Hd]. apply (parseback_complete n k c1 c s1 rest); [done|done|done|no_start].
Qed.

Lemma line_unfold k s : parseline (S k) s =
  (c ← (c ← parsepipe k; parseback k c);
   b ← peek (lit ";");
   if b : bool then _ ← gettoken; r ← parseline k; mret (ListCmd c r) else mret c) s.
Proof. cbn [parseline]. unfold mbind, parser_bind. by destruct (parsepipe k s). Qed.

Lemma line_last_complete ts c n : pipe_complete ts c -> line_complete (ts ++ replicate n (TSym 38)) (sback n c).
Proof.
  intros Hp k s rest Hs E Hr. destruct k as [|k]; [done|]. eapply spec_ext; [apply line_unfold|]. rewrite <- app_assoc in E.
  eapply spec_bind; [apply (line_head_complete ts c n k s rest); [done..|eapply follow_weaken; [done|set_solver]]|].
  intros c1 s1 Hs1 [E1 Hd]. apply spec_peek; [syms|done|]. intros s2 Hs2 E2. rewrite E1 in *.
  assert (starts (lit ";") rest = false) as -> by no_start. apply spec_ret; [done|]. by rewrite E2.
Qed.

Lemma line_list_complete ts c n ts' c' : pipe_complete ts c -> line_complete ts' c' ->
  line_complete (ts ++ replicate n (TSym 38) ++ TSym 59 :: ts') (SList (sback n c) c').
Proof.
  intros Hp Hl k s rest Hs E Hr. destruct k as [|k]; [done|]. eapply spec_ext; [apply line_unfold|]. rewrite <- !app_assoc in E. cbn [app] in E.
  eapply spec_bind; [apply (line_head_complete ts c n k s _ Hp Hs E); right; eexists _, _; split; [done|right; left]|].
  intros c1 s1 Hs1 [E1 Hd]. apply spec_peek; [syms|done|]. intros s2 Hs2 E2. rewrite E1 in *.
  change (starts (lit ";") (TSym 59 :: _)) with true. eapply spec_get_sym; [done..|]. intros a s3 Hs3 E3.
  eapply spec_bind; [by apply (Hl k s3 rest)|]. intros r s4 Hs4 [E4 Hd2]. apply spec_ret; [done|].
  split; [done|by constructor].
Qed.

Lemma parse_complete :
  (forall ts sc, g_line ts sc -> line_complete ts sc) /\
  (forall ts sc, g_pipe ts sc -> pipe_complete ts sc) /\
  (forall ts sc, g_exec ts sc -> exec_complete ts sc).
Proof.
  apply grammar_ind.
  - intros. by apply line_last_complete.
  - intros. by apply line_list_complete.
  - intros. by apply pipe_last_complete.
  - intros. by apply pipe_cons_complete.
  - intros. by apply exec_args_complete.
  - intros. by apply exec_block_complete.
Qed.
End Line.
