(* ===== verification/ShLine.v ===== *)
(** * The shell's command lines

    The parser ends on every line, and the strings that [nulterminate] leaves in the line
    are the words of the command; with the grammar of [ShParse] this says what [parsecmd]
    returns. *)

From stdpp Require Import gmap strings list.
From S2P Require Import Prelude Layout User Ulib Uprintf Sh ShParse.

Section Line.
Variable s0 : list Z.
Hypothesis s0_string : 0 ∉ s0.

(** ** The parser ends *)

(** It does not run out of fuel, and leaves at most [L] characters. *)
Definition ends {A} (m : parser A) (s : list Z) (L : nat) : Prop :=
  match m s with
  | POk _ s' => inside s0 s' /\ (length s' <= L)%nat
  | PPanic _ => True
  | PFuel => False
  end.

Lemma ends_bind {A B} (m : parser A) (f : A -> parser B) s L L' :
  ends m s L -> (forall a s', inside s0 s' -> (length s' <= L)%nat -> ends (f a) s' L') -> ends (m ≫= f) s L'.
Proof. unfold ends, mbind, parser_bind. destruct (m s) as [a s'| |]; [|done..]. intros [Hi Hl] Hf. by apply Hf. Qed.

Lemma ends_le {A} (m : parser A) s L L' : ends m s L -> (L <= L')%nat -> ends m s L'.
Proof. unfold ends. destruct (m s); [|done..]. intros [? ?] ?. split; [done|lia]. Qed.

Lemma ends_ret {A} (a : A) s L : inside s0 s -> (length s <= L)%nat -> ends (mret a) s L.
Proof. by split. Qed.

Lemma ends_panic {A} msg s L : ends (A := A) (ppanic msg) s L.
Proof. done. Qed.

Lemma ends_peek {B} toks (f : bool -> parser B) s L :
  all_symbols toks -> inside s0 s ->
  (forall b s', inside s0 s' -> (length s' <= length s)%nat -> (b = true -> lex s' <> []) -> ends (f b) s' L) ->
  ends (peek toks ≫= f) s L.
Proof.
  intros Ht Hs H. destruct (peek_spec s0 s0_string toks s Ht Hs) as (E & Hl & Hi).
  unfold ends, mbind, parser_bind in *. rewrite E. apply H; [done|apply suffix_length, skip_ws_suffix|].
  rewrite Hl. by destruct (lex s).
Qed.

Lemma ends_get {B} (f : Z * slice -> parser B) s L :
  inside s0 s ->
  (forall x s', inside s0 s' -> (length s' <= length s)%nat -> (lex s <> [] \/ x.1 <> 0 -> (length s' < length s)%nat) -> ends (f x) s' L) ->
  ends (gettoken ≫= f) s L.
Proof.
  intros Hs H. unfold ends, mbind, parser_bind in *. destruct (lex s) as [|t ts] eqn:E.
  - rewrite (gettoken_end s0) by done. apply H; [apply suffix_nil|cbn; lia|]. intros [?|?]; done.
  - destruct (gettoken_tok s0 s0_string s t ts Hs E) as (a & s' & Eg & _ & Hi & Hlen & _). rewrite Eg. apply H; [done|lia|done].
Qed.

Ltac syms := by apply all_symbols_dec; apply (bool_decide_unpack _).

Lemma parseredirs_ends k : forall s, inside s0 s -> (length s < k)%nat -> ends (parseredirs k) s (length s).
Proof.
  induction k as [|k IH]; intros s Hs Hk; [lia|]. cbn [parseredirs].
  apply ends_peek; [syms|done|]. intros [] s1 Hs1 Hl1 Hb; [|by apply ends_ret].
  apply ends_get; [done|]. intros t s2 Hs2 Hl2 Hlt. specialize (Hlt (or_introl (Hb eq_refl))).
  apply ends_get; [done|]. intros f s3 Hs3 Hl3 _. destruct (negb _); [apply ends_panic|].
  eapply ends_bind; [apply IH; [done|lia]|]. intros rs s4 Hs4 Hl4. apply ends_ret; [done|lia].
Qed.

Lemma parseargs_ends k : forall n s, inside s0 s -> (length s < k)%nat -> ends (parseargs k n) s (length s).
Proof.
  induction k as [|k IH]; intros n s Hs Hk; [lia|]. cbn [parseargs].
  apply ends_peek; [syms|done|]. intros [] s1 Hs1 Hl1 _; [by apply ends_ret|].
  apply ends_get; [done|]. intros t s2 Hs2 Hl2 Hlt. destruct (Z.eqb_spec t.1 0); [apply ends_ret; [done|lia]|].
  specialize (Hlt (or_intror n0)). destruct (negb _); [apply ends_panic|]. destruct (_ <=? _)%nat; [apply ends_panic|].
  eapply ends_bind; [apply parseredirs_ends; [done|lia]|]. intros rs s3 Hs3 Hl3.
  eapply ends_bind; [apply IH; [done|lia]|]. intros x s4 Hs4 Hl4. apply ends_ret; [done|lia].
Qed.

Lemma parseback_ends k : forall c s, inside s0 s -> (length s < k)%nat -> ends (parseback k c) s (length s).
Proof.
  induction k as [|k IH]; intros c s Hs Hk; [lia|]. cbn [parseback].
  apply ends_peek; [syms|done|]. intros [] s1 Hs1 Hl1 Hb; [|by apply ends_ret].
  apply ends_get; [done|]. intros t s2 Hs2 Hl2 Hlt. specialize (Hlt (or_introl (Hb eq_refl))).
  eapply ends_le; [apply IH; [done|lia]|lia].
Qed.

Definition line_ends (k : nat) : Prop := forall s, inside s0 s -> (4 * length s + 4 <= k)%nat -> ends (parseline k) s (length s).
Definition pipe_ends (k : nat) : Prop := forall s, inside s0 s -> (4 * length s + 3 <= k)%nat -> ends (parsepipe k) s (length s).
Definition exec_ends (k : nat) : Prop := forall s, inside s0 s -> (4 * length s + 2 <= k)%nat -> ends (parseexec k) s (length s).
Definition block_ends (k : nat) : Prop := forall s, inside s0 s -> (4 * length s + 1 <= k)%nat -> ends (parseblock k) s (length s).

Lemma parse_ends k : line_ends k /\ pipe_ends k /\ exec_ends k /\ block_ends k.
Proof.
  induction k as [|k (H1 & H2 & H3 & H4)]; [repeat split; intros s _ Hk; lia|].
  split; [|split; [|split]]; intros s Hs Hk.
  - cbn [parseline]. eapply ends_bind; [apply H2; [done|lia]|]. intros c s1 Hs1 Hl1.
    eapply ends_bind; [apply parseback_ends; [done|lia]|]. intros c1 s2 Hs2 Hl2.
    apply ends_peek; [syms|done|]. intros [] s3 Hs3 Hl3 Hb; [|apply ends_ret; [done|lia]].
    apply ends_get; [done|]. intros t s4 Hs4 Hl4 Hlt. specialize (Hlt (or_introl (Hb eq_refl))).
    eapply ends_bind; [apply H1; [done|lia]|]. intros r s5 Hs5 Hl5. apply ends_ret; [done|lia].
  - cbn [parsepipe]. eapply ends_bind; [apply H3; [done|lia]|]. intros c s1 Hs1 Hl1.
    apply ends_peek; [syms|done|]. intros [] s3 Hs3 Hl3 Hb; [|apply ends_ret; [done|lia]].
    apply ends_get; [done|]. intros t s4 Hs4 Hl4 Hlt. specialize (Hlt (or_introl (Hb eq_refl))).
    eapply ends_bind; [apply H2; [done|lia]|]. intros r s5 Hs5 Hl5. apply ends_ret; [done|lia].
  - cbn [parseexec]. apply ends_peek; [syms|done|]. intros [] s1 Hs1 Hl1 Hb; [eapply ends_le; [apply H4; [done|lia]|lia]|].
    eapply ends_bind; [apply parseredirs_ends; [done|lia]|]. intros rs s2 Hs2 Hl2.
    eapply ends_bind; [apply parseargs_ends; [done|lia]|]. intros x s3 Hs3 Hl3. apply ends_ret; [done|lia].
  - cbn [parseblock]. apply ends_peek; [syms|done|]. intros [] s1 Hs1 Hl1 Hb; [|apply ends_panic]. cbn [negb].
    apply ends_get; [done|]. intros t s2 Hs2 Hl2 Hlt. specialize (Hlt (or_introl (Hb eq_refl))).
    eapply ends_bind; [apply H1; [done|lia]|]. intros c s3 Hs3 Hl3.
    apply ends_peek; [syms|done|]. intros [] s4 Hs4 Hl4 _; [|apply ends_panic]. cbn [negb].
    apply ends_get; [done|]. intros t1 s5 Hs5 Hl5 _.
    eapply ends_bind; [apply parseredirs_ends; [done|lia]|]. intros rs s6 Hs6 Hl6. apply ends_ret; [done|lia].
Qed.

(** ** The strings of the line *)

Definition pos (e : list Z) : nat := length s0 - length e.

(** [B] is the line with some of the characters after words replaced by NULs. *)
Definition cut (B : list Z) : Prop :=
  length B = S (length s0) /\
  forall i x, (s0 ++ [0]) !! i = Some x -> B !! i = Some x \/ B !! i = Some 0 /\ (delim x = true \/ x = 0).

Definition zero_at (B : list Z) (e : list Z) : Prop := B !! pos e = Some 0.

Lemma cut_line : cut (s0 ++ [0]).
Proof. split; [rewrite length_app; cbn; lia|]. intros i x ->. by left. Qed.

Lemma inside_lookup e i : inside s0 e -> (s0 ++ [0]) !! (pos e + i)%nat = (e ++ [0]) !! i.
Proof.
  intros [x Hx]. unfold pos. rewrite Hx, length_app, <- app_assoc. replace (length x + length e - length e)%nat with (length x) by lia.
  rewrite lookup_app_r by lia. f_equal. lia.
Qed.

Lemma terminate_cut B e : cut B -> inside s0 e -> (forall x e', e = x :: e' -> delim x = true) ->
  cut (terminate B e) /\ zero_at (terminate B e) e /\ (forall e', zero_at B e' -> zero_at (terminate B e) e').
Proof.
  intros [Hl Hc] He Hd. unfold terminate. rewrite Hl. cbn [Nat.sub]. rewrite Nat.sub_0_r. fold (pos e).
  assert (pos e < length B)%nat as Hp by (unfold pos; lia).
  split; [|split].
  - split; [by rewrite length_insert|]. intros i x Hx. destruct (decide (i = pos e)) as [->|Hne].
    + right. rewrite list_lookup_insert_eq by done. split; [done|]. pose proof (inside_lookup e 0 He) as Hi.
      rewrite Nat.add_0_r, Hx in Hi. destruct e as [|y e]; cbn in Hi; simplify_eq; [by right|left; by eapply Hd].
    + rewrite list_lookup_insert_ne by done. by apply Hc.
  - unfold zero_at. by rewrite list_lookup_insert_eq.
  - intros e' He'. unfold zero_at in *. destruct (decide (pos e = pos e')) as [Heq|Hne]; [by rewrite <- Heq, list_lookup_insert_eq|].
    by rewrite list_lookup_insert_ne.
Qed.

Fixpoint ended (B : list Z) (c : cmd) : Prop :=
  match c with
  | ExecCmd argv => Forall (fun a : slice => zero_at B a.2) argv
  | RedirCmd c r => ended B c /\ zero_at B (r_file r).2
  | PipeCmd l r | ListCmd l r => ended B l /\ ended B r
  | BackCmd c => ended B c
  end.

Lemma ended_mono B B' c : (forall e, zero_at B e -> zero_at B' e) -> ended B c -> ended B' c.
Proof.
  intros Hz. induction c as [argv|c IH r|l IHl r IHr|l IHl r IHr|c IH]; cbn; try tauto.
  - intros Hf. eapply Forall_impl; [exact Hf|]. intros a. apply Hz.
  - intros [? ?]. split; [auto|by apply Hz].
Qed.

Lemma word_end w a : word_at s0 w a -> inside s0 a.2.
Proof. intros (E & _ & _ & _ & [x Hi]). exists (x ++ w). by rewrite <- app_assoc, <- E. Qed.

Definition cuts (B B' : list Z) : Prop := cut B' /\ forall e, zero_at B e -> zero_at B' e.

Lemma argv_cut argv : forall B ws, Forall2 (word_at s0) ws argv -> cut B ->
  let B' := foldl (fun b (a : slice) => terminate b a.2) B argv in
  cuts B B' /\ Forall (fun a : slice => zero_at B' a.2) argv.
Proof.
  induction argv as [|a argv IH]; intros B ws Hw Hc; cbn; [split; [by split|constructor]|].
  apply Forall2_cons_inv_r in Hw as (w & ws' & Hwa & Hws & ->). pose proof (word_end w a Hwa) as He.
  destruct (terminate_cut B a.2 Hc He) as (Hc1 & Hz1 & Hm1); [apply Hwa|].
  destruct (IH _ _ Hws Hc1) as ([Hc2 Hm2] & Hf). split; [split; [done|auto]|]. constructor; auto.
Qed.

Lemma nulterminate_cut c sc : denotes s0 c sc -> forall B, cut B ->
  cuts B (nulterminate c B) /\ ended (nulterminate c B) c.
Proof.
  assert (forall l r B, (forall B, cut B -> cuts B (nulterminate l B) /\ ended (nulterminate l B) l) ->
    (forall B, cut B -> cuts B (nulterminate r B) /\ ended (nulterminate r B) r) -> cut B ->
    cuts B (nulterminate r (nulterminate l B)) /\ ended (nulterminate r (nulterminate l B)) l /\
    ended (nulterminate r (nulterminate l B)) r) as Hpair.
  { intros l r B Hl Hr Hc. destruct (Hl B Hc) as ([Hc1 Hm1] & He1). destruct (Hr _ Hc1) as ([Hc2 Hm2] & He2).
    split; [split; [done|auto]|]. split; [by eapply ended_mono|done]. }
  induction 1 as [ws argv Hw|c sc w r _ IH Hw|l r sl sr _ IHl _ IHr|l r sl sr _ IHl _ IHr|c sc _ IH]; intros B Hc; cbn;
    try (by apply Hpair); [by eapply argv_cut| |by apply IH].
  destruct (IH B Hc) as ([Hc1 Hm1] & He1).
  destruct (terminate_cut _ (r_file r).2 Hc1 (word_end _ _ Hw)) as (Hc2 & Hz2 & Hm2); [apply Hw|].
  split; [split; [done|auto]|]. split; [by eapply ended_mono|done].
Qed.

Lemma cstr_app w l : 0 ∉ w -> cstr (w ++ 0 :: l) = w.
Proof.
  induction w as [|x w IH]; cbn; [done|]. rewrite elem_of_cons. intros Hn.
  destruct (Z.eqb_spec x 0); [naive_solver|]. f_equal. apply IH. naive_solver.
Qed.

(** The string at a word is the word. *)
Lemma string_at_word B w a : cut B -> word_at s0 w a -> zero_at B a.2 -> string_at B a.1 = w.
Proof.
  intros [Hl Hc] (E & Hne & Hw & _ & Hi) Hz. unfold string_at. rewrite Hl. cbn [Nat.sub]. rewrite Nat.sub_0_r. fold (pos a.1).
  assert (length a.1 <= length s0)%nat as Hlen by (by apply suffix_length).
  assert (0 ∉ w) as H0.
  { intros Hin. apply (inside_nul s0 s0_string _ Hi). rewrite E. apply elem_of_app. by left. }
  assert (forall i x, w !! i = Some x -> B !! (pos a.1 + i)%nat = Some x) as Hchars.
  { intros i x Hx. assert ((s0 ++ [0]) !! (pos a.1 + i)%nat = Some x) as Hs.
    { rewrite inside_lookup by done. rewrite E, <- app_assoc. by apply lookup_app_l_Some. }
    destruct (Hc _ _ Hs) as [|[_ [Hd|Hx0]]]; [done| |]; exfalso.
    - eapply Forall_lookup_1 in Hw; [|exact Hx]. cbn in Hw. congruence.
    - subst x. by apply H0, (list_elem_of_lookup_2 _ _ _ Hx). }
  assert (pos a.2 = (pos a.1 + length w)%nat) as Hp.
  { unfold pos. rewrite E, length_app in Hlen |- *. lia. }
  assert (take (length w) (drop (pos a.1) B) = w) as Hw'.
  { apply list_eq. intros i. destruct (decide (i < length w)%nat) as [Hlt|Hge].
    - destruct (lookup_lt_is_Some_2 w i Hlt) as [x Hx]. rewrite lookup_take_lt, lookup_drop by done. by rewrite Hx, (Hchars i x).
    - rewrite lookup_take_ge by lia. symmetry. apply lookup_ge_None_2. lia. }
  rewrite <- (take_drop (length w) (drop (pos a.1) B)), Hw', drop_drop. unfold zero_at in Hz. rewrite Hp in Hz.
  apply drop_S in Hz. rewrite Hz. by apply cstr_app.
Qed.

Lemma strings_spec c sc : denotes s0 c sc -> forall B, cut B -> ended B c -> strings B c = sc.
Proof.
  induction 1 as [ws argv Hw|c sc w r _ IH Hw|l r sl sr _ IHl _ IHr|l r sl sr _ IHl _ IHr|c sc _ IH]; intros B Hc; cbn.
  - intros Hz. f_equal. revert Hz. induction Hw as [|w a ws argv Hw _ IH]; [done|]. intros [Hz Hzs]%Forall_cons.
    cbn. f_equal; [by apply string_at_word|by apply IH].
  - intros [He Hz]. f_equal; [by apply IH|by apply string_at_word].
  - intros [Hl Hr]. f_equal; auto.
  - intros [Hl Hr]. f_equal; auto.
  - intros He. f_equal. auto.
Qed.

Lemma nulterminate_strings c sc : denotes s0 c sc -> strings (nulterminate c (s0 ++ [0])) c = sc.
Proof.
  intros Hd. destruct (nulterminate_cut c sc Hd (s0 ++ [0]) cut_line) as [[Hc _] He]. by apply (strings_spec c sc).
Qed.
End Line.

(** The parser against the grammar, on the scanner's tokens. *)
Lemma parsecmd_lex s c : 0 ∉ s -> parsecmd s <> NoEnd /\ (parsecmd s = Parsed c <-> g_line (lex s) c).
Proof.
  intros H0. assert (inside s s) as Hs by (unfold inside; done).
  pose proof (proj1 (parse_ends s H0 (parse_fuel s)) s Hs ltac:(unfold parse_fuel; lia)) as Hend.
  pose proof (proj1 (parse_sound s H0 (parse_fuel s)) s Hs) as Hsound.
  unfold ends, spec in Hend, Hsound. unfold parsecmd. destruct (parseline (parse_fuel s) s) as [c0 s1|msg|] eqn:E; [| |done].
  - destruct Hsound as (Hs1 & ts & sc & Hlex & Hg & Hd). split; [by destruct (skip_ws s1)|].
    split.
    + destruct (skip_ws s1) eqn:Ews; [|done]. intros [= <-]. rewrite (nulterminate_strings s H0 c0 sc Hd).
      rewrite Hlex, (lex_nil s1) by done. by rewrite app_nil_r.
    + intros Hgl. pose proof (proj1 (parse_complete s H0) _ _ Hgl (parse_fuel s) s [] Hs (eq_sym (app_nil_r _)) (or_introl eq_refl)) as Hc.
      unfold spec in Hc. rewrite E in Hc. destruct Hc as (_ & Hl1 & Hd1).
      destruct (skip_ws s1) as [|x q] eqn:Ews; [by rewrite (nulterminate_strings s H0 c0 c Hd1)|].
      destruct (token_at (x :: q)) as [t e] eqn:Et.
      by rewrite (lex_cons s1 x q t e (inside_nul s H0 s1 Hs1) Ews Et) in Hl1.
  - split; [done|]. split; [done|]. intros Hgl.
    pose proof (proj1 (parse_complete s H0) _ _ Hgl (parse_fuel s) s [] Hs (eq_sym (app_nil_r _)) (or_introl eq_refl)) as Hc.
    unfold spec in Hc. by rewrite E in Hc.
Qed.

(** C8: [parsecmd] accepts exactly the command lines of the shell's grammar: on a line of
    characters it returns the command [c], with the strings that [exec] and [open] will be given,
    if and only if the tokens of the line form [c]; the parser ends on every line. *)
Theorem parsecmd_grammar s c :
  0 ∉ s -> parsecmd s <> NoEnd /\ (parsecmd s = Parsed c <-> exists ts, lexes s ts /\ g_line ts c).
Proof.
  intros H0. destruct (parsecmd_lex s c H0) as [Hend Hg]. split; [done|]. rewrite Hg. split.
  - intros H. exists (lex s). split; [by apply lex_lexes|done].
  - intros (ts & ->%lexes_unique & H); done.
Qed.

(** A pipeline in parentheses, with a redirection, in the background. *)
Lemma parsecmd_grammar_witness :
  parsecmd (lit "(ls -l|wc>>f)&;echo hi") <> NoEnd /\
  exists ts, lexes (lit "(ls -l|wc>>f)&;echo hi") ts /\ g_line ts
    (SList (SBack (SPipe (SExec [lit "ls"; lit "-l"]) (SRedir (SExec [lit "wc"]) (lit "f") 0x201 1)))
       (SExec [lit "echo"; lit "hi"])).
Proof.
  destruct (parsecmd_grammar (lit "(ls -l|wc>>f)&;echo hi")
    (SList (SBack (SPipe (SExec [lit "ls"; lit "-l"]) (SRedir (SExec [lit "wc"]) (lit "f") 0x201 1)))
       (SExec [lit "echo"; lit "hi"]))) as [H1 H2]; [by apply (bool_decide_unpack _)|].
  split; [exact H1|]. apply H2. vm_compute. reflexivity.
Defined.
