(* ===== verification/Riscv.v ===== *)
(** * The RISC-V hart

    The part of the machine that the assembly of the kernel and [kernel/start.c] use: the
    registers, the control and status registers with the views that supervisor mode has of
    them, address translation, traps and returns from them, the instructions that occur, and
    the accessors of [kernel/riscv.h].  How page tables translate is the parameter [MMU]. *)

From stdpp Require Import gmap strings list.
From S2P Require Import Prelude Layout State.

(** ** State *)

(** The registers but [zero]. *)
Inductive reg : Type :=
| RA | SP | GP | TP | T0 | T1 | T2 | S0 | S1 | A0 | A1 | A2 | A3 | A4 | A5 | A6 | A7
| S2 | S3 | S4 | S5 | S6 | S7 | S8 | S9 | S10 | S11 | T3 | T4 | T5 | T6.

#[global] Instance reg_eq_dec : EqDecision reg.
Proof. solve_decision. Defined.

Inductive csr : Type :=
| Mhartid | Mstatus | Mepc | Mie | Mip | Medeleg | Mideleg | Mtvec | Mscratch | Mcounteren
| Pmpcfg0 | Pmpaddr0 | Time | Sstatus | Sie | Sip | Sepc | Stvec | Satp | Sscratch | Scause | Stval.

#[global] Instance csr_eq_dec : EqDecision csr.
Proof. solve_decision. Defined.

Inductive mode : Type := UserMode | SupervisorMode | MachineMode.

#[global] Instance mode_eq_dec : EqDecision mode.
Proof. solve_decision. Defined.

Definition upd {A B} `{EqDecision A} (f : A -> B) (a : A) (b : B) : A -> B := fun x => if decide (x = a) then b else f x.

Lemma upd_eq {A B} `{EqDecision A} (f : A -> B) a b : upd f a b a = b.
Proof. unfold upd. by rewrite decide_True. Qed.
Lemma upd_ne {A B} `{EqDecision A} (f : A -> B) a b x : x <> a -> upd f a b x = f x.
Proof. intros. unfold upd. by rewrite decide_False. Qed.

(** [m_csr] holds the registers that [csr_read] and [csr_write] give views of; [m_pc] is kept
    where control leaves or enters a routine. *)
Record machine : Type := MkMachine {
  m_reg : reg -> Z;
  m_csr : csr -> Z;
  m_mem : gmap Z Z;
  m_mode : mode;
  m_pc : Z
}.

Definition machine_eta (r : machine) : machine := MkMachine (m_reg r) (m_csr r) (m_mem r) (m_mode r) (m_pc r).

Definition set_m_reg (v : reg -> Z) (r : machine) : machine := ltac:(rset machine_eta m_reg v r).
Definition set_m_csr (v : csr -> Z) (r : machine) : machine := ltac:(rset machine_eta m_csr v r).
Definition set_m_mem (v : gmap Z Z) (r : machine) : machine := ltac:(rset machine_eta m_mem v r).
Definition set_m_mode (v : mode) (r : machine) : machine := ltac:(rset machine_eta m_mode v r).
Definition set_m_pc (v : Z) (r : machine) : machine := ltac:(rset machine_eta m_pc v r).

Definition put_reg (r : reg) (v : Z) (m : machine) : machine := set_m_reg (upd (m_reg m) r v) m.
Definition put_csr (c : csr) (v : Z) (m : machine) : machine := set_m_csr (upd (m_csr m) c v) m.

(** ** Control and status registers *)

(** The bits of [mstatus] that [sstatus] shows, and the interrupts of supervisor mode. *)
Abbreviation SSTATUS_MASK := 0x80000003000de762.
Abbreviation S_INTERRUPTS := 0x222.
Abbreviation SSIP := 0x2.

Definition merge (mask new old : Z) : Z := Z.lor (Z.land new mask) (Z.ldiff old mask).

Lemma merge_spec mask new old n :
  Z.testbit (merge mask new old) n = if Z.testbit mask n then Z.testbit new n else Z.testbit old n.
Proof.
  unfold merge. rewrite Z.lor_spec, Z.land_spec, Z.ldiff_spec.
  by destruct (Z.testbit mask n), (Z.testbit new n), (Z.testbit old n).
Qed.

(** [sstatus], [sie] and [sip] are views; [sie] and [sip] show the interrupts that are
    delegated. *)
Definition csr_read (c : csr) (m : machine) : Z :=
  match c with
  | Sstatus => Z.land (m_csr m Mstatus) SSTATUS_MASK
  | Sie => Z.land (m_csr m Mie) (Z.land (m_csr m Mideleg) S_INTERRUPTS)
  | Sip => Z.land (m_csr m Mip) (Z.land (m_csr m Mideleg) S_INTERRUPTS)
  | c => m_csr m c
  end.

(** Only the software interrupt is pending by a write to [sip]; program counters are even. *)
Definition csr_write (c : csr) (v : Z) (m : machine) : machine :=
  match c with
  | Sstatus => put_csr Mstatus (merge SSTATUS_MASK v (m_csr m Mstatus)) m
  | Sie => put_csr Mie (merge (Z.land (m_csr m Mideleg) S_INTERRUPTS) v (m_csr m Mie)) m
  | Sip => put_csr Mip (merge (Z.land (m_csr m Mideleg) SSIP) v (m_csr m Mip)) m
  | Sepc => put_csr Sepc (Z.clearbit v 0) m
  | Mepc => put_csr Mepc (Z.clearbit v 0) m
  | c => put_csr c v m
  end.

(** ** Traps *)

Definition set_bit_to (b : bool) (x n : Z) : Z := if b then Z.setbit x n else Z.clearbit x n.

(** A trap that supervisor mode takes: [stvec] is in direct mode. *)
Definition trap_s (cause : Z) (m : machine) : machine :=
  let st := m_csr m Mstatus in
  let st := set_bit_to (Z.testbit st 1) st 5 in
  let st := Z.clearbit st 1 in
  let st := set_bit_to (bool_decide (m_mode m = SupervisorMode)) st 8 in
  set_m_pc (Z.ldiff (m_csr m Stvec) 3)
    (set_m_mode SupervisorMode (put_csr Scause cause (put_csr Sepc (Z.clearbit (m_pc m) 0) (put_csr Mstatus st m)))).

Definition mode_code (x : mode) : Z := match x with UserMode => 0 | SupervisorMode => 1 | MachineMode => 3 end.

Definition trap_m (m : machine) : machine :=
  let st := m_csr m Mstatus in
  let st := set_bit_to (Z.testbit st 3) st 7 in
  let st := Z.clearbit st 3 in
  let st := merge 0x1800 (Z.shiftl (mode_code (m_mode m)) 11) st in
  set_m_pc (Z.ldiff (m_csr m Mtvec) 3)
    (set_m_mode MachineMode (put_csr Mepc (Z.clearbit (m_pc m) 0) (put_csr Mstatus st m))).

Definition do_sret (m : machine) : machine :=
  let st := m_csr m Mstatus in
  let md := if Z.testbit st 8 then SupervisorMode else UserMode in
  let st := set_bit_to (Z.testbit st 5) st 1 in
  let st := Z.clearbit (Z.clearbit (Z.setbit st 5) 8) 17 in
  set_m_pc (m_csr m Sepc) (set_m_mode md (put_csr Mstatus st m)).

(** [None]: the mode in [mstatus] is reserved. *)
Definition do_mret (m : machine) : option machine :=
  let st := m_csr m Mstatus in
  let mpp := Z.land (Z.shiftr st 11) 3 in
  if mpp =? 2 then None else
  let md := if mpp =? 0 then UserMode else if mpp =? 1 then SupervisorMode else MachineMode in
  let st := set_bit_to (Z.testbit st 7) st 3 in
  let st := merge 0x1800 0 (Z.setbit st 7) in
  let st := if mpp =? 3 then st else Z.clearbit st 17 in
  Some (set_m_pc (m_csr m Mepc) (set_m_mode md (put_csr Mstatus st m))).

(** ** Memory *)

(** The walk of the page table that [satp] names, for an access from supervisor mode. *)
Class MMU := { walk_satp : Z -> Z -> option Z }.

Section Machine.
Context `{MMU}.

(** Machine mode, and a [satp] of mode 0, do not translate. *)
Definition xsatp (satp va : Z) : option Z := if Z.shiftr satp 60 =? 0 then Some va else walk_satp satp va.
Definition xlate (m : machine) (va : Z) : option Z :=
  if bool_decide (m_mode m = MachineMode) then Some va else xsatp (m_csr m Satp) va.

Definition store (va v : Z) (m : machine) : option machine :=
  if va mod 8 =? 0 then pa ← xlate m va; Some (set_m_mem (st64 (m_mem m) pa v) m) else None.

Definition load (va : Z) (m : machine) : option Z :=
  if va mod 8 =? 0 then pa ← xlate m va; Some (ld64 (m_mem m) pa) else None.

(** ** Instructions *)

Inductive instr : Type :=
| Sd (rs : reg) (off : Z) (rb : reg)      (** [sd rs, off(rb)] *)
| Ld (rd : reg) (off : Z) (rb : reg)      (** [ld rd, off(rb)] *)
| Addi (rd rs : reg) (imm : Z)
| Add (rd rs1 rs2 : reg)
| Mul (rd rs1 rs2 : reg)
| Li (rd : reg) (imm : Z)                 (** [li], [la] *)
| Csrr (rd : reg) (c : csr)
| Csrw (c : csr) (rs : reg)
| Csrrw (rd : reg) (c : csr) (rs : reg)
| SfenceVma
| Jr (rs : reg)
| Ret
| Sret
| Mret.

(** A translation holds from the write of [satp] on, so that [sfence.vma] does nothing. *)
Definition step (i : instr) (m : machine) : option machine :=
  match i with
  | Sd rs off rb => store (u64 (m_reg m rb + off)) (m_reg m rs) m
  | Ld rd off rb => v ← load (u64 (m_reg m rb + off)) m; Some (put_reg rd v m)
  | Addi rd rs imm => Some (put_reg rd (u64 (m_reg m rs + imm)) m)
  | Add rd rs1 rs2 => Some (put_reg rd (u64 (m_reg m rs1 + m_reg m rs2)) m)
  | Mul rd rs1 rs2 => Some (put_reg rd (u64 (m_reg m rs1 * m_reg m rs2)) m)
  | Li rd imm => Some (put_reg rd (u64 imm) m)
  | Csrr rd c => Some (put_reg rd (csr_read c m) m)
  | Csrw c rs => Some (csr_write c (m_reg m rs) m)
  | Csrrw rd c rs => Some (put_reg rd (csr_read c m) (csr_write c (m_reg m rs) m))
  | SfenceVma => Some m
  | Jr rs => Some (set_m_pc (Z.clearbit (m_reg m rs) 0) m)
  | Ret => Some (set_m_pc (Z.clearbit (m_reg m RA) 0) m)
  | Sret => Some (do_sret m)
  | Mret => do_mret m
  end.

(** A routine without branches that lies in the page at [va], which must be mapped to the page
    at [pa] wherever an instruction is fetched; [None] is a fault. *)
Fixpoint run (va pa : Z) (code : list instr) (m : machine) : option machine :=
  match code with
  | [] => Some m
  | i :: code => if bool_decide (xlate m va = Some pa) then m ← step i m; run va pa code m else None
  end.
End Machine.

(** ** Accessors (kernel/riscv.h) *)

Abbreviation MSTATUS_MPP_MASK := 0x1800.
Abbreviation MSTATUS_MPP_S := 0x800.
Abbreviation MSTATUS_MIE := 0x8.
Abbreviation SSTATUS_SIE := 0x2.
Abbreviation SIE_SEIE := 0x200.
Abbreviation SIE_STIE := 0x20.
Abbreviation SIE_SSIE := 0x2.
Abbreviation MIE_MTIE := 0x80.

Abbreviation HM A := (M machine A).

Definition r_mhartid : HM Z := gets (csr_read Mhartid).
Definition r_mstatus : HM Z := gets (csr_read Mstatus).
Definition w_mstatus (x : Z) : HM unit := modify (csr_write Mstatus x).
Definition w_mepc (x : Z) : HM unit := modify (csr_write Mepc x).
Definition r_sstatus : HM Z := gets (csr_read Sstatus).
Definition w_sstatus (x : Z) : HM unit := modify (csr_write Sstatus x).
Definition r_sip : HM Z := gets (csr_read Sip).
Definition w_sip (x : Z) : HM unit := modify (csr_write Sip x).
Definition r_sie : HM Z := gets (csr_read Sie).
Definition w_sie (x : Z) : HM unit := modify (csr_write Sie x).
Definition r_mie : HM Z := gets (csr_read Mie).
Definition w_mie (x : Z) : HM unit := modify (csr_write Mie x).
Definition r_sepc : HM Z := gets (csr_read Sepc).
Definition w_sepc (x : Z) : HM unit := modify (csr_write Sepc x).
Definition r_medeleg : HM Z := gets (csr_read Medeleg).
Definition w_medeleg (x : Z) : HM unit := modify (csr_write Medeleg x).
Definition r_mideleg : HM Z := gets (csr_read Mideleg).
Definition w_mideleg (x : Z) : HM unit := modify (csr_write Mideleg x).
Definition w_stvec (x : Z) : HM unit := modify (csr_write Stvec x).
Definition r_stvec : HM Z := gets (csr_read Stvec).
Definition w_mtvec (x : Z) : HM unit := modify (csr_write Mtvec x).
Definition w_pmpcfg0 (x : Z) : HM unit := modify (csr_write Pmpcfg0 x).
Definition w_pmpaddr0 (x : Z) : HM unit := modify (csr_write Pmpaddr0 x).
Definition w_satp (x : Z) : HM unit := modify (csr_write Satp x).
Definition r_satp : HM Z := gets (csr_read Satp).
Definition w_sscratch (x : Z) : HM unit := modify (csr_write Sscratch x).
Definition w_mscratch (x : Z) : HM unit := modify (csr_write Mscratch x).
Definition r_scause : HM Z := gets (csr_read Scause).
Definition r_stval : HM Z := gets (csr_read Stval).
Definition w_mcounteren (x : Z) : HM unit := modify (csr_write Mcounteren x).
Definition r_mcounteren : HM Z := gets (csr_read Mcounteren).
Definition r_time : HM Z := gets (csr_read Time).

Definition intr_on : HM unit := let! x := r_sstatus in w_sstatus (Z.lor x SSTATUS_SIE).
Definition intr_off : HM unit := let! x := r_sstatus in w_sstatus (Z.land x (Z.lnot SSTATUS_SIE)).
Definition intr_get : HM bool := let! x := r_sstatus in ret (negb (Z.land x SSTATUS_SIE =? 0)).

Definition r_sp : HM Z := gets (fun m => m_reg m SP).
Definition r_tp : HM Z := gets (fun m => m_reg m TP).
Definition w_tp (x : Z) : HM unit := modify (put_reg TP x).
Definition r_ra : HM Z := gets (fun m => m_reg m RA).
Definition sfence_vma : HM unit := ret tt.

(** [msimp] computes the fields of a machine after updates. *)
Ltac msimp :=
  cbn [csr_read csr_write] in *;
  unfold put_reg, put_csr, set_m_reg, set_m_csr, set_m_mem, set_m_mode, set_m_pc in *;
  cbn [m_reg m_csr m_mem m_mode m_pc csr_read csr_write] in *.

(** ** Saving and restoring registers

    Runs of stores to, and of loads from, a structure with a slot for each register. *)

Definition saves (rb : reg) (off : reg -> Z) (rs : list reg) : list instr := map (fun r => Sd r (off r) rb) rs.
Definition loads (rb : reg) (off : reg -> Z) (rs : list reg) : list instr := map (fun r => Ld r (off r) rb) rs.

Definition saved (base : Z) (off f : reg -> Z) (rs : list reg) (mm : gmap Z Z) : gmap Z Z :=
  foldl (fun mm r => st64 mm (base + off r) (f r)) mm rs.
Definition loaded (base : Z) (off : reg -> Z) (mm : gmap Z Z) (rs : list reg) (f : reg -> Z) : reg -> Z :=
  foldl (fun f r => upd f r (ld64 mm (base + off r))) f rs.

Definition aligned_slots (n : Z) (off : reg -> Z) (rs : list reg) : Prop :=
  Forall (fun r => 0 <= off r /\ off r + 8 <= n /\ off r mod 8 = 0) rs.
Definition apart (off : reg -> Z) (rs : list reg) : Prop :=
  Forall (fun r => Forall (fun r' => r = r' \/ off r + 8 <= off r' \/ off r' + 8 <= off r) rs) rs.

Definition reg_range (f : reg -> Z) : Prop := forall r, 0 <= f r < 2 ^ 64.

Lemma upd_range f r v : reg_range f -> 0 <= v < 2 ^ 64 -> reg_range (upd f r v).
Proof. intros Hf Hv x. unfold upd. case_decide; auto. Qed.

Lemma apart_elem off rs r r' : apart off rs -> r ∈ rs -> r' ∈ rs -> r <> r' -> off r + 8 <= off r' \/ off r' + 8 <= off r.
Proof.
  unfold apart. rewrite Forall_forall. intros Ha Hr Hr' Hne. specialize (Ha r Hr). rewrite Forall_forall in Ha.
  by destruct (Ha r' Hr').
Qed.

Lemma saved_out base off f rs : forall mm x,
  Forall (fun r => x < base + off r \/ base + off r + 8 <= x) rs -> ldb (saved base off f rs mm) x = ldb mm x.
Proof.
  induction rs as [|r rs IH]; intros mm x; [done|]. intros [Hr Hx]%Forall_cons. unfold saved in *. cbn [foldl].
  rewrite IH by done. by apply ldb_st64_ne.
Qed.

Lemma saved_out64 base off f rs mm x :
  Forall (fun r => x + 8 <= base + off r \/ base + off r + 8 <= x) rs -> ld64 (saved base off f rs mm) x = ld64 mm x.
Proof.
  intros Hx. apply ld64_ext. intros y Hy. apply saved_out. eapply Forall_impl; [done|]. cbn. intros. lia.
Qed.

Lemma saved_in base off f rs r : apart off rs -> reg_range f -> r ∈ rs -> forall mm, ld64 (saved base off f rs mm) (base + off r) = f r.
Proof.
  intros Ha Hf. assert (forall l, l `suffix_of` rs -> r ∈ l -> forall mm, ld64 (saved base off f l mm) (base + off r) = f r) as Hgen.
  { induction l as [|x l IH]; intros Hl Hr mm; [by apply elem_of_nil in Hr|].
    assert (l `suffix_of` rs) as Hs by (etrans; [by apply suffix_cons_r|done]). unfold saved in *. cbn [foldl].
    destruct (decide (r ∈ l)) as [Hin|Hin]; [by apply IH|]. apply elem_of_cons in Hr as [<-|Hr]; [|done].
    fold (saved base off f l (st64 mm (base + off r) (f r))). rewrite saved_out64, ld64_st64_eq, u64_small; [done|apply Hf|].
    apply Forall_forall. intros y Hy. destruct Hl as [l0 ->].
    destruct (apart_elem off _ r y Ha) as [?|?]; [set_solver|set_solver|congruence|lia|lia]. }
  intros Hr. by apply Hgen.
Qed.

Lemma loaded_out base off mm rs r : r ∉ rs -> forall f, loaded base off mm rs f r = f r.
Proof.
  unfold loaded. induction rs as [|x rs IH]; intros Hr f; [done|]. apply not_elem_of_cons in Hr as [Hne Hr].
  cbn [foldl]. rewrite IH by done. by apply upd_ne.
Qed.

Lemma loaded_in base off mm rs r : r ∈ rs -> forall f, loaded base off mm rs f r = ld64 mm (base + off r).
Proof.
  induction rs as [|x rs IH]; intros Hr f; [by apply elem_of_nil in Hr|].
  destruct (decide (r ∈ rs)) as [Hin|Hin]; [by apply IH|]. apply elem_of_cons in Hr as [<-|]; [|done].
  change (loaded base off mm rs (upd f r (ld64 mm (base + off r))) r = ld64 mm (base + off r)).
  rewrite loaded_out by done. apply upd_eq.
Qed.

Section Blocks.
Context `{MMU}.

Lemma xlate_eq m m' : m_mode m' = m_mode m -> m_csr m' Satp = m_csr m Satp -> forall va, xlate m' va = xlate m va.
Proof. intros E1 E2 va. unfold xlate. by rewrite E1, E2. Qed.

Lemma xlate_s m : m_mode m = SupervisorMode -> forall va, xlate m va = xsatp (m_csr m Satp) va.
Proof. intros E va. unfold xlate. by rewrite E. Qed.

Lemma run_app va pa c1 c2 m : run va pa (c1 ++ c2) m = m1 ← run va pa c1 m; run va pa c2 m1.
Proof.
  revert m. induction c1 as [|i c1 IH]; intros m; [done|]. cbn [app run]. case_bool_decide; [|done].
  destruct (step i m); [apply IH|done].
Qed.

Lemma run_cons va pa i code m m' :
  xlate m va = Some pa -> step i m = Some m' -> run va pa (i :: code) m = run va pa code m'.
Proof. intros Hf Hs. cbn [run]. by rewrite bool_decide_eq_true_2, Hs. Qed.

Lemma run_one va pa i m : xlate m va = Some pa -> run va pa [i] m = step i m.
Proof. intros Hf. cbn [run]. rewrite bool_decide_eq_true_2 by done. by destruct (step i m). Qed.

(** [n] bytes at [va] are mapped to [pa]. *)
Definition window (m : machine) (va pa n : Z) : Prop :=
  0 <= va /\ va + n <= 2 ^ 64 /\ va mod 8 = 0 /\ forall o, 0 <= o < n -> xlate m (va + o) = Some (pa + o).

Lemma window_eq m m' va pa n :
  m_mode m' = m_mode m -> m_csr m' Satp = m_csr m Satp -> window m va pa n -> window m' va pa n.
Proof. intros E1 E2 (? & ? & ? & Hw). repeat split; [done..|]. intros o Ho. rewrite (xlate_eq m m') by done. by apply Hw. Qed.

Lemma window_slot m va pa n o : window m va pa n -> 0 <= o -> o + 8 <= n -> o mod 8 = 0 ->
  u64 (va + o) = va + o /\ (va + o) mod 8 = 0 /\ xlate m (va + o) = Some (pa + o).
Proof.
  intros (? & ? & Ha & Hw) ? ? Ho. split; [apply u64_small; lia|]. split; [|apply Hw; lia].
  rewrite Z.add_mod, Ha, Ho by lia. done.
Qed.

Lemma step_sd m va pa n rs off rb : m_reg m rb = va -> window m va pa n -> 0 <= off -> off + 8 <= n -> off mod 8 = 0 ->
  step (Sd rs off rb) m = Some (set_m_mem (st64 (m_mem m) (pa + off) (m_reg m rs)) m).
Proof.
  intros Hb Hw H1 H2 H3. destruct (window_slot m va pa n off Hw H1 H2 H3) as (Eu & Ea & Ex).
  cbn [step]. unfold store. rewrite Hb, Eu, Ea, Ex. done.
Qed.

Lemma step_ld m va pa n rd off rb : m_reg m rb = va -> window m va pa n -> 0 <= off -> off + 8 <= n -> off mod 8 = 0 ->
  step (Ld rd off rb) m = Some (put_reg rd (ld64 (m_mem m) (pa + off)) m).
Proof.
  intros Hb Hw H1 H2 H3. destruct (window_slot m va pa n off Hw H1 H2 H3) as (Eu & Ea & Ex).
  cbn [step]. unfold load. rewrite Hb, Eu, Ea, Ex. done.
Qed.

Lemma run_saves cva cpa va pa n rb off rs : aligned_slots n off rs -> forall m,
  xlate m cva = Some cpa -> m_reg m rb = va -> window m va pa n ->
  run cva cpa (saves rb off rs) m = Some (set_m_mem (saved pa off (m_reg m) rs (m_mem m)) m).
Proof.
  induction 1 as [|r rs (H1 & H2 & H3) _ IH]; intros m Hf Hb Hw; [by destruct m|].
  unfold saves. cbn [map]. erewrite run_cons; [|done|by eapply step_sd]. fold (saves rb off rs).
  by rewrite IH; [|rewrite (xlate_eq m)|..|eapply window_eq, Hw].
Qed.

Lemma run_loads cva cpa va pa n rb off rs : aligned_slots n off rs -> rb ∉ rs -> forall m,
  xlate m cva = Some cpa -> m_reg m rb = va -> window m va pa n ->
  run cva cpa (loads rb off rs) m = Some (set_m_reg (loaded pa off (m_mem m) rs (m_reg m)) m).
Proof.
  induction 1 as [|r rs (H1 & H2 & H3) _ IH]; intros Hrb m Hf Hb Hw; [by destruct m|].
  apply not_elem_of_cons in Hrb as [Hne Hrb].
  unfold loads. cbn [map]. erewrite run_cons; [|done|by eapply step_ld]. fold (loads rb off rs).
  by rewrite IH; [|done|rewrite (xlate_eq m)|cbn; by rewrite upd_ne|eapply window_eq, Hw].
Qed.
End Blocks.
