(* ===== verification/Trampoline.v ===== *)
(** * Entering and leaving the kernel, and switching contexts

    [kernel/trampoline.S], [kernel/swtch.S] and [kernelvec] of [kernel/kernelvec.S] as lists of
    instructions of [Riscv]: a trap from user mode and the return to it keep the process's
    registers, a context switch resumes the context that it is given, and an interrupt in the
    kernel is invisible to the code that it interrupts. *)

From stdpp Require Import gmap strings list.
From S2P Require Import Prelude Layout State Mlfq Sched Accounting Vm Block Bio Log Fs Printf Console Proc Sysproc Trap Riscv.

(** ** kernel/trampoline.S *)

(** The registers of [struct trapframe] (kernel/proc.h). *)
Definition tf_off (r : reg) : Z :=
  match r with
  | RA => 40 | SP => 48 | GP => 56 | TP => 64 | T0 => 72 | T1 => 80 | T2 => 88 | S0 => 96 | S1 => 104
  | A0 => 112 | A1 => 120 | A2 => 128 | A3 => 136 | A4 => 144 | A5 => 152 | A6 => 160 | A7 => 168
  | S2 => 176 | S3 => 184 | S4 => 192 | S5 => 200 | S6 => 208 | S7 => 216 | S8 => 224 | S9 => 232
  | S10 => 240 | S11 => 248 | T3 => 256 | T4 => 264 | T5 => 272 | T6 => 280
  end.

Definition uservec : list instr :=
  [Csrrw A0 Sscratch A0;
   Sd RA 40 A0; Sd SP 48 A0; Sd GP 56 A0; Sd TP 64 A0; Sd T0 72 A0; Sd T1 80 A0; Sd T2 88 A0; Sd S0 96 A0; Sd S1 104 A0;
   Sd A1 120 A0; Sd A2 128 A0; Sd A3 136 A0; Sd A4 144 A0; Sd A5 152 A0; Sd A6 160 A0; Sd A7 168 A0;
   Sd S2 176 A0; Sd S3 184 A0; Sd S4 192 A0; Sd S5 200 A0; Sd S6 208 A0; Sd S7 216 A0; Sd S8 224 A0; Sd S9 232 A0;
   Sd S10 240 A0; Sd S11 248 A0; Sd T3 256 A0; Sd T4 264 A0; Sd T5 272 A0; Sd T6 280 A0;
   Csrr T0 Sscratch; Sd T0 112 A0;
   Ld SP 8 A0; Ld TP 32 A0; Ld T0 16 A0; Ld T1 0 A0; Csrw Satp T1; SfenceVma; Jr T0].

Definition userret : list instr :=
  [Csrw Satp A1; SfenceVma; Ld T0 112 A0; Csrw Sscratch T0;
   Ld RA 40 A0; Ld SP 48 A0; Ld GP 56 A0; Ld TP 64 A0; Ld T0 72 A0; Ld T1 80 A0; Ld T2 88 A0; Ld S0 96 A0; Ld S1 104 A0;
   Ld A1 120 A0; Ld A2 128 A0; Ld A3 136 A0; Ld A4 144 A0; Ld A5 152 A0; Ld A6 160 A0; Ld A7 168 A0;
   Ld S2 176 A0; Ld S3 184 A0; Ld S4 192 A0; Ld S5 200 A0; Ld S6 208 A0; Ld S7 216 A0; Ld S8 224 A0; Ld S9 232 A0;
   Ld S10 240 A0; Ld S11 248 A0; Ld T3 256 A0; Ld T4 264 A0; Ld T5 272 A0; Ld T6 280 A0;
   Csrrw A0 Sscratch A0; Sret].

(** ** kernel/swtch.S *)

(** [struct context] (kernel/proc.h); the other registers have no slot. *)
Definition ctx_off (r : reg) : Z :=
  match r with
  | RA => 0 | SP => 8 | S0 => 16 | S1 => 24 | S2 => 32 | S3 => 40 | S4 => 48 | S5 => 56 | S6 => 64 | S7 => 72
  | S8 => 80 | S9 => 88 | S10 => 96 | S11 => 104 | _ => -1
  end.
Definition ctx_regs : list reg := [RA; SP; S0; S1; S2; S3; S4; S5; S6; S7; S8; S9; S10; S11].
Abbreviation CTX_SIZE := 112.

Definition swtch_code : list instr :=
  [Sd RA 0 A0; Sd SP 8 A0; Sd S0 16 A0; Sd S1 24 A0; Sd S2 32 A0; Sd S3 40 A0; Sd S4 48 A0; Sd S5 56 A0; Sd S6 64 A0;
   Sd S7 72 A0; Sd S8 80 A0; Sd S9 88 A0; Sd S10 96 A0; Sd S11 104 A0;
   Ld RA 0 A1; Ld SP 8 A1; Ld S0 16 A1; Ld S1 24 A1; Ld S2 32 A1; Ld S3 40 A1; Ld S4 48 A1; Ld S5 56 A1; Ld S6 64 A1;
   Ld S7 72 A1; Ld S8 80 A1; Ld S9 88 A1; Ld S10 96 A1; Ld S11 104 A1;
   Ret].

(** ** kernelvec (kernel/kernelvec.S) *)

Definition kv_off (r : reg) : Z :=
  match r with
  | RA => 0 | SP => 8 | GP => 16 | TP => 24 | T0 => 32 | T1 => 40 | T2 => 48 | S0 => 56 | S1 => 64
  | A0 => 72 | A1 => 80 | A2 => 88 | A3 => 96 | A4 => 104 | A5 => 112 | A6 => 120 | A7 => 128
  | S2 => 136 | S3 => 144 | S4 => 152 | S5 => 160 | S6 => 168 | S7 => 176 | S8 => 184 | S9 => 192
  | S10 => 200 | S11 => 208 | T3 => 216 | T4 => 224 | T5 => 232 | T6 => 240
  end.

(** Before and after the call of [kerneltrap]. *)
Definition kernelvec_save : list instr :=
  [Addi SP SP (-256);
   Sd RA 0 SP; Sd SP 8 SP; Sd GP 16 SP; Sd TP 24 SP; Sd T0 32 SP; Sd T1 40 SP; Sd T2 48 SP; Sd S0 56 SP; Sd S1 64 SP;
   Sd A0 72 SP; Sd A1 80 SP; Sd A2 88 SP; Sd A3 96 SP; Sd A4 104 SP; Sd A5 112 SP; Sd A6 120 SP; Sd A7 128 SP;
   Sd S2 136 SP; Sd S3 144 SP; Sd S4 152 SP; Sd S5 160 SP; Sd S6 168 SP; Sd S7 176 SP; Sd S8 184 SP; Sd S9 192 SP;
   Sd S10 200 SP; Sd S11 208 SP; Sd T3 216 SP; Sd T4 224 SP; Sd T5 232 SP; Sd T6 240 SP].

Definition kernelvec_restore : list instr :=
  [Ld RA 0 SP; Ld SP 8 SP; Ld GP 16 SP; Ld T0 32 SP; Ld T1 40 SP; Ld T2 48 SP; Ld S0 56 SP; Ld S1 64 SP;
   Ld A0 72 SP; Ld A1 80 SP; Ld A2 88 SP; Ld A3 96 SP; Ld A4 104 SP; Ld A5 112 SP; Ld A6 120 SP; Ld A7 128 SP;
   Ld S2 136 SP; Ld S3 144 SP; Ld S4 152 SP; Ld S5 160 SP; Ld S6 168 SP; Ld S7 176 SP; Ld S8 184 SP; Ld S9 192 SP;
   Ld S10 200 SP; Ld S11 208 SP; Ld T3 216 SP; Ld T4 224 SP; Ld T5 232 SP; Ld T6 240 SP;
   Addi SP SP 256; Sret].

(** [call]: what the call of [kerneltrap] does to the machine, up to its return. *)
Definition kernelvec `{MMU} (va pa : Z) (call : machine -> option machine) (m : machine) : option machine :=
  m1 ← run va pa kernelvec_save m;
  m2 ← call m1;
  run va pa kernelvec_restore m2.

(** ** The slots *)

Definition tf_regs : list reg :=
  [RA; SP; GP; TP; T0; T1; T2; S0; S1; A1; A2; A3; A4; A5; A6; A7; S2; S3; S4; S5; S6; S7; S8; S9; S10; S11; T3; T4; T5; T6].

Definition kv_regs : list reg :=
  [RA; SP; GP; TP; T0; T1; T2; S0; S1; A0; A1; A2; A3; A4; A5; A6; A7; S2; S3; S4; S5; S6; S7; S8; S9; S10; S11; T3; T4; T5; T6].

(** What is loaded after [sp]. *)
Definition kv_rest : list reg :=
  [GP; T0; T1; T2; S0; S1; A0; A1; A2; A3; A4; A5; A6; A7; S2; S3; S4; S5; S6; S7; S8; S9; S10; S11; T3; T4; T5; T6].

Lemma tf_slots : aligned_slots TF_SIZE tf_off tf_regs.
Proof. apply (bool_decide_unpack _). vm_compute. exact I. Qed.
Lemma tf_apart : apart tf_off (A0 :: tf_regs).
Proof. apply (bool_decide_unpack _). vm_compute. exact I. Qed.
Lemma ctx_slots : aligned_slots CTX_SIZE ctx_off ctx_regs.
Proof. apply (bool_decide_unpack _). vm_compute. exact I. Qed.
Lemma ctx_apart : apart ctx_off ctx_regs.
Proof. apply (bool_decide_unpack _). vm_compute. exact I. Qed.
Lemma kv_slots : aligned_slots 256 kv_off kv_regs.
Proof. apply (bool_decide_unpack _). vm_compute. exact I. Qed.
Lemma kv_apart : apart kv_off kv_regs.
Proof. apply (bool_decide_unpack _). vm_compute. exact I. Qed.

Lemma apart_tail off r rs : apart off (r :: rs) -> apart off rs.
Proof.
  unfold apart. rewrite !Forall_forall. intros Ha x Hx. specialize (Ha x (list_elem_of_further _ _ _ Hx)).
  by apply Forall_cons in Ha as [_ ?].
Qed.

Lemma tf_regs_all r : r = A0 \/ r ∈ tf_regs.
Proof. destruct (decide (r = A0)); [by left|right]. by destruct r; apply (bool_decide_unpack _); vm_compute. Qed.

Lemma A0_no_tf : A0 ∉ tf_regs.
Proof. by apply (bool_decide_unpack _). Qed.

(** ** Traps from user mode *)

(** The page table of a process maps its trapframe, and both page tables map the trampoline at
    the same address ([proc_pagetable], [kvmmake]). *)
Record process_space `{MMU} (usatp ksatp tf tramp : Z) : Prop := {
  us_tramp : xsatp usatp TRAMPOLINE = Some tramp;
  us_tf : forall o, 0 <= o < TF_SIZE -> xsatp usatp (TRAPFRAME + o) = Some (tf + o);
  ks_tramp : xsatp ksatp TRAMPOLINE = Some tramp
}.

Section User.
Context `{MMU} (usatp ksatp tf tramp : Z) (space : process_space usatp ksatp tf tramp).

Lemma tf_window m : m_mode m = SupervisorMode -> m_csr m Satp = usatp -> window m TRAPFRAME tf TF_SIZE.
Proof.
  intros Hm Hs. repeat split; [lia..|]. intros o Ho. rewrite xlate_s, Hs by done. by apply (us_tf _ _ _ _ space).
Qed.

Lemma tf_tramp m : m_mode m = SupervisorMode -> m_csr m Satp = usatp \/ m_csr m Satp = ksatp -> xlate m TRAMPOLINE = Some tramp.
Proof.
  intros Hm [Hs|Hs]; rewrite xlate_s, Hs by done; [apply (us_tramp _ _ _ _ space)|apply (ks_tramp _ _ _ _ space)].
Qed.

(** Memory after [uservec]. *)
Definition tf_saved (f : reg -> Z) (mm : gmap Z Z) : gmap Z Z :=
  st64 (saved tf tf_off (upd f A0 TRAPFRAME) tf_regs mm) (tf + 112) (f A0).

Lemma tf_saved_user f mm r : reg_range f -> ld64 (tf_saved f mm) (tf + tf_off r) = f r.
Proof.
  intros Hf. unfold tf_saved. destruct (tf_regs_all r) as [->|Hr]; [rewrite ld64_st64_eq; apply u64_small, Hf|].
  assert (r <> A0) as Hne by (intros ->; by apply A0_no_tf in Hr).
  rewrite ld64_st64_ne, saved_in, upd_ne; [done|done|by eapply apart_tail, tf_apart|apply upd_range; [done|lia]|done|].
  destruct (apart_elem tf_off _ r A0 tf_apart) as [?|?]; [by right|left|done|cbn [tf_off] in *; lia..].
Qed.

Lemma tf_saved_out f mm x : x < tf + 40 \/ tf + TF_SIZE <= x -> ldb (tf_saved f mm) x = ldb mm x.
Proof.
  intros Hx. unfold tf_saved. rewrite ldb_st64_ne by lia. apply saved_out.
  apply (Forall_impl (fun r => 40 <= tf_off r /\ tf_off r + 8 <= TF_SIZE)).
  - apply (bool_decide_unpack _). vm_compute. exact I.
  - intros r. cbn beta. intros. lia.
Qed.

Lemma tf_saved_kernel f mm o : o + 8 <= 40 -> ld64 (tf_saved f mm) (tf + o) = ld64 mm (tf + o).
Proof. intros Ho. apply ld64_ext. intros x Hx. apply tf_saved_out. lia. Qed.

Lemma uservec_split : uservec =
  Csrrw A0 Sscratch A0 :: saves A0 tf_off tf_regs ++
  [Csrr T0 Sscratch; Sd T0 112 A0; Ld SP 8 A0; Ld TP 32 A0; Ld T0 16 A0; Ld T1 0 A0; Csrw Satp T1; SfenceVma; Jr T0].
Proof. done. Qed.

Lemma uservec_spec m :
  m_mode m = SupervisorMode -> m_csr m Satp = usatp -> m_csr m Sscratch = TRAPFRAME ->
  ld64 (m_mem m) (tf + TF_KERNEL_SATP) = ksatp ->
  exists f, run TRAMPOLINE tramp uservec m =
    Some (set_m_pc (Z.clearbit (ld64 (m_mem m) (tf + TF_KERNEL_TRAP)) 0)
      (MkMachine f (upd (upd (m_csr m) Sscratch (m_reg m A0)) Satp ksatp) (tf_saved (m_reg m) (m_mem m)) SupervisorMode (m_pc m))) /\
    f SP = ld64 (m_mem m) (tf + TF_KERNEL_SP) /\ f TP = ld64 (m_mem m) (tf + TF_KERNEL_HARTID).
Proof.
  intros Hm Hs Hx Hk. pose proof (tf_window m Hm Hs) as Hw. pose proof (tf_tramp m Hm (or_introl Hs)) as Ht.
  destruct m as [f c mm md pc]. msimp. subst md. rewrite uservec_split.
  erewrite run_cons; [|done|done]. msimp. rewrite Hx, run_app.
  rewrite (run_saves TRAMPOLINE tramp TRAPFRAME tf TF_SIZE A0 tf_off tf_regs tf_slots); [|done|done|by eapply window_eq, Hw].
  cbn [mbind option_bind]. msimp.
  erewrite run_cons; [|done|done]. msimp.
  erewrite run_cons; [|done|by eapply (step_sd _ TRAPFRAME tf TF_SIZE); [..|eapply window_eq, Hw| | |]]. msimp.
  rewrite !upd_eq. change (st64 _ _ _) with (tf_saved f mm).
  do 4 (erewrite run_cons; [|done|by eapply (step_ld _ TRAPFRAME tf TF_SIZE); [..|eapply window_eq, Hw| | |]]; msimp).
  rewrite !tf_saved_kernel, Hk by lia.
  erewrite run_cons; [|done|done]. msimp. rewrite (upd_eq _ T1).
  erewrite run_cons; [|by apply tf_tramp; [|right; apply upd_eq]|done].
  erewrite run_cons; [|by apply tf_tramp; [|right; apply upd_eq]|done]. msimp.
  eexists. split; [reflexivity|done].
Qed.

Lemma userret_split : userret =
  [Csrw Satp A1; SfenceVma; Ld T0 112 A0; Csrw Sscratch T0] ++ loads A0 tf_off tf_regs ++ [Csrrw A0 Sscratch A0; Sret].
Proof. done. Qed.

Lemma userret_spec m :
  m_mode m = SupervisorMode -> m_csr m Satp = ksatp -> m_reg m A0 = TRAPFRAME -> m_reg m A1 = usatp ->
  exists f c, run TRAMPOLINE tramp userret m = Some (do_sret (MkMachine f c (m_mem m) SupervisorMode (m_pc m))) /\
    (forall r, f r = ld64 (m_mem m) (tf + tf_off r)) /\
    c Satp = usatp /\ c Sscratch = TRAPFRAME /\ (forall x, x <> Satp -> x <> Sscratch -> c x = m_csr m x).
Proof.
  intros Hm Hs H0 H1. pose proof (tf_tramp m Hm (or_intror Hs)) as Ht.
  pose proof (tf_tramp (put_csr Satp usatp m) Hm (or_introl (upd_eq _ _ _))) as Ht'.
  pose proof (tf_window (put_csr Satp usatp m) Hm (upd_eq _ _ _)) as Hw.
  destruct m as [f c mm md pc]. msimp. subst md. rewrite userret_split, <- H1. cbn [app].
  erewrite run_cons; [|done|done]. msimp. rewrite H1.
  erewrite run_cons; [|done|done].
  erewrite run_cons; [|done|by eapply (step_ld _ TRAPFRAME tf TF_SIZE); [..|eapply window_eq, Hw| | |]]. msimp.
  erewrite run_cons; [|done|done]. msimp. rewrite run_app.
  rewrite (run_loads TRAMPOLINE tramp TRAPFRAME tf TF_SIZE A0 tf_off tf_regs tf_slots A0_no_tf);
    [|done|by msimp; rewrite upd_ne|by eapply window_eq, Hw].
  cbn [mbind option_bind]. msimp. erewrite run_cons; [|done|done]. msimp.
  erewrite run_cons; [|done|done]. cbn [run]. do 2 eexists. split; [reflexivity|].
  rewrite !upd_eq. split; [|split; [done|]].
  - intros r. destruct (tf_regs_all r) as [->|Hr]; [by rewrite !upd_eq|].
    rewrite upd_ne by (intros ->; by apply A0_no_tf in Hr). by apply loaded_in.
  - split; [by rewrite (loaded_out _ _ _ _ _ A0_no_tf), upd_ne|]. intros x N1 N2. by rewrite !upd_ne.
Qed.

(** Bits of [mstatus] after a trap from user mode and a return to it. *)
Lemma trap_s_bits cause m : m_mode m = UserMode ->
  Z.testbit (m_csr (trap_s cause m) Mstatus) 1 = false /\ Z.testbit (m_csr (trap_s cause m) Mstatus) 8 = false.
Proof.
  intros Hm. unfold trap_s. msimp. rewrite Hm. cbn [bool_decide]. rewrite bool_decide_eq_false_2 by done.
  rewrite !(upd_ne _ _ _ Mstatus), upd_eq by done. unfold set_bit_to.
  rewrite Z.clearbit_neq, Z.clearbit_eq, Z.clearbit_eq by lia. done.
Qed.

Lemma do_sret_user m : Z.testbit (m_csr m Mstatus) 8 = false ->
  m_mode (do_sret m) = UserMode /\ Z.testbit (m_csr (do_sret m) Mstatus) 1 = Z.testbit (m_csr m Mstatus) 5.
Proof.
  intros H8. unfold do_sret. msimp. rewrite H8, upd_eq. split; [done|].
  rewrite !Z.clearbit_neq, Z.setbit_neq by lia. unfold set_bit_to.
  by destruct (Z.testbit _ 5); [rewrite Z.setbit_eq by lia|rewrite Z.clearbit_eq].
Qed.

Lemma uservec_enters cause m :
  m_mode m = UserMode -> m_csr m Satp = usatp -> m_csr m Sscratch = TRAPFRAME ->
  ld64 (m_mem m) (tf + TF_KERNEL_SATP) = ksatp ->
  exists m1, run TRAMPOLINE tramp uservec (trap_s cause m) = Some m1 /\
    m_mode m1 = SupervisorMode /\ Z.testbit (m_csr m1 Mstatus) 1 = false /\ m_csr m1 Satp = ksatp /\
    m_csr m1 Sepc = Z.clearbit (m_pc m) 0 /\ m_csr m1 Scause = cause /\
    m_pc m1 = Z.clearbit (ld64 (m_mem m) (tf + TF_KERNEL_TRAP)) 0 /\
    m_reg m1 SP = ld64 (m_mem m) (tf + TF_KERNEL_SP) /\ m_reg m1 TP = ld64 (m_mem m) (tf + TF_KERNEL_HARTID) /\
    m_mem m1 = tf_saved (m_reg m) (m_mem m).
Proof.
  intros Hm Hs Hx Hk. destruct (trap_s_bits cause m Hm) as [Hb _].
  destruct (uservec_spec (trap_s cause m)) as (f & -> & Hsp & Htp); [done|done|done|done|].
  eexists. split; [done|]. msimp. split; [done|]. rewrite upd_eq, !(upd_ne _ _ _ Mstatus) by done. by repeat split.
Qed.

(** Return to user mode, with interrupts as [SPIE] says. *)
Lemma userret_leaves m :
  m_mode m = SupervisorMode -> m_csr m Satp = ksatp -> m_reg m A0 = TRAPFRAME -> m_reg m A1 = usatp ->
  Z.testbit (m_csr m Mstatus) 8 = false ->
  exists m1, run TRAMPOLINE tramp userret m = Some m1 /\
    m_mode m1 = UserMode /\ Z.testbit (m_csr m1 Mstatus) 1 = Z.testbit (m_csr m Mstatus) 5 /\
    m_pc m1 = m_csr m Sepc /\ m_csr m1 Satp = usatp /\ m_csr m1 Sscratch = TRAPFRAME /\ m_mem m1 = m_mem m /\
    (forall r, m_reg m1 r = ld64 (m_mem m) (tf + tf_off r)).
Proof.
  intros Hm Hs H0 H1 H8. destruct (userret_spec m Hm Hs H0 H1) as (f & c & -> & Hf & Hc1 & Hc2 & Hc).
  eexists. split; [done|]. destruct (do_sret_user (MkMachine f c (m_mem m) SupervisorMode (m_pc m))) as [E1 E2].
  { cbn. by rewrite Hc. }
  rewrite E1, E2. unfold do_sret. msimp. rewrite (Hc Mstatus), (Hc Sepc), !(upd_ne _ Mstatus) by done. done.
Qed.

End User.

(** ** usertrapret and the trampoline *)

Section Return.
Context `{Build} `{Disk} `{TrapBuild} `{DiskIntr} `{MMU}.

(** The trapframe with what [usertrapret] puts into it. *)
Definition tf_kernel (tf satp ksp trap hartid : Z) (mm : gmap Z Z) : gmap Z Z :=
  st64 (st64 (st64 (st64 mm (tf + TF_KERNEL_SATP) satp) (tf + TF_KERNEL_SP) ksp) (tf + TF_KERNEL_TRAP) trap) (tf + TF_KERNEL_HARTID) hartid.

Lemma tf_kernel_fields tf satp ksp trap hartid mm :
  let mm' := tf_kernel tf satp ksp trap hartid mm in
  ld64 mm' (tf + TF_KERNEL_SATP) = u64 satp /\ ld64 mm' (tf + TF_KERNEL_SP) = u64 ksp /\
  ld64 mm' (tf + TF_KERNEL_TRAP) = u64 trap /\ ld64 mm' (tf + TF_KERNEL_HARTID) = u64 hartid /\
  ld64 mm' (tf + TF_EPC) = ld64 mm (tf + TF_EPC) /\ forall r, ld64 mm' (tf + tf_off r) = ld64 mm (tf + tf_off r).
Proof.
  cbn zeta. unfold tf_kernel. repeat split; [by repeat first [rewrite ld64_st64_eq|rewrite ld64_st64_ne by lia]..|].
  intros r. assert (40 <= tf_off r) by (destruct r; cbn; lia). by rewrite !ld64_st64_ne by lia.
Qed.

Lemma usertrapret_run s h p pr : cur s = Some p -> procs s !! p = Some pr ->
  usertrapret (s, h) = Ok (MkReturn (TRAMPOLINE + (sym_userret - sym_trampoline)) TRAPFRAME (MAKE_SATP (p_pagetable pr)))
    (set_mem (tf_kernel (p_trapframe pr) (h_satp h) (u64 (p_kstack pr + PGSIZE)) sym_usertrap (h_tp h) (mem s)) s,
     set_h_sepc (ld64 (mem s) (p_trapframe pr + TF_EPC))
       (set_h_sstatus (Z.lor (Z.land (Z.land (h_sstatus h) (Z.lnot SSTATUS_SIE)) (Z.lnot SSTATUS_SPP)) SSTATUS_SPIE)
         (set_h_stvec (TRAMPOLINE + (sym_uservec - sym_trampoline)) h))).
Proof.
  intros Hc Hp. unfold usertrapret. unfold lift, hget, hset, bind, curproc, myproc, tf_get, tf_set, pget, gets, modify, deref, bind.
  cbn. rewrite Hc. cbn. repeat (rewrite Hp; cbn). unfold ret.
  by rewrite !(ld64_st64_ne _ _ _ (p_trapframe pr + 24)) by lia.
Qed.

Lemma sstatus_bit m n : Z.testbit SSTATUS_MASK n = true -> Z.testbit (m_csr m Mstatus) n = Z.testbit (csr_read Sstatus m) n.
Proof. intros Hn. cbn [csr_read]. by rewrite Z.land_spec, Hn, andb_true_r. Qed.

(** [usertrapret] and [userret] start the process at the program counter and with the
    registers of its trapframe, in user mode with interrupts on; its next trap comes to [usertrap],
    on the top of its kernel stack, with the hart number in [tp] and the kernel's page table. *)
Theorem usertrapret_resumes s h p pr tramp :
  cur s = Some p -> procs s !! p = Some pr -> 0 <= h_satp h < 2 ^ 64 ->
  process_space (MAKE_SATP (p_pagetable pr)) (h_satp h) (p_trapframe pr) tramp ->
  exists r s' h', usertrapret (s, h) = Ok r (s', h') /\
    forall m, m_mode m = SupervisorMode -> m_mem m = mem s' -> m_csr m Satp = h_satp h' ->
      csr_read Sstatus m = h_sstatus h' -> m_csr m Sepc = Z.clearbit (h_sepc h') 0 ->
      m_reg m A0 = ur_trapframe r -> m_reg m A1 = ur_satp r ->
      exists m1, run TRAMPOLINE tramp userret m = Some m1 /\
        m_mode m1 = UserMode /\ Z.testbit (m_csr m1 Mstatus) 1 = true /\
        m_pc m1 = Z.clearbit (ld64 (mem s) (p_trapframe pr + TF_EPC)) 0 /\
        (forall x, m_reg m1 x = ld64 (mem s) (p_trapframe pr + tf_off x)) /\
        forall cause m2, m_mode m2 = UserMode -> m_csr m2 Satp = m_csr m1 Satp -> m_csr m2 Sscratch = m_csr m1 Sscratch ->
          (forall a, p_trapframe pr <= a < p_trapframe pr + TF_SIZE -> ldb (m_mem m2) a = ldb (m_mem m1) a) ->
          exists m3, run TRAMPOLINE tramp uservec (trap_s cause m2) = Some m3 /\
            m_mode m3 = SupervisorMode /\ m_pc m3 = Z.clearbit (u64 sym_usertrap) 0 /\
            m_reg m3 SP = u64 (p_kstack pr + PGSIZE) /\ m_reg m3 TP = u64 (h_tp h) /\ m_csr m3 Satp = h_satp h.
Proof.
  intros Hc Hp Hsatp Hsp. do 3 eexists. split; [exact (usertrapret_run s h p pr Hc Hp)|].
  set (tf := p_trapframe pr) in *. intros m Hm Hmem Hs Hst Hepc Ha0 Ha1.
  unfold set_mem, set_h_sepc, set_h_sstatus, set_h_stvec in *. cbn [mem ur_trapframe ur_satp h_satp h_sstatus h_sepc] in *.
  destruct (tf_kernel_fields tf (h_satp h) (u64 (p_kstack pr + PGSIZE)) sym_usertrap (h_tp h) (mem s)) as (F1 & F2 & F3 & F4 & _ & Fr).
  cbn zeta in *. rewrite <- Hmem in *.
  destruct (userret_leaves _ _ _ _ Hsp m) as (m1 & E1 & Hu & Hi & Hpc & Hs1 & Hx1 & Hm1 & Hreg); [done..| |].
  { rewrite (sstatus_bit m 8) by done. rewrite Hst. rewrite Z.lor_spec, !Z.land_spec. apply orb_false_iff. split; [apply andb_false_r|done]. }
  exists m1. do 2 (split; [done|]). split; [|split; [congruence|split; [intros x; by rewrite Hreg, Fr|]]].
  { rewrite Hi, (sstatus_bit m 5) by done. rewrite Hst. by rewrite Z.lor_spec, orb_true_r. }
  intros cause m2 Hm2 Hs2 Hx2 Htf. rewrite Hm1 in Htf.
  assert (forall o, 0 <= o -> o + 8 <= TF_SIZE -> ld64 (m_mem m2) (tf + o) = ld64 (m_mem m) (tf + o)) as Hld.
  { intros o ? ?. apply ld64_ext. intros a Ha. apply Htf. lia. }
  destruct (uservec_enters _ _ _ _ Hsp cause m2) as (m3 & E3 & Hmode & _ & Hs3 & _ & _ & Hpc3 & Hsp3 & Htp3 & _); [done|congruence|congruence| |].
  { rewrite Hld, F1 by lia. by apply u64_small. }
  exists m3. rewrite Hpc3, Hsp3, Htp3, !Hld, F2, F3, F4 by lia. rewrite (u64_small (u64 _)) by apply u64_range. done.
Qed.
End Return.

(** ** Context switches *)

Section Switch.
Context `{MMU} (cva cpa : Z).

Lemma swtch_split : swtch_code = saves A0 ctx_off ctx_regs ++ loads A1 ctx_off ctx_regs ++ [Ret].
Proof. done. Qed.

(** Two contexts that do not overlap. *)
Definition ctx_disjoint (p q : Z) : Prop := p + CTX_SIZE <= q \/ q + CTX_SIZE <= p.

Lemma ctx_saved_out p q f mm r : ctx_disjoint p q -> r ∈ ctx_regs ->
  ld64 (saved p ctx_off f ctx_regs mm) (q + ctx_off r) = ld64 mm (q + ctx_off r).
Proof.
  intros Hd Hr. pose proof ctx_slots as Hs. unfold aligned_slots in Hs. pose proof Hs as Hs'. rewrite Forall_forall in Hs'.
  specialize (Hs' r Hr). apply saved_out64. eapply Forall_impl; [exact Hs|]. cbn beta. intros x Hx. unfold ctx_disjoint in Hd. lia.
Qed.

(** What [swtch(old, new)] does: the context at [p] is saved, the one at [q] is loaded. *)
Lemma swtch_spec m p q :
  xlate m cva = Some cpa -> window m (m_reg m A0) p CTX_SIZE -> window m (m_reg m A1) q CTX_SIZE ->
  ctx_disjoint p q -> reg_range (m_reg m) ->
  exists m1, run cva cpa swtch_code m = Some m1 /\
    m_pc m1 = Z.clearbit (ld64 (m_mem m) (q + ctx_off RA)) 0 /\
    (forall r, r ∈ ctx_regs -> m_reg m1 r = ld64 (m_mem m) (q + ctx_off r)) /\
    (forall r, r ∉ ctx_regs -> m_reg m1 r = m_reg m r) /\
    (forall r, r ∈ ctx_regs -> ld64 (m_mem m1) (p + ctx_off r) = m_reg m r) /\
    (forall x, x < p \/ p + CTX_SIZE <= x -> ldb (m_mem m1) x = ldb (m_mem m) x).
Proof.
  intros Hf Hp Hq Hd Hr. rewrite swtch_split, run_app.
  rewrite (run_saves cva cpa (m_reg m A0) p CTX_SIZE A0 ctx_off ctx_regs ctx_slots) by done. cbn [mbind option_bind].
  rewrite run_app. rewrite (run_loads cva cpa (m_reg m A1) q CTX_SIZE A1 ctx_off ctx_regs ctx_slots);
    [|by apply (bool_decide_unpack _)|done|done|by eapply window_eq, Hq]. cbn [mbind option_bind].
  destruct m as [f c mm md pc]. msimp. erewrite run_cons; [|done|done]. cbn [run]. eexists. split; [done|]. msimp.
  split; [|split; [|split; [|split]]].
  - rewrite loaded_in, ctx_saved_out; [done|done|by apply (bool_decide_unpack _)..].
  - intros r Hin. rewrite loaded_in by done. by apply ctx_saved_out.
  - intros r Hin. by apply loaded_out.
  - intros r Hin. apply saved_in; [apply ctx_apart|done|done].
  - intros x Hx. apply saved_out. eapply Forall_impl; [apply ctx_slots|]. cbn beta. intros. lia.
Qed.

(** C19: a thread that calls [swtch] continues, when some hart switches back to its context, after
    its call and with its callee-saved registers and its stack as they were; in between, the hart
    runs the context that it was given. *)
Theorem swtch_roundtrip m p q :
  xlate m cva = Some cpa -> window m (m_reg m A0) p CTX_SIZE -> window m (m_reg m A1) q CTX_SIZE ->
  ctx_disjoint p q -> reg_range (m_reg m) ->
  exists m1, run cva cpa swtch_code m = Some m1 /\
    m_pc m1 = Z.clearbit (ld64 (m_mem m) (q + ctx_off RA)) 0 /\
    (forall r, r ∈ ctx_regs -> m_reg m1 r = ld64 (m_mem m) (q + ctx_off r)) /\
    (forall r, r ∉ ctx_regs -> m_reg m1 r = m_reg m r) /\
    (forall x, x < p \/ p + CTX_SIZE <= x -> ldb (m_mem m1) x = ldb (m_mem m) x) /\
    forall m2 q', xlate m2 cva = Some cpa -> window m2 (m_reg m2 A0) q' CTX_SIZE -> window m2 (m_reg m2 A1) p CTX_SIZE ->
      ctx_disjoint q' p -> reg_range (m_reg m2) ->
      (forall x, p <= x < p + CTX_SIZE -> ldb (m_mem m2) x = ldb (m_mem m1) x) ->
      exists m3, run cva cpa swtch_code m2 = Some m3 /\ m_pc m3 = Z.clearbit (m_reg m RA) 0 /\
        forall r, r ∈ ctx_regs -> m_reg m3 r = m_reg m r.
Proof.
  intros Hf Hp Hq Hd Hr. destruct (swtch_spec m p q Hf Hp Hq Hd Hr) as (m1 & E1 & Hpc & Hin & Hout & Hsv & Hmem).
  exists m1. do 5 (split; [done|]). intros m2 q' Hf2 Hq' Hp2 Hd2 Hr2 Hsame.
  destruct (swtch_spec m2 q' p Hf2 Hq' Hp2 Hd2 Hr2) as (m3 & E3 & Hpc3 & Hin3 & _).
  assert (forall r, r ∈ ctx_regs -> ld64 (m_mem m2) (p + ctx_off r) = m_reg m r) as Hback.
  { intros r Hc. rewrite <- Hsv by done. apply ld64_ext. intros x Hx. apply Hsame.
    pose proof (proj1 (Forall_forall _ _) ctx_slots r Hc) as Hslot. cbn beta in Hslot. lia. }
  exists m3. split; [done|]. split; [rewrite Hpc3, Hback; [done|by apply (bool_decide_unpack _)]|].
  intros r Hc. by rewrite Hin3, Hback.
Qed.

(** ** Interrupts in the kernel *)

Lemma kernelvec_save_split : kernelvec_save = Addi SP SP (-256) :: saves SP kv_off kv_regs.
Proof. done. Qed.
Lemma kernelvec_restore_split :
  kernelvec_restore = Ld RA 0 SP :: Ld SP 8 SP :: loads SP kv_off kv_rest ++ [Addi SP SP 256; Sret].
Proof. done. Qed.

Lemma kernelvec_save_spec m stk : xlate m cva = Some cpa -> 256 <= m_reg m SP -> reg_range (m_reg m) ->
  window m (m_reg m SP - 256) stk 256 ->
  exists m1, run cva cpa kernelvec_save m = Some m1 /\ m_mode m1 = m_mode m /\ m_csr m1 = m_csr m /\
    m_reg m1 SP = m_reg m SP - 256 /\ (forall r, r <> SP -> m_reg m1 r = m_reg m r) /\
    ld64 (m_mem m1) (stk + kv_off SP) = m_reg m SP - 256 /\
    (forall r, r ∈ kv_regs -> r <> SP -> ld64 (m_mem m1) (stk + kv_off r) = m_reg m r) /\
    (forall x, x < stk \/ stk + 256 <= x -> ldb (m_mem m1) x = ldb (m_mem m) x).
Proof.
  intros Hf Hsp Hr Hw. assert (u64 (m_reg m SP + -256) = m_reg m SP - 256) as Eu.
  { rewrite u64_small; [lia|]. specialize (Hr SP). lia. }
  rewrite kernelvec_save_split. erewrite run_cons; [|done|done]. rewrite Eu.
  rewrite (run_saves cva cpa (m_reg m SP - 256) stk 256 SP kv_off kv_regs kv_slots); [|done|apply upd_eq|by eapply window_eq, Hw].
  assert (reg_range (upd (m_reg m) SP (m_reg m SP - 256))) as Hr'.
  { apply upd_range; [done|]. specialize (Hr SP). lia. }
  eexists. split; [done|]. msimp. split; [done|]. split; [done|]. split; [apply upd_eq|].
  split; [intros r Hne; by apply upd_ne|]. split; [|split].
  - rewrite saved_in; [apply upd_eq|apply kv_apart|done|by apply (bool_decide_unpack _)].
  - intros r Hin Hne. rewrite saved_in; [by apply upd_ne|apply kv_apart|done|done].
  - intros x Hx. apply saved_out. eapply Forall_impl; [apply kv_slots|]. cbn beta. intros. lia.
Qed.

Lemma kernelvec_restore_spec m stk sp : xlate m cva = Some cpa -> m_mode m = SupervisorMode -> m_reg m SP = sp ->
  window m sp stk 256 -> 0 <= sp < 2 ^ 64 - 256 -> ld64 (m_mem m) (stk + kv_off SP) = sp ->
  exists f, run cva cpa kernelvec_restore m = Some (do_sret (set_m_reg f m)) /\
    f SP = sp + 256 /\ f TP = m_reg m TP /\ forall r, r ∈ RA :: kv_rest -> f r = ld64 (m_mem m) (stk + kv_off r).
Proof.
  intros Hf Hm Hsp Hw Hr Hslot. rewrite kernelvec_restore_split. destruct m as [f c mm md pc]. msimp. subst md.
  erewrite run_cons; [|done|by eapply (step_ld _ sp stk 256)]. msimp.
  erewrite run_cons; [|done|by eapply (step_ld _ sp stk 256); [..|eapply window_eq, Hw| | |]]. msimp.
  change (stk + 8) with (stk + kv_off SP). rewrite Hslot, run_app.
  assert (aligned_slots 256 kv_off kv_rest) as Hal by (apply (bool_decide_unpack _); vm_compute; exact I).
  rewrite (run_loads cva cpa sp stk 256 SP kv_off kv_rest Hal); [|by apply (bool_decide_unpack _)|done|done|by eapply window_eq, Hw].
  cbn [mbind option_bind]. msimp. erewrite run_cons; [|done|done]. msimp. erewrite run_cons; [|done|done]. cbn [run].
  eexists. split; [reflexivity|]. assert (SP ∉ kv_rest) as Hn1 by (by apply (bool_decide_unpack _)).
  assert (TP ∉ kv_rest) as Hn2 by (by apply (bool_decide_unpack _)).
  split; [rewrite upd_eq, loaded_out, upd_eq by done; apply u64_small; lia|].
  split; [by rewrite upd_ne, loaded_out, !upd_ne by done|].
  intros r Hin. assert (r <> SP) by (intros ->; by apply elem_of_cons in Hin as [?|?]).
  rewrite upd_ne by done. destruct (decide (r ∈ kv_rest)) as [Hk|Hk]; [by apply loaded_in|].
  apply elem_of_cons in Hin as [->|?]; [|done]. rewrite loaded_out, upd_ne, upd_eq by done. done.
Qed.

Lemma kv_rest_all r : r = SP \/ r = TP \/ r ∈ RA :: kv_rest /\ r ∈ kv_regs.
Proof.
  destruct (decide (r = SP)); [by left|]. destruct (decide (r = TP)); [by right; left|right; right].
  by destruct r; split; apply (bool_decide_unpack _); vm_compute.
Qed.

(** An interrupt in the kernel is invisible to the code that it interrupts: if the call of
    [kerneltrap] returns with the stack pointer, the page table and the frame on the stack as they
    were, [kernelvec] returns to [sepc] with every register as before, but for [tp], which keeps
    the number of the hart that the code now runs on. *)
Theorem kernelvec_transparent call m stk :
  xlate m cva = Some cpa -> m_mode m = SupervisorMode -> 256 <= m_reg m SP -> reg_range (m_reg m) ->
  window m (m_reg m SP - 256) stk 256 ->
  exists m1, run cva cpa kernelvec_save m = Some m1 /\
    (forall x, x < stk \/ stk + 256 <= x -> ldb (m_mem m1) x = ldb (m_mem m) x) /\
    forall m2, call m1 = Some m2 -> m_mode m2 = SupervisorMode -> m_csr m2 Satp = m_csr m1 Satp -> m_reg m2 SP = m_reg m1 SP ->
      (forall x, stk <= x < stk + 256 -> ldb (m_mem m2) x = ldb (m_mem m1) x) ->
      exists m3, kernelvec cva cpa call m = Some m3 /\ m_pc m3 = m_csr m2 Sepc /\ m_mem m3 = m_mem m2 /\
        m_reg m3 TP = m_reg m2 TP /\ forall r, r <> TP -> m_reg m3 r = m_reg m r.
Proof.
  intros Hf Hm Hsp Hr Hw. destruct (kernelvec_save_spec m stk Hf Hsp Hr Hw) as (m1 & E1 & Hm1 & Hc1 & Hsp1 & _ & Hslot & Hregs & Hmem).
  exists m1. split; [done|]. split; [done|]. intros m2 E2 Hm2 Hs2 Hsp2 Hsame. pose proof (Hr SP) as Hrs.
  assert (forall r, r ∈ kv_regs -> ld64 (m_mem m2) (stk + kv_off r) = ld64 (m_mem m1) (stk + kv_off r)) as Hld.
  { intros r Hin. apply ld64_ext. intros x Hx. apply Hsame.
    pose proof (proj1 (Forall_forall _ _) kv_slots r Hin) as Hs. cbn beta in Hs. lia. }
  assert (m_mode m2 = m_mode m) as Em by congruence. assert (m_csr m2 Satp = m_csr m Satp) as Es by congruence.
  destruct (kernelvec_restore_spec m2 stk (m_reg m SP - 256)) as (f & E3 & Fsp & Ftp & Fr);
    [by rewrite (xlate_eq m)|done|congruence|by eapply window_eq, Hw|lia|rewrite Hld; [done|by apply (bool_decide_unpack _)]|].
  exists (do_sret (set_m_reg f m2)). unfold kernelvec. rewrite E1. cbn [mbind option_bind]. rewrite E2. cbn [mbind option_bind].
  rewrite E3. do 4 (split; [done|]). intros r Hne. change (f r = m_reg m r).
  destruct (kv_rest_all r) as [->|[->|[Hin Hin']]]; [rewrite Fsp; lia|done|].
  rewrite Fr, Hld by done. apply Hregs; [done|]. intros ->. revert Hin. by apply (bool_decide_unpack _).
Qed.
End Switch.

(** ** Examples *)

Abbreviation demo_usatp := 0x8000000000087654.
Abbreviation demo_ksatp := 0x8000000000087fff.

(** The trampoline and the trapframe of one process; the kernel's page table is direct. *)
Definition demo_mmu : MMU :=
  {| walk_satp := fun satp va =>
       if va =? TRAMPOLINE then Some 0x80007000
       else if satp =? demo_usatp then
         if (TRAPFRAME <=? va) && (va <? TRAMPOLINE) then Some (0x87000000 + (va - TRAPFRAME)) else None
       else Some va |}.

Lemma demo_space : process_space (H := demo_mmu) demo_usatp demo_ksatp 0x87000000 0x80007000.
Proof.
  constructor; [done| |done]. intros o Ho. unfold xsatp. cbn [walk_satp demo_mmu].
  change (Z.shiftr demo_usatp 60 =? 0) with false. cbn [Z.eqb Pos.eqb].
  rewrite (proj2 (Z.eqb_neq (TRAPFRAME + o) TRAMPOLINE)), (proj2 (Z.leb_le TRAPFRAME (TRAPFRAME + o))),
    (proj2 (Z.ltb_lt (TRAPFRAME + o) TRAMPOLINE)) by lia. cbn [andb]. f_equal. lia.
Qed.

Definition demo_user : machine :=
  MkMachine tf_off (fun c => match c with Satp => demo_usatp | Sscratch => TRAPFRAME | _ => 0 end)
    (st64 ∅ 0x87000000 demo_ksatp) UserMode 0x100.


(** A thread of the kernel that switches to the scheduler. *)
Definition demo_thread : machine :=
  MkMachine (fun r => match r with A0 => 0x80010000 | A1 => 0x80020000 | RA => 0x80002468 | r => kv_off r end) (fun _ => 0)
    (st64 ∅ 0x80020000 0x80001234) SupervisorMode 0.

Lemma swtch_roundtrip_witness :
  exists m1, run (H := demo_mmu) 0x80002000 0x80002000 swtch_code demo_thread = Some m1 /\ m_pc m1 = 0x80001234 /\
    m_reg m1 A1 = 0x80020000.
Proof.
  assert (forall a n, 0 <= a -> a + n <= 2 ^ 64 -> a mod 8 = 0 -> window (H := demo_mmu) demo_thread a a n) as Hw
    by (intros a n ? ? ?; by repeat split).
  destruct (swtch_roundtrip (H := demo_mmu) 0x80002000 0x80002000 demo_thread 0x80010000 0x80020000) as (m1 & E & Hpc & _ & Hout & _).
  - reflexivity.
  - apply Hw; cbn; [lia|lia|reflexivity].
  - apply Hw; cbn; [lia|lia|reflexivity].
  - left. lia.
  - intros r. destruct r; cbn; lia.
  - exists m1. split; [exact E|]. split; [rewrite Hpc; vm_compute; reflexivity|]. rewrite Hout; [reflexivity|].
    apply (bool_decide_unpack _). vm_compute. exact I.
Defined.
