(* ===== verification/Boot.v ===== *)
(** * Boot and the timer

    [kernel/entry.S] and [kernel/start.c], which a hart runs in machine mode before it enters
    [main], and [timervec] of [kernel/kernelvec.S], the machine-mode handler of the timer that
    [timerinit] prepares. *)

From stdpp Require Import gmap strings list.
From S2P Require Import Prelude Layout State Riscv.

(** kernel/memlayout.h *)
Definition CLINT_MTIMECMP (hartid : Z) : Z := CLINT + 0x4000 + 8 * hartid.
Abbreviation CLINT_MTIME := 0x200bff8.

(** [timerinit]: cycles between timer interrupts. *)
Abbreviation interval := 1000000.

(** Addresses that the linker gives. *)
Class BootBuild := { sym_stack0 : Z; sym_timer_scratch : Z; sym_timervec : Z; sym_main : Z }.

Section Boot.
Context `{BootBuild} `{MMU}.

(** kernel/entry.S, up to the call of [start]. *)
Definition entry_code : list instr :=
  [Li SP sym_stack0; Li A0 (1024 * 4); Csrr A1 Mhartid; Addi A1 A1 1; Mul A0 A0 A1; Add SP SP A0].

(** A [uint64] through a pointer. *)
Definition rd64 (a : Z) : HM Z := fun m => match load a m with Some v => Ok v m | None => UB "fault" end.
Definition wr64 (a v : Z) : HM unit := fun m => match store a v m with Some m' => Ok tt m' | None => UB "fault" end.

(** [asm volatile("mret")] *)
Definition asm_mret : HM unit := fun m => match do_mret m with Some m' => Ok tt m' | None => UB "mret" end.

Definition timerinit : HM unit :=
  let! id := r_mhartid in
  let id := s32 id in
  let! t := rd64 CLINT_MTIME in
  wr64 (u64 (CLINT_MTIMECMP id)) (u64 (t + interval)) ;;
  let scratch := u64 (sym_timer_scratch + 40 * id) in
  wr64 (u64 (scratch + 24)) (u64 (CLINT_MTIMECMP id)) ;;
  wr64 (u64 (scratch + 32)) interval ;;
  w_mscratch scratch ;;
  w_mtvec sym_timervec ;;
  let! x := r_mstatus in
  w_mstatus (Z.lor x MSTATUS_MIE) ;;
  let! x := r_mie in
  w_mie (Z.lor x MIE_MTIE).

Definition start : HM unit :=
  let! x := r_mstatus in
  w_mstatus (Z.lor (Z.land x (Z.lnot MSTATUS_MPP_MASK)) MSTATUS_MPP_S) ;;
  w_mepc sym_main ;;
  w_satp 0 ;;
  w_medeleg 0xffff ;;
  w_mideleg 0xffff ;;
  let! x := r_sie in
  w_sie (Z.lor (Z.lor (Z.lor x SIE_SEIE) SIE_STIE) SIE_SSIE) ;;
  w_pmpaddr0 0x3fffffffffffff ;;
  w_pmpcfg0 0xf ;;
  timerinit ;;
  let! id := r_mhartid in
  w_tp (u64 (s32 id)) ;;
  asm_mret.

(** kernel/kernelvec.S *)
Definition timervec : list instr :=
  [Csrrw A0 Mscratch A0; Sd A1 0 A0; Sd A2 8 A0; Sd A3 16 A0;
   Ld A1 24 A0; Ld A2 32 A0; Ld A3 0 A1; Add A3 A3 A2; Sd A3 0 A1;
   Li A1 2; Csrw Sip A1;
   Ld A3 16 A0; Ld A2 8 A0; Ld A1 0 A0; Csrrw A0 Mscratch A0;
   Mret].

(** ** The timer *)

(** What [timervec] relies on: [mscratch] points to a scratch area of five words that holds the
    address of the hart's compare register and the interval, and software interrupts are
    delegated. *)
Record timer_ready (m : machine) (sc cmp : Z) : Prop := {
  tr_scratch : m_csr m Mscratch = sc;
  tr_cmp : ld64 (m_mem m) (sc + 24) = cmp;
  tr_interval : ld64 (m_mem m) (sc + 32) = interval;
  tr_ssip : Z.testbit (m_csr m Mideleg) 1 = true
}.

(** The scratch area and the compare register are words that do not overlap. *)
Record timer_layout (sc cmp : Z) : Prop := {
  tl_scratch : 0 <= sc /\ sc + 40 <= 2 ^ 64 /\ sc mod 8 = 0;
  tl_cmp : 0 <= cmp /\ cmp + 8 <= 2 ^ 64 /\ cmp mod 8 = 0;
  tl_apart : cmp + 8 <= sc \/ sc + 40 <= cmp
}.

Lemma machine_window m a n : m_mode m = MachineMode -> 0 <= a -> a + n <= 2 ^ 64 -> a mod 8 = 0 -> window m a a n.
Proof. intros Hm H1 H2 H3. repeat split; [done..|]. intros o _. unfold xlate. by rewrite Hm. Qed.

(** Memory after [timervec]. *)
Definition ticked (f : reg -> Z) (sc cmp : Z) (mm : gmap Z Z) : gmap Z Z :=
  st64 (st64 (st64 (st64 mm (sc + 0) (f A1)) (sc + 8) (f A2)) (sc + 16) (f A3)) (cmp + 0) (u64 (ld64 mm (cmp + 0) + interval)).

Lemma timervec_run m sc cmp tva : timer_layout sc cmp -> m_mode m = MachineMode -> timer_ready m sc cmp -> reg_range (m_reg m) ->
  exists f c, run tva tva timervec m = do_mret (MkMachine f c (ticked (m_reg m) sc cmp (m_mem m)) MachineMode (m_pc m)) /\
    (forall r, f r = m_reg m r) /\ c Mip = merge (Z.land (m_csr m Mideleg) SSIP) 2 (m_csr m Mip) /\
    (forall x, x <> Mip -> c x = m_csr m x).
Proof.
  intros [(Hs1 & Hs2 & Hs3) (Hc1 & Hc2 & Hc3) Hap] Hm [Tsc Tcmp Tint _] Hr.
  assert (forall m', m_mode m' = MachineMode -> xlate m' tva = Some tva) as Hf by (intros m' E; unfold xlate; by rewrite E).
  assert (forall m', m_mode m' = MachineMode -> window m' sc sc 40) as Hsw by (intros; by apply machine_window).
  assert (forall m', m_mode m' = MachineMode -> window m' cmp cmp 8) as Hcw by (intros; by apply machine_window).
  destruct m as [f c mm md pc]. msimp. subst md. unfold timervec.
  erewrite run_cons; [|by apply Hf|done]. msimp. rewrite Tsc.
  do 3 (erewrite run_cons; [|by apply Hf|by eapply (step_sd _ sc sc 40); [..|apply Hsw| | |]]; msimp).
  rewrite !(upd_ne _ A0) by done.
  set (mm1 := st64 (st64 (st64 mm _ _) _ _) _ _).
  do 2 (erewrite run_cons; [|by apply Hf|by eapply (step_ld _ sc sc 40); [..|apply Hsw| | |]]; msimp).
  assert (ld64 mm1 (sc + 24) = cmp) as -> by (unfold mm1; by rewrite !ld64_st64_ne by lia).
  assert (ld64 mm1 (sc + 32) = interval) as -> by (unfold mm1; by rewrite !ld64_st64_ne by lia).
  erewrite run_cons; [|by apply Hf|by eapply (step_ld _ cmp cmp 8); [..|apply Hcw| | |]]. msimp.
  assert (ld64 mm1 (cmp + 0) = ld64 mm (cmp + 0)) as -> by (unfold mm1; by rewrite !ld64_st64_ne by lia).
  erewrite run_cons; [|by apply Hf|done]. msimp. rewrite (upd_eq _ A3), (upd_ne _ A3), (upd_eq _ A2) by done.
  erewrite run_cons; [|by apply Hf|by eapply (step_sd _ cmp cmp 8); [..|apply Hcw| | |]]. msimp. rewrite (upd_eq _ A3).
  change (st64 mm1 _ _) with (ticked f sc cmp mm).
  do 2 (erewrite run_cons; [|by apply Hf|done]; msimp).
  do 3 (erewrite run_cons; [|by apply Hf|by eapply (step_ld _ sc sc 40); [..|apply Hsw| | |]]; msimp).
  erewrite run_cons; [|by apply Hf|done]. msimp. rewrite run_one by (by apply Hf). cbn [step].
  do 2 eexists. split; [reflexivity|].
  assert (ld64 (ticked f sc cmp mm) (sc + 0) = f A1 /\ ld64 (ticked f sc cmp mm) (sc + 8) = f A2 /\
    ld64 (ticked f sc cmp mm) (sc + 16) = f A3) as (-> & -> & ->).
  { unfold ticked. repeat split; repeat first [rewrite ld64_st64_eq|rewrite ld64_st64_ne by lia]; apply u64_small, Hr. }
  split; [|split; [done|]].
  - intros r. unfold upd. repeat case_decide; congruence.
  - intros x Hx. unfold upd. repeat case_decide; congruence.
Qed.

(** ** Traps to machine mode and back *)

Lemma mpp_spec md new : mode_code md = Z.land (Z.shiftr (merge 0x1800 (Z.shiftl (mode_code md) 11) new) 11) 3.
Proof.
  apply Z.bits_inj'. intros n Hn. rewrite Z.land_spec, Z.shiftr_spec, merge_spec, Z.shiftl_spec by lia.
  replace (n + 11 - 11) with n by lia. destruct (decide (n < 2)) as [Hlt|Hge].
  - assert (n = 0 \/ n = 1) as [-> | ->] by lia; by destruct md.
  - rewrite (Z.bits_above_log2 3) by (cbn; lia). rewrite andb_false_r. destruct md; cbn [mode_code]; [apply Z.testbit_0_l|..];
      apply Z.bits_above_log2; cbn; lia.
Qed.

(** Bits that an excursion to machine mode does not touch. *)
Lemma sstatus_kept st st' :
  (forall n, 0 <= n -> n ∉ [3; 7; 11; 12; 17] -> Z.testbit st' n = Z.testbit st n) -> Z.land st' SSTATUS_MASK = Z.land st SSTATUS_MASK.
Proof.
  intros Hk. apply Z.bits_inj'. intros n Hn. rewrite !Z.land_spec. destruct (Z.testbit SSTATUS_MASK n) eqn:E; [|by rewrite !andb_false_r].
  rewrite !andb_true_r. apply Hk; [done|]. intros Hin. revert E. rewrite !elem_of_cons, elem_of_nil in Hin.
  by destruct Hin as [->|[->|[->|[->|[->|[]]]]]].
Qed.

Lemma set_bit_to_neq b x n k : 0 <= n -> k <> n -> Z.testbit (set_bit_to b x n) k = Z.testbit x k.
Proof. intros Hn Hne. destruct b; cbn; [by apply Z.setbit_neq|by apply Z.clearbit_neq]. Qed.

(** [mret] after a trap, whatever the handler did to registers and memory. *)
Lemma mret_back m f c mm pc : c Mepc = m_csr (trap_m m) Mepc -> c Mstatus = m_csr (trap_m m) Mstatus ->
  exists st, do_mret (MkMachine f c mm MachineMode pc) =
    Some (MkMachine f (upd c Mstatus st) mm (m_mode m) (Z.clearbit (m_pc m) 0)) /\
    Z.land st SSTATUS_MASK = Z.land (m_csr m Mstatus) SSTATUS_MASK.
Proof.
  intros E1 E2. unfold do_mret. msimp. rewrite E1, E2. unfold trap_m. msimp.
  rewrite !upd_eq, (upd_ne _ Mepc), upd_eq by done. rewrite <- mpp_spec.
  rewrite (proj2 (Z.eqb_neq (mode_code (m_mode m)) 2)) by (by destruct (m_mode m)).
  replace (if mode_code (m_mode m) =? 0 then UserMode else _) with (m_mode m) by (by destruct (m_mode m)).
  eexists. split; [reflexivity|]. apply sstatus_kept. intros n Hn Hin.
  rewrite !not_elem_of_cons in Hin. destruct Hin as (N3 & N7 & N11 & N12 & N17 & _).
  assert (Z.testbit 6144 n = false) as E6.
  { destruct (Z.testbit 6144 n) eqn:E; [|done]. destruct (decide (n < 13)); [|rewrite Z.bits_above_log2 in E by (cbn; lia); done].
    assert (n = 0 \/ n = 1 \/ n = 2 \/ n = 4 \/ n = 5 \/ n = 6 \/ n = 8 \/ n = 9 \/ n = 10) as Hc by lia.
    by repeat destruct Hc as [->|Hc]; subst. }
  assert (forall x, Z.testbit (if mode_code (m_mode m) =? 3 then x else Z.clearbit x 17) n = Z.testbit x n) as ->.
  { intros x. destruct (_ =? 3); [done|]. by rewrite Z.clearbit_neq by lia. }
  rewrite merge_spec, E6, Z.setbit_neq, set_bit_to_neq, merge_spec, E6, Z.clearbit_neq, set_bit_to_neq by lia. done.
Qed.

(** C33: a timer interrupt is invisible to the code that it interrupts, in any mode: [timervec]
    gives back every register and returns to where it came from; what it leaves is a pending
    software interrupt for the kernel and the next timer interrupt one interval later, and it is
    ready for that one. *)
Theorem timervec_transparent m sc cmp tva :
  timer_layout sc cmp -> timer_ready m sc cmp -> reg_range (m_reg m) ->
  exists m', run tva tva timervec (trap_m m) = Some m' /\
    m_mode m' = m_mode m /\ m_pc m' = Z.clearbit (m_pc m) 0 /\ (forall r, m_reg m' r = m_reg m r) /\
    csr_read Sstatus m' = csr_read Sstatus m /\ (forall x, x <> Mstatus -> x <> Mepc -> x <> Mip -> m_csr m' x = m_csr m x) /\
    (forall n, Z.testbit (m_csr m' Mip) n = (n =? 1) || Z.testbit (m_csr m Mip) n) /\
    ld64 (m_mem m') cmp = u64 (ld64 (m_mem m) cmp + interval) /\
    (forall x, (x < sc \/ sc + 24 <= x) -> (x < cmp \/ cmp + 8 <= x) -> ldb (m_mem m') x = ldb (m_mem m) x) /\
    timer_ready m' sc cmp.
Proof.
  intros Hl Hrdy Hr. destruct (timervec_run (trap_m m) sc cmp tva Hl) as (f & c & -> & Hf & Hip & Hc); [done| |done|].
  { destruct Hrdy. by constructor. }
  destruct (mret_back m f c (ticked (m_reg (trap_m m)) sc cmp (m_mem (trap_m m))) (m_pc (trap_m m))) as (st & -> & Hst); [by apply Hc..|].
  eexists. split; [done|]. msimp. change (m_mem (trap_m m)) with (m_mem m). destruct Hl as [Hl1 Hl2 Hl3], Hrdy as [R1 R2 R3 R4].
  assert (forall x, (x < sc \/ sc + 24 <= x) -> (x < cmp \/ cmp + 8 <= x) ->
    ldb (ticked (m_reg (trap_m m)) sc cmp (m_mem m)) x = ldb (m_mem m) x) as Hout.
  { intros x H1 H2. unfold ticked. by rewrite !ldb_st64_ne by lia. }
  assert (forall x, x <> Mstatus -> x <> Mepc -> x <> Mip -> upd c Mstatus st x = m_csr m x) as Hcsr.
  { intros x N1 N2 N3. rewrite upd_ne, Hc by done. unfold trap_m. msimp. by rewrite !upd_ne. }
  do 3 (split; [done|]). split; [by rewrite upd_eq|]. split; [done|]. split; [|split; [|split; [done|]]].
  - intros n. rewrite upd_ne, Hip, merge_spec by done. unfold trap_m. msimp. rewrite !upd_ne, Z.land_spec by done.
    destruct (Z.eqb_spec n 1) as [->|Hne]; [by rewrite R4|]. replace (Z.testbit 2 n) with false; [by rewrite andb_false_r|].
    symmetry. destruct (Z.ltb_spec n 0); [by apply Z.testbit_neg_r|]. by apply (Z.pow2_bits_false 1).
  - unfold ticked. rewrite !Z.add_0_r, ld64_st64_eq. apply u64_small, u64_range.
  - constructor; msimp; [by rewrite Hcsr|..|by rewrite Hcsr].
    + trans (ld64 (m_mem m) (sc + 24)); [|done]. apply ld64_ext. intros x Hx. apply Hout; lia.
    + trans (ld64 (m_mem m) (sc + 32)); [|done]. apply ld64_ext. intros x Hx. apply Hout; lia.
Qed.

(** ** Entry *)

(** Every hart gets a stack of its own in [stack0]. *)
Lemma entry_stack m id va : m_mode m = MachineMode -> m_csr m Mhartid = id -> 0 <= id < NCPU ->
  0 <= sym_stack0 -> sym_stack0 + 4096 * NCPU < 2 ^ 64 ->
  exists m', run va va entry_code m = Some m' /\ m_reg m' SP = sym_stack0 + 4096 * (id + 1).
Proof.
  intros Hm Hid Hr H1 H2. assert (forall m', m_mode m' = MachineMode -> xlate m' va = Some va) as Hf by (intros m' E; unfold xlate; by rewrite E).
  destruct m as [f c mm md pc]. msimp. subst md. unfold entry_code. do 6 (erewrite run_cons; [|by apply Hf|done]; msimp).
  eexists. split; [done|]. msimp. rewrite Hid.
  change (u64 (u64 sym_stack0 + u64 (u64 4096 * u64 (id + 1))) = sym_stack0 + 4096 * (id + 1)).
  rewrite (u64_small sym_stack0), (u64_small (id + 1)), (u64_small 4096), (u64_small (4096 * _)), u64_small by lia. lia.
Qed.

(** ** start *)

Lemma wr64_machine a v m : m_mode m = MachineMode -> a mod 8 = 0 -> wr64 a v m = Ok tt (set_m_mem (st64 (m_mem m) a v) m).
Proof. intros Hm Ha. unfold wr64, store, xlate. by rewrite Hm, Ha. Qed.

Lemma rd64_machine a m : m_mode m = MachineMode -> a mod 8 = 0 -> rd64 a m = Ok (ld64 (m_mem m) a) m.
Proof. intros Hm Ha. unfold rd64, load, xlate. by rewrite Hm, Ha. Qed.

(** Memory after [timerinit]. *)
Definition timer_mem (sc cmp : Z) (mm : gmap Z Z) : gmap Z Z :=
  st64 (st64 (st64 mm cmp (u64 (ld64 mm CLINT_MTIME + interval))) (sc + 24) cmp) (sc + 32) interval.

Lemma timerinit_run m id : m_mode m = MachineMode -> m_csr m Mhartid = id -> 0 <= id < NCPU ->
  let sc := sym_timer_scratch + 40 * id in let cmp := CLINT_MTIMECMP id in timer_layout sc cmp ->
  exists c, timerinit m = Ok tt (MkMachine (m_reg m) c (timer_mem sc cmp (m_mem m)) MachineMode (m_pc m)) /\
    c Mscratch = sc /\ c Mtvec = sym_timervec /\ c Mstatus = Z.lor (m_csr m Mstatus) MSTATUS_MIE /\
    c Mie = Z.lor (m_csr m Mie) MIE_MTIE /\
    (forall x, x <> Mscratch -> x <> Mtvec -> x <> Mstatus -> x <> Mie -> c x = m_csr m x).
Proof.
  intros Hm Hid Hr sc cmp [(Hs1 & Hs2 & Hs3) (Hc1 & Hc2 & Hc3) _]. unfold timerinit.
  erewrite bind_ok by reflexivity. cbn [csr_read]. rewrite Hid, s32_small by lia.
  erewrite bind_ok by (by apply rd64_machine). fold cmp sc. rewrite (u64_small cmp), (u64_small sc), !(u64_small (sc + _)) by lia.
  erewrite bind_ok by (by apply wr64_machine).
  erewrite bind_ok by (apply wr64_machine; [done|]; rewrite Z.add_mod, Hs3 by lia; done).
  erewrite bind_ok by (apply wr64_machine; [done|]; rewrite Z.add_mod, Hs3 by lia; done).
  do 5 (erewrite bind_ok by reflexivity). unfold w_mie, modify.
  destruct m as [f c mm md pc]. msimp. subst md. eexists. split; [reflexivity|]. by repeat split; intros; rewrite ?upd_ne.
Qed.

Lemma mpp_supervisor x : Z.land (Z.shiftr (Z.lor (Z.lor (Z.land x (Z.lnot MSTATUS_MPP_MASK)) MSTATUS_MPP_S) MSTATUS_MIE) 11) 3 = 1.
Proof.
  apply Z.bits_inj'. intros n Hn. rewrite Z.land_spec, Z.shiftr_spec by lia.
  destruct (decide (n < 2)) as [Hlt|Hge].
  - rewrite !Z.lor_spec, Z.land_spec. assert (n = 0 \/ n = 1) as [-> | ->] by lia; [by rewrite orb_true_r|].
    change (Z.testbit (Z.lnot MSTATUS_MPP_MASK) (1 + 11)) with false. by rewrite andb_false_r.
  - rewrite (Z.bits_above_log2 3) by (cbn; lia). rewrite andb_false_r. symmetry. apply Z.bits_above_log2; cbn; lia.
Qed.

Lemma sie_enabled x old :
  Z.land (Z.lor (merge (Z.land 0xffff S_INTERRUPTS) (Z.lor (Z.lor (Z.lor x SIE_SEIE) SIE_STIE) SIE_SSIE) old) MIE_MTIE) S_INTERRUPTS = S_INTERRUPTS.
Proof.
  apply Z.bits_inj'. intros n Hn. rewrite Z.land_spec. destruct (Z.testbit S_INTERRUPTS n) eqn:E; [|apply andb_false_r].
  rewrite andb_true_r, Z.lor_spec, merge_spec. change (Z.land 0xffff S_INTERRUPTS) with S_INTERRUPTS. rewrite E, !Z.lor_spec.
  change S_INTERRUPTS with (Z.lor (Z.lor SIE_SEIE SIE_STIE) SIE_SSIE) in E. rewrite !Z.lor_spec in E.
  by destruct (Z.testbit x n), (Z.testbit SIE_SEIE n), (Z.testbit SIE_STIE n), (Z.testbit SIE_SSIE n).
Qed.

(** [start] leaves the hart in [main], in supervisor mode without paging, with its number in [tp],
    traps delegated, interrupts of supervisor mode and of the timer enabled, and the timer set. *)
Theorem start_boots m id : m_mode m = MachineMode -> m_csr m Mhartid = id -> 0 <= id < NCPU ->
  timer_layout (sym_timer_scratch + 40 * id) (CLINT_MTIMECMP id) ->
  exists m', start m = Ok tt m' /\
    m_mode m' = SupervisorMode /\ m_pc m' = Z.clearbit sym_main 0 /\ m_csr m' Satp = 0 /\
    m_reg m' TP = id /\ (forall r, r <> TP -> m_reg m' r = m_reg m r) /\
    m_csr m' Medeleg = 0xffff /\ m_csr m' Mideleg = 0xffff /\ csr_read Sie m' = S_INTERRUPTS /\
    Z.testbit (m_csr m' Mie) 7 = true /\ m_csr m' Mtvec = sym_timervec /\
    ld64 (m_mem m') (CLINT_MTIMECMP id) = u64 (ld64 (m_mem m) CLINT_MTIME + interval) /\
    timer_ready m' (sym_timer_scratch + 40 * id) (CLINT_MTIMECMP id).
Proof.
  intros Hm Hid Hr Hl. unfold start. do 10 (erewrite bind_ok by reflexivity).
  match goal with |- context [bind timerinit _ ?x] => set (m0 := x) end.
  destruct (timerinit_run m0 id Hm Hid Hr Hl) as (c & E & C1 & C2 & C3 & C4 & Hc). rewrite (bind_ok _ _ _ _ _ E). clear E.
  assert (m_reg m0 = m_reg m /\ m_mem m0 = m_mem m) as [-> ->] by done.
  assert (m_csr m0 Mhartid = id /\ m_csr m0 Mepc = Z.clearbit sym_main 0 /\ m_csr m0 Satp = 0 /\ m_csr m0 Medeleg = 0xffff /\
    m_csr m0 Mideleg = 0xffff) as (F1 & F2 & F3 & F4 & F5) by done.
  assert (m_csr m0 Mstatus = Z.lor (Z.land (m_csr m Mstatus) (Z.lnot MSTATUS_MPP_MASK)) MSTATUS_MPP_S) as F6 by done.
  assert (exists x, m_csr m0 Mie = merge (Z.land 0xffff S_INTERRUPTS) (Z.lor (Z.lor (Z.lor x SIE_SEIE) SIE_STIE) SIE_SSIE) (m_csr m Mie))
    as [x F7] by (eexists; reflexivity).
  clearbody m0. rewrite F6 in C3. rewrite F7 in C4. do 2 (erewrite bind_ok by reflexivity). unfold asm_mret, do_mret. msimp.
  rewrite C3, mpp_supervisor. cbn [Z.eqb Pos.eqb]. set (st := Z.clearbit _ 17). eexists. split; [reflexivity|]. msimp.
  rewrite !(upd_ne c), C2, C4, !Hc, F1, F2, F3, F4, F5 by done. rewrite (s32_small id), (u64_small id), upd_eq by lia.
  do 4 (split; [done|]). split; [intros r Hne; by apply upd_ne|]. do 2 (split; [done|]).
  split; [apply sie_enabled|]. split; [by rewrite Z.lor_spec, orb_true_r|]. split; [done|].
  destruct Hl as [(L1 & L2 & _) (L3 & L4 & _) L5]. split.
  - unfold timer_mem. rewrite !ld64_st64_ne, ld64_st64_eq by lia. apply u64_small, u64_range.
  - constructor; msimp; [by rewrite upd_ne|..|rewrite upd_ne, Hc, F5 by done; done].
    + unfold timer_mem. rewrite ld64_st64_ne, ld64_st64_eq by lia. apply u64_small. lia.
    + unfold timer_mem. by rewrite ld64_st64_eq.
Qed.
End Boot.

(** ** Example *)

Definition demo_boot : BootBuild :=
  {| sym_stack0 := 0x8000a000; sym_timer_scratch := 0x80009000; sym_timervec := 0x80005000; sym_main := 0x80001000 |}.
Definition demo_no_mmu : MMU := {| walk_satp := fun _ va => Some va |}.

(** User code on hart 2, with the timer set up. *)
Definition demo_ticking : machine :=
  MkMachine (fun r => if decide (r = A0) then 7 else 0)
    (fun c => match c with Mscratch => 0x80009050 | Mideleg => 0xffff | _ => 0 end)
    (st64 (st64 (st64 ∅ 0x80009068 0x2004010) 0x80009070 interval) 0x2004010 5) UserMode 0x100.

Lemma timervec_transparent_witness :
  exists m', run (H := demo_no_mmu) 0x80005000 0x80005000 timervec (trap_m demo_ticking) = Some m' /\
    m_reg m' A0 = 7 /\ ld64 (m_mem m') 0x2004010 = 1000005.
Proof.
  destruct (timervec_transparent (H0 := demo_no_mmu) demo_ticking 0x80009050 0x2004010 0x80005000)
    as (m' & E & _ & _ & Hr & _ & _ & _ & Hcmp & _).
  - constructor; [split; [lia|split; [lia|reflexivity]]|split; [lia|split; [lia|reflexivity]]|left; lia].
  - constructor; vm_compute; reflexivity.
  - intros r. unfold demo_ticking. cbn. case_decide; lia.
  - exists m'. split; [exact E|]. split; [exact (Hr A0)|]. rewrite Hcmp. vm_compute. reflexivity.
Defined.
